(* ===== verification/_CoqProject ===== *)
-Q . S2P
Prelude.v
GoStrings.v
Collections.v
Planner.v
PlannerFacts.v
PlanTheorems.v
K8s.v
Types.v
ApiTypes.v
Unstructured.v
Codecs.v
FedObject.v
FedObjectTheorems.v
Resources.v
ResourceTheorems.v
PodUtil.v
Triggers.v
TriggersTheorems.v
SchedulingUnit.v
SchedulingUnitTheorems.v
FilterPlugins.v
FilterTheorems.v
Float64.v
ScorePlugins.v
ScoreTheorems.v
Rsp.v
RspTheorems.v
BinPack.v
BinPackTheorems.v
Runtime.v
RuntimeTheorems.v
GenericScheduler.v
GenericSchedulerTheorems.v
Webhook.v
Profile.v
ProfileTheorems.v
Scheduler.v
EnqueueTheorems.v
SchedulerTheorems.v
ReconcileTheorems.v
EndToEndTheorems.v
SyncStatus.v
Version.v
Retain.v
RetainTheorems.v
MemberObjects.v
Dispatch.v
DispatchTheorems.v
SyncResource.v
Naming.v
Sync.v
SyncResourceTheorems.v
SyncTheorems.v
SyncReconcileTheorems.v
OverridePolicy.v
OverriderTheorems.v
OverrideTheorems.v
Federate.v
FederateLibrary.v
FederateTheorems.v
FederateReconcileTheorems.v
AutoMigration.v
AutoMigrationTheorems.v
PolicyRC.v
Follower.v
FollowerTheorems.v
FederatedHPA.v
FederatedHPATheorems.v
InformerManager.v
InformerManagerTheorems.v
NsAutoProp.v
NsAutoPropTheorems.v
Digests.v
StatusPlugins.v
StatusAggregator.v
StatusPluginsTheorems.v
StatusAggregatorTheorems.v
StatusController.v
StatusControllerTheorems.v
