(* ===== verification/Prelude.v ===== *)
(** * KubeAdmiral

    A model of the control plane of KubeAdmiral, which runs Kubernetes objects in
    many member clusters, and the theorems about it.  Paths are below
    [src/pkg].

    ** The program

    A source object of the host cluster is turned into a federated object by the
    federate controller.  An annotation of the federated object lists the
    controllers that still have to process it, group by group.  The scheduler
    picks the member clusters and the replicas in each, the override controller
    computes the patches of each cluster, and the sync controller brings the
    objects of the member clusters in line with template, placement and patches,
    records their versions and the status, and cleans up.  Around this pipeline,
    the auto migration controller tells the scheduler what a cluster cannot run,
    the follower controller places objects with the workloads that use them, the
    federated HPA controller chooses where an autoscaler works, namespace
    propagation places namespaces everywhere, the status controllers bring back
    what the member clusters report, and the policy controller counts the users
    of policies.  The controllers meet only in the objects: each reconciliation
    reads caches, computes, and sends requests to an API server.

    ** How it is modelled

    Data are records and inductive types with the field names of the source, maps
    are [gmap]s, 64-bit integers are [Z] with their wrap-around written out
    ([wrap64] and the operators of this file), floats are [SpecFloat]s
    ([Float64]), JSON values are the type [Value] of [Unstructured].  A method
    that changes its receiver returns the new receiver; a goroutine's interleaving
    is a step relation ([Dispatch]).  An error is the right of a sum, a panic the
    constructor [Panics] of [may_panic] below.  Code that is not in the repository
    is a class whose laws are its documentation: the order in which Go visits a
    map and sorts equal elements ([GoRuntime], below), quantities and selectors
    ([K8s.Kubernetes]), accessors of unstructured objects
    ([Unstructured.UnstructuredHelpers], [Federate.FederateLibraries]), JSON
    ([Codecs.Codecs] and its extensions [SyncResource.PatchCodecs],
    [MemberObjects.AdoptionCodecs], [Follower.FollowerCodecs], [FederatedHPA.HPACodecs],
    [Digests.DigestCodecs], [StatusController.StatusCodecs]), typed statuses
    ([StatusPlugins.StatusLibraries]), webhooks ([Webhook.WebhookLibraries]), images
    ([OverridePolicy.ImageReferences]), the order of a set ([Collections.SetsRuntime]),
    and API servers ([Sync.SyncServer], [Version.VersionServer],
    [Federate.FederateServer], [StatusAggregator.AggregationServer]), each with a
    concrete instance on which the examples evaluate.  Events, metrics and logs have
    no effect on objects and are left out, and so are the work queues of client-go:
    the caches are fields of the record of a controller, and what an event enqueues
    is a function.  A cache lists its objects in one order; where the program depends
    on the order ([Triggers] without a policy) the theorems say so.

    ** The files

    Shared: this file (integers, maps, sorting, outcomes), [GoStrings] (package
    strings and strconv), [Collections] ([util/bijection], [util/multimap]: the multimap
    refines a finite map), [K8s] (apimachinery), [Unstructured], [Codecs].

    The scheduler ([controllers/scheduler]):
    - [Planner] ([planner/planner.go]); [PlannerFacts], [PlanTheorems]:
      the loop ends, the plan respects totals, minima, maxima and capacities, and
      avoids migrations when told to;
    - [Types], [Resources] ([framework]); [ResourceTheorems]:
      resource arithmetic, subtraction included, and score normalisation;
    - [PodUtil] ([util/pod]): the request of a pod;
    - [ApiTypes], [FedObject] ([apis/core/v1alpha1], [util/annotation],
      [util/pendingcontrollers]); [FedObjectTheorems]: placements and overrides of
      one controller, and the handoff between controllers;
    - [Triggers] ([schedulingtriggers.go]); [TriggersTheorems]: what triggers a
      scheduling, that recording the triggers settles, and which orders do not matter;
    - [SchedulingUnit] ([schedulingunit.go]); [SchedulingUnitTheorems];
    - [FilterPlugins], [ScorePlugins] ([framework/plugins]); [FilterTheorems],
      [ScoreTheorems]: each filter accepts exactly what it says; bounds of scores;
    - [Rsp], [BinPack] (replica plugins); [RspTheorems], [BinPackTheorems];
    - [Runtime], [Webhook], [Profile] ([framework/runtime], [extensions/webhook],
      [profile.go]); [RuntimeTheorems] states the contract of a framework that
      [GenericScheduler] ([core/generic_scheduler.go]) relies on, and
      [ProfileTheorems] shows that every created framework keeps it;
      [GenericSchedulerTheorems]: soundness and the exact errors of [Schedule];
    - [Scheduler] ([scheduler.go]); [EnqueueTheorems], [SchedulerTheorems],
      [ReconcileTheorems], [EndToEndTheorems]: events miss no object, results are read
      back, reconciliations settle, and only eligible clusters are placed.

    The sync controller ([controllers/sync]):
    - [SyncStatus] ([status]); [Version] ([version], [util/propagatedversion]):
      a version is written whatever the server has; [Retain] ([dispatch/retain.go]) and [RetainTheorems];
    - [MemberObjects] (labels and annotations of member objects), [Dispatch]
      ([dispatch]) and [DispatchTheorems]: every interleaving of the goroutines has
      the outcome of the sequential run;
    - [SyncResource] ([resource.go], [placement.go], [overrides.go], [accessor.go]) and
      [SyncResourceTheorems]; [Naming] ([util/naming]), its properties included;
    - [Sync] ([controller.go]); [SyncTheorems], [SyncReconcileTheorems]: what is sent to
      member clusters, the status is written ahead, finalizers go last, and
      deletions cascade completely.

    The override controller ([controllers/override]): [OverridePolicy];
    [OverriderTheorems] (each overrider does what its documentation says) and
    [OverrideTheorems] (the stored overrides are those of one pass over the policies
    for each cluster, and reconciliations settle).

    The federate controller ([controllers/federate], [util/propagationstatus]): [Federate],
    a concrete instance of its libraries in [FederateLibrary], [FederateTheorems] (the
    template, round trip of the observed keys) and [FederateReconcileTheorems] (the
    protocol of its requests; the federated object that it leaves is up to date).

    The other controllers:
    - [AutoMigration] ([controllers/automigration]) and [AutoMigrationTheorems]: the
      bounds of the estimated capacities, and that the scheduler reads them back;
    - [PolicyRC] ([controllers/policyrc]): the counts of every reachable counter are
      exact;
    - [Follower] ([controllers/follower]) and [FollowerTheorems]: which followers a
      workload names, and that they are placed where their leaders are;
    - [FederatedHPA] ([controllers/federatedhpa]) and [FederatedHPATheorems]: the modes,
      the events that reach an autoscaler, and what a failed update loses;
    - [NsAutoProp] ([controllers/nsautoprop]) and [NsAutoPropTheorems]: namespaces are
      placed everywhere, and stay so when the federate controller updates them;
    - [InformerManager] ([util/informermanager]) and [InformerManagerTheorems]: the
      informers that run are those of the known kinds, and handlers are added once;
    - [Digests], [StatusPlugins], [StatusAggregator] ([controllers/statusaggregator]) with
      [StatusPluginsTheorems] and [StatusAggregatorTheorems]: sums over the clusters in
      any order, and the requests of a reconciliation;
    - [StatusController] ([controllers/status]) and [StatusControllerTheorems]: the
      entries of a collected status, independently of how they are computed.

    ** Fuel

    - [Planner.distributeLoop] gets as much fuel as there are clusters: a round that
      does not use up the replicas takes a cluster out of the list
      ([PlanTheorems.getDesiredPlan_correct] shows that it returns).
    - The polls of [Version.writeLoop] and [Sync.pollUpdateStatus] have a timeout; the
      rounds it leaves time for are a parameter, and the theorems say what holds for
      every number of rounds, running out included.
    - [Sync.RetryOnConflict] has the four steps of [retry.DefaultBackoff].
    - All other functions recurse on their data.

    ** Not modelled

    Services across clusters ([controllers/mcs]: fields copied between objects of
    client libraries), the joining and health of clusters and the informers of
    member clusters (goroutines around client libraries), the HPA aggregator (an
    API server that forwards requests), flags and start-up, generated clients and
    deep copies, code copied from Kubernetes, and tests.  Of the webhook
    plugins the construction of HTTP transports is left out, and of
    [util/unstructured] what no modelled code calls. *)

From Stdlib Require Import ZArith Lia String Ascii Strings.Byte.
From stdpp Require Export prelude gmap strings list sorting fin_maps.

#[global] Open Scope Z_scope.

Create HintDb go.
Create Rewrite HintDb go.

(** ** Tactics of the development *)

(** Case analysis on every boolean test, option or decision that blocks the
    goal, recording the equation. *)
Ltac split_match :=
  repeat match goal with
  | |- context [match ?x with _ => _ end] => destruct x eqn:?; simplify_eq/=
  end.

(** The same in a hypothesis. *)
Ltac split_match_in H :=
  repeat match type of H with
  | context [match ?x with _ => _ end] => destruct x eqn:?; simplify_eq/=
  end.

(** Turn boolean integer comparisons of the context into propositions. *)
Ltac z_bools :=
  repeat match goal with
  | H : (_ <? _) = true |- _ => apply Z.ltb_lt in H
  | H : (_ <? _) = false |- _ => apply Z.ltb_ge in H
  | H : (_ <=? _) = true |- _ => apply Z.leb_le in H
  | H : (_ <=? _) = false |- _ => apply Z.leb_gt in H
  | H : (_ =? _) = true |- _ => apply Z.eqb_eq in H
  | H : (_ =? _) = false |- _ => apply Z.eqb_neq in H
  | H : (_ && _)%bool = true |- _ => apply andb_true_iff in H; destruct H
  | H : (_ || _)%bool = false |- _ => apply orb_false_iff in H; destruct H
  | H : negb _ = true |- _ => apply negb_true_iff in H
  | H : negb _ = false |- _ => apply negb_false_iff in H
  | H : String.eqb _ _ = true |- _ => apply String.eqb_eq in H
  | H : String.eqb _ _ = false |- _ => apply String.eqb_neq in H
  | H : bool_decide _ = true |- _ => apply bool_decide_eq_true in H
  | H : bool_decide _ = false |- _ => apply bool_decide_eq_false in H
  end.

Ltac zcases := split_match; z_bools; simplify_eq/=; try lia.

(** ** Go's int64: an integer in [-2^63, 2^63), arithmetic wraps around *)

Definition wrap64 (x : Z) : Z := (x + 2 ^ 63) mod 2 ^ 64 - 2 ^ 63.
Definition int64 (x : Z) : Prop := - 2 ^ 63 <= x < 2 ^ 63.

Definition add64 (x y : Z) : Z := wrap64 (x + y).
Definition sub64 (x y : Z) : Z := wrap64 (x - y).
Definition mul64 (x y : Z) : Z := wrap64 (x * y).
(** Go's [/] truncates toward zero. *)
Definition quot64 (x y : Z) : Z := wrap64 (Z.quot x y).

Declare Scope go_scope.
Delimit Scope go_scope with go.
Infix "+!" := add64 (at level 50, left associativity) : go_scope.
Infix "-!" := sub64 (at level 50, left associativity) : go_scope.
Infix "*!" := mul64 (at level 40, left associativity) : go_scope.
Infix "/!" := quot64 (at level 40, left associativity) : go_scope.
#[global] Open Scope go_scope.

Definition minInt64 (a b : Z) : Z := if a <? b then a else b.
Definition maxInt64 (a b : Z) : Z := if b <? a then a else b.

Lemma wrap64_small x : int64 x -> wrap64 x = x.
Proof.
  unfold int64, wrap64. intros H. rewrite Z.mod_small; lia.
Qed.

Lemma wrap64_range x : int64 (wrap64 x).
Proof.
  unfold int64, wrap64. pose proof (Z.mod_pos_bound (x + 2 ^ 63) (2 ^ 64)). lia.
Qed.

Lemma wrap64_congr x y : x mod 2 ^ 64 = y mod 2 ^ 64 -> wrap64 x = wrap64 y.
Proof.
  intros H. unfold wrap64. f_equal.
  rewrite <- (Zplus_mod_idemp_l x), H, Zplus_mod_idemp_l. done.
Qed.

Lemma wrap64_mod x : wrap64 x mod 2 ^ 64 = x mod 2 ^ 64.
Proof.
  unfold wrap64. rewrite Zminus_mod_idemp_l. f_equal. lia.
Qed.

Lemma add64_wrap_l x y : add64 (wrap64 x) y = wrap64 (x + y).
Proof.
  unfold add64. apply wrap64_congr. by rewrite <- Zplus_mod_idemp_l, wrap64_mod, Zplus_mod_idemp_l.
Qed.

Lemma add64_comm x y : add64 x y = add64 y x.
Proof. unfold add64. by rewrite Z.add_comm. Qed.

Lemma add64_assoc x y z : add64 x (add64 y z) = add64 (add64 x y) z.
Proof.
  unfold add64. apply wrap64_congr.
  rewrite <- (Zplus_mod_idemp_r (wrap64 _)), wrap64_mod, Zplus_mod_idemp_r.
  rewrite <- (Zplus_mod_idemp_l (wrap64 _)), wrap64_mod, Zplus_mod_idemp_l.
  f_equal. lia.
Qed.

Lemma add64_small x y : int64 (x + y) -> x +! y = x + y.
Proof. apply wrap64_small. Qed.
Lemma sub64_small x y : int64 (x - y) -> x -! y = x - y.
Proof. apply wrap64_small. Qed.
Lemma mul64_small x y : int64 (x * y) -> x *! y = x * y.
Proof. apply wrap64_small. Qed.

Lemma quot64_small x y : int64 x -> 0 <= x -> 0 < y -> x /! y = x / y.
Proof.
  intros Hx H0 Hy. unfold quot64. rewrite Z.quot_div_nonneg by lia.
  apply wrap64_small. unfold int64 in *.
  pose proof (Z.div_pos x y). pose proof (Z.div_le_upper_bound x y x). nia.
Qed.

Lemma minInt64_min a b : minInt64 a b = Z.min a b.
Proof. unfold minInt64. zcases. Qed.
Lemma maxInt64_max a b : maxInt64 a b = Z.max a b.
Proof. unfold maxInt64. zcases. Qed.

#[export] Hint Rewrite minInt64_min maxInt64_max : go.

(** ** Go maps with string keys

    A [map[string]T] is a [gmap string T]; reading an absent key of a
    [map[string]int64] gives the zero value. *)

Definition mget (m : gmap string Z) (k : string) : Z := default 0 (m !! k).

Lemma mget_insert_eq m k v : mget (<[k := v]> m) k = v.
Proof. unfold mget. by rewrite lookup_insert_eq. Qed.
Lemma mget_insert_ne m k k' v : k <> k' -> mget (<[k := v]> m) k' = mget m k'.
Proof. intros. unfold mget. by rewrite lookup_insert_ne. Qed.
Lemma mget_empty k : mget ∅ k = 0.
Proof. done. Qed.
Lemma mget_Some m k v : m !! k = Some v -> mget m k = v.
Proof. unfold mget. by intros ->. Qed.
Lemma mget_None m k : m !! k = None -> mget m k = 0.
Proof. unfold mget. by intros ->. Qed.

#[export] Hint Rewrite mget_insert_eq mget_empty : go.
#[export] Hint Rewrite mget_insert_ne using congruence : go.

(** [for k, v := range r { m[k] = f(m[k], v) }]: every key is visited once and
    only its own entry is written, so the iteration order is irrelevant. *)
Definition range_update (f : Z -> Z -> Z) (m r : gmap string Z) : gmap string Z :=
  map_fold (fun k v acc => <[k := f (mget acc k) v]> acc) m r.

Lemma range_update_lookup f m r k :
  range_update f m r !! k =
  match r !! k with Some v => Some (f (mget m k) v) | None => m !! k end.
Proof.
  unfold range_update. revert k.
  apply (map_fold_weak_ind (fun acc r => forall k, acc !! k =
    match r !! k with Some v => Some (f (mget m k) v) | None => m !! k end)).
  - done.
  - intros i x r' acc Hi IH k. destruct (decide (i = k)) as [->|Hne].
    + rewrite !lookup_insert_eq. unfold mget. by rewrite IH, Hi.
    + rewrite !lookup_insert_ne by done. apply IH.
Qed.

Lemma range_update_mget f m r k :
  mget (range_update f m r) k =
  match r !! k with Some v => f (mget m k) v | None => mget m k end.
Proof. unfold mget at 1. rewrite range_update_lookup. by case_match. Qed.

(** The sum of the values of a map, as an integer and in int64 arithmetic
    (the latter is [for _, v := range m { s += v }]). *)
Definition msum (m : gmap string Z) : Z := map_fold (fun _ v acc => acc + v) 0 m.
Definition msum64 (m : gmap string Z) : Z := map_fold (fun _ v acc => acc +! v) 0 m.

Lemma msum_empty : msum ∅ = 0.
Proof. apply map_fold_empty. Qed.

Lemma msum_insert_new m k v : m !! k = None -> msum (<[k := v]> m) = msum m + v.
Proof.
  intros H. unfold msum. rewrite map_fold_insert_L; [lia| |done]. intros. lia.
Qed.

Lemma msum_delete m k : msum m = msum (delete k m) + mget m k.
Proof.
  destruct (m !! k) as [v|] eqn:E.
  - rewrite (mget_Some _ _ _ E), <- (msum_insert_new _ k v) by apply lookup_delete_eq.
    by rewrite insert_delete_id.
  - rewrite (mget_None _ _ E), delete_id by done. lia.
Qed.

Lemma msum_insert m k v : msum (<[k := v]> m) = msum m - mget m k + v.
Proof.
  rewrite <- insert_delete_eq, msum_insert_new by apply lookup_delete_eq.
  rewrite (msum_delete m k). lia.
Qed.

Definition all_nonneg (m : gmap string Z) : Prop := forall k v, m !! k = Some v -> 0 <= v.

Lemma all_nonneg_mget m k : all_nonneg m -> 0 <= mget m k.
Proof. unfold mget. intros H. destruct (m !! k) eqn:E; simpl; [eauto|lia]. Qed.

Lemma all_nonneg_insert m k v : all_nonneg m -> 0 <= v -> all_nonneg (<[k := v]> m).
Proof.
  intros Hm Hv k' v'. destruct (decide (k = k')) as [->|Hne].
  - rewrite lookup_insert_eq. by intros [= <-].
  - rewrite lookup_insert_ne by done. apply Hm.
Qed.

Lemma all_nonneg_delete m k : all_nonneg m -> all_nonneg (delete k m).
Proof. intros Hm k' v' [_ H]%lookup_delete_Some. eauto. Qed.

Lemma all_nonneg_empty : all_nonneg ∅.
Proof. intros ??. by rewrite lookup_empty. Qed.

Lemma msum_nonneg m : all_nonneg m -> 0 <= msum m.
Proof.
  unfold msum. apply (map_fold_weak_ind (fun s m => all_nonneg m -> 0 <= s)).
  - lia.
  - intros k v m' s Hk IH Hm.
    assert (0 <= v) by (apply (Hm k v), lookup_insert_eq).
    assert (0 <= s); [|lia]. apply IH. intros k' v' Hl. apply (Hm k' v').
    rewrite lookup_insert_ne; [done|congruence].
Qed.

Lemma mget_le_msum m k : all_nonneg m -> mget m k <= msum m.
Proof.
  intros Hm. rewrite (msum_delete m k).
  pose proof (msum_nonneg _ (all_nonneg_delete m k Hm)). lia.
Qed.

#[export] Hint Resolve all_nonneg_insert all_nonneg_delete all_nonneg_empty
  all_nonneg_mget msum_nonneg mget_le_msum : go.

Lemma map_fold_ext_L {A B} (f g : string -> A -> B -> B) (b : B) (m : gmap string A) :
  (forall k v acc, m !! k = Some v -> f k v acc = g k v acc) ->
  map_fold f b m = map_fold g b m.
Proof.
  intros H. rewrite !map_fold_foldr.
  assert (Hl : forall k v, (k, v) ∈ map_to_list m -> m !! k = Some v)
    by (intros; by apply elem_of_map_to_list).
  induction (map_to_list m) as [|[k v] l IH]; [done|]; simpl.
  rewrite IH by (intros; apply Hl; by right). apply H, Hl. by left.
Qed.

Lemma foldr_add64_wrap {A} (f : A -> Z) l :
  foldr (fun x acc => acc +! f x) 0 l = wrap64 (foldr (fun x acc => acc + f x) 0 l).
Proof.
  induction l as [|x l IH]; [done|]; simpl. rewrite IH. unfold add64.
  apply wrap64_congr. rewrite <- Zplus_mod_idemp_l, wrap64_mod, Zplus_mod_idemp_l. done.
Qed.

Lemma msum64_wrap m : msum64 m = wrap64 (msum m).
Proof.
  unfold msum64, msum. rewrite !map_fold_foldr.
  pose proof (foldr_add64_wrap (snd : string * Z -> Z) (map_to_list m)) as H.
  etrans; [|etrans; [exact H|]].
  - clear H. induction (map_to_list m) as [|[k v] l IH]; [done|]. simpl. by rewrite IH.
  - f_equal. clear H. induction (map_to_list m) as [|[k v] l IH]; [done|]. simpl. by rewrite IH.
Qed.

Lemma msum64_small m : int64 (msum m) -> msum64 m = msum m.
Proof. intros. rewrite msum64_wrap. by apply wrap64_small. Qed.

(** Sums over lists. *)
Definition sumZ {A} (f : A -> Z) (l : list A) : Z := foldr (fun x acc => f x + acc) 0 l.

Lemma sumZ_app {A} (f : A -> Z) l1 l2 : sumZ f (l1 ++ l2) = sumZ f l1 + sumZ f l2.
Proof. induction l1; simpl; lia. Qed.

Lemma sumZ_perm {A} (f : A -> Z) l1 l2 : l1 ≡ₚ l2 -> sumZ f l1 = sumZ f l2.
Proof. induction 1; simpl in *; lia. Qed.

Lemma sumZ_nonneg {A} (f : A -> Z) l : (forall x, x ∈ l -> 0 <= f x) -> 0 <= sumZ f l.
Proof.
  induction l as [|x l IH]; intros H; simpl; [lia|].
  assert (0 <= f x) by (apply H; left). assert (0 <= sumZ f l); [|lia].
  apply IH. intros. apply H. by right.
Qed.

Lemma sumZ_ext {A} (f g : A -> Z) l : (forall x, x ∈ l -> f x = g x) -> sumZ f l = sumZ g l.
Proof.
  induction l as [|x l IH]; intros H; simpl; [done|].
  rewrite (H x) by left. f_equal. apply IH. intros. apply H. by right.
Qed.

Lemma sumZ_zero {A} (l : list A) : sumZ (fun _ => 0) l = 0.
Proof. induction l; simpl; lia. Qed.

Lemma sumZ_le {A} (f g : A -> Z) l : (forall x, x ∈ l -> f x <= g x) -> sumZ f l <= sumZ g l.
Proof.
  induction l as [|x l IH]; intros H; simpl; [lia|].
  assert (f x <= g x) by (apply H; left). assert (sumZ f l <= sumZ g l); [|lia].
  apply IH. intros. apply H. by right.
Qed.

Lemma sumZ_lt {A} (f g : A -> Z) l x : (forall x, x ∈ l -> f x <= g x) -> x ∈ l -> f x < g x -> sumZ f l < sumZ g l.
Proof.
  induction l as [|y l IH]; intros Hle Hx Hlt; [by apply elem_of_nil in Hx|]. simpl.
  assert (f y <= g y) by (apply Hle; by left).
  assert (sumZ f l <= sumZ g l) by (apply sumZ_le; intros z Hz; apply Hle; by right).
  apply elem_of_cons in Hx as [->|Hx]; [lia|].
  assert (sumZ f l < sumZ g l) by (apply IH; [intros z Hz; apply Hle; by right|done..]). lia.
Qed.

Lemma sumZ_elem {A} (f : A -> Z) l x :
  (forall y, y ∈ l -> 0 <= f y) -> x ∈ l -> f x <= sumZ f l.
Proof.
  intros H [l1 [l2 ->]]%list_elem_of_split. rewrite sumZ_app. simpl.
  pose proof (sumZ_nonneg f l1). pose proof (sumZ_nonneg f l2).
  assert (0 <= sumZ f l1 /\ 0 <= sumZ f l2); [|lia].
  split; [apply H0|apply H1]; intros y Hy; apply H; set_solver.
Qed.

Lemma sumZ_sublist {A} (f : A -> Z) l1 l2 :
  (forall x, x ∈ l2 -> 0 <= f x) -> sublist l1 l2 -> sumZ f l1 <= sumZ f l2.
Proof.
  intros H Hs. revert H. induction Hs as [|x l1 l2 Hs IH|x l1 l2 Hs IH]; intros H; simpl; [lia| |].
  - specialize (IH ltac:(intros; apply H; by right)). lia.
  - specialize (IH ltac:(intros; apply H; by right)).
    assert (0 <= f x) by (apply H; left). lia.
Qed.

Lemma msum_map_to_list m : msum m = sumZ snd (map_to_list m).
Proof.
  unfold msum. rewrite map_fold_foldr.
  induction (map_to_list m) as [|[k v] l IH]; simpl; [done|]. rewrite IH. lia.
Qed.

(** A map whose domain is a duplicate-free list of keys. *)
Lemma msum_keys m (ks : list string) :
  NoDup ks -> (forall k, is_Some (m !! k) <-> k ∈ ks) -> msum m = sumZ (mget m) ks.
Proof.
  revert m. induction ks as [|k ks IH]; intros m Hnd Hdom.
  - replace m with (∅ : gmap string Z); [done|]. symmetry. apply map_eq. intros i.
    rewrite lookup_empty. apply eq_None_not_Some. rewrite Hdom. apply not_elem_of_nil.
  - apply NoDup_cons in Hnd as [Hk Hnd]. simpl. rewrite (msum_delete m k), (IH (delete k m)); [| |].
    + rewrite Z.add_comm. f_equal. apply sumZ_ext. intros x Hx. unfold mget.
      rewrite lookup_delete_ne; [done|]. set_solver.
    + done.
    + intros i. destruct (decide (i = k)) as [->|Hne].
      * rewrite lookup_delete_eq. split; [by intros []|done].
      * rewrite lookup_delete_ne by done. rewrite Hdom. set_solver.
Qed.

(** [msum] only depends on the values read by [mget], and is monotone and
    additive in them. *)
Lemma msum_ext m1 m2 : (forall k, mget m1 k = mget m2 k) -> msum m1 = msum m2.
Proof.
  assert (Hz : forall m, (forall k, mget m k = 0) -> msum m = 0).
  { intros m. induction m as [|k v m Hk IH] using map_ind; intros Hm; [apply msum_empty|].
    rewrite msum_insert, (mget_None _ _ Hk). specialize (Hm k) as Hv. rewrite mget_insert_eq in Hv.
    rewrite IH; [lia|]. intros k'. destruct (decide (k = k')) as [->|Hne].
    - by apply mget_None.
    - specialize (Hm k'). by rewrite mget_insert_ne in Hm. }
  revert m2. induction m1 as [|k v m1 Hk IH] using map_ind; intros m2 Hm.
  - rewrite msum_empty, Hz; [done|]. intros k. by rewrite <- Hm.
  - rewrite msum_insert, (mget_None _ _ Hk), (IH (<[k := 0]> m2)).
    + rewrite msum_insert. specialize (Hm k). rewrite mget_insert_eq in Hm. lia.
    + intros k'. destruct (decide (k = k')) as [->|Hne].
      * rewrite mget_insert_eq. by apply mget_None.
      * rewrite mget_insert_ne by done. specialize (Hm k'). by rewrite mget_insert_ne in Hm.
Qed.

Lemma msum_le m1 m2 : (forall k, mget m1 k <= mget m2 k) -> msum m1 <= msum m2.
Proof.
  revert m2. induction m1 as [|k v m1 Hk IH] using map_ind; intros m2 Hm.
  - rewrite msum_empty. apply msum_nonneg. intros k v Hv. specialize (Hm k).
    by rewrite (mget_Some _ _ _ Hv) in Hm.
  - rewrite msum_insert, (mget_None _ _ Hk). specialize (IH (<[k := 0]> m2)).
    rewrite msum_insert in IH. specialize (Hm k) as Hk'. rewrite mget_insert_eq in Hk'.
    assert (msum m1 <= msum m2 - mget m2 k + 0); [|lia]. apply IH.
    intros k'. destruct (decide (k = k')) as [->|Hne].
    + rewrite mget_insert_eq, (mget_None _ _ Hk). lia.
    + rewrite mget_insert_ne by done. specialize (Hm k'). by rewrite mget_insert_ne in Hm.
Qed.

Lemma msum_add m r m' :
  (forall k, mget m' k = mget m k + mget r k) -> msum m' = msum m + msum r.
Proof.
  revert m'. induction r as [|k v r Hk IH] using map_ind; intros m' Hm.
  - rewrite msum_empty, Z.add_0_r. apply msum_ext. intros k. rewrite Hm, mget_empty. lia.
  - rewrite (msum_insert r), (mget_None _ _ Hk).
    specialize (IH (<[k := mget m k]> m')). rewrite msum_insert in IH.
    specialize (Hm k) as Hv. rewrite mget_insert_eq in Hv.
    assert (msum m' - mget m' k + mget m k = msum m + msum r); [|lia]. apply IH.
    intros k'. destruct (decide (k = k')) as [->|Hne].
    + rewrite mget_insert_eq, (mget_None _ _ Hk). lia.
    + rewrite mget_insert_ne by done. rewrite Hm. by rewrite mget_insert_ne.
Qed.

Lemma NoDup_fmap_fst_eq {A B} (f : A -> B) (l : list A) x y :
  NoDup (f <$> l) -> x ∈ l -> y ∈ l -> f x = f y -> x = y.
Proof.
  induction l as [|z l IH]; [by intros _ ?%elem_of_nil|].
  rewrite fmap_cons, NoDup_cons. intros [Hz Hnd].
  intros [->|Hx]%elem_of_cons [->|Hy]%elem_of_cons Hxy; auto.
  - destruct Hz. rewrite Hxy. by apply list_elem_of_fmap_2.
  - destruct Hz. rewrite <- Hxy. by apply list_elem_of_fmap_2.
Qed.

(** ** Comparison functions

    [sort.Slice] and [sort.Sort] take a [less] function which must be a strict
    weak order. *)

Class StrictWeakOrder {A} (less : A -> A -> bool) : Prop := {
  swo_asym : forall x y, less x y = true -> less y x = false;
  swo_negtrans : forall x y z, less x y = false -> less y z = false -> less x z = false
}.

(** [x] may stand before [y] in a slice sorted by [less]. *)
Definition sorted_rel {A} (less : A -> A -> bool) (x y : A) : Prop := less y x = false.

Lemma swo_irrefl {A} (less : A -> A -> bool) `{!StrictWeakOrder less} x : less x x = false.
Proof. destruct (less x x) eqn:E; [|done]. pose proof (swo_asym x x E). congruence. Qed.

Lemma swo_lt_trans_l {A} (less : A -> A -> bool) `{!StrictWeakOrder less} x y z :
  less x y = true -> less z y = false -> less x z = true.
Proof.
  intros H1 H2. destruct (less x z) eqn:E; [done|].
  by rewrite (swo_negtrans x z y E H2) in H1.
Qed.

(** Orders by an integer key, descending, and by a string key, ascending. *)
#[export] Instance swo_Z_desc {A} (f : A -> Z) : StrictWeakOrder (fun x y => f y <? f x).
Proof. split; intros *; rewrite ?Z.ltb_lt, ?Z.ltb_ge; lia. Qed.

Lemma string_compare_lt_trans s1 s2 s3 :
  String.compare s1 s2 = Lt -> String.compare s2 s3 = Lt -> String.compare s1 s3 = Lt.
Proof.
  revert s2 s3. induction s1 as [|a s1 IH]; intros [|b s2] [|c s3]; simpl; try done.
  unfold Ascii.compare.
  destruct (N.compare_spec (N_of_ascii a) (N_of_ascii b)) as [E1|E1|E1];
    destruct (N.compare_spec (N_of_ascii b) (N_of_ascii c)) as [E2|E2|E2];
    destruct (N.compare_spec (N_of_ascii a) (N_of_ascii c)) as [E3|E3|E3];
    try done; try lia. apply IH.
Qed.

Lemma string_ltb_lt s1 s2 : String.ltb s1 s2 = true <-> String.compare s1 s2 = Lt.
Proof. unfold String.ltb. by destruct (String.compare s1 s2). Qed.

Lemma string_ltb_total s1 s2 : String.ltb s1 s2 = false -> String.ltb s2 s1 = false -> s1 = s2.
Proof.
  unfold String.ltb. rewrite (String.compare_antisym s2 s1).
  destruct (String.compare s1 s2) eqn:E; simpl; try done.
  intros _ _. by apply String.compare_eq_iff.
Qed.

#[export] Instance swo_string : StrictWeakOrder String.ltb.
Proof.
  split.
  - intros x y. unfold String.ltb. rewrite (String.compare_antisym y x).
    by destruct (String.compare x y).
  - intros x y z Hxy Hyz. destruct (String.ltb x z) eqn:Hxz; [|done].
    destruct (String.ltb z y) eqn:Hzy.
    + apply string_ltb_lt in Hxz, Hzy.
      pose proof (string_compare_lt_trans _ _ _ Hxz Hzy) as H.
      apply string_ltb_lt in H. congruence.
    + by rewrite (string_ltb_total _ _ Hyz Hzy), Hxz in Hxy.
Qed.

(** Comparing by a projection. *)
#[export] Instance swo_on {A B} (less : B -> B -> bool) (f : A -> B) :
  StrictWeakOrder less -> StrictWeakOrder (fun x y => less (f x) (f y)).
Proof. intros [Ha Hn]. split; eauto. Qed.

(** "if the keys differ compare the keys, else compare by [less2]". *)
Lemma swo_lex {A K} `{EqDecision K} (key : A -> K) (lessK : K -> K -> bool)
    (less2 : A -> A -> bool) :
  StrictWeakOrder lessK ->
  (forall k1 k2, lessK k1 k2 = false -> lessK k2 k1 = false -> k1 = k2) ->
  StrictWeakOrder less2 ->
  StrictWeakOrder (fun x y =>
    if bool_decide (key x = key y) then less2 x y else lessK (key x) (key y)).
Proof.
  intros SK Htot S2. split.
  - intros x y. repeat case_bool_decide; try congruence; [apply swo_asym|apply swo_asym].
  - intros x y z. destruct (decide (key x = key y)) as [Exy|Exy],
      (decide (key y = key z)) as [Eyz|Eyz], (decide (key x = key z)) as [Exz|Exz];
      try congruence; repeat case_bool_decide; try congruence.
    + apply swo_negtrans.
    + rewrite <- Exz. intros H2 H3. by destruct Exy; apply Htot.
    + apply swo_negtrans.
Qed.

(** ** The Go runtime

    Two facilities of the language and its library leave the result open:
    the iteration order of a map, and the order in which [sort.Slice] puts
    elements that compare equal.  The development is parametric in both; the
    laws are the documented ones. *)

Class GoRuntime := {
  range_map : forall {V : Type}, gmap string V -> list (string * V);
  range_map_perm : forall V (m : gmap string V), range_map m ≡ₚ map_to_list m;
  sort_slice : forall {A : Type}, (A -> A -> bool) -> list A -> list A;
  sort_slice_perm : forall A (less : A -> A -> bool) l, sort_slice less l ≡ₚ l;
  sort_slice_sorted : forall A (less : A -> A -> bool) l,
    StrictWeakOrder less -> StronglySorted (sorted_rel less) (sort_slice less l)
}.

Section Runtime.
Context `{GoRuntime}.

Lemma elem_of_range_map {V} (m : gmap string V) k v :
  (k, v) ∈ range_map m <-> m !! k = Some v.
Proof. rewrite range_map_perm. apply elem_of_map_to_list. Qed.

Lemma NoDup_range_map_fst {V} (m : gmap string V) : NoDup (range_map m).*1.
Proof. rewrite range_map_perm. apply NoDup_fst_map_to_list. Qed.

Lemma list_to_map_range_map {V} (m : gmap string V) : list_to_map (range_map m) = m.
Proof using Type.
  rewrite (list_to_map_proper (range_map m) (map_to_list m));
    [by rewrite list_to_map_to_list|apply NoDup_range_map_fst|apply range_map_perm].
Qed.

Lemma elem_of_sort_slice {A} (less : A -> A -> bool) l x :
  x ∈ sort_slice less l <-> x ∈ l.
Proof. by rewrite sort_slice_perm. Qed.
End Runtime.

#[export] Hint Rewrite @elem_of_range_map @elem_of_sort_slice : go.

(** A loop over a map whose body only changes what it observes under the key
    it visits, whatever the order of the visit. *)
Section PointUpdate.
Context {S V B : Type} (obs : S -> string -> B) (f : string -> B -> V -> B)
  (step : S -> string * V -> S).
Hypothesis step_obs : forall s k v n,
  obs (step s (k, v)) n = if decide (n = k) then f k (obs s n) v else obs s n.

Lemma foldl_point_list l s n : NoDup l.*1 ->
  obs (foldl step s l) n =
  match (list_to_map l : gmap string V) !! n with
  | Some v => f n (obs s n) v | None => obs s n end.
Proof using step_obs.
  revert s. induction l as [|[k v] l IH]; intros s; [done|].
  rewrite fmap_cons, NoDup_cons. intros [Hk Hnd]. simpl. rewrite IH, step_obs by done.
  case_decide as E.
  - subst k. rewrite lookup_insert_eq. by rewrite (not_elem_of_list_to_map_1 (M := gmap string) l n Hk).
  - by rewrite lookup_insert_ne by done.
Qed.

Lemma foldl_point `{GoRuntime} (m : gmap string V) s n :
  obs (foldl step s (range_map m)) n =
  match m !! n with Some v => f n (obs s n) v | None => obs s n end.
Proof using step_obs.
  rewrite foldl_point_list by apply NoDup_range_map_fst.
  by rewrite list_to_map_range_map.
Qed.
End PointUpdate.

(** ** Outcomes

    A Go function returns, returns an error, or panics. *)
Inductive outcome (E A : Type) :=
  | Ok (a : A)
  | Err (e : E)
  | Panic.
#[global] Arguments Ok {E A} a.
#[global] Arguments Err {E A} e.
#[global] Arguments Panic {E A}.

(** A slice where it matters whether it is nil, as it does for its JSON. *)
Definition slice (A : Type) : Type := option (list A).
(** [append(s, xs...)]. *)
Definition append {A} (s : slice A) (xs : list A) : slice A :=
  match xs with [] => s | _ => Some (default [] s ++ xs) end.

Lemma append_list {A} (s : slice A) xs : default [] (append s xs) = default [] s ++ xs.
Proof. destruct xs; simpl; [by rewrite app_nil_r|done]. Qed.

(** A value or an error, and the loops that return at the first error. *)
Definition bind_error {A B E} (x : A + E) (f : A -> B + E) : B + E :=
  match x with inl a => f a | inr err => inr err end.

Fixpoint foldl_error {A B E} (f : A -> B -> A + E) (a : A) (l : list B) : A + E :=
  match l with
  | [] => inl a
  | b :: l' => bind_error (f a b) (fun a => foldl_error f a l')
  end.

Lemma bind_error_inl {A B E} (x : A + E) (f : A -> B + E) b :
  bind_error x f = inl b <-> exists a, x = inl a /\ f a = inl b.
Proof. destruct x; simpl; naive_solver. Qed.

Lemma foldl_error_app {A B E} (f : A -> B -> A + E) a l1 l2 :
  foldl_error f a (l1 ++ l2) = bind_error (foldl_error f a l1) (fun a => foldl_error f a l2).
Proof. revert a. induction l1 as [|b l1 IH]; intros a; [done|]. simpl. destruct (f a b); [apply IH|done]. Qed.

(** A loop that does not fail is a fold, and an invariant of its steps holds at
    its end. *)
Lemma foldl_error_inl {A B E} (f : A -> B -> A + E) (g : A -> B -> A) a l :
  (forall a b, b ∈ l -> f a b = inl (g a b)) -> foldl_error f a l = inl (foldl g a l).
Proof.
  revert a. induction l as [|b l IH]; intros a Hf; [done|]. simpl. rewrite Hf by left. simpl.
  apply IH. intros; apply Hf. by right.
Qed.

Lemma foldl_error_ind {A B E} (P : A -> Prop) (f : A -> B -> A + E) a l a' :
  (forall a b a', b ∈ l -> P a -> f a b = inl a' -> P a') -> P a -> foldl_error f a l = inl a' -> P a'.
Proof.
  revert a. induction l as [|b l IH]; intros a Hf Ha; simpl; [by intros [= <-]|].
  rewrite bind_error_inl. intros (a1 & H1 & H2). eapply IH; [|by eapply Hf; [left|..]|done].
  intros; eapply Hf; [by right|done..].
Qed.

(** A computation that returns a value, panics, or needs more fuel than the
    model gave to one of its loops. *)
Inductive may_panic (A : Type) :=
  | Returns (a : A)
  | Panics
  | OutOfFuel.
#[global] Arguments Returns {A} a.
#[global] Arguments Panics {A}.
#[global] Arguments OutOfFuel {A}.

#[export] Instance may_panic_ret : MRet may_panic := fun A a => Returns a.
#[export] Instance may_panic_bind : MBind may_panic := fun A B f m =>
  match m with Returns a => f a | Panics => Panics | OutOfFuel => OutOfFuel end.
#[export] Instance may_panic_fmap : FMap may_panic := fun A B f m =>
  match m with Returns a => Returns (f a) | Panics => Panics | OutOfFuel => OutOfFuel end.

Lemma may_panic_bind_Returns {A B} (m : may_panic A) (f : A -> may_panic B) b :
  (m ≫= f) = Returns b <-> exists a, m = Returns a /\ f a = Returns b.
Proof. destruct m; simpl; naive_solver. Qed.

Lemma may_panic_fmap_Returns {A B} (m : may_panic A) (f : A -> B) b :
  f <$> m = Returns b <-> exists a, m = Returns a /\ b = f a.
Proof. destruct m; simpl; naive_solver. Qed.

(** A loop in the monad whose every step returns. *)
Lemma mapM_Returns {A B} (f : A -> may_panic B) (l : list A) :
  (forall x, x ∈ l -> exists y, f x = Returns y) -> exists k, mapM f l = Returns k.
Proof.
  induction l as [|x l IH]; intros Hl; [by exists []|].
  destruct (Hl x) as [y Hy]; [left|]. destruct IH as [k Hk]; [intros z Hz; apply Hl; by right|].
  exists (y :: k). simpl. rewrite Hy. simpl. by rewrite Hk.
Qed.

Lemma mapM_Returns_Forall2 {A B} (f : A -> may_panic B) (l : list A) k :
  mapM f l = Returns k <-> Forall2 (fun x y => f x = Returns y) l k.
Proof.
  split.
  - revert k. induction l as [|x l IH]; intros k; simpl; [intros [= <-]; constructor|].
    rewrite may_panic_bind_Returns. intros (y & Hy & H).
    apply may_panic_bind_Returns in H as (k' & Hk & [= <-]). constructor; auto.
  - induction 1 as [|x y l k Hxy Hlk IH]; [done|]. simpl. rewrite Hxy. simpl. by rewrite IH.
Qed.

(** Two sorted permutations of a list in which only equal elements compare as
    equivalent are the same list. *)
Lemma sorted_perm_unique {A} (less : A -> A -> bool) (l1 l2 : list A) :
  l1 ≡ₚ l2 ->
  (forall x y, x ∈ l1 -> y ∈ l1 -> less x y = false -> less y x = false -> x = y) ->
  StronglySorted (sorted_rel less) l1 -> StronglySorted (sorted_rel less) l2 -> l1 = l2.
Proof.
  intros Hp Htot H1 H2. apply (StronglySorted_unique_strong (sorted_rel less)); [|done..].
  intros x y Hx Hy Hxy Hyx. unfold sorted_rel in *.
  apply Htot; [done| |done..]. by rewrite Hp.
Qed.

(** *** A concrete runtime

    Maps are visited in the order of [map_to_list]; slices are sorted by the
    insertion sort that [sort.Slice] uses up to twelve elements. *)

Section InsertionSort.
Context {A : Type} (less : A -> A -> bool).

(** [l] is the sorted prefix, last element first. *)
Fixpoint insert_back (x : A) (l : list A) : list A :=
  match l with
  | [] => [x]
  | y :: l' => if less x y then y :: insert_back x l' else x :: l
  end.

Definition insertion_sort (l : list A) : list A :=
  reverse (foldl (fun acc x => insert_back x acc) [] l).

Lemma insert_back_perm x l : insert_back x l ≡ₚ x :: l.
Proof.
  induction l as [|y l IH]; [done|]. simpl. case_match; [|done].
  rewrite IH. constructor.
Qed.

Lemma insert_back_sorted `{!StrictWeakOrder less} x l :
  StronglySorted (flip (sorted_rel less)) l ->
  StronglySorted (flip (sorted_rel less)) (insert_back x l).
Proof.
  unfold flip, sorted_rel.
  induction 1 as [|y l Hl IH Hy]; simpl; [repeat constructor|].
  destruct (less x y) eqn:E.
  - constructor; [done|]. rewrite insert_back_perm. constructor; [|done].
    by apply swo_asym.
  - constructor; [by constructor|]. constructor; [done|].
    eapply Forall_impl; [exact Hy|]. intros z Hz. simpl in *.
    by eapply swo_negtrans.
Qed.

Lemma insertion_sort_perm l : insertion_sort l ≡ₚ l.
Proof.
  unfold insertion_sort. rewrite reverse_Permutation.
  assert (Hg : forall acc, foldl (fun acc x => insert_back x acc) acc l ≡ₚ acc ++ l).
  { induction l as [|x l IH]; intros acc; simpl; [by rewrite app_nil_r|].
    rewrite IH, insert_back_perm. by rewrite <- Permutation_middle. }
  apply (Hg []).
Qed.

Lemma StronglySorted_reverse (R : relation A) l :
  StronglySorted (flip R) l -> StronglySorted R (reverse l).
Proof.
  induction 1 as [|x l Hl IH Hx]; [constructor|].
  rewrite reverse_cons. apply StronglySorted_app. split_and!; [|done|repeat constructor].
  intros y z Hy Hz. apply list_elem_of_singleton in Hz as ->.
  rewrite elem_of_reverse in Hy. rewrite Forall_forall in Hx. by apply Hx.
Qed.

Lemma insertion_sort_sorted `{!StrictWeakOrder less} l :
  StronglySorted (sorted_rel less) (insertion_sort l).
Proof.
  apply StronglySorted_reverse.
  assert (Hg : forall acc, StronglySorted (flip (sorted_rel less)) acc ->
    StronglySorted (flip (sorted_rel less)) (foldl (fun acc x => insert_back x acc) acc l)).
  { induction l; intros acc Hacc; simpl; auto using insert_back_sorted. }
  apply Hg. constructor.
Qed.
End InsertionSort.

Definition small_runtime : GoRuntime := {|
  range_map := fun V m => map_to_list m;
  range_map_perm := fun V m => reflexivity _;
  sort_slice := fun A less l => insertion_sort less l;
  sort_slice_perm := fun A less l => insertion_sort_perm less l;
  sort_slice_sorted := fun A less l _ => insertion_sort_sorted less l
|}.

Lemma reversed_range_perm V (m : gmap string V) : reverse (map_to_list m) ≡ₚ map_to_list m.
Proof. apply reverse_Permutation. Qed.

Lemma reversed_sort_perm A (less : A -> A -> bool) l : insertion_sort less (reverse l) ≡ₚ l.
Proof. rewrite insertion_sort_perm. apply reverse_Permutation. Qed.

(** A second runtime, which visits maps and equal elements the other way round. *)
Definition reversed_runtime : GoRuntime := {|
  range_map := fun V m => reverse (map_to_list m);
  range_map_perm := reversed_range_perm;
  sort_slice := fun A less l => insertion_sort less (reverse l);
  sort_slice_perm := reversed_sort_perm;
  sort_slice_sorted := fun A less l _ => insertion_sort_sorted less (reverse l)
|}.

(** ** Evaluation on concrete inputs *)

(** Close a goal of the form [b = true] by evaluating [b]. *)
Ltac by_eval := vm_cast_no_check (eq_refl true).

(** A property of all entries of a concrete map, by evaluation. *)
Lemma map_Forall_eval {V} (P : string -> V -> Prop) `{!forall k v, Decision (P k v)}
    (m : gmap string V) :
  bool_decide (map_Forall P m) = true -> forall k v, m !! k = Some v -> P k v.
Proof. by intros ?%bool_decide_eq_true. Qed.

Lemma all_nonneg_eval m :
  bool_decide (map_Forall (fun _ v => 0 <= v) (m : gmap string Z)) = true -> all_nonneg m.
Proof. intros H. exact (map_Forall_eval (fun _ v => 0 <= v) m H). Qed.

(** Case analysis on a member of a concrete list. *)
Ltac each_member :=
  repeat match goal with
  | H : _ ∈ [] |- _ => apply not_elem_of_nil in H; destruct H
  | H : _ ∈ _ :: _ |- _ => apply elem_of_cons in H as [->|H]
  end.

(** ** [hash/fnv]: the 32-bit FNV-1 hash of a byte string *)

Definition fnv32_step (h : Z) (c : ascii) : Z :=
  Z.lxor ((h * 16777619) mod 2 ^ 32) (Z.of_N (N_of_ascii c)).

(** [hasher.Write([]byte(s))] from the hasher state [h]. *)
Fixpoint fnv32_write (h : Z) (s : string) : Z :=
  match s with
  | EmptyString => h
  | String c s' => fnv32_write (fnv32_step h c) s'
  end.

Definition fnv32_offset : Z := 2166136261.

Example fnv32_foobar : fnv32_write fnv32_offset "foobar" = 0x31f0b262.
Proof. vm_compute. reflexivity. Qed.
