(* ===== verification/GoStrings.v ===== *)
(** * Strings and numbers of Go's standard library

    The functions of packages [strings] and [strconv] that the code calls, and
    their round trips. *)

From Stdlib Require Import ZArith Lia String Ascii DecimalString DecimalZ.
From S2P Require Import Prelude.

(** [strings.HasPrefix] and [strings.Contains]. *)
Definition HasPrefix (s p : string) : bool := String.prefix p s.

Fixpoint Contains (s sub : string) : bool :=
  String.prefix sub s ||
  match s with EmptyString => false | String _ s' => Contains s' sub end.

(** [strings.TrimPrefix]. *)
Fixpoint TrimPrefix (s p : string) : string :=
  match p, s with
  | EmptyString, _ => s
  | String a p', String b s' => if Ascii.eqb a b && String.prefix p' s' then TrimPrefix s' p' else s
  | _, _ => s
  end.

(** [strings.Split(s, c)]. *)
Fixpoint split_on (c : ascii) (s : string) : list string :=
  match s with
  | EmptyString => [EmptyString]
  | String a s' =>
      match split_on c s' with
      | [] => []
      | x :: xs => if Ascii.eqb a c then EmptyString :: x :: xs else String a x :: xs
      end
  end.

Fixpoint string_has (c : ascii) (s : string) : bool :=
  match s with EmptyString => false | String a s' => Ascii.eqb a c || string_has c s' end.

(** [strings.Trim] with one character, and [strings.ReplaceAll] of one. *)
Fixpoint TrimLeft (c : ascii) (s : string) : string :=
  match s with
  | EmptyString => EmptyString
  | String a s' => if Ascii.eqb a c then TrimLeft c s' else s
  end.
Fixpoint TrimRight (c : ascii) (s : string) : string :=
  match s with
  | EmptyString => EmptyString
  | String a s' =>
      match TrimRight c s' with
      | EmptyString => if Ascii.eqb a c then EmptyString else String a EmptyString
      | t => String a t
      end
  end.
Definition Trim (c : ascii) (s : string) : string := TrimRight c (TrimLeft c s).

Fixpoint ReplaceAll (s : string) (old new : ascii) : string :=
  match s with
  | EmptyString => EmptyString
  | String a s' => String (if Ascii.eqb a old then new else a) (ReplaceAll s' old new)
  end.

(** [s[:i]] and [s[i+1:]] for the index [i] of the first [c], if any. *)
Fixpoint cut (c : ascii) (s : string) : option (string * string) :=
  match s with
  | EmptyString => None
  | String a s' =>
      if Ascii.eqb a c then Some (EmptyString, s')
      else match cut c s' with
           | Some (before, after) => Some (String a before, after)
           | None => None
           end
  end.

Lemma cut_spec c s : match cut c s with
  | Some (before, after) => s = (before ++ String c after)%string /\ string_has c before = false
  | None => string_has c s = false
  end.
Proof.
  induction s as [|a s IH]; [done|]. simpl. destruct (Ascii.eqb_spec a c) as [->|Hne]; [done|].
  destruct (cut c s) as [[before after]|]; [|done]. simpl.
  apply Ascii.eqb_neq in Hne. rewrite Hne.
  destruct IH as [-> ->]. done.
Qed.

Lemma string_app_nil_r s : (s ++ "")%string = s.
Proof. induction s as [|a s IH]; [done|]. change (String a (s ++ "")%string = String a s). by rewrite IH. Qed.

Lemma string_app_assoc s t u : ((s ++ t) ++ u)%string = (s ++ (t ++ u))%string.
Proof.
  induction s as [|a s IH]; [done|]. change (String a ((s ++ t) ++ u)%string = String a (s ++ (t ++ u))%string). by rewrite IH.
Qed.

Lemma TrimPrefix_app p s : TrimPrefix (p ++ s) p = s.
Proof.
  induction p as [|a p IH]; [by destruct s|]. simpl. rewrite Ascii.eqb_refl.
  replace (String.prefix p (p ++ s)) with true; [apply IH|]. clear IH.
  induction p as [|b p IH]; [by destruct s|]. simpl. by destruct (ascii_dec b b).
Qed.

Lemma HasPrefix_app p s : HasPrefix (p ++ s) p = true.
Proof.
  unfold HasPrefix. induction p as [|b p IH]; [by destruct s|]. simpl.
  destruct (ascii_dec b b); [done|congruence].
Qed.

Lemma split_on_nonempty c s : split_on c s <> [].
Proof. induction s as [|a s IH]; [done|]. simpl. destruct (split_on c s); [done|]. by destruct (Ascii.eqb a c). Qed.

Lemma split_on_single c s : string_has c s = false -> split_on c s = [s].
Proof.
  induction s as [|a s IH]; [done|]. simpl. intros [Ha Hs]%orb_false_iff. by rewrite (IH Hs), Ha.
Qed.

Lemma split_on_app c s t : string_has c s = false -> split_on c (s ++ String c t) = s :: split_on c t.
Proof.
  induction s as [|a s IH]; simpl.
  - intros _. rewrite Ascii.eqb_refl. pose proof (split_on_nonempty c t). by destruct (split_on c t).
  - intros [Ha Hs]%orb_false_iff. rewrite (IH Hs), Ha. done.
Qed.

(** Splitting what was joined. *)
Lemma split_on_concat c l : l <> [] -> Forall (fun s => string_has c s = false) l ->
  split_on c (String.concat (String c EmptyString) l) = l.
Proof.
  induction l as [|s [|t l] IH]; [done|..]; intros _ Hl; inversion_clear Hl as [|?? Hs Hl'].
  - by apply split_on_single.
  - change (String.concat (String c "") (s :: t :: l)) with (s ++ String c (String.concat (String c "") (t :: l)))%string.
    rewrite split_on_app by done. by rewrite IH.
Qed.

(** [%d], [strconv.Itoa]. *)
Definition decimal (n : Z) : string := NilZero.string_of_int (Z.to_int n).

Definition parse_decimal (s : string) : Z + string :=
  match NilZero.int_of_string s with Some d => inl (Z.of_int d) | None => inr "not a number"%string end.

Lemma parse_decimal_decimal n : parse_decimal (decimal n) = inl n.
Proof.
  unfold parse_decimal, decimal.
  assert (Hnil : forall d, Z.to_int n = d -> d <> Decimal.Pos Decimal.Nil /\ d <> Decimal.Neg Decimal.Nil).
  { intros d <-. split; intros Hd; pose proof (DecimalZ.of_to n) as Hn; rewrite Hd in Hn;
      simpl in Hn; subst n; discriminate Hd. }
  destruct (Hnil _ eq_refl). rewrite NilZero.isi by done. by rewrite DecimalZ.of_to.
Qed.

(** [strconv.ParseInt(s, 10, bits)]: a sign, if any, then digits. *)
Definition ParseIntSize (bits : Z) (s : string) : Z + string :=
  let value :=
    match s with
    | EmptyString => None
    | String a s' => if Ascii.eqb a "+" then Z.of_uint <$> NilZero.uint_of_string s'
                     else Z.of_int <$> NilZero.int_of_string s
    end in
  match value with
  | Some n => if (- 2 ^ (bits - 1) <=? n) && (n <? 2 ^ (bits - 1)) then inl n else inr "value out of range"%string
  | None => inr "invalid syntax"%string
  end.
Definition ParseInt : string -> Z + string := ParseIntSize 64.

Lemma ParseInt_decimal n : int64 n -> ParseInt (decimal n) = inl n.
Proof.
  intros [H1 H2]. pose proof (parse_decimal_decimal n) as H. unfold ParseInt, ParseIntSize, parse_decimal in *.
  change (64 - 1) with 63.
  destruct (decimal n) as [|a s]; [done|]. destruct (Ascii.eqb_spec a "+") as [->|Ha].
  - cbn in H. by destruct (NilEmpty.uint_of_string s).
  - destruct (NilZero.int_of_string (String a s)) as [d|]; [|done]. injection H as H. simpl fmap.
    cbn [fmap option_fmap option_map]. rewrite H. replace (- 2 ^ 63 <=? n) with true by (symmetry; apply Z.leb_le; lia).
    by replace (n <? 2 ^ 63) with true by (symmetry; apply Z.ltb_lt; lia).
Qed.
