(* ===== verification/Collections.v ===== *)
(** * Maps with their inverses ([pkg/util/bijection], [pkg/util/multimap])

    [Bijection] is a map between two types that is one to one, [MultiMap] one
    that is many to one.  Both keep the map and its inverse; every operation
    holds their lock.  The set that [MultiMap_LookupByT1] returns is the map's own
    and not a copy of it. *)

From Stdlib Require Import ZArith Lia.
From S2P Require Import Prelude.

(** Package sets of client libraries; loops over a set have an order of the same
    kind. *)
Class SetsRuntime := {
  UnsortedList : forall {A} `{Countable A}, gset A -> list A;
  UnsortedList_perm : forall A `{Countable A} (x : gset A), UnsortedList x ≡ₚ elements x
}.

(** Why an addition is refused: the key and what it is mapped to. *)
Inductive AddError (T1 T2 : Type) :=
  | AlreadyMappedT1 (t1 : T1) (value : T2)
  | AlreadyMappedT2 (t2 : T2) (value : T1).
Arguments AlreadyMappedT1 {T1 T2} _ _.
Arguments AlreadyMappedT2 {T1 T2} _ _.

Record Bijection (T1 T2 : Type) `{Countable T1} `{Countable T2} := {
  bij_t1ToT2Map : gmap T1 T2;
  bij_t2ToT1Map : gmap T2 T1
}.
Arguments bij_t1ToT2Map {T1 T2 _ _ _ _} _.
Arguments bij_t2ToT1Map {T1 T2 _ _ _ _} _.

Record MultiMap (T1 T2 : Type) `{Countable T1} `{Countable T2} := {
  mm_t1ToT2Map : gmap T1 (gset T2);
  mm_t2ToT1Map : gmap T2 T1
}.
Arguments mm_t1ToT2Map {T1 T2 _ _ _ _} _.
Arguments mm_t2ToT1Map {T1 T2 _ _ _ _} _.

Section Operations.
Context `{T : SetsRuntime} {T1 T2 : Type} `{Countable T1} `{Countable T2}.

(** ** Bijections *)

Definition NewBijection : Bijection T1 T2 := {| bij_t1ToT2Map := ∅; bij_t2ToT1Map := ∅ |}.

Definition Bijection_LookupByT1 (m : Bijection T1 T2) (key : T1) : option T2 := bij_t1ToT2Map m !! key.
Definition Bijection_LookupByT2 (m : Bijection T1 T2) (key : T2) : option T1 := bij_t2ToT1Map m !! key.

Definition Bijection_Add (m : Bijection T1 T2) (t1 : T1) (t2 : T2) : Bijection T1 T2 + AddError T1 T2 :=
  match bij_t1ToT2Map m !! t1 with
  | Some val => inr (AlreadyMappedT1 t1 val)
  | None =>
      match bij_t2ToT1Map m !! t2 with
      | Some val => inr (AlreadyMappedT2 t2 val)
      | None => inl {| bij_t1ToT2Map := <[t1 := t2]> (bij_t1ToT2Map m);
                       bij_t2ToT1Map := <[t2 := t1]> (bij_t2ToT1Map m) |}
      end
  end.

Definition Bijection_DeleteT1 (m : Bijection T1 T2) (key : T1) : Bijection T1 T2 * bool :=
  match bij_t1ToT2Map m !! key with
  | None => (m, false)
  | Some val => ({| bij_t1ToT2Map := delete key (bij_t1ToT2Map m);
                    bij_t2ToT1Map := delete val (bij_t2ToT1Map m) |}, true)
  end.

Definition Bijection_DeleteT2 (m : Bijection T1 T2) (key : T2) : Bijection T1 T2 * bool :=
  match bij_t2ToT1Map m !! key with
  | None => (m, false)
  | Some val => ({| bij_t1ToT2Map := delete val (bij_t1ToT2Map m);
                    bij_t2ToT1Map := delete key (bij_t2ToT1Map m) |}, true)
  end.

(** ** Multimaps *)

Definition NewMultiMap : MultiMap T1 T2 := {| mm_t1ToT2Map := ∅; mm_t2ToT1Map := ∅ |}.

Definition MultiMap_LookupByT1 (o : MultiMap T1 T2) (key : T1) : option (gset T2) := mm_t1ToT2Map o !! key.
Definition MultiMap_LookupByT2 (o : MultiMap T1 T2) (key : T2) : option T1 := mm_t2ToT1Map o !! key.

(** The first test is of the pair, the second of the second key alone. *)
Definition MultiMap_Add (o : MultiMap T1 T2) (t1 : T1) (t2 : T2) : MultiMap T1 T2 + AddError T1 T2 :=
  if match mm_t1ToT2Map o !! t1 with Some val => bool_decide (t2 ∈ val) | None => false end
  then inr (AlreadyMappedT1 t1 t2)
  else
    match mm_t2ToT1Map o !! t2 with
    | Some val => inr (AlreadyMappedT2 t2 val)
    | None =>
        let set := match mm_t1ToT2Map o !! t1 with Some set => set | None => {[t2]} end in
        let set := set ∪ {[t2]} in
        inl {| mm_t1ToT2Map := <[t1 := set]> (mm_t1ToT2Map o); mm_t2ToT1Map := <[t2 := t1]> (mm_t2ToT1Map o) |}
    end.

Definition MultiMap_DeleteT1 (o : MultiMap T1 T2) (key : T1) : MultiMap T1 T2 * bool :=
  match mm_t1ToT2Map o !! key with
  | None => (o, false)
  | Some val =>
      ({| mm_t1ToT2Map := delete key (mm_t1ToT2Map o);
          mm_t2ToT1Map := foldl (fun m subVal => delete subVal m) (mm_t2ToT1Map o) (UnsortedList val) |}, true)
  end.

(** Deleting from a nil set does nothing. *)
Definition MultiMap_DeleteT2 (o : MultiMap T1 T2) (key : T2) : MultiMap T1 T2 * bool :=
  match mm_t2ToT1Map o !! key with
  | None => (o, false)
  | Some val =>
      let t2ToT1Map := delete key (mm_t2ToT1Map o) in
      let t1ToT2Map := match mm_t1ToT2Map o !! val with
                       | Some set => <[val := set ∖ {[key]}]> (mm_t1ToT2Map o)
                       | None => mm_t1ToT2Map o
                       end in
      let t1ToT2Map := if Z.of_nat (size (default ∅ (t1ToT2Map !! val))) =? 0 then delete val t1ToT2Map
                       else t1ToT2Map in
      ({| mm_t1ToT2Map := t1ToT2Map; mm_t2ToT1Map := t2ToT1Map |}, true)
  end.
End Operations.

(** ** Specifications

    A bijection is a one-to-one finite map, a multimap the finite map from its
    second type to its first. *)

Inductive map_operation (T1 T2 : Type) :=
  | OpAdd (t1 : T1) (t2 : T2)
  | OpDeleteT1 (t1 : T1)
  | OpDeleteT2 (t2 : T2).
Arguments OpAdd {T1 T2} _ _.
Arguments OpDeleteT1 {T1 T2} _.
Arguments OpDeleteT2 {T1 T2} _.

(** What an operation returns: the error of an addition, or whether there was
    something to delete. *)
Definition map_result (T1 T2 : Type) : Type := option (AddError T1 T2) + bool.

Section Specifications.
Context `{T : SetsRuntime} {T1 T2 : Type} `{Countable T1} `{Countable T2}.
Implicit Types (M : gmap T2 T1) (o : MultiMap T1 T2) (b : Bijection T1 T2) (op : map_operation T1 T2).

Definition multimap_step o op : MultiMap T1 T2 * map_result T1 T2 :=
  match op with
  | OpAdd t1 t2 => match MultiMap_Add o t1 t2 with inl o' => (o', inl None) | inr err => (o, inl (Some err)) end
  | OpDeleteT1 t1 => let '(o', deleted) := MultiMap_DeleteT1 o t1 in (o', inr deleted)
  | OpDeleteT2 t2 => let '(o', deleted) := MultiMap_DeleteT2 o t2 in (o', inr deleted)
  end.

(** The keys that are mapped to [t1]. *)
Definition fibre M (t1 : T1) : gset T2 := dom (filter (fun '(_, v) => v = t1) M).

Definition multimap_spec M op : gmap T2 T1 * map_result T1 T2 :=
  match op with
  | OpAdd t1 t2 =>
      match M !! t2 with
      | None => (<[t2 := t1]> M, inl None)
      | Some v => (M, inl (Some (if decide (v = t1) then AlreadyMappedT1 t1 t2 else AlreadyMappedT2 t2 v)))
      end
  | OpDeleteT1 t1 => (filter (fun '(_, v) => v <> t1) M, inr (negb (bool_decide (fibre M t1 = ∅))))
  | OpDeleteT2 t2 => (delete t2 M, inr (bool_decide (is_Some (M !! t2))))
  end.

Definition bijection_step b op : Bijection T1 T2 * map_result T1 T2 :=
  match op with
  | OpAdd t1 t2 => match Bijection_Add b t1 t2 with inl b' => (b', inl None) | inr err => (b, inl (Some err)) end
  | OpDeleteT1 t1 => let '(b', deleted) := Bijection_DeleteT1 b t1 in (b', inr deleted)
  | OpDeleteT2 t2 => let '(b', deleted) := Bijection_DeleteT2 b t2 in (b', inr deleted)
  end.

(** A run of operations, with what each returned. *)
Fixpoint run_operations {S R O} (step : S -> O -> S * R) (s : S) (ops : list O) : S * list R :=
  match ops with
  | [] => (s, [])
  | x :: ops =>
      let '(s, r) := step s x in
      let '(s, results) := run_operations step s ops in
      (s, r :: results)
  end.

(** The multimap [o] stands for [M]. *)
Record represents o M : Prop := {
  rep_t2 : mm_t2ToT1Map o = M;
  rep_t1 : forall t1, mm_t1ToT2Map o !! t1 = if decide (fibre M t1 = ∅) then None else Some (fibre M t1)
}.

Lemma elem_of_fibre M t1 t2 : t2 ∈ fibre M t1 <-> M !! t2 = Some t1.
Proof using Type.
  unfold fibre. rewrite elem_of_dom. split.
  - intros [v Hv]. apply map_lookup_filter_Some in Hv as [Hv He]. by rewrite Hv, He.
  - intros Hm. exists t1. by apply map_lookup_filter_Some.
Qed.

Lemma rep_set o M t1 set : represents o M -> mm_t1ToT2Map o !! t1 = Some set -> set = fibre M t1.
Proof using Type. intros [_ Hr] Hs. rewrite Hr in Hs. by case_decide; [|injection Hs]. Qed.

Lemma rep_None o M t1 : represents o M -> mm_t1ToT2Map o !! t1 = None -> fibre M t1 = ∅.
Proof using Type. intros [_ Hr] Hs. rewrite Hr in Hs. by case_decide. Qed.

Lemma new_represents : represents NewMultiMap ∅.
Proof using Type.
  split; [done|]. intros t1. rewrite decide_True; [apply lookup_empty|].
  apply leibniz_equiv, elem_of_equiv_empty. intros t2. by rewrite elem_of_fibre, lookup_empty.
Qed.

Lemma fibre_insert M t1 t2 k : M !! t2 = None ->
  fibre (<[t2 := t1]> M) k = if decide (k = t1) then fibre M k ∪ {[t2]} else fibre M k.
Proof using Type.
  intros Hn. apply leibniz_equiv. intros x. case_decide as Hk; rewrite ?elem_of_union, ?elem_of_singleton, !elem_of_fibre;
    destruct (decide (x = t2)) as [->|Hx]; rewrite ?lookup_insert_eq, ?lookup_insert_ne, ?Hn by done; naive_solver.
Qed.

Lemma fibre_delete M t2 k : fibre (delete t2 M) k = fibre M k ∖ {[t2]}.
Proof using Type.
  apply leibniz_equiv. intros x. rewrite elem_of_difference, elem_of_singleton, !elem_of_fibre.
  destruct (decide (x = t2)) as [->|Hx]; [rewrite lookup_delete_eq|rewrite lookup_delete_ne]; naive_solver.
Qed.

Lemma fibre_without M t1 k : fibre (filter (fun '(_, v) => v <> t1) M) k = if decide (k = t1) then ∅ else fibre M k.
Proof using Type.
  apply leibniz_equiv. intros x. rewrite elem_of_fibre, map_lookup_filter_Some.
  case_decide as Hk; rewrite ?elem_of_empty, ?elem_of_fibre; naive_solver.
Qed.

Lemma delete_all (l : list T2) M k :
  foldl (fun m x => delete x m) M l !! k = if decide (k ∈ l) then None else M !! k.
Proof using Type.
  revert M. induction l as [|x l IH]; intros M; cbn [foldl].
  - rewrite decide_False; [done|apply not_elem_of_nil].
  - rewrite IH. destruct (decide (k = x)) as [->|Hk].
    + rewrite lookup_delete_eq. rewrite (decide_True (P := x ∈ x :: l)) by left. by case_decide.
    + rewrite lookup_delete_ne by done. destruct (decide (k ∈ l)).
      * by rewrite decide_True by by right.
      * rewrite decide_False; [done|]. by rewrite not_elem_of_cons.
Qed.

Lemma add_represents o M t1 t2 : represents o M ->
  (multimap_step o (OpAdd t1 t2)).2 = (multimap_spec M (OpAdd t1 t2)).2 /\
  represents (multimap_step o (OpAdd t1 t2)).1 (multimap_spec M (OpAdd t1 t2)).1.
Proof using Type.
  intros Hr. pose proof Hr as [Ht2 Ht1]. unfold multimap_step, multimap_spec, MultiMap_Add. rewrite Ht2, Ht1.
  destruct (M !! t2) as [v|] eqn:Em.
  - destruct (decide (v = t1)) as [->|Hv].
    + assert (t2 ∈ fibre M t1) as Hin by by apply elem_of_fibre.
      rewrite decide_False by set_solver. by rewrite bool_decide_eq_true_2.
    + assert (t2 ∉ fibre M t1) as Hout by (rewrite elem_of_fibre; congruence).
      case_decide; [done|]. by rewrite bool_decide_eq_false_2.
  - assert (t2 ∉ fibre M t1) as Hout by (rewrite elem_of_fibre; congruence).
    assert (forall k, (<[t1 := fibre M t1 ∪ {[t2]}]> (mm_t1ToT2Map o)) !! k =
      if decide (fibre (<[t2 := t1]> M) k = ∅) then None else Some (fibre (<[t2 := t1]> M) k)) as Hk.
    { intros k. rewrite fibre_insert by done. destruct (decide (k = t1)) as [->|Hne].
      - rewrite lookup_insert_eq, decide_False; [done|set_solver].
      - rewrite lookup_insert_ne by done. apply Ht1. }
    destruct (decide (fibre M t1 = ∅)) as [He|He]; [|rewrite bool_decide_eq_false_2 by done];
      (split; [done|split; [done|]]); cbn [fst mm_t1ToT2Map]; [|exact Hk].
    replace ({[t2]} ∪ {[t2]}) with (fibre M t1 ∪ {[t2]}) by (rewrite He; set_solver). exact Hk.
Qed.

Lemma deleteT1_represents o M t1 : represents o M ->
  (multimap_step o (OpDeleteT1 t1)).2 = (multimap_spec M (OpDeleteT1 t1)).2 /\
  represents (multimap_step o (OpDeleteT1 t1)).1 (multimap_spec M (OpDeleteT1 t1)).1.
Proof using Type.
  intros Hr. pose proof Hr as [Ht2 Ht1]. unfold multimap_step, multimap_spec, MultiMap_DeleteT1. rewrite Ht1, Ht2.
  assert (forall k v, v = t1 -> M !! k = Some v -> k ∈ fibre M t1) as Hin by (intros; subst; by apply elem_of_fibre).
  case_decide as He.
  - rewrite bool_decide_eq_true_2 by done. split; [done|]. cbn. replace (filter _ M) with M; [done|].
    symmetry. apply map_filter_id. intros k v Hm ->. specialize (Hin k t1 eq_refl Hm). set_solver.
  - rewrite bool_decide_eq_false_2 by done. split; [done|]. split; cbn [fst mm_t1ToT2Map mm_t2ToT1Map].
    + apply map_eq. intros k. rewrite delete_all. apply option_eq. intros v. rewrite map_lookup_filter_Some.
      assert (k ∈ UnsortedList (fibre M t1) <-> k ∈ fibre M t1) as Hl by by rewrite UnsortedList_perm, elem_of_elements.
      case_decide as Hk; rewrite Hl, elem_of_fibre in Hk; naive_solver.
    + intros k. rewrite fibre_without. destruct (decide (k = t1)) as [->|Hk].
      * by rewrite lookup_delete_eq, decide_True.
      * by rewrite lookup_delete_ne.
Qed.

Lemma deleteT2_represents o M t2 : represents o M ->
  (multimap_step o (OpDeleteT2 t2)).2 = (multimap_spec M (OpDeleteT2 t2)).2 /\
  represents (multimap_step o (OpDeleteT2 t2)).1 (multimap_spec M (OpDeleteT2 t2)).1.
Proof using Type.
  intros Hr. pose proof Hr as [Ht2 Ht1]. unfold multimap_step, multimap_spec, MultiMap_DeleteT2. rewrite Ht2.
  destruct (M !! t2) as [v|] eqn:Em; [|by rewrite delete_id].
  assert (t2 ∈ fibre M v) as Hin by by apply elem_of_fibre.
  rewrite Ht1, decide_False by set_solver. split; [done|]. split; [done|]. intros k. cbn [fst mm_t1ToT2Map].
  rewrite lookup_insert_eq, fibre_delete. cbn [default id].
  destruct (Z.eqb_spec (Z.of_nat (size (fibre M v ∖ {[t2]}))) 0) as [Hz|Hz].
  - assert (fibre M v ∖ {[t2]} = ∅) as He by (apply leibniz_equiv, size_empty_inv; lia).
    destruct (decide (k = v)) as [->|Hk].
    + by rewrite lookup_delete_eq, decide_True.
    + rewrite lookup_delete_ne, lookup_insert_ne, Ht1 by done.
      replace (fibre M k ∖ {[t2]}) with (fibre M k); [done|]. apply leibniz_equiv. intros x.
      rewrite elem_of_difference, elem_of_singleton, elem_of_fibre. naive_solver.
  - destruct (decide (k = v)) as [->|Hk].
    + rewrite lookup_insert_eq, decide_False; [done|]. intros E. rewrite E, size_empty in Hz. lia.
    + rewrite lookup_insert_ne, Ht1 by done.
      replace (fibre M k ∖ {[t2]}) with (fibre M k); [done|]. apply leibniz_equiv. intros x.
      rewrite elem_of_difference, elem_of_singleton, elem_of_fibre. naive_solver.
Qed.

Lemma step_represents o M op : represents o M ->
  (multimap_step o op).2 = (multimap_spec M op).2 /\ represents (multimap_step o op).1 (multimap_spec M op).1.
Proof using Type.
  destruct op; [apply add_represents|apply deleteT1_represents|apply deleteT2_represents].
Qed.

(** Two machines in related states run alike. *)
Lemma run_simulation {S S' R O} (step : S -> O -> S * R) (step' : S' -> O -> S' * R) (rel : S -> S' -> Prop) ops s s' :
  (forall s s' x, rel s s' -> (step s x).2 = (step' s' x).2 /\ rel (step s x).1 (step' s' x).1) ->
  rel s s' ->
  (run_operations step s ops).2 = (run_operations step' s' ops).2 /\
  rel (run_operations step s ops).1 (run_operations step' s' ops).1.
Proof using Type.
  intros Hstep. revert s s'. induction ops as [|x ops IH]; intros s s' Hrel; [done|]. cbn [run_operations].
  destruct (Hstep s s' x Hrel) as [Hr Hs]. destruct (step s x) as [s1 r], (step' s' x) as [s1' r'].
  cbn [fst snd] in Hr, Hs. subst r'. specialize (IH s1 s1' Hs) as [IHr IHs].
  destruct (run_operations step s1 ops), (run_operations step' s1' ops). cbn [fst snd] in *. by subst.
Qed.

(** A multimap whose two maps agree. *)
Definition coherent o : Prop := represents o (mm_t2ToT1Map o).

Lemma represents_coherent o M : represents o M -> coherent o /\ mm_t2ToT1Map o = M.
Proof using Type. intros Hr. pose proof Hr as [<- _]. done. Qed.

Lemma Add_coherent o t1 t2 : coherent o -> mm_t2ToT1Map o !! t2 = None ->
  exists o', MultiMap_Add o t1 t2 = inl o' /\ coherent o' /\ mm_t2ToT1Map o' = <[t2 := t1]> (mm_t2ToT1Map o).
Proof using T.
  intros Hc Hn. destruct (add_represents _ _ t1 t2 Hc) as [Hres Hrep]. unfold multimap_step, multimap_spec in *.
  rewrite Hn in *. destruct (MultiMap_Add o t1 t2) as [o'|]; [|done]. exists o'. split; [done|].
  by apply represents_coherent.
Qed.

Lemma DeleteT2_coherent o t2 : coherent o ->
  coherent (MultiMap_DeleteT2 o t2).1 /\ mm_t2ToT1Map (MultiMap_DeleteT2 o t2).1 = delete t2 (mm_t2ToT1Map o).
Proof using T.
  intros Hc. destruct (deleteT2_represents _ _ t2 Hc) as [_ Hrep]. unfold multimap_step, multimap_spec in Hrep.
  destruct (MultiMap_DeleteT2 o t2) as [o' b]. by apply represents_coherent.
Qed.

(** The keys that are found from the one they are mapped to. *)
Lemma elem_of_LookupByT1 o t1 t2 : coherent o -> MultiMap_LookupByT2 o t2 = Some t1 ->
  exists set, MultiMap_LookupByT1 o t1 = Some set /\ t2 ∈ set.
Proof using Type.
  intros [_ Hc] Hl. unfold MultiMap_LookupByT1. rewrite Hc.
  assert (t2 ∈ fibre (mm_t2ToT1Map o) t1) as Hin by by apply elem_of_fibre.
  rewrite decide_False by set_solver. by eexists.
Qed.

Lemma elem_of_UnsortedList {D} `{Countable D} (x : gset D) a : a ∈ UnsortedList x <-> a ∈ x.
Proof using Type. by rewrite UnsortedList_perm, elem_of_elements. Qed.

(** C30. A multimap behaves as the finite map from its second type to its first:
    after any additions and deletions, every operation returned what it returns
    on the map, a key of the second type is looked up in the map, and a key of the
    first type has the set of all the keys that are mapped to it, or no set when
    there is none. *)
Theorem multimap_refines (ops : list (map_operation T1 T2)) :
  let o := (run_operations multimap_step NewMultiMap ops).1 in
  let M := (run_operations multimap_spec ∅ ops).1 in
  (run_operations multimap_step NewMultiMap ops).2 = (run_operations multimap_spec ∅ ops).2 /\
  (forall t2, MultiMap_LookupByT2 o t2 = M !! t2) /\
  (forall t1 set, MultiMap_LookupByT1 o t1 = Some set <->
     set <> ∅ /\ forall t2, t2 ∈ set <-> M !! t2 = Some t1).
Proof using Type.
  cbv zeta. destruct (run_simulation multimap_step multimap_spec represents ops NewMultiMap ∅ step_represents new_represents)
    as [Hres Hrep]. set (o := (run_operations multimap_step NewMultiMap ops).1) in *.
  set (M := (run_operations multimap_spec ∅ ops).1) in *. destruct Hrep as [Ht2 Ht1]. split_and!.
  - done.
  - intros t2. unfold MultiMap_LookupByT2. by rewrite Ht2.
  - intros t1 set. unfold MultiMap_LookupByT1. rewrite Ht1. case_decide as He; split.
    + done.
    + intros [Hne Hset]. destruct Hne. rewrite <- He. apply leibniz_equiv. intros t2. by rewrite Hset, elem_of_fibre.
    + intros [= <-]. split; [done|]. intros t2. apply elem_of_fibre.
    + intros [_ Hset]. f_equal. apply leibniz_equiv. intros t2. by rewrite Hset, elem_of_fibre.
Qed.

(** ** Bijections *)

(** The two maps of a bijection are inverse to each other. *)
Definition mutual b : Prop := forall t1 t2, bij_t1ToT2Map b !! t1 = Some t2 <-> bij_t2ToT1Map b !! t2 = Some t1.

Lemma new_mutual : mutual NewBijection.
Proof using Type. intros t1 t2. cbn. by rewrite !lookup_empty. Qed.

Lemma Add_mutual b t1 t2 b' : mutual b -> Bijection_Add b t1 t2 = inl b' -> mutual b'.
Proof using Type.
  unfold Bijection_Add. intros Hb. destruct (bij_t1ToT2Map b !! t1) eqn:E1; [done|].
  destruct (bij_t2ToT1Map b !! t2) eqn:E2; [done|]. intros [= <-] x y. cbn.
  rewrite !lookup_insert_Some. specialize (Hb x y) as Hxy. split.
  - intros [[-> ->]|[Hx Hl]]; [by left|]. right. split; [|by apply Hxy]. intros ->. apply Hxy in Hl. congruence.
  - intros [[-> ->]|[Hy Hl]]; [by left|]. right. split; [|by apply Hxy]. intros ->. apply Hxy in Hl. congruence.
Qed.

Lemma delete_mutual b x y : mutual b -> bij_t1ToT2Map b !! x = Some y ->
  mutual {| bij_t1ToT2Map := delete x (bij_t1ToT2Map b); bij_t2ToT1Map := delete y (bij_t2ToT1Map b) |}.
Proof using Type.
  intros Hb Hxy t1 t2. cbn. rewrite !lookup_delete_Some. pose proof (Hb t1 t2) as H12. pose proof (Hb x y) as Hxy'.
  split; intros [Hne Hl]; (split; [|by apply H12]); intros <-; apply Hne.
  - apply H12 in Hl. apply Hxy' in Hxy. congruence.
  - apply H12 in Hl. congruence.
Qed.

Lemma DeleteT1_mutual b x : mutual b -> mutual (Bijection_DeleteT1 b x).1.
Proof using Type.
  intros Hb. unfold Bijection_DeleteT1. destruct (bij_t1ToT2Map b !! x) as [y|] eqn:E; [|done]. by apply delete_mutual.
Qed.

Lemma DeleteT2_mutual b y : mutual b -> mutual (Bijection_DeleteT2 b y).1.
Proof using Type.
  intros Hb. unfold Bijection_DeleteT2. destruct (bij_t2ToT1Map b !! y) as [x|] eqn:E; [|done].
  apply delete_mutual; [done|]. by apply Hb.
Qed.

(** After any operations, the lookups of a bijection are inverse to each other. *)
Theorem bijection_mutual (ops : list (map_operation T1 T2)) :
  mutual (run_operations bijection_step NewBijection ops).1.
Proof using Type.
  enough (forall b, mutual b -> mutual (run_operations bijection_step b ops).1) as Hrun by apply Hrun, new_mutual.
  induction ops as [|op ops IH]; intros b Hb; [done|].
  assert (mutual (bijection_step b op).1) as Hs.
  { destruct op as [t1 t2|t1|t2]; cbn [bijection_step].
    - destruct (Bijection_Add b t1 t2) eqn:E; [by eapply Add_mutual|done].
    - pose proof (DeleteT1_mutual b t1 Hb). by destruct (Bijection_DeleteT1 b t1).
    - pose proof (DeleteT2_mutual b t2 Hb). by destruct (Bijection_DeleteT2 b t2). }
  cbn [run_operations]. destruct (bijection_step b op) as [b' r]. specialize (IH b' Hs).
  by destruct (run_operations bijection_step b' ops).
Qed.
End Specifications.
