(* ===== verification/Planner.v ===== *)
(** * The replica planner (pkg/controllers/scheduler/planner/planner.go)

    [Plan] divides a number of replicas between clusters: [getDesiredPlan]
    computes a distribution from minimum, maximum, weight and capacity of each
    cluster; [scaleUp] and [scaleDown] move the current distribution toward it
    without migrating replicas.  Replica counts are int64 values, additions
    and products wrap around; the hypotheses of the theorems ([planner_input])
    bound the inputs so that no operation does.

    [for modified && remainingReplicas > 0] is a loop with fuel; a run that
    needs more iterations than clusters is reported as [None], and
    [getDesiredPlan_correct] shows that this does not happen. *)

From Stdlib Require Import ZArith Lia String.
From S2P Require Import Prelude.

(** ** Data *)

Record ClusterPreferences := {
  MinReplicas : Z;
  MaxReplicas : option Z;
  Weight : Z
}.

(** [ReplicaSchedulingPreference.Clusters]; the key ["*"] stands for every
    cluster without an entry of its own. *)
Record ReplicaSchedulingPreference := { Clusters : gmap string ClusterPreferences }.

Record namedClusterPreferences := {
  clusterName : string;
  hash : Z;
  pref : ClusterPreferences
}.

(** [byWeight.Less]: decreasing weight, then increasing hash. *)
Definition byWeight_Less (a b : namedClusterPreferences) : bool :=
  (Weight (pref b) <? Weight (pref a))
  || ((Weight (pref a) =? Weight (pref b)) && (hash a <? hash b)).

#[export] Instance byWeight_swo : StrictWeakOrder byWeight_Less.
Proof.
  split; unfold byWeight_Less; intros *;
    rewrite ?orb_true_iff, ?orb_false_iff, ?andb_true_iff, ?andb_false_iff,
      ?Z.ltb_lt, ?Z.ltb_ge, ?Z.eqb_eq, ?Z.eqb_neq; lia.
Qed.

(** The state of [getDesiredPlan] between two clusters. *)
Record planState := {
  remainingReplicas : Z;
  plan : gmap string Z;
  overflow : gmap string Z
}.

(** The state of one pass of the distribution loop. *)
Record passState := {
  ps : planState;
  newPreferences : list namedClusterPreferences;
  modified : bool
}.

(** [if capacity, hasCapacity := caps[name]; hasCapacity && x > capacity { x = capacity }]. *)
Definition limit (caps : gmap string Z) (name : string) (x : Z) : Z :=
  match caps !! name with
  | Some capacity => if capacity <? x then capacity else x
  | None => x
  end.

(** The same test as a condition. *)
Definition exceeds (caps : gmap string Z) (name : string) (x : Z) : bool :=
  match caps !! name with
  | Some capacity => capacity <? x
  | None => false
  end.

Definition over_max (max : option Z) (x : Z) : bool :=
  match max with Some m => m <? x | None => false end.

Section GetDesiredPlan.
Variables estimatedCapacity limitedCapacity : gmap string Z.

(** One iteration of "assign each cluster the minimum number of replicas". *)
Definition assignMin (st : planState) (p : namedClusterPreferences) : planState :=
  let name := clusterName p in
  let min := minInt64 (MinReplicas (pref p)) (remainingReplicas st) in
  let min := limit limitedCapacity name min in
  let '(min, ovf) :=
    match estimatedCapacity !! name with
    | Some capacity =>
        if capacity <? min then (capacity, <[name := min -! capacity]> (overflow st))
        else (min, overflow st)
    | None => (min, overflow st)
    end in
  {| remainingReplicas := remainingReplicas st -! min;
     plan := <[name := min]> (plan st);
     overflow := ovf |}.

(** One iteration of the inner loop of the distribution. *)
Definition distributeStep (distributeInThisLoop weightSum : Z)
    (s : passState) (p : namedClusterPreferences) : passState :=
  let name := clusterName p in
  let start := mget (plan (ps s)) name in
  let extra := (distributeInThisLoop *! Weight (pref p) +! weightSum -! 1) /! weightSum in
  let extra := minInt64 extra (remainingReplicas (ps s)) in
  let total := start +! extra in
  let full := over_max (MaxReplicas (pref p)) total in
  let total := match MaxReplicas (pref p) with
               | Some m => if m <? total then m else total
               | None => total
               end in
  let full := full || exceeds limitedCapacity name total in
  let total := limit limitedCapacity name total in
  let '(total, full, ovf) :=
    match estimatedCapacity !! name with
    | Some capacity =>
        if capacity <? total then
          (capacity, true,
           <[name := mget (overflow (ps s)) name +! (total -! capacity)]> (overflow (ps s)))
        else (total, full, overflow (ps s))
    | None => (total, full, overflow (ps s))
    end in
  {| ps := {| remainingReplicas := remainingReplicas (ps s) -! (total -! start);
              plan := <[name := total]> (plan (ps s));
              overflow := ovf |};
     newPreferences := if full then newPreferences s else newPreferences s ++ [p];
     modified := modified s || (start <? total) |}.

Definition weightSum64 (preferences : list namedClusterPreferences) : Z :=
  foldl (fun acc p => acc +! Weight (pref p)) 0 preferences.

(** [for modified && remainingReplicas > 0 { ... }]. *)
Fixpoint distributeLoop (fuel : nat) (preferences : list namedClusterPreferences)
    (st : planState) (modified0 : bool) : option planState :=
  if negb (modified0 && (0 <? remainingReplicas st)) then Some st else
  let weightSum := weightSum64 preferences in
  if weightSum <=? 0 then Some st else
  match fuel with
  | O => None
  | S fuel' =>
      let s := foldl (distributeStep (remainingReplicas st) weightSum)
                 {| ps := st; newPreferences := []; modified := false |} preferences in
      distributeLoop fuel' (newPreferences s) (ps s) (modified s)
  end.

(** [for key, value := range overflow { ... }]: trim the overflow to the
    replicas that were placed nowhere. *)
Definition trimOverflow (remaining : Z) (ovf : gmap string Z) : gmap string Z :=
  omap (fun value => let value := minInt64 value remaining in
                     if 0 <? value then Some value else None) ovf.

(** The loop is given as much fuel as there are clusters. *)
Definition getDesiredPlan_state (preferences : list namedClusterPreferences)
    (totalReplicas : Z) : option planState :=
  let st := foldl assignMin
    {| remainingReplicas := totalReplicas; plan := ∅; overflow := ∅ |} preferences in
  distributeLoop (S (length preferences)) preferences st true.

Definition getDesiredPlan (preferences : list namedClusterPreferences)
    (totalReplicas : Z) (keepUnschedulableReplicas : bool)
    : option (gmap string Z * gmap string Z) :=
  st ← getDesiredPlan_state preferences totalReplicas;
  Some (if keepUnschedulableReplicas then (plan st, overflow st)
        else (plan st, trimOverflow (remainingReplicas st) (overflow st))).
End GetDesiredPlan.

Section Plan.
Context `{GoRuntime}.

(** [hash.Hash.Write] of package fnv never returns an error, so neither does
    this function: the [err] results of the planner are always nil. *)
Definition getNamedPreferences (preferences : gmap string ClusterPreferences)
    (replicaSetKey : string) : list namedClusterPreferences :=
  sort_slice byWeight_Less
    ((fun '(name, p) => {| clusterName := name;
                           hash := fnv32_write (fnv32_write fnv32_offset name) replicaSetKey;
                           pref := p |}) <$> range_map preferences).

(** [m[cluster].MaxReplicas] for a possibly absent cluster. *)
Definition explicitMax (rsp : ReplicaSchedulingPreference) (cluster : string) : option Z :=
  Clusters rsp !! cluster ≫= MaxReplicas.

Definition scaleUpPreferences (rsp : ReplicaSchedulingPreference)
    (currentReplicaCount desiredReplicaCount : gmap string Z)
    : gmap string ClusterPreferences :=
  map_imap (fun cluster desired =>
    let current := mget currentReplicaCount cluster in
    if current <? desired then
      Some {| MinReplicas := 0;
              MaxReplicas := (fun max => max -! current) <$> explicitMax rsp cluster;
              Weight := desired -! current |}
    else None) desiredReplicaCount.

Definition scaleUp (rsp : ReplicaSchedulingPreference)
    (currentReplicaCount desiredReplicaCount : gmap string Z)
    (scaleUpCount : Z) (replicaSetKey : string) : option (gmap string Z) :=
  let named := getNamedPreferences
    (scaleUpPreferences rsp currentReplicaCount desiredReplicaCount) replicaSetKey in
  '(replicasToScaleUp, _) ← getDesiredPlan ∅ ∅ named scaleUpCount false;
  Some (range_update add64 currentReplicaCount replicasToScaleUp).

Definition scaleDownPreferences
    (currentReplicaCount desiredReplicaCount : gmap string Z)
    : gmap string ClusterPreferences :=
  map_imap (fun cluster desired =>
    let current := mget currentReplicaCount cluster in
    if desired <? current then
      Some {| MinReplicas := 0;
              MaxReplicas := Some current;
              Weight := current -! desired |}
    else None) desiredReplicaCount.

Definition scaleDown
    (currentReplicaCount desiredReplicaCount : gmap string Z)
    (scaleDownCount : Z) (replicaSetKey : string) : option (gmap string Z) :=
  let named := getNamedPreferences
    (scaleDownPreferences currentReplicaCount desiredReplicaCount) replicaSetKey in
  '(replicasToScaleDown, _) ← getDesiredPlan ∅ ∅ named scaleDownCount false;
  Some (range_update sub64 currentReplicaCount replicasToScaleDown).

(** The preferences of the available clusters, ["*"] being the fallback. *)
Definition availablePreferences (rsp : ReplicaSchedulingPreference)
    (availableClusters : list string) : gmap string ClusterPreferences :=
  foldl (fun acc cluster =>
    match Clusters rsp !! cluster with
    | Some preference => <[cluster := preference]> acc
    | None => match Clusters rsp !! "*"%string with
              | Some preference => <[cluster := preference]> acc
              | None => acc
              end
    end) ∅ availableClusters.

(** The current plan: the current replicas of the named clusters, cut down
    to their capacities, with their total. *)
Definition currentPlanStep
    (currentReplicaCount estimatedCapacity limitedCapacity : gmap string Z)
    (acc : gmap string Z * Z) (p : namedClusterPreferences) : gmap string Z * Z :=
  let name := clusterName p in
  let replicas := mget currentReplicaCount name in
  let replicas := limit limitedCapacity name replicas in
  let replicas := limit estimatedCapacity name replicas in
  (<[name := replicas]> (acc.1), acc.2 +! replicas).

Definition currentPlanOf
    (currentReplicaCount estimatedCapacity limitedCapacity : gmap string Z)
    (named : list namedClusterPreferences) : gmap string Z * Z :=
  foldl (currentPlanStep currentReplicaCount estimatedCapacity limitedCapacity) (∅, 0) named.

Definition Plan (rsp : ReplicaSchedulingPreference) (totalReplicas : Z)
    (availableClusters : list string)
    (currentReplicaCount estimatedCapacity limitedCapacity : gmap string Z)
    (replicaSetKey : string) (avoidDisruption keepUnschedulableReplicas : bool)
    : option (gmap string Z * gmap string Z) :=
  let preferences := availablePreferences rsp availableClusters in
  let namedPreferences := getNamedPreferences preferences replicaSetKey in
  let keepUnschedulableReplicas :=
    if negb avoidDisruption then true else keepUnschedulableReplicas in
  '(desiredPlan, desiredOverflow) ←
    getDesiredPlan estimatedCapacity limitedCapacity namedPreferences
      totalReplicas keepUnschedulableReplicas;
  if negb avoidDisruption then Some (desiredPlan, desiredOverflow) else
  let '(currentPlan, currentTotalOkReplicas) :=
    currentPlanOf currentReplicaCount estimatedCapacity limitedCapacity namedPreferences in
  let desiredTotalReplicas := msum64 desiredPlan in
  if currentTotalOkReplicas =? desiredTotalReplicas then
    Some (currentPlan, desiredOverflow)
  else if desiredTotalReplicas <? currentTotalOkReplicas then
    p ← scaleDown currentPlan desiredPlan
          (currentTotalOkReplicas -! desiredTotalReplicas) replicaSetKey;
    Some (p, desiredOverflow)
  else
    p ← scaleUp rsp currentPlan desiredPlan
          (desiredTotalReplicas -! currentTotalOkReplicas) replicaSetKey;
    Some (p, desiredOverflow).
End Plan.
