(* ===== verification/PlannerFacts.v ===== *)
(** * Properties of the replica planner *)

From Stdlib Require Import ZArith Lia String.
From S2P Require Import Prelude Planner.

(** ** Hypotheses on the inputs *)

(** A preference as [Plan] expects it: no negative values. *)
Definition valid_pref (p : namedClusterPreferences) : Prop :=
  0 <= MinReplicas (pref p) /\ 0 <= Weight (pref p) /\
  (forall m, MaxReplicas (pref p) = Some m -> 0 <= m).

Definition weights (ps : list namedClusterPreferences) : Z := sumZ (fun p => Weight (pref p)) ps.

(** The inputs of [getDesiredPlan]: distinct clusters, no negative value, and
    a number of replicas and weights for which int64 does not overflow. *)
Record planner_input (est lim : gmap string Z) (prefs : list namedClusterPreferences)
    (total : Z) : Prop := {
  pi_nodup : NoDup (clusterName <$> prefs);
  pi_valid : forall p, p ∈ prefs -> valid_pref p;
  pi_est : all_nonneg est;
  pi_lim : all_nonneg lim;
  pi_total : 0 <= total < 2 ^ 62;
  pi_bound : (total + 1) * weights prefs < 2 ^ 63
}.

(** [t] replicas respect the capacities of [p]'s cluster. *)
Definition within_caps (est lim : gmap string Z) (name : string) (t : Z) : Prop :=
  (forall c, lim !! name = Some c -> t <= c) /\ (forall c, est !! name = Some c -> t <= c).

Definition within_max (p : namedClusterPreferences) (t : Z) : Prop :=
  forall m, MaxReplicas (pref p) = Some m -> t <= Z.max (MinReplicas (pref p)) m.

(** The cluster of [p] holds as many replicas as it may. *)
Definition saturated (est lim : gmap string Z) (p : namedClusterPreferences) (t : Z) : Prop :=
  MaxReplicas (pref p) = Some t \/ lim !! clusterName p = Some t \/
  est !! clusterName p = Some t.

Lemma limit_le caps n x : limit caps n x <= x.
Proof. unfold limit. zcases. Qed.
Lemma limit_cap caps n x c : caps !! n = Some c -> limit caps n x <= c.
Proof. unfold limit. intros ->. zcases. Qed.
Lemma limit_nonneg caps n x : all_nonneg caps -> 0 <= x -> 0 <= limit caps n x.
Proof.
  unfold limit. intros Hc Hx. destruct (caps !! n) eqn:E; [|done].
  specialize (Hc _ _ E). zcases.
Qed.
Lemma limit_cases caps n x :
  (exceeds caps n x = false /\ limit caps n x = x) \/
  (exceeds caps n x = true /\ caps !! n = Some (limit caps n x) /\ limit caps n x < x).
Proof. unfold limit, exceeds. zcases; naive_solver lia. Qed.

Lemma NoDup_fmap_sublist {A B} (f : A -> B) (l1 l2 : list A) :
  sublist l1 l2 -> NoDup (f <$> l2) -> NoDup (f <$> l1).
Proof.
  intros Hs Hnd. eapply sublist_NoDup; [exact Hnd|]. by apply fmap_sublist.
Qed.

Section Facts.
Context (est lim : gmap string Z) (Hest : all_nonneg est) (Hlim : all_nonneg lim).

Abbreviation assignMin := (assignMin est lim).
Abbreviation distributeStep := (distributeStep est lim).

(** *** The step that assigns the minimum *)

(** What happens to the overflow [o] when the cluster gets [t] of at most
    [total] replicas: it grows only if the estimated capacity cuts them. *)
Definition overflow_step (total : Z) (name : string) (t : Z) (o o' : gmap string Z) : Prop :=
  o' = o \/
  (est !! name = Some t /\
   exists d, 0 < d <= total /\ o' = <[name := mget o name +! d]> o).

Lemma assignMin_spec (st : planState) p :
  0 <= remainingReplicas st < 2 ^ 62 -> valid_pref p ->
  overflow st !! clusterName p = None ->
  exists t o',
    assignMin st p = {| remainingReplicas := remainingReplicas st - t;
                        plan := <[clusterName p := t]> (plan st); overflow := o' |} /\
    0 <= t <= remainingReplicas st /\ t <= MinReplicas (pref p) /\
    within_caps est lim (clusterName p) t /\
    overflow_step (remainingReplicas st) (clusterName p) t (overflow st) o'.
Proof using Hest Hlim.
  intros Hr (Hmin & _ & _) Hfresh. unfold Planner.assignMin. rewrite minInt64_min.
  set (m := limit lim (clusterName p) (Z.min (MinReplicas (pref p)) (remainingReplicas st))).
  assert (0 <= m /\ m <= Z.min (MinReplicas (pref p)) (remainingReplicas st)) as [Hm0 Hm1]
    by (split; [apply limit_nonneg; [done|lia]|apply limit_le]).
  assert (Hml : forall c, lim !! clusterName p = Some c -> m <= c)
    by (intros; by apply limit_cap).
  destruct (est !! clusterName p) as [c|] eqn:Ec; [destruct (c <? m) eqn:Ecm; z_bools|].
  - pose proof (Hest _ _ Ec) as Hc0.
    rewrite (sub64_small _ c) by (unfold int64; lia).
    eexists c, _. split; [reflexivity|]. split_and!; try lia.
    + split; [intros c' Hc'; specialize (Hml _ Hc'); lia|congruence || naive_solver lia].
    + right. split; [done|]. exists (m - c). split; [lia|]. f_equal.
      by rewrite (mget_None _ _ Hfresh), add64_small, sub64_small by (unfold int64; lia).
  - rewrite sub64_small by (unfold int64; lia).
    eexists m, _. split; [reflexivity|]. split_and!; try lia; [|by left].
    split; [done|]. intros c' [= <-]%(fun H => eq_trans (eq_sym Ec) H). done.
  - rewrite sub64_small by (unfold int64; lia).
    eexists m, _. split; [reflexivity|]. split_and!; try lia; [|by left].
    split; [done|congruence].
Qed.

(** *** The step of the distribution loop *)

Definition ceil_share (dist w ws : Z) : Z := (dist * w + ws - 1) / ws.

Lemma ceil_share_bound dist w ws : 0 < ws -> dist * w <= ceil_share dist w ws * ws.
Proof. intros. unfold ceil_share. pose proof (Z.div_mod (dist * w + ws - 1) ws).
  pose proof (Z.mod_pos_bound (dist * w + ws - 1) ws). nia. Qed.

Lemma ceil_share_nonneg dist w ws : 0 < ws -> 0 <= dist -> 0 <= w -> 0 <= ceil_share dist w ws.
Proof. intros. unfold ceil_share. apply Z.div_pos; nia. Qed.

Lemma ceil_share_pos dist w ws : 0 < ws -> 0 < dist -> 0 < w -> 0 < ceil_share dist w ws.
Proof. intros. pose proof (ceil_share_bound dist w ws). nia. Qed.

Lemma ceil_share_le dist w ws : 0 < ws -> 0 <= w -> dist <= ws -> ceil_share dist w ws <= w.
Proof. intros. unfold ceil_share.
  assert ((dist * w + ws - 1) / ws < w + 1); [|lia]. apply Z.div_lt_upper_bound; nia. Qed.

Lemma distributeStep_spec dist ws (s : passState) p total :
  let rem := remainingReplicas (ps s) in
  let start := mget (plan (ps s)) (clusterName p) in
  let extra := Z.min (ceil_share dist (Weight (pref p)) ws) rem in
  0 < ws -> 0 <= dist -> Weight (pref p) <= ws -> dist <= total ->
  (total + 1) * ws < 2 ^ 63 -> total < 2 ^ 62 ->
  0 <= rem -> 0 <= start -> start + rem <= total -> valid_pref p ->
  exists t (full : bool) o',
    distributeStep dist ws s p =
      {| ps := {| remainingReplicas := rem - (t - start);
                  plan := <[clusterName p := t]> (plan (ps s)); overflow := o' |};
         newPreferences := if full then newPreferences s else newPreferences s ++ [p];
         modified := modified s || (start <? t) |} /\
    0 <= t <= start + extra /\ 0 <= extra /\
    (full = false -> t = start + extra) /\
    (full = true -> saturated est lim p t /\ t < start + extra) /\
    (forall m, MaxReplicas (pref p) = Some m -> t <= m) /\
    within_caps est lim (clusterName p) t /\
    overflow_step total (clusterName p) t (overflow (ps s)) o' /\
    (full = false -> o' = overflow (ps s)).
Proof using Hest Hlim.
  intros rem start extra Hws Hd Hwle Hdt Hb Ht Hrem Hstart Hsum (_ & Hw & Hmax).
  unfold Planner.distributeStep. fold start rem.
  assert (Hprod : 0 <= dist * Weight (pref p) <= total * ws) by nia.
  rewrite (mul64_small dist) by (unfold int64; nia).
  rewrite (add64_small (dist * _)) by (unfold int64; nia).
  rewrite (sub64_small (_ + _)) by (unfold int64; nia).
  rewrite quot64_small by (unfold int64; nia).
  fold (ceil_share dist (Weight (pref p)) ws). rewrite minInt64_min. fold extra.
  assert (Hex : 0 <= extra) by (pose proof (ceil_share_nonneg dist (Weight (pref p)) ws); lia).
  assert (extra <= rem) by lia.
  rewrite (add64_small start) by (unfold int64; lia).
  set (t1 := match MaxReplicas (pref p) with
             | Some m => if m <? start + extra then m else start + extra
             | None => start + extra end).
  assert (Hm : exists f1, over_max (MaxReplicas (pref p)) (start + extra) = f1 /\
            0 <= t1 <= start + extra /\ (f1 = false -> t1 = start + extra) /\
            (f1 = true -> MaxReplicas (pref p) = Some t1 /\ t1 < start + extra) /\
            (forall m, MaxReplicas (pref p) = Some m -> t1 <= m)).
  { exists (over_max (MaxReplicas (pref p)) (start + extra)). unfold over_max, t1.
    destruct (MaxReplicas (pref p)) as [m|]; [|naive_solver lia].
    specialize (Hmax m eq_refl). destruct (m <? start + extra) eqn:E; z_bools; naive_solver lia. }
  destruct Hm as (f1 & -> & Ht1 & Hf1 & Hs1 & Hmx1).
  pose proof (limit_le lim (clusterName p) t1).
  pose proof (limit_nonneg lim (clusterName p) t1 Hlim).
  assert (Hml : forall c, lim !! clusterName p = Some c -> limit lim (clusterName p) t1 <= c)
    by (intros; by apply limit_cap).
  pose proof (limit_cases lim (clusterName p) t1) as Hlc.
  set (t2 := limit lim (clusterName p) t1) in *.
  set (f2 := exceeds lim (clusterName p) t1) in *.
  assert (Hcases2 : (f1 || f2 = false -> t2 = start + extra) /\
                    (f1 || f2 = true -> (MaxReplicas (pref p) = Some t2 \/
                       lim !! clusterName p = Some t2) /\ t2 < start + extra)).
  { destruct f1, Hlc as [[-> ->]|(-> & ? & ?)]; naive_solver lia. }
  destruct Hcases2 as [Hc2f Hc2t].
  destruct (est !! clusterName p) as [c|] eqn:Ec; [destruct (c <? t2) eqn:Ecm; z_bools|].
  - pose proof (Hest _ _ Ec).
    rewrite (sub64_small c start) by (unfold int64; lia).
    rewrite (sub64_small rem) by (unfold int64; lia).
    eexists c, true, _. split; [reflexivity|]. split_and!; try lia; try done.
    + intros _. unfold saturated. split; [auto|lia].
    + intros m Hm. specialize (Hmx1 m Hm). lia.
    + split; [intros c' Hc'; specialize (Hml _ Hc'); lia|]. intros c'. rewrite Ec. intros [= <-]. lia.
    + right. split; [done|]. exists (t2 - c). split; [lia|].
      by rewrite (sub64_small t2) by (unfold int64; lia).
  - rewrite (sub64_small t2 start) by (unfold int64; lia).
    rewrite (sub64_small rem) by (unfold int64; lia).
    eexists t2, (f1 || f2), _. split; [reflexivity|]. split_and!; try lia; try done.
    + intros Hf. unfold saturated. naive_solver.
    + intros m Hm. specialize (Hmx1 m Hm). lia.
    + split; [done|]. intros c'. rewrite Ec. intros [= <-]. lia.
    + by left.
  - rewrite (sub64_small t2 start) by (unfold int64; lia).
    rewrite (sub64_small rem) by (unfold int64; lia).
    eexists t2, (f1 || f2), _. split; [reflexivity|]. split_and!; try lia; try done.
    + intros Hf. unfold saturated. naive_solver.
    + intros m Hm. specialize (Hmx1 m Hm). lia.
    + split; [done|]. intros c'. by rewrite Ec.
    + by left.
Qed.

(** *** Invariants *)

Definition share (st : planState) (p : namedClusterPreferences) : Z :=
  mget (plan st) (clusterName p).

(** The accounting invariant: every replica is either planned or remaining. *)
Definition accounts (total : Z) (st : planState) : Prop :=
  0 <= remainingReplicas st /\ all_nonneg (plan st) /\
  msum (plan st) + remainingReplicas st = total.

(** [p]'s share respects its limits; the strict form is about its maximum. *)
Definition share_ok (st : planState) (p : namedClusterPreferences) : Prop :=
  within_caps est lim (clusterName p) (share st p).
Definition below_max (st : planState) (p : namedClusterPreferences) : Prop :=
  forall m, MaxReplicas (pref p) = Some m -> share st p <= m.

(** Overflow is recorded for clusters that are at their estimated capacity;
    [active] clusters may still be cut down once more. *)
Definition overflow_ok (total : Z) (active : list namedClusterPreferences)
    (st : planState) : Prop :=
  forall k d, overflow st !! k = Some d ->
    est !! k = Some (mget (plan st) k) /\ 0 < d <= 2 * total /\
    (k ∈ clusterName <$> active -> d <= total).

Lemma share_update st p q t r o :
  clusterName p <> clusterName q ->
  share {| remainingReplicas := r; plan := <[clusterName p := t]> (plan st); overflow := o |} q
  = share st q.
Proof using Type. intros. unfold share. simpl. by rewrite mget_insert_ne. Qed.

Lemma share_update_eq st p t r o :
  share {| remainingReplicas := r; plan := <[clusterName p := t]> (plan st); overflow := o |} p = t.
Proof using Type. unfold share. simpl. by rewrite mget_insert_eq. Qed.

Lemma accounts_update total st k t o :
  accounts total st -> 0 <= t -> t - mget (plan st) k <= remainingReplicas st ->
  accounts total {| remainingReplicas := remainingReplicas st - (t - mget (plan st) k);
                    plan := <[k := t]> (plan st); overflow := o |}.
Proof using Type.
  intros (Hr & Hn & Hs) Ht Hle. split_and!; simpl; [lia|auto with go|].
  rewrite msum_insert. lia.
Qed.

(** Everything a fold over the clusters [l] does to the state. *)
Record after_min (l : list namedClusterPreferences) (st st' : planState) : Prop := {
  am_accounts : forall total, accounts total st -> accounts total st';
  am_share : forall p, p ∈ l -> share_ok st' p /\ share st' p <= MinReplicas (pref p);
  am_dom : forall k, is_Some (plan st' !! k) <-> is_Some (plan st !! k) \/ k ∈ clusterName <$> l;
  am_other : forall k, k ∉ clusterName <$> l ->
    plan st' !! k = plan st !! k /\ overflow st' !! k = overflow st !! k;
  am_overflow : forall total active, remainingReplicas st <= total ->
    overflow_ok total active st -> overflow_ok total active st'
}.

Lemma assignMin_fold l st :
  NoDup (clusterName <$> l) -> (forall p, p ∈ l -> valid_pref p) ->
  0 <= remainingReplicas st < 2 ^ 62 -> all_nonneg (plan st) ->
  (forall p, p ∈ l -> plan st !! clusterName p = None /\ overflow st !! clusterName p = None) ->
  after_min l st (foldl assignMin st l).
Proof using Hest Hlim.
  revert st. induction l as [|p l IH]; intros st Hnd Hv Hr Hnn Hfresh.
  { split; set_solver. }
  rewrite fmap_cons in *. simpl foldl. apply NoDup_cons in Hnd as [Hp Hnd].
  destruct (Hfresh p) as [Hfp Hfo]; [by left|].
  destruct (assignMin_spec st p) as (t & o' & -> & Ht & Htm & Hcaps & Hovf);
    [done|apply Hv; by left|done|].
  set (st1 := {| remainingReplicas := _ |}).
  assert (Hne : forall q, q ∈ l -> clusterName p <> clusterName q)
    by (intros q Hq Heq; apply Hp; rewrite Heq; by apply list_elem_of_fmap_2).
  assert (Ho1 : forall k, k <> clusterName p -> o' !! k = overflow st !! k).
  { intros k Hk. destruct Hovf as [->|(_ & d & _ & ->)]; [done|].
    by rewrite lookup_insert_ne by done. }
  destruct (IH st1) as [IHa IHs IHd IHo IHv]; [done|by intros; apply Hv; right|simpl; lia|by apply all_nonneg_insert; [|lia]| |].
  { intros q Hq. simpl. rewrite lookup_insert_ne by (by apply Hne).
    rewrite Ho1 by (by apply not_eq_sym, Hne).
    apply Hfresh. by right. }
  split.
  - intros total Hacc. apply IHa.
    replace st1 with {| remainingReplicas := remainingReplicas st - (t - mget (plan st) (clusterName p));
        plan := <[clusterName p := t]> (plan st); overflow := o' |}
      by (unfold st1; rewrite (mget_None _ _ Hfp); f_equal; lia).
    apply accounts_update; [done|lia|]. rewrite (mget_None _ _ Hfp). lia.
  - intros q [->|Hq]%elem_of_cons; [|by apply IHs].
    destruct (IHo (clusterName p) Hp) as [Hpl _].
    unfold share_ok, share, mget. rewrite Hpl. simpl. rewrite lookup_insert_eq. done.
  - intros k. rewrite IHd. simpl. rewrite lookup_insert_is_Some', elem_of_cons. naive_solver.
  - intros k [Hkp Hk]%not_elem_of_cons. destruct (IHo k Hk) as [-> ->]. simpl.
    by rewrite lookup_insert_ne, Ho1.
  - intros total active Htot Hok. apply IHv; [simpl; lia|]. intros k d. simpl.
    destruct (decide (k = clusterName p)) as [->|Hk].
    + destruct Hovf as [->|(He & d' & Hd' & ->)]; [by rewrite Hfo|].
      rewrite lookup_insert_eq, (mget_None _ _ Hfo), mget_insert_eq.
      rewrite add64_small by (unfold int64; lia). intros [= <-]. split; [done|lia].
    + rewrite Ho1 by done. rewrite mget_insert_ne by done. apply Hok.
Qed.

(** Everything a pass of the loop over the clusters [l] does; [kept] are the
    clusters that stay for the next pass. *)
Record after_pass (dist ws total : Z) (l kept : list namedClusterPreferences)
    (s s' : passState) : Prop := {
  ap_accounts : accounts total (ps s');
  ap_kept : newPreferences s' = newPreferences s ++ kept;
  ap_sublist : sublist kept l;
  ap_full : forall p, p ∈ l -> p ∈ kept \/
    (saturated est lim p (share (ps s') p) /\
     share (ps s') p < share (ps s) p + ceil_share dist (Weight (pref p)) ws);
  ap_share : forall p, p ∈ l -> share_ok (ps s') p /\ below_max (ps s') p;
  ap_dom : forall k, is_Some (plan (ps s') !! k) <->
    is_Some (plan (ps s) !! k) \/ k ∈ clusterName <$> l;
  ap_other : forall k, k ∉ clusterName <$> l ->
    plan (ps s') !! k = plan (ps s) !! k /\ overflow (ps s') !! k = overflow (ps s) !! k;
  (* when nobody is full, the pass hands out everything *)
  ap_all : length kept = length l ->
    remainingReplicas (ps s') * ws <= Z.max 0 (remainingReplicas (ps s) * ws - dist * weights l) /\
    forall p, p ∈ l -> share (ps s) p <= share (ps s') p <=
                       share (ps s) p + ceil_share dist (Weight (pref p)) ws;
  (* when the clusters were within their limits, shares only grow; a pass
     that changes nothing leaves replicas only if all kept weights are zero *)
  ap_grow : (forall p, p ∈ l -> share_ok (ps s) p /\ below_max (ps s) p) ->
    remainingReplicas (ps s') <= remainingReplicas (ps s) /\
    (forall p, p ∈ l -> share (ps s) p <= share (ps s') p) /\
    (modified s' = false -> modified s = false /\
       (0 < remainingReplicas (ps s') -> forall p, p ∈ kept -> Weight (pref p) = 0));
  ap_overflow : (forall p, p ∈ l -> share_ok (ps s) p /\ below_max (ps s) p) ->
    forall rest, NoDup (clusterName <$> rest ++ l) ->
      overflow_ok total (rest ++ l) (ps s) -> overflow_ok total (rest ++ kept) (ps s')
}.

Lemma overflow_ok_step total rest p l st t r o' full :
  NoDup (clusterName <$> rest ++ p :: l) -> 0 <= total < 2 ^ 62 ->
  share st p <= t -> share_ok st p -> within_caps est lim (clusterName p) t ->
  overflow_step total (clusterName p) t (overflow st) o' ->
  (full = false -> o' = overflow st) ->
  overflow_ok total (rest ++ p :: l) st ->
  overflow_ok total ((rest ++ if full then [] else [p]) ++ l)
    {| remainingReplicas := r; plan := <[clusterName p := t]> (plan st); overflow := o' |}.
Proof using Hest Hlim.
  intros Hnd Htot Hgt Hok Hcaps Hovf Hnf Hold k d. simpl.
  assert (Hsub : k ∈ clusterName <$> (rest ++ if full then [] else [p]) ++ l ->
                 k ∈ clusterName <$> rest ++ p :: l)
    by (rewrite !fmap_app, fmap_cons; destruct full; set_solver).
  destruct (decide (k = clusterName p)) as [->|Hk].
  - rewrite mget_insert_eq. destruct Hovf as [->|(He & d' & Hd' & ->)].
    + intros Hd. destruct (Hold _ _ Hd) as (He & Hd2 & Hda). split_and!; [|lia..|auto].
      unfold share in Hgt. rewrite He. f_equal. apply (proj2 Hcaps) in He. lia.
    + rewrite lookup_insert_eq. intros [= <-].
      assert (0 <= mget (overflow st) (clusterName p) <= total) as Hm.
      { destruct (overflow st !! clusterName p) as [d0|] eqn:Ed0.
        - rewrite (mget_Some _ _ _ Ed0). destruct (Hold _ _ Ed0) as (_ & ? & Hd0).
          assert (d0 <= total); [|lia]. apply Hd0. rewrite fmap_app, fmap_cons. set_solver.
        - rewrite (mget_None _ _ Ed0). lia. }
      rewrite add64_small by (unfold int64; lia). split_and!; [done|lia..|].
      intros Hin. exfalso. destruct full.
      * rewrite app_nil_r, fmap_app in Hin.
        rewrite fmap_app, fmap_cons, NoDup_app, NoDup_cons in Hnd.
        destruct Hnd as (_ & Hdis & Hn & _). apply elem_of_app in Hin as [Hin|Hin]; [|done].
        apply (Hdis _ Hin). by left.
      * specialize (Hnf eq_refl). apply (f_equal (lookup (clusterName p))) in Hnf.
        rewrite lookup_insert_eq in Hnf. symmetry in Hnf.
        apply mget_Some in Hnf. rewrite add64_small in Hnf by (unfold int64; lia). lia.
  - rewrite mget_insert_ne by done. intros Hd.
    assert (overflow st !! k = Some d) as Hd0.
    { destruct Hovf as [->|(_ & d' & _ & ->)]; [done|]. by rewrite lookup_insert_ne in Hd. }
    destruct (Hold _ _ Hd0) as (? & ? & ?). auto.
Qed.

Lemma distribute_pass dist ws total l s :
  NoDup (clusterName <$> l) ->
  (forall p, p ∈ l -> valid_pref p /\ Weight (pref p) <= ws) ->
  0 < ws -> 0 < dist <= total -> (total + 1) * ws < 2 ^ 63 -> total < 2 ^ 62 ->
  accounts total (ps s) ->
  exists kept, after_pass dist ws total l kept s (foldl (distributeStep dist ws) s l).
Proof using Hest Hlim.
  intros Hnd Hv Hws Hd Hb Ht. revert s Hnd Hv.
  induction l as [|p l IH]; intros s Hnd Hv Hacc.
  { exists []. split; try done; try set_solver.
    - by rewrite app_nil_r.
    - intros _. split; [unfold weights; simpl; lia|set_solver]. }
  rewrite fmap_cons in *. simpl foldl. apply NoDup_cons in Hnd as [Hp Hnd].
  destruct (Hv p) as [Hvp Hwp]; [by left|].
  assert (Hstart : 0 <= share (ps s) p <= total - remainingReplicas (ps s)).
  { destruct Hacc as (? & Hn & ?). unfold share. split; [auto with go|].
    pose proof (mget_le_msum (plan (ps s)) (clusterName p) Hn). lia. }
  pose proof Hacc as (Hrem & Hnn & Hsum).
  destruct (distributeStep_spec dist ws s p total) as
    (t & full & o' & Heq & Hte & Hex & Hnf & Hf & Hmx & Hcaps & Hovf & Hovn);
    try done; try lia; [unfold share in *; lia..|]. rewrite Heq.
  fold (share (ps s) p) in *.
  match goal with |- context [foldl _ ?x _] => set (s1 := x) in * end.
  assert (Hne : forall q, q ∈ l -> clusterName p <> clusterName q)
    by (intros q Hq Hqe; apply Hp; rewrite Hqe; by apply list_elem_of_fmap_2).
  assert (Hsh1 : forall q, q ∈ l -> share (ps s1) q = share (ps s) q)
    by (intros q Hq; apply share_update; by apply Hne).
  destruct (IH s1) as [kept' [IHacc IHk IHsub IHfull IHsh IHdom IHo IHall IHgrow IHovf]];
    [done|by intros; apply Hv; right|apply accounts_update; [done|lia|unfold share in *; lia]|].
  set (s2 := foldl _ s1 l) in *.
  assert (Hsp : share (ps s2) p = t).
  { destruct (IHo (clusterName p) Hp) as [Hpl _]. unfold share, mget. rewrite Hpl.
    simpl. by rewrite lookup_insert_eq. }
  assert (Hgt : share_ok (ps s) p -> below_max (ps s) p -> share (ps s) p <= t).
  { intros Hok Hbm. destruct full; [|specialize (Hnf eq_refl); lia].
    destruct (Hf eq_refl) as [[Hs|[Hs|Hs]] _];
      [by apply Hbm|by apply (proj1 Hok)|by apply (proj2 Hok)]. }
  assert (Hin1 : (forall q, q ∈ p :: l -> share_ok (ps s) q /\ below_max (ps s) q) ->
                 forall q, q ∈ l -> share_ok (ps s1) q /\ below_max (ps s1) q).
  { intros Hin q Hq. unfold share_ok, below_max. rewrite (Hsh1 q Hq). apply Hin. by right. }
  exists (if full then kept' else p :: kept'). split.
  - done.
  - rewrite IHk. simpl. destruct full; [done|]. by rewrite <- app_assoc.
  - destruct full; by constructor.
  - intros q [->|Hq]%elem_of_cons.
    + destruct full; [right; rewrite Hsp; destruct (Hf eq_refl); split; [done|lia]|left; by left].
    + destruct (IHfull q Hq); [left; destruct full; [done|by right]|right].
      by rewrite <- (Hsh1 q Hq).
  - intros q [->|Hq]%elem_of_cons; [|by apply IHsh].
    unfold share_ok, below_max. by rewrite Hsp.
  - intros k. rewrite IHdom. simpl. rewrite lookup_insert_is_Some', elem_of_cons. naive_solver.
  - intros k [Hkp Hk]%not_elem_of_cons. destruct (IHo k Hk) as [-> ->]. simpl.
    rewrite lookup_insert_ne by done. split; [done|].
    destruct Hovf as [->|(_ & d & _ & ->)]; [done|]. by rewrite lookup_insert_ne.
  - intros Hlen. destruct full.
    { apply sublist_length in IHsub. simpl in Hlen. lia. }
    destruct (IHall ltac:(simpl in Hlen; lia)) as [IHr IHs].
    specialize (Hnf eq_refl). simpl in IHr.
    pose proof (ceil_share_bound dist (Weight (pref p)) ws Hws).
    split.
    + assert (0 <= weights l) by (apply sumZ_nonneg; intros q Hq; destruct (Hv q) as [(_ & ? & _) _]; [by right|done]).
      unfold weights in *. simpl. subst t. revert IHr.
      destruct (Z.min_spec (ceil_share dist (Weight (pref p)) ws) (remainingReplicas (ps s)))
        as [[_ ->]|[_ ->]]; nia.
    + intros q [->|Hq]%elem_of_cons; [rewrite Hsp; lia|].
      rewrite <- (Hsh1 q Hq). by apply IHs.
  - intros Hin. destruct (Hin p) as [Hok Hbm]; [by left|].
    specialize (Hgt Hok Hbm). destruct (IHgrow (Hin1 Hin)) as (IHr & IHs & IHm).
    simpl in IHr. split_and!; [lia| |].
    + intros q [->|Hq]%elem_of_cons; [by rewrite Hsp|]. rewrite <- (Hsh1 q Hq). by apply IHs.
    + intros Hm. destruct (IHm Hm) as [Hm1 Hz]. simpl in Hm1.
      apply orb_false_iff in Hm1 as [Hms Hlt]. z_bools. split; [done|].
      intros Hpos q Hq. destruct full; [by apply Hz|].
      apply elem_of_cons in Hq as [->|Hq]; [|by apply Hz]. specialize (Hnf eq_refl).
      destruct (decide (Weight (pref p) = 0)) as [|Hw]; [done|exfalso].
      destruct Hvp as (_ & Hw0 & _).
      pose proof (ceil_share_pos dist (Weight (pref p)) ws). lia.
  - intros Hin rest Hndr Hok. destruct (Hin p) as [Hokp Hbm]; [by left|].
    pose proof (overflow_ok_step total rest p l (ps s) t
      (remainingReplicas (ps s) - (t - share (ps s) p)) o' full Hndr
      ltac:(lia) (Hgt Hokp Hbm) Hokp Hcaps Hovf Hovn Hok) as Hok1.
    replace (rest ++ (if full then kept' else p :: kept'))
      with ((rest ++ if full then [] else [p]) ++ kept')
      by (destruct full; rewrite <- !app_assoc; done).
    apply IHovf; [by apply Hin1| |exact Hok1].
    destruct full; rewrite <- !app_assoc; [|done].
    rewrite <- Permutation_middle, fmap_cons in Hndr. by apply NoDup_cons in Hndr as [_ ?].
Qed.

(** *** The loop *)

Lemma weightSum64_spec prefs :
  (forall p, p ∈ prefs -> 0 <= Weight (pref p)) -> weights prefs < 2 ^ 63 ->
  weightSum64 prefs = weights prefs.
Proof using Type.
  intros Hw Hb. unfold weightSum64.
  assert (Hg : forall acc, 0 <= acc -> acc + weights prefs < 2 ^ 63 ->
    foldl (fun acc p => acc +! Weight (pref p)) acc prefs = acc + weights prefs).
  { clear Hb. unfold weights. induction prefs as [|p l IH]; intros acc Ha Hb; simpl in *; [lia|].
    assert (0 <= Weight (pref p)) by (apply Hw; left).
    assert (0 <= sumZ (fun p => Weight (pref p)) l)
      by (apply sumZ_nonneg; intros; apply Hw; by right).
    rewrite add64_small by (unfold int64; lia). rewrite IH; [lia| |lia|lia].
    intros; apply Hw; by right. }
  rewrite Hg; lia.
Qed.

(** Every cluster's minimum is at most its maximum. *)
Definition consistent (all : list namedClusterPreferences) : Prop :=
  forall p, p ∈ all -> forall m, MaxReplicas (pref p) = Some m -> MinReplicas (pref p) <= m.

(** The invariant of the loop: [all] are the clusters of the request,
    [active] those that take part in the next pass. *)
Record loop_inv (total : Z) (all active : list namedClusterPreferences)
    (st : planState) : Prop := {
  li_sub : sublist active all;
  li_accounts : accounts total st;
  li_share : forall p, p ∈ all -> share_ok st p /\ within_max p (share st p);
  li_dom : forall k, is_Some (plan st !! k) <-> k ∈ clusterName <$> all;
  li_below : consistent all -> forall p, p ∈ all -> below_max st p;
  li_full : forall p, p ∈ all -> p ∈ active \/ saturated est lim p (share st p);
  li_overflow : consistent all -> overflow_ok total active st
}.

Lemma loop_inv_pass total all active st kept s' dist ws :
  NoDup (clusterName <$> all) ->
  loop_inv total all active st ->
  after_pass dist ws total active kept {| ps := st; newPreferences := []; modified := false |} s' ->
  loop_inv total all kept (ps s').
Proof using Type.
  intros Hnd [Hsub Hacc Hsh Hdom Hbel Hfull Hovf]
    [Pacc Pk Psub Pfull Psh Pdom Po Pall Pgrow Povf]. simpl in *.
  assert (Hold : forall p, p ∈ all -> p ∈ active \/ (p ∉ active /\ share (ps s') p = share st p)).
  { intros p Hp. destruct (decide (clusterName p ∈ clusterName <$> active)) as [Hin|Hin].
    - left. apply list_elem_of_fmap in Hin as (q & Hq & Hqa).
      assert (Hqall : q ∈ all) by (by eapply elem_of_sublist).
      replace p with q; [done|]. by eapply NoDup_fmap_fst_eq.
    - right. split; [intros Hpa; apply Hin; by apply list_elem_of_fmap_2|].
      unfold share, mget. by destruct (Po _ Hin) as [-> _]. }
  assert (Hact : consistent all -> forall p, p ∈ active -> share_ok st p /\ below_max st p).
  { intros Hc p Hp. assert (p ∈ all) by (by eapply elem_of_sublist).
    split; [by apply Hsh|by apply Hbel]. }
  split.
  - by etrans.
  - done.
  - intros p Hp. destruct (Hold p Hp) as [Ha|[_ He]].
    + destruct (Psh p Ha) as [Hs Hb]. split; [done|]. intros m Hm. specialize (Hb m Hm). lia.
    + unfold share_ok, within_max. rewrite He. by apply Hsh.
  - intros k. rewrite Pdom, Hdom. split; [|auto]. intros [?|Hk]; [done|].
    apply list_elem_of_fmap in Hk as (q & -> & Hq). apply list_elem_of_fmap_2.
    by eapply elem_of_sublist.
  - intros Hc p Hp. destruct (Hold p Hp) as [Ha|[_ He]]; [by apply Psh|].
    unfold below_max. rewrite He. by apply Hbel.
  - intros p Hp. destruct (Hold p Hp) as [Ha|[Ha He]]; [destruct (Pfull p Ha); naive_solver|]. right.
    rewrite He. by destruct (Hfull p Hp).
  - intros Hc. apply (Povf (Hact Hc) []); [|by apply Hovf].
    simpl. eapply NoDup_fmap_sublist; [exact Hsub|done].
Qed.

Lemma distributeLoop_spec fuel total all active st modified0 :
  NoDup (clusterName <$> all) -> (forall p, p ∈ all -> valid_pref p) ->
  total < 2 ^ 62 -> (total + 1) * weights active < 2 ^ 63 ->
  (length active < fuel)%nat ->
  loop_inv total all active st ->
  (consistent all -> modified0 = false -> 0 < remainingReplicas st ->
     forall p, p ∈ active -> Weight (pref p) = 0) ->
  exists active' st',
    distributeLoop est lim fuel active st modified0 = Some st' /\
    loop_inv total all active' st' /\
    (consistent all -> 0 < remainingReplicas st' ->
       forall p, p ∈ all -> Weight (pref p) = 0 \/ saturated est lim p (share st' p)).
Proof using Hest Hlim.
  intros Hnd Hv Ht. revert active st modified0.
  induction fuel as [|fuel IH]; intros active st m0 Hb Hlen Hinv Hm0; [lia|].
  assert (Hact : forall p, p ∈ active -> p ∈ all)
    by (intros; eapply elem_of_sublist; [done|apply Hinv]).
  assert (Hw : forall p, p ∈ active -> 0 <= Weight (pref p)) by (intros p Hp; by apply Hv, Hact).
  pose proof (sumZ_nonneg (fun p => Weight (pref p)) active Hw) as Hw0. fold (weights active) in Hw0.
  pose proof (li_accounts _ _ _ _ Hinv) as (Hr & Hnn & Hsum).
  pose proof (msum_nonneg _ Hnn).
  assert (Hexit : (consistent all -> 0 < remainingReplicas st ->
      forall p, p ∈ active -> Weight (pref p) = 0) ->
    consistent all -> 0 < remainingReplicas st ->
      forall p, p ∈ all -> Weight (pref p) = 0 \/ saturated est lim p (share st p)).
  { intros Hz Hc Hpos p Hp. destruct (li_full _ _ _ _ Hinv p Hp); auto. }
  simpl. destruct (m0 && (0 <? remainingReplicas st)) eqn:Em; simpl.
  2: { exists active, st. split_and!; [done|done|]. apply Hexit. intros Hc Hpos p Hp.
       apply andb_false_iff in Em as [Em|Em]; [by apply Hm0|z_bools; lia]. }
  apply andb_true_iff in Em as [-> Hrem]. z_bools.
  rewrite weightSum64_spec by (done || nia).
  destruct (weights active <=? 0) eqn:Ews; z_bools.
  { exists active, st. split_and!; [done|done|]. apply Hexit. intros _ _ p Hp.
    pose proof (sumZ_elem (fun p => Weight (pref p)) active p Hw Hp) as He.
    fold (weights active) in He. specialize (Hw p Hp). simpl in He. lia. }
  destruct (distribute_pass (remainingReplicas st) (weights active) total active
    {| ps := st; newPreferences := []; modified := false |}) as [kept Hpass];
    [|split; [by apply Hv, Hact|]|lia..|exact (li_accounts _ _ _ _ Hinv)|].
  { eapply NoDup_fmap_sublist; [apply Hinv|done]. }
  { by apply (sumZ_elem (fun p => Weight (pref p))). }
  pose proof (loop_inv_pass _ _ _ _ _ _ _ _ Hnd Hinv Hpass) as Hinv'.
  set (s' := foldl _ _ active) in *.
  pose proof (ap_kept _ _ _ _ _ _ _ Hpass) as Hk. simpl in Hk. rewrite Hk.
  pose proof (ap_sublist _ _ _ _ _ _ _ Hpass) as Hsub.
  assert (Hwk : weights kept <= weights active) by (by apply sumZ_sublist).
  assert (Hgrow : consistent all -> modified s' = false -> 0 < remainingReplicas (ps s') ->
                  forall p, p ∈ kept -> Weight (pref p) = 0).
  { intros Hc. apply (ap_grow _ _ _ _ _ _ _ Hpass). intros p Hp. simpl.
    split; [apply Hinv|apply (li_below _ _ _ _ Hinv)]; auto. }
  destruct (decide (length kept = length active)) as [Hall|Hall].
  - destruct (ap_all _ _ _ _ _ _ _ Hpass Hall) as [Hz _]. simpl in Hz.
    assert (Hz0 : remainingReplicas (ps s') = 0).
    { pose proof (li_accounts _ _ _ _ Hinv') as (? & _). nia. }
    exists kept, (ps s'). split_and!; [|done|lia].
    destruct fuel; simpl; rewrite Hz0, andb_false_r; done.
  - pose proof (sublist_length _ _ Hsub). apply IH; [nia|lia|done|done].
Qed.
End Facts.

(** ** [getDesiredPlan] *)

Lemma loop_inv_init est lim prefs total :
  planner_input est lim prefs total ->
  loop_inv est lim total prefs prefs
    (foldl (assignMin est lim) {| remainingReplicas := total; plan := ∅; overflow := ∅ |} prefs).
Proof.
  intros [Hnd Hv He Hl Ht Hb].
  destruct (assignMin_fold est lim He Hl prefs
    {| remainingReplicas := total; plan := ∅; overflow := ∅ |}) as [Ha Hs Hd Ho Hov];
    [done|done|simpl; lia|apply all_nonneg_empty|done|].
  set (st := foldl _ _ _) in *. simpl in *.
  split.
  - done.
  - apply Ha. split_and!; simpl; [lia|apply all_nonneg_empty|rewrite msum_empty; lia].
  - intros p Hp. destruct (Hs p Hp) as [? Hm]. split; [done|].
    intros m _. lia.
  - intros k. rewrite Hd, lookup_empty. split; [by intros [[? [=]]|?]|by right].
  - intros Hc p Hp m Hm. destruct (Hs p Hp) as [_ ?]. specialize (Hc p Hp m Hm). lia.
  - auto.
  - intros _. apply Hov; [lia|]. by intros k d [=].
Qed.

Lemma getDesiredPlan_state_spec est lim prefs total :
  planner_input est lim prefs total ->
  exists active st,
    getDesiredPlan_state est lim prefs total = Some st /\
    loop_inv est lim total prefs active st /\
    (consistent prefs -> 0 < remainingReplicas st ->
       forall p, p ∈ prefs -> Weight (pref p) = 0 \/ saturated est lim p (share st p)).
Proof.
  intros Hin. pose proof (loop_inv_init _ _ _ _ Hin) as Hinv. destruct Hin as [Hnd Hv He Hl Ht Hb].
  unfold getDesiredPlan_state.
  apply (distributeLoop_spec est lim He Hl _ total prefs); try done; lia.
Qed.

(** The shape of the two results of [getDesiredPlan]. *)
Lemma getDesiredPlan_unfold est lim prefs total keep st :
  getDesiredPlan_state est lim prefs total = Some st ->
  getDesiredPlan est lim prefs total keep =
    Some (plan st, if keep then overflow st
                   else trimOverflow (remainingReplicas st) (overflow st)).
Proof. unfold getDesiredPlan. intros ->. by destruct keep. Qed.

Lemma trimOverflow_lookup r o k d :
  trimOverflow r o !! k = Some d <-> exists d0, o !! k = Some d0 /\ d = Z.min d0 r /\ 0 < d.
Proof.
  unfold trimOverflow. rewrite lookup_omap. destruct (o !! k) as [d0|]; simpl; [|naive_solver].
  rewrite minInt64_min. case_match; z_bools; naive_solver lia.
Qed.

(** A request in which only weights matter: the whole amount is handed out
    in one pass, and nobody gets more than its weight. *)
Lemma getDesiredPlan_weights prefs count keep :
  NoDup (clusterName <$> prefs) ->
  (forall p, p ∈ prefs -> MinReplicas (pref p) = 0 /\ 0 <= Weight (pref p) /\
     forall m, MaxReplicas (pref p) = Some m -> Weight (pref p) <= m) ->
  0 < count <= weights prefs -> weights prefs < 2 ^ 31 ->
  exists pl ovf, getDesiredPlan ∅ ∅ prefs count keep = Some (pl, ovf) /\
    msum pl = count /\ (forall k, is_Some (pl !! k) <-> k ∈ clusterName <$> prefs) /\
    forall p, p ∈ prefs -> 0 <= mget pl (clusterName p) <= Weight (pref p).
Proof.
  intros Hnd Hp Hc Hw.
  assert (Hv : forall p, p ∈ prefs -> valid_pref p).
  { intros p Hi. destruct (Hp p Hi) as (H0 & H1 & H2). split_and!; [lia|done|].
    intros m Hm. specialize (H2 m Hm). lia. }
  assert (Hin : planner_input ∅ ∅ prefs count) by (split; auto with go; nia).
  pose proof (loop_inv_init _ _ _ _ Hin) as [_ Hacc _ Hdom Hbel _ _].
  pose proof (assignMin_fold ∅ ∅ all_nonneg_empty all_nonneg_empty prefs
    {| remainingReplicas := count; plan := ∅; overflow := ∅ |}) as Ham.
  destruct Ham as [_ Hs _ _ _]; [done|done|simpl; lia|apply all_nonneg_empty|done|].
  set (st := foldl _ _ _) in *.
  assert (Hzero : forall p, p ∈ prefs -> share st p = 0).
  { intros p Hi. destruct (Hs p Hi) as [_ Hle]. destruct (Hp p Hi) as [H0 _].
    pose proof (all_nonneg_mget (plan st) (clusterName p) (proj1 (proj2 Hacc))).
    unfold share in *. lia. }
  assert (Hsum0 : msum (plan st) = 0).
  { rewrite (msum_keys _ (clusterName <$> prefs) Hnd Hdom).
    rewrite (sumZ_ext _ (fun _ => 0)); [by apply sumZ_zero|].
    intros k (p & -> & Hi)%list_elem_of_fmap. by apply Hzero. }
  assert (Hrem : remainingReplicas st = count) by (destruct Hacc as (_ & _ & ?); lia).
  destruct (distribute_pass ∅ ∅ all_nonneg_empty all_nonneg_empty count (weights prefs) count prefs
    {| ps := st; newPreferences := []; modified := false |}) as [kept Hpass];
    [done| |lia|lia|nia|lia|done|].
  { intros p Hi. split; [auto|]. apply (sumZ_elem (fun p => Weight (pref p))); [|done].
    intros q Hq. by apply Hp. }
  assert (Hkept : forall p, p ∈ prefs -> p ∈ kept).
  { intros p Hi. destruct (ap_full _ _ _ _ _ _ _ _ _ Hpass p Hi) as [|[Hsat Hlt]]; [done|exfalso].
    simpl in Hlt. rewrite (Hzero p Hi) in Hlt. destruct (Hp p Hi) as (_ & Hw0 & Hm).
    pose proof (ceil_share_le count (Weight (pref p)) (weights prefs)).
    destruct Hsat as [Hs1|[Hs1|Hs1]]; [specialize (Hm _ Hs1); lia|done|done]. }
  pose proof (ap_sublist _ _ _ _ _ _ _ _ _ Hpass) as Hsub.
  assert (Hlen : length kept = length prefs).
  { apply Nat.le_antisymm; [by apply sublist_length|].
    apply submseteq_length, NoDup_submseteq; [by eapply NoDup_fmap_1|exact Hkept]. }
  destruct (ap_all _ _ _ _ _ _ _ _ _ Hpass Hlen) as [Hz Hsh].
  pose proof (ap_accounts _ _ _ _ _ _ _ _ _ Hpass) as (Hr' & Hnn' & Hs').
  pose proof (ap_dom _ _ _ _ _ _ _ _ _ Hpass) as Hdom'.
  pose proof (ap_kept _ _ _ _ _ _ _ _ _ Hpass) as Hkp. simpl in Hz, Hdom', Hkp, Hsh.
  set (s' := foldl (distributeStep _ _ _ _) _ prefs) in *.
  assert (Hr0 : remainingReplicas (ps s') = 0) by (rewrite Hrem in Hz; nia).
  assert (Hst : getDesiredPlan_state ∅ ∅ prefs count = Some (ps s')).
  { unfold getDesiredPlan_state. fold st. simpl. rewrite Hrem.
    replace (0 <? count) with true by (symmetry; apply Z.ltb_lt; lia). simpl.
    rewrite weightSum64_spec; [|intros p Hi; by apply Hp|lia].
    replace (weights prefs <=? 0) with false by (symmetry; apply Z.leb_gt; lia).
    fold s'. destruct (length prefs); simpl; rewrite Hr0, andb_false_r; done. }
  exists (plan (ps s')), (if keep then overflow (ps s') else trimOverflow 0 (overflow (ps s'))).
  split_and!.
  - by rewrite (getDesiredPlan_unfold _ _ _ _ _ _ Hst), Hr0.
  - lia.
  - intros k. rewrite Hdom', Hdom. tauto.
  - intros p Hi. specialize (Hsh p Hi). rewrite (Hzero p Hi) in Hsh.
    destruct (Hp p Hi) as (_ & Hw0 & _). unfold share in Hsh.
    pose proof (ceil_share_le count (Weight (pref p)) (weights prefs)). lia.
Qed.

(** * What [Plan] guarantees

    The theorems about [getDesiredPlan] (termination, accounting, limits,
    saturation, overflow), the determinism of [getNamedPreferences], and the
    migration avoidance of [Plan]. *)

(** ** The named preferences *)

Section Named.
Context `{GoRuntime}.

Definition named_hash (name key : string) : Z :=
  fnv32_write (fnv32_write fnv32_offset name) key.

Lemma elem_of_getNamedPreferences prefs key p :
  p ∈ getNamedPreferences prefs key <->
  prefs !! clusterName p = Some (pref p) /\ hash p = named_hash (clusterName p) key.
Proof using Type.
  unfold getNamedPreferences. rewrite elem_of_sort_slice, list_elem_of_fmap. split.
  - intros ([n pr] & -> & Hin). by apply elem_of_range_map in Hin.
  - intros [Hl Hh]. exists (clusterName p, pref p). split; [|by apply elem_of_range_map].
    destruct p. simpl in *. by subst.
Qed.

Lemma getNamedPreferences_names prefs key k :
  k ∈ clusterName <$> getNamedPreferences prefs key <-> is_Some (prefs !! k).
Proof using Type.
  rewrite list_elem_of_fmap. split.
  - intros (p & -> & [Hp _]%elem_of_getNamedPreferences). eauto.
  - intros [pr Hpr]. exists {| clusterName := k; hash := named_hash k key; pref := pr |}.
    split; [done|]. by apply elem_of_getNamedPreferences.
Qed.

Lemma getNamedPreferences_NoDup prefs key :
  NoDup (clusterName <$> getNamedPreferences prefs key).
Proof using Type.
  unfold getNamedPreferences. rewrite sort_slice_perm, <- list_fmap_compose.
  rewrite (list_fmap_ext _ fst); [apply NoDup_range_map_fst|]. by intros _ [] _.
Qed.

(** A sum over the named preferences is a sum over the map. *)
Lemma sumZ_getNamedPreferences (f : ClusterPreferences -> Z) prefs key :
  sumZ (fun p => f (pref p)) (getNamedPreferences prefs key) =
  msum (f <$> prefs).
Proof using Type.
  rewrite msum_map_to_list, map_to_list_fmap. unfold getNamedPreferences.
  rewrite (sumZ_perm _ _ _ (sort_slice_perm _ _ _)).
  rewrite <- (sumZ_perm snd _ _ (fmap_Permutation _ _ _ (range_map_perm _ prefs))).
  induction (range_map prefs) as [|[k v] l IH]; simpl; [done|]. f_equal. exact IH.
Qed.
End Named.

(** ** Scaling up and down *)

Section Scale.
Context `{GoRuntime}.

Lemma mget_fmap_imap (f : string -> Z -> option ClusterPreferences) des k :
  mget (Weight <$> map_imap f des) k =
  match des !! k ≫= f k with Some p => Weight p | None => 0 end.
Proof using Type.
  unfold mget. rewrite lookup_fmap, map_lookup_imap. by destruct (des !! k ≫= f k).
Qed.

(** The common part: preferences whose weights are the missing replicas. *)
Lemma scale_plan (f : string -> Z -> option ClusterPreferences) des count key :
  (forall k d p, des !! k = Some d -> f k d = Some p ->
     MinReplicas p = 0 /\ 0 <= Weight p /\
     forall m, MaxReplicas p = Some m -> Weight p <= m) ->
  0 < count <= msum (Weight <$> map_imap f des) ->
  msum (Weight <$> map_imap f des) < 2 ^ 31 ->
  exists pl ovf,
    getDesiredPlan ∅ ∅ (getNamedPreferences (map_imap f des) key) count false = Some (pl, ovf) /\
    msum pl = count /\
    forall k, 0 <= mget pl k <= mget (Weight <$> map_imap f des) k.
Proof using Type.
  intros Hf Hc Hw.
  pose proof (sumZ_getNamedPreferences Weight (map_imap f des) key) as Hsum.
  destruct (getDesiredPlan_weights (getNamedPreferences (map_imap f des) key) count false)
    as (pl & ovf & Hpl & Hcount & Hdom & Hsh).
  - apply getNamedPreferences_NoDup.
  - intros p [Hp _]%elem_of_getNamedPreferences. rewrite map_lookup_imap in Hp.
    apply bind_Some in Hp as (d & Hd & Hfd). eauto.
  - unfold weights. rewrite Hsum. done.
  - unfold weights. rewrite Hsum. done.
  - exists pl, ovf. split_and!; [done..|]. intros k.
    destruct (map_imap f des !! k) as [p|] eqn:Ep.
    + specialize (Hsh {| clusterName := k; hash := named_hash k key; pref := p |}).
      unfold mget at 3. rewrite lookup_fmap, Ep. simpl in *. apply Hsh.
      by apply elem_of_getNamedPreferences.
    + unfold mget at 3. rewrite lookup_fmap, Ep. simpl.
      rewrite mget_None; [done|]. apply eq_None_not_Some.
      rewrite Hdom, getNamedPreferences_names, Ep. by intros [].
Qed.

(** A plan never exceeds 2^31, so that int64 operations on it are exact. *)
Definition small_plan (m : gmap string Z) : Prop := all_nonneg m /\ msum m < 2 ^ 31.

Lemma small_plan_mget m k : small_plan m -> 0 <= mget m k < 2 ^ 31.
Proof using Type. intros [Hn Hs]. pose proof (mget_le_msum m k Hn). split; [auto with go|lia]. Qed.

Lemma scaleUp_spec rsp cur des count key :
  small_plan cur -> small_plan des -> msum cur < msum des ->
  count = msum des - msum cur ->
  (forall k d m, des !! k = Some d -> explicitMax rsp k = Some m -> d <= m < 2 ^ 63) ->
  exists res, scaleUp rsp cur des count key = Some res /\ msum res = msum des /\
    forall k, mget cur k <= mget res k <= Z.max (mget cur k) (mget des k).
Proof using Type.
  intros Hcur Hdes Hlt -> Hmax. unfold scaleUp, scaleUpPreferences.
  set (f := fun cluster desired => _).
  assert (Hw : forall k, mget (Weight <$> map_imap f des) k = Z.max 0 (mget des k - mget cur k)).
  { intros k. rewrite mget_fmap_imap. pose proof (small_plan_mget cur k Hcur).
    pose proof (small_plan_mget des k Hdes).
    destruct (des !! k) as [d|] eqn:Ed; simpl; [|rewrite (mget_None _ _ Ed); lia].
    rewrite (mget_Some _ _ _ Ed) in *.
    unfold f. destruct (_ <? _) eqn:E; z_bools; simpl; [|lia].
    rewrite sub64_small by (unfold int64; lia). lia. }
  set (s := range_update Z.add cur (Weight <$> map_imap f des)).
  assert (Hs : forall k, mget s k = mget cur k + mget (Weight <$> map_imap f des) k).
  { intros k. unfold s. rewrite range_update_mget. destruct (_ !! k) as [v|] eqn:Ev.
    - by rewrite (mget_Some _ _ _ Ev).
    - rewrite (mget_None _ _ Ev). lia. }
  pose proof (msum_add _ _ _ Hs) as Hsum.
  assert (msum des <= msum s) by (apply msum_le; intros k; rewrite Hs, Hw; lia).
  assert (msum (Weight <$> map_imap f des) <= msum des).
  { apply msum_le. intros k. rewrite Hw. pose proof (small_plan_mget cur k Hcur).
    pose proof (small_plan_mget des k Hdes). lia. }
  destruct (scale_plan f des (msum des - msum cur) key) as (pl & ovf & -> & Hcount & Hpl);
    [|lia|destruct Hdes; lia|].
  - intros k d p Hd. unfold f. pose proof (small_plan_mget cur k Hcur).
    pose proof (small_plan_mget des k Hdes) as Hdk. rewrite (mget_Some _ _ _ Hd) in Hdk.
    case_match; [|done]. z_bools. intros [= <-]. simpl.
    rewrite sub64_small by (unfold int64; lia). split_and!; [done|lia|].
    intros m (m0 & Hm0 & ->)%fmap_Some. specialize (Hmax _ _ _ Hd Hm0).
    rewrite sub64_small by (unfold int64; lia). lia.
  - simpl. eexists. split; [reflexivity|].
    assert (Hres : forall k, mget (range_update add64 cur pl) k = mget cur k + mget pl k).
    { intros k. rewrite range_update_mget. pose proof (small_plan_mget cur k Hcur).
      pose proof (small_plan_mget des k Hdes). specialize (Hpl k). rewrite Hw in Hpl.
      destruct (pl !! k) as [v|] eqn:Ev.
      - rewrite (mget_Some _ _ _ Ev) in *. apply add64_small. unfold int64. lia.
      - rewrite (mget_None _ _ Ev). lia. }
    split; [rewrite (msum_add _ _ _ Hres); lia|].
    intros k. rewrite Hres. specialize (Hpl k). rewrite Hw in Hpl. lia.
Qed.

Lemma scaleDown_spec cur des count key :
  small_plan cur -> small_plan des -> msum des < msum cur ->
  (forall k, is_Some (cur !! k) -> is_Some (des !! k)) ->
  count = msum cur - msum des ->
  exists res, scaleDown cur des count key = Some res /\ msum res = msum des /\
    forall k, Z.min (mget cur k) (mget des k) <= mget res k <= mget cur k.
Proof using Type.
  intros Hcur Hdes Hlt Hdom ->. unfold scaleDown, scaleDownPreferences.
  set (f := fun cluster desired => _).
  assert (Hw : forall k, mget (Weight <$> map_imap f des) k = Z.max 0 (mget cur k - mget des k)).
  { intros k. rewrite mget_fmap_imap. pose proof (small_plan_mget cur k Hcur).
    pose proof (small_plan_mget des k Hdes).
    destruct (des !! k) as [d|] eqn:Ed; simpl.
    - rewrite (mget_Some _ _ _ Ed) in *.
      unfold f. destruct (_ <? _) eqn:E; z_bools; simpl; [|lia].
      rewrite sub64_small by (unfold int64; lia). lia.
    - destruct (cur !! k) eqn:Ec; [destruct (Hdom k); [eauto|congruence]|].
      rewrite (mget_None _ _ Ec), (mget_None _ _ Ed). lia. }
  set (s := range_update Z.add des (Weight <$> map_imap f des)).
  assert (Hs : forall k, mget s k = mget des k + mget (Weight <$> map_imap f des) k).
  { intros k. unfold s. rewrite range_update_mget. destruct (_ !! k) as [v|] eqn:Ev.
    - by rewrite (mget_Some _ _ _ Ev).
    - rewrite (mget_None _ _ Ev). lia. }
  pose proof (msum_add _ _ _ Hs) as Hsum.
  assert (msum cur <= msum s) by (apply msum_le; intros k; rewrite Hs, Hw; lia).
  assert (msum (Weight <$> map_imap f des) <= msum cur).
  { apply msum_le. intros k. rewrite Hw. pose proof (small_plan_mget cur k Hcur).
    pose proof (small_plan_mget des k Hdes). lia. }
  destruct (scale_plan f des (msum cur - msum des) key) as (pl & ovf & -> & Hcount & Hpl);
    [|lia|destruct Hcur; lia|].
  - intros k d p Hd. unfold f. pose proof (small_plan_mget cur k Hcur).
    pose proof (small_plan_mget des k Hdes) as Hdk. rewrite (mget_Some _ _ _ Hd) in Hdk.
    case_match; [|done]. z_bools. intros [= <-]. simpl.
    rewrite sub64_small by (unfold int64; lia). split_and!; [done|lia|].
    intros m [= <-]. lia.
  - simpl. eexists. split; [reflexivity|].
    assert (Hres : forall k, mget cur k = mget (range_update sub64 cur pl) k + mget pl k).
    { intros k. rewrite range_update_mget. pose proof (small_plan_mget cur k Hcur).
      pose proof (small_plan_mget des k Hdes). specialize (Hpl k). rewrite Hw in Hpl.
      destruct (pl !! k) as [v|] eqn:Ev.
      - rewrite (mget_Some _ _ _ Ev) in *. rewrite sub64_small; [lia|]. unfold int64. lia.
      - rewrite (mget_None _ _ Ev). lia. }
    split; [pose proof (msum_add _ _ _ Hres); lia|].
    intros k. specialize (Hpl k). rewrite Hw in Hpl. specialize (Hres k).
    pose proof (small_plan_mget cur k Hcur). pose proof (small_plan_mget des k Hdes). lia.
Qed.
End Scale.

(** ** The inputs of [Plan] *)

(** Nonnegative preferences, replica counts of at most 31 bits (a workload's
    [spec.replicas] is an int32), weights that sum to at most 2^31. *)
Record plan_input (prefs : gmap string ClusterPreferences) (total : Z)
    (cur est lim : gmap string Z) : Prop := {
  pn_pref : forall c p, prefs !! c = Some p -> 0 <= MinReplicas p /\ 0 <= Weight p /\
    forall m, MaxReplicas p = Some m -> 0 <= m < 2 ^ 63;
  pn_weights : msum (Weight <$> prefs) <= 2 ^ 31;
  pn_total : 0 <= total < 2 ^ 31;
  pn_cur : small_plan cur;
  pn_est : all_nonneg est;
  pn_lim : all_nonneg lim
}.

Section Inputs.
Context `{GoRuntime}.

Lemma plan_input_planner prefs total cur est lim key :
  plan_input prefs total cur est lim ->
  planner_input est lim (getNamedPreferences prefs key) total.
Proof using Type.
  intros [Hp Hw Ht Hc He Hl]. split; try done; try lia.
  - apply getNamedPreferences_NoDup.
  - intros p [Hl' _]%elem_of_getNamedPreferences. destruct (Hp _ _ Hl') as (? & ? & Hm).
    split_and!; [done..|]. intros m Hmm. by apply Hm.
  - unfold weights. rewrite (sumZ_getNamedPreferences Weight). nia.
Qed.

(** [currentPlan] holds the clipped replicas of the named clusters. *)
Definition clipped (cur est lim : gmap string Z) (c : string) : Z :=
  limit est c (limit lim c (mget cur c)).

Lemma clipped_bounds cur est lim c :
  all_nonneg est -> all_nonneg lim -> 0 <= mget cur c ->
  0 <= clipped cur est lim c <= mget cur c.
Proof using Type.
  intros. unfold clipped. split; [by apply limit_nonneg, limit_nonneg|].
  etrans; apply limit_le.
Qed.

Lemma currentPlanOf_spec cur est lim named :
  NoDup (clusterName <$> named) -> all_nonneg est -> all_nonneg lim -> small_plan cur ->
  exists m, currentPlanOf cur est lim named = (m, msum m) /\ small_plan m /\
    forall k, m !! k = if decide (k ∈ clusterName <$> named)
                       then Some (clipped cur est lim k) else None.
Proof using Type.
  intros Hnd He Hl Hcur. unfold currentPlanOf.
  assert (Hg : forall m0, (forall k, k ∈ clusterName <$> named -> m0 !! k = None) ->
    exists m, foldl (currentPlanStep cur est lim) (m0, wrap64 (msum m0)) named = (m, wrap64 (msum m)) /\
    forall k, m !! k = if decide (k ∈ clusterName <$> named)
                       then Some (clipped cur est lim k) else m0 !! k).
  { clear Hcur. induction named as [|p named IH]; intros m0 Hm0.
    - exists m0. split; [done|]. intros k. rewrite decide_False by (simpl; set_solver). done.
    - rewrite fmap_cons in *. apply NoDup_cons in Hnd as [Hp Hnd].
      destruct (IH Hnd (<[clusterName p := clipped cur est lim (clusterName p)]> m0)) as (m & Hm & Hk).
      { intros k Hk. rewrite lookup_insert_ne by (intros <-; done). apply Hm0. by right. }
      exists m. split.
      + simpl. unfold currentPlanStep at 2. fold (clipped cur est lim (clusterName p)). simpl.
        rewrite <- Hm. do 2 f_equal. rewrite add64_wrap_l, msum_insert.
        rewrite (mget_None _ _ (Hm0 _ ltac:(left))). f_equal. lia.
      + intros k. rewrite Hk. destruct (decide (k = clusterName p)) as [->|Hne].
        * rewrite decide_False by done. rewrite decide_True by (by left). by rewrite lookup_insert_eq.
        * rewrite lookup_insert_ne by done.
          destruct (decide (k ∈ clusterName <$> named)).
          -- rewrite decide_True by (by right). done.
          -- rewrite decide_False; [done|]. by intros [|]%elem_of_cons. }
  destruct (Hg ∅ ltac:(done)) as (m & Hm & Hk). exists m.
  assert (Hclip : forall k, 0 <= mget m k <= mget cur k).
  { intros k. pose proof (small_plan_mget cur k Hcur).
    assert (mget m k = if decide (k ∈ clusterName <$> named) then clipped cur est lim k else 0)
      as -> by (unfold mget; rewrite Hk; by case_decide).
    case_decide; [|lia]. apply clipped_bounds; [done..|lia]. }
  assert (Hsmall : small_plan m).
  { split.
    - intros k v Hv. specialize (Hclip k). rewrite (mget_Some _ _ _ Hv) in Hclip. lia.
    - pose proof (msum_le m cur (fun k => proj2 (Hclip k))). destruct Hcur. lia. }
  pose proof (msum_nonneg m (proj1 Hsmall)). pose proof (proj2 Hsmall).
  rewrite msum_empty, !wrap64_small in Hm by (unfold int64; lia).
  split_and!; [done|done|]. intros k. by rewrite Hk.
Qed.
End Inputs.

(** ** Availability *)

Lemma availablePreferences_lookup rsp available c :
  availablePreferences rsp available !! c =
  if decide (c ∈ available) then
    match Clusters rsp !! c with Some p => Some p | None => Clusters rsp !! "*"%string end
  else None.
Proof.
  unfold availablePreferences.
  assert (Hg : forall m : gmap string ClusterPreferences, foldl (fun acc cluster =>
      match Clusters rsp !! cluster with
      | Some preference => <[cluster := preference]> acc
      | None => match Clusters rsp !! "*"%string with
                | Some preference => <[cluster := preference]> acc
                | None => acc
                end
      end) m available !! c =
    match (if decide (c ∈ available) then
             match Clusters rsp !! c with Some p => Some p | None => Clusters rsp !! "*"%string end
           else None) with Some p => Some p | None => m !! c end).
  { induction available as [|a l IH]; intros m; cbn [foldl].
    - destruct (decide (c ∈ [])) as [E|_]; [by apply not_elem_of_nil in E|done].
    - rewrite IH. destruct (decide (c = a)) as [->|Hne].
      + rewrite (decide_True (P := a ∈ a :: l)) by left.
        destruct (Clusters rsp !! a); [|destruct (Clusters rsp !! "*"%string)];
          case_decide; rewrite ?lookup_insert_eq; done.
      + assert (c ∈ a :: l <-> c ∈ l) as Hiff by (rewrite elem_of_cons; tauto).
        rewrite (decide_ext _ _ _ _ Hiff).
        destruct (Clusters rsp !! a); [|destruct (Clusters rsp !! "*"%string)];
          rewrite ?lookup_insert_ne by done; done. }
  rewrite Hg, lookup_empty. by destruct (if decide _ then _ else _).
Qed.
