(* ===== verification/PlanTheorems.v ===== *)
(** * The theorems about the replica planner

    What [getDesiredPlan] and [Plan] promise: termination, accounting, limits,
    saturation, overflow, migration avoidance, determinism. *)

From Stdlib Require Import ZArith Lia String.
From S2P Require Import Prelude Planner PlannerFacts.

(** The state the loop ends in, as a statement about the result. *)
Lemma getDesiredPlan_bounds est lim prefs total keep :
  planner_input est lim prefs total ->
  exists pl ovf,
    getDesiredPlan est lim prefs total keep = Some (pl, ovf) /\
    0 <= msum pl <= total /\
    (forall k, is_Some (pl !! k) <-> k ∈ clusterName <$> prefs) /\
    (forall p, p ∈ prefs -> 0 <= mget pl (clusterName p) /\
       within_caps est lim (clusterName p) (mget pl (clusterName p)) /\
       within_max p (mget pl (clusterName p))).
Proof.
  intros Hin. destruct (getDesiredPlan_state_spec _ _ _ _ Hin) as (act & st & Hst & Hinv & _).
  rewrite (getDesiredPlan_unfold _ _ _ _ keep _ Hst). do 2 eexists. split; [done|].
  destruct (li_accounts _ _ _ _ _ _ Hinv) as (Hr & Hnn & Hs).
  pose proof (msum_nonneg _ Hnn). split_and!; [lia|lia|apply (li_dom _ _ _ _ _ _ Hinv)|].
  intros p Hp. destruct (li_share _ _ _ _ _ _ Hinv p Hp).
  split_and!; [by apply all_nonneg_mget|done|done].
Qed.

(** C9. [getDesiredPlan] terminates within one pass per cluster; its plan has
    an entry for exactly the requested clusters, never negative, within the
    limited and the estimated capacity and within max(MinReplicas,
    MaxReplicas), and assigns at most [totalReplicas]. *)
Theorem getDesiredPlan_correct est lim prefs total keep :
  planner_input est lim prefs total ->
  exists pl ovf,
    getDesiredPlan est lim prefs total keep = Some (pl, ovf) /\
    0 <= msum pl <= total /\
    (forall k, is_Some (pl !! k) <-> k ∈ clusterName <$> prefs) /\
    (forall p, p ∈ prefs -> 0 <= mget pl (clusterName p) /\
       within_caps est lim (clusterName p) (mget pl (clusterName p)) /\
       within_max p (mget pl (clusterName p))).
Proof. apply getDesiredPlan_bounds. Qed.

(** No replica is left over needlessly: when every MinReplicas is at most
    its MaxReplicas and the plan is short of the total, every cluster of
    positive weight holds exactly its maximum or one of its capacities. *)
Theorem getDesiredPlan_saturates est lim prefs total keep pl ovf :
  planner_input est lim prefs total -> consistent prefs ->
  getDesiredPlan est lim prefs total keep = Some (pl, ovf) -> msum pl < total ->
  forall p, p ∈ prefs -> Weight (pref p) = 0 \/ saturated est lim p (mget pl (clusterName p)).
Proof.
  intros Hin Hc Hpl Hlt.
  destruct (getDesiredPlan_state_spec _ _ _ _ Hin) as (act & st & Hst & Hinv & Hsat).
  rewrite (getDesiredPlan_unfold _ _ _ _ keep _ Hst) in Hpl. injection Hpl as <- _.
  destruct (li_accounts _ _ _ _ _ _ Hinv) as (Hr & Hnn & Hs). apply Hsat; [done|lia].
Qed.

(** The overflow of the final state. *)
Lemma getDesiredPlan_overflow_state est lim prefs total keep pl ovf :
  planner_input est lim prefs total -> consistent prefs ->
  getDesiredPlan est lim prefs total keep = Some (pl, ovf) ->
  forall k d, ovf !! k = Some d ->
    est !! k = Some (mget pl k) /\ 0 < d /\ (keep = false -> d <= total - msum pl).
Proof.
  intros Hin Hc Hpl k d.
  destruct (getDesiredPlan_state_spec _ _ _ _ Hin) as (act & st & Hst & Hinv & _).
  rewrite (getDesiredPlan_unfold _ _ _ _ keep _ Hst) in Hpl. injection Hpl as <- <-.
  destruct (li_accounts _ _ _ _ _ _ Hinv) as (Hr & Hnn & Hs).
  pose proof (li_overflow _ _ _ _ _ _ Hinv Hc) as Hovf. destruct keep.
  - intros (? & ? & _)%Hovf. split_and!; [done|lia|done].
  - intros (d0 & Hd0 & -> & Hpos)%trimOverflow_lookup. apply Hovf in Hd0 as (? & _).
    split_and!; [done|lia|lia].
Qed.

(** Overflow is only reported for clusters filled up to their estimated
    capacity, and is positive; unless unschedulable replicas are kept, it is
    at most the number of replicas that were placed nowhere. *)
Theorem getDesiredPlan_overflow est lim prefs total keep pl ovf :
  planner_input est lim prefs total -> consistent prefs ->
  getDesiredPlan est lim prefs total keep = Some (pl, ovf) ->
  forall k d, ovf !! k = Some d ->
    est !! k = Some (mget pl k) /\ 0 < d /\ (keep = false -> d <= total - msum pl).
Proof. apply getDesiredPlan_overflow_state. Qed.

Section PlanProperties.
Context `{GoRuntime}.

Lemma getNamedPreferences_consistent prefs key :
  (forall c p m, prefs !! c = Some p -> MaxReplicas p = Some m -> MinReplicas p <= m) ->
  consistent (getNamedPreferences prefs key).
Proof using Type. intros Hc p [Hp _]%elem_of_getNamedPreferences m Hm. eauto. Qed.

(** The current plan in terms of the available clusters. *)
Lemma currentPlan_available (prefs : gmap string ClusterPreferences) cur est lim key :
  all_nonneg est -> all_nonneg lim -> small_plan cur ->
  exists cp, currentPlanOf cur est lim (getNamedPreferences prefs key) = (cp, msum cp) /\
    small_plan cp /\
    (forall c, is_Some (prefs !! c) -> mget cp c = clipped cur est lim c) /\
    (forall c, prefs !! c = None -> cp !! c = None).
Proof using Type.
  intros He Hl Hcur.
  destruct (currentPlanOf_spec cur est lim (getNamedPreferences prefs key))
    as (cp & Hcp & Hsmall & Hlook); [apply getNamedPreferences_NoDup|done..|].
  exists cp. split_and!; [done..| |]; intros c Hc; [unfold mget|]; rewrite Hlook.
  - by rewrite decide_True by (by apply getNamedPreferences_names).
  - rewrite decide_False; [done|]. rewrite getNamedPreferences_names, Hc. by intros [].
Qed.

(** A desired share does not exceed the explicit maximum. *)
Lemma explicit_max_bound prefs total cur est lim key act st c d p m :
  plan_input prefs total cur est lim ->
  (forall c p m, prefs !! c = Some p -> MaxReplicas p = Some m -> MinReplicas p <= m) ->
  loop_inv est lim total (getNamedPreferences prefs key) act st ->
  plan st !! c = Some d -> prefs !! c = Some p -> MaxReplicas p = Some m ->
  d <= m < 2 ^ 63.
Proof using Type.
  intros Hin Hcons Hinv Hd Hp Hm.
  destruct (li_share _ _ _ _ _ _ Hinv
    {| clusterName := c; hash := named_hash c key; pref := p |}) as [_ Hmax].
  { by apply elem_of_getNamedPreferences. }
  specialize (Hmax m Hm). unfold share in Hmax. simpl in Hmax.
  rewrite (mget_Some _ _ _ Hd) in Hmax. specialize (Hcons c p m Hp Hm).
  destruct (pn_pref _ _ _ _ _ Hin c p Hp) as (? & ? & Hm'). specialize (Hm' m Hm). lia.
Qed.

(** The plan with [avoidDisruption], against the desired plan. *)
Lemma Plan_disruption rsp total available cur est lim key keep :
  let prefs := availablePreferences rsp available in
  plan_input prefs total cur est lim ->
  (forall c p m, prefs !! c = Some p -> MaxReplicas p = Some m -> MinReplicas p <= m) ->
  exists desired ovf res,
    getDesiredPlan est lim (getNamedPreferences prefs key) total keep = Some (desired, ovf) /\
    Plan rsp total available cur est lim key true keep = Some (res, ovf) /\
    msum res = msum desired /\
    (forall c, prefs !! c = None -> mget res c = 0) /\
    ((forall c, is_Some (prefs !! c) ->
        clipped cur est lim c <= mget res c <= Z.max (clipped cur est lim c) (mget desired c)) \/
     (forall c, is_Some (prefs !! c) ->
        Z.min (clipped cur est lim c) (mget desired c) <= mget res c <= clipped cur est lim c)).
Proof using Type.
  intros prefs Hin Hcons.
  pose proof (plan_input_planner _ _ _ _ _ key Hin) as Hpi.
  pose proof (getNamedPreferences_consistent _ key Hcons) as Hc.
  destruct (getDesiredPlan_state_spec _ _ _ _ Hpi) as (act & st & Hst & Hinv & _).
  pose proof (getDesiredPlan_unfold _ _ _ _ keep _ Hst) as Hpl.
  destruct (li_accounts _ _ _ _ _ _ Hinv) as (Hr & Hnn & Hs).
  assert (Hdes : small_plan (plan st)) by (split; [done|destruct Hin; lia]).
  destruct (currentPlan_available prefs cur est lim key) as (cp & Hcp & Hsmall & Hcl & Hno);
    [apply Hin..|].
  assert (Hdom : forall c, is_Some (plan st !! c) <-> is_Some (prefs !! c)).
  { intros c. by rewrite (li_dom _ _ _ _ _ _ Hinv), getNamedPreferences_names. }
  assert (Hdes0 : forall c, prefs !! c = None -> mget (plan st) c = 0).
  { intros c Hn. apply mget_None, eq_None_not_Some. rewrite Hdom, Hn. by intros []. }
  pose proof (fun k => small_plan_mget _ k Hsmall) as Hcp0. pose proof (fun k => small_plan_mget _ k Hdes) as Hd0.
  pose proof (msum_nonneg _ (proj1 Hsmall)). pose proof (msum_nonneg _ Hnn).
  pose proof (proj2 Hsmall). pose proof (proj2 Hdes).
  exists (plan st), (if keep then overflow st else trimOverflow (remainingReplicas st) (overflow st)).
  unfold Plan. fold prefs. simpl. rewrite Hpl. simpl. rewrite Hcp.
  rewrite msum64_small by (unfold int64; lia).
  destruct (msum cp =? msum (plan st)) eqn:E1; [|destruct (_ <? _) eqn:E2]; z_bools.
  - exists cp. split_and!; [done..|intros c Hn; by apply mget_None, Hno|]. left. intros c Hc'. rewrite (Hcl c Hc'). lia.
  - destruct (scaleDown_spec cp (plan st) (msum cp -! msum (plan st)) key)
      as (res & -> & Hsum & Hres); [done..| |rewrite sub64_small by (unfold int64; lia); done|].
    { intros c Hc'. apply Hdom. destruct (prefs !! c) eqn:Ep; [done|].
      destruct Hc' as [v Hv]. by rewrite Hno in Hv. }
    exists res. split_and!; [done..| |].
    + intros c Hn. specialize (Hres c). rewrite (mget_None _ _ (Hno c Hn)), (Hdes0 c Hn) in Hres. lia.
    + right. intros c Hc'. by rewrite <- (Hcl c Hc').
  - destruct (scaleUp_spec rsp cp (plan st) (msum (plan st) -! msum cp) key)
      as (res & -> & Hsum & Hres); [done..|lia|rewrite sub64_small by (unfold int64; lia); done| |].
    { intros c d m Hd Hm. destruct (Hdom c) as [[p Hp] _]; [eauto|].
      eapply explicit_max_bound; [done..|].
      unfold prefs in Hp. rewrite availablePreferences_lookup in Hp. case_decide; [|done].
      unfold explicitMax in Hm. destruct (Clusters rsp !! c); [|done]. by simplify_eq/=. }
    exists res. split_and!; [done..| |].
    + intros c Hn. specialize (Hres c). rewrite (mget_None _ _ (Hno c Hn)), (Hdes0 c Hn) in Hres. lia.
    + left. intros c Hc'. by rewrite <- (Hcl c Hc').
Qed.

Lemma clipped_caps cur est lim c : within_caps est lim c (clipped cur est lim c).
Proof using Type.
  unfold clipped. split; intros cap Hcap.
  - etrans; [apply limit_le|by apply limit_cap].
  - by apply limit_cap.
Qed.

Lemma within_caps_le est lim c x y :
  within_caps est lim c x -> y <= x -> within_caps est lim c y.
Proof using Type. intros [Hl He] Hy. split; intros cap Hcap; etrans; eauto. Qed.

Lemma within_caps_zero est lim c :
  all_nonneg est -> all_nonneg lim -> within_caps est lim c 0.
Proof using Type. intros He Hl. split; intros cap; [apply Hl|apply He]. Qed.

Lemma getDesiredPlan_caps prefs total cur est lim key keep :
  plan_input prefs total cur est lim ->
  exists pl ovf,
    getDesiredPlan est lim (getNamedPreferences prefs key) total keep = Some (pl, ovf) /\
    0 <= msum pl <= total /\
    (forall c, is_Some (pl !! c) <-> is_Some (prefs !! c)) /\
    (forall c p m, prefs !! c = Some p -> MaxReplicas p = Some m ->
       mget pl c <= Z.max (MinReplicas p) m) /\
    forall c, 0 <= mget pl c /\ within_caps est lim c (mget pl c).
Proof using Type.
  intros Hin.
  destruct (getDesiredPlan_bounds _ _ _ _ keep (plan_input_planner _ _ _ _ _ key Hin))
    as (pl & ovf & Hpl & Htot & Hdom & Hp).
  assert (Hdom' : forall c, is_Some (pl !! c) <-> is_Some (prefs !! c))
    by (intros c; by rewrite Hdom, getNamedPreferences_names).
  assert (Hnamed : forall c p, prefs !! c = Some p ->
    0 <= mget pl c /\ within_caps est lim c (mget pl c) /\
    forall m, MaxReplicas p = Some m -> mget pl c <= Z.max (MinReplicas p) m).
  { intros c p Hc. apply (Hp {| clusterName := c; hash := named_hash c key; pref := p |}).
    by apply elem_of_getNamedPreferences. }
  exists pl, ovf. split_and!; [done|lia|lia|done| |].
  { intros c p m Hc. by apply Hnamed. }
  intros c. destruct (prefs !! c) as [p|] eqn:Ep.
  - destruct (Hnamed c p Ep) as (? & ? & _). done.
  - rewrite mget_None.
    + split; [done|]. apply within_caps_zero; apply Hin.
    + apply eq_None_not_Some. rewrite Hdom', Ep. by intros [].
Qed.


(** The result of [Plan] in either mode. *)
Lemma Plan_limits rsp total available cur est lim key avoid keep :
  let prefs := availablePreferences rsp available in
  plan_input prefs total cur est lim ->
  (forall c p m, prefs !! c = Some p -> MaxReplicas p = Some m -> MinReplicas p <= m) ->
  exists res ovf,
    Plan rsp total available cur est lim key avoid keep = Some (res, ovf) /\
    0 <= msum res <= total /\
    (forall c, 0 <= mget res c /\ within_caps est lim c (mget res c)) /\
    (forall c, prefs !! c = None -> mget res c = 0) /\
    (forall c p m, prefs !! c = Some p -> MaxReplicas p = Some m ->
       mget res c <= Z.max (mget cur c) m) /\
    (forall c d, ovf !! c = Some d -> is_Some (est !! c)).
Proof using Type.
  intros prefs Hin Hcons.
  pose proof (plan_input_planner _ _ _ _ _ key Hin) as Hpi.
  pose proof (getNamedPreferences_consistent _ key Hcons) as Hcn.
  assert (Hovf : forall keep' pl ovf,
    getDesiredPlan est lim (getNamedPreferences prefs key) total keep' = Some (pl, ovf) ->
    forall c d, ovf !! c = Some d -> is_Some (est !! c)).
  { intros keep' pl ovf Hpl c d Hd.
    destruct (getDesiredPlan_overflow_state _ _ _ _ _ _ _ Hpi Hcn Hpl c d Hd) as [-> _]. eauto. }
  destruct avoid.
  - destruct (Plan_disruption rsp total available cur est lim key keep Hin Hcons)
      as (des & ovf & res & Hpl & HP & Hsum & Hno & Hbet).
    destruct (getDesiredPlan_caps _ _ _ _ _ key keep Hin) as (pl & ovf' & Hpl' & Htot & _ & Hmax & Hcap).
    fold prefs in Hpl. rewrite Hpl in Hpl'. injection Hpl' as <- <-.
    assert (Hmid : forall c, is_Some (prefs !! c) ->
      0 <= mget res c <= Z.max (clipped cur est lim c) (mget des c) /\
      0 <= clipped cur est lim c <= mget cur c).
    { intros c Hc. pose proof (clipped_bounds cur est lim c (pn_est _ _ _ _ _ Hin) (pn_lim _ _ _ _ _ Hin)
        (proj1 (small_plan_mget cur c (pn_cur _ _ _ _ _ Hin)))) as Hcl.
      destruct (Hcap c). destruct Hbet as [Hb|Hb]; specialize (Hb c Hc); lia. }
    exists res, ovf. split_and!; [done|lia|lia| |done| |by eauto].
    + intros c. destruct (Hcap c) as (H0 & Hc).
      destruct (prefs !! c) as [p|] eqn:Ep.
      2:{ rewrite (Hno c Ep). split; [done|]. apply within_caps_zero; apply Hin. }
      destruct (Hmid c ltac:(eauto)) as [[Hge Hle] _]. split; [done|].
      destruct (Z.max_spec (clipped cur est lim c) (mget des c)) as [[_ Hm]|[_ Hm]];
        rewrite Hm in Hle; (eapply within_caps_le; [|exact Hle]); [done|apply clipped_caps].
    + intros c p m Hp Hm. destruct (Hmid c ltac:(eauto)) as [? ?].
      specialize (Hmax c p m Hp Hm). specialize (Hcons c p m Hp Hm). lia.
  - destruct (getDesiredPlan_caps _ _ _ _ _ key true Hin) as (pl & ovf & Hpl & Htot & Hdom & Hmax & Hcap).
    exists pl, ovf. split_and!; [|lia|lia|done| | |by eauto].
    + unfold Plan. simpl. unfold prefs in Hpl. by rewrite Hpl.
    + intros c Hn. apply mget_None, eq_None_not_Some. rewrite Hdom, Hn. by intros [].
    + intros c p m Hp Hm. specialize (Hmax c p m Hp Hm). specialize (Hcons c p m Hp Hm). lia.
Qed.

End PlanProperties.

(** ** Determinism *)

Section Determinism.
Variables R1 R2 : GoRuntime.

(** Two runtimes name and sort the preferences alike when the hashes of the
    clusters differ. *)
Lemma getNamedPreferences_deterministic prefs key :
  (forall c1 c2, is_Some (prefs !! c1) -> is_Some (prefs !! c2) ->
     named_hash c1 key = named_hash c2 key -> c1 = c2) ->
  @getNamedPreferences R1 prefs key = @getNamedPreferences R2 prefs key.
Proof using Type.
  intros Hinj. apply (sorted_perm_unique byWeight_Less).
  - unfold getNamedPreferences. rewrite !sort_slice_perm.
    by rewrite (@range_map_perm R1), (@range_map_perm R2).
  - intros x y [Hx Hhx]%elem_of_getNamedPreferences [Hy Hhy]%elem_of_getNamedPreferences Hxy Hyx.
    assert (hash x = hash y) as Hh.
    { unfold byWeight_Less in *. z_bools.
      repeat match goal with H : (_ && _) = false |- _ => apply andb_false_iff in H as [?|?] end;
        z_bools; lia. }
    assert (clusterName x = clusterName y) as Hn by (apply Hinj; [eauto..|congruence]).
    destruct x, y; simpl in *. subst. congruence.
  - apply sort_slice_sorted, _.
  - apply sort_slice_sorted, _.
Qed.

Lemma scaleUp_deterministic rsp cur des count key :
  (forall c1 c2, is_Some (des !! c1) -> is_Some (des !! c2) ->
     named_hash c1 key = named_hash c2 key -> c1 = c2) ->
  @scaleUp R1 rsp cur des count key = @scaleUp R2 rsp cur des count key.
Proof using Type.
  intros Hinj. unfold scaleUp. rewrite getNamedPreferences_deterministic; [done|].
  unfold scaleUpPreferences. intros c1 c2. rewrite !map_lookup_imap.
  intros [? (? & ? & _)%bind_Some] [? (? & ? & _)%bind_Some]. eauto.
Qed.

Lemma scaleDown_deterministic cur des count key :
  (forall c1 c2, is_Some (des !! c1) -> is_Some (des !! c2) ->
     named_hash c1 key = named_hash c2 key -> c1 = c2) ->
  @scaleDown R1 cur des count key = @scaleDown R2 cur des count key.
Proof using Type.
  intros Hinj. unfold scaleDown. rewrite getNamedPreferences_deterministic; [done|].
  unfold scaleDownPreferences. intros c1 c2. rewrite !map_lookup_imap.
  intros [? (? & ? & _)%bind_Some] [? (? & ? & _)%bind_Some]. eauto.
Qed.

(** The plan does not depend on the iteration order of Go maps nor on
    the sorting of equal elements, as long as the FNV hashes of the available
    clusters do not collide. *)
Theorem Plan_deterministic rsp total available cur est lim key avoid keep :
  plan_input (availablePreferences rsp available) total cur est lim ->
  (forall c1 c2, c1 ∈ available -> c2 ∈ available ->
     named_hash c1 key = named_hash c2 key -> c1 = c2) ->
  @Plan R1 rsp total available cur est lim key avoid keep =
  @Plan R2 rsp total available cur est lim key avoid keep.
Proof using Type.
  intros Hin Hinj. set (prefs := availablePreferences rsp available) in *.
  assert (Hav : forall c, is_Some (prefs !! c) -> c ∈ available).
  { intros c. unfold prefs. rewrite availablePreferences_lookup. case_decide; [done|]. by intros []. }
  assert (Hn : @getNamedPreferences R1 prefs key = @getNamedPreferences R2 prefs key)
    by (apply getNamedPreferences_deterministic; eauto).
  unfold Plan. fold prefs. rewrite Hn.
  destruct (@getDesiredPlan_caps R2 _ _ _ _ _ key (if negb avoid then true else keep) Hin)
    as (des & ovf & -> & _ & Hdom & _ & _). simpl.
  destruct avoid; simpl; [|done]. destruct (currentPlanOf _ _ _ _) as [cp t].
  case_match; [done|].
  assert (Hinj' : forall c1 c2, is_Some (des !! c1) -> is_Some (des !! c2) ->
     named_hash c1 key = named_hash c2 key -> c1 = c2)
    by (intros c1 c2; rewrite !Hdom; eauto).
  by rewrite scaleUp_deterministic, scaleDown_deterministic.
Qed.
End Determinism.

(** ** Concrete inputs *)

(** The conditions on one preference, as a computable predicate. *)
Definition pref_ok (p : ClusterPreferences) : Prop :=
  0 <= MinReplicas p /\ 0 <= Weight p /\
  match MaxReplicas p with Some m => MinReplicas p <= m /\ m < 2 ^ 63 | None => True end.
#[export] Instance pref_ok_dec p : Decision (pref_ok p).
Proof. unfold pref_ok. destruct (MaxReplicas p); apply _. Defined.

Lemma pref_ok_eval (prefs : gmap string ClusterPreferences) :
  bool_decide (map_Forall (fun _ p => pref_ok p) prefs) = true ->
  (forall c p, prefs !! c = Some p -> 0 <= MinReplicas p /\ 0 <= Weight p /\
    forall m, MaxReplicas p = Some m -> 0 <= m < 2 ^ 63) /\
  (forall c p m, prefs !! c = Some p -> MaxReplicas p = Some m -> MinReplicas p <= m).
Proof.
  intros H. pose proof (map_Forall_eval (fun _ p => pref_ok p) prefs H) as Hp.
  split; intros c p; [intros Hc|intros m Hc Hm]; destruct (Hp c p Hc) as (? & ? & Hx).
  - split_and!; [done..|]. intros m Hm. rewrite Hm in Hx. lia.
  - rewrite Hm in Hx. lia.
Qed.

Definition example_prefs : list namedClusterPreferences :=
  [ {| clusterName := "a"; hash := 1;
       pref := {| MinReplicas := 1; MaxReplicas := Some 4; Weight := 2 |} |};
    {| clusterName := "b"; hash := 2;
       pref := {| MinReplicas := 0; MaxReplicas := None; Weight := 1 |} |} ].

(** Ten replicas; cluster b has room for three. *)
Lemma example_input : planner_input {["b"%string := 3]} ∅ example_prefs 10.
Proof.
  split.
  - apply (bool_decide_eq_true _). vm_compute. reflexivity.
  - intros p Hp. unfold example_prefs in Hp. each_member; split_and!; simpl; try lia;
      intros m [= <-]; lia.
  - apply all_nonneg_eval. vm_compute. reflexivity.
  - apply all_nonneg_empty.
  - lia.
  - vm_compute. reflexivity.
Qed.

Lemma example_consistent : consistent example_prefs.
Proof. intros p Hp m Hm. unfold example_prefs in Hp. each_member; simplify_eq/=; lia. Qed.

Lemma getDesiredPlan_correct_witness :
  exists pl ovf,
    getDesiredPlan {["b"%string := 3]} ∅ example_prefs 10 false = Some (pl, ovf) /\
    0 <= msum pl <= 10.
Proof.
  destruct (getDesiredPlan_correct _ _ _ _ false example_input) as (pl & ovf & H1 & H2 & _).
  exists pl, ovf. exact (conj H1 H2).
Defined.

(** Cluster a is full with 4 replicas, cluster b with 3: 3 are placed nowhere. *)
Lemma getDesiredPlan_saturates_witness :
  saturated {["b"%string := 3]} ∅
    {| clusterName := "b"; hash := 2;
       pref := {| MinReplicas := 0; MaxReplicas := None; Weight := 1 |} |} 3.
Proof.
  destruct (getDesiredPlan_saturates {["b"%string := 3]} ∅ example_prefs 10 false
    {["a"%string := 4; "b"%string := 3]} {["b"%string := 3]}
    example_input example_consistent) with
    (p := {| clusterName := "b"%string; hash := 2;
       pref := {| MinReplicas := 0; MaxReplicas := None; Weight := 1 |} |}) as [H|H].
  - vm_compute. reflexivity.
  - vm_compute. reflexivity.
  - right. left.
  - discriminate H.
  - exact H.
Defined.

Lemma getDesiredPlan_overflow_witness :
  0 < 3 /\ 3 <= 10 - msum {["a"%string := 4; "b"%string := 3]}.
Proof.
  destruct (getDesiredPlan_overflow {["b"%string := 3]} ∅ example_prefs 10 false
    {["a"%string := 4; "b"%string := 3]} {["b"%string := 3]}
    example_input example_consistent) with (k := "b"%string) (d := 3) as (_ & H1 & H2).
  - vm_compute. reflexivity.
  - reflexivity.
  - exact (conj H1 (H2 eq_refl)).
Defined.

(** Twelve replicas for three clusters, of which c has no room and a already
    runs eight. *)
Definition example_rsp : ReplicaSchedulingPreference := {|
  Clusters := {[ "a"%string := {| MinReplicas := 1; MaxReplicas := Some 9; Weight := 1 |};
                 "*"%string := {| MinReplicas := 0; MaxReplicas := None; Weight := 2 |} ]} |}.
Definition example_available : list string := ["a"; "b"; "c"]%string.
Definition example_current : gmap string Z := {[ "a"%string := 8; "d"%string := 2 ]}.
Definition example_estimated : gmap string Z := {[ "c"%string := 0 ]}.

Lemma example_plan_input :
  plan_input (availablePreferences example_rsp example_available) 12
    example_current example_estimated ∅.
Proof.
  split.
  - apply pref_ok_eval. vm_compute. reflexivity.
  - vm_compute. discriminate.
  - lia.
  - split; [apply all_nonneg_eval|]; vm_compute; reflexivity.
  - apply all_nonneg_eval. vm_compute. reflexivity.
  - apply all_nonneg_empty.
Qed.



Lemma Plan_deterministic_witness :
  @Plan small_runtime example_rsp 12 example_available example_current example_estimated ∅
    "rs" true false =
  @Plan reversed_runtime example_rsp 12 example_available example_current example_estimated ∅
    "rs" true false.
Proof.
  apply (Plan_deterministic small_runtime reversed_runtime); [exact example_plan_input|].
  intros c1 c2 H1 H2 Hh. unfold example_available in *.
  each_member; try reflexivity; vm_compute in Hh; discriminate Hh.
Defined.
