(* ===== verification/K8s.v ===== *)
(** * The Kubernetes libraries the scheduler calls

    [k8s.io/api], [k8s.io/apimachinery] and the katalyst constants are not part
    of the repository: what the scheduler uses of them is the class
    [Kubernetes], whose laws state the documented behaviour of the packages.
    [small_kubernetes] is a concrete instance, for evaluation. *)

From Stdlib Require Import ZArith Lia String.
From S2P Require Import Prelude.

(** ** Data of k8s.io/api/core/v1 and metav1 *)

(** [corev1.Taint]; [TimeAdded] is never read by the scheduler. *)
Record Taint := { t_Key : string; t_Value : string; t_Effect : string }.

(** [corev1.Toleration]; [TolerationSeconds] is never read by the scheduler. *)
Record Toleration := {
  tol_Key : string; tol_Operator : string; tol_Value : string; tol_Effect : string
}.

#[export] Instance Taint_eq_dec : EqDecision Taint.
Proof. solve_decision. Defined.
#[export] Instance Toleration_eq_dec : EqDecision Toleration.
Proof. solve_decision. Defined.

Definition TaintEffectNoSchedule : string := "NoSchedule".
Definition TaintEffectPreferNoSchedule : string := "PreferNoSchedule".
Definition TaintEffectNoExecute : string := "NoExecute".

Definition ResourceCPU : string := "cpu".
Definition ResourceMemory : string := "memory".
Definition ResourceEphemeralStorage : string := "ephemeral-storage".

Definition DefaultResourceRequestsPrefix : string := "requests.".
Definition ResourceDefaultNamespacePrefix : string := "kubernetes.io/".
Definition ResourceAttachableVolumesPrefix : string := "attachable-volumes-".
Definition ResourceHugePagesPrefix : string := "hugepages-".

(** [schema.GroupVersion] and [schema.GroupVersionKind]. *)
Record GroupVersion := { gv_Group : string; gv_Version : string }.
Record GroupVersionKind := { gvk_Group : string; gvk_Version : string; gvk_Kind : string }.
#[export] Instance GroupVersionKind_eq_dec : EqDecision GroupVersionKind.
Proof. solve_decision. Defined.

Definition WithKind (gv : GroupVersion) (kind : string) : GroupVersionKind :=
  {| gvk_Group := gv_Group gv; gvk_Version := gv_Version gv; gvk_Kind := kind |}.

(** Instants, in nanoseconds; [metav1.Time] wraps [time.Time], whose zero value
    is [zero_time]. *)
Definition Time : Set := Z.
Definition zero_time : Time := 0.
Definition Time_IsZero (t : option Time) : bool :=
  match t with None => true | Some t => t =? zero_time end.

(** [selection.Operator]. *)
Inductive selection_op :=
  | selection_In | selection_NotIn | selection_Exists | selection_DoesNotExist
  | selection_GreaterThan | selection_LessThan.

(** The format of a quantity matters for printing only. *)
Inductive QuantityFormat := DecimalSI | BinarySI.

Class Kubernetes := {
  (** [resource.Quantity]. *)
  Quantity : Type;
  MilliValue : Quantity -> Z;
  Value : Quantity -> Z;
  NewQuantity : Z -> QuantityFormat -> Quantity;
  NewMilliQuantity : Z -> QuantityFormat -> Quantity;
  Quantity_Add : Quantity -> Quantity -> Quantity;
  (** -1, 0 or 1. *)
  Quantity_Cmp : Quantity -> Quantity -> Z;
  (** [resource.MustParse("0")]. *)
  zero_quantity : Quantity;
  Value_NewQuantity : forall v f, int64 v -> Value (NewQuantity v f) = v;
  MilliValue_NewMilliQuantity : forall v f, int64 v -> MilliValue (NewMilliQuantity v f) = v;
  Value_int64 : forall q, int64 (Value q);
  MilliValue_int64 : forall q, int64 (MilliValue q);

  (** [len(validation.IsQualifiedName(s)) == 0]. *)
  IsQualifiedName : string -> bool;

  (** [labels.Requirement] and [labels.NewRequirement]. *)
  Requirement : Type;
  NewRequirement : string -> selection_op -> list string -> Requirement + string;
  Requirement_Matches : Requirement -> gmap string string -> bool;

  (** Documented for [Exists]: the key is a label. *)
  NewRequirement_Exists : forall k r, NewRequirement k selection_Exists [] = inl r ->
    forall l, Requirement_Matches r l = true <-> is_Some (l !! k);

  (** [labels.Selector]: [labels.Nothing()], [labels.NewSelector()] (which
      matches everything), its [Add], and [labels.SelectorFromSet]. *)
  Selector : Type;
  Selector_Nothing : Selector;
  NewSelector : Selector;
  Selector_Add : Selector -> Requirement -> Selector;
  SelectorFromSet : gmap string string -> Selector;
  Selector_Matches : Selector -> gmap string string -> bool;
  Matches_Nothing : forall l, Selector_Matches Selector_Nothing l = false;
  Matches_NewSelector : forall l, Selector_Matches NewSelector l = true;
  Matches_Add : forall s r l,
    Selector_Matches (Selector_Add s r) l = Selector_Matches s l && Requirement_Matches r l;
  Matches_FromSet : forall set l, Selector_Matches (SelectorFromSet set) l = true <->
    forall k v, set !! k = Some v -> l !! k = Some v;

  (** [fields.Selector]; [fields.Set.Get] of an absent key is the empty string. *)
  FieldSelector : Type;
  Fields_Nothing : FieldSelector;
  OneTermEqualSelector : string -> string -> FieldSelector;
  OneTermNotEqualSelector : string -> string -> FieldSelector;
  AndSelectors : list FieldSelector -> FieldSelector;
  Fields_Matches : FieldSelector -> gmap string string -> bool;
  Fields_Matches_Nothing : forall fs, Fields_Matches Fields_Nothing fs = false;
  Fields_Matches_Equal : forall k v fs, Fields_Matches (OneTermEqualSelector k v) fs =
    String.eqb (default ""%string (fs !! k)) v;
  Fields_Matches_NotEqual : forall k v fs, Fields_Matches (OneTermNotEqualSelector k v) fs =
    negb (String.eqb (default ""%string (fs !! k)) v);
  Fields_Matches_And : forall ss fs, Fields_Matches (AndSelectors ss) fs =
    forallb (fun s => Fields_Matches s fs) ss;

  (** [Toleration.ToleratesTaint]: a non-empty effect has to be the taint's. *)
  ToleratesTaint : Toleration -> Taint -> bool;
  ToleratesTaint_Effect : forall tol t, ToleratesTaint tol t = true ->
    tol_Effect tol = ""%string \/ tol_Effect tol = t_Effect t;

  (** [schema.GroupVersion.String]. *)
  GroupVersion_String : GroupVersion -> string;

  (** [katalyst-api/pkg/consts]. *)
  ReclaimedResourceMilliCPU : string;
  ReclaimedResourceMemory : string;
  ResourceNetBandwidth : string
}.

(** [corev1.ResourceList]. *)
Abbreviation ResourceList := (gmap string Quantity).

(** ** A concrete instance

    Quantities are integers counted in milli-units, saturated to int64. *)

Definition sat64 (x : Z) : Z := Z.max (- 2 ^ 63) (Z.min (2 ^ 63 - 1) x).

Lemma sat64_range x : int64 (sat64 x).
Proof. unfold int64, sat64. lia. Qed.
Lemma sat64_small x : int64 x -> sat64 x = x.
Proof. unfold int64, sat64. lia. Qed.

Definition small_NewRequirement (key : string) (op : selection_op) (values : list string)
  : (string * selection_op * list string) + string :=
  match op, values with
  | selection_In, [] | selection_NotIn, [] => inr "values must be non-empty"%string
  | _, _ => inl (key, op, values)
  end.

Definition small_Requirement_Matches (r : string * selection_op * list string)
    (l : gmap string string) : bool :=
  let '(key, op, values) := r in
  match op, l !! key with
  | selection_In, Some v => existsb (String.eqb v) values
  | selection_NotIn, Some v => negb (existsb (String.eqb v) values)
  | selection_NotIn, None | selection_DoesNotExist, None | selection_Exists, Some _ => true
  | _, _ => false
  end.

Lemma small_NewRequirement_Exists k r : small_NewRequirement k selection_Exists [] = inl r ->
  forall l, small_Requirement_Matches r l = true <-> is_Some (l !! k).
Proof.
  intros [= <-] l. simpl. destruct (l !! k) as [v|]; (split; [done|]); [done|]. by intros [? ?].
Qed.

(** Selectors are [None] (nothing) or a conjunction of requirements. *)
Definition small_Selector : Type := option (list (string * selection_op * list string)).

Definition small_Matches (s : small_Selector) (l : gmap string string) : bool :=
  match s with
  | None => false
  | Some rs => forallb (fun r => small_Requirement_Matches r l) rs
  end.

Definition small_Add (s : small_Selector) r : small_Selector := (fun rs => rs ++ [r]) <$> s.

Definition small_FromSet (set : gmap string string) : small_Selector :=
  Some ((fun '(k, v) => (k, selection_In, [v])) <$> map_to_list set).

Lemma small_Matches_Add s r l :
  small_Matches (small_Add s r) l = small_Matches s l && small_Requirement_Matches r l.
Proof. destruct s; [|done]. simpl. rewrite forallb_app. simpl. by rewrite andb_true_r. Qed.

Lemma small_Matches_FromSet set l : small_Matches (small_FromSet set) l = true <->
  forall k v, set !! k = Some v -> l !! k = Some v.
Proof.
  unfold small_FromSet. simpl. rewrite forallb_forall. split.
  - intros H k v Hk. specialize (H (k, selection_In, [v])). simpl in H.
    destruct (l !! k) as [v'|]; [|discriminate H; apply list_elem_of_In, list_elem_of_fmap].
    + rewrite orb_false_r, String.eqb_eq in H. rewrite H; [done|].
      apply list_elem_of_In, list_elem_of_fmap. exists (k, v). by rewrite elem_of_map_to_list.
    + exists (k, v). by rewrite elem_of_map_to_list.
  - intros H r Hr. apply list_elem_of_In, list_elem_of_fmap in Hr as ([k v] & -> & Hr).
    apply elem_of_map_to_list in Hr. simpl. rewrite (H k v Hr), String.eqb_refl. done.
Qed.

Inductive small_FieldSelector :=
  | Field_Nothing
  | Field_Equal (key value : string)
  | Field_NotEqual (key value : string)
  | Field_And (ss : list small_FieldSelector).

Fixpoint small_Fields_Matches (s : small_FieldSelector) (fields : gmap string string) : bool :=
  match s with
  | Field_Nothing => false
  | Field_Equal k v => String.eqb (default ""%string (fields !! k)) v
  | Field_NotEqual k v => negb (String.eqb (default ""%string (fields !! k)) v)
  | Field_And ss => forallb (fun s => small_Fields_Matches s fields) ss
  end.

Definition small_ToleratesTaint (tol : Toleration) (t : Taint) : bool :=
  (String.eqb (tol_Effect tol) "" || String.eqb (tol_Effect tol) (t_Effect t)) &&
  (String.eqb (tol_Key tol) "" || String.eqb (tol_Key tol) (t_Key t)) &&
  (String.eqb (tol_Operator tol) "Exists" || String.eqb (tol_Value tol) (t_Value t)).

Lemma small_ToleratesTaint_Effect tol t : small_ToleratesTaint tol t = true ->
  tol_Effect tol = ""%string \/ tol_Effect tol = t_Effect t.
Proof.
  unfold small_ToleratesTaint. rewrite !andb_true_iff, !orb_true_iff, !String.eqb_eq. tauto.
Qed.

Lemma small_Value_New v : int64 v -> sat64 (- ((- (v * 1000)) / 1000)) = v.
Proof.
  intros Hv. rewrite <- Z.mul_opp_l, Z.div_mul by lia. rewrite Z.opp_involutive.
  by apply sat64_small.
Qed.

Definition small_kubernetes : Kubernetes := {|
  Quantity := Z;
  MilliValue := sat64;
  Value := fun q => sat64 (- ((- q) / 1000));
  NewQuantity := fun v _ => v * 1000;
  NewMilliQuantity := fun v _ => v;
  Quantity_Add := Z.add;
  Quantity_Cmp := fun p q => Z.sgn (p - q);
  zero_quantity := 0;
  Value_NewQuantity := fun v _ Hv => small_Value_New v Hv;
  MilliValue_NewMilliQuantity := fun v _ Hv => sat64_small v Hv;
  Value_int64 := fun q => sat64_range _;
  MilliValue_int64 := sat64_range;
  IsQualifiedName := fun s => negb (String.eqb s "");
  Requirement := string * selection_op * list string;
  NewRequirement := small_NewRequirement;
  Requirement_Matches := small_Requirement_Matches;
  NewRequirement_Exists := small_NewRequirement_Exists;
  Selector := small_Selector;
  Selector_Nothing := None;
  NewSelector := Some [];
  Selector_Add := small_Add;
  SelectorFromSet := small_FromSet;
  Selector_Matches := small_Matches;
  Matches_Nothing := fun _ => eq_refl;
  Matches_NewSelector := fun _ => eq_refl;
  Matches_Add := small_Matches_Add;
  Matches_FromSet := small_Matches_FromSet;
  FieldSelector := small_FieldSelector;
  Fields_Nothing := Field_Nothing;
  OneTermEqualSelector := Field_Equal;
  OneTermNotEqualSelector := Field_NotEqual;
  AndSelectors := Field_And;
  Fields_Matches := small_Fields_Matches;
  Fields_Matches_Nothing := fun _ => eq_refl;
  Fields_Matches_Equal := fun _ _ _ => eq_refl;
  Fields_Matches_NotEqual := fun _ _ _ => eq_refl;
  Fields_Matches_And := fun _ _ => eq_refl;
  ToleratesTaint := small_ToleratesTaint;
  ToleratesTaint_Effect := small_ToleratesTaint_Effect;
  GroupVersion_String := fun gv => (gv_Group gv ++ "/" ++ gv_Version gv)%string;
  ReclaimedResourceMilliCPU := "resource.katalyst.kubewharf.io/reclaimed_millicpu";
  ReclaimedResourceMemory := "resource.katalyst.kubewharf.io/reclaimed_memory";
  ResourceNetBandwidth := "resource.katalyst.kubewharf.io/net_bandwidth"
|}.
