(* ===== verification/Types.v ===== *)
(** * Data of the scheduling framework

    [framework/types.go], the cluster objects of
    [pkg/apis/core/v1alpha1/types_federatedcluster.go] and the selector types of
    [types_propagationpolicy.go].  A Go pointer is an [option], a map that the
    code tests against nil is an [option] of a map. *)

From Stdlib Require Import ZArith Lia String.
From stdpp Require Import pretty.
From S2P Require Import Prelude K8s.

(** ** Clusters *)

(** [ClusterCondition], without the probe times and messages that the
    scheduler never reads. *)
Record ClusterCondition := { cc_Type : string; cc_Status : string }.

Definition ClusterJoined : string := "Joined".
Definition ClusterReadyCondition : string := "Ready".
Definition ClusterOffline : string := "Offline".

Record APIResource := {
  ar_Group : string;
  ar_Version : string;
  ar_Kind : string;
  ar_PluralName : string;
  ar_Scope : string
}.
#[export] Instance APIResource_eq_dec : EqDecision APIResource.
Proof. solve_decision. Defined.

Record Resources `{Kubernetes} := {
  SchedulableNodes : option Z;
  Allocatable : ResourceList;
  Available : ResourceList
}.

Record FederatedClusterStatus `{Kubernetes} := {
  Conditions : list ClusterCondition;
  st_Resources : Resources;
  APIResourceTypes : list APIResource;
  JoinPerformed : bool
}.

(** [FederatedCluster]: the object metadata and the parts of [Spec] and
    [Status] that the scheduler reads. *)
Record FederatedCluster `{Kubernetes} := {
  c_Name : string;
  c_Labels : gmap string string;
  c_Annotations : gmap string string;
  c_Finalizers : list string;
  c_DeletionTimestamp : option Time;
  Taints : list Taint;
  Status : FederatedClusterStatus
}.

(** [pkg/util/cluster/util.go]. *)
Definition condition_true (type : string) (c : ClusterCondition) : bool :=
  String.eqb (cc_Type c) type && String.eqb (cc_Status c) "True".

Definition IsClusterReady `{Kubernetes} (s : FederatedClusterStatus) : bool :=
  existsb (condition_true ClusterReadyCondition) (Conditions s).
Definition IsClusterJoined `{Kubernetes} (s : FederatedClusterStatus) : bool :=
  existsb (condition_true ClusterJoined) (Conditions s).
Definition IsClusterOffline `{Kubernetes} (s : FederatedClusterStatus) : bool :=
  existsb (condition_true ClusterOffline) (Conditions s).

(** ** Selectors *)

Record ClusterSelectorRequirement := {
  csr_Key : string; csr_Operator : string; csr_Values : list string
}.
Record ClusterSelectorTerm := {
  MatchExpressions : list ClusterSelectorRequirement;
  MatchFields : list ClusterSelectorRequirement
}.
Definition ClusterSelectorOpIn : string := "In".
Definition ClusterSelectorOpNotIn : string := "NotIn".
Definition ClusterSelectorOpExists : string := "Exists".
Definition ClusterSelectorOpDoesNotExist : string := "DoesNotExist".
Definition ClusterSelectorOpGt : string := "Gt".
Definition ClusterSelectorOpLt : string := "Lt".

Record PreferredSchedulingTerm := { pst_Weight : Z; Preference : ClusterSelectorTerm }.
Record ClusterSelector := { ClusterSelectorTerms : list ClusterSelectorTerm }.
Record ClusterAffinity := {
  RequiredDuringSchedulingIgnoredDuringExecution : option ClusterSelector;
  PreferredDuringSchedulingIgnoredDuringExecution : list PreferredSchedulingTerm
}.
Record Affinity := { aff_ClusterAffinity : option ClusterAffinity }.

(** ** Scheduling units *)

(** [framework.Resource] (util.go). *)
Record Resource := {
  MilliCPU : Z;
  Memory : Z;
  EphemeralStorage : Z;
  ScalarResources : option (gmap string Z)
}.

#[export] Instance Resource_eq_dec : EqDecision Resource.
Proof. solve_decision. Defined.

Record AutoMigrationInfo := {
  EstimatedCapacity : gmap string Z;
  ScheduledReplicas : gmap string Z
}.
#[export] Instance AutoMigrationInfo_eq_dec : EqDecision AutoMigrationInfo.
Proof. solve_decision. Defined.
Record AutoMigrationSpec := {
  am_Info : option AutoMigrationInfo;
  KeepUnschedulableReplicas : bool
}.
Record UnavailableCluster := { uc_Cluster : string; uc_ValidUntil : Time }.
Record CustomMigrationInfo := {
  LimitedCapacity : option (gmap string Z);
  UnavailableClusters : list UnavailableCluster
}.
Record CustomMigrationSpec := { cm_Info : option CustomMigrationInfo }.

Record ReplicasMigration := { rm_Cluster : string; rm_LimitedCapacity : option Z }.
Record WorkloadMigration := { wm_Cluster : string; wm_ValidUntil : option Time }.
Record MigrationConfig := {
  ReplicasMigrations : list ReplicasMigration;
  WorkloadMigrations : list WorkloadMigration
}.

Definition SchedulingModeDuplicate : string := "Duplicate".
Definition SchedulingModeDivide : string := "Divide".
Definition ReplicasStrategySpread : string := "Spread".
Definition ReplicasStrategyBinpack : string := "Binpack".

(** The data of one scheduling decision. *)
Record SchedulingUnit := {
  su_GroupVersion : GroupVersion;
  su_Kind : string;
  su_Resource : string;
  su_Namespace : string;
  su_Name : string;
  su_Labels : gmap string string;
  su_Annotations : gmap string string;
  DesiredReplicas : option Z;
  ResourceRequest : Resource;
  CurrentClusters : gmap string (option Z);
  AutoMigration : option AutoMigrationSpec;
  CustomMigration : CustomMigrationSpec;
  SchedulingMode : string;
  ReplicasStrategy : string;
  StickyCluster : bool;
  AvoidDisruption : bool;
  su_ClusterSelector : gmap string string;
  ClusterNames : gset string;
  su_Affinity : option Affinity;
  Tolerations : list Toleration;
  MaxClusters : option Z;
  su_MinReplicas : gmap string Z;
  su_MaxReplicas : gmap string Z;
  Weights : gmap string Z;
  Priorities : gmap string Z;
  EnableKatalystSupport : bool
}.

(** [SchedulingUnit.Key]. *)
Definition Key (su : SchedulingUnit) : string :=
  if String.eqb (su_Namespace su) "" then su_Name su
  else su_Namespace su ++ "/" ++ su_Name su.

(** ** Results of plugins *)

Inductive Code := Success | Unschedulable | Error.
#[export] Instance Code_eq_dec : EqDecision Code.
Proof. solve_decision. Defined.

(** [Code.String]. *)
Definition Code_String (c : Code) : string :=
  match c with
  | Success => "Success" | Unschedulable => "Unschedulable" | Error => "Error"
  end.

(** An [error] is its message. *)
Record Result := {
  code : Code;
  reasons : list string;
  err : option string;
  failedPlugin : string
}.

Definition NewResult (c : Code) (rs : list string) : Result := {|
  code := c;
  reasons := rs;
  err := if decide (c = Error) then Some (String.concat "," rs) else None;
  failedPlugin := ""
|}.

(** The nil [*Result] is a success. *)
Definition Result_Code (s : option Result) : Code :=
  match s with None => Success | Some s => code s end.

Definition IsSuccess (s : option Result) : bool :=
  match s with None => true | Some s => bool_decide (code s = Success) end.

Definition SetFailedPlugin (s : Result) (plugin : string) : Result :=
  {| code := code s; reasons := reasons s; err := err s; failedPlugin := plugin |}.

(** [WithFailedPlugin] sets the plugin in place and returns the result. *)
Definition WithFailedPlugin (s : Result) (plugin : string) : Result := SetFailedPlugin s plugin.

Definition Message (s : option Result) : string :=
  match s with None => "" | Some s => String.concat ", " (reasons s) end.

(** [AsError]: the error of a result that is not a success. *)
Definition AsError (s : option Result) : option string :=
  match s with
  | None => None
  | Some r =>
      if bool_decide (code r = Success) then None
      else match err r with
           | Some e => Some e
           | None => Some (String.concat ", " (reasons r))
           end
  end.

Definition Reasons (s : Result) : list string :=
  match err s with Some e => e :: reasons s | None => reasons s end.

(** ** Scores and replicas *)

Record ClusterScore `{Kubernetes} := { cs_Cluster : FederatedCluster; Score : Z }.
Record ClusterReplicas `{Kubernetes} := { cr_Cluster : FederatedCluster; Replicas : Z }.

(** ** Diagnosis of a failure *)

Record Diagnosis := {
  ClusterToResultMap : gmap string Result;
  UnschedulablePlugins : gset string
}.
Record FitError := { NumAllClusters : Z; fe_Diagnosis : Diagnosis }.

Section FitError.
Context `{GoRuntime}.

(** The histogram [reasons] of [FitError.Error]. *)
Definition reasonsHistogram (results : gmap string Result) : gmap string Z :=
  foldl (fun m '(_, result) =>
    foldl (fun m reason => <[reason := mget m reason +! 1]> m) m (Reasons result))
    ∅ (range_map results).

Definition sortReasonsHistogram (hist : gmap string Z) : list string :=
  sort_slice String.ltb ((fun '(k, v) => pretty (v : Z) ++ " " ++ k)%string <$> range_map hist).

Definition FitError_Error (f : FitError) : string :=
  let reasonMsg := ("0/" ++ pretty (NumAllClusters f) ++ " clusters are available: ")%string in
  let sortedFilterMsg :=
    sortReasonsHistogram (reasonsHistogram (ClusterToResultMap (fe_Diagnosis f))) in
  match sortedFilterMsg with
  | [] => reasonMsg
  | _ => reasonMsg ++ String.concat ", " sortedFilterMsg
  end.
End FitError.
