(* ===== verification/ApiTypes.v ===== *)
(** * API objects the scheduler reads and writes

    [pkg/apis/core/v1alpha1]: federated objects, type configs and propagation
    policies; [pkg/controllers/common]: qualified names and the annotation and
    label keys; [pkg/util/worker]: results of a reconciliation.  A slice or map
    that is nil and one that is empty are the same value here: the scheduler
    does not tell them apart. *)

From Stdlib Require Import ZArith Lia String.
From S2P Require Import Prelude K8s Types.

(** ** Names and keys *)

Record QualifiedName := { qn_Namespace : string; qn_Name : string }.
#[export] Instance QualifiedName_eq_dec : EqDecision QualifiedName.
Proof. solve_decision. Defined.
#[export] Instance QualifiedName_countable : Countable QualifiedName.
Proof.
  apply (inj_countable' (fun n => (qn_Namespace n, qn_Name n)) (fun x => {| qn_Namespace := x.1; qn_Name := x.2 |})).
  by intros [].
Defined.

Definition QualifiedName_String (n : QualifiedName) : string :=
  if String.eqb (qn_Namespace n) "" then qn_Name n else (qn_Namespace n ++ "/" ++ qn_Name n)%string.

Definition DefaultPrefix : string := "kubeadmiral.io/".
Definition InternalPrefix : string := ("internal." ++ DefaultPrefix)%string.

Definition AnnotationValueTrue : string := "true".
Definition AnnotationValueFalse : string := "false".
Definition NoSchedulingAnnotation : string := (DefaultPrefix ++ "no-scheduling")%string.
Definition EnableFollowerSchedulingAnnotation : string := (InternalPrefix ++ "enable-follower-scheduling")%string.
Definition PodUnschedulableThresholdAnnotation : string := (InternalPrefix ++ "pod-unschedulable-threshold")%string.
Definition AutoMigrationInfoAnnotation : string := (DefaultPrefix ++ "auto-migration-info")%string.
Definition MigrationConfigurationAnnotation : string := (DefaultPrefix ++ "migration-configuration")%string.
Definition AppliedMigrationConfigurationAnnotation : string :=
  (DefaultPrefix ++ "applied-migration-configuration")%string.
Definition DryRunAnnotation : string := (DefaultPrefix ++ "dry-run")%string.
Definition PendingControllersAnnotation : string := (DefaultPrefix ++ "pending-controllers")%string.

(** The scheduler's own keys ([constants.go], [scheduler.go]). *)
Definition PrefixedGlobalSchedulerName : string := (DefaultPrefix ++ "global-scheduler")%string.
Definition FollowsObjectAnnotation : string := (DefaultPrefix ++ "follows-object")%string.
Definition SchedulingModeAnnotation : string := (DefaultPrefix ++ "scheduling-mode")%string.
Definition StickyClusterAnnotation : string := (DefaultPrefix ++ "sticky-cluster")%string.
Definition StickyClusterAnnotationTrue : string := "true".
Definition StickyClusterAnnotationFalse : string := "false".
Definition TolerationsAnnotations : string := (DefaultPrefix ++ "tolerations")%string.
Definition PlacementsAnnotations : string := (DefaultPrefix ++ "placements")%string.
Definition ClusterSelectorAnnotations : string := (DefaultPrefix ++ "clusterSelector")%string.
Definition AffinityAnnotations : string := (DefaultPrefix ++ "affinity")%string.
Definition MaxClustersAnnotations : string := (DefaultPrefix ++ "maxClusters")%string.
Definition DefaultSchedulingMode : string := SchedulingModeDuplicate.
Definition SchedulingTriggersAnnotation : string := (DefaultPrefix ++ "scheduling-triggers")%string.
Definition SchedulingDeferredReasonsAnnotation : string := (DefaultPrefix ++ "scheduling-deferred-reasons")%string.
Definition SchedulingAnnotation : string := (DefaultPrefix ++ "scheduling")%string.
Definition PropagationPolicyNameLabel : string := (DefaultPrefix ++ "propagation-policy-name")%string.
Definition ClusterPropagationPolicyNameLabel : string :=
  (DefaultPrefix ++ "cluster-propagation-policy-name")%string.

(** ** Federated objects *)

Record ClusterReference := { cref_Cluster : string }.
#[export] Instance ClusterReference_eq_dec : EqDecision ClusterReference.
Proof. solve_decision. Defined.

Record PlacementWithController := {
  pwc_Controller : string;
  Placement : list ClusterReference
}.
#[export] Instance PlacementWithController_eq_dec : EqDecision PlacementWithController.
Proof. solve_decision. Defined.

(** [Value] is the raw JSON. *)
Record OverridePatch := { Op : string; Path : string; op_Value : string }.
#[export] Instance OverridePatch_eq_dec : EqDecision OverridePatch.
Proof. solve_decision. Defined.

Record ClusterReferenceWithPatches := { crp_Cluster : string; Patches : list OverridePatch }.
#[export] Instance ClusterReferenceWithPatches_eq_dec : EqDecision ClusterReferenceWithPatches.
Proof. solve_decision. Defined.

Record OverrideWithController := {
  owc_Controller : string;
  Override : list ClusterReferenceWithPatches
}.
#[export] Instance OverrideWithController_eq_dec : EqDecision OverrideWithController.
Proof. solve_decision. Defined.

Record LeaderReference := { lr_Group : string; lr_Kind : string; lr_Namespace : string; lr_Name : string }.
#[export] Instance LeaderReference_eq_dec : EqDecision LeaderReference.
Proof. solve_decision. Defined.
#[export] Instance LeaderReference_countable : Countable LeaderReference.
Proof.
  apply (inj_countable' (fun r => (lr_Group r, lr_Kind r, lr_Namespace r, lr_Name r))
    (fun x => {| lr_Group := x.1.1.1; lr_Kind := x.1.1.2; lr_Namespace := x.1.2; lr_Name := x.2 |})).
  by intros [].
Defined.

(** [Template] is the raw JSON of the source object. *)
Record GenericFederatedObjectSpec := {
  Template : string;
  Overrides : list OverrideWithController;
  Placements : list PlacementWithController;
  Follows : list LeaderReference
}.

(** [PropagationStatusType], [FederatedObjectConditionReason]: strings. *)
Definition ClusterPropagationOK : string := "OK".
Definition WaitingForRemoval : string := "WaitingForRemoval".
Definition WaitingForCascadingDeletion : string := "WaitingForCascadingDeletion".
Definition PendingCreate : string := "PendingCreate".
Definition ClusterNotReady : string := "ClusterNotReady".
Definition ClusterTerminating : string := "ClusterTerminating".
Definition CachedRetrievalFailed : string := "CachedRetrievalFailed".
Definition ComputeResourceFailed : string := "ComputeResourceFailed".
Definition ApplyOverridesFailed : string := "ApplyOverridesFailed".
Definition CreationFailed : string := "CreationFailed".
Definition UpdateFailed : string := "UpdateFailed".
Definition DeletionFailed : string := "DeletionFailed".
Definition LabelRemovalFailed : string := "LabelRemovalFailed".
Definition RetrievalFailed : string := "RetrievalFailed".
Definition AlreadyExists : string := "AlreadyExists".
Definition FieldRetentionFailed : string := "FieldRetentionFailed".
Definition VersionRetrievalFailed : string := "VersionRetrievalFailed".
Definition ClientRetrievalFailed : string := "ClientRetrievalFailed".
Definition ManagedLabelFalse : string := "ManagedLabelFalse".
Definition FinalizerCheckFailed : string := "FinalizerCheckFailed".
Definition CreationTimedOut : string := "CreationTimedOut".
Definition UpdateTimedOut : string := "UpdateTimedOut".
Definition DeletionTimedOut : string := "DeletionTimedOut".
Definition LabelRemovalTimedOut : string := "LabelRemovalTimedOut".

Definition AggregateSuccess : string := "".
Definition ClusterRetrievalFailed : string := "ClusterRetrievalFailed".
Definition CheckClusters : string := "CheckClusters".
Definition PropagationConditionType : string := "Propagated".

Record PropagationStatus := {
  prs_Cluster : string;
  prs_Status : string;
  LastObservedGeneration : Z
}.

Record GenericFederatedObjectCondition := {
  gc_Type : string;
  gc_Status : string;
  gc_LastUpdateTime : Time;
  gc_LastTransitionTime : Time;
  gc_Reason : string
}.

Record GenericFederatedObjectStatus := {
  SyncedGeneration : Z;
  gs_Conditions : list GenericFederatedObjectCondition;
  gs_Clusters : list PropagationStatus
}.

(** The status of a new object. *)
Definition empty_status : GenericFederatedObjectStatus :=
  {| SyncedGeneration := 0; gs_Conditions := []; gs_Clusters := [] |}.

(** [metav1.OwnerReference]. *)
Record MetaOwnerReference := {
  mor_APIVersion : string;
  mor_Kind : string;
  mor_Name : string;
  mor_UID : string;
  mor_Controller : option bool;
  mor_BlockOwnerDeletion : option bool
}.
#[export] Instance MetaOwnerReference_eq_dec : EqDecision MetaOwnerReference.
Proof. solve_decision. Defined.

(** [FederatedObject] and [ClusterFederatedObject] through their common
    interface [GenericFederatedObject]; the latter has no namespace. *)
Record FederatedObject := {
  fo_Namespace : string;
  fo_Name : string;
  fo_Labels : gmap string string;
  fo_Annotations : gmap string string;
  fo_OwnerReferences : list MetaOwnerReference;
  fo_Generation : Z;
  fo_DeletionTimestamp : option Time;
  fo_Finalizers : list string;
  fo_Spec : GenericFederatedObjectSpec;
  fo_Status : GenericFederatedObjectStatus
}.

Definition SetAnnotations (o : FederatedObject) (annotations : gmap string string) : FederatedObject := {|
  fo_Namespace := fo_Namespace o; fo_Name := fo_Name o; fo_Labels := fo_Labels o;
  fo_Annotations := annotations; fo_OwnerReferences := fo_OwnerReferences o; fo_Generation := fo_Generation o;
  fo_DeletionTimestamp := fo_DeletionTimestamp o; fo_Finalizers := fo_Finalizers o;
  fo_Spec := fo_Spec o; fo_Status := fo_Status o
|}.

Definition setSpec (o : FederatedObject) (spec : GenericFederatedObjectSpec) : FederatedObject := {|
  fo_Namespace := fo_Namespace o; fo_Name := fo_Name o; fo_Labels := fo_Labels o;
  fo_Annotations := fo_Annotations o; fo_OwnerReferences := fo_OwnerReferences o; fo_Generation := fo_Generation o;
  fo_DeletionTimestamp := fo_DeletionTimestamp o; fo_Finalizers := fo_Finalizers o;
  fo_Spec := spec; fo_Status := fo_Status o
|}.

(** [SchemeGroupVersion] of package v1alpha1. *)
Definition CoreSchemeGroupVersion : GroupVersion := {| gv_Group := "core.kubeadmiral.io"; gv_Version := "v1alpha1" |}.

(** ** Type configs *)

Record StatusCollectionConfig := { scc_Enabled : bool; scc_Fields : list string }.

Record FederatedTypeConfig := {
  ftc_Name : string;
  ftc_Annotations : gmap string string;
  SourceType : APIResource;
  ReplicasSpec : string;
  ReplicasStatus : string;
  ReadyReplicasStatus : string;
  AutoMigrationEnabled : bool;
  StatusAggregationEnabled : bool;
  StatusCollection : option StatusCollectionConfig;
  Controllers : list (list string)
}.

Definition GetSourceTypeGVK (f : FederatedTypeConfig) : GroupVersionKind := {|
  gvk_Group := ar_Group (SourceType f); gvk_Version := ar_Version (SourceType f);
  gvk_Kind := ar_Kind (SourceType f)
|}.
Definition GetControllers (f : FederatedTypeConfig) : list (list string) := Controllers f.

(** ** Propagation policies *)

Record Preferences := {
  pr_MinReplicas : Z;
  pr_MaxReplicas : option Z;
  pr_Weight : option Z;
  pr_Priority : option Z
}.
Record DesiredPlacement := { dp_Cluster : string; dp_Preferences : Preferences }.

(** Durations are in nanoseconds. *)
Record PolicyAutoMigration := {
  PodUnschedulableDuration : option Z;
  pam_KeepUnschedulableReplicas : bool
}.
Record ReplicaRescheduling := { rr_AvoidDisruption : bool }.
Record RescheduleTrigger := {
  PolicyContentChanged : bool;
  ClusterJoinedTrigger : bool;
  ClusterLabelsChanged : bool;
  ClusterAPIResourcesChanged : bool
}.
Record ReschedulePolicy := {
  DisableRescheduling : bool;
  Trigger : option RescheduleTrigger;
  rp_ReplicaRescheduling : option ReplicaRescheduling
}.

Record PropagationPolicySpec := {
  pps_SchedulingProfile : string;
  pps_SchedulingMode : string;
  pps_ReplicasStrategy : option string;
  pps_ClusterSelector : gmap string string;
  pps_ClusterAffinity : list ClusterSelectorTerm;
  pps_Tolerations : list Toleration;
  pps_MaxClusters : option Z;
  pps_Placements : list DesiredPlacement;
  DisableFollowerScheduling : bool;
  pps_AutoMigration : option PolicyAutoMigration;
  pps_ReschedulePolicy : option ReschedulePolicy
}.

(** [PropagationPolicy] and [ClusterPropagationPolicy] (without namespace). *)
Record PropagationPolicy := {
  pol_Namespace : string;
  pol_Name : string;
  pol_Spec : PropagationPolicySpec
}.

(** ** Results of a reconciliation ([pkg/util/worker/result.go]) *)

Record WorkerResult := { wr_Success : bool; RequeueAfter : option Z; Backoff : bool }.
Definition StatusAllOK : WorkerResult := {| wr_Success := true; RequeueAfter := None; Backoff := false |}.
Definition StatusError : WorkerResult := {| wr_Success := false; RequeueAfter := None; Backoff := true |}.
Definition StatusConflict : WorkerResult :=
  {| wr_Success := false; RequeueAfter := Some 500000000; Backoff := false |}.
Definition StatusErrorNoRetry : WorkerResult :=
  {| wr_Success := false; RequeueAfter := None; Backoff := false |}.

(** The errors of the API machinery that the code tells apart. *)
Inductive ApiError :=
  | NotFound | Conflict | ErrAlreadyExists | ErrServerTimeout | ErrInvalid | ErrForbidden | ErrNoMatch
  | OtherError (msg : string).

Definition IsNotFound (e : ApiError) : bool := match e with NotFound => true | _ => false end.
Definition IsConflict (e : ApiError) : bool := match e with Conflict => true | _ => false end.
Definition IsAlreadyExists (e : ApiError) : bool := match e with ErrAlreadyExists => true | _ => false end.
Definition IsServerTimeout (e : ApiError) : bool := match e with ErrServerTimeout => true | _ => false end.
Definition IsInvalid (e : ApiError) : bool := match e with ErrInvalid => true | _ => false end.
Definition IsForbidden (e : ApiError) : bool := match e with ErrForbidden => true | _ => false end.
Definition IsNoMatchError (e : ApiError) : bool := match e with ErrNoMatch => true | _ => false end.
