(* ===== verification/Unstructured.v ===== *)
(** * Unstructured objects

    The values that decoded JSON is made of, [unstructured.Unstructured], and
    the helpers of [k8s.io/apimachinery] on it as the class
    [UnstructuredHelpers]: they are not part of the repository, and the laws
    state what their documentation promises.  [small_helpers] is a concrete
    instance, for evaluation. *)

From Stdlib Require Import ZArith Lia String SpecFloat.
From S2P Require Import Prelude K8s.

(** The dynamic types of an [interface{}] decoded from JSON; integers are
    [int64], other numbers [float64]. *)
Inductive Value :=
  | VNull
  | VBool (b : bool)
  | VInt (n : Z)
  | VFloat (f : spec_float)
  | VString (s : string)
  | VList (l : list Value)
  | VMap (m : gmap string Value).

#[export] Instance spec_float_eq_dec : EqDecision spec_float.
Proof. solve_decision. Defined.

#[export] Instance Value_eq_dec : EqDecision Value.
Proof.
  refine (fix go (v w : Value) : Decision (v = w) :=
    let _ : EqDecision Value := @go in
    match v, w with
    | VNull, VNull => left eq_refl
    | VBool a, VBool b => cast_if (decide (a = b))
    | VInt a, VInt b => cast_if (decide (a = b))
    | VFloat a, VFloat b => cast_if (decide (a = b))
    | VString a, VString b => cast_if (decide (a = b))
    | VList a, VList b => cast_if (decide (a = b))
    | VMap a, VMap b => cast_if (decide (a = b))
    | _, _ => right _
    end); abstract congruence.
Defined.

(** [map[string]interface{}]. *)
Abbreviation Object := (gmap string Value).

Record Unstructured := { uns_Object : Object }.

#[export] Instance Unstructured_eq_dec : EqDecision Unstructured.
Proof. solve_decision. Defined.

(** What the getters of an object read of its metadata; an absent map or list
    and an empty one are not told apart. *)
Record ObjectMeta := {
  om_Name : string;
  om_Namespace : string;
  om_Labels : gmap string string;
  om_Annotations : gmap string string;
  om_Finalizers : list string;
  om_Generation : Z;
  om_ResourceVersion : string;
  om_DeletionTimestamp : option Time
}.

Definition with_labels (l : gmap string string) (m : ObjectMeta) : ObjectMeta := {|
  om_Name := om_Name m; om_Namespace := om_Namespace m; om_Labels := l; om_Annotations := om_Annotations m;
  om_Finalizers := om_Finalizers m; om_Generation := om_Generation m;
  om_ResourceVersion := om_ResourceVersion m; om_DeletionTimestamp := om_DeletionTimestamp m |}.
Definition with_annotations (a : gmap string string) (m : ObjectMeta) : ObjectMeta := {|
  om_Name := om_Name m; om_Namespace := om_Namespace m; om_Labels := om_Labels m; om_Annotations := a;
  om_Finalizers := om_Finalizers m; om_Generation := om_Generation m;
  om_ResourceVersion := om_ResourceVersion m; om_DeletionTimestamp := om_DeletionTimestamp m |}.
Definition with_finalizers (f : list string) (m : ObjectMeta) : ObjectMeta := {|
  om_Name := om_Name m; om_Namespace := om_Namespace m; om_Labels := om_Labels m;
  om_Annotations := om_Annotations m; om_Finalizers := f; om_Generation := om_Generation m;
  om_ResourceVersion := om_ResourceVersion m; om_DeletionTimestamp := om_DeletionTimestamp m |}.
Definition with_resourceVersion (v : string) (m : ObjectMeta) : ObjectMeta := {|
  om_Name := om_Name m; om_Namespace := om_Namespace m; om_Labels := om_Labels m;
  om_Annotations := om_Annotations m; om_Finalizers := om_Finalizers m; om_Generation := om_Generation m;
  om_ResourceVersion := v; om_DeletionTimestamp := om_DeletionTimestamp m |}.

(** The metadata can be written: it is a map, or absent. *)
Definition metadata_ok (u : Unstructured) : bool :=
  match uns_Object u !! "metadata"%string with
  | None | Some (VMap _) => true
  | _ => false
  end.

(** Neither path leads through the other. *)
Definition apart (p q : list string) : Prop := ~ p `prefix_of` q /\ ~ q `prefix_of` p.

(** What is found on the way to [p] is a map. *)
Definition map_path (get : list string -> option Value + string) (p : list string) : Prop :=
  forall q, q `prefix_of` p -> q <> p -> q <> [] -> get q = inl None \/ exists m, get q = inl (Some (VMap m)).

(** A setter of the metadata: it writes the metadata and nothing else. *)
Record metadata_setter (meta : Unstructured -> ObjectMeta) (set : Unstructured -> Unstructured)
    (f : ObjectMeta -> ObjectMeta) : Prop := {
  ms_meta : forall u, metadata_ok u = true -> meta (set u) = f (meta u);
  ms_ok : forall u, metadata_ok u = true -> metadata_ok (set u) = true;
  ms_other : forall u k, k <> "metadata"%string -> uns_Object (set u) !! k = uns_Object u !! k
}.

Class UnstructuredHelpers := {
  (** [GetName], [GetLabels], ... of [metav1.Object]; [GroupVersionKind]. *)
  uns_Meta : Unstructured -> ObjectMeta;
  uns_GroupVersionKind : Unstructured -> GroupVersionKind;
  uns_SetLabels : gmap string string -> Unstructured -> Unstructured;
  uns_SetAnnotations : gmap string string -> Unstructured -> Unstructured;
  uns_SetFinalizers : list string -> Unstructured -> Unstructured;
  uns_SetResourceVersion : string -> Unstructured -> Unstructured;

  (** The functions of package unstructured; an absent field is [None]. *)
  NestedFieldNoCopy : Object -> list string -> option Value + string;
  NestedString : Object -> list string -> option string + string;
  NestedBool : Object -> list string -> option bool + string;
  NestedInt64 : Object -> list string -> option Z + string;
  NestedSlice : Object -> list string -> option (list Value) + string;
  NestedMap : Object -> list string -> option Object + string;
  SetNestedField : Object -> Value -> list string -> Object + string;
  RemoveNestedField : Object -> list string -> Object;

  Meta_frame : forall u u', uns_Object u !! "metadata"%string = uns_Object u' !! "metadata"%string ->
    uns_Meta u = uns_Meta u';
  GroupVersionKind_frame : forall u u', (forall k, k <> "metadata"%string -> uns_Object u !! k = uns_Object u' !! k) ->
    uns_GroupVersionKind u = uns_GroupVersionKind u';
  Meta_SetLabels : forall l, metadata_setter uns_Meta (uns_SetLabels l) (with_labels l);
  Meta_SetAnnotations : forall a, metadata_setter uns_Meta (uns_SetAnnotations a) (with_annotations a);
  Meta_SetFinalizers : forall f, metadata_setter uns_Meta (uns_SetFinalizers f) (with_finalizers f);
  Meta_SetResourceVersion : forall v,
    metadata_setter uns_Meta (uns_SetResourceVersion v) (with_resourceVersion v);

  (** Annotations that are not a map are nil. *)
  GetAnnotations_absent : forall u,
    (forall m, NestedFieldNoCopy (uns_Object u) ["metadata"; "annotations"]%string <> inl (Some (VMap m))) ->
    om_Annotations (uns_Meta u) = ∅;

  NestedString_Some : forall o p s,
    NestedString o p = inl (Some s) <-> NestedFieldNoCopy o p = inl (Some (VString s));
  NestedString_None : forall o p, NestedString o p = inl None <-> NestedFieldNoCopy o p = inl None;
  NestedBool_Some : forall o p b,
    NestedBool o p = inl (Some b) <-> NestedFieldNoCopy o p = inl (Some (VBool b));
  NestedInt64_Some : forall o p n,
    NestedInt64 o p = inl (Some n) <-> NestedFieldNoCopy o p = inl (Some (VInt n));
  NestedInt64_None : forall o p, NestedInt64 o p = inl None <-> NestedFieldNoCopy o p = inl None;
  NestedSlice_Some : forall o p l,
    NestedSlice o p = inl (Some l) <-> NestedFieldNoCopy o p = inl (Some (VList l));
  NestedSlice_None : forall o p, NestedSlice o p = inl None <-> NestedFieldNoCopy o p = inl None;
  NestedMap_Some : forall o p m,
    NestedMap o p = inl (Some m) <-> NestedFieldNoCopy o p = inl (Some (VMap m));
  NestedMap_None : forall o p, NestedMap o p = inl None <-> NestedFieldNoCopy o p = inl None;

  (** A top-level field of a map. *)
  NestedField_top : forall o k, NestedFieldNoCopy o [k] = inl (o !! k);
  SetNestedField_top : forall o v k, SetNestedField o v [k] = inl (<[k := v]> o);
  RemoveNestedField_top : forall o k, RemoveNestedField o [k] = delete k o;

  NestedField_frame : forall o o' k p, o !! k = o' !! k -> NestedFieldNoCopy o (k :: p) = NestedFieldNoCopy o' (k :: p);
  NestedField_absent : forall o k p, o !! k = None -> NestedFieldNoCopy o (k :: p) = inl None;
  (** A field can be set unless something that is not a map is on its path; it
      leaves maps on the path. *)
  SetNestedField_ok : forall o v p, p <> [] -> map_path (NestedFieldNoCopy o) p -> exists o', SetNestedField o v p = inl o';
  SetNestedField_path : forall o v p o', SetNestedField o v p = inl o' -> map_path (NestedFieldNoCopy o') p;
  SetNestedField_get : forall o v p o', SetNestedField o v p = inl o' ->
    NestedFieldNoCopy o' p = inl (Some v);
  SetNestedField_apart : forall o v p o' q, SetNestedField o v p = inl o' -> apart p q ->
    NestedFieldNoCopy o' q = NestedFieldNoCopy o q;
  SetNestedField_other : forall o v k p o' k', SetNestedField o v (k :: p) = inl o' -> k' <> k ->
    o' !! k' = o !! k';
  RemoveNestedField_get : forall o p v, NestedFieldNoCopy (RemoveNestedField o p) p <> inl (Some v) \/ p = [];
  RemoveNestedField_apart : forall o p q, apart p q ->
    NestedFieldNoCopy (RemoveNestedField o p) q = NestedFieldNoCopy o q;
  RemoveNestedField_other : forall o k p k', k' <> k -> RemoveNestedField o (k :: p) !! k' = o !! k'
}.

Section Getters.
Context `{UnstructuredHelpers}.
Definition uns_GetName (u : Unstructured) : string := om_Name (uns_Meta u).
Definition uns_GetNamespace (u : Unstructured) : string := om_Namespace (uns_Meta u).
Definition uns_GetLabels (u : Unstructured) : gmap string string := om_Labels (uns_Meta u).
Definition uns_GetAnnotations (u : Unstructured) : gmap string string := om_Annotations (uns_Meta u).
Definition uns_GetFinalizers (u : Unstructured) : list string := om_Finalizers (uns_Meta u).
Definition uns_GetGeneration (u : Unstructured) : Z := om_Generation (uns_Meta u).
Definition uns_GetResourceVersion (u : Unstructured) : string := om_ResourceVersion (uns_Meta u).
Definition uns_GetDeletionTimestamp (u : Unstructured) : option Time := om_DeletionTimestamp (uns_Meta u).
End Getters.

(** ** A concrete instance *)

Fixpoint value_get (v : Value) (p : list string) : option Value + string :=
  match p with
  | [] => inl (Some v)
  | k :: p' =>
      match v with
      | VNull => inl None
      | VMap m => match m !! k with Some v' => value_get v' p' | None => inl None end
      | _ => inr "not a map"%string
      end
  end.

Definition object_get (o : Object) (p : list string) : option Value + string :=
  match p with [] => inl (Some (VMap o)) | k :: p' =>
    match o !! k with Some v => value_get v p' | None => inl None end end.

Fixpoint object_set (o : Object) (v : Value) (p : list string) : Object + string :=
  match p with
  | [] => inr "no field"%string
  | [k] => inl (<[k := v]> o)
  | k :: p' =>
      match o !! k with
      | None => match object_set ∅ v p' with inl m => inl (<[k := VMap m]> o) | inr e => inr e end
      | Some (VMap m) => match object_set m v p' with inl m => inl (<[k := VMap m]> o) | inr e => inr e end
      | Some _ => inr "not a map"%string
      end
  end.

Fixpoint object_remove (o : Object) (p : list string) : Object :=
  match p with
  | [] => o
  | [k] => delete k o
  | k :: p' => match o !! k with Some (VMap m) => <[k := VMap (object_remove m p')]> o | _ => o end
  end.

(** A typed getter from the untyped one. *)
Definition typed {A} (f : Value -> option A) (o : Object) (p : list string) : option A + string :=
  match object_get o p with
  | inl (Some v) => match f v with Some x => inl (Some x) | None => inr "wrong type"%string end
  | inl None => inl None
  | inr e => inr e
  end.

Lemma typed_Some {A} (f : Value -> option A) g o p x :
  (forall v, f v = Some x <-> v = g x) -> typed f o p = inl (Some x) <-> object_get o p = inl (Some (g x)).
Proof.
  intros Hf. unfold typed. destruct (object_get o p) as [[v|]|]; [|done..].
  destruct (f v) as [y|] eqn:E; split; intros H; simplify_eq.
  - f_equal. f_equal. by apply Hf.
  - do 2 f_equal. assert (f (g x) = Some x) by by apply Hf. congruence.
  - assert (f (g x) = Some x) by by apply Hf. congruence.
Qed.

Lemma typed_None {A} (f : Value -> option A) o p :
  typed f o p = inl None <-> object_get o p = inl None.
Proof. unfold typed. destruct (object_get o p) as [[v|]|]; [destruct (f v)|..]; done. Qed.

Definition as_string (v : Value) : option string := match v with VString s => Some s | _ => None end.
Definition as_bool (v : Value) : option bool := match v with VBool b => Some b | _ => None end.
Definition as_int (v : Value) : option Z := match v with VInt n => Some n | _ => None end.
Definition as_list (v : Value) : option (list Value) := match v with VList l => Some l | _ => None end.
Definition as_map (v : Value) : option Object := match v with VMap m => Some m | _ => None end.

Lemma object_get_cons o k p :
  object_get o (k :: p) = match o !! k with
                          | Some (VMap m) => object_get m p
                          | Some v => value_get v p
                          | None => inl None
                          end.
Proof. simpl. by destruct (o !! k) as [[]|], p. Qed.

Lemma object_set_cons o v k k' p : object_set o v (k :: k' :: p) =
  match o !! k with
  | None => match object_set ∅ v (k' :: p) with inl m => inl (<[k := VMap m]> o) | inr e => inr e end
  | Some (VMap m) => match object_set m v (k' :: p) with inl m => inl (<[k := VMap m]> o) | inr e => inr e end
  | Some _ => inr "not a map"%string
  end.
Proof. done. Qed.

Lemma object_remove_cons o k k' p : object_remove o (k :: k' :: p) =
  match o !! k with Some (VMap m) => <[k := VMap (object_remove m (k' :: p))]> o | _ => o end.
Proof. done. Qed.

Lemma object_set_get o v p o' : object_set o v p = inl o' -> object_get o' p = inl (Some v).
Proof.
  revert o o'. induction p as [|k [|k' p] IH]; intros o o' H; [done|..].
  - injection H as <-. simpl. by rewrite lookup_insert_eq.
  - rewrite object_set_cons in H. rewrite object_get_cons.
    destruct (o !! k) as [[| | | | | |m]|]; try done;
      (destruct (object_set _ v (k' :: p)) as [m'|] eqn:E; [|done]); injection H as <-;
      rewrite lookup_insert_eq; by eapply IH.
Qed.

Lemma apart_cons k p q : apart (k :: p) (k :: q) -> apart p q.
Proof. intros [H1 H2]. split; intros H; [apply H1|apply H2]; by apply prefix_cons. Qed.

Lemma apart_nil_l q : ~ apart [] q.
Proof. intros [H _]. apply H, prefix_nil. Qed.
Lemma apart_nil_r p : ~ apart p [].
Proof. intros [_ H]. apply H, prefix_nil. Qed.

Lemma object_get_empty q : q <> [] -> object_get ∅ q = inl None.
Proof. destruct q; [done|]. simpl. by rewrite lookup_empty. Qed.

Lemma object_get_absent o k p : o !! k = None -> object_get o (k :: p) = inl None.
Proof. simpl. by intros ->. Qed.

Lemma map_path_cons get k p x : p <> [] -> map_path get (k :: p) -> get [k] = inl (Some x) ->
  exists m, x = VMap m.
Proof.
  intros Hp H Hk. destruct (H [k]) as [E|[m E]]; [apply prefix_cons, prefix_nil|congruence|done| |]; [congruence|].
  exists m. congruence.
Qed.

Lemma object_set_ok o v p : p <> [] -> map_path (object_get o) p -> exists o', object_set o v p = inl o'.
Proof.
  revert o. induction p as [|k [|k' p] IH]; intros o Hp H; [done|by eexists|]. rewrite object_set_cons.
  destruct (o !! k) as [x|] eqn:E.
  - destruct (map_path_cons _ k (k' :: p) x ltac:(done) H) as [m ->]; [by rewrite object_get_cons, E; destruct x|].
    destruct (IH m ltac:(done)) as [m' ->]; [|by eexists]. intros q Hq Hne Hnil.
    specialize (H (k :: q)). rewrite object_get_cons, E in H. apply H; [by apply prefix_cons|congruence|done].
  - destruct (IH ∅ ltac:(done)) as [m' ->]; [|by eexists]. intros q _ _ Hnil. left. by apply object_get_empty.
Qed.

Lemma object_set_path o v p o' : object_set o v p = inl o' -> map_path (object_get o') p.
Proof.
  revert o o'. induction p as [|k [|k' p] IH]; intros o o' H; [done|..].
  - intros q [r Hr] Hne Hnil. destruct q as [|x [|y q]]; simplify_eq/=.
  - rewrite object_set_cons in H. intros q Hq Hne Hnil. destruct q as [|x q]; [done|].
    pose proof (prefix_cons_inv_1 _ _ _ _ Hq) as ->. apply prefix_cons_inv_2 in Hq.
    assert (exists m m', object_set m v (k' :: p) = inl m' /\ o' = <[k := VMap m']> o) as (m & m' & Hm & ->).
    { destruct (o !! k) as [[| | | | | |m]|]; try done; (destruct (object_set _ v (k' :: p)) as [m'|] eqn:E; [|done]);
        injection H as <-; eauto. }
    rewrite object_get_cons, lookup_insert_eq. destruct q as [|y q]; [right; by exists m'|].
    apply (IH _ _ Hm); [done|congruence|done].
Qed.

Lemma object_set_apart o v p o' q : object_set o v p = inl o' -> apart p q -> object_get o' q = object_get o q.
Proof.
  revert o o' q. induction p as [|k p IH]; intros o o' q H Hap; [by apply apart_nil_l in Hap|].
  destruct q as [|j q]; [by apply apart_nil_r in Hap|]. rewrite !object_get_cons.
  destruct (decide (j = k)) as [->|Hne].
  - apply apart_cons in Hap. destruct p as [|k' p]; [by apply apart_nil_l in Hap|].
    assert (q <> []) by (intros ->; by apply apart_nil_r in Hap). rewrite object_set_cons in H.
    destruct (o !! k) as [[| | | | | |m]|]; try done;
      (destruct (object_set _ v (k' :: p)) as [m'|] eqn:E; [|done]); injection H as <-;
      rewrite lookup_insert_eq, (IH _ _ _ E Hap); [done|]. by apply object_get_empty.
  - replace (o' !! j) with (o !! j); [done|]. destruct p as [|k' p].
    + injection H as <-. by rewrite lookup_insert_ne.
    + rewrite object_set_cons in H. destruct (o !! k) as [[| | | | | |m]|]; try done;
        (destruct (object_set _ v (k' :: p)) as [m'|] eqn:E; [|done]); injection H as <-;
        by rewrite lookup_insert_ne.
Qed.

Lemma object_set_other o v k p o' k' : object_set o v (k :: p) = inl o' -> k' <> k -> o' !! k' = o !! k'.
Proof.
  intros H Hne. destruct p as [|j p].
  - injection H as <-. by rewrite lookup_insert_ne.
  - rewrite object_set_cons in H. destruct (o !! k) as [[| | | | | |m]|]; try done;
      (destruct (object_set _ v (j :: p)) as [m'|] eqn:E; [|done]); injection H as <-;
      by rewrite lookup_insert_ne.
Qed.

Lemma object_remove_get o p v : object_get (object_remove o p) p <> inl (Some v) \/ p = [].
Proof.
  destruct (decide (p = [])) as [->|Hp]; [by right|left]. revert o Hp.
  induction p as [|k [|k' p] IH]; intros o Hp; [done|..].
  - simpl. by rewrite lookup_delete_eq.
  - rewrite object_remove_cons, object_get_cons.
    destruct (o !! k) as [[| | | | | |m]|] eqn:E; [rewrite E; done..| |by rewrite E].
    rewrite lookup_insert_eq. by apply IH.
Qed.

Lemma object_remove_apart o p q : apart p q -> object_get (object_remove o p) q = object_get o q.
Proof.
  revert o q. induction p as [|k p IH]; intros o q Hap; [by apply apart_nil_l in Hap|].
  destruct q as [|j q]; [by apply apart_nil_r in Hap|]. rewrite !object_get_cons.
  destruct (decide (j = k)) as [->|Hne].
  - apply apart_cons in Hap. destruct p as [|k' p]; [by apply apart_nil_l in Hap|]. rewrite object_remove_cons.
    destruct (o !! k) as [[| | | | | |m]|] eqn:E; [by rewrite E..| |by rewrite E].
    rewrite lookup_insert_eq. by apply IH.
  - destruct p as [|k' p]; [simpl; by rewrite lookup_delete_ne|]. rewrite object_remove_cons.
    destruct (o !! k) as [[]|]; try done. by rewrite lookup_insert_ne.
Qed.

Lemma object_remove_other o k p k' : k' <> k -> object_remove o (k :: p) !! k' = o !! k'.
Proof.
  intros Hne. destruct p; [simpl; by rewrite lookup_delete_ne|]. rewrite object_remove_cons.
  destruct (o !! k) as [[]|]; try done. by rewrite lookup_insert_ne.
Qed.

(** Metadata: the fields of the map under ["metadata"]. *)
Definition metadata_map (u : Unstructured) : Object :=
  match uns_Object u !! "metadata"%string with Some (VMap m) => m | _ => ∅ end.

Definition field_string (m : Object) (k : string) : string := default ""%string (m !! k ≫= as_string).
Definition field_strings (m : Object) (k : string) : gmap string string :=
  omap as_string (default ∅ (m !! k ≫= as_map)).

Definition small_Meta (u : Unstructured) : ObjectMeta :=
  let m := metadata_map u in {|
    om_Name := field_string m "name"; om_Namespace := field_string m "namespace";
    om_Labels := field_strings m "labels"; om_Annotations := field_strings m "annotations";
    om_Finalizers := omap as_string (default [] (m !! "finalizers"%string ≫= as_list));
    om_Generation := default 0 (m !! "generation"%string ≫= as_int);
    om_ResourceVersion := field_string m "resourceVersion";
    om_DeletionTimestamp := m !! "deletionTimestamp"%string ≫= as_int |}.

Definition set_metadata (k : string) (v : Value) (u : Unstructured) : Unstructured :=
  if metadata_ok u then
    {| uns_Object := <["metadata"%string := VMap (<[k := v]> (metadata_map u))]> (uns_Object u) |}
  else u.

(** A field is removed; an object without metadata stays so. *)
Definition remove_metadata (k : string) (u : Unstructured) : Unstructured :=
  match uns_Object u !! "metadata"%string with
  | Some (VMap m) => {| uns_Object := <["metadata"%string := VMap (delete k m)]> (uns_Object u) |}
  | _ => u
  end.

Lemma remove_metadata_ok k u : metadata_ok u = true -> metadata_ok (remove_metadata k u) = true.
Proof.
  unfold metadata_ok, remove_metadata. intros Hok.
  destruct (uns_Object u !! "metadata"%string) as [[| | | | | |m]|] eqn:E; try done; simpl;
    [by rewrite lookup_insert_eq|by rewrite E].
Qed.

Lemma remove_metadata_other k u k' : k' <> "metadata"%string ->
  uns_Object (remove_metadata k u) !! k' = uns_Object u !! k'.
Proof.
  intros Hk'. unfold remove_metadata. destruct (uns_Object u !! "metadata"%string) as [[]|]; try done.
  simpl. by rewrite lookup_insert_ne.
Qed.

Lemma remove_metadata_setter k f :
  (forall u, metadata_ok u = true -> small_Meta (remove_metadata k u) = f (small_Meta u)) ->
  metadata_setter small_Meta (remove_metadata k) f.
Proof. intros Hf. split; [done|apply remove_metadata_ok|apply remove_metadata_other]. Qed.

Lemma metadata_map_remove k u : metadata_ok u = true ->
  metadata_map (remove_metadata k u) = delete k (metadata_map u).
Proof.
  intros Hok. unfold remove_metadata, metadata_map, metadata_ok in *.
  destruct (uns_Object u !! "metadata"%string) as [[| | | | | |m]|] eqn:E; try done; simpl.
  - by rewrite lookup_insert_eq.
  - rewrite E. by rewrite delete_empty.
Qed.

Lemma set_metadata_ok k v u : metadata_ok u = true -> metadata_ok (set_metadata k v u) = true.
Proof. intros Hok. unfold set_metadata. rewrite Hok. unfold metadata_ok. simpl. by rewrite lookup_insert_eq. Qed.

Lemma set_metadata_other k v u k' : k' <> "metadata"%string ->
  uns_Object (set_metadata k v u) !! k' = uns_Object u !! k'.
Proof. intros Hk'. unfold set_metadata. destruct (metadata_ok u); [|done]. simpl. by rewrite lookup_insert_ne. Qed.

Lemma set_metadata_setter k v f :
  (forall u, metadata_ok u = true -> small_Meta (set_metadata k v u) = f (small_Meta u)) ->
  metadata_setter small_Meta (set_metadata k v) f.
Proof. intros Hf. split; [done|apply set_metadata_ok|apply set_metadata_other]. Qed.

Lemma metadata_map_set k v u : metadata_ok u = true ->
  metadata_map (set_metadata k v u) = <[k := v]> (metadata_map u).
Proof. intros Hok. unfold set_metadata. rewrite Hok. unfold metadata_map at 1. simpl. by rewrite lookup_insert_eq. Qed.

Definition strings_value (l : gmap string string) : Value := VMap (VString <$> l).

Lemma strings_value_back l : omap as_string (VString <$> l) = (l : gmap string string).
Proof. apply map_eq. intros k. rewrite lookup_omap, lookup_fmap. by destruct (l !! k). Qed.
Lemma strings_list_back l : omap as_string (VString <$> l) = (l : list string).
Proof. induction l as [|x l IH]; [done|]. simpl. by f_equal. Qed.

Ltac small_setter :=
  apply set_metadata_setter; intros u Hok; unfold small_Meta, field_string, field_strings;
  rewrite (metadata_map_set _ _ _ Hok);
  repeat first [rewrite lookup_insert_ne by done | rewrite lookup_insert_eq];
  unfold strings_value; cbn [as_map as_list as_string mbind option_bind default from_option id];
  rewrite ?strings_value_back, ?strings_list_back; reflexivity.

Lemma small_SetLabels l : metadata_setter small_Meta (set_metadata "labels" (strings_value l)) (with_labels l).
Proof. small_setter. Qed.
Lemma small_SetAnnotations a :
  metadata_setter small_Meta (set_metadata "annotations" (strings_value a)) (with_annotations a).
Proof. small_setter. Qed.
Lemma small_SetFinalizers f :
  metadata_setter small_Meta (set_metadata "finalizers" (VList (VString <$> f))) (with_finalizers f).
Proof. small_setter. Qed.
(** A string that is empty is not stored. *)
Definition set_metadata_string (k v : string) : Unstructured -> Unstructured :=
  if String.eqb v "" then remove_metadata k else set_metadata k (VString v).

Ltac small_remover :=
  apply remove_metadata_setter; intros u Hok; unfold small_Meta, field_string, field_strings;
  rewrite (metadata_map_remove _ _ Hok);
  repeat first [rewrite lookup_delete_ne by done | rewrite lookup_delete_eq]; reflexivity.

Lemma small_SetResourceVersion v :
  metadata_setter small_Meta (set_metadata_string "resourceVersion" v) (with_resourceVersion v).
Proof.
  unfold set_metadata_string. destruct (String.eqb_spec v "") as [->|_]; [small_remover|small_setter].
Qed.

Lemma small_Meta_frame u u' : uns_Object u !! "metadata"%string = uns_Object u' !! "metadata"%string ->
  small_Meta u = small_Meta u'.
Proof. intros H. unfold small_Meta, metadata_map. by rewrite H. Qed.

Lemma as_string_spec s v : as_string v = Some s <-> v = VString s.
Proof. destruct v; simpl; split; congruence. Qed.
Lemma as_bool_spec s v : as_bool v = Some s <-> v = VBool s.
Proof. destruct v; simpl; split; congruence. Qed.
Lemma as_int_spec s v : as_int v = Some s <-> v = VInt s.
Proof. destruct v; simpl; split; congruence. Qed.
Lemma as_list_spec s v : as_list v = Some s <-> v = VList s.
Proof. destruct v; simpl; split; congruence. Qed.
Lemma as_map_spec s v : as_map v = Some s <-> v = VMap s.
Proof. destruct v; simpl; split; congruence. Qed.

Lemma object_get_top o k : object_get o [k] = inl (o !! k).
Proof. simpl. by destruct (o !! k). Qed.

Lemma small_GetAnnotations_absent u :
  (forall m, object_get (uns_Object u) ["metadata"; "annotations"]%string <> inl (Some (VMap m))) ->
  om_Annotations (small_Meta u) = ∅.
Proof.
  intros H. simpl in *. unfold field_strings, metadata_map.
  destruct (uns_Object u !! "metadata"%string) as [[| | | | | |m]|]; try done.
  destruct (m !! "annotations"%string) as [[| | | | | |a]|]; try done. by destruct (H a).
Qed.

Lemma object_get_frame o o' k p : o !! k = o' !! k -> object_get o (k :: p) = object_get o' (k :: p).
Proof. simpl. by intros ->. Qed.

(** An [apiVersion] is read as a version of the core group. *)
Definition small_GroupVersionKind (u : Unstructured) : GroupVersionKind := {|
  gvk_Group := field_string (uns_Object u) "group"; gvk_Version := field_string (uns_Object u) "apiVersion";
  gvk_Kind := field_string (uns_Object u) "kind" |}.

Lemma small_GroupVersionKind_frame u u' :
  (forall k, k <> "metadata"%string -> uns_Object u !! k = uns_Object u' !! k) ->
  small_GroupVersionKind u = small_GroupVersionKind u'.
Proof. intros H. unfold small_GroupVersionKind, field_string. by rewrite !H. Qed.

Definition small_helpers : UnstructuredHelpers := {|
  uns_Meta := small_Meta;
  uns_GroupVersionKind := small_GroupVersionKind;
  uns_SetLabels := fun l => set_metadata "labels" (strings_value l);
  uns_SetAnnotations := fun a => set_metadata "annotations" (strings_value a);
  uns_SetFinalizers := fun f => set_metadata "finalizers" (VList (VString <$> f));
  uns_SetResourceVersion := set_metadata_string "resourceVersion";
  NestedFieldNoCopy := object_get;
  NestedString := typed as_string;
  NestedBool := typed as_bool;
  NestedInt64 := typed as_int;
  NestedSlice := typed as_list;
  NestedMap := typed as_map;
  SetNestedField := object_set;
  RemoveNestedField := object_remove;
  Meta_frame := small_Meta_frame;
  GroupVersionKind_frame := small_GroupVersionKind_frame;
  Meta_SetLabels := small_SetLabels;
  Meta_SetAnnotations := small_SetAnnotations;
  Meta_SetFinalizers := small_SetFinalizers;
  Meta_SetResourceVersion := small_SetResourceVersion;
  GetAnnotations_absent := small_GetAnnotations_absent;
  NestedString_Some := fun o p s => typed_Some _ VString o p s (as_string_spec s);
  NestedString_None := typed_None as_string;
  NestedBool_Some := fun o p s => typed_Some _ VBool o p s (as_bool_spec s);
  NestedInt64_Some := fun o p s => typed_Some _ VInt o p s (as_int_spec s);
  NestedInt64_None := typed_None as_int;
  NestedSlice_Some := fun o p s => typed_Some _ VList o p s (as_list_spec s);
  NestedSlice_None := typed_None as_list;
  NestedMap_Some := fun o p s => typed_Some _ VMap o p s (as_map_spec s);
  NestedMap_None := typed_None as_map;
  NestedField_top := object_get_top;
  SetNestedField_top := fun _ _ _ => eq_refl;
  RemoveNestedField_top := fun _ _ => eq_refl;
  NestedField_frame := object_get_frame;
  NestedField_absent := object_get_absent;
  SetNestedField_ok := object_set_ok;
  SetNestedField_path := object_set_path;
  SetNestedField_get := object_set_get;
  SetNestedField_apart := object_set_apart;
  SetNestedField_other := object_set_other;
  RemoveNestedField_get := object_remove_get;
  RemoveNestedField_apart := object_remove_apart;
  RemoveNestedField_other := object_remove_other
|}.
