(* ===== verification/Codecs.v ===== *)
(** * Encodings: JSON and unstructured objects

    [encoding/json] and the unstructured helpers of apimachinery are not part
    of the repository.  An encoder or decoder returns a value or an error
    message.  The laws are round trips of the encodings the scheduler reads
    back itself. *)

From Stdlib Require Import ZArith Lia String DecimalString DecimalZ.
From S2P Require Import Prelude GoStrings K8s Types ApiTypes Unstructured.

(** The triggers of a scheduling ([schedulingtriggers.go]). *)
Record schedulingTriggers := {
  SchedulingAnnotationsHash : string;
  ReplicaCount : Z;
  st_ResourceRequest : Resource;
  AutoMigrationInfoText : option string;
  PolicyName : string;
  PolicySchedulingContentHash : string;
  st_Clusters : list string;
  ClusterLabelsHashes : gmap string string;
  ClusterTaintsHashes : gmap string string;
  ClusterAPIResourceTypesHashes : gmap string string
}.

(** The content of the scheduling annotation ([schedulingannotation.go]). *)
Record Scheduling := {
  SourceGeneration : Z;
  FederatedGeneration : Z;
  sch_Placement : gmap string (option Z)
}.

(** The key of a secret or config map. *)
Record KeySelector := { ks_Name : string; ks_Key : string; ks_Optional : option bool }.
(** [corev1.EnvVarSource]; references to fields are kept as they are. *)
Record EnvVarSource := {
  SecretKeyRef : option KeySelector;
  ConfigMapKeyRef : option KeySelector;
  evs_FieldRef : option Value;
  evs_ResourceFieldRef : option Value
}.
Record EnvVar := { ev_Name : string; ev_Value : string; ev_ValueFrom : option EnvVarSource }.
#[export] Instance KeySelector_eq_dec : EqDecision KeySelector.
Proof. solve_decision. Defined.
#[export] Instance EnvVarSource_eq_dec : EqDecision EnvVarSource.
Proof. solve_decision. Defined.
#[export] Instance EnvVar_eq_dec : EqDecision EnvVar.
Proof. solve_decision. Defined.

(** [corev1.EnvFromSource], by the names it refers to. *)
Record EnvFromSource := { SecretRef : option string; ConfigMapRef : option string }.

Record ProjectedSource := { proj_Secret : option string; proj_ConfigMap : option string }.
(** [corev1.VolumeSource] with the secrets, config maps and claims it refers to;
    [Some None] is a source without the reference. *)
Record VolumeSource := {
  AzureFile : option string;
  CephFS : option (option string);
  Cinder : option (option string);
  FlexVolume : option (option string);
  Projected : option (list ProjectedSource);
  RBD : option (option string);
  vs_Secret : option string;
  ScaleIO : option (option string);
  ISCSI : option (option string);
  StorageOS : option (option string);
  CSI : option (option string);
  vs_ConfigMap : option string;
  PersistentVolumeClaim : option string
}.

Section PodSpec.
Context `{K : Kubernetes}.

(** The parts of [corev1.PodSpec] that the resource request, the overriders and
    the followers depend on. *)
Record Container := {
  con_Name : string;
  con_Image : string;
  con_Command : slice string;
  con_Args : slice string;
  con_Env : slice EnvVar;
  con_EnvFrom : list EnvFromSource;
  Requests : ResourceList;
  Limits : ResourceList
}.
Record PodSpec := {
  ps_Containers : list Container;
  ps_InitContainers : list Container;
  ps_EphemeralContainers : list Container;
  ps_ImagePullSecrets : list string;
  ps_Volumes : list VolumeSource;
  ps_ServiceAccountName : string;
  ps_Overhead : option ResourceList
}.
End PodSpec.

(** What the scheduler reads of the metadata of a template. *)
Record TemplateMetadata := {
  tm_GVK : GroupVersionKind;
  tm_Namespace : string;
  tm_Name : string;
  tm_Generation : Z;
  tm_Labels : gmap string string
}.

Class Codecs `{Kubernetes} := {
  (** Package unstructured, and [UnmarshalJSON]. *)
  Codecs_Helpers :: UnstructuredHelpers;
  Unstructured_UnmarshalJSON : string -> Unstructured + string;
  FromUnstructured_PodSpec : Object -> PodSpec + string;
  (** [k8sjson.Unmarshal] into partial object metadata. *)
  Unmarshal_Metadata : string -> TemplateMetadata + string;

  (** [json.Unmarshal] into the type named. *)
  Unmarshal_int64 : string -> Z + string;
  Unmarshal_AutoMigrationInfo : string -> AutoMigrationInfo + string;
  Unmarshal_CustomMigrationInfo : string -> CustomMigrationInfo + string;
  Unmarshal_MigrationConfig : string -> MigrationConfig + string;
  Unmarshal_StringMap : string -> gmap string string + string;
  Unmarshal_Affinity : string -> Affinity + string;
  Unmarshal_Tolerations : string -> list Toleration + string;
  Unmarshal_DesiredPlacements : string -> list DesiredPlacement + string;
  Unmarshal_ClusterReferences : string -> list ClusterReference + string;
  Unmarshal_PendingControllers : string -> list (list string) + string;
  Unmarshal_schedulingTriggers : string -> schedulingTriggers + string;

  (** [json.Marshal] of the type named. *)
  Marshal_int64 : Z -> string + string;
  Marshal_CustomMigrationInfo : CustomMigrationInfo -> string + string;
  Marshal_PendingControllers : list (list string) -> string + string;
  Marshal_schedulingTriggers : schedulingTriggers -> string + string;
  Marshal_Scheduling : Scheduling -> string + string;
  Marshal_StringMap : gmap string string -> string + string;
  Marshal_Taints : list Taint -> string + string;
  Marshal_APIResources : list APIResource -> string + string;
  Marshal_PropagationPolicySpec : PropagationPolicySpec -> string + string;

  (** [strconv.Atoi] and [Duration.String]. *)
  Atoi : string -> Z + string;
  Duration_String : Z -> string;

  int64_roundtrip : forall n, int64 n ->
    exists s, Marshal_int64 n = inl s /\ Unmarshal_int64 s = inl n;
  PendingControllers_roundtrip : forall cs s,
    Marshal_PendingControllers cs = inl s -> Unmarshal_PendingControllers s = inl cs;
  schedulingTriggers_roundtrip : forall t s,
    Marshal_schedulingTriggers t = inl s -> Unmarshal_schedulingTriggers s = inl t
}.

(** ** A concrete instance

    Integers are written in decimal, other documents as the decimal number that
    encodes them; a template is written as the number of its replicas.  Documents that the
    examples do not need cannot be decoded. *)

Definition encoded {A} `{Countable A} (x : A) : string + string := inl (decimal (Z.pos (encode x))).
Definition decoded {A} `{Countable A} (s : string) : A + string :=
  match parse_decimal s with
  | inl (Z.pos p) => match decode p with Some x => inl x | None => inr "malformed"%string end
  | _ => inr "malformed"%string
  end.

Lemma decoded_encoded {A} `{Countable A} (x : A) s : encoded x = inl s -> decoded s = inl x.
Proof. intros [= <-]. unfold decoded. by rewrite parse_decimal_decimal, decode_encode. Qed.

Lemma decimal_roundtrip n : int64 n -> exists s, (inl (decimal n) : string + string) = inl s /\
  parse_decimal s = inl n.
Proof. intros _. eexists. split; [done|]. apply parse_decimal_decimal. Qed.

Definition unsupported {A : Type} (_ : string) : A + string := inr "unsupported"%string.

(** The triggers as nested pairs. *)
Definition triggers_tuple (t : schedulingTriggers) :=
  (SchedulingAnnotationsHash t, ReplicaCount t,
   (MilliCPU (st_ResourceRequest t), Memory (st_ResourceRequest t),
    EphemeralStorage (st_ResourceRequest t), ScalarResources (st_ResourceRequest t)),
   AutoMigrationInfoText t, PolicyName t, PolicySchedulingContentHash t, st_Clusters t,
   (ClusterLabelsHashes t, ClusterTaintsHashes t, ClusterAPIResourceTypesHashes t)).

Definition tuple_triggers x : schedulingTriggers :=
  let '(h, n, (cpu, mem, eph, sc), am, pn, ph, cs, (ls, ts, rs)) := x in
  {| SchedulingAnnotationsHash := h; ReplicaCount := n;
     st_ResourceRequest := {| MilliCPU := cpu; Memory := mem; EphemeralStorage := eph; ScalarResources := sc |};
     AutoMigrationInfoText := am; PolicyName := pn; PolicySchedulingContentHash := ph; st_Clusters := cs;
     ClusterLabelsHashes := ls; ClusterTaintsHashes := ts; ClusterAPIResourceTypesHashes := rs |}.

Lemma tuple_triggers_tuple t : tuple_triggers (triggers_tuple t) = t.
Proof. by destruct t as [? ? [] ? ? ? ? ? ? ?]. Qed.

Lemma encoded_triggers_roundtrip t s : encoded (triggers_tuple t) = inl s ->
  match decoded s with inl x => inl (tuple_triggers x) | inr e => inr e end = (inl t : schedulingTriggers + string).
Proof. intros ->%decoded_encoded. by rewrite tuple_triggers_tuple. Qed.

Definition small_Unmarshal_MigrationConfig (s : string) : MigrationConfig + string :=
  match decoded (A := list (string * option Z) * list (string * option Z)) s with
  | inl (rs, ws) => inl {|
      ReplicasMigrations := (fun '(c, n) => {| rm_Cluster := c; rm_LimitedCapacity := n |}) <$> rs;
      WorkloadMigrations := (fun '(c, t) => {| wm_Cluster := c; wm_ValidUntil := t |}) <$> ws |}
  | inr e => inr e
  end.

Definition small_Unmarshal_CustomMigrationInfo (s : string) : CustomMigrationInfo + string :=
  match decoded (A := option (gmap string Z) * list (string * Z)) s with
  | inl (cap, us) => inl {|
      LimitedCapacity := cap;
      UnavailableClusters := (fun '(c, t) => {| uc_Cluster := c; uc_ValidUntil := t |}) <$> us |}
  | inr e => inr e
  end.

(** A deployment with the decoded number of replicas. *)
Definition small_UnmarshalJSON (s : string) : Unstructured + string :=
  match parse_decimal s with
  | inr e => inr e
  | inl n =>
      let metadata := <["name"%string := VString "web"]> {["namespace"%string := VString "default"]} in
      let template := {["spec"%string := VMap ∅]} in
      let spec := <["replicas"%string := VInt n]> {["template"%string := VMap template]} in
      inl {| uns_Object := <["metadata"%string := VMap metadata]> {["spec"%string := VMap spec]} |}
  end.

Definition codecs_reading `{Kubernetes} (unmarshal : string -> Unstructured + string) : Codecs := {|
  Codecs_Helpers := small_helpers;
  Unstructured_UnmarshalJSON := unmarshal;
  FromUnstructured_PodSpec := fun _ => inl {| ps_Containers := []; ps_InitContainers := [];
    ps_EphemeralContainers := []; ps_ImagePullSecrets := []; ps_Volumes := []; ps_ServiceAccountName := "";
    ps_Overhead := None |};
  Unmarshal_Metadata := fun _ =>
    inl {| tm_GVK := {| gvk_Group := "apps"; gvk_Version := "v1"; gvk_Kind := "Deployment" |};
           tm_Namespace := "default"; tm_Name := "web"; tm_Generation := 1; tm_Labels := ∅ |};
  Unmarshal_int64 := parse_decimal;
  Unmarshal_AutoMigrationInfo := fun s =>
    match decoded (A := gmap string Z * gmap string Z) s with
    | inl (est, sched) => inl {| EstimatedCapacity := est; ScheduledReplicas := sched |}
    | inr e => inr e
    end;
  Unmarshal_CustomMigrationInfo := small_Unmarshal_CustomMigrationInfo;
  Unmarshal_MigrationConfig := small_Unmarshal_MigrationConfig;
  Unmarshal_StringMap := decoded;
  Unmarshal_Affinity := unsupported;
  Unmarshal_Tolerations := unsupported;
  Unmarshal_DesiredPlacements := fun s =>
    match decoded (A := list (string * Z * option Z * option Z * option Z)) s with
    | inl l => inl ((fun '(c, mn, mx, w, p) =>
        {| dp_Cluster := c; dp_Preferences := {| pr_MinReplicas := mn; pr_MaxReplicas := mx;
                                                 pr_Weight := w; pr_Priority := p |} |}) <$> l)
    | inr e => inr e
    end;
  Unmarshal_ClusterReferences := fun s =>
    match decoded (A := list (string * Z * option Z * option Z * option Z)) s with
    | inl l => inl ((fun '(c, _, _, _, _) => {| cref_Cluster := c |}) <$> l)
    | inr e => inr e
    end;
  Unmarshal_PendingControllers := decoded;
  Unmarshal_schedulingTriggers := fun s =>
    match decoded s with inl x => inl (tuple_triggers x) | inr e => inr e end;
  Marshal_int64 := fun n => inl (decimal n);
  Marshal_CustomMigrationInfo := fun i =>
    encoded (LimitedCapacity i, (fun u => (uc_Cluster u, uc_ValidUntil u : Z)) <$> UnavailableClusters i);
  Marshal_PendingControllers := encoded;
  Marshal_schedulingTriggers := fun t => encoded (triggers_tuple t);
  Marshal_Scheduling := fun s => encoded (SourceGeneration s, FederatedGeneration s, sch_Placement s);
  Marshal_StringMap := encoded;
  Marshal_Taints := fun l => encoded ((fun t => (t_Key t, t_Value t, t_Effect t)) <$> l);
  Marshal_APIResources := fun l =>
    encoded ((fun r => (ar_Group r, ar_Version r, ar_Kind r, ar_PluralName r, ar_Scope r)) <$> l);
  Marshal_PropagationPolicySpec := fun p => encoded (pps_SchedulingMode p, pps_MaxClusters p);
  Atoi := parse_decimal;
  Duration_String := decimal;
  int64_roundtrip := decimal_roundtrip;
  PendingControllers_roundtrip := fun cs s H => decoded_encoded cs s H;
  schedulingTriggers_roundtrip := fun t s H => encoded_triggers_roundtrip t s H
|}.

Definition small_codecs `{Kubernetes} : Codecs := codecs_reading small_UnmarshalJSON.
