(* ===== verification/FedObject.v ===== *)
(** * Federated objects: placements, overrides, annotations, pending controllers

    [extensions_federatedobject.go], [pkg/util/annotation],
    [pkg/util/pendingcontrollers] and the path helpers of
    [pkg/util/unstructured].  A method that changes the object returns the new
    object. *)

From Stdlib Require Import ZArith Lia String Ascii.
From S2P Require Import Prelude GoStrings K8s Types ApiTypes Unstructured Codecs.

(** ** Entries of one controller

    Placements and overrides are lists with at most one entry that counts for
    each controller: the first. *)

Section ByController.
Context {E : Type} `{!EqDecision E} (controllerOf : E -> string).

(** The index of the controller's first entry; [None] is -1. *)
Fixpoint indexOf (controller : string) (l : list E) : option nat :=
  match l with
  | [] => None
  | e :: l' => if String.eqb (controllerOf e) controller then Some 0%nat
               else S <$> indexOf controller l'
  end.

Definition getEntry (controller : string) (l : list E) : option E :=
  indexOf controller l ≫= fun i => l !! i.

(** Replace the controller's entry by [e], or append it. *)
Definition setEntry (controller : string) (e : E) (l : list E) : list E * bool :=
  match indexOf controller l with
  | None => (l ++ [e], true)
  | Some i => if bool_decide (l !! i = Some e) then (l, false) else (<[i := e]> l, true)
  end.

Definition deleteEntry (controller : string) (l : list E) : list E * bool :=
  match indexOf controller l with
  | None => (l, false)
  | Some i => (take i l ++ drop (S i) l, true)
  end.
End ByController.

(** ** Placements *)

Section FedObject.
Context `{R : GoRuntime}.

Definition setPlacements (spec : GenericFederatedObjectSpec) (ps : list PlacementWithController)
    : GenericFederatedObjectSpec :=
  {| Template := Template spec; Overrides := Overrides spec; Placements := ps; Follows := Follows spec |}.

Definition setOverrides (spec : GenericFederatedObjectSpec) (os : list OverrideWithController)
    : GenericFederatedObjectSpec :=
  {| Template := Template spec; Overrides := os; Placements := Placements spec; Follows := Follows spec |}.

Definition GetPlacementUnion (spec : GenericFederatedObjectSpec) : gset string :=
  foldl (fun set placement =>
    foldl (fun set cluster => {[cref_Cluster cluster]} ∪ set) set (Placement placement))
    ∅ (Placements spec).

Definition GetControllerPlacement (spec : GenericFederatedObjectSpec) (controller : string)
    : list ClusterReference :=
  match getEntry pwc_Controller controller (Placements spec) with
  | Some placement => Placement placement
  | None => []
  end.

Definition DeleteControllerPlacement (spec : GenericFederatedObjectSpec) (controller : string)
    : GenericFederatedObjectSpec * bool :=
  let '(ps, changed) := deleteEntry pwc_Controller controller (Placements spec) in
  (setPlacements spec ps, changed).

Definition SetControllerPlacement (spec : GenericFederatedObjectSpec) (controller : string)
    (clusterNames : list string) : GenericFederatedObjectSpec * bool :=
  match clusterNames with
  | [] => DeleteControllerPlacement spec controller
  | _ =>
      let newPlacement := sort_slice (fun x y => String.ltb (cref_Cluster x) (cref_Cluster y))
        ((fun name => {| cref_Cluster := name |}) <$> clusterNames) in
      let '(ps, changed) := setEntry pwc_Controller controller
        {| pwc_Controller := controller; Placement := newPlacement |} (Placements spec) in
      (setPlacements spec ps, changed)
  end.

(** ** Overrides *)

Definition GetControllerOverrides (spec : GenericFederatedObjectSpec) (controller : string)
    : list ClusterReferenceWithPatches :=
  match getEntry owc_Controller controller (Overrides spec) with
  | Some overrides => Override overrides
  | None => []
  end.

Definition DeleteControllerOverrides (spec : GenericFederatedObjectSpec) (controller : string)
    : GenericFederatedObjectSpec * bool :=
  let '(os, changed) := deleteEntry owc_Controller controller (Overrides spec) in
  (setOverrides spec os, changed).

Definition SetControllerOverrides (spec : GenericFederatedObjectSpec) (controller : string)
    (clusterOverrides : list ClusterReferenceWithPatches) : GenericFederatedObjectSpec * bool :=
  match clusterOverrides with
  | [] => DeleteControllerOverrides spec controller
  | _ =>
      let clusterOverrides :=
        sort_slice (fun x y => String.ltb (crp_Cluster x) (crp_Cluster y)) clusterOverrides in
      let '(os, changed) := setEntry owc_Controller controller
        {| owc_Controller := controller; Override := clusterOverrides |} (Overrides spec) in
      (setOverrides spec os, changed)
  end.
End FedObject.

(** ** Annotations ([pkg/util/annotation])

    The object is never nil here. *)

Definition HasAnnotationKey (o : FederatedObject) (key : string) : bool :=
  bool_decide (is_Some (fo_Annotations o !! key)).

Definition HasAnnotationKeyValue (o : FederatedObject) (key value : string) : bool :=
  match fo_Annotations o !! key with Some v => String.eqb value v | None => false end.

Definition AddAnnotation (o : FederatedObject) (key value : string) : (FederatedObject * bool) + string :=
  if String.eqb key "" then inr "key is a empty string."%string
  else if HasAnnotationKeyValue o key value then inl (o, false)
  else inl (SetAnnotations o (<[key := value]> (fo_Annotations o)), true).

Definition RemoveAnnotation (o : FederatedObject) (key : string) : (FederatedObject * bool) + string :=
  if negb (HasAnnotationKey o key) then inl (o, false)
  else inl (SetAnnotations o (delete key (fo_Annotations o)), true).

(** ** Pending controllers ([pkg/util/pendingcontrollers]) *)

Notation PendingControllers := (list (list string)).

Definition NormalizeControllers (controllers : PendingControllers) : PendingControllers :=
  foldl (fun output inner => match inner with [] => output | _ => output ++ [inner] end) [] controllers.

Section Pending.
Context `{K : Kubernetes} `{C : !Codecs}.

Definition GetPendingControllers (o : FederatedObject) : PendingControllers + string :=
  match fo_Annotations o !! PendingControllersAnnotation with
  | None => inr ("annotation " ++ PendingControllersAnnotation ++ " does not exist")%string
  | Some value =>
      match Unmarshal_PendingControllers value with
      | inr err => inr ("failed to unmarshal json: " ++ err)%string
      | inl controllers => inl (NormalizeControllers controllers)
      end
  end.

Definition SetPendingControllers (o : FederatedObject) (controllers : PendingControllers)
    : (FederatedObject * bool) + string :=
  let controllers := NormalizeControllers controllers in
  match Marshal_PendingControllers controllers with
  | inr err => inr ("failed to marshal json: " ++ err)%string
  | inl annotationValue =>
      match AddAnnotation o PendingControllersAnnotation annotationValue with
      | inr err => inr ("failed to add annotation: " ++ err)%string
      | inl res => inl res
      end
  end.

(** The groups after the first one that holds [current]. *)
Fixpoint GetDownstreamControllers (allControllers : PendingControllers) (current : string)
    : PendingControllers :=
  match allControllers with
  | [] => []
  | controllerGroup :: rest =>
      if existsb (String.eqb current) controllerGroup then rest
      else GetDownstreamControllers rest current
  end.

(** Without the first occurrence of [toRemove]. *)
Fixpoint removeFirst (toRemove : string) (group : list string) : list string :=
  match group with
  | [] => []
  | controller :: group' =>
      if String.eqb controller toRemove then group' else controller :: removeFirst toRemove group'
  end.

Definition UpdatePendingControllers (o : FederatedObject) (toRemove : string)
    (shouldSetDownstream : bool) (allControllers : PendingControllers) : (FederatedObject * bool) + string :=
  match GetPendingControllers o with
  | inr err => inr ("failed to get remaining pending controllers: " ++ err)%string
  | inl pendingControllers =>
      let '(currentPendingControllers, restPendingControllers) :=
        match pendingControllers with [] => ([], []) | g :: rest => (g, rest) end in
      let currentPendingControllers := removeFirst toRemove currentPendingControllers in
      let restPendingControllers :=
        if shouldSetDownstream then GetDownstreamControllers allControllers toRemove
        else restPendingControllers in
      SetPendingControllers o (currentPendingControllers :: restPendingControllers)
  end.

Definition ControllerDependenciesFulfilled (o : FederatedObject) (controllerName : string)
    : bool + string :=
  match GetPendingControllers o with
  | inr err => inr err
  | inl [] => inl true
  | inl (currentControllerGroup :: _) => inl (existsb (fun c => String.eqb c controllerName) currentControllerGroup)
  end.
End Pending.

(** ** Paths ([pkg/util/unstructured]) *)

Definition SplitDotPath (dotPath : string) (prefixFields : list string) : list string :=
  foldl (fun result pathComp => if negb (String.eqb pathComp "") then result ++ [pathComp] else result)
    prefixFields (split_on "." dotPath).

Definition ToSlashPath (dotPath : string) : string :=
  ("/" ++ String.concat "/" (SplitDotPath dotPath []))%string.

Example ToSlashPath_replicas : ToSlashPath "spec.replicas" = "/spec/replicas"%string.
Proof. reflexivity. Qed.

Section Template.
Context `{K : Kubernetes} `{C : !Codecs}.

(** [%v] of the prefix fields, a list of strings. *)
Definition GetInt64FromPath (value : Unstructured) (path : string) (prefixFields : list string)
    : option Z + string :=
  match NestedInt64 (uns_Object value) (SplitDotPath path prefixFields) with
  | inr err => inr ("cannot access [" ++ String.concat " " prefixFields ++ "]: " ++ err)%string
  | inl v => inl v
  end.

Definition GetTemplateAsUnstructured (spec : GenericFederatedObjectSpec) : Unstructured + string :=
  Unstructured_UnmarshalJSON (Template spec).

Definition GetTemplateMetadata (spec : GenericFederatedObjectSpec) : TemplateMetadata + string :=
  Unmarshal_Metadata (Template spec).
End Template.
