(* ===== verification/FedObjectTheorems.v ===== *)
(** * The theorems about federated objects *)

From Stdlib Require Import ZArith Lia String Ascii.
From S2P Require Import Prelude GoStrings K8s Types ApiTypes Codecs FedObject.

(** ** Entries of one controller *)

Section ByController.
Context {E : Type} `{!EqDecision E} (controllerOf : E -> string).

Lemma indexOf_Some c l i : indexOf controllerOf c l = Some i ->
  exists e, l !! i = Some e /\ controllerOf e = c.
Proof using Type.
  revert i. induction l as [|e l IH]; intros i; simpl; [done|].
  destruct (String.eqb_spec (controllerOf e) c) as [He|He].
  - intros [= <-]. by exists e.
  - destruct (indexOf controllerOf c l) as [j|] eqn:Ej; [|done]. intros [= <-].
    by destruct (IH j eq_refl) as (e' & Hl & Hc); exists e'.
Qed.

Lemma indexOf_None c l : indexOf controllerOf c l = None <-> c ∉ controllerOf <$> l.
Proof using Type.
  induction l as [|e l IH]; simpl; [split; [intros _; apply not_elem_of_nil|done]|].
  rewrite not_elem_of_cons. destruct (String.eqb_spec (controllerOf e) c) as [He|He].
  - split; [done|]. intros [H _]. by destruct H.
  - rewrite <- IH. destruct (indexOf controllerOf c l); simpl; naive_solver.
Qed.

(** The index only depends on the controllers. *)
Lemma indexOf_names c l1 l2 : controllerOf <$> l1 = controllerOf <$> l2 ->
  indexOf controllerOf c l1 = indexOf controllerOf c l2.
Proof using Type.
  revert l2. induction l1 as [|e l1 IH]; intros [|e2 l2]; simpl; [done..|].
  intros [= -> Hl]. by rewrite (IH l2 Hl).
Qed.

Lemma indexOf_app c l1 l2 : indexOf controllerOf c l1 = None ->
  indexOf controllerOf c (l1 ++ l2) = (fun i => (length l1 + i)%nat) <$> indexOf controllerOf c l2.
Proof using Type.
  induction l1 as [|e l1 IH]; simpl; [by destruct (indexOf controllerOf c l2)|].
  destruct (String.eqb (controllerOf e) c); [done|].
  destruct (indexOf controllerOf c l1); [done|]. intros _. rewrite IH by done.
  by destruct (indexOf controllerOf c l2).
Qed.

Lemma indexOf_app_Some c l1 l2 i : indexOf controllerOf c l1 = Some i ->
  indexOf controllerOf c (l1 ++ l2) = Some i.
Proof using Type.
  revert i. induction l1 as [|e l1 IH]; intros i; simpl; [done|].
  destruct (String.eqb (controllerOf e) c); [done|].
  destruct (indexOf controllerOf c l1) as [j|]; [|done]. intros [= <-]. by rewrite (IH j eq_refl).
Qed.

Lemma getEntry_app c l1 l2 : getEntry controllerOf c (l1 ++ l2) =
  match getEntry controllerOf c l1 with Some e => Some e | None => getEntry controllerOf c l2 end.
Proof using Type.
  unfold getEntry. destruct (indexOf controllerOf c l1) as [i|] eqn:Ei; simpl.
  - rewrite (indexOf_app_Some _ _ _ _ Ei). simpl. apply indexOf_Some in Ei as (e & He & _).
    rewrite He. by apply lookup_app_l_Some.
  - rewrite indexOf_app by done. destruct (indexOf controllerOf c l2) as [j|]; [|done]. simpl.
    rewrite lookup_app_r by lia. f_equal. lia.
Qed.

Lemma getEntry_cons c e l : getEntry controllerOf c (e :: l) =
  if String.eqb (controllerOf e) c then Some e else getEntry controllerOf c l.
Proof using Type.
  unfold getEntry. simpl. destruct (String.eqb (controllerOf e) c); [done|].
  by destruct (indexOf controllerOf c l).
Qed.

Lemma getEntry_None c l : c ∉ controllerOf <$> l -> getEntry controllerOf c l = None.
Proof using Type. intros H. unfold getEntry. by rewrite (proj2 (indexOf_None c l) H). Qed.

(** The entry splits the list. *)
Lemma indexOf_split c l i : indexOf controllerOf c l = Some i ->
  exists l1 e l2, l = l1 ++ e :: l2 /\ length l1 = i /\ controllerOf e = c /\ c ∉ controllerOf <$> l1.
Proof using Type.
  revert i. induction l as [|e l IH]; intros i; simpl; [done|].
  destruct (String.eqb_spec (controllerOf e) c) as [He|He].
  - intros [= <-]. exists [], e, l. split_and!; [done..|apply not_elem_of_nil].
  - destruct (indexOf controllerOf c l) as [j|] eqn:Ej; [|done]. intros [= <-].
    destruct (IH j eq_refl) as (l1 & e' & l2 & -> & Hl & Hc & Hn). exists (e :: l1), e', l2.
    split_and!; [done|simpl; lia|done|]. simpl. apply not_elem_of_cons. split; [congruence|done].
Qed.

Lemma setEntry_spec c e l : controllerOf e = c ->
  let '(l', changed) := setEntry controllerOf c e l in
  getEntry controllerOf c l' = Some e /\
  (forall c', c' <> c -> getEntry controllerOf c' l' = getEntry controllerOf c' l) /\
  (changed = true <-> l' <> l) /\
  setEntry controllerOf c e l' = (l', false).
Proof using Type.
  intros He. unfold setEntry.
  assert (Hset : forall l1 l2, c ∉ controllerOf <$> l1 ->
    getEntry controllerOf c (l1 ++ e :: l2) = Some e /\
    indexOf controllerOf c (l1 ++ e :: l2) = Some (length l1)).
  { intros l1 l2 Hl1. split.
    - rewrite getEntry_app, getEntry_None, getEntry_cons, He, String.eqb_refl by done. done.
    - rewrite indexOf_app by (by apply indexOf_None). simpl. rewrite He, String.eqb_refl. simpl. f_equal. lia. }
  destruct (indexOf controllerOf c l) as [i|] eqn:Ei.
  - apply indexOf_split in Ei as Hs. destruct Hs as (l1 & e0 & l2 & -> & <- & He0 & Hl1).
    destruct (Hset l1 l2 Hl1) as [Hg Hi]. rewrite list_lookup_middle by done.
    case_bool_decide as Heq.
    + injection Heq as ->. split_and!; [done|done|by split|]. rewrite Ei, list_lookup_middle by done.
      by rewrite bool_decide_eq_true_2.
    + replace (<[length l1 := e]> (l1 ++ e0 :: l2)) with (l1 ++ e :: l2)
        by (by rewrite insert_app_r_alt, Nat.sub_diag by lia).
      split_and!; [done| | |].
      * intros c' Hc'. rewrite !getEntry_app. destruct (getEntry controllerOf c' l1); [done|].
        rewrite !getEntry_cons, He, He0. apply String.eqb_neq in Hc'. by rewrite String.eqb_sym, Hc'.
      * split; [|done]. intros _ H. apply (app_inv_head l1) in H. injection H as ->. by destruct Heq.
      * rewrite Hi, list_lookup_middle by done. by rewrite bool_decide_eq_true_2.
  - apply indexOf_None in Ei. destruct (Hset l [] Ei) as [Hg Hi]. split_and!; [done| | |].
    + intros c' Hc'. rewrite getEntry_app, getEntry_cons, He. apply String.eqb_neq in Hc'.
      rewrite String.eqb_sym, Hc'. by destruct (getEntry controllerOf c' l).
    + split; [|done]. intros _ H. apply (f_equal length) in H. rewrite length_app in H. simpl in H. lia.
    + rewrite Hi, list_lookup_middle by done. by rewrite bool_decide_eq_true_2.
Qed.

Lemma deleteEntry_spec c l : NoDup (controllerOf <$> l) ->
  let '(l', changed) := deleteEntry controllerOf c l in
  getEntry controllerOf c l' = None /\
  (forall c', c' <> c -> getEntry controllerOf c' l' = getEntry controllerOf c' l) /\
  (changed = true <-> l' <> l) /\
  deleteEntry controllerOf c l' = (l', false).
Proof using Type.
  intros Hnd. unfold deleteEntry. destruct (indexOf controllerOf c l) as [i|] eqn:Ei.
  - apply indexOf_split in Ei as (l1 & e0 & l2 & -> & <- & He0 & Hl1).
    rewrite take_app_length. replace (drop (S (length l1)) (l1 ++ e0 :: l2)) with l2; cycle 1.
    { change (e0 :: l2) with ([e0] ++ l2). rewrite app_assoc, drop_app_length'; [done|].
      rewrite length_app. simpl. lia. }
    assert (Hn : c ∉ controllerOf <$> l1 ++ l2).
    { rewrite fmap_app in *. apply NoDup_app in Hnd as (_ & _ & Hnd).
      rewrite fmap_cons, NoDup_cons, He0 in Hnd. rewrite elem_of_app. tauto. }
    split_and!; [by apply getEntry_None| | |].
    + intros c' Hc'. rewrite !getEntry_app, getEntry_cons, He0. apply String.eqb_neq in Hc'.
      by rewrite String.eqb_sym, Hc'.
    + split; [|done]. intros _ H. apply (f_equal length) in H. rewrite !length_app in H. simpl in H. lia.
    + by rewrite (proj2 (indexOf_None c _) Hn).
  - split_and!; [by unfold getEntry; rewrite Ei|done|done|by rewrite Ei].
Qed.
End ByController.

(** ** Placements and overrides *)

Section Placements.
Context `{R : GoRuntime}.

Definition crefLess (x y : ClusterReference) : bool := String.ltb (cref_Cluster x) (cref_Cluster y).
Definition crpLess (x y : ClusterReferenceWithPatches) : bool := String.ltb (crp_Cluster x) (crp_Cluster y).

#[export] Instance crefLess_swo : StrictWeakOrder crefLess.
Proof. apply (swo_on String.ltb cref_Cluster), swo_string. Qed.
#[export] Instance crpLess_swo : StrictWeakOrder crpLess.
Proof. apply (swo_on String.ltb crp_Cluster), swo_string. Qed.

Definition sortedRefs (names : list string) : list ClusterReference :=
  sort_slice crefLess ((fun name => {| cref_Cluster := name |}) <$> names).

Lemma sortedRefs_perm names1 names2 : names1 ≡ₚ names2 -> sortedRefs names1 = sortedRefs names2.
Proof using Type.
  intros Hp. apply (sorted_perm_unique crefLess).
  - unfold sortedRefs. by rewrite !sort_slice_perm, Hp.
  - intros [x] [y] _ _ Hxy Hyx. f_equal. by apply string_ltb_total.
  - apply sort_slice_sorted, _.
  - apply sort_slice_sorted, _.
Qed.

Lemma sortedRefs_names names : cref_Cluster <$> sortedRefs names ≡ₚ names.
Proof using Type.
  unfold sortedRefs. rewrite sort_slice_perm, <- list_fmap_compose. simpl. by rewrite list_fmap_id.
Qed.

Lemma setPlacements_eta spec : setPlacements spec (Placements spec) = spec.
Proof using Type. by destruct spec. Qed.
Lemma setOverrides_eta spec : setOverrides spec (Overrides spec) = spec.
Proof using Type. by destruct spec. Qed.

(** What setting the placements of [c] to [names] means. *)
Record placed (c : string) (names : list string) (spec spec' : GenericFederatedObjectSpec)
    (changed : bool) : Prop := {
  pl_get : GetControllerPlacement spec' c = sortedRefs names;
  pl_others : forall c', c' <> c -> GetControllerPlacement spec' c' = GetControllerPlacement spec c';
  pl_frame : setPlacements spec' (Placements spec) = spec;
  pl_changed : changed = true <-> spec' <> spec;
  pl_again : forall names', names' ≡ₚ names -> SetControllerPlacement spec' c names' = (spec', false)
}.

Lemma SetControllerPlacement_placed c names spec : NoDup (pwc_Controller <$> Placements spec) ->
  let '(spec', changed) := SetControllerPlacement spec c names in placed c names spec spec' changed.
Proof using Type.
  intros Hnd.
  assert (Hch : forall ps (changed : bool), (changed = true <-> ps <> Placements spec) ->
    changed = true <-> setPlacements spec ps <> spec).
  { intros ps changed Hc. rewrite Hc. split; intros H Heq; apply H.
    - by apply (f_equal Placements) in Heq.
    - rewrite Heq. apply setPlacements_eta. }
  destruct names as [|n names].
  - unfold SetControllerPlacement, DeleteControllerPlacement.
    pose proof (deleteEntry_spec pwc_Controller c (Placements spec) Hnd) as Hd.
    destruct (deleteEntry _ _ _) as [ps changed] eqn:Ed. destruct Hd as (Hg & Ho & Hc & Ha).
    split; [|intros c' Hc'|by destruct spec|by apply Hch|].
    + unfold GetControllerPlacement. simpl. rewrite Hg. symmetry.
      apply Permutation_nil. unfold sortedRefs. by rewrite sort_slice_perm.
    + unfold GetControllerPlacement. simpl. by rewrite (Ho c' Hc').
    + intros names' ->%Permutation_nil_r. unfold SetControllerPlacement, DeleteControllerPlacement. cbn [Placements setPlacements]. by rewrite Ha.
  - unfold SetControllerPlacement. cbv zeta. change (fun x y => String.ltb _ _) with crefLess.
    fold (sortedRefs (n :: names)).
    set (e := {| pwc_Controller := c; Placement := sortedRefs (n :: names) |}).
    pose proof (setEntry_spec pwc_Controller c e (Placements spec) eq_refl) as Hs.
    destruct (setEntry _ _ _ _) as [ps changed] eqn:Es. destruct Hs as (Hg & Ho & Hc & Ha).
    split; [|intros c' Hc'|by destruct spec|by apply Hch|].
    + unfold GetControllerPlacement. simpl. by rewrite Hg.
    + unfold GetControllerPlacement. simpl. by rewrite (Ho c' Hc').
    + intros names' Hp. destruct names' as [|n' names']; [by apply Permutation_nil_cons in Hp|].
      unfold SetControllerPlacement. change (fun x y => String.ltb _ _) with crefLess.
      fold (sortedRefs (n' :: names')). rewrite (sortedRefs_perm _ _ Hp). fold e.
      cbn [Placements setPlacements]. by rewrite Ha.
Qed.

(** [SetControllerPlacement] makes the given clusters, sorted by name, the
    placement of the controller, or removes it for no cluster; it leaves the
    other controllers and the rest of the spec alone, reports a change exactly
    when there is one, and reports none when the same clusters are set again
    in any order. *)
Theorem SetControllerPlacement_correct c names spec : NoDup (pwc_Controller <$> Placements spec) ->
  let '(spec', changed) := SetControllerPlacement spec c names in placed c names spec spec' changed.
Proof using Type. apply SetControllerPlacement_placed. Qed.

(** Overrides with one entry for each cluster are sorted canonically. *)
Lemma sortedOverrides_perm os1 os2 : os1 ≡ₚ os2 -> NoDup (crp_Cluster <$> os1) ->
  sort_slice crpLess os1 = sort_slice crpLess os2.
Proof using Type.
  intros Hp Hnd. apply (sorted_perm_unique crpLess).
  - by rewrite !sort_slice_perm.
  - intros x y Hx Hy Hxy Hyx. rewrite elem_of_sort_slice in Hx, Hy.
    apply (NoDup_fmap_fst_eq crp_Cluster os1); [done..|]. by apply string_ltb_total.
  - apply sort_slice_sorted, _.
  - apply sort_slice_sorted, _.
Qed.

(** What setting the overrides of [c] means. *)
Record overridden (c : string) (os : list ClusterReferenceWithPatches)
    (spec spec' : GenericFederatedObjectSpec) (changed : bool) : Prop := {
  ov_get : GetControllerOverrides spec' c = sort_slice crpLess os;
  ov_others : forall c', c' <> c -> GetControllerOverrides spec' c' = GetControllerOverrides spec c';
  ov_frame : setOverrides spec' (Overrides spec) = spec;
  ov_changed : changed = true <-> spec' <> spec;
  ov_again : forall os', os' ≡ₚ os -> NoDup (crp_Cluster <$> os) ->
    SetControllerOverrides spec' c os' = (spec', false)
}.

Lemma SetControllerOverrides_overridden c os spec : NoDup (owc_Controller <$> Overrides spec) ->
  let '(spec', changed) := SetControllerOverrides spec c os in overridden c os spec spec' changed.
Proof using Type.
  intros Hnd.
  assert (Hch : forall ps (changed : bool), (changed = true <-> ps <> Overrides spec) ->
    changed = true <-> setOverrides spec ps <> spec).
  { intros ps changed Hc. rewrite Hc. split; intros H Heq; apply H.
    - by apply (f_equal Overrides) in Heq.
    - rewrite Heq. apply setOverrides_eta. }
  destruct os as [|o os].
  - unfold SetControllerOverrides, DeleteControllerOverrides.
    pose proof (deleteEntry_spec owc_Controller c (Overrides spec) Hnd) as Hd.
    destruct (deleteEntry _ _ _) as [ps changed] eqn:Ed. destruct Hd as (Hg & Ho & Hc & Ha).
    split; [|intros c' Hc'|by destruct spec|by apply Hch|].
    + unfold GetControllerOverrides. simpl. rewrite Hg. symmetry.
      apply Permutation_nil. by rewrite sort_slice_perm.
    + unfold GetControllerOverrides. simpl. by rewrite (Ho c' Hc').
    + intros os' ->%Permutation_nil_r _. unfold SetControllerOverrides, DeleteControllerOverrides. cbn [Overrides setOverrides]. by rewrite Ha.
  - unfold SetControllerOverrides. cbv zeta. change (fun x y => String.ltb _ _) with crpLess.
    set (e := {| owc_Controller := c; Override := sort_slice crpLess (o :: os) |}).
    pose proof (setEntry_spec owc_Controller c e (Overrides spec) eq_refl) as Hs.
    destruct (setEntry _ _ _ _) as [ps changed] eqn:Es. destruct Hs as (Hg & Ho & Hc & Ha).
    split; [|intros c' Hc'|by destruct spec|by apply Hch|].
    + unfold GetControllerOverrides. simpl. by rewrite Hg.
    + unfold GetControllerOverrides. simpl. by rewrite (Ho c' Hc').
    + intros os' Hp Hnd'. destruct os' as [|o' os']; [by apply Permutation_nil_cons in Hp|].
      unfold SetControllerOverrides. change (fun x y => String.ltb _ _) with crpLess.
      rewrite <- (sortedOverrides_perm _ _ (Permutation_sym Hp) Hnd'). fold e.
      cbn [Overrides setOverrides]. by rewrite Ha.
Qed.

(** The same for [SetControllerOverrides]: the overrides are sorted by
    cluster, and setting them again in any order is no change when no cluster
    occurs twice. *)
Theorem SetControllerOverrides_correct c os spec : NoDup (owc_Controller <$> Overrides spec) ->
  let '(spec', changed) := SetControllerOverrides spec c os in overridden c os spec spec' changed.
Proof using Type. apply SetControllerOverrides_overridden. Qed.
End Placements.

(** ** Annotations *)

Lemma AddAnnotation_spec o key value o' changed : AddAnnotation o key value = inl (o', changed) ->
  o' = SetAnnotations o (<[key := value]> (fo_Annotations o)) /\ (changed = true <-> o' <> o).
Proof.
  unfold AddAnnotation. destruct (String.eqb key ""); [done|].
  assert (Heta : SetAnnotations o (fo_Annotations o) = o) by (by destruct o).
  unfold HasAnnotationKeyValue. destruct (fo_Annotations o !! key) as [v|] eqn:Hv.
  - destruct (String.eqb_spec value v) as [<-|Hne]; intros [= <- <-].
    + rewrite insert_id by done. split; [by rewrite Heta|]. by split.
    + split; [done|]. split; [|done]. intros _ H. apply (f_equal fo_Annotations) in H. simpl in H.
      rewrite <- H, lookup_insert_eq in Hv. by injection Hv.
  - intros [= <- <-]. split; [done|]. split; [|done]. intros _ H.
    apply (f_equal fo_Annotations) in H. simpl in H. by rewrite <- H, lookup_insert_eq in Hv.
Qed.

Lemma AddAnnotation_again o key value : key <> ""%string -> fo_Annotations o !! key = Some value ->
  AddAnnotation o key value = inl (o, false).
Proof.
  intros Hk Hv. unfold AddAnnotation, HasAnnotationKeyValue. apply String.eqb_neq in Hk.
  by rewrite Hk, Hv, String.eqb_refl.
Qed.

Lemma RemoveAnnotation_spec o key : exists changed,
  RemoveAnnotation o key = inl (SetAnnotations o (delete key (fo_Annotations o)), changed) /\
  (changed = true <-> is_Some (fo_Annotations o !! key)).
Proof.
  unfold RemoveAnnotation, HasAnnotationKey. case_bool_decide as H; simpl.
  - exists true. done.
  - exists false. split; [|done]. rewrite delete_id by (by apply eq_None_not_Some). by destruct o.
Qed.

Lemma SetAnnotations_eta o : SetAnnotations o (fo_Annotations o) = o.
Proof. by destruct o. Qed.

(** What the two operations return, as equations. *)
Lemma AddAnnotation_eq o key value : key <> ""%string -> AddAnnotation o key value =
  inl (SetAnnotations o (<[key := value]> (fo_Annotations o)),
       negb (bool_decide (fo_Annotations o !! key = Some value))).
Proof.
  intros Hk. unfold AddAnnotation, HasAnnotationKeyValue. apply String.eqb_neq in Hk. rewrite Hk.
  case_bool_decide as Hv.
  - rewrite Hv, String.eqb_refl, insert_id by done. by rewrite SetAnnotations_eta.
  - destruct (fo_Annotations o !! key) as [v|]; [|done].
    destruct (String.eqb_spec value v) as [->|]; [|done]. by destruct Hv.
Qed.

Lemma RemoveAnnotation_eq o key : RemoveAnnotation o key =
  inl (SetAnnotations o (delete key (fo_Annotations o)), bool_decide (is_Some (fo_Annotations o !! key))).
Proof.
  unfold RemoveAnnotation, HasAnnotationKey. case_bool_decide as H; simpl; [done|].
  rewrite delete_id by (by apply eq_None_not_Some). by rewrite SetAnnotations_eta.
Qed.

(** ** Pending controllers *)

Section Pending.
Context `{K : Kubernetes} `{C : !Codecs}.

Lemma NormalizeControllers_filter l : NormalizeControllers l = filter (fun g => g <> []) l.
Proof using Type.
  unfold NormalizeControllers.
  assert (Hg : forall acc, foldl (fun output inner => match inner with [] => output | _ => output ++ [inner] end) acc l =
    acc ++ filter (fun g => g <> []) l); [|by rewrite Hg].
  induction l as [|g l IH]; intros acc; simpl; [by rewrite app_nil_r|]. rewrite IH.
  rewrite filter_cons. destruct g; case_decide; [done|done|by rewrite <- app_assoc|done].
Qed.

Lemma NormalizeControllers_id l : (forall g, g ∈ l -> g <> []) -> NormalizeControllers l = l.
Proof using Type.
  intros Hl. rewrite NormalizeControllers_filter. induction l as [|g l IH]; [done|].
  rewrite filter_cons, decide_True by (apply Hl; left). by rewrite IH by (intros; apply Hl; by right).
Qed.

Lemma NormalizeControllers_idemp l : NormalizeControllers (NormalizeControllers l) = NormalizeControllers l.
Proof using Type.
  apply NormalizeControllers_id. intros g. rewrite NormalizeControllers_filter. by intros [? _]%list_elem_of_filter.
Qed.

Lemma GetPendingControllers_normal o cs : GetPendingControllers o = inl cs -> NormalizeControllers cs = cs.
Proof using Type.
  unfold GetPendingControllers. intros H. split_match_in H. by rewrite NormalizeControllers_idemp.
Qed.

Lemma SetPendingControllers_spec o cs o' changed : SetPendingControllers o cs = inl (o', changed) ->
  GetPendingControllers o' = inl (NormalizeControllers cs) /\
  (exists a, o' = SetAnnotations o (<[PendingControllersAnnotation := a]> (fo_Annotations o))) /\
  forall cs', NormalizeControllers cs' = NormalizeControllers cs -> SetPendingControllers o' cs' = inl (o', false).
Proof using Type.
  unfold SetPendingControllers. destruct (Marshal_PendingControllers _) as [value|] eqn:Em; [|done].
  destruct (AddAnnotation o _ _) as [[o1 ch]|] eqn:Ea; [|done]. intros [= <- <-].
  apply AddAnnotation_spec in Ea as [-> _]. split_and!.
  - unfold GetPendingControllers. simpl. rewrite lookup_insert_eq.
    rewrite (PendingControllers_roundtrip _ _ Em). by rewrite NormalizeControllers_idemp.
  - by exists value.
  - intros cs' ->. rewrite Em, AddAnnotation_again; [done|done|]. simpl. apply lookup_insert_eq.
Qed.

Lemma removeFirst_other c g c' : c' <> c -> c' ∈ g -> c' ∈ removeFirst c g.
Proof using Type.
  intros Hc. induction g as [|x g IH]; simpl; [done|].
  intros [->|Hin]%elem_of_cons; destruct (String.eqb_spec x c) as [->|]; try done.
  - left.
  - right. by apply IH.
Qed.

Lemma removeFirst_absent c g : c ∉ g -> removeFirst c g = g.
Proof using Type.
  induction g as [|x g IH]; simpl; [done|]. rewrite not_elem_of_cons. intros [Hx Hg].
  destruct (String.eqb_spec x c) as [->|]; [done|]. by rewrite IH.
Qed.

Lemma removeFirst_NoDup c g : NoDup g -> c ∉ removeFirst c g.
Proof using Type.
  induction g as [|x g IH]; simpl; [intros _; apply not_elem_of_nil|]. rewrite NoDup_cons. intros [Hx Hg].
  destruct (String.eqb_spec x c) as [->|]; [done|]. rewrite not_elem_of_cons. split; [congruence|auto].
Qed.

Definition in_current_group (c : string) (cs : PendingControllers) : Prop :=
  match cs with [] => True | g :: _ => c ∈ g end.

Lemma fulfilled_spec o c cs : GetPendingControllers o = inl cs ->
  exists b, ControllerDependenciesFulfilled o c = inl b /\ (b = true <-> in_current_group c cs).
Proof using Type.
  intros Ho. unfold ControllerDependenciesFulfilled. rewrite Ho. destruct cs as [|g rest]; [by exists true|].
  eexists. split; [done|]. rewrite existsb_exists. simpl. split.
  - intros (x & Hx & He). apply String.eqb_eq in He as ->. by apply list_elem_of_In.
  - intros Hc. exists c. by rewrite String.eqb_refl, <- list_elem_of_In.
Qed.

(** The groups left for [c] after it finished. *)
Definition remaining (c : string) (downstream : bool) (all : PendingControllers)
    (g : list string) (rest : PendingControllers) : PendingControllers :=
  removeFirst c g :: if downstream then GetDownstreamControllers all c else rest.

(** After [c] finished, it is not in the current group. *)
Lemma remaining_head c downstream all g rest : NoDup g ->
  (forall g', g' ∈ (if (downstream : bool) then GetDownstreamControllers all c else rest) -> c ∉ g') ->
  match NormalizeControllers (remaining c downstream all g rest) with
  | [] => True
  | g1 :: _ => c ∉ g1 /\ (removeFirst c g <> [] -> g1 = removeFirst c g)
  end.
Proof using Type.
  intros Hnd Hrest. rewrite NormalizeControllers_filter. unfold remaining.
  set (rest' := if downstream then _ else rest) in *. destruct (removeFirst c g) as [|x l] eqn:E.
  - rewrite filter_cons, decide_False by (intros Hne; by apply Hne).
    destruct (filter _ rest') as [|g1 r1] eqn:Ef; [done|]. split; [|done]. apply Hrest.
    assert (Hin : g1 ∈ filter (fun g => g <> []) rest') by (rewrite Ef; left).
    by apply list_elem_of_filter in Hin as [_ Hin].
  - rewrite filter_cons, decide_True by done. split; [|done]. rewrite <- E. by apply removeFirst_NoDup.
Qed.

(** [c] runs once: it is in no later group. *)
Definition runs_once (c : string) (cs : PendingControllers) : Prop :=
  NoDup (hd [] cs) /\ forall g, g ∈ tail cs -> c ∉ g.

Lemma UpdatePendingControllers_spec o c (downstream : bool) all cs o' changed :
  GetPendingControllers o = inl cs -> NoDup (hd [] cs) ->
  (forall g, g ∈ (if downstream then GetDownstreamControllers all c else tail cs) -> c ∉ g) ->
  UpdatePendingControllers o c downstream all = inl (o', changed) ->
  GetPendingControllers o' = inl (NormalizeControllers (remaining c downstream all (hd [] cs) (tail cs))) /\
  UpdatePendingControllers o' c false all = inl (o', false) /\
  exists a, o' = SetAnnotations o (<[PendingControllersAnnotation := a]> (fo_Annotations o)).
Proof using Type.
  intros Hg Hnd Hrest Hup. unfold UpdatePendingControllers in Hup. rewrite Hg in Hup.
  assert (Hup' : SetPendingControllers o (remaining c downstream all (hd [] cs) (tail cs)) = inl (o', changed))
    by (by destruct cs).
  apply SetPendingControllers_spec in Hup' as (Hget & Hset & Hagain). split; [done|]. split; [|done].
  unfold UpdatePendingControllers. rewrite Hget.
  pose proof (remaining_head c downstream all (hd [] cs) (tail cs) Hnd Hrest) as Hhead.
  pose proof (NormalizeControllers_idemp (remaining c downstream all (hd [] cs) (tail cs))) as Hidemp.
  destruct (NormalizeControllers (remaining _ _ _ _ _)) as [|g1 r1]; apply Hagain; [done|].
  by rewrite removeFirst_absent by apply Hhead.
Qed.

(** When a controller of the current group finishes, it is removed from the
    group, the other controllers of the group may still run, and it may run
    again only if nothing is left pending; finishing a second time changes
    nothing. *)
Theorem UpdatePendingControllers_handoff o c (downstream : bool) all g rest o' changed :
  GetPendingControllers o = inl (g :: rest) -> NoDup g ->
  (forall g', g' ∈ (if downstream then GetDownstreamControllers all c else rest) -> c ∉ g') ->
  UpdatePendingControllers o c downstream all = inl (o', changed) ->
  GetPendingControllers o' = inl (NormalizeControllers (remaining c downstream all g rest)) /\
  (forall c', c' <> c -> c' ∈ g -> ControllerDependenciesFulfilled o' c' = inl true) /\
  (ControllerDependenciesFulfilled o' c = inl true ->
   NormalizeControllers (remaining c downstream all g rest) = []) /\
  UpdatePendingControllers o' c false all = inl (o', false).
Proof using Type.
  intros Hg Hnd Hrest Hup.
  destruct (UpdatePendingControllers_spec o c downstream all (g :: rest) o' changed Hg Hnd Hrest Hup)
    as (Hget & Hagain & _). simpl in Hget.
  pose proof (remaining_head c downstream all g rest Hnd Hrest) as Hhead. split_and!; [done| | |done].
  - intros c' Hc' Hin. destruct (fulfilled_spec _ c' _ Hget) as (b & -> & Hb). f_equal. apply Hb.
    pose proof (removeFirst_other c g c' Hc' Hin) as Hr. destruct (NormalizeControllers _); [done|]. simpl.
    destruct Hhead as [_ ->]; [done|]. intros E. rewrite E in Hr. by apply elem_of_nil in Hr.
  - destruct (fulfilled_spec _ c _ Hget) as (b & -> & Hb). intros [= Hf]. apply Hb in Hf.
    destruct (NormalizeControllers _); [done|]. by destruct Hhead.
Qed.
End Pending.

(** ** Concrete inputs *)

Section Witnesses.
#[local] Existing Instance small_kubernetes.
#[local] Existing Instance small_runtime.
#[local] Existing Instance small_codecs.

(** A federated deployment with the scheduler and an override controller. *)
Definition spec0 : GenericFederatedObjectSpec := {|
  Template := decimal 9; Follows := [];
  Placements := [ {| pwc_Controller := "x"; Placement := [ {| cref_Cluster := "c" |} ] |};
                  {| pwc_Controller := PrefixedGlobalSchedulerName; Placement := [ {| cref_Cluster := "a" |} ] |} ];
  Overrides := [ {| owc_Controller := "y"; Override := [] |} ]
|}.

Definition fed0 (groups : list (list string)) : FederatedObject := {|
  fo_Namespace := "default"; fo_Name := "web"; fo_Labels := ∅;
  fo_Annotations := {[ PendingControllersAnnotation := decimal (Z.pos (encode groups)) ]};
  fo_OwnerReferences := []; fo_Generation := 1; fo_DeletionTimestamp := None;
  fo_Finalizers := []; fo_Spec := spec0; fo_Status := empty_status
|}.

Lemma SetControllerPlacement_correct_witness :
  exists spec' changed,
    SetControllerPlacement spec0 PrefixedGlobalSchedulerName ["b"; "a"]%string = (spec', changed) /\
    placed PrefixedGlobalSchedulerName ["b"; "a"]%string spec0 spec' changed.
Proof.
  pose proof (SetControllerPlacement_correct PrefixedGlobalSchedulerName ["b"; "a"]%string spec0) as H.
  destruct (SetControllerPlacement _ _ _) as [spec' changed]. exists spec', changed. split; [reflexivity|].
  apply H. apply (bool_decide_eq_true _). vm_compute. reflexivity.
Defined.

Lemma SetControllerOverrides_correct_witness :
  let o n := {| crp_Cluster := n; Patches := [] |} in
  exists spec' changed,
    SetControllerOverrides spec0 "y" [o "b"; o "a"]%string = (spec', changed) /\
    overridden "y" [o "b"; o "a"]%string spec0 spec' changed.
Proof.
  intros o. pose proof (SetControllerOverrides_correct "y" [o "b"; o "a"]%string spec0) as H.
  destruct (SetControllerOverrides _ _ _) as [spec' changed]. exists spec', changed. split; [reflexivity|].
  apply H; apply (bool_decide_eq_true _); vm_compute; reflexivity.
Defined.

Lemma UpdatePendingControllers_handoff_witness :
  exists o' changed,
    UpdatePendingControllers (fed0 [["s"; "t"]; ["u"]]%string) "s" false [] = inl (o', changed) /\
    GetPendingControllers o' = inl [["t"]; ["u"]]%string.
Proof.
  destruct (UpdatePendingControllers (fed0 [["s"; "t"]; ["u"]]%string) "s" false []) as [[o' ch]|] eqn:E;
    [|vm_compute in E; discriminate E].
  exists o', ch. split; [reflexivity|].
  refine (proj1 (UpdatePendingControllers_handoff _ "s" false [] ["s"; "t"]%string [["u"]]%string _ _ _ _ _ E)).
  - vm_compute. reflexivity.
  - apply (bool_decide_eq_true _). vm_compute. reflexivity.
  - intros g' Hg. each_member. apply (bool_decide_eq_true _). vm_compute. reflexivity.
Defined.
End Witnesses.
