(* ===== verification/Resources.v ===== *)
(** * Resource arithmetic ([framework/util.go])

    [Resource] accumulates the quantities of a [ResourceList]; the loops over
    the list visit it in the order of the Go runtime.  [amount] reads a
    resource by name; the lemmas describe every operation by what it does to
    each amount, which makes them independent of the order. *)

From Stdlib Require Import ZArith Lia String.
From S2P Require Import Prelude GoStrings K8s Types.

Definition ResourceGPU : string := "nvidia.com/gpu".

Definition DefaultMilliCPURequest : Z := 100.
Definition DefaultMemoryRequest : Z := 200 * 1024 * 1024.
Definition MaxClusterScore : Z := 100.
Definition DefaultRatio : Z := 1.

Definition DefaultRequestedRatioResources : gmap string Z :=
  {[ ResourceMemory := 1; ResourceCPU := 1; ResourceGPU := 4 ]}.

(** ** Names *)

Definition IsPrefixedNativeResource (name : string) : bool :=
  Contains name ResourceDefaultNamespacePrefix.
Definition IsNativeResource (name : string) : bool :=
  negb (Contains name "/") || IsPrefixedNativeResource name.
Definition IsAttachableVolumeResourceName (name : string) : bool :=
  HasPrefix name ResourceAttachableVolumesPrefix.
Definition IsHugePageResourceName (name : string) : bool :=
  HasPrefix name ResourceHugePagesPrefix.

(** The error of [Resource.Sub], one constructor per message. *)
Inductive SubError :=
  | CPUDifference (remain got : Z)
  | MemoryDifference (remain got : Z)
  | StorageDifference (remain got : Z)
  | ScalarMissing (name : string) (got : Z)
  | ScalarDifference (name : string) (remain got : Z).

Section Resources.
Context `{K : Kubernetes} `{R : GoRuntime}.

Definition IsExtendedResourceName (name : string) : bool :=
  if IsNativeResource name || HasPrefix name DefaultResourceRequestsPrefix then false
  else IsQualifiedName (DefaultResourceRequestsPrefix ++ name).

Definition IsScalarResourceName (name : string) : bool :=
  IsExtendedResourceName name || IsHugePageResourceName name ||
  IsPrefixedNativeResource name || IsAttachableVolumeResourceName name.

(** ** The operations of [Resource] *)

Definition emptyResource : Resource :=
  {| MilliCPU := 0; Memory := 0; EphemeralStorage := 0; ScalarResources := None |}.

(** Reading a map that may be nil. *)
Definition getScalar (r : Resource) (name : string) : Z :=
  match ScalarResources r with Some m => mget m name | None => 0 end.

Definition SetScalar (r : Resource) (name : string) (quantity : Z) : Resource :=
  {| MilliCPU := MilliCPU r; Memory := Memory r; EphemeralStorage := EphemeralStorage r;
     ScalarResources := Some (<[name := quantity]> (default ∅ (ScalarResources r))) |}.

Definition AddScalar (r : Resource) (name : string) (quantity : Z) : Resource :=
  SetScalar r name (getScalar r name +! quantity).

Definition setMilliCPU (r : Resource) (v : Z) : Resource :=
  {| MilliCPU := v; Memory := Memory r; EphemeralStorage := EphemeralStorage r;
     ScalarResources := ScalarResources r |}.
Definition setMemory (r : Resource) (v : Z) : Resource :=
  {| MilliCPU := MilliCPU r; Memory := v; EphemeralStorage := EphemeralStorage r;
     ScalarResources := ScalarResources r |}.
Definition setEphemeralStorage (r : Resource) (v : Z) : Resource :=
  {| MilliCPU := MilliCPU r; Memory := Memory r; EphemeralStorage := v;
     ScalarResources := ScalarResources r |}.

(** The body of the loop of [Add]. *)
Definition Add_step (r : Resource) (e : string * Quantity) : Resource :=
  let '(rName, rQuant) := e in
  if String.eqb rName ResourceCPU then setMilliCPU r (MilliCPU r +! MilliValue rQuant)
  else if String.eqb rName ResourceMemory then setMemory r (Memory r +! Value rQuant)
  else if String.eqb rName ResourceEphemeralStorage then
    setEphemeralStorage r (EphemeralStorage r +! Value rQuant)
  else if IsScalarResourceName rName then AddScalar r rName (Value rQuant)
  else r.

Definition Add (r : Resource) (rl : ResourceList) : Resource := foldl Add_step r (range_map rl).

Definition NewResource (rl : ResourceList) : Resource := Add emptyResource rl.

(** The body of the loop of [Sub].  Writing into the nil [ScalarResources]
    panics. *)
Definition Sub_step (r : Resource) (rName : string) (rQuant : Quantity) : outcome SubError Resource :=
  if String.eqb rName ResourceCPU then
    let cpu := MilliValue rQuant in
    if MilliCPU r <? cpu then Err (CPUDifference (MilliCPU r) cpu)
    else Ok (setMilliCPU r (MilliCPU r -! cpu))
  else if String.eqb rName ResourceMemory then
    let mem := Value rQuant in
    if Memory r <? mem then Err (MemoryDifference (Memory r) mem)
    else Ok (setMemory r (Memory r -! mem))
  else if String.eqb rName ResourceEphemeralStorage then
    let storage := Value rQuant in
    if EphemeralStorage r <? storage then Err (StorageDifference (EphemeralStorage r) storage)
    else Ok (setEphemeralStorage r (EphemeralStorage r -! storage))
  else if IsScalarResourceName rName then
    let rScalar := getScalar r rName in
    let ok := match ScalarResources r with Some m => bool_decide (is_Some (m !! rName)) | None => false end in
    let scalar := Value rQuant in
    if negb ok && (0 <? scalar) then Err (ScalarMissing rName scalar)
    else if rScalar <? scalar then Err (ScalarDifference rName rScalar scalar)
    else match ScalarResources r with
         | None => Panic
         | Some _ => Ok (SetScalar r rName (rScalar -! scalar))
         end
  else Ok r.

(** [Sub] returns at the first error; what was subtracted before stays
    subtracted in the receiver, which is returned with the error. *)
Fixpoint Sub_loop (r : Resource) (l : list (string * Quantity)) : outcome (Resource * SubError) Resource :=
  match l with
  | [] => Ok r
  | (rName, rQuant) :: l' =>
      match Sub_step r rName rQuant with
      | Ok r' => Sub_loop r' l'
      | Err e => Err (r, e)
      | Panic => Panic
      end
  end.

Definition Sub (r : Resource) (rl : ResourceList) : outcome (Resource * SubError) Resource :=
  Sub_loop r (range_map rl).

(** [Resource.ResourceList]. *)
Definition Resource_ResourceList (r : Resource) : ResourceList :=
  let result : ResourceList :=
    <[ResourceCPU := NewMilliQuantity (MilliCPU r) DecimalSI]>
    (<[ResourceMemory := NewQuantity (Memory r) BinarySI]>
    (<[ResourceEphemeralStorage := NewQuantity (EphemeralStorage r) BinarySI]> ∅)) in
  foldl (fun result '(rName, rQuant) =>
    if IsHugePageResourceName rName then <[rName := NewQuantity rQuant BinarySI]> result
    else <[rName := NewQuantity rQuant DecimalSI]> result)
    result (range_map (default ∅ (ScalarResources r))).

Definition Clone (r : Resource) : Resource :=
  {| MilliCPU := MilliCPU r; Memory := Memory r; EphemeralStorage := EphemeralStorage r;
     ScalarResources := match ScalarResources r with
                        | Some m => Some (foldl (fun acc '(k, v) => <[k := v]> acc) ∅ (range_map m))
                        | None => None
                        end |}.

Definition SetMaxResource_step (r : Resource) (e : string * Quantity) : Resource :=
  let '(rName, rQuantity) := e in
  if String.eqb rName ResourceMemory then
    if Memory r <? Value rQuantity then setMemory r (Value rQuantity) else r
  else if String.eqb rName ResourceCPU then
    if MilliCPU r <? MilliValue rQuantity then setMilliCPU r (MilliValue rQuantity) else r
  else if String.eqb rName ResourceEphemeralStorage then
    if EphemeralStorage r <? Value rQuantity then setEphemeralStorage r (Value rQuantity) else r
  else if IsScalarResourceName rName then
    if getScalar r rName <? Value rQuantity then SetScalar r rName (Value rQuantity) else r
  else r.

Definition SetMaxResource (r : Resource) (rl : ResourceList) : Resource :=
  foldl SetMaxResource_step r (range_map rl).

Definition HasScalarResource (r : Resource) (name : string) : bool :=
  match ScalarResources r with
  | None => false
  | Some m => bool_decide (is_Some (m !! name))
  end.

Definition katalystResourceNames : gset string :=
  {[ ReclaimedResourceMilliCPU; ReclaimedResourceMemory; ResourceNetBandwidth ]}.

Definition GetKatalystResources (r : Resource) : gmap string Z :=
  filter (fun '(name, _) => name ∈ katalystResourceNames) (default ∅ (ScalarResources r)).

(** ** The request of a pod *)

(** The parts of [corev1.Pod] that matter: the requests of the containers. *)
Record Pod := {
  Containers : list ResourceList;
  InitContainers : list ResourceList;
  Overhead : option ResourceList
  }.

Definition GetResourceRequest (pod : Pod) : Resource :=
  let result := foldl Add emptyResource (Containers pod) in
  let result := foldl SetMaxResource result (InitContainers pod) in
  match Overhead pod with
  | Some overhead => Add result overhead
  | None => result
  end.

Definition GetNonzeroRequestForResource (resource : string) (requests : ResourceList) : Z :=
  if String.eqb resource ResourceCPU then
    match requests !! ResourceCPU with None => DefaultMilliCPURequest | Some q => MilliValue q end
  else if String.eqb resource ResourceMemory then
    match requests !! ResourceMemory with None => DefaultMemoryRequest | Some q => Value q end
  else if String.eqb resource ResourceEphemeralStorage then
    match requests !! ResourceEphemeralStorage with None => 0 | Some q => Value q end
  else if IsScalarResourceName resource then
    match requests !! resource with None => 0 | Some q => Value q end
  else 0.

Definition GetNonzeroRequests (requests : ResourceList) : Z * Z :=
  (GetNonzeroRequestForResource ResourceCPU requests,
   GetNonzeroRequestForResource ResourceMemory requests).

(** [calculateResource]: the request with the non-zero cpu and memory. *)
Definition calculateResource (pod : Pod) : Resource * Z * Z :=
  let '(res, cpu, mem) :=
    foldl (fun '(res, cpu, mem) c =>
      let '(cpuReq, memReq) := GetNonzeroRequests c in
      (Add res c, cpu +! cpuReq, mem +! memReq)) (emptyResource, 0, 0) (Containers pod) in
  let '(res, cpu, mem) :=
    foldl (fun '(res, cpu, mem) ic =>
      let '(cpuReq, memReq) := GetNonzeroRequests ic in
      (SetMaxResource res ic, if cpu <? cpuReq then cpuReq else cpu,
       if mem <? memReq then memReq else mem)) (res, cpu, mem) (InitContainers pod) in
  match Overhead pod with
  | None => (res, cpu, mem)
  | Some overhead =>
      (Add res overhead,
       match overhead !! ResourceCPU with Some q => cpu +! MilliValue q | None => cpu end,
       match overhead !! ResourceMemory with Some q => mem +! Value q | None => mem end)
  end.
End Resources.

(** ** Normalisation of scores *)

Section Scores.
Context `{K : Kubernetes}.

Definition setScore (s : ClusterScore) (v : Z) : ClusterScore :=
  {| cs_Cluster := cs_Cluster s; Score := v |}.

(** [DefaultNormalizeScore] changes the scores of the slice in place; it always
    returns nil. *)
Definition DefaultNormalizeScore (maxPriority : Z) (reverse : bool)
    (scores : list ClusterScore) : list ClusterScore :=
  let maxCount := foldl (fun m s => if m <? Score s then Score s else m) 0 scores in
  if maxCount =? 0 then
    if reverse then (fun s => setScore s maxPriority) <$> scores else scores
  else
    (fun s =>
       let score := maxPriority *! Score s /! maxCount in
       setScore s (if reverse then maxPriority -! score else score)) <$> scores.

Definition ExtractClusterNames (clusters : list FederatedCluster) : list string :=
  c_Name <$> clusters.
End Scores.

Definition MaxInt64 (a b : Z) : Z := if b <? a then a else b.
Definition MinInt64 (a b : Z) : Z := if a <? b then a else b.
