(* ===== verification/ResourceTheorems.v ===== *)
(** * The theorems about resource arithmetic and score normalisation *)

From Stdlib Require Import ZArith Lia String.
From S2P Require Import Prelude K8s Types Resources.

(** * Properties of the resource arithmetic *)

Section Facts.
Context `{K : Kubernetes} `{R : GoRuntime}.

(** The amount of the resource called [n]. *)
Definition amount (r : Resource) (n : string) : Z :=
  if String.eqb n ResourceCPU then MilliCPU r
  else if String.eqb n ResourceMemory then Memory r
  else if String.eqb n ResourceEphemeralStorage then EphemeralStorage r
  else getScalar r n.

(** What a quantity of [n] counts as: cpu is counted in milli-units. *)
Definition quant (n : string) (q : Quantity) : Z :=
  if String.eqb n ResourceCPU then MilliValue q else Value q.

(** The names a [Resource] keeps track of. *)
Definition tracked (n : string) : bool :=
  String.eqb n ResourceCPU || String.eqb n ResourceMemory ||
  String.eqb n ResourceEphemeralStorage || IsScalarResourceName n.

(** What a list requests of [n]. *)
Definition request (n : string) (rl : ResourceList) : Z :=
  if tracked n then match rl !! n with Some q => quant n q | None => 0 end else 0.

Lemma quant_int64 n q : int64 (quant n q).
Proof using Type. unfold quant. destruct (_ =? _)%string; auto using Value_int64, MilliValue_int64. Qed.

Ltac by_name n :=
  unfold amount, quant, tracked;
  destruct (String.eqb n ResourceCPU) eqn:?; [z_bools; subst n|];
  [|destruct (String.eqb n ResourceMemory) eqn:?; [z_bools; subst n|];
    [|destruct (String.eqb n ResourceEphemeralStorage) eqn:?; [z_bools; subst n|]]].

Lemma amount_setMilliCPU r v n :
  amount (setMilliCPU r v) n = if decide (n = ResourceCPU) then v else amount r n.
Proof using Type. by_name n; simpl; z_bools; by rewrite ?decide_False, ?decide_True by done. Qed.

Lemma amount_setMemory r v n :
  amount (setMemory r v) n = if decide (n = ResourceMemory) then v else amount r n.
Proof using Type. by_name n; simpl; z_bools; by rewrite ?decide_False, ?decide_True by done. Qed.

Lemma amount_setEphemeralStorage r v n :
  amount (setEphemeralStorage r v) n =
  if decide (n = ResourceEphemeralStorage) then v else amount r n.
Proof using Type. by_name n; simpl; z_bools; by rewrite ?decide_False, ?decide_True by done. Qed.

Lemma getScalar_SetScalar r k v n :
  getScalar (SetScalar r k v) n = if decide (n = k) then v else getScalar r n.
Proof using Type.
  unfold getScalar, SetScalar, mget. simpl. case_decide as E.
  - subst. by rewrite lookup_insert_eq.
  - rewrite lookup_insert_ne by done. by destruct (ScalarResources r).
Qed.

(** Names other than the three native ones are kept in [ScalarResources]. *)
Definition scalar_name (k : string) : Prop :=
  k <> ResourceCPU /\ k <> ResourceMemory /\ k <> ResourceEphemeralStorage.

Lemma amount_scalar r k : scalar_name k -> amount r k = getScalar r k.
Proof using Type. intros (? & ? & ?). unfold amount. by rewrite !(proj2 (String.eqb_neq _ _)). Qed.

Lemma quant_scalar k q : scalar_name k -> quant k q = Value q.
Proof using Type. intros (? & ? & ?). unfold quant. by rewrite (proj2 (String.eqb_neq _ _)). Qed.

Lemma amount_SetScalar r k v n : scalar_name k ->
  amount (SetScalar r k v) n = if decide (n = k) then v else amount r n.
Proof using Type.
  intros (H1 & H2 & H3). unfold amount. rewrite getScalar_SetScalar.
  by_name n; simpl; z_bools; try done; by rewrite decide_False by done.
Qed.

(** [Add_step] and its relatives treat a name in one of five ways. *)
Lemma name_cases (k : string) :
  k = ResourceCPU \/ k = ResourceMemory \/ k = ResourceEphemeralStorage \/ scalar_name k.
Proof using Type.
  unfold scalar_name. destruct (decide (k = ResourceCPU)), (decide (k = ResourceMemory)),
    (decide (k = ResourceEphemeralStorage)); tauto.
Qed.

Lemma if_scalar_name {A} k (a b c d : A) : scalar_name k ->
  (if String.eqb k ResourceCPU then a else if String.eqb k ResourceMemory then b
   else if String.eqb k ResourceEphemeralStorage then c else d) = d.
Proof using Type. intros (? & ? & ?). by rewrite !(proj2 (String.eqb_neq _ _)). Qed.

Lemma tracked_scalar k : scalar_name k -> tracked k = IsScalarResourceName k.
Proof using Type. intros (? & ? & ?). unfold tracked. by rewrite !(proj2 (String.eqb_neq _ _)). Qed.

Lemma Add_step_amount r k q n :
  amount (Add_step r (k, q)) n =
  if decide (n = k) then (if tracked k then amount r n +! quant k q else amount r n)
  else amount r n.
Proof using Type.
  destruct (name_cases k) as [->|[->|[->|Hk]]]; simpl.
  - rewrite amount_setMilliCPU. case_decide; [by subst|done].
  - rewrite amount_setMemory. case_decide; [by subst|done].
  - rewrite amount_setEphemeralStorage. case_decide; [by subst|done].
  - rewrite if_scalar_name, tracked_scalar, quant_scalar by done.
    destruct (IsScalarResourceName k); [|by case_decide].
    unfold AddScalar. rewrite amount_SetScalar by done.
    case_decide; [subst; by rewrite amount_scalar|done].
Qed.

(** [Add] adds to every amount what the list requests of it. *)
Lemma Add_amount r rl n :
  amount (Add r rl) n =
  if tracked n then match rl !! n with Some q => amount r n +! quant n q | None => amount r n end
  else amount r n.
Proof using Type.
  unfold Add. rewrite (foldl_point amount
    (fun k a q => if tracked k then a +! quant k q else a) Add_step).
  - destruct (rl !! n), (tracked n); done.
  - apply Add_step_amount.
Qed.

Lemma SetMax_step_amount r k q n :
  amount (SetMaxResource_step r (k, q)) n =
  if decide (n = k) then (if tracked k then Z.max (amount r n) (quant k q) else amount r n)
  else amount r n.
Proof using Type.
  destruct (name_cases k) as [->|[->|[->|Hk]]]; simpl.
  - destruct (_ <? _) eqn:E; z_bools; rewrite ?amount_setMilliCPU; case_decide; try done; subst;
      unfold amount, quant; simpl; lia.
  - destruct (_ <? _) eqn:E; z_bools; rewrite ?amount_setMemory; case_decide; try done; subst;
      unfold amount, quant; simpl; lia.
  - destruct (_ <? _) eqn:E; z_bools; rewrite ?amount_setEphemeralStorage; case_decide; try done; subst;
      unfold amount, quant; simpl; lia.
  - pose proof Hk as (H1 & H2 & H3). rewrite !(proj2 (String.eqb_neq _ _)) by done.
    rewrite tracked_scalar, quant_scalar by done.
    destruct (IsScalarResourceName k); [|by case_decide].
    destruct (_ <? _) eqn:E; z_bools; rewrite ?amount_SetScalar by done; case_decide; try done; subst;
      rewrite ?amount_scalar by done; lia.
Qed.

Lemma SetMaxResource_amount r rl n :
  amount (SetMaxResource r rl) n =
  if tracked n then match rl !! n with Some q => Z.max (amount r n) (quant n q) | None => amount r n end
  else amount r n.
Proof using Type.
  unfold SetMaxResource. rewrite (foldl_point amount
    (fun k a q => if tracked k then Z.max a (quant k q) else a) SetMaxResource_step).
  - destruct (rl !! n), (tracked n); done.
  - apply SetMax_step_amount.
Qed.

Lemma amount_empty n : amount emptyResource n = 0.
Proof using Type. by_name n; done. Qed.

(** ** Subtraction *)

(** [Sub] can write scalar amounts: the map is allocated, or not needed. *)
Definition allocated (r : Resource) (rl : ResourceList) : Prop :=
  is_Some (ScalarResources r) \/
  forall k q, rl !! k = Some q -> scalar_name k -> IsScalarResourceName k = false.

(** What a step does when it succeeds, and when it does. *)
Lemma Sub_step_amount r k q :
  match Sub_step r k q with
  | Ok r' => (tracked k = true -> quant k q <= amount r k) /\
      (is_Some (ScalarResources r) -> is_Some (ScalarResources r')) /\
      forall n, amount r' n =
        if decide (n = k) then (if tracked k then amount r n -! quant k q else amount r n)
        else amount r n
  | Err _ => tracked k = true /\ (amount r k < quant k q \/
      (scalar_name k /\ 0 < quant k q /\ amount r k = 0))
  | Panic => ScalarResources r = None /\ scalar_name k /\ IsScalarResourceName k = true /\
      quant k q <= 0
  end.
Proof using Type.
  unfold Sub_step. destruct (name_cases k) as [->|[->|[->|Hk]]]; simpl.
  - destruct (_ <? _) eqn:E; z_bools; [by auto|]. split_and!; [by intros|done|].
    intros n. rewrite amount_setMilliCPU. case_decide; [by subst|done].
  - destruct (_ <? _) eqn:E; z_bools; [by auto|]. split_and!; [by intros|done|].
    intros n. rewrite amount_setMemory. case_decide; [by subst|done].
  - destruct (_ <? _) eqn:E; z_bools; [by auto|]. split_and!; [by intros|done|].
    intros n. rewrite amount_setEphemeralStorage. case_decide; [by subst|done].
  - rewrite if_scalar_name, tracked_scalar, quant_scalar, amount_scalar by done.
    destruct (IsScalarResourceName k) eqn:Es; [|split_and!; [done|done|]; intros; by case_decide].
    destruct (negb _ && _) eqn:E1; z_bools.
    { split; [done|]. right. split_and!; [done..|]. unfold getScalar, mget.
      destruct (ScalarResources r); [|done]. z_bools.
      destruct (_ !! k); [|done]. destruct H. eauto. }
    clear E1. destruct (getScalar r k <? Value q) eqn:E2; z_bools; [by auto|].
    destruct (ScalarResources r) eqn:Er.
    + split_and!; [done|done|]. intros n. rewrite amount_SetScalar by done.
      case_decide; [subst; by rewrite amount_scalar|done].
    + split_and!; [done..|]. unfold getScalar in E2. rewrite Er in E2. lia.
Qed.

(** A request of [rl] fits into [r]. *)
Definition sufficient (r : Resource) (l : list (string * Quantity)) : Prop :=
  forall k q, (k, q) ∈ l -> tracked k = true -> 0 <= quant k q <= amount r k.

Lemma Sub_loop_ok r l :
  NoDup l.*1 -> sufficient r l ->
  (is_Some (ScalarResources r) \/
   forall k q, (k, q) ∈ l -> scalar_name k -> IsScalarResourceName k = false) ->
  exists r', Sub_loop r l = Ok r' /\ forall n, amount r' n =
    match (list_to_map l : gmap string Quantity) !! n with
    | Some q => if tracked n then amount r n -! quant n q else amount r n
    | None => amount r n
    end.
Proof using Type.
  revert r. induction l as [|[k q] l IH]; intros r; [by exists r|].
  rewrite fmap_cons, NoDup_cons. intros [Hk Hnd] Hs Ha. simpl.
  pose proof (Sub_step_amount r k q) as Hstep.
  assert (Hkq : tracked k = true -> 0 <= quant k q <= amount r k) by (apply Hs; left).
  destruct (Sub_step r k q) as [r1|e|].
  - destruct Hstep as (_ & Hsome & Hr1). destruct (IH r1 Hnd) as (r' & Hr' & Hn).
    + intros k' q' Hin Ht. rewrite Hr1. rewrite decide_False.
      * apply Hs; [by right|done].
      * intros ->. apply Hk. by apply (list_elem_of_fmap_2 fst l (k, q')).
    + destruct Ha as [Ha|Ha]; [auto|right]. intros k' q' Hin. apply Ha with q'. by right.
    + exists r'. split; [done|]. intros n. rewrite Hn, Hr1. case_decide as E.
      * subst n. rewrite lookup_insert_eq.
        by rewrite (not_elem_of_list_to_map_1 (M := gmap string) l k Hk).
      * by rewrite lookup_insert_ne by done.
  - destruct Hstep as [Ht [Hlt|(_ & Hpos & Hz)]]; specialize (Hkq Ht); lia.
  - destruct Hstep as (Hnone & Hsc & His & Hz). exfalso. rewrite Hnone in Ha.
    destruct Ha as [[? [=]]|Ha]. rewrite (Ha k q) in His; [done|left|done].
Qed.

(** On an error the receiver has lost the requests visited before it. *)
Lemma Sub_loop_err r l r' e :
  NoDup l.*1 -> Sub_loop r l = Err (r', e) ->
  (exists k q, (k, q) ∈ l /\ tracked k = true /\
     (amount r k < quant k q \/ scalar_name k /\ 0 < quant k q /\ amount r k = 0)) /\
  forall n, amount r' n = amount r n \/
    exists q, (n, q) ∈ l /\ tracked n = true /\ quant n q <= amount r n /\
      amount r' n = amount r n -! quant n q.
Proof using Type.
  revert r. induction l as [|[k q] l IH]; intros r; [done|].
  rewrite fmap_cons, NoDup_cons. intros [Hk Hnd]. simpl.
  pose proof (Sub_step_amount r k q) as Hstep.
  destruct (Sub_step r k q) as [r1|e1|]; [|intros [= <- <-]|done].
  - destruct Hstep as (Hle & _ & Hr1). intros Hl. destruct (IH r1 Hnd Hl) as [(k' & q' & Hin & Ht & Hlt) Hn].
    assert (Hne : forall k' q', (k', q') ∈ l -> k' <> k).
    { intros k0 q0 Hin0 ->. apply Hk. by apply (list_elem_of_fmap_2 fst l (k, q0)). }
    split.
    + exists k', q'. rewrite Hr1, decide_False in Hlt by (by eapply Hne). split; [by right|done].
    + intros n. destruct (decide (n = k)) as [->|Hnk].
      * destruct (Hn k) as [Hn'|(q0 & Hin0 & _)]; [|by destruct (Hne _ _ Hin0)].
        rewrite Hn', Hr1, decide_True by done. destruct (tracked k) eqn:Etk; [right|by left].
        exists q. split_and!; [left|done|by apply Hle|done].
      * specialize (Hr1 n). rewrite decide_False in Hr1 by done. rewrite <- Hr1.
        destruct (Hn n) as [Hn'|(q0 & Hin0 & Hq)]; [by left|right].
        exists q0. split; [by right|done].
  - destruct Hstep as [Ht Hstep]. split; [|by left]. exists k, q. split; [left|done].
Qed.

(** ** Requests of pods *)

Lemma foldl_Add_amount rls r n :
  amount (foldl Add r rls) n =
  foldl (fun a rl => if tracked n then match rl !! n with Some q => a +! quant n q | None => a end else a)
    (amount r n) rls.
Proof using Type.
  revert r. induction rls as [|rl rls IH]; intros r; [done|]. simpl. by rewrite IH, Add_amount.
Qed.

(** Without overflow a sequence of [Add]s is a sum. *)
Lemma foldl_Add_sum rls r n :
  (forall rl, rl ∈ rls -> 0 <= request n rl) -> 0 <= amount r n ->
  amount r n + sumZ (request n) rls < 2 ^ 63 ->
  amount (foldl Add r rls) n = amount r n + sumZ (request n) rls.
Proof using Type.
  revert r. induction rls as [|rl rls IH]; intros r Hnn Hr Hs; simpl in *; [lia|].
  assert (0 <= request n rl) by (apply Hnn; left).
  assert (0 <= sumZ (request n) rls) by (apply sumZ_nonneg; intros; apply Hnn; by right).
  assert (Hadd : amount (Add r rl) n = amount r n + request n rl).
  { rewrite Add_amount. unfold request in *. destruct (tracked n); [|lia].
    destruct (rl !! n); [|lia]. apply add64_small. unfold int64. lia. }
  rewrite IH; [lia| |lia|lia]. intros. apply Hnn. by right.
Qed.

Definition maxZ (a : Z) (l : list Z) : Z := foldl Z.max a l.

Lemma foldl_SetMax_amount rls r n :
  0 <= amount r n ->
  amount (foldl SetMaxResource r rls) n = maxZ (amount r n) (request n <$> rls).
Proof using Type.
  revert r. induction rls as [|rl rls IH]; intros r Hr; [done|]. simpl.
  assert (H : amount (SetMaxResource r rl) n = Z.max (amount r n) (request n rl)).
  { rewrite SetMaxResource_amount. unfold request. destruct (tracked n); [|lia].
    destruct (rl !! n); [done|lia]. }
  rewrite IH, H; [done|lia].
Qed.
End Facts.

Section Theorems.
Context `{K : Kubernetes} `{R : GoRuntime}.

Definition nonneg_list (rl : ResourceList) : Prop :=
  forall k q, rl !! k = Some q -> tracked k = true -> 0 <= quant k q.

(** [rl] fits into [r]. *)
Definition fits (r : Resource) (rl : ResourceList) : Prop :=
  forall k q, rl !! k = Some q -> tracked k = true -> quant k q <= amount r k.

Lemma Sub_fits r rl :
  nonneg_list rl -> allocated r rl -> fits r rl ->
  exists r', Sub r rl = Ok r' /\ forall n, amount r' n =
    match rl !! n with
    | Some q => if tracked n then amount r n -! quant n q else amount r n
    | None => amount r n
    end.
Proof using Type.
  intros Hnn Ha Hf. destruct (Sub_loop_ok r (range_map rl)) as (r' & Hr' & Hn).
  - apply NoDup_range_map_fst.
  - intros k q Hin%elem_of_range_map Ht. eauto.
  - destruct Ha as [Ha|Ha]; [by left|right]. intros k q Hin%elem_of_range_map. eauto.
  - exists r'. split; [done|]. intros n. by rewrite Hn, list_to_map_range_map.
Qed.

Lemma Sub_loop_inv r l r' :
  NoDup l.*1 -> Sub_loop r l = Ok r' ->
  forall k q, (k, q) ∈ l -> tracked k = true -> quant k q <= amount r k.
Proof using Type.
  revert r. induction l as [|[k q] l IH]; intros r; [by intros _ _ k q ?%elem_of_nil|].
  rewrite fmap_cons, NoDup_cons. intros [Hk Hnd]. simpl.
  pose proof (Sub_step_amount r k q) as Hstep. destruct (Sub_step r k q) as [r1| |]; [|done..].
  destruct Hstep as (Hle & _ & Hr1). intros Hl k' q' [[= -> ->]|Hin]%elem_of_cons Ht; [by apply Hle|].
  specialize (IH r1 Hnd Hl k' q' Hin Ht). rewrite Hr1, decide_False in IH; [done|].
  intros ->. apply Hk. by apply (list_elem_of_fmap_2 fst l (k, q')).
Qed.

Lemma Sub_loop_no_panic r l :
  (is_Some (ScalarResources r) \/
   forall k q, (k, q) ∈ l -> scalar_name k -> IsScalarResourceName k = false) ->
  Sub_loop r l <> Panic.
Proof using Type.
  revert r. induction l as [|[k q] l IH]; intros r Ha; [done|]. simpl.
  pose proof (Sub_step_amount r k q) as Hstep. destruct (Sub_step r k q) as [r1| |]; [|done|].
  - apply IH. destruct Hstep as (_ & Hs & _). destruct Ha as [Ha|Ha]; [auto|right].
    intros k' q' Hin. apply Ha with q'. by right.
  - destruct Hstep as (Hn & Hk & His & _). rewrite Hn in Ha. destruct Ha as [[? [=]]|Ha].
    rewrite (Ha k q) in His; [done|left|done].
Qed.

(** The amounts of a [Resource] are int64 values. *)
Definition wf_resource (r : Resource) : Prop := forall n, int64 (amount r n).

Lemma exact_sub r n q : wf_resource r -> 0 <= quant n q <= amount r n ->
  amount r n -! quant n q = amount r n - quant n q.
Proof using Type. intros Hr Hq. specialize (Hr n). unfold int64 in Hr. apply sub64_small. unfold int64. lia. Qed.

(** [Resource.Sub] succeeds exactly when the list fits: then every amount
    is reduced by what the list requests of it.  Otherwise it returns an error,
    and each amount of the receiver is either untouched or already reduced. *)
Theorem Sub_correct r rl :
  wf_resource r -> nonneg_list rl -> allocated r rl ->
  (fits r rl -> exists r', Sub r rl = Ok r' /\
     forall n, amount r' n = amount r n - request n rl) /\
  (~ fits r rl -> exists r' e, Sub r rl = Err (r', e) /\
     forall n, amount r' n = amount r n \/
       0 <= request n rl <= amount r n /\ amount r' n = amount r n - request n rl).
Proof using Type.
  intros Hr Hnn Ha. split.
  - intros Hf. destruct (Sub_fits r rl Hnn Ha Hf) as (r' & -> & Hn). exists r'. split; [done|].
    intros n. rewrite Hn. unfold request. destruct (rl !! n) as [q|] eqn:Eq, (tracked n) eqn:Et; try lia.
    apply exact_sub; [done|]. eauto.
  - intros Hf. destruct (Sub r rl) as [r'|[r' e]|] eqn:E.
    + destruct Hf. intros k q Hk. apply (Sub_loop_inv r (range_map rl) r'); [apply NoDup_range_map_fst|done|].
      by apply elem_of_range_map.
    + exists r', e. split; [done|]. intros n.
      destruct (Sub_loop_err r (range_map rl) r' e) as [_ Hn]; [apply NoDup_range_map_fst|done|].
      destruct (Hn n) as [|(q & Hq%elem_of_range_map & Et & Hle & Ht)]; [by left|].
      right. unfold request. rewrite Et, Hq. specialize (Hnn n q Hq Et).
      rewrite exact_sub in Ht by done. lia.
    + exfalso. apply (Sub_loop_no_panic r (range_map rl)); [|done].
      destruct Ha as [Ha|Ha]; [by left|right]. intros k q Hin%elem_of_range_map. eauto.
Qed.
(** ** Adding and subtracting *)

Lemma Add_step_some r e : is_Some (ScalarResources r) -> is_Some (ScalarResources (Add_step r e)).
Proof using Type. destruct e as [k q]. simpl. intros. repeat case_match; simpl; eauto. Qed.

Lemma foldl_Add_some l r :
  is_Some (ScalarResources r) \/
  (exists k q, (k, q) ∈ l /\ scalar_name k /\ IsScalarResourceName k = true) ->
  is_Some (ScalarResources (foldl Add_step r l)).
Proof using Type.
  revert r. induction l as [|[k q] l IH]; intros r.
  - intros [H|(k & q & H & _)]; [done|by apply elem_of_nil in H].
  - intros H. cbn [foldl]. apply IH.
    destruct H as [H|(k' & q' & [[= -> ->]|H]%elem_of_cons & Hk & Hs)].
    + left. by apply Add_step_some.
    + left. simpl. rewrite if_scalar_name, Hs by done. simpl. eauto.
    + right. eauto.
Qed.

Lemma Add_allocated r rl : allocated (Add r rl) rl.
Proof using Type.
  unfold allocated, Add.
  destruct (decide (Exists (fun e => scalar_name e.1 /\ IsScalarResourceName e.1 = true) (range_map rl)))
    as [He|He].
  - left. apply foldl_Add_some. right. apply Exists_exists in He as ([k q] & Hin & Hk).
    exists k, q. done.
  - right. intros k q Hk Hs. apply not_true_iff_false. intros Hi. apply He, Exists_exists.
    exists (k, q). by rewrite elem_of_range_map.
Qed.

Lemma Add_amount_request r rl n :
  int64 (amount r n) -> 0 <= request n rl -> amount r n + request n rl < 2 ^ 63 ->
  amount (Add r rl) n = amount r n + request n rl.
Proof using Type.
  intros Hr Hq Hb. rewrite Add_amount. unfold request in *. unfold int64 in *.
  destruct (tracked n); [|lia]. destruct (rl !! n) as [q|]; [|lia].
  apply add64_small. unfold int64. lia.
Qed.

Lemma request_nonneg rl n : nonneg_list rl -> 0 <= request n rl.
Proof using Type.
  intros Hnn. unfold request. destruct (tracked n) eqn:Et; [|lia].
  destruct (rl !! n) eqn:Eq; [eauto|lia].
Qed.

(** Adding a list of quantities and subtracting it again succeeds and gives
    back every amount. *)
Theorem Add_Sub_roundtrip r rl :
  wf_resource r -> nonneg_list rl -> (forall n, 0 <= amount r n) ->
  (forall n, amount r n + request n rl < 2 ^ 63) ->
  exists r', Sub (Add r rl) rl = Ok r' /\ forall n, amount r' n = amount r n.
Proof using Type.
  intros Hr Hnn H0 Hb.
  assert (Ha : forall n, amount (Add r rl) n = amount r n + request n rl)
    by (intros n; by apply Add_amount_request; auto using request_nonneg).
  assert (Hq : forall k q, rl !! k = Some q -> tracked k = true -> request k rl = quant k q)
    by (intros k q Hk Ht; unfold request; by rewrite Ht, Hk).
  destruct (Sub_fits (Add r rl) rl Hnn (Add_allocated r rl)) as (r' & -> & Hn).
  - intros k q Hk Ht. rewrite Ha, (Hq k q Hk Ht). specialize (H0 k). lia.
  - exists r'. split; [done|]. intros n. rewrite Hn, Ha. specialize (Hb n). specialize (H0 n).
    pose proof (Ha n) as Han. unfold request in *.
    destruct (rl !! n) as [q|] eqn:Eq, (tracked n) eqn:Et; try lia.
    specialize (Hnn n q Eq Et). rewrite sub64_small; [lia|]. unfold int64. lia.
Qed.

Lemma maxZ_le a l : a <= maxZ a l.
Proof using Type.
  unfold maxZ. revert a. induction l as [|x l IH]; intros a; simpl; [lia|].
  etrans; [|apply IH]. lia.
Qed.

Lemma maxZ_lt a l b : a < b -> (forall x, x ∈ l -> x < b) -> maxZ a l < b.
Proof using Type.
  unfold maxZ. revert a. induction l as [|x l IH]; intros a Ha Hl; simpl; [done|].
  apply IH; [|intros; apply Hl; by right]. specialize (Hl x ltac:(left)). lia.
Qed.

(** The request of a pod: for every resource the larger of the sum over the
    containers and the largest init container, plus the overhead. *)
Theorem GetResourceRequest_spec pod n :
  (forall rl, rl ∈ Containers pod ++ InitContainers pod ->
     0 <= request n rl < 2 ^ 62) ->
  sumZ (request n) (Containers pod) < 2 ^ 62 ->
  (forall rl, Overhead pod = Some rl -> 0 <= request n rl < 2 ^ 62) ->
  amount (GetResourceRequest pod) n =
    maxZ (sumZ (request n) (Containers pod)) (request n <$> InitContainers pod) +
    match Overhead pod with Some rl => request n rl | None => 0 end.
Proof using Type.
  intros Hc Hs Ho. unfold GetResourceRequest.
  assert (Hsum : amount (foldl Add emptyResource (Containers pod)) n =
    sumZ (request n) (Containers pod)).
  { rewrite foldl_Add_sum; rewrite ?amount_empty; [done| |lia|lia].
    intros rl Hrl. apply Hc. apply elem_of_app. by left. }
  assert (H0 : 0 <= sumZ (request n) (Containers pod)).
  { apply sumZ_nonneg. intros rl Hrl. apply Hc. apply elem_of_app. by left. }
  assert (Hmax : amount (foldl SetMaxResource (foldl Add emptyResource (Containers pod))
      (InitContainers pod)) n =
    maxZ (sumZ (request n) (Containers pod)) (request n <$> InitContainers pod)).
  { rewrite foldl_SetMax_amount; rewrite Hsum; done. }
  destruct (Overhead pod) as [rl|]; [|by rewrite Hmax, Z.add_0_r].
  rewrite <- Hmax. specialize (Ho rl eq_refl).
  assert (Hlt : maxZ (sumZ (request n) (Containers pod)) (request n <$> InitContainers pod) < 2 ^ 62).
  { apply maxZ_lt; [done|]. intros x (rl' & -> & Hrl)%list_elem_of_fmap.
    apply Hc, elem_of_app. by right. }
  pose proof (maxZ_le (sumZ (request n) (Containers pod)) (request n <$> InitContainers pod)).
  apply Add_amount_request; rewrite ?Hmax; unfold int64; lia.
Qed.

End Theorems.

(** ** Normalisation of scores *)

Section Normalize.
Context `{K : Kubernetes}.

Definition maxScore (scores : list ClusterScore) : Z :=
  foldl (fun m s => if m <? Score s then Score s else m) 0 scores.

Lemma maxScore_gen scores a :
  let m := foldl (fun m s => if m <? Score s then Score s else m) a scores in
  a <= m /\ (forall s, s ∈ scores -> Score s <= m) /\ (m = a \/ exists s, s ∈ scores /\ Score s = m).
Proof using Type.
  revert a. induction scores as [|s l IH]; intros a; cbn [foldl].
  - split_and!; [lia| |by left]. by intros s ?%elem_of_nil.
  - destruct (IH (if a <? Score s then Score s else a)) as (H1 & H2 & H3).
    destruct (a <? Score s) eqn:E; z_bools; split_and!.
    + lia.
    + intros x [->|Hx]%elem_of_cons; auto.
    + right. destruct H3 as [->|(x & Hx & Hs)]; [exists s|exists x]; (split; [|done]); [left|by right].
    + lia.
    + intros x [->|Hx]%elem_of_cons; [lia|auto].
    + destruct H3 as [H3|(x & Hx & Hs)]; [by left|right]. exists x. split; [by right|done].
Qed.

(** The function that [DefaultNormalizeScore] applies to every score. *)
Definition normalize (maxPriority : Z) (reverse : bool) (maxCount score : Z) : Z :=
  if maxCount =? 0 then (if reverse then maxPriority else score)
  else if reverse then maxPriority - maxPriority * score / maxCount
  else maxPriority * score / maxCount.

Lemma DefaultNormalizeScore_map maxPriority reverse scores :
  0 <= maxPriority < 2 ^ 31 -> (forall s, s ∈ scores -> 0 <= Score s < 2 ^ 31) ->
  DefaultNormalizeScore maxPriority reverse scores =
  (fun s => setScore s (normalize maxPriority reverse (maxScore scores) (Score s))) <$> scores.
Proof using Type.
  intros Hm Hs. unfold DefaultNormalizeScore. fold (maxScore scores).
  destruct (maxScore_gen scores 0) as (H0 & Hle & Hat). fold (maxScore scores) in *.
  unfold normalize. destruct (maxScore scores =? 0) eqn:E; z_bools.
  - destruct reverse; [done|]. rewrite <- list_fmap_id at 1. apply list_fmap_ext.
    intros i [c x] _. done.
  - assert (maxScore scores < 2 ^ 31).
    { destruct Hat as [->|(x & Hx & <-)]; [lia|]. by apply Hs. }
    apply list_fmap_ext. intros i s Hi.
    assert (Hin : s ∈ scores) by (by eapply list_elem_of_lookup_2).
    specialize (Hs s Hin). specialize (Hle s Hin).
    rewrite mul64_small by (unfold int64; nia).
    rewrite quot64_small; [|unfold int64; nia|nia|lia].
    destruct reverse; [|done]. f_equal. apply sub64_small.
    assert (0 <= maxPriority * Score s / maxScore scores <= maxPriority); [|unfold int64; lia].
    split; [apply Z.div_pos; nia|]. apply Z.div_le_upper_bound; nia.
Qed.

Lemma normalize_bounds maxPriority reverse maxCount score :
  0 <= maxPriority -> 0 <= score <= maxCount ->
  0 <= normalize maxPriority reverse maxCount score <= maxPriority.
Proof using Type.
  intros Hm Hs. unfold normalize. destruct (maxCount =? 0) eqn:E; z_bools; [destruct reverse; lia|].
  assert (0 <= maxPriority * score / maxCount <= maxPriority); [|destruct reverse; lia].
  split; [apply Z.div_pos; nia|]. apply Z.div_le_upper_bound; nia.
Qed.

Lemma normalize_monotone maxPriority maxCount s1 s2 :
  0 <= maxPriority -> 0 <= s1 <= s2 -> s2 <= maxCount ->
  normalize maxPriority false maxCount s1 <= normalize maxPriority false maxCount s2 /\
  normalize maxPriority true maxCount s2 <= normalize maxPriority true maxCount s1.
Proof using Type.
  intros Hm Hs Hle. unfold normalize. destruct (maxCount =? 0) eqn:E; z_bools; [lia|].
  assert (maxPriority * s1 / maxCount <= maxPriority * s2 / maxCount); [|lia].
  apply Z.div_le_mono; nia.
Qed.

(** [DefaultNormalizeScore] keeps the clusters and their positions, brings
    non-negative scores into [0, maxPriority], preserves their order, or
    reverses it when asked to, and gives [maxPriority] to the best score. *)
Theorem DefaultNormalizeScore_correct maxPriority reverse scores :
  0 <= maxPriority < 2 ^ 31 -> (forall s, s ∈ scores -> 0 <= Score s < 2 ^ 31) ->
  let res := DefaultNormalizeScore maxPriority reverse scores in
  cs_Cluster <$> res = cs_Cluster <$> scores /\
  (forall i r, res !! i = Some r -> 0 <= Score r <= maxPriority) /\
  (forall i j si sj ri rj, scores !! i = Some si -> scores !! j = Some sj ->
     res !! i = Some ri -> res !! j = Some rj -> Score si <= Score sj ->
     if reverse then Score rj <= Score ri else Score ri <= Score rj) /\
  (forall i si ri, scores !! i = Some si -> res !! i = Some ri ->
     0 < Score si -> (forall s, s ∈ scores -> Score s <= Score si) ->
     Score ri = if reverse then 0 else maxPriority).
Proof using Type.
  intros Hm Hs res. unfold res. rewrite DefaultNormalizeScore_map by done.
  destruct (maxScore_gen scores 0) as (H0 & Hle & Hat). fold (maxScore scores) in *.
  assert (Hget : forall i r, ((fun s => setScore s
      (normalize maxPriority reverse (maxScore scores) (Score s))) <$> scores) !! i = Some r ->
    exists s, scores !! i = Some s /\ s ∈ scores /\
      Score r = normalize maxPriority reverse (maxScore scores) (Score s)).
  { intros i r. rewrite list_lookup_fmap. intros (s & Hi & ->)%fmap_Some.
    exists s. split_and!; [done| |done]. by eapply list_elem_of_lookup_2. }
  split_and!.
  - rewrite <- list_fmap_compose. done.
  - intros i r (s & _ & Hin & ->)%Hget. specialize (Hs s Hin). specialize (Hle s Hin).
    apply normalize_bounds; lia.
  - intros i j si sj ri rj Hi Hj (si' & Hi' & Hin & ->)%Hget (sj' & Hj' & Hjn & ->)%Hget Hij.
    simplify_eq. pose proof (Hs si Hin). pose proof (Hle sj Hjn).
    destruct (normalize_monotone maxPriority (maxScore scores) (Score si) (Score sj)); [lia..|].
    by destruct reverse.
  - intros i si ri Hi (si' & Hi' & Hin & ->)%Hget Hpos Hbest. simplify_eq.
    assert (Hbe : Score si = maxScore scores).
    { specialize (Hle si Hin). destruct Hat as [Hz|(x & Hx & Hx')]; [lia|].
      specialize (Hbest x Hx). lia. }
    unfold normalize. rewrite Hbe, (proj2 (Z.eqb_neq _ _)), Z.div_mul by lia. destruct reverse; lia.
Qed.
End Normalize.

(** ** Concrete inputs *)

Section Witnesses.
#[local] Existing Instance small_kubernetes.
#[local] Existing Instance small_runtime.

Definition example_resource : Resource :=
  {| MilliCPU := 4000; Memory := 1000; EphemeralStorage := 0;
     ScalarResources := Some {[ ResourceGPU := 2 ]} |}.

(** Two cpus, one gpu. *)
Definition example_list : gmap string Quantity := {[ ResourceCPU := (2000 : Quantity); ResourceGPU := (1000 : Quantity) ]}.

Lemma amount_eval (P : Z -> Prop) r n : P (MilliCPU r) -> P (Memory r) -> P (EphemeralStorage r) ->
  (forall k, P (getScalar r k)) -> P (amount r n).
Proof. intros. unfold amount. by repeat case_match. Qed.

Lemma example_wf : wf_resource example_resource.
Proof.
  intros n. apply (amount_eval int64); simpl; try (unfold int64; lia).
  intros k. unfold getScalar, example_resource. simpl.
  destruct (decide (k = ResourceGPU)) as [->|Hk].
  - rewrite mget_Some with (v := 2) by reflexivity. unfold int64. lia.
  - rewrite mget_None by (by apply lookup_singleton_ne). unfold int64. lia.
Qed.

Lemma example_list_nonneg : nonneg_list example_list.
Proof.
  refine (map_Forall_eval (fun k q => tracked k = true -> 0 <= quant k q) _ _).
  vm_compute. reflexivity.
Qed.

Lemma example_list_cases k q : example_list !! k = Some q ->
  k = ResourceCPU /\ q = 2000 \/ k = ResourceGPU /\ q = 1000.
Proof.
  unfold example_list. intros [[<- <-]|[_ H]]%lookup_insert_Some; [by left|].
  apply lookup_singleton_Some in H as [<- <-]. by right.
Qed.

Lemma Sub_correct_witness :
  exists r', Sub example_resource example_list = Ok r' /\
    amount r' ResourceCPU = 2000 /\ amount r' ResourceGPU = 1.
Proof.
  destruct (proj1 (Sub_correct example_resource example_list example_wf example_list_nonneg
    (or_introl (ex_intro _ _ eq_refl)))) as (r' & H1 & H2).
  - refine (map_Forall_eval (fun k q => tracked k = true -> quant k q <= amount example_resource k) _ _).
    vm_compute. reflexivity.
  - exists r'. split; [exact H1|]. rewrite !H2. split; vm_compute; reflexivity.
Defined.

Lemma Add_Sub_roundtrip_witness :
  exists r', Sub (Add emptyResource example_list) example_list = Ok r' /\
    amount r' ResourceGPU = 0.
Proof.
  destruct (Add_Sub_roundtrip emptyResource example_list) as (r' & H1 & H2).
  - intros n. rewrite amount_empty. unfold int64. lia.
  - exact example_list_nonneg.
  - intros n. rewrite amount_empty. lia.
  - intros n. rewrite amount_empty. unfold request. destruct (tracked n); [|lia].
    destruct (example_list !! n) as [q|] eqn:E; [|lia].
    assert (quant n q <= 2 ^ 63 - 1); [|lia].
    destruct (example_list_cases n q E) as [[-> ->]|[-> ->]]; vm_compute; congruence.
  - exists r'. split; [exact H1|]. rewrite H2. reflexivity.
Defined.

Definition example_pod : Pod := {|
  Containers := [example_list; example_list];
  InitContainers := [ {[ ResourceMemory := (7000 : Quantity) ]} ];
  Overhead := Some {[ ResourceCPU := (100 : Quantity) ]} |}.

Lemma GetResourceRequest_spec_witness :
  amount (GetResourceRequest example_pod) ResourceCPU = 4100.
Proof.
  rewrite (GetResourceRequest_spec example_pod ResourceCPU).
  - vm_compute. reflexivity.
  - intros rl Hrl. unfold example_pod in Hrl. simpl in Hrl. each_member; vm_compute; split; congruence.
  - vm_compute. reflexivity.
  - intros rl [= <-]. vm_compute. split; congruence.
Defined.

Definition example_cluster (name : string) : FederatedCluster := {|
  c_Name := name; c_Labels := ∅; c_Annotations := ∅; c_Finalizers := []; c_DeletionTimestamp := None; Taints := [];
  Status := {| Conditions := []; APIResourceTypes := []; JoinPerformed := true;
               st_Resources := {| SchedulableNodes := None; Allocatable := ∅; Available := ∅ |} |} |}.

Definition example_scores : list ClusterScore :=
  [ {| cs_Cluster := example_cluster "a"; Score := 3 |};
    {| cs_Cluster := example_cluster "b"; Score := 6 |} ].

Lemma DefaultNormalizeScore_correct_witness :
  exists r, DefaultNormalizeScore MaxClusterScore true example_scores !! 1%nat = Some r /\
    Score r = 0.
Proof.
  destruct (DefaultNormalizeScore_correct MaxClusterScore true example_scores) as (_ & _ & _ & H).
  - unfold MaxClusterScore. lia.
  - intros s Hs. unfold example_scores in Hs. each_member; simpl; lia.
  - eexists. split; [reflexivity|]. eapply (H 1%nat); [reflexivity|reflexivity|reflexivity|].
    intros s Hs. unfold example_scores in Hs. each_member; simpl; lia.
Defined.
End Witnesses.
