(* ===== verification/PodUtil.v ===== *)
(** * The pod of a workload and the resources it requests

    [pkg/util/pod], [pkg/util/resource] and [getResourceRequest] of the
    scheduler's [util.go]: the path of the pod spec in a workload, the spec at
    that path, and its request
    [max (sum of the containers) (init containers) + overhead]. *)

From Stdlib Require Import ZArith Lia String Ascii.
From S2P Require Import Prelude GoStrings K8s Types ApiTypes Unstructured Codecs FedObject Resources.

(** ** Pod specs *)

Definition DeploymentKind : string := "Deployment".
Definition StatefulSetKind : string := "StatefulSet".
Definition DaemonSetKind : string := "DaemonSet".
Definition JobKind : string := "Job".
Definition CronJobKind : string := "CronJob".
Definition PodKind : string := "Pod".

(** The keys are group and kind. *)
Definition PodSpecPaths : gmap (string * string) string :=
  {[ ("apps", DeploymentKind)%string := "spec.template.spec"%string;
     ("apps", StatefulSetKind)%string := "spec.template.spec"%string;
     ("apps", DaemonSetKind)%string := "spec.template.spec"%string;
     ("batch", JobKind)%string := "spec.template.spec"%string;
     ("batch", CronJobKind)%string := "spec.jobTemplate.spec.template.spec"%string;
     (""%string, PodKind) := "spec"%string ]}.

(** [ErrUnknownTypeToGetPodSpec] is recognised by its callers. *)
Inductive PodSpecError :=
  | ErrUnknownTypeToGetPodSpec (gvk : GroupVersionKind)
  | PodSpecErr (msg : string).

Section PodUtil.
Context `{K : Kubernetes} `{R : GoRuntime} `{C : !Codecs}.

Definition getPodSpecFromUnstructuredObj (unstructuredObj : Unstructured) (podSpecPath : string)
    : PodSpec + PodSpecError :=
  match NestedMap (uns_Object unstructuredObj) (split_on "."%char podSpecPath) with
  | inr err => inr (PodSpecErr err)
  | inl None => inr (PodSpecErr ("pod spec does not exist at path " ++ podSpecPath)%string)
  | inl (Some podSpecMap) =>
      match FromUnstructured_PodSpec podSpecMap with
      | inr err => inr (PodSpecErr err)
      | inl podSpec => inl podSpec
      end
  end.

(** The object is never nil here. *)
Definition GetPodSpec (fedObject : FederatedObject) (podSpecPath : string) : PodSpec + PodSpecError :=
  match GetTemplateAsUnstructured (fo_Spec fedObject) with
  | inr err => inr (PodSpecErr err)
  | inl unsFedObject => getPodSpecFromUnstructuredObj unsFedObject podSpecPath
  end.

Definition GetResourcePodSpec (fedObject : FederatedObject) (gvk : GroupVersionKind)
    : PodSpec + PodSpecError :=
  match PodSpecPaths !! (gvk_Group gvk, gvk_Kind gvk) with
  | None => inr (ErrUnknownTypeToGetPodSpec gvk)
  | Some path => GetPodSpec fedObject path
  end.

(** ** Resource lists *)

Definition AddResources (src dest : ResourceList) : ResourceList :=
  foldl (fun dest '(k, v) =>
    match dest !! k with
    | Some prevVal => <[k := Quantity_Add prevVal v]> dest
    | None => <[k := v]> dest
    end) dest (range_map src).

Definition MaxResources (src dst : ResourceList) : ResourceList :=
  foldl (fun dst '(name, srcQuantity) =>
    match dst !! name with
    | None => <[name := srcQuantity]> dst
    | Some dstQuantity =>
        if 0 <? Quantity_Cmp srcQuantity dstQuantity then <[name := srcQuantity]> dst else dst
    end) dst (range_map src).

Definition MergeResources (src dst : ResourceList) : ResourceList :=
  foldl (fun dst '(k, v) => <[k := v]> dst) dst (range_map src).

(** The limits that stand in for absent requests, one at a time. *)
Definition addLimits (container : Container) (reqs : ResourceList) : ResourceList :=
  foldl (fun reqs '(resourceName, resourceLimits) =>
    match Requests container !! resourceName with
    | None => AddResources {[ resourceName := resourceLimits ]} reqs
    | Some _ => reqs
    end) reqs (range_map (Limits container)).

Definition GetPodResourceRequests (podSpec : PodSpec) : ResourceList :=
  let reqs := foldl (fun reqs container => AddResources (Requests container) (addLimits container reqs))
    ∅ (ps_Containers podSpec) in
  let reqs := foldl (fun reqs container => MaxResources (Requests container) reqs)
    reqs (ps_InitContainers podSpec) in
  match ps_Overhead podSpec with
  | Some overhead => AddResources overhead reqs
  | None => reqs
  end.

(** [getResourceRequest]: workloads without a known pod spec request nothing. *)
Definition getResourceRequest (ftc : FederatedTypeConfig) (fedObject : FederatedObject)
    : Resource + string :=
  match GetResourcePodSpec fedObject (GetSourceTypeGVK ftc) with
  | inr (ErrUnknownTypeToGetPodSpec _) => inl emptyResource
  | inr (PodSpecErr err) => inr err
  | inl podSpec => inl (NewResource (GetPodResourceRequests podSpec))
  end.
End PodUtil.

(** * The request of a pod, resource by resource

    [GetPodResourceRequests] walks over maps; its result does not depend on the
    order, because every resource is computed on its own. *)

Section Pods.
Context `{K : Kubernetes} `{R : GoRuntime} `{C : !Codecs}.

(** ** One resource *)

Definition addq (acc more : option Quantity) : option Quantity :=
  match more, acc with
  | Some v, Some prev => Some (Quantity_Add prev v)
  | Some v, None => Some v
  | None, _ => acc
  end.

Definition maxq (acc more : option Quantity) : option Quantity :=
  match more, acc with
  | Some v, Some prev => if 0 <? Quantity_Cmp v prev then Some v else Some prev
  | Some v, None => Some v
  | None, _ => acc
  end.

(** A limit stands in for an absent request. *)
Definition container_request (c : Container) (n : string) : option Quantity :=
  match Requests c !! n with Some q => Some q | None => Limits c !! n end.

(** The request of the pod for the resource [n]. *)
Definition pod_request (p : PodSpec) (n : string) : option Quantity :=
  let containers := foldl (fun acc c => addq acc (container_request c n)) None (ps_Containers p) in
  let init := foldl (fun acc c => maxq acc (Requests c !! n)) containers (ps_InitContainers p) in
  match ps_Overhead p with Some overhead => addq init (overhead !! n) | None => init end.

(** ** The loops *)

Lemma AddResources_lookup (src dest : ResourceList) n : AddResources src dest !! n = addq (dest !! n) (src !! n).
Proof using Type.
  unfold AddResources.
  rewrite (foldl_point (fun (m : ResourceList) k => m !! k) (fun k o v => addq o (Some v))).
  - by destruct (src !! n).
  - intros s k v n'. cbn [addq]. case_decide as E.
    + subst n'. destruct (s !! k); apply lookup_insert_eq.
    + destruct (s !! k); by rewrite lookup_insert_ne.
Qed.

Lemma MaxResources_lookup (src dst : ResourceList) n : MaxResources src dst !! n = maxq (dst !! n) (src !! n).
Proof using Type.
  unfold MaxResources.
  rewrite (foldl_point (fun (m : ResourceList) k => m !! k) (fun k o v => maxq o (Some v))).
  - by destruct (src !! n).
  - intros s k v n'. cbn [maxq]. case_decide as E.
    + subst n'. destruct (s !! k) as [q|] eqn:Hk; [|apply lookup_insert_eq].
      destruct (0 <? Quantity_Cmp v q); [apply lookup_insert_eq|done].
    + destruct (s !! k) as [q|]; [destruct (0 <? Quantity_Cmp v q); [|done]|]; by rewrite lookup_insert_ne.
Qed.

Lemma MergeResources_lookup (src dst : ResourceList) n : MergeResources src dst !! n =
  match src !! n with Some v => Some v | None => dst !! n end.
Proof using Type.
  unfold MergeResources.
  rewrite (foldl_point (fun (m : ResourceList) k => m !! k) (fun k o v => Some v)).
  - by destruct (src !! n).
  - intros s k v n'. case_decide as E; [subst; apply lookup_insert_eq|by rewrite lookup_insert_ne].
Qed.

Lemma addLimits_lookup c (reqs : ResourceList) n : addLimits c reqs !! n =
  match Requests c !! n with Some _ => reqs !! n | None => addq (reqs !! n) (Limits c !! n) end.
Proof using Type.
  unfold addLimits.
  rewrite (foldl_point (fun (m : ResourceList) k => m !! k)
    (fun k o v => match Requests c !! k with Some _ => o | None => addq o (Some v) end)).
  - destruct (Limits c !! n); [done|]. by destruct (Requests c !! n).
  - intros s k v n'. case_decide as E.
    + subst n'. destruct (Requests c !! k); [done|]. by rewrite AddResources_lookup, lookup_singleton_eq.
    + destruct (Requests c !! k); [done|]. rewrite AddResources_lookup. by rewrite lookup_singleton_ne.
Qed.

Lemma container_lookup c (reqs : ResourceList) n :
  AddResources (Requests c) (addLimits c reqs) !! n = addq (reqs !! n) (container_request c n).
Proof using Type.
  rewrite AddResources_lookup, addLimits_lookup. unfold container_request. by destruct (Requests c !! n).
Qed.

Lemma foldl_lookup {A} (step : ResourceList -> A -> ResourceList) (op : option Quantity -> A -> option Quantity) n l m :
  (forall m x, step m x !! n = op (m !! n) x) -> foldl step m l !! n = foldl op (m !! n) l.
Proof using Type.
  intros Hs. revert m. induction l as [|x l IH]; intros m; [done|]. simpl. by rewrite IH, Hs.
Qed.

(** The request of a pod is, resource by resource, the larger of the sum
    over the containers (a limit standing in for an absent request) and each
    init container, plus the overhead, in whatever order the maps are
    visited. *)
Theorem GetPodResourceRequests_spec p n : GetPodResourceRequests p !! n = pod_request p n.
Proof using Type.
  unfold GetPodResourceRequests, pod_request.
  assert (Hc : foldl (fun reqs c => AddResources (Requests c) (addLimits c reqs)) ∅ (ps_Containers p) !! n =
    foldl (fun acc c => addq acc (container_request c n)) None (ps_Containers p)).
  { rewrite (foldl_lookup _ (fun acc c => addq acc (container_request c n)));
      [by rewrite lookup_empty|intros; apply container_lookup]. }
  assert (Hi : forall m : ResourceList, foldl (fun reqs c => MaxResources (Requests c) reqs) m (ps_InitContainers p) !! n =
    foldl (fun acc c => maxq acc (Requests c !! n)) (m !! n) (ps_InitContainers p)).
  { intros m. apply (foldl_lookup _ (fun acc c => maxq acc (Requests c !! n))). intros. apply MaxResources_lookup. }
  destruct (ps_Overhead p); cbv zeta; [rewrite AddResources_lookup|]; by rewrite Hi, Hc.
Qed.
End Pods.
