(* ===== verification/Triggers.v ===== *)
(** * Scheduling triggers ([schedulingtriggers.go])

    What a scheduling depended on is hashed into an annotation of the federated
    object; the next reconciliation schedules again only if one of the triggers
    that the policy cares about has changed since. *)

From Stdlib Require Import ZArith Lia String Ascii.
From stdpp Require Import pretty.
From S2P Require Import Prelude K8s Types ApiTypes Codecs FedObject Resources PodUtil.

(** [getIsStickyClusterFromPolicy] ([schedulingunit.go]). *)
Definition getIsStickyClusterFromPolicy (policy : PropagationPolicy) : bool :=
  match pps_ReschedulePolicy (pol_Spec policy) with
  | Some rp => DisableRescheduling rp
  | None => false
  end.

Section Triggers.
Context `{K : Kubernetes} `{R : GoRuntime} `{C : !Codecs}.

Definition schedulingTriggers_Marshal (t : schedulingTriggers) : string + string :=
  match Marshal_schedulingTriggers t with
  | inr err => inr ("failed to marshal scheduling trigger: " ++ err)%string
  | inl triggerBytes => inl triggerBytes
  end.

(** The receiver is replaced only without an error. *)
Definition schedulingTriggers_Unmarshal (v : string) : schedulingTriggers + string :=
  match Unmarshal_schedulingTriggers v with
  | inr err => inr ("failed to unmarshal scheduling trigger: " ++ err)%string
  | inl trigger => inl trigger
  end.

(** ** Comparing triggers *)

Definition isClusterTriggerChanged (newClusters oldClusters : gmap string string) : bool :=
  if Z.of_nat (size newClusters) =? 0 then negb (Z.of_nat (size oldClusters) =? 0)
  else existsb (fun '(cluster, trigger) =>
    match newClusters !! cluster with
    | Some t => negb (String.eqb t trigger)
    | None => true
    end) (range_map oldClusters).

Definition compareStableTriggers (latest last : schedulingTriggers) : bool :=
  if negb (String.eqb (SchedulingAnnotationsHash latest) (SchedulingAnnotationsHash last)) ||
     negb (ReplicaCount latest =? ReplicaCount last) ||
     negb (bool_decide (st_ResourceRequest latest = st_ResourceRequest last)) ||
     negb (String.eqb (PolicyName latest) (PolicyName last)) then true
  else match AutoMigrationInfoText latest with
       | Some info =>
           match AutoMigrationInfoText last with
           | None => true
           | Some info' => negb (String.eqb info' info)
           end
       | None => bool_decide (is_Some (AutoMigrationInfoText last))
       end.

(** The part of [computeSchedulingAnnotations] after the sticky and nil checks:
    the reasons of the changes that the policy defers, or [None] for a change
    that triggers. *)
Definition deferredReasonsOf (policyTrigger : RescheduleTrigger) (newTriggers oldTriggers : schedulingTriggers)
    : option (list string) :=
  let reasons := [] in
  let contentChanged := negb (String.eqb (PolicySchedulingContentHash newTriggers)
                                         (PolicySchedulingContentHash oldTriggers)) in
  if contentChanged && PolicyContentChanged policyTrigger then None else
  let reasons := if contentChanged then reasons ++ ["policyContentChanged:false"%string] else reasons in
  let labelsChanged := isClusterTriggerChanged (ClusterLabelsHashes newTriggers)
                                               (ClusterLabelsHashes oldTriggers) in
  if labelsChanged && ClusterLabelsChanged policyTrigger then None else
  let reasons := if labelsChanged then reasons ++ ["clusterLabelsChanged:false"%string] else reasons in
  if isClusterTriggerChanged (ClusterTaintsHashes newTriggers) (ClusterTaintsHashes oldTriggers) then None else
  let apiChanged := isClusterTriggerChanged (ClusterAPIResourceTypesHashes newTriggers)
                                            (ClusterAPIResourceTypesHashes oldTriggers) in
  if apiChanged && ClusterAPIResourcesChanged policyTrigger then None else
  let reasons := if apiChanged then reasons ++ ["clusterAPIResourcesChanged:false"%string] else reasons in
  let newClusters : gset string := list_to_set (st_Clusters newTriggers) in
  let oldClusters : gset string := list_to_set (st_Clusters oldTriggers) in
  let joined := bool_decide (oldClusters ⊆ newClusters) && negb (Z.of_nat (size newClusters) =? Z.of_nat (size oldClusters)) in
  if joined && ClusterJoinedTrigger policyTrigger then None else
  let reasons := if joined then reasons ++ ["clusterJoined:false"%string] else reasons in
  Some reasons.

(** The annotation, the deferred reasons, and whether to schedule. *)
Definition computeSchedulingAnnotations (newTriggers : schedulingTriggers) (fedObject : FederatedObject)
    (policy : option PropagationPolicy) : (string * string * bool) + string :=
  match schedulingTriggers_Marshal newTriggers with
  | inr err => inr err
  | inl triggers =>
      let anno := fo_Annotations fedObject in
      if Z.of_nat (size anno) =? 0 then inl (triggers, ""%string, true) else
      let old := default ""%string (anno !! SchedulingTriggersAnnotation) in
      let ok := bool_decide (is_Some (anno !! SchedulingTriggersAnnotation)) in
      match policy with
      | None => inl (triggers, ""%string, negb (String.eqb old triggers))
      | Some policy =>
          if negb ok || String.eqb old "" || String.eqb old triggers then
            inl (triggers, ""%string, negb (String.eqb old triggers))
          else
            match schedulingTriggers_Unmarshal old with
            | inr _ => inl (triggers, ""%string, true)
            | inl oldTriggers =>
                if compareStableTriggers newTriggers oldTriggers then inl (triggers, ""%string, true)
                else if getIsStickyClusterFromPolicy policy then
                  inl (old, "disableRescheduling:true"%string, false)
                else match pps_ReschedulePolicy (pol_Spec policy) ≫= Trigger with
                     | None => inl (old, "rescheduleWhen:nil"%string, false)
                     | Some policyTrigger =>
                         match deferredReasonsOf policyTrigger newTriggers oldTriggers with
                         | None => inl (triggers, ""%string, true)
                         | Some reasons => inl (old, String.concat "; " reasons, false)
                         end
                     end
            end
      end
  end.

Definition updateSchedulingAnnotations (triggers deferredReasons : string) (fedObject : FederatedObject)
    : (FederatedObject * bool) + string :=
  match AddAnnotation fedObject SchedulingTriggersAnnotation triggers with
  | inr err => inr err
  | inl (fedObject, triggersChanged) =>
      match (if String.eqb deferredReasons ""
             then RemoveAnnotation fedObject SchedulingDeferredReasonsAnnotation
             else AddAnnotation fedObject SchedulingDeferredReasonsAnnotation deferredReasons) with
      | inr err => inr err
      | inl (fedObject, deferred) => inl (fedObject, triggersChanged || deferred)
      end
  end.

(** ** Computing triggers *)

Definition knownSchedulingAnnotations : gset string :=
  {[ SchedulingModeAnnotation; StickyClusterAnnotation; TolerationsAnnotations; PlacementsAnnotations;
     ClusterSelectorAnnotations; AffinityAnnotations; MaxClustersAnnotations; FollowsObjectAnnotation;
     AppliedMigrationConfigurationAnnotation; DryRunAnnotation ]}.

(** [hashResult] of a value whose JSON is [marshaled]. *)
Definition hashResult (marshaled : string + string) : string + string :=
  match marshaled with
  | inr err => inr ("failed to compute scheduling trigger hash: " ++ err)%string
  | inl hashBytes => inl (pretty (fnv32_write fnv32_offset hashBytes : Z))
  end.

Definition getSchedulingAnnotationsHash (fedObject : FederatedObject) : string + string :=
  let result : gmap string string :=
    foldl (fun result '(k, v) =>
      if bool_decide (k ∈ knownSchedulingAnnotations) then <[k := v]> result else result)
      ∅ (range_map (fo_Annotations fedObject)) in
  hashResult (Marshal_StringMap result).

Definition getReplicaCount (ftc : FederatedTypeConfig) (fedObject : FederatedObject) : Z + string :=
  if String.eqb (ReplicasSpec ftc) "" then inl 0 else
  match GetTemplateAsUnstructured (fo_Spec fedObject) with
  | inr err => inr err
  | inl template =>
      match GetInt64FromPath template (ReplicasSpec ftc) [] with
      | inr err => inr err
      | inl None => inl 0
      | inl (Some value) => inl value
      end
  end.

Definition getPolicySchedulingContentHash (policySpec : PropagationPolicySpec) : string + string :=
  hashResult (Marshal_PropagationPolicySpec {|
    pps_SchedulingProfile := pps_SchedulingProfile policySpec;
    pps_SchedulingMode := pps_SchedulingMode policySpec;
    pps_ReplicasStrategy := pps_ReplicasStrategy policySpec;
    pps_ClusterSelector := pps_ClusterSelector policySpec;
    pps_ClusterAffinity := pps_ClusterAffinity policySpec;
    pps_Tolerations := pps_Tolerations policySpec;
    pps_MaxClusters := pps_MaxClusters policySpec;
    pps_Placements := pps_Placements policySpec;
    DisableFollowerScheduling := DisableFollowerScheduling policySpec;
    pps_AutoMigration := None;
    pps_ReschedulePolicy := pps_ReschedulePolicy policySpec
  |}).

(** The loop of the three functions below: a hash for each cluster, or the
    first error. *)
Fixpoint hashClusters (hash : FederatedCluster -> string + string) (ret : gmap string string)
    (clusters : list FederatedCluster) : gmap string string + string :=
  match clusters with
  | [] => inl ret
  | cluster :: clusters' =>
      match hash cluster with
      | inr err => inr err
      | inl h => hashClusters hash (<[c_Name cluster := h]> ret) clusters'
      end
  end.

Definition getClusterLabelsHashes (clusters : list FederatedCluster) : gmap string string + string :=
  hashClusters (fun cluster => hashResult (Marshal_StringMap (c_Labels cluster))) ∅ clusters.

(** The comparison as written: effects are compared by value. *)
Definition taintLess (lhs rhs : Taint) : bool :=
  if negb (String.eqb (t_Key lhs) (t_Key rhs)) then String.ltb (t_Key lhs) (t_Key rhs)
  else if negb (String.eqb (t_Value lhs) (t_Value rhs)) then String.ltb (t_Value lhs) (t_Value rhs)
  else if negb (String.eqb (t_Effect lhs) (t_Effect rhs)) then String.ltb (t_Value lhs) (t_Value rhs)
  else false.

(** A [Taint] has no [TimeAdded] here, so the copies are the taints. *)
Definition getClusterTaintsHashes (clusters : list FederatedCluster) : gmap string string + string :=
  hashClusters (fun cluster => hashResult (Marshal_Taints (sort_slice taintLess (Taints cluster)))) ∅ clusters.

Definition apiResourceLess (lhs rhs : APIResource) : bool :=
  if negb (String.eqb (ar_Group lhs) (ar_Group rhs)) then String.ltb (ar_Group lhs) (ar_Group rhs)
  else if negb (String.eqb (ar_Version lhs) (ar_Version rhs)) then String.ltb (ar_Version lhs) (ar_Version rhs)
  else if negb (String.eqb (ar_Kind lhs) (ar_Kind rhs)) then String.ltb (ar_Kind lhs) (ar_Kind rhs)
  else if negb (String.eqb (ar_PluralName lhs) (ar_PluralName rhs)) then
    String.ltb (ar_PluralName lhs) (ar_PluralName rhs)
  else if negb (String.eqb (ar_Scope lhs) (ar_Scope rhs)) then String.ltb (ar_Scope lhs) (ar_Scope rhs)
  else false.

Definition getClusterAPIResourceTypesHashes (clusters : list FederatedCluster)
    : gmap string string + string :=
  hashClusters (fun cluster =>
    hashResult (Marshal_APIResources (sort_slice apiResourceLess (APIResourceTypes (Status cluster))))) ∅ clusters.

Definition wrapError {A} (what : string) (x : A + string) : A + string :=
  match x with inl a => inl a | inr err => inr (what ++ ": " ++ err)%string end.

(** Errors stop the computation. *)
Definition try {A B} (x : A + string) (f : A -> B + string) : B + string :=
  match x with inl a => f a | inr err => inr err end.

Definition computeSchedulingTriggers (ftc : FederatedTypeConfig) (fedObject : FederatedObject)
    (policy : option PropagationPolicy) (clusters : list FederatedCluster) : schedulingTriggers + string :=
  try (wrapError "failed to get scheduling annotations" (getSchedulingAnnotationsHash fedObject)) (fun annotationsHash =>
  try (wrapError "failed to get object replica count" (getReplicaCount ftc fedObject)) (fun replicaCount =>
  try (wrapError "failed to get object resource request" (getResourceRequest ftc fedObject)) (fun resourceRequest =>
  try (match policy with
       | None => inl (""%string, None, ""%string)
       | Some policy =>
           let autoMigrationInfo :=
             match pps_AutoMigration (pol_Spec policy) with
             | Some _ => fo_Annotations fedObject !! AutoMigrationInfoAnnotation
             | None => None
             end in
           try (wrapError ("failed to get scheduling content of policy " ++ pol_Name policy)%string
                  (getPolicySchedulingContentHash (pol_Spec policy)))
             (fun contentHash => inl (pol_Name policy, autoMigrationInfo, contentHash))
       end) (fun '(policyName, autoMigrationInfo, contentHash) =>
  try (wrapError "failed to get cluster labels hashes" (getClusterLabelsHashes clusters)) (fun labelsHashes =>
  try (wrapError "failed to get cluster taints hashes" (getClusterTaintsHashes clusters)) (fun taintsHashes =>
  try (wrapError "failed to get cluster API resource types hashes" (getClusterAPIResourceTypesHashes clusters))
    (fun apiHashes =>
  inl {| SchedulingAnnotationsHash := annotationsHash;
         ReplicaCount := replicaCount;
         st_ResourceRequest := resourceRequest;
         AutoMigrationInfoText := autoMigrationInfo;
         PolicyName := policyName;
         PolicySchedulingContentHash := contentHash;
         st_Clusters := c_Name <$> clusters;
         ClusterLabelsHashes := labelsHashes;
         ClusterTaintsHashes := taintsHashes;
         ClusterAPIResourceTypesHashes := apiHashes |}))))))).
End Triggers.
