(* ===== verification/TriggersTheorems.v ===== *)
(** * What triggers a scheduling

    Triggers settle: once the annotations are updated the same triggers do not
    schedule again.  A change is acted upon exactly when the policy says so,
    and is deferred, not lost, otherwise.  The order of clusters, API resources
    and taints does not matter, up to taints that differ in their effect only. *)

From Stdlib Require Import ZArith Lia String Ascii.
From stdpp Require Import pretty.
From S2P Require Import Prelude K8s Types ApiTypes Codecs FedObject FedObjectTheorems Resources PodUtil Triggers.

Section Triggers.
Context `{K : Kubernetes} `{R : GoRuntime} `{C : !Codecs}.

(** ** Settling *)

(** The annotations after [updateSchedulingAnnotations]. *)
Definition annotations_after (triggers reasons : string) (annotations : gmap string string) : gmap string string :=
  let annotations := <[SchedulingTriggersAnnotation := triggers]> annotations in
  if String.eqb reasons "" then delete SchedulingDeferredReasonsAnnotation annotations
  else <[SchedulingDeferredReasonsAnnotation := reasons]> annotations.

Lemma keys_differ : SchedulingTriggersAnnotation <> SchedulingDeferredReasonsAnnotation.
Proof. done. Qed.

Lemma annotations_after_triggers t r m : annotations_after t r m !! SchedulingTriggersAnnotation = Some t.
Proof.
  unfold annotations_after. destruct (String.eqb r "").
  - rewrite lookup_delete_ne by done. apply lookup_insert_eq.
  - rewrite lookup_insert_ne by done. apply lookup_insert_eq.
Qed.

Lemma annotations_after_other t r m k :
  k <> SchedulingTriggersAnnotation -> k <> SchedulingDeferredReasonsAnnotation ->
  annotations_after t r m !! k = m !! k.
Proof.
  intros H1 H2. unfold annotations_after. destruct (String.eqb r "").
  - by rewrite lookup_delete_ne, lookup_insert_ne.
  - by rewrite !lookup_insert_ne.
Qed.

Lemma annotations_after_deferred t r m :
  annotations_after t r m !! SchedulingDeferredReasonsAnnotation = if String.eqb r "" then None else Some r.
Proof.
  unfold annotations_after. destruct (String.eqb r ""); [apply lookup_delete_eq|apply lookup_insert_eq].
Qed.

Lemma annotations_after_size t r m : (Z.of_nat (size (annotations_after t r m)) =? 0) = false.
Proof.
  apply Z.eqb_neq. intros H. pose proof (annotations_after_triggers t r m) as Hl.
  assert (Hs : size (annotations_after t r m) = 0%nat) by lia. apply map_size_empty_inv in Hs.
  by rewrite Hs, lookup_empty in Hl.
Qed.

Lemma updateSchedulingAnnotations_eq t r o : exists changed,
  updateSchedulingAnnotations t r o = inl (SetAnnotations o (annotations_after t r (fo_Annotations o)), changed) /\
  (changed = false <-> annotations_after t r (fo_Annotations o) = fo_Annotations o).
Proof using Type.
  unfold updateSchedulingAnnotations. rewrite AddAnnotation_eq by done.
  assert (Hne := keys_differ). set (m := fo_Annotations o). unfold annotations_after.
  destruct (String.eqb_spec r "") as [->|Hr].
  - rewrite RemoveAnnotation_eq. simpl. eexists. split; [done|].
    rewrite orb_false_iff, negb_false_iff, bool_decide_eq_true, bool_decide_eq_false.
    rewrite lookup_insert_ne by done. split.
    + intros [Ht Hd]. rewrite insert_id by done. by apply delete_id, eq_None_not_Some.
    + intros H. rewrite <- H. rewrite lookup_delete_eq, lookup_delete_ne, lookup_insert_eq by done.
      split; [done|]. by intros [? ?].
  - rewrite AddAnnotation_eq by done. simpl. eexists. split; [done|].
    rewrite orb_false_iff, !negb_false_iff, !bool_decide_eq_true. rewrite lookup_insert_ne by done. split.
    + intros [Ht Hd]. by rewrite (insert_id m) by done; rewrite insert_id.
    + intros H. rewrite <- H. by rewrite lookup_insert_eq, lookup_insert_ne, lookup_insert_eq by done.
Qed.

Lemma annotations_after_idemp t r m : annotations_after t r (annotations_after t r m) = annotations_after t r m.
Proof.
  apply map_eq. intros k. destruct (decide (k = SchedulingTriggersAnnotation)) as [->|H1].
  { by rewrite !annotations_after_triggers. }
  destruct (decide (k = SchedulingDeferredReasonsAnnotation)) as [->|H2].
  { by rewrite !annotations_after_deferred. }
  by rewrite annotations_after_other.
Qed.

(** The answer is to write the new triggers. *)
Ltac same :=
  match goal with H : inl (_, _, _) = inl (_, _, _) |- _ => injection H as <- <- _ end;
  try match goal with policy : option PropagationPolicy |- _ => destruct policy end;
  rewrite String.eqb_refl, ?orb_true_r; done.

(** With the annotations that it asked for, the same triggers ask for the same
    annotations and no scheduling. *)
Lemma computeSchedulingAnnotations_again n o policy t d ch o' :
  computeSchedulingAnnotations n o policy = inl (t, d, ch) ->
  fo_Annotations o' !! SchedulingTriggersAnnotation = Some t ->
  computeSchedulingAnnotations n o' policy = inl (t, d, false).
Proof using Type.
  unfold computeSchedulingAnnotations. destruct (schedulingTriggers_Marshal n) as [s|]; [|done].
  intros H Ho'. rewrite Ho'.
  assert (Hsize : (Z.of_nat (size (fo_Annotations o')) =? 0) = false).
  { apply Z.eqb_neq. intros Hs. assert (Hs' : size (fo_Annotations o') = 0%nat) by lia.
    apply map_size_empty_inv in Hs'. by rewrite Hs', lookup_empty in Ho'. }
  rewrite Hsize. simpl. cbv zeta in H.
  destruct (Z.of_nat (size (fo_Annotations o)) =? 0); [same|].
  destruct policy as [policy|]; [|same].
  destruct (negb _ || _ || _) eqn:E; [same|].
  apply orb_false_iff in E as [[_ E1]%orb_false_iff E2].
  set (old := default _ _) in *.
  destruct (schedulingTriggers_Unmarshal old) as [oldT|] eqn:Eu; [|same].
  destruct (compareStableTriggers n oldT) eqn:Ec; [same|].
  destruct (getIsStickyClusterFromPolicy policy) eqn:Es.
  { injection H as <- <- _. by rewrite E1, E2, Eu, Ec. }
  destruct (_ ≫= Trigger) as [tr|] eqn:Et.
  2: { injection H as <- <- _. by rewrite E1, E2, Eu, Ec. }
  destruct (deferredReasonsOf tr n oldT) as [rs|] eqn:Ed; [|same].
  injection H as <- <- _. by rewrite E1, E2, Eu, Ec, Ed.
Qed.

(** C14. Triggers settle: after the annotations are updated, nothing but the two
    scheduling annotations has changed, the same triggers do not schedule
    again, and asking again changes nothing. *)
Theorem triggers_settle n o policy t d ch :
  computeSchedulingAnnotations n o policy = inl (t, d, ch) ->
  exists o' changed, updateSchedulingAnnotations t d o = inl (o', changed) /\
    (exists m, o' = SetAnnotations o m /\
       forall k, k <> SchedulingTriggersAnnotation -> k <> SchedulingDeferredReasonsAnnotation ->
                 m !! k = fo_Annotations o !! k) /\
    computeSchedulingAnnotations n o' policy = inl (t, d, false) /\
    updateSchedulingAnnotations t d o' = inl (o', false).
Proof using Type.
  intros H. destruct (updateSchedulingAnnotations_eq t d o) as (changed & Hu & _).
  eexists _, changed. split_and!; [exact Hu| | |].
  - eexists. split; [done|]. apply annotations_after_other.
  - eapply computeSchedulingAnnotations_again; [exact H|]. apply annotations_after_triggers.
  - set (o' := SetAnnotations _ _). destruct (updateSchedulingAnnotations_eq t d o') as (ch' & -> & Hch').
    subst o'. simpl in *. rewrite annotations_after_idemp in *. destruct Hch' as [_ ->]; [done|].
    by destruct o.
Qed.

(** ** Which changes schedule *)

(** No trigger when the new map has all the entries of the old one. *)
Lemma isClusterTriggerChanged_false new old : isClusterTriggerChanged new old = false <-> old ⊆ new.
Proof using Type.
  unfold isClusterTriggerChanged. destruct (Z.eqb_spec (Z.of_nat (size new)) 0) as [Hn|Hn].
  - assert (Hn' : size new = 0%nat) by lia. apply map_size_empty_inv in Hn' as ->.
    rewrite negb_false_iff, Z.eqb_eq. split.
    + intros Ho. assert (Ho' : size old = 0%nat) by lia. by apply map_size_empty_inv in Ho' as ->.
    + intros Hsub. assert (old = ∅) as ->; [|done]. apply map_empty. intros k.
      destruct (old !! k) as [v|] eqn:Hk; [|done]. apply (lookup_weaken _ ∅) in Hk; [|done].
      by rewrite lookup_empty in Hk.
  - rewrite <- not_true_iff_false, existsb_exists, map_subseteq_spec. split.
    + intros Hno c h Hc. apply dec_stable. intros Hne. apply Hno. exists (c, h).
      split; [by apply list_elem_of_In, elem_of_range_map|].
      destruct (new !! c) as [t|]; [|done]. destruct (String.eqb_spec t h) as [->|]; done.
    + intros Hsub ([c h] & Hin & Hc). apply list_elem_of_In, elem_of_range_map in Hin.
      rewrite (Hsub _ _ Hin), String.eqb_refl in Hc. done.
Qed.

Lemma isClusterTriggerChanged_true new old : isClusterTriggerChanged new old = true <-> ~ old ⊆ new.
Proof using Type. by rewrite <- isClusterTriggerChanged_false, not_false_iff_true. Qed.

(** The triggers that always count. *)
Definition same_stable (latest last : schedulingTriggers) : Prop :=
  SchedulingAnnotationsHash latest = SchedulingAnnotationsHash last /\
  ReplicaCount latest = ReplicaCount last /\
  st_ResourceRequest latest = st_ResourceRequest last /\
  PolicyName latest = PolicyName last /\
  AutoMigrationInfoText latest = AutoMigrationInfoText last.

Lemma compareStableTriggers_spec latest last :
  compareStableTriggers latest last = false <-> same_stable latest last.
Proof.
  unfold compareStableTriggers, same_stable.
  destruct (negb _ || _ || _ || _) eqn:E.
  - split; [done|]. intros (H1 & H2 & H3 & H4 & _). rewrite H1, H2, H3, H4 in E.
    by rewrite !String.eqb_refl, Z.eqb_refl, bool_decide_eq_true_2 in E by done.
  - rewrite !orb_false_iff, !negb_false_iff, !String.eqb_eq, Z.eqb_eq, bool_decide_eq_true in E.
    destruct E as [[[-> ->] ->] ->].
    destruct (AutoMigrationInfoText latest) as [i|], (AutoMigrationInfoText last) as [i'|]; simpl.
    + rewrite negb_false_iff, String.eqb_eq. naive_solver.
    + naive_solver.
    + naive_solver.
    + naive_solver.
Qed.

(** The changes that a [rescheduleWhen] acts upon. *)
Definition acted_upon (trigger : RescheduleTrigger) (new old : schedulingTriggers) : Prop :=
  (PolicyContentChanged trigger = true /\ PolicySchedulingContentHash new <> PolicySchedulingContentHash old) \/
  (ClusterLabelsChanged trigger = true /\ ~ ClusterLabelsHashes old ⊆ ClusterLabelsHashes new) \/
  ~ ClusterTaintsHashes old ⊆ ClusterTaintsHashes new \/
  (ClusterAPIResourcesChanged trigger = true /\
     ~ ClusterAPIResourceTypesHashes old ⊆ ClusterAPIResourceTypesHashes new) \/
  (ClusterJoinedTrigger trigger = true /\
     (list_to_set (st_Clusters old) : gset string) ⊂ list_to_set (st_Clusters new)).

Lemma joined_spec (new old : gset string) :
  bool_decide (old ⊆ new) && negb (Z.of_nat (size new) =? Z.of_nat (size old)) = true <-> old ⊂ new.
Proof.
  rewrite andb_true_iff, bool_decide_eq_true, negb_true_iff, Z.eqb_neq. split.
  - intros [Hsub Hsize]. split; [done|]. intros Hsup. apply Hsize.
    by assert (new = old) as -> by (by apply (anti_symm (⊆))).
  - intros Hsub. pose proof (subset_size old new Hsub). split; [apply Hsub|lia].
Qed.

Lemma deferredReasonsOf_None trigger new old :
  deferredReasonsOf trigger new old = None <-> acted_upon trigger new old.
Proof using Type.
  unfold deferredReasonsOf, acted_upon. cbv zeta.
  rewrite <- !isClusterTriggerChanged_true, <- joined_spec.
  assert (Hc : forall a b, a <> b <-> negb (String.eqb a b) = true)
    by (intros a b; by rewrite negb_true_iff, String.eqb_neq).
  rewrite Hc.
  destruct (negb (String.eqb _ _)), (isClusterTriggerChanged (ClusterLabelsHashes _) _),
    (isClusterTriggerChanged (ClusterTaintsHashes _) _),
    (isClusterTriggerChanged (ClusterAPIResourceTypesHashes _) _), (bool_decide _ && negb _),
    (PolicyContentChanged _), (ClusterLabelsChanged _), (ClusterAPIResourcesChanged _),
    (ClusterJoinedTrigger _); simpl; intuition congruence.
Qed.

(** A change from [old] to [new] schedules under [policy]. *)
Definition must_schedule (policy : PropagationPolicy) (new old : schedulingTriggers) : Prop :=
  ~ same_stable new old \/
  getIsStickyClusterFromPolicy policy = false /\
  exists trigger, pps_ReschedulePolicy (pol_Spec policy) ≫= Trigger = Some trigger /\
    acted_upon trigger new old.

Lemma must_schedule_irrefl policy t : ~ must_schedule policy t t.
Proof using Type.
  intros [H|(_ & tr & _ & H)]; [by apply H|]. unfold acted_upon in H.
  destruct H as [[_ H]|[[_ H]|[H|[[_ H]|[_ H]]]]]; by apply H.
Qed.

Lemma Marshal_Unmarshal t s : schedulingTriggers_Marshal t = inl s -> schedulingTriggers_Unmarshal s = inl t.
Proof using Type.
  unfold schedulingTriggers_Marshal, schedulingTriggers_Unmarshal.
  destruct (Marshal_schedulingTriggers t) as [s'|] eqn:E; [|done]. intros [= <-].
  by rewrite (schedulingTriggers_roundtrip _ _ E).
Qed.

Lemma annotations_decision new old o policy s t d ch :
  schedulingTriggers_Marshal old = inl s -> s <> ""%string ->
  fo_Annotations o !! SchedulingTriggersAnnotation = Some s ->
  computeSchedulingAnnotations new o (Some policy) = inl (t, d, ch) ->
  (ch = true <-> must_schedule policy new old) /\
  (ch = true -> schedulingTriggers_Marshal new = inl t /\ d = ""%string) /\
  (ch = false -> t = s).
Proof using Type.
  intros Hold Hs Ho H. unfold computeSchedulingAnnotations in H.
  pose proof (Marshal_Unmarshal _ _ Hold) as Hu.
  destruct (schedulingTriggers_Marshal new) as [s'|] eqn:Hnew; [|done].
  destruct (Z.eqb_spec (Z.of_nat (size (fo_Annotations o))) 0) as [Hz|_].
  { assert (Hz' : size (fo_Annotations o) = 0%nat) by lia. apply map_size_empty_inv in Hz'.
    by rewrite Hz', lookup_empty in Ho. }
  rewrite Ho in H. simpl in H. apply String.eqb_neq in Hs. rewrite Hs in H. simpl in H.
  destruct (String.eqb_spec s s') as [<-|Hne].
  { injection H as <- <- <-. split_and!; [|done|done]. split; [done|].
    apply Marshal_Unmarshal in Hnew. rewrite Hu in Hnew. injection Hnew as <-. by intros ?%must_schedule_irrefl. }
  rewrite Hu in H. destruct (compareStableTriggers new old) eqn:Ec.
  { injection H as <- <- <-. split_and!; [|done|done]. split; [|done]. intros _. left.
    rewrite <- compareStableTriggers_spec. by rewrite Ec. }
  apply compareStableTriggers_spec in Ec. unfold must_schedule.
  destruct (getIsStickyClusterFromPolicy policy); [injection H as <- <- <-; naive_solver|].
  destruct (_ ≫= Trigger) as [tr|]; [|injection H as <- <- <-; naive_solver].
  pose proof (deferredReasonsOf_None tr new old) as Hd.
  destruct (deferredReasonsOf tr new old) as [rs|]; injection H as <- <- <-.
  - split_and!; [|done|done]. split; [done|]. intros [Hn|(_ & tr' & [= <-] & Ha)]; [done|]. by apply Hd in Ha.
  - split_and!; [|done|done]. split; [|done]. intros _. right. split; [done|]. exists tr. by rewrite <- Hd.
Qed.

(** With the triggers [old] of the last scheduling in the annotation, the
    triggers [new] schedule exactly when a stable trigger differs or the policy
    acts upon another change; otherwise the annotation keeps [old], so that a
    deferred change is still a change the next time. *)
Theorem computeSchedulingAnnotations_spec new old o policy s t d ch :
  schedulingTriggers_Marshal old = inl s -> s <> ""%string ->
  fo_Annotations o !! SchedulingTriggersAnnotation = Some s ->
  computeSchedulingAnnotations new o (Some policy) = inl (t, d, ch) ->
  (ch = true <-> must_schedule policy new old) /\
  (ch = true -> schedulingTriggers_Marshal new = inl t /\ d = ""%string) /\
  (ch = false -> t = s).
Proof using Type. apply annotations_decision. Qed.

(** ** The order of clusters, API resources and taints *)

(** The shape of the comparison functions: by a key, then by [less2]. *)
Definition lexBy {A} (key : A -> string) (less2 : A -> A -> bool) (x y : A) : bool :=
  if negb (String.eqb (key x) (key y)) then String.ltb (key x) (key y) else less2 x y.

#[local] Instance swo_lexBy {A} (key : A -> string) (less2 : A -> A -> bool) :
  StrictWeakOrder less2 -> StrictWeakOrder (lexBy key less2).
Proof.
  intros H2. pose proof (swo_lex key String.ltb less2 _ string_ltb_total H2) as [Ha Hn].
  assert (Heq : forall x y, lexBy key less2 x y =
    if bool_decide (key x = key y) then less2 x y else String.ltb (key x) (key y)).
  { intros x y. unfold lexBy. destruct (String.eqb_spec (key x) (key y)); by case_bool_decide. }
  split; [intros x y|intros x y z]; rewrite !Heq; [apply Ha|apply Hn].
Qed.

Lemma lexBy_equiv {A} (key : A -> string) (less2 : A -> A -> bool) x y :
  lexBy key less2 x y = false -> lexBy key less2 y x = false ->
  key x = key y /\ less2 x y = false /\ less2 y x = false.
Proof.
  unfold lexBy. rewrite (String.eqb_sym (key y)). destruct (String.eqb_spec (key x) (key y)) as [He|Hne]; simpl; [done|].
  intros H1 H2. by destruct Hne; apply string_ltb_total.
Qed.

#[local] Instance swo_never {A} : StrictWeakOrder (fun _ _ : A => false).
Proof. done. Qed.

Lemma taintLess_lex : taintLess = lexBy t_Key (lexBy t_Value (fun lhs rhs =>
  if negb (String.eqb (t_Effect lhs) (t_Effect rhs)) then String.ltb (t_Value lhs) (t_Value rhs) else false)).
Proof. reflexivity. Qed.

(** The last comparison never says less, because the values are equal. *)
#[local] Instance taintLess_swo : StrictWeakOrder taintLess.
Proof.
  pose proof (swo_lexBy t_Key _ (swo_lexBy t_Value _ (@swo_never Taint))) as [Ha Hn].
  assert (Heq : forall x y, taintLess x y = lexBy t_Key (lexBy t_Value (fun _ _ => false)) x y).
  { intros x y. rewrite taintLess_lex. unfold lexBy.
    destruct (negb (String.eqb (t_Key x) _)); [done|].
    destruct (String.eqb_spec (t_Value x) (t_Value y)) as [He|]; [|done]. simpl.
    rewrite He. pose proof (swo_irrefl String.ltb (t_Value y)) as Hi. by destruct (negb _). }
  split; [intros x y|intros x y z]; rewrite !Heq; [apply Ha|apply Hn].
Qed.

Lemma taintLess_equiv x y : taintLess x y = false -> taintLess y x = false ->
  (t_Key x, t_Value x) = (t_Key y, t_Value y).
Proof.
  rewrite taintLess_lex. intros H1 H2. destruct (lexBy_equiv _ _ _ _ H1 H2) as (-> & H3 & H4).
  by destruct (lexBy_equiv _ _ _ _ H3 H4) as (-> & _).
Qed.

Lemma apiResourceLess_lex : apiResourceLess =
  lexBy ar_Group (lexBy ar_Version (lexBy ar_Kind (lexBy ar_PluralName (lexBy ar_Scope (fun _ _ => false))))).
Proof. reflexivity. Qed.

#[local] Instance apiResourceLess_swo : StrictWeakOrder apiResourceLess.
Proof. rewrite apiResourceLess_lex. apply _. Qed.

Lemma apiResourceLess_total x y : apiResourceLess x y = false -> apiResourceLess y x = false -> x = y.
Proof.
  rewrite apiResourceLess_lex. intros H1 H2.
  destruct (lexBy_equiv _ _ _ _ H1 H2) as (E1 & H3 & H4). destruct (lexBy_equiv _ _ _ _ H3 H4) as (E2 & H5 & H6).
  destruct (lexBy_equiv _ _ _ _ H5 H6) as (E3 & H7 & H8). destruct (lexBy_equiv _ _ _ _ H7 H8) as (E4 & H9 & H10).
  destruct (lexBy_equiv _ _ _ _ H9 H10) as (E5 & _). destruct x, y. simpl in *. congruence.
Qed.

(** No two different taints agree on key and value: [taintLess] then orders them
    all. *)
Definition taints_ordered (c : FederatedCluster) : Prop := forall x y,
  x ∈ Taints c -> y ∈ Taints c -> t_Key x = t_Key y -> t_Value x = t_Value y -> x = y.

(** The same cluster, with its API resources listed in any order, and its taints
    in any order if it has [taints_ordered]. *)
Record similar (c c' : FederatedCluster) : Prop := {
  sim_Name : c_Name c' = c_Name c;
  sim_Labels : c_Labels c' = c_Labels c;
  sim_Taints : Taints c' = Taints c \/ taints_ordered c /\ Taints c' ≡ₚ Taints c;
  sim_API : APIResourceTypes (Status c') ≡ₚ APIResourceTypes (Status c)
}.

#[export] Instance similar_refl : Reflexive similar.
Proof. intros c. split; auto. Qed.

Lemma similar_taints c c' : similar c c' -> sort_slice taintLess (Taints c') = sort_slice taintLess (Taints c).
Proof using Type.
  intros [_ _ [->|[Hord Hp]] _]; [done|]. apply (sorted_perm_unique taintLess).
  - by rewrite !sort_slice_perm.
  - intros x y Hx Hy Hxy Hyx. rewrite elem_of_sort_slice, Hp in Hx, Hy.
    pose proof (taintLess_equiv x y Hxy Hyx) as [= Hk Hv]. by apply Hord.
  - apply sort_slice_sorted, _.
  - apply sort_slice_sorted, _.
Qed.

Lemma similar_api c c' : similar c c' ->
  sort_slice apiResourceLess (APIResourceTypes (Status c')) = sort_slice apiResourceLess (APIResourceTypes (Status c)).
Proof using Type.
  intros [_ _ _ Hp]. apply (sorted_perm_unique apiResourceLess).
  - by rewrite !sort_slice_perm.
  - intros x y _ _. apply apiResourceLess_total.
  - apply sort_slice_sorted, _.
  - apply sort_slice_sorted, _.
Qed.

(** [l] are the hashes of [cs]. *)
Definition hashed (hash : FederatedCluster -> string + string) (cs : list FederatedCluster)
    (l : list (string * string)) : Prop := Forall2 (fun c p => p.1 = c_Name c /\ hash c = inl p.2) cs l.

Definition insert_all (ret : gmap string string) (l : list (string * string)) : gmap string string :=
  foldl (fun m p => <[p.1 := p.2]> m) ret l.

Lemma hashClusters_iff hash ret cs m :
  hashClusters hash ret cs = inl m <-> exists l, hashed hash cs l /\ m = insert_all ret l.
Proof using Type.
  unfold hashed, insert_all. revert ret. induction cs as [|c cs IH]; intros ret; simpl; split.
  - intros [= <-]. exists []. split; [constructor|done].
  - intros (l & Hl & ->). by apply Forall2_nil_inv_l in Hl as ->.
  - destruct (hash c) as [h|] eqn:Eh; [|done]. intros (l & Hl & ->)%IH. exists ((c_Name c, h) :: l).
    split; [by constructor|done].
  - intros (l & Hl & ->). apply Forall2_cons_inv_l in Hl as ([n h] & l' & [Hn Hh] & Hl & ->). simpl in *. subst n.
    rewrite Hh. apply IH. by exists l'.
Qed.

Lemma hashed_fst hash cs l : hashed hash cs l -> l.*1 = c_Name <$> cs.
Proof. induction 1 as [|c p cs l [H _] _ IH]; [done|]. rewrite !fmap_cons. by rewrite H, IH. Qed.

Lemma insert_all_perm l l' : NoDup l.*1 -> l ≡ₚ l' -> insert_all ∅ l = insert_all ∅ l'.
Proof.
  intros Hnd Hp. assert (Hnd' : NoDup l'.*1) by (by rewrite <- Hp).
  pose proof (foldl_point_list (V := string) (fun (m : gmap string string) k => m !! k) (fun _ _ h => Some h)
    (fun m p => <[p.1 := p.2]> m)) as Hobs.
  assert (Hstep : forall (s : gmap string string) k v n,
    <[(k, v).1 := (k, v).2]> s !! n = if decide (n = k) then Some v else s !! n).
  { intros s k v n. simpl. case_decide as E; [subst; apply lookup_insert_eq|by rewrite lookup_insert_ne]. }
  apply map_eq. intros k. unfold insert_all. rewrite !(Hobs Hstep) by done.
  by rewrite (list_to_map_proper (M := gmap string) l l' Hnd Hp).
Qed.

Lemma hashed_similar hash cs l0 cs' l : (forall c c', similar c c' -> hash c' = hash c) ->
  cs ≡ₚ l0 -> Forall2 similar l0 cs' -> hashed hash cs l -> exists l', hashed hash cs' l' /\ l ≡ₚ l'.
Proof.
  intros Hhash Hp Hsim Hl. destruct (Permutation_Forall2 Hp Hl) as (l' & Hll' & Hl').
  exists l'. split; [|done]. clear Hll' Hp Hl. unfold hashed in *. revert cs' Hsim.
  induction Hl' as [|c p l0 l' [Hn Hh] _ IH]; intros cs' Hsim.
  - apply Forall2_nil_inv_l in Hsim as ->. constructor.
  - apply Forall2_cons_inv_l in Hsim as (c' & cs'' & Hc & Hsim & ->). constructor; [|by apply IH].
    by rewrite Hn, (Hhash _ _ Hc), (sim_Name _ _ Hc).
Qed.

Lemma hashClusters_similar hash cs l0 cs' m : (forall c c', similar c c' -> hash c' = hash c) ->
  cs ≡ₚ l0 -> Forall2 similar l0 cs' -> NoDup (c_Name <$> cs) ->
  hashClusters hash ∅ cs = inl m -> hashClusters hash ∅ cs' = inl m.
Proof using Type.
  intros Hhash Hp Hsim Hnd (l & Hl & ->)%hashClusters_iff. apply hashClusters_iff.
  destruct (hashed_similar hash cs l0 cs' l) as (l' & Hl' & Hll'); [done..|].
  exists l'. split; [done|]. apply insert_all_perm; [|done]. by rewrite (hashed_fst _ _ _ Hl).
Qed.

Lemma similar_names l0 cs' : Forall2 similar l0 cs' -> c_Name <$> cs' = c_Name <$> l0.
Proof. induction 1 as [|c c' l0 cs' H _ IH]; [done|]. rewrite !fmap_cons. by rewrite (sim_Name _ _ H), IH. Qed.

Lemma try_inl {A B} (x : A + string) (f : A -> B + string) b :
  try x f = inl b <-> exists a, x = inl a /\ f a = inl b.
Proof. unfold try. destruct x; naive_solver. Qed.

Lemma wrapError_inl {A} what (x : A + string) a : wrapError what x = inl a <-> x = inl a.
Proof. unfold wrapError. destruct x; naive_solver. Qed.

(** The triggers of a permutation of the clusters. *)
Definition with_clusters (t : schedulingTriggers) (names : list string) : schedulingTriggers := {|
  SchedulingAnnotationsHash := SchedulingAnnotationsHash t; ReplicaCount := ReplicaCount t;
  st_ResourceRequest := st_ResourceRequest t; AutoMigrationInfoText := AutoMigrationInfoText t;
  PolicyName := PolicyName t; PolicySchedulingContentHash := PolicySchedulingContentHash t;
  st_Clusters := names; ClusterLabelsHashes := ClusterLabelsHashes t;
  ClusterTaintsHashes := ClusterTaintsHashes t;
  ClusterAPIResourceTypesHashes := ClusterAPIResourceTypesHashes t
|}.

Lemma computeSchedulingTriggers_similar ftc o policy cs l0 cs' t :
  cs ≡ₚ l0 -> Forall2 similar l0 cs' -> NoDup (c_Name <$> cs) ->
  computeSchedulingTriggers ftc o policy cs = inl t ->
  computeSchedulingTriggers ftc o policy cs' = inl (with_clusters t (c_Name <$> cs')).
Proof using Type.
  intros Hp Hsim Hnd. unfold computeSchedulingTriggers.
  rewrite !try_inl. intros (ah & Hah & H). apply try_inl in H as (rc & Hrc & H).
  apply try_inl in H as (rr & Hrr & H). apply try_inl in H as ([[pn am] ch] & Hpol & H).
  apply try_inl in H as (lh & Hlh & H). apply try_inl in H as (th & Hth & H).
  apply try_inl in H as (apih & Hapi & [= <-]).
  exists ah. split; [done|]. rewrite Hrc, Hrr, Hpol. simpl.
  apply wrapError_inl in Hlh, Hth, Hapi.
  unfold getClusterLabelsHashes, getClusterTaintsHashes, getClusterAPIResourceTypesHashes in *.
  erewrite hashClusters_similar; [|intros c c' Hc; by rewrite (sim_Labels _ _ Hc)|done..]. simpl.
  erewrite hashClusters_similar; [|intros c c' Hc; by rewrite (similar_taints _ _ Hc)|done..]. simpl.
  erewrite hashClusters_similar; [|intros c c' Hc; by rewrite (similar_api _ _ Hc)|done..]. done.
Qed.

Lemma computeSchedulingTriggers_clusters ftc o policy cs t :
  computeSchedulingTriggers ftc o policy cs = inl t -> st_Clusters t = c_Name <$> cs.
Proof using Type.
  unfold computeSchedulingTriggers. intros H.
  apply try_inl in H as (ah & _ & H). apply try_inl in H as (rc & _ & H).
  apply try_inl in H as (rr & _ & H). apply try_inl in H as ([[pn am] ch] & _ & H).
  apply try_inl in H as (lh & _ & H). apply try_inl in H as (th & _ & H).
  by apply try_inl in H as (apih & _ & [= <-]).
Qed.

(** The triggers of the clusters listed in another order ask for the same
    annotations, under a policy that says when to reschedule. *)
Lemma deferredReasonsOf_reordered trigger n names old : names ≡ₚ st_Clusters n ->
  deferredReasonsOf trigger (with_clusters n names) old = deferredReasonsOf trigger n old.
Proof using Type.
  intros Hp. assert (Hset : (list_to_set names : gset string) = list_to_set (st_Clusters n)) by (by rewrite Hp).
  unfold deferredReasonsOf, with_clusters. simpl. by rewrite Hset.
Qed.

Lemma deferredReasonsOf_refl trigger n : deferredReasonsOf trigger n n = Some [].
Proof using Type.
  unfold deferredReasonsOf.
  rewrite !(proj2 (isClusterTriggerChanged_false _ _)) by done. by rewrite String.eqb_refl, Z.eqb_refl, andb_false_r.
Qed.

(** Neither fails nor gives the empty text. *)
Definition marshals (n : schedulingTriggers) : Prop :=
  exists s, schedulingTriggers_Marshal n = inl s /\ s <> ""%string.

Lemma computeSchedulingAnnotations_reordered n names o policy trigger t d ch o' :
  names ≡ₚ st_Clusters n -> marshals n -> marshals (with_clusters n names) ->
  getIsStickyClusterFromPolicy policy = false -> pps_ReschedulePolicy (pol_Spec policy) ≫= Trigger = Some trigger ->
  computeSchedulingAnnotations n o (Some policy) = inl (t, d, ch) ->
  fo_Annotations o' !! SchedulingTriggersAnnotation = Some t ->
  computeSchedulingAnnotations (with_clusters n names) o' (Some policy) = inl (t, d, false).
Proof using Type.
  intros Hp (sn & Hsn & Hne) (sn' & Hsn' & Hne') Hst Htr H Ho'.
  pose proof (fun old => deferredReasonsOf_reordered trigger n names old Hp) as Hdef.
  assert (Hstable : forall old, compareStableTriggers (with_clusters n names) old = compareStableTriggers n old)
    by done.
  assert (Hcur : t <> ""%string /\
    ((t = sn /\ d = ""%string) \/
     exists old rs, schedulingTriggers_Unmarshal t = inl old /\ compareStableTriggers n old = false /\
       deferredReasonsOf trigger n old = Some rs /\ d = String.concat "; " rs)).
  { revert H. unfold computeSchedulingAnnotations. rewrite Hsn, Hst, Htr. cbv zeta.
    destruct (_ =? 0); [intros [= <- <- _]; auto|].
    destruct (negb _ || _ || _) eqn:E; [intros [= <- <- _]; auto|].
    apply orb_false_iff in E as [[_ E1%String.eqb_neq]%orb_false_iff _].
    destruct (schedulingTriggers_Unmarshal _) as [old|] eqn:Eu; [|intros [= <- <- _]; auto].
    destruct (compareStableTriggers n old) eqn:Ec; [intros [= <- <- _]; auto|].
    destruct (deferredReasonsOf trigger n old) as [rs|] eqn:Ed; [|intros [= <- <- _]; auto].
    intros [= <- <- _]. split; [done|]. right. by exists old, rs. }
  destruct Hcur as [Ht Hcur]. unfold computeSchedulingAnnotations. rewrite Hsn', Ho', Hst, Htr. cbv zeta.
  destruct (Z.eqb_spec (Z.of_nat (size (fo_Annotations o'))) 0) as [Hz|_].
  { assert (Hz' : size (fo_Annotations o') = 0%nat) by lia. apply map_size_empty_inv in Hz'.
    by rewrite Hz', lookup_empty in Ho'. }
  simpl. rewrite (proj2 (String.eqb_neq _ _) Ht). simpl.
  assert (Hsame : forall rs, deferredReasonsOf trigger n (with_clusters n names) = Some rs -> rs = []).
  { intros rs. rewrite <- (Hdef (with_clusters n names)), deferredReasonsOf_refl. by intros [= <-]. }
  destruct (String.eqb_spec t sn') as [->|Hneq].
  - destruct Hcur as [[-> ->]|(old & rs & Hu & _ & Hd & ->)]; [done|].
    rewrite (Marshal_Unmarshal _ _ Hsn') in Hu. injection Hu as <-. by rewrite (Hsame _ Hd).
  - destruct Hcur as [[-> ->]|(old & rs & Hu & Hc & Hd & ->)].
    + rewrite (Marshal_Unmarshal _ _ Hsn), Hstable, Hdef, deferredReasonsOf_refl.
      by rewrite (proj2 (compareStableTriggers_spec n n)) by done.
    + by rewrite Hu, Hstable, Hc, Hdef, Hd.
Qed.

(** C15. Under a policy, listing the same clusters and their API resources in
    another order does not schedule again and keeps the annotation; so does
    listing the taints of a cluster in another order when no two different
    taints of it agree on key and value ([taints_ordered], without which the
    hash of the taints depends on their order). *)
Theorem triggers_order_independent ftc o policy cs l0 cs' t s o' :
  cs ≡ₚ l0 -> Forall2 similar l0 cs' -> NoDup (c_Name <$> cs) ->
  computeSchedulingTriggers ftc o (Some policy) cs = inl t ->
  schedulingTriggers_Marshal t = inl s -> s <> ""%string ->
  fo_Annotations o' !! SchedulingTriggersAnnotation = Some s ->
  exists t', computeSchedulingTriggers ftc o (Some policy) cs' = inl t' /\
    forall s' d ch, computeSchedulingAnnotations t' o' (Some policy) = inl (s', d, ch) -> ch = false /\ s' = s.
Proof using Type.
  intros Hp Hsim Hnd Ht Hs Hne Ho'. eexists.
  split; [by eapply computeSchedulingTriggers_similar|]. intros s' d ch Hc.
  destruct (annotations_decision _ _ _ _ _ _ _ _ Hs Hne Ho' Hc) as (Hiff & _ & Hkeep).
  destruct ch; [|by auto]. exfalso. destruct Hiff as [Hiff _]. specialize (Hiff eq_refl).
  assert (Hcs : st_Clusters t ≡ₚ c_Name <$> cs').
  { rewrite (similar_names _ _ Hsim), <- Hp. by rewrite (computeSchedulingTriggers_clusters _ _ _ _ _ Ht). }
  destruct Hiff as [Hn|(_ & tr & _ & Ha)]; [by apply Hn|]. unfold acted_upon in Ha. simpl in Ha.
  destruct Ha as [[_ H]|[[_ H]|[H|[[_ H]|[_ H]]]]]; try by apply H.
  rewrite Hcs in H. by apply (irreflexivity (⊂)) in H.
Qed.
End Triggers.

(** ** Concrete inputs *)

Section Witnesses.
#[local] Existing Instance small_kubernetes.
#[local] Existing Instance small_runtime.
#[local] Existing Instance small_codecs.

Definition deployments : FederatedTypeConfig := {|
  ftc_Name := "deployments.apps";
  SourceType := {| ar_Group := "apps"; ar_Version := "v1"; ar_Kind := "Deployment";
                   ar_PluralName := "deployments"; ar_Scope := "Namespaced" |};
  ReplicasSpec := "spec.replicas"; ReplicasStatus := "status.replicas"; ReadyReplicasStatus := "status.readyReplicas";
  AutoMigrationEnabled := true; ftc_Annotations := ∅; StatusAggregationEnabled := false; StatusCollection := None;
  Controllers := [[PrefixedGlobalSchedulerName]; ["kubeadmiral.io/override"%string]]
|}.

(** Reschedules for new labels only. *)
Definition divide_policy : PropagationPolicy := {|
  pol_Namespace := "default"; pol_Name := "p";
  pol_Spec := {|
    pps_SchedulingProfile := ""; pps_SchedulingMode := SchedulingModeDivide; pps_ReplicasStrategy := None;
    pps_ClusterSelector := ∅; pps_ClusterAffinity := []; pps_Tolerations := []; pps_MaxClusters := None;
    pps_Placements := []; DisableFollowerScheduling := false; pps_AutoMigration := None;
    pps_ReschedulePolicy := Some {|
      DisableRescheduling := false;
      Trigger := Some {| PolicyContentChanged := false; ClusterJoinedTrigger := false;
                         ClusterLabelsChanged := true; ClusterAPIResourcesChanged := false |};
      rp_ReplicaRescheduling := None |}
  |}
|}.

Definition member (name zone : string) (taints : list Taint) : FederatedCluster := {|
  c_Name := name; c_Labels := {[ "zone"%string := zone ]}; c_Annotations := ∅; c_Finalizers := [];
  c_DeletionTimestamp := None; Taints := taints;
  Status := {| Conditions := [ {| cc_Type := ClusterJoined; cc_Status := "True" |} ];
               st_Resources := {| SchedulableNodes := None; Allocatable := ∅; Available := ∅ |};
               APIResourceTypes := [ SourceType deployments ]; JoinPerformed := true |}
|}.

Definition taint (effect : string) : Taint := {| t_Key := "k"; t_Value := "v"; t_Effect := effect |}.

Definition two_members : list FederatedCluster := [ member "a" "x" [taint "NoSchedule"]; member "b" "y" [] ].

(** The triggers of a federated deployment; [some_triggers] stands for an error. *)
Definition some_triggers : schedulingTriggers := {|
  SchedulingAnnotationsHash := ""; ReplicaCount := 0; st_ResourceRequest := emptyResource;
  AutoMigrationInfoText := None; PolicyName := ""; PolicySchedulingContentHash := ""; st_Clusters := [];
  ClusterLabelsHashes := ∅; ClusterTaintsHashes := ∅; ClusterAPIResourceTypesHashes := ∅
|}.
Definition triggers_for (policy : option PropagationPolicy) (cs : list FederatedCluster) : schedulingTriggers :=
  match computeSchedulingTriggers deployments (fed0 []) policy cs with inl t => t | inr _ => some_triggers end.
Definition text_of (t : schedulingTriggers) : string :=
  match schedulingTriggers_Marshal t with inl s => s | inr _ => "" end.

(** The deployment scheduled with the triggers [t]. *)
Definition scheduled_with (t : schedulingTriggers) : FederatedObject :=
  SetAnnotations (fed0 []) (<[SchedulingTriggersAnnotation := text_of t]> (fo_Annotations (fed0 []))).

Definition swapped_members : list FederatedCluster := [ member "b" "y" []; member "a" "x" [taint "NoSchedule"] ].

Definition relabelled : list FederatedCluster := [ member "a" "z" [taint "NoSchedule"]; member "b" "y" [] ].

Lemma triggers_settle_witness :
  exists t o' changed,
    computeSchedulingAnnotations (triggers_for None two_members) (fed0 []) None = inl (t, ""%string, true) /\
    updateSchedulingAnnotations t "" (fed0 []) = inl (o', changed) /\
    computeSchedulingAnnotations (triggers_for None two_members) o' None = inl (t, ""%string, false).
Proof.
  assert (H : computeSchedulingAnnotations (triggers_for None two_members) (fed0 []) None =
    inl (text_of (triggers_for None two_members), ""%string, true)) by (vm_compute; reflexivity).
  destruct (triggers_settle _ _ _ _ _ _ H) as (o' & changed & Hu & _ & Hc & _). eexists _, o', changed. split_and!; [exact H|exact Hu|exact Hc].
Defined.

Lemma computeSchedulingAnnotations_spec_witness :
  must_schedule divide_policy (triggers_for (Some divide_policy) relabelled)
    (triggers_for (Some divide_policy) two_members).
Proof.
  refine (proj1 (proj1 (computeSchedulingAnnotations_spec (triggers_for (Some divide_policy) relabelled)
    (triggers_for (Some divide_policy) two_members)
    (scheduled_with (triggers_for (Some divide_policy) two_members)) divide_policy
    (text_of (triggers_for (Some divide_policy) two_members))
    (text_of (triggers_for (Some divide_policy) relabelled)) "" true _ _ _ _)) eq_refl); vm_compute; done.
Defined.

(** [two_members] in another order, the taints of "a" too. *)
Definition other_taint : Taint := {| t_Key := "maintenance"; t_Value := ""; t_Effect := "NoExecute" |}.
Definition tainted (ts : list Taint) : list FederatedCluster := [ member "a" "x" ts; member "b" "y" [] ].
Definition retainted : list FederatedCluster :=
  [ member "b" "y" []; member "a" "x" [other_taint; taint "NoSchedule"] ].

Lemma triggers_order_independent_witness :
  let cs := tainted [taint "NoSchedule"; other_taint] in
  exists t', computeSchedulingTriggers deployments (fed0 []) (Some divide_policy) retainted = inl t' /\
    forall s' d ch,
      computeSchedulingAnnotations t' (scheduled_with (triggers_for (Some divide_policy) cs))
        (Some divide_policy) = inl (s', d, ch) ->
      ch = false /\ s' = text_of (triggers_for (Some divide_policy) cs).
Proof.
  intros cs. apply (triggers_order_independent deployments (fed0 []) divide_policy cs
    [member "b" "y" []; member "a" "x" [taint "NoSchedule"; other_taint]] retainted
    (triggers_for (Some divide_policy) cs) (text_of (triggers_for (Some divide_policy) cs))
    (scheduled_with (triggers_for (Some divide_policy) cs))).
  - apply Permutation_swap.
  - apply Forall2_cons_2; [done|]. apply Forall2_cons_2; [|apply Forall2_nil_2].
    split; [done..| |done]. right. split; [|apply Permutation_swap].
    intros x y Hx Hy Hk _. simpl in Hx, Hy. each_member; try done; discriminate Hk.
  - apply (bool_decide_eq_true _). vm_compute. reflexivity.
  - vm_compute. reflexivity.
  - vm_compute. reflexivity.
  - vm_compute. discriminate.
  - vm_compute. reflexivity.
Defined.

(** Without a policy the texts are compared, so that the same clusters in
    another order schedule again. *)
Lemma no_policy_order_reschedules :
  computeSchedulingAnnotations (triggers_for None swapped_members)
    (scheduled_with (triggers_for None two_members)) None =
  inl (text_of (triggers_for None swapped_members), ""%string, true).
Proof. vm_compute. reflexivity. Qed.

(** Under a policy that disables rescheduling they do not, but a reason is given
    and written for a deferred change, although there is none. *)
Lemma sticky_order_deferred :
  let sticky := {|
    pol_Namespace := "default"; pol_Name := "p";
    pol_Spec := {|
      pps_SchedulingProfile := ""; pps_SchedulingMode := SchedulingModeDivide; pps_ReplicasStrategy := None;
      pps_ClusterSelector := ∅; pps_ClusterAffinity := []; pps_Tolerations := []; pps_MaxClusters := None;
      pps_Placements := []; DisableFollowerScheduling := false; pps_AutoMigration := None;
      pps_ReschedulePolicy := Some {| DisableRescheduling := true; Trigger := None; rp_ReplicaRescheduling := None |}
    |}
  |} in
  computeSchedulingAnnotations (triggers_for (Some sticky) swapped_members)
    (scheduled_with (triggers_for (Some sticky) two_members)) (Some sticky) =
  inl (text_of (triggers_for (Some sticky) two_members), "disableRescheduling:true"%string, false).
Proof. vm_compute. reflexivity. Qed.

(** Taints that differ in the effect only are hashed in the order they come. *)
Lemma taints_hashed_in_order :
  getClusterTaintsHashes [member "a" "x" [taint "NoSchedule"; taint "NoExecute"]] <>
  getClusterTaintsHashes [member "a" "x" [taint "NoExecute"; taint "NoSchedule"]].
Proof. vm_compute. discriminate. Qed.
End Witnesses.
