(* ===== verification/SchedulingUnit.v ===== *)
(** * From a federated object and its policy to a scheduling unit

    [schedulingunit.go] and the helpers of [util.go]: what the policy says, what
    the annotations of the object override, and how a scheduling result is read
    back from the object. *)

From Stdlib Require Import ZArith Lia String Ascii.
From S2P Require Import Prelude K8s Types ApiTypes Unstructured Codecs FedObject Resources PodUtil Triggers.

Definition overridePatchOpReplace : string := "replace".

(** The policy of an object: a policy of its namespace first. *)
Definition GetMatchedPolicyKey (obj : FederatedObject) : option QualifiedName :=
  let isNamespaced := negb (String.eqb (fo_Namespace obj) "") in
  match fo_Labels obj !! PropagationPolicyNameLabel, isNamespaced with
  | Some policyName, true => Some {| qn_Namespace := fo_Namespace obj; qn_Name := policyName |}
  | _, _ =>
      match fo_Labels obj !! ClusterPropagationPolicyNameLabel with
      | Some policyName => Some {| qn_Namespace := ""; qn_Name := policyName |}
      | None => None
      end
  end.

Section SchedulingUnit.
Context `{K : Kubernetes} `{R : GoRuntime} `{C : !Codecs}.

(** ** Replicas in the overrides *)

(** The override that sets the replicas of one cluster. *)
Definition replicasOverride (replicasPath cluster replicasRaw : string) : ClusterReferenceWithPatches := {|
  crp_Cluster := cluster;
  Patches := [ {| Op := overridePatchOpReplace; Path := replicasPath; op_Value := replicasRaw |} ]
|}.

Fixpoint newOverrides (replicasPath : string) (result : list (string * Z))
    : list ClusterReferenceWithPatches + string :=
  match result with
  | [] => inl []
  | (cluster, replicas) :: result' =>
      match Marshal_int64 replicas with
      | inr err => inr ("failed to marshal replicas value: " ++ err)%string
      | inl replicasRaw =>
          match newOverrides replicasPath result' with
          | inr err => inr err
          | inl overrides => inl (replicasOverride replicasPath cluster replicasRaw :: overrides)
          end
      end
  end.

Definition UpdateReplicasOverride (ftc : FederatedTypeConfig) (fedObject : FederatedObject)
    (result : gmap string Z) : (FederatedObject * bool) + string :=
  let replicasPath := ToSlashPath (ReplicasSpec ftc) in
  match newOverrides replicasPath (range_map result) with
  | inr err => inr err
  | inl overrides =>
      let '(spec, updated) :=
        SetControllerOverrides (fo_Spec fedObject) PrefixedGlobalSchedulerName overrides in
      inl (setSpec fedObject spec, updated)
  end.

(** The replicas that the patches of one cluster set: the first patch that
    replaces them with a number. *)
Fixpoint patchedReplicas (replicasPath : string) (patches : list OverridePatch) : option Z :=
  match patches with
  | [] => None
  | patch :: patches' =>
      if String.eqb (Path patch) replicasPath &&
         (String.eqb (Op patch) overridePatchOpReplace || String.eqb (Op patch) "") then
        match Unmarshal_int64 (op_Value patch) with
        | inr _ => patchedReplicas replicasPath patches'
        | inl replicas => Some replicas
        end
      else patchedReplicas replicasPath patches'
  end.

(** It never returns an error. *)
Definition getCurrentReplicasFromObject (ftc : FederatedTypeConfig) (fedObject : FederatedObject)
    : gmap string (option Z) :=
  let placements := GetControllerPlacement (fo_Spec fedObject) PrefixedGlobalSchedulerName in
  let overrides := GetControllerOverrides (fo_Spec fedObject) PrefixedGlobalSchedulerName in
  let res : gmap string (option Z) :=
    foldl (fun res placement => <[cref_Cluster placement := None]> res) ∅ placements in
  let replicasPath := ToSlashPath (ReplicasSpec ftc) in
  foldl (fun res override =>
    match res !! crp_Cluster override with
    | None => res
    | Some _ =>
        match patchedReplicas replicasPath (Patches override) with
        | Some replicas => <[crp_Cluster override := Some replicas]> res
        | None => res
        end
    end) res overrides.

(** ** Custom migrations *)

Fixpoint validateReplicasMigrations (clusters : gset string) (l : list ReplicasMigration)
    : gset string + string :=
  match l with
  | [] => inl clusters
  | m :: l' =>
      if String.eqb (rm_Cluster m) "" then inr "cluster cannot be empty"%string
      else match rm_LimitedCapacity m with
           | None => inr "limitedCapacity cannot be empty"%string
           | Some capacity =>
               if capacity <? 0 then inr "limitedCapacity cannot be less than zero"%string
               else if bool_decide (rm_Cluster m ∈ clusters) then
                 inr "multiple migration configurations cannot be configured for the same cluster"%string
               else validateReplicasMigrations ({[rm_Cluster m]} ∪ clusters) l'
           end
  end.

Fixpoint validateWorkloadMigrations (clusters : gset string) (l : list WorkloadMigration)
    : gset string + string :=
  match l with
  | [] => inl clusters
  | m :: l' =>
      if String.eqb (wm_Cluster m) "" then inr "cluster cannot be empty"%string
      else match wm_ValidUntil m with
           | None => inr "validUntil cannot be empty"%string
           | Some _ =>
               if bool_decide (wm_Cluster m ∈ clusters) then
                 inr "multiple migration configurations cannot be configured for the same cluster"%string
               else validateWorkloadMigrations ({[wm_Cluster m]} ∪ clusters) l'
           end
  end.

(** The template must have replicas for migrations of replicas. *)
Definition supportsReplicas (fedObj : FederatedObject) (ftc : FederatedTypeConfig) : unit + string :=
  match GetTemplateAsUnstructured (fo_Spec fedObj) with
  | inr err => inr err
  | inl sourceObj =>
      match GetInt64FromPath sourceObj (ReplicasSpec ftc) [] with
      | inl (Some _) => inl tt
      | _ => inr "workload does not support the replica migration configurations"%string
      end
  end.

(** [inl tt] is the nil error. *)
Definition validateMigrationConfig (migrationConfig : MigrationConfig) (fedObj : FederatedObject)
    (ftc : FederatedTypeConfig) : unit + string :=
  match (match ReplicasMigrations migrationConfig with [] => inl tt | _ => supportsReplicas fedObj ftc end) with
  | inr err => inr err
  | inl _ =>
      match validateReplicasMigrations ∅ (ReplicasMigrations migrationConfig) with
      | inr err => inr err
      | inl clusters =>
          match validateWorkloadMigrations clusters (WorkloadMigrations migrationConfig) with
          | inr err => inr err
          | inl _ => inl tt
          end
      end
  end.

(** Dereferencing a pointer. *)
Definition deref {A} (p : option A) : may_panic A :=
  match p with Some a => Returns a | None => Panics end.

Fixpoint limitedCapacity (acc : option (gmap string Z)) (l : list ReplicasMigration)
    : may_panic (option (gmap string Z)) :=
  match l with
  | [] => mret acc
  | m :: l' =>
      capacity ← deref (rm_LimitedCapacity m);
      limitedCapacity (Some (<[rm_Cluster m := capacity]> (default ∅ acc))) l'
  end.

Definition unavailableClusters (l : list WorkloadMigration) : may_panic (list UnavailableCluster) :=
  mapM (fun m => validUntil ← deref (wm_ValidUntil m);
                 mret {| uc_Cluster := wm_Cluster m; uc_ValidUntil := validUntil |}) l.

Definition convertToCustomMigrationInfo (migrationConfig : MigrationConfig) : may_panic CustomMigrationInfo :=
  capacity ← limitedCapacity None (ReplicasMigrations migrationConfig);
  unavailable ← unavailableClusters (WorkloadMigrations migrationConfig);
  mret {| LimitedCapacity := capacity;
          UnavailableClusters := sort_slice (fun x y => String.ltb (uc_Cluster x) (uc_Cluster y)) unavailable |}.

Definition getCustomMigrationInfoBytes (existingMigrationConfigBytes : string) (fedObj : FederatedObject)
    (ftc : FederatedTypeConfig) : may_panic (string + string) :=
  match Unmarshal_MigrationConfig existingMigrationConfigBytes with
  | inr err => mret (inr err)
  | inl existingMigrationConfig =>
      match validateMigrationConfig existingMigrationConfig fedObj ftc with
      | inr err => mret (inr err)
      | inl _ =>
          customMigrationInfo ← convertToCustomMigrationInfo existingMigrationConfig;
          mret (Marshal_CustomMigrationInfo customMigrationInfo)
      end
  end.

(** ** What the policy says *)

Definition getSchedulingModeFromPolicy (policy : PropagationPolicy) : string :=
  if String.eqb (pps_SchedulingMode (pol_Spec policy)) SchedulingModeDuplicate then SchedulingModeDuplicate
  else if String.eqb (pps_SchedulingMode (pol_Spec policy)) SchedulingModeDivide then SchedulingModeDivide
  else DefaultSchedulingMode.

Definition getReplicasStrategyFromPolicy (policy : PropagationPolicy) : string :=
  match pps_ReplicasStrategy (pol_Spec policy) with
  | None => ReplicasStrategySpread
  | Some strategy =>
      if String.eqb strategy ReplicasStrategyBinpack then ReplicasStrategyBinpack
      else ReplicasStrategySpread
  end.

Definition getAvoidDisruptionFromPolicy (policy : PropagationPolicy) : bool :=
  match pps_ReschedulePolicy (pol_Spec policy) ≫= rp_ReplicaRescheduling with
  | Some rr => rr_AvoidDisruption rr
  | None => false
  end.

Definition getClusterSelectorFromPolicy (policy : PropagationPolicy) : gmap string string :=
  pps_ClusterSelector (pol_Spec policy).

Definition getAffinityFromPolicy (policy : PropagationPolicy) : option Affinity :=
  match pps_ClusterAffinity (pol_Spec policy) with
  | [] => None
  | terms => Some {| aff_ClusterAffinity := Some {|
      RequiredDuringSchedulingIgnoredDuringExecution := Some {| ClusterSelectorTerms := terms |};
      PreferredDuringSchedulingIgnoredDuringExecution := [] |} |}
  end.

Definition getTolerationsFromPolicy (policy : PropagationPolicy) : list Toleration :=
  pps_Tolerations (pol_Spec policy).

Definition getMaxClustersFromPolicy (policy : PropagationPolicy) : option Z :=
  pps_MaxClusters (pol_Spec policy).

(** The loop of the functions below: the preference of each placement that has
    one; a later placement of the same cluster replaces an earlier one.  The
    nil map of a policy without placements is the empty map. *)
Definition preferenceMap (preference : Preferences -> option Z) (placements : list DesiredPlacement)
    : gmap string Z :=
  foldl (fun m placement =>
    match preference (dp_Preferences placement) with
    | Some v => <[dp_Cluster placement := v]> m
    | None => m
    end) ∅ placements.

Definition minReplicasOf (p : Preferences) : option Z := Some (pr_MinReplicas p).

Definition getWeightsFromPolicy (policy : PropagationPolicy) : gmap string Z :=
  preferenceMap pr_Weight (pps_Placements (pol_Spec policy)).
Definition getPrioritiesFromPolicy (policy : PropagationPolicy) : gmap string Z :=
  preferenceMap pr_Priority (pps_Placements (pol_Spec policy)).
Definition getMinReplicasFromPolicy (policy : PropagationPolicy) : gmap string Z :=
  preferenceMap minReplicasOf (pps_Placements (pol_Spec policy)).
Definition getMaxReplicasFromPolicy (policy : PropagationPolicy) : gmap string Z :=
  preferenceMap pr_MaxReplicas (pps_Placements (pol_Spec policy)).

Definition getClusterNamesFromPolicy (policy : PropagationPolicy) : gset string :=
  foldl (fun clusterNames placement => {[dp_Cluster placement]} ∪ clusterNames) ∅
    (pps_Placements (pol_Spec policy)).

(** ** What the annotations override

    [None] is the result [false] of the code: the annotation is absent or
    invalid. *)

Definition getSchedulingModeFromObject (fedObject : FederatedObject) : option string :=
  match fo_Annotations fedObject !! SchedulingModeAnnotation with
  | None => None
  | Some annotation =>
      if String.eqb annotation SchedulingModeDuplicate then Some SchedulingModeDuplicate
      else if String.eqb annotation SchedulingModeDivide then Some SchedulingModeDivide
      else None
  end.

Definition getAutoMigrationInfo (fedObject : FederatedObject) : option AutoMigrationInfo + string :=
  match fo_Annotations fedObject !! AutoMigrationInfoAnnotation with
  | None => inl None
  | Some value =>
      match Unmarshal_AutoMigrationInfo value with
      | inr err => inr err
      | inl autoMigrationInfo => inl (Some autoMigrationInfo)
      end
  end.

Definition getCustomMigrationInfo (fedObject : FederatedObject) : option CustomMigrationInfo + string :=
  match fo_Annotations fedObject !! AppliedMigrationConfigurationAnnotation with
  | None => inl None
  | Some value =>
      match Unmarshal_CustomMigrationInfo value with
      | inr err => inr err
      | inl customMigrationInfo => inl (Some customMigrationInfo)
      end
  end.

Definition getIsStickyClusterFromObject (object : FederatedObject) : option bool :=
  match fo_Annotations object !! StickyClusterAnnotation with
  | None => None
  | Some annotation =>
      if String.eqb annotation StickyClusterAnnotationTrue then Some true
      else if String.eqb annotation StickyClusterAnnotationFalse then Some false
      else None
  end.

(** An annotation that is decoded; errors are logged. *)
Definition decodeAnnotation {A} (key : string) (unmarshal : string -> A + string)
    (object : FederatedObject) : option A :=
  match fo_Annotations object !! key with
  | None => None
  | Some annotation =>
      match unmarshal annotation with
      | inr _ => None
      | inl a => Some a
      end
  end.

Definition getClusterSelectorFromObject : FederatedObject -> option (gmap string string) :=
  decodeAnnotation ClusterSelectorAnnotations Unmarshal_StringMap.
Definition getAffinityFromObject : FederatedObject -> option Affinity :=
  decodeAnnotation AffinityAnnotations Unmarshal_Affinity.
Definition getTolerationsFromObject : FederatedObject -> option (list Toleration) :=
  decodeAnnotation TolerationsAnnotations Unmarshal_Tolerations.

Definition getMaxClustersFromObject (object : FederatedObject) : option Z :=
  match fo_Annotations object !! MaxClustersAnnotations with
  | None => None
  | Some annotation =>
      match Atoi annotation with
      | inr _ => None
      | inl maxClusters => if maxClusters <? 0 then None else Some maxClusters
      end
  end.

(** The preferences of the placements annotation, unless one is negative. *)
Definition preferencesFromObject (preference : Preferences -> option Z) (object : FederatedObject)
    : option (gmap string Z) :=
  match decodeAnnotation PlacementsAnnotations Unmarshal_DesiredPlacements object with
  | None => None
  | Some placements =>
      let m := preferenceMap preference placements in
      if existsb (fun '(_, v) => v <? 0) (range_map m) then None else Some m
  end.

Definition getWeightsFromObject : FederatedObject -> option (gmap string Z) :=
  preferencesFromObject pr_Weight.
Definition getPrioritiesFromObject : FederatedObject -> option (gmap string Z) :=
  preferencesFromObject pr_Priority.
Definition getMinReplicasFromObject : FederatedObject -> option (gmap string Z) :=
  preferencesFromObject minReplicasOf.
Definition getMaxReplicasFromObject : FederatedObject -> option (gmap string Z) :=
  preferencesFromObject pr_MaxReplicas.

Definition getClusterNamesFromObject (object : FederatedObject) : option (gset string) :=
  match decodeAnnotation PlacementsAnnotations Unmarshal_ClusterReferences object with
  | None => None
  | Some placements =>
      Some (foldl (fun clusterNames placement => {[cref_Cluster placement]} ∪ clusterNames) ∅ placements)
  end.

(** ** The scheduling unit *)

(** The mode and the replicas to divide; without a replicas path the replicas
    cannot be divided. *)
Definition schedulingModeAndReplicas (typeConfig : FederatedTypeConfig) (fedObject : FederatedObject)
    (policy : PropagationPolicy) (template : Unstructured) : (string * option Z) + string :=
  let schedulingMode := default (getSchedulingModeFromPolicy policy) (getSchedulingModeFromObject fedObject) in
  let schedulingMode :=
    if String.eqb schedulingMode SchedulingModeDivide && String.eqb (ReplicasSpec typeConfig) ""
    then SchedulingModeDuplicate else schedulingMode in
  if String.eqb schedulingMode SchedulingModeDivide then
    match GetInt64FromPath template (ReplicasSpec typeConfig) [] with
    | inr err => inr err
    | inl None => inr ("replicas path " ++ ReplicasSpec typeConfig ++
                       " does not exist for FederatedObject")%string
    | inl (Some value) => inl (schedulingMode, Some value)
    end
  else inl (schedulingMode, None).

Definition autoMigrationFor (fedObject : FederatedObject) (policy : PropagationPolicy)
    : option AutoMigrationSpec + string :=
  match pps_AutoMigration (pol_Spec policy) with
  | None => inl None
  | Some autoMigration =>
      match getAutoMigrationInfo fedObject with
      | inr err => inr err
      | inl info => inl (Some {| am_Info := info;
                                 KeepUnschedulableReplicas := pam_KeepUnschedulableReplicas autoMigration |})
      end
  end.

(** Only GPUs and katalyst resources of the request are considered. *)
Definition consideredRequest (enableKatalystSupport : bool) (resourceRequest : Resource) : Resource :=
  let request :=
    if HasScalarResource resourceRequest ResourceGPU
    then SetScalar emptyResource ResourceGPU (getScalar resourceRequest ResourceGPU)
    else emptyResource in
  if enableKatalystSupport then
    foldl (fun request '(name, quantity) => SetScalar request name quantity)
      request (range_map (GetKatalystResources resourceRequest))
  else request.

Definition schedulingUnitForFedObject (typeConfig : FederatedTypeConfig) (fedObject : FederatedObject)
    (policy : PropagationPolicy) (enableKatalystSupport : bool) : SchedulingUnit + string :=
  try (wrapError "error retrieving template from FederatedObject"
         (GetTemplateAsUnstructured (fo_Spec fedObject))) (fun template =>
  try (schedulingModeAndReplicas typeConfig fedObject policy template) (fun '(schedulingMode, desiredReplicas) =>
  let currentReplicas := getCurrentReplicasFromObject typeConfig fedObject in
  try (autoMigrationFor fedObject policy) (fun autoMigration =>
  try (getCustomMigrationInfo fedObject) (fun info =>
  try (getResourceRequest typeConfig fedObject) (fun resourceRequest =>
  inl {|
    su_GroupVersion := {| gv_Group := ar_Group (SourceType typeConfig); gv_Version := ar_Version (SourceType typeConfig) |};
    su_Kind := ar_Kind (SourceType typeConfig);
    su_Resource := ar_PluralName (SourceType typeConfig);
    su_Namespace := uns_GetNamespace template;
    su_Name := uns_GetName template;
    su_Labels := uns_GetLabels template;
    su_Annotations := uns_GetAnnotations template;
    DesiredReplicas := desiredReplicas;
    ResourceRequest := consideredRequest enableKatalystSupport resourceRequest;
    CurrentClusters := currentReplicas;
    AutoMigration := autoMigration;
    CustomMigration := {| cm_Info := info |};
    SchedulingMode := schedulingMode;
    ReplicasStrategy := getReplicasStrategyFromPolicy policy;
    StickyCluster := default (getIsStickyClusterFromPolicy policy) (getIsStickyClusterFromObject fedObject);
    AvoidDisruption := getAvoidDisruptionFromPolicy policy;
    su_ClusterSelector := default (getClusterSelectorFromPolicy policy) (getClusterSelectorFromObject fedObject);
    ClusterNames := default (getClusterNamesFromPolicy policy) (getClusterNamesFromObject fedObject);
    su_Affinity := match getAffinityFromObject fedObject with
                   | Some affinity => Some affinity
                   | None => getAffinityFromPolicy policy
                   end;
    Tolerations := default (getTolerationsFromPolicy policy) (getTolerationsFromObject fedObject);
    MaxClusters := match getMaxClustersFromObject fedObject with
                   | Some maxClusters => Some maxClusters
                   | None => getMaxClustersFromPolicy policy
                   end;
    su_MinReplicas := default (getMinReplicasFromPolicy policy) (getMinReplicasFromObject fedObject);
    su_MaxReplicas := default (getMaxReplicasFromPolicy policy) (getMaxReplicasFromObject fedObject);
    Weights := default (getWeightsFromPolicy policy) (getWeightsFromObject fedObject);
    Priorities := default (getPrioritiesFromPolicy policy) (getPrioritiesFromObject fedObject);
    EnableKatalystSupport := enableKatalystSupport
  |}))))).
End SchedulingUnit.
