(* ===== verification/SchedulingUnitTheorems.v ===== *)
(** * Scheduling units are well formed

    The types that the planner and the plugins rely on: a known mode and
    strategy, replicas to divide whenever they are divided, and no negative
    preference.  A policy is validated by the API server, an annotation by the
    code.  Custom migrations are validated before they are converted. *)

From Stdlib Require Import ZArith Lia String Ascii.
From S2P Require Import Prelude GoStrings K8s Types ApiTypes Codecs FedObject FedObjectTheorems Resources PodUtil.
From S2P Require Import Triggers TriggersTheorems SchedulingUnit.

Section Unit.
Context `{K : Kubernetes} `{R : GoRuntime} `{C : !Codecs}.

(** ** Preferences *)

(** The last placement of a cluster with the preference decides. *)
Lemma preferenceMap_lookup f ps k : preferenceMap f ps !! k =
  last (omap (fun p => if decide (dp_Cluster p = k) then f (dp_Preferences p) else None) ps).
Proof using Type.
  unfold preferenceMap.
  assert (Hg : forall m : gmap string Z, foldl (fun m p => match f (dp_Preferences p) with
      | Some v => <[dp_Cluster p := v]> m | None => m end) m ps !! k =
    match last (omap (fun p => if decide (dp_Cluster p = k) then f (dp_Preferences p) else None) ps) with
    | Some v => Some v | None => m !! k end).
  { induction ps as [|p ps IH]; intros m; [done|]. cbn [foldl]. rewrite IH. simpl.
    destruct (decide (dp_Cluster p = k)) as [Hk|Hk], (f (dp_Preferences p)) as [v|]; try done.
    - rewrite last_cons. destruct (last _); [done|]. rewrite Hk. by rewrite lookup_insert_eq.
    - destruct (last _); [done|]. by rewrite lookup_insert_ne. }
  rewrite Hg, lookup_empty. by destruct (last _).
Qed.

Lemma preferenceMap_elem f ps k v : preferenceMap f ps !! k = Some v ->
  exists p, p ∈ ps /\ dp_Cluster p = k /\ f (dp_Preferences p) = Some v.
Proof using Type.
  rewrite preferenceMap_lookup. intros Hl. apply last_Some_elem_of in Hl.
  apply list_elem_of_omap in Hl as (p & Hp & Hf). case_decide as Hk; [by exists p|done].
Qed.

Lemma preferencesFromObject_nonneg f o m : preferencesFromObject f o = Some m -> all_nonneg m.
Proof using Type.
  unfold preferencesFromObject. destruct (decodeAnnotation _ _ _) as [ps|]; [|done].
  destruct (existsb _ _) eqn:E; [done|]. intros [= <-] k v Hk.
  destruct (Z.ltb_spec v 0) as [Hv|]; [|done]. exfalso. apply not_true_iff_false in E. apply E.
  apply existsb_exists. exists (k, v). split; [|by apply Z.ltb_lt].
  by apply list_elem_of_In, elem_of_range_map.
Qed.

(** What the API server guarantees of a policy (the markers of
    [types_propagationpolicy.go]). *)
Record valid_policy (policy : PropagationPolicy) : Prop := {
  vp_max : forall n, pps_MaxClusters (pol_Spec policy) = Some n -> 0 <= n;
  vp_placements : forall p, p ∈ pps_Placements (pol_Spec policy) ->
    0 <= pr_MinReplicas (dp_Preferences p) /\
    (forall v, pr_MaxReplicas (dp_Preferences p) = Some v -> 0 <= v) /\
    (forall v, pr_Weight (dp_Preferences p) = Some v -> 0 <= v) /\
    (forall v, pr_Priority (dp_Preferences p) = Some v -> 0 <= v)
}.

(** What the plugins rely on. *)
Record well_formed (ftc : FederatedTypeConfig) (su : SchedulingUnit) : Prop := {
  wf_mode : (SchedulingMode su = SchedulingModeDuplicate /\ DesiredReplicas su = None) \/
            (SchedulingMode su = SchedulingModeDivide /\ is_Some (DesiredReplicas su) /\ ReplicasSpec ftc <> ""%string);
  wf_strategy : ReplicasStrategy su = ReplicasStrategySpread \/ ReplicasStrategy su = ReplicasStrategyBinpack;
  wf_min : all_nonneg (su_MinReplicas su);
  wf_max : all_nonneg (su_MaxReplicas su);
  wf_weights : all_nonneg (Weights su);
  wf_priorities : all_nonneg (Priorities su);
  wf_maxClusters : forall n, MaxClusters su = Some n -> 0 <= n
}.

Lemma getSchedulingModeFromPolicy_cases policy :
  getSchedulingModeFromPolicy policy = SchedulingModeDuplicate \/
  getSchedulingModeFromPolicy policy = SchedulingModeDivide.
Proof.
  unfold getSchedulingModeFromPolicy.
  destruct (String.eqb _ SchedulingModeDuplicate); [by left|]. destruct (String.eqb _ _); [by right|by left].
Qed.

Lemma getSchedulingModeFromObject_cases o m : getSchedulingModeFromObject o = Some m ->
  m = SchedulingModeDuplicate \/ m = SchedulingModeDivide.
Proof.
  unfold getSchedulingModeFromObject. destruct (fo_Annotations o !! _); [|done].
  destruct (String.eqb _ SchedulingModeDuplicate); [intros [= <-]; by left|].
  destruct (String.eqb _ _); [intros [= <-]; by right|done].
Qed.

Lemma schedulingMode_cases ftc o policy template mode desired :
  schedulingModeAndReplicas ftc o policy template = inl (mode, desired) ->
  (mode = SchedulingModeDuplicate /\ desired = None) \/
  (mode = SchedulingModeDivide /\ is_Some desired /\ ReplicasSpec ftc <> ""%string).
Proof using Type.
  unfold schedulingModeAndReplicas. cbv zeta.
  set (m := default _ _). assert (Hm : m = SchedulingModeDuplicate \/ m = SchedulingModeDivide).
  { subst m. destruct (getSchedulingModeFromObject o) eqn:E; [by eapply getSchedulingModeFromObject_cases|].
    apply getSchedulingModeFromPolicy_cases. }
  clearbody m. destruct Hm as [->| ->]; [intros [= <- <-]; by left|].
  change (String.eqb SchedulingModeDivide SchedulingModeDivide) with true. cbn [andb].
  destruct (String.eqb_spec (ReplicasSpec ftc) "") as [E|E]; [intros [= <- <-]; by left|].
  change (String.eqb SchedulingModeDivide SchedulingModeDivide) with true. cbv iota.
  destruct (GetInt64FromPath _ _ _) as [[v|]|]; [|done|done]. intros [= <- <-]. right. by split_and!.
Qed.

Lemma preferences_nonneg f policy o : (forall p, p ∈ pps_Placements (pol_Spec policy) ->
    forall v, f (dp_Preferences p) = Some v -> 0 <= v) ->
  all_nonneg (default (preferenceMap f (pps_Placements (pol_Spec policy))) (preferencesFromObject f o)).
Proof using Type.
  intros Hp. destruct (preferencesFromObject f o) eqn:E; [by eapply preferencesFromObject_nonneg|].
  simpl. intros k v Hk. apply preferenceMap_elem in Hk as (p & Hin & _ & Hf). by eapply Hp.
Qed.

(** A scheduling unit made from a policy that the API server accepted is
    well formed, whatever the annotations of the object say: the mode is known
    and a divided workload has replicas to divide, and no preference is
    negative. *)
Theorem schedulingUnit_well_formed ftc o policy kat su :
  valid_policy policy -> schedulingUnitForFedObject ftc o policy kat = inl su -> well_formed ftc su.
Proof using Type.
  intros [Hmax Hpl] H. unfold schedulingUnitForFedObject in H.
  apply try_inl in H as (template & _ & H). apply try_inl in H as ([mode desired] & Hmode & H).
  apply try_inl in H as (am & _ & H). apply try_inl in H as (info & _ & H).
  apply try_inl in H as (rr & _ & [= <-]). split; simpl.
  - by eapply schedulingMode_cases.
  - unfold getReplicasStrategyFromPolicy. destruct (pps_ReplicasStrategy _); [|by left].
    destruct (String.eqb _ _); [by right|by left].
  - apply (preferences_nonneg minReplicasOf). intros p Hp v [= <-]. by apply Hpl.
  - apply (preferences_nonneg pr_MaxReplicas). intros p Hp. by apply Hpl.
  - apply (preferences_nonneg pr_Weight). intros p Hp. by apply Hpl.
  - apply (preferences_nonneg pr_Priority). intros p Hp. by apply Hpl.
  - destruct (getMaxClustersFromObject o) as [m|] eqn:E; [|exact Hmax]. intros n [= <-].
    unfold getMaxClustersFromObject in E. destruct (fo_Annotations o !! _); [|done].
    destruct (Atoi _); [|done]. destruct (Z.ltb_spec z 0); [done|]. by injection E as <-.
Qed.

(** ** Custom migrations *)

(** A configuration that the validation accepts. *)
Record valid_migration (c : MigrationConfig) : Prop := {
  vm_replicas : forall m, m ∈ ReplicasMigrations c ->
    rm_Cluster m <> ""%string /\ exists n, rm_LimitedCapacity m = Some n /\ 0 <= n;
  vm_workloads : forall m, m ∈ WorkloadMigrations c -> wm_Cluster m <> ""%string /\ is_Some (wm_ValidUntil m);
  vm_distinct : NoDup ((rm_Cluster <$> ReplicasMigrations c) ++ (wm_Cluster <$> WorkloadMigrations c))
}.

Definition valid_replicas (m : ReplicasMigration) : Prop :=
  rm_Cluster m <> ""%string /\ exists n, rm_LimitedCapacity m = Some n /\ 0 <= n.
Definition valid_workload (m : WorkloadMigration) : Prop :=
  wm_Cluster m <> ""%string /\ is_Some (wm_ValidUntil m).

Lemma list_to_set_cons_perm (k : string) l (cs : gset string) :
  list_to_set (k :: l) ∪ cs = list_to_set l ∪ ({[k]} ∪ cs).
Proof. set_solver. Qed.

Lemma validateReplicasMigrations_spec cs l cs' : validateReplicasMigrations cs l = inl cs' <->
  (forall m, m ∈ l -> valid_replicas m) /\ NoDup (rm_Cluster <$> l) /\
  (forall k, k ∈ rm_Cluster <$> l -> k ∉ cs) /\ cs' = list_to_set (rm_Cluster <$> l) ∪ cs.
Proof using Type.
  revert cs. induction l as [|m l IH]; intros cs; cbn [validateReplicasMigrations].
  - rewrite fmap_nil, list_to_set_nil, (left_id_L ∅ (∪)). split.
    + intros [= <-]. split_and!; [by intros ? ?%elem_of_nil|constructor|by intros ? ?%elem_of_nil|done].
    + by intros (_ & _ & _ & ->).
  - rewrite fmap_cons, list_to_set_cons_perm, NoDup_cons. split.
    + destruct (String.eqb_spec (rm_Cluster m) "") as [|Hne]; [done|].
      destruct (rm_LimitedCapacity m) as [n|] eqn:En; [|done]. destruct (Z.ltb_spec n 0); [done|].
      case_bool_decide as Hin; [done|]. intros (Hv & Hnd & Hnew & ->)%IH. split_and!; [| | | |done].
      * intros m' [->|Hm']%elem_of_cons; [|by apply Hv]. split; [done|]. by exists n.
      * intros Hk. apply Hnew in Hk. set_solver.
      * done.
      * intros k [->|Hk]%elem_of_cons; [done|]. apply Hnew in Hk. set_solver.
    + intros (Hv & [Hnotin Hnd] & Hnew & Hcs). destruct (Hv m) as [Hne (n & En & Hn)]; [left|].
      destruct (String.eqb_spec (rm_Cluster m) "") as [|_]; [done|]. rewrite En.
      destruct (Z.ltb_spec n 0); [lia|]. rewrite bool_decide_eq_false_2 by (apply Hnew; left).
      apply IH. split_and!; [intros m' Hm'; apply Hv; by right|done| |done].
      intros k Hk. assert (k ∉ cs) by (apply Hnew; by right). set_unfold. intros [->|]; [by apply Hnotin|done].
Qed.

Lemma validateWorkloadMigrations_spec cs l cs' : validateWorkloadMigrations cs l = inl cs' <->
  (forall m, m ∈ l -> valid_workload m) /\ NoDup (wm_Cluster <$> l) /\
  (forall k, k ∈ wm_Cluster <$> l -> k ∉ cs) /\ cs' = list_to_set (wm_Cluster <$> l) ∪ cs.
Proof using Type.
  revert cs. induction l as [|m l IH]; intros cs; cbn [validateWorkloadMigrations].
  - rewrite fmap_nil, list_to_set_nil, (left_id_L ∅ (∪)). split.
    + intros [= <-]. split_and!; [by intros ? ?%elem_of_nil|constructor|by intros ? ?%elem_of_nil|done].
    + by intros (_ & _ & _ & ->).
  - rewrite fmap_cons, list_to_set_cons_perm, NoDup_cons. split.
    + destruct (String.eqb_spec (wm_Cluster m) "") as [|Hne]; [done|].
      destruct (wm_ValidUntil m) as [n|] eqn:En; [|done].
      case_bool_decide as Hin; [done|]. intros (Hv & Hnd & Hnew & ->)%IH. split_and!; [| | | |done].
      * intros m' [->|Hm']%elem_of_cons; [|by apply Hv]. split; [done|]. by rewrite En.
      * intros Hk. apply Hnew in Hk. set_solver.
      * done.
      * intros k [->|Hk]%elem_of_cons; [done|]. apply Hnew in Hk. set_solver.
    + intros (Hv & [Hnotin Hnd] & Hnew & Hcs). destruct (Hv m) as [Hne [n En]]; [left|].
      destruct (String.eqb_spec (wm_Cluster m) "") as [|_]; [done|]. rewrite En.
      rewrite bool_decide_eq_false_2 by (apply Hnew; left).
      apply IH. split_and!; [intros m' Hm'; apply Hv; by right|done| |done].
      intros k Hk. assert (k ∉ cs) by (apply Hnew; by right). set_unfold. intros [->|]; [by apply Hnotin|done].
Qed.

Lemma validateMigrationConfig_spec c o ftc : validateMigrationConfig c o ftc = inl tt <->
  valid_migration c /\ (ReplicasMigrations c <> [] -> supportsReplicas o ftc = inl tt).
Proof using Type.
  unfold validateMigrationConfig.
  assert (Hs : (match ReplicasMigrations c with [] => inl tt | _ => supportsReplicas o ftc end) = inl tt <->
    (ReplicasMigrations c <> [] -> supportsReplicas o ftc = inl tt))
    by (destruct (ReplicasMigrations c); split; [done|done|done|intros H; by apply H]).
  destruct (match ReplicasMigrations c with [] => _ | _ => _ end) as [[]|e] eqn:E.
  2: { split; [done|]. intros [_ H]. by apply Hs in H. }
  apply proj1 in Hs. specialize (Hs eq_refl). split.
  - destruct (validateReplicasMigrations ∅ _) as [cs|] eqn:E1; [|done].
    destruct (validateWorkloadMigrations cs _) as [cs'|] eqn:E2; [|done]. intros _. split; [|done].
    apply validateReplicasMigrations_spec in E1 as (H1 & N1 & _ & ->).
    apply validateWorkloadMigrations_spec in E2 as (H2 & N2 & Hd & _). split; [done|done|].
    apply NoDup_app. split_and!; [done| |done]. intros k Hk Hk'. apply Hd in Hk'. set_solver.
  - intros [[H1 H2 Hnd] _]. apply NoDup_app in Hnd as (N1 & Hd & N2).
    assert (E1 : validateReplicasMigrations ∅ (ReplicasMigrations c) =
      inl (list_to_set (rm_Cluster <$> ReplicasMigrations c) ∪ ∅))
      by (apply validateReplicasMigrations_spec; split_and!; [done..|set_solver|done]).
    rewrite E1. set (cs := _ ∪ ∅).
    assert (E2 : validateWorkloadMigrations cs (WorkloadMigrations c) =
      inl (list_to_set (wm_Cluster <$> WorkloadMigrations c) ∪ cs)); [|by rewrite E2].
    apply validateWorkloadMigrations_spec. split_and!; [done|done| |done].
    intros k Hk Hk'. apply (Hd k); [|done]. subst cs. set_solver.
Qed.

Lemma limitedCapacity_spec l acc : (forall m, m ∈ l -> valid_replicas m) -> NoDup (rm_Cluster <$> l) ->
  (forall k, k ∈ rm_Cluster <$> l -> default ∅ acc !! k = None) ->
  exists cap, limitedCapacity acc l = Returns cap /\
    forall k n, default ∅ cap !! k = Some n <->
      default ∅ acc !! k = Some n \/ exists m, m ∈ l /\ rm_Cluster m = k /\ rm_LimitedCapacity m = Some n.
Proof using Type.
  revert acc. induction l as [|m l IH]; intros acc Hv Hnd Hnew; cbn [limitedCapacity].
  - exists acc. split; [done|]. intros k n. split; [by left|]. by intros [?|(m & ?%elem_of_nil & _)].
  - destruct (Hv m) as [_ (n & En & _)]; [left|]. rewrite En. cbn [deref mbind may_panic_bind].
    rewrite fmap_cons, NoDup_cons in Hnd. destruct Hnd as [Hm Hnd].
    edestruct (IH (Some (<[rm_Cluster m := n]> (default ∅ acc)))) as (cap & Hcap & Hl).
    + intros m' Hm'. apply Hv. by right.
    + done.
    + intros k Hk. simpl. rewrite lookup_insert_ne by (intros <-; done). apply Hnew. rewrite fmap_cons. by right.
    + exists cap. split; [done|]. intros k n'. rewrite Hl. simpl. rewrite lookup_insert_Some. split.
      * intros [[[<- <-]|[_ H]]|(m' & Hm' & H)]; [right; exists m; by repeat split; [left|..]|by left|].
        right. exists m'. split; [by right|done].
      * intros [H|(m' & [->|Hm']%elem_of_cons & Hk & Hn')]; [|left; left; split; congruence|right; by exists m'].
        left. right. split; [|done]. intros <-. rewrite Hnew in H; [done|]. rewrite fmap_cons. left.
Qed.

Lemma unavailableClusters_spec l : (forall m, m ∈ l -> valid_workload m) ->
  exists us, unavailableClusters l = Returns us /\
    Forall2 (fun m u => uc_Cluster u = wm_Cluster m /\ wm_ValidUntil m = Some (uc_ValidUntil u)) l us.
Proof using Type.
  unfold unavailableClusters. induction l as [|m l IH]; intros Hv; [by exists []; split; [|constructor]|].
  destruct (Hv m) as [_ [t Ht]]; [left|]. destruct IH as (us & Hus & Hf); [intros m' Hm'; apply Hv; by right|].
  eexists (_ :: us). cbn [mapM]. rewrite Ht. cbn [deref mbind may_panic_bind]. rewrite Hus. cbn.
  split; [done|]. by constructor.
Qed.

(** The migrations in force: the capacities of the configuration, and its
    unavailable clusters in the order of their names. *)
Record converted (c : MigrationConfig) (info : CustomMigrationInfo) : Prop := {
  cv_capacity : forall k n, default ∅ (LimitedCapacity info) !! k = Some n <->
    exists m, m ∈ ReplicasMigrations c /\ rm_Cluster m = k /\ rm_LimitedCapacity m = Some n;
  cv_unavailable : forall k t, {| uc_Cluster := k; uc_ValidUntil := t |} ∈ UnavailableClusters info <->
    exists m, m ∈ WorkloadMigrations c /\ wm_Cluster m = k /\ wm_ValidUntil m = Some t;
  cv_sorted : StronglySorted (sorted_rel (fun x y => String.ltb (uc_Cluster x) (uc_Cluster y)))
    (UnavailableClusters info)
}.

Lemma convert_valid c : valid_migration c ->
  exists info, convertToCustomMigrationInfo c = Returns info /\ converted c info.
Proof using Type.
  intros [Hr Hw Hnd]. apply NoDup_app in Hnd as (Hnd & _ & _). unfold convertToCustomMigrationInfo.
  destruct (limitedCapacity_spec (ReplicasMigrations c) None Hr Hnd) as (cap & -> & Hcap);
    [intros k _; apply lookup_empty|].
  destruct (unavailableClusters_spec (WorkloadMigrations c) Hw) as (us & -> & Hus). cbn.
  eexists. split; [done|]. split; cbn [LimitedCapacity UnavailableClusters].
  - intros k n. rewrite Hcap. simpl. rewrite lookup_empty. naive_solver.
  - intros k t. rewrite elem_of_sort_slice. split.
    + intros (i & Hi)%list_elem_of_lookup. destruct (Forall2_lookup_r _ _ _ _ _ Hus Hi) as (m & Hm & Hk & Ht).
      exists m. split; [by eapply list_elem_of_lookup_2|]. by split.
    + intros (m & (i & Hi)%list_elem_of_lookup & Hk & Ht).
      destruct (Forall2_lookup_l _ _ _ _ _ Hus Hi) as ([k' t'] & Hu & Hk' & Ht'). simpl in *.
      rewrite Ht in Ht'. injection Ht' as <-. subst k'. rewrite Hk in Hu. by eapply list_elem_of_lookup_2.
  - apply sort_slice_sorted. apply (swo_on String.ltb uc_Cluster), swo_string.
Qed.

(** Reading a migration configuration never panics; it succeeds exactly for
    a valid configuration of a workload that supports it, and then encodes the
    limited capacities and the sorted unavailable clusters. *)
Theorem getCustomMigrationInfoBytes_spec bytes o ftc c : Unmarshal_MigrationConfig bytes = inl c ->
  (valid_migration c /\ (ReplicasMigrations c <> [] -> supportsReplicas o ftc = inl tt) /\
   exists info, converted c info /\
     getCustomMigrationInfoBytes bytes o ftc = Returns (Marshal_CustomMigrationInfo info)) \/
  (~ (valid_migration c /\ (ReplicasMigrations c <> [] -> supportsReplicas o ftc = inl tt)) /\
   exists err, getCustomMigrationInfoBytes bytes o ftc = Returns (inr err)).
Proof using Type.
  intros Hb. unfold getCustomMigrationInfoBytes. rewrite Hb. pose proof (validateMigrationConfig_spec c o ftc) as Hv.
  destruct (validateMigrationConfig c o ftc) as [[]|err].
  - left. destruct Hv as [Hv _]. destruct (Hv eq_refl) as [Hval Hsup]. split_and!; [done..|].
    destruct (convert_valid c Hval) as (info & -> & Hinfo). by exists info.
  - right. split; [|by eexists]. intros H. by apply Hv in H.
Qed.
End Unit.

(** ** Concrete inputs *)

Section Witnesses.
#[local] Existing Instance small_kubernetes.
#[local] Existing Instance small_runtime.
#[local] Existing Instance small_codecs.

(** A unit, if the object has one. *)
Definition unit_of (o : FederatedObject) : option SchedulingUnit :=
  match schedulingUnitForFedObject deployments o divide_policy false with inl su => Some su | inr _ => None end.

Lemma schedulingUnit_well_formed_witness :
  exists su, unit_of (fed0 []) = Some su /\ DesiredReplicas su = Some 9 /\ well_formed deployments su.
Proof.
  unfold unit_of. destruct (schedulingUnitForFedObject deployments (fed0 []) divide_policy false) as [su|] eqn:E;
    [|vm_compute in E; discriminate E].
  exists su. split_and!; [reflexivity| |].
  - vm_compute in E. injection E as <-. reflexivity.
  - refine (schedulingUnit_well_formed deployments (fed0 []) divide_policy false su _ E).
    split; [intros n Hn; discriminate Hn|]. intros p Hp. by apply elem_of_nil in Hp.
Defined.

(** Limit "a" to three replicas and leave "b" until noon. *)
Definition migration_text : string :=
  decimal (Z.pos (encode ([("a"%string, Some 3)], [("b"%string, Some 12)]))).
Definition migration : MigrationConfig := {|
  ReplicasMigrations := [ {| rm_Cluster := "a"; rm_LimitedCapacity := Some 3 |} ];
  WorkloadMigrations := [ {| wm_Cluster := "b"; wm_ValidUntil := Some 12 |} ]
|}.

Lemma getCustomMigrationInfoBytes_spec_witness :
  valid_migration migration /\
  exists info, converted migration info /\
    getCustomMigrationInfoBytes migration_text (fed0 []) deployments = Returns (Marshal_CustomMigrationInfo info).
Proof.
  destruct (getCustomMigrationInfoBytes_spec migration_text (fed0 []) deployments migration) as [(Hv & _ & Hi)|[_ [err He]]].
  - vm_compute. reflexivity.
  - exact (conj Hv Hi).
  - exfalso. vm_compute in He. discriminate He.
Defined.
End Witnesses.
