(* ===== verification/FilterPlugins.v ===== *)
(** * The filter plugins of the scheduler

    [framework/plugins/*]: each plugin's [Filter] on a scheduling unit and a
    cluster, with the taint and selector helpers of [framework/util.go] and
    [pkg/util/clusterselector].  A nil unit or cluster is [None]; the results
    are never nil here. *)

From Stdlib Require Import ZArith Lia String.
From stdpp Require Import pretty.
From S2P Require Import Prelude K8s Types Resources.

(** ** Taints and tolerations *)

Section Taints.
Context `{K : Kubernetes}.

Definition TolerationsTolerateTaint (tolerations : list Toleration) (taint : Taint) : bool :=
  existsb (fun t => ToleratesTaint t taint) tolerations.

Definition getFilteredTaints (taints : list Taint) (inclusionFilter : option (Taint -> bool)) : list Taint :=
  match inclusionFilter with
  | None => taints
  | Some f => foldl (fun filtered taint => if f taint then filtered ++ [taint] else filtered) [] taints
  end.

(** The first filtered taint without a toleration, if there is one. *)
Fixpoint firstUntolerated (tolerations : list Toleration) (taints : list Taint) : option Taint :=
  match taints with
  | [] => None
  | taint :: taints' =>
      if negb (TolerationsTolerateTaint tolerations taint) then Some taint
      else firstUntolerated tolerations taints'
  end.

(** [FindMatchingUntoleratedTaint]: [None] is [(corev1.Taint{}, false)]. *)
Definition FindMatchingUntoleratedTaint (taints : list Taint) (tolerations : list Toleration)
    (inclusionFilter : option (Taint -> bool)) : option Taint :=
  firstUntolerated tolerations (getFilteredTaints taints inclusionFilter).

(** [countIntolerableTaintsPreferNoSchedule] and its list of tolerations. *)
Definition getTolerationsPreferNoSchedule (su : SchedulingUnit) : list Toleration :=
  foldl (fun acc t =>
    if String.eqb (tol_Effect t) "" || String.eqb (tol_Effect t) TaintEffectPreferNoSchedule
    then acc ++ [t] else acc) [] (Tolerations su).

Definition countIntolerableTaintsPreferNoSchedule (taints : list Taint)
    (tolerations : list Toleration) : Z :=
  foldl (fun n taint =>
    if negb (String.eqb (t_Effect taint) TaintEffectPreferNoSchedule) then n
    else if negb (TolerationsTolerateTaint tolerations taint) then n +! 1 else n) 0 taints.
End Taints.

(** ** Cluster selectors (pkg/util/clusterselector/util.go) *)

Section Selectors.
Context `{K : Kubernetes}.

(** The operator of a requirement as a label selector operator. *)
Definition selectionOp (operator : string) : option selection_op :=
  if String.eqb operator ClusterSelectorOpIn then Some selection_In
  else if String.eqb operator ClusterSelectorOpNotIn then Some selection_NotIn
  else if String.eqb operator ClusterSelectorOpExists then Some selection_Exists
  else if String.eqb operator ClusterSelectorOpDoesNotExist then Some selection_DoesNotExist
  else if String.eqb operator ClusterSelectorOpGt then Some selection_GreaterThan
  else if String.eqb operator ClusterSelectorOpLt then Some selection_LessThan
  else None.

(** [%q] prints the operator as a quoted Go string. *)
Definition quote (s : string) : string :=
  let q := String (Ascii.ascii_of_nat 34) EmptyString in (q ++ s ++ q)%string.

Fixpoint addRequirements (selector : Selector) (csm : list ClusterSelectorRequirement)
    : Selector + string :=
  match csm with
  | [] => inl selector
  | expr :: csm' =>
      match selectionOp (csr_Operator expr) with
      | None => inr (quote (csr_Operator expr) ++ " is not a valid cluster selector operator")%string
      | Some op =>
          match NewRequirement (csr_Key expr) op (csr_Values expr) with
          | inr err => inr err
          | inl r => addRequirements (Selector_Add selector r) csm'
          end
      end
  end.

Definition ClusterSelectorRequirementsAsSelector (csm : list ClusterSelectorRequirement)
    : Selector + string :=
  match csm with
  | [] => inl Selector_Nothing
  | _ => addRequirements NewSelector csm
  end.

Definition unexpectedValues (values : list string) (operator : string) : string :=
  ("unexpected number of value (" ++ pretty (length values) ++
   ") for cluster field selector operator " ++ quote operator)%string.

(** The field selectors of [csm], in order. *)
Fixpoint fieldSelectors (csm : list ClusterSelectorRequirement) : list FieldSelector + string :=
  match csm with
  | [] => inl []
  | expr :: csm' =>
      let cont (s : FieldSelector) :=
        match fieldSelectors csm' with inl ss => inl (s :: ss) | inr e => inr e end in
      if String.eqb (csr_Operator expr) ClusterSelectorOpIn then
        match csr_Values expr with
        | [v] => cont (OneTermEqualSelector (csr_Key expr) v)
        | vs => inr (unexpectedValues vs (csr_Operator expr))
        end
      else if String.eqb (csr_Operator expr) ClusterSelectorOpNotIn then
        match csr_Values expr with
        | [v] => cont (OneTermNotEqualSelector (csr_Key expr) v)
        | vs => inr (unexpectedValues vs (csr_Operator expr))
        end
      else inr (quote (csr_Operator expr) ++ " is not a valid cluster field selector operator")%string
  end.

Definition ClusterSelectorRequirementsAsFieldSelector (csm : list ClusterSelectorRequirement)
    : FieldSelector + string :=
  match csm with
  | [] => inl Fields_Nothing
  | _ => match fieldSelectors csm with inl ss => inl (AndSelectors ss) | inr e => inr e end
  end.

(** One term: [None] is "continue with the next term". *)
Definition matchTerm (req : ClusterSelectorTerm) (clusterLabels clusterFields : gmap string string)
    : option (bool + string) :=
  match MatchExpressions req, MatchFields req with
  | [], [] => None
  | es, fs =>
      let fields :=
        match fs with
        | [] => Some (inl true)
        | _ => match ClusterSelectorRequirementsAsFieldSelector fs with
               | inr err => Some (inr err)
               | inl sel => if negb (Fields_Matches sel clusterFields) then None else Some (inl true)
               end
        end in
      match es with
      | [] => fields
      | _ => match ClusterSelectorRequirementsAsSelector es with
             | inr err => Some (inr err)
             | inl sel => if negb (Selector_Matches sel clusterLabels) then None else fields
             end
      end
  end.

Fixpoint matchTerms (terms : list ClusterSelectorTerm) (clusterLabels clusterFields : gmap string string)
    : bool + string :=
  match terms with
  | [] => inl false
  | req :: terms' =>
      match matchTerm req clusterLabels clusterFields with
      | None => matchTerms terms' clusterLabels clusterFields
      | Some r => r
      end
  end.

Definition MatchClusterSelectorTerms (terms : list ClusterSelectorTerm) (cluster : FederatedCluster)
    : bool + string :=
  matchTerms terms (c_Labels cluster) {[ "metadata.name"%string := c_Name cluster ]}.
End Selectors.

(** ** The plugins *)

Section Filters.
Context `{K : Kubernetes} `{R : GoRuntime}.

Definition PreCheck (su : option SchedulingUnit) (cluster : option FederatedCluster)
    : (SchedulingUnit * FederatedCluster) + string :=
  match su, cluster with
  | None, _ => inr "invalid scheduling unit"%string
  | Some _, None => inr "invalid federated cluster"%string
  | Some su, Some cluster => inl (su, cluster)
  end.

(** Every [Filter] starts with the check. *)
Definition prechecked (su : option SchedulingUnit) (cluster : option FederatedCluster)
    (body : SchedulingUnit -> FederatedCluster -> Result) : Result :=
  match PreCheck su cluster with
  | inr err => NewResult Error [err]
  | inl (su, cluster) => body su cluster
  end.

Definition isScheduled (su : SchedulingUnit) (cluster : FederatedCluster) : bool :=
  bool_decide (is_Some (CurrentClusters su !! c_Name cluster)).

Definition APIResources_Filter (su : option SchedulingUnit) (cluster : option FederatedCluster) : Result :=
  prechecked su cluster (fun su cluster =>
    let gvk := WithKind (su_GroupVersion su) (su_Kind su) in
    if existsb (fun r => bool_decide
         ({| gvk_Group := ar_Group r; gvk_Version := ar_Version r; gvk_Kind := ar_Kind r |} = gvk))
         (APIResourceTypes (Status cluster))
    then NewResult Success []
    else NewResult Unschedulable ["cluster(s) didn't support this APIVersion"%string]).

(** The taints that [TaintToleration.Filter] looks at. *)
Definition taintFilterPredicate (isClusterScheduled : bool) (t : Taint) : bool :=
  if isClusterScheduled then String.eqb (t_Effect t) TaintEffectNoExecute
  else String.eqb (t_Effect t) TaintEffectNoSchedule || String.eqb (t_Effect t) TaintEffectNoExecute.

Definition TaintToleration_Filter (su : option SchedulingUnit) (cluster : option FederatedCluster) : Result :=
  prechecked su cluster (fun su cluster =>
    let isClusterScheduled :=
      existsb (fun '(c, _) => String.eqb c (c_Name cluster)) (range_map (CurrentClusters su)) in
    match FindMatchingUntoleratedTaint (Taints cluster) (Tolerations su)
            (Some (taintFilterPredicate isClusterScheduled)) with
    | None => NewResult Success []
    | Some taint =>
        NewResult Unschedulable
          [("cluster(s) had taint {" ++ t_Key taint ++ ": " ++ t_Value taint ++
            "}, that the schedulingUnit didn't tolerate")%string]
    end).

Definition ClusterReady_Filter (su : option SchedulingUnit) (cluster : option FederatedCluster) : Result :=
  prechecked su cluster (fun su cluster =>
    if negb (isScheduled su cluster) && negb (IsClusterReady (Status cluster)) then
      NewResult Unschedulable ["cluster(s) were unready"%string]
    else NewResult Success []).

Definition ClusterTerminating_Filter (su : option SchedulingUnit) (cluster : option FederatedCluster) : Result :=
  prechecked su cluster (fun su cluster =>
    if negb (Time_IsZero (c_DeletionTimestamp cluster)) then
      NewResult Unschedulable ["cluster(s) were terminating"%string]
    else NewResult Success []).

Definition PlacementFilter_Filter (su : option SchedulingUnit) (cluster : option FederatedCluster) : Result :=
  prechecked su cluster (fun su cluster =>
    if bool_decide (ClusterNames su = ∅) then NewResult Success []
    else if bool_decide (c_Name cluster ∉ ClusterNames su) then
      NewResult Unschedulable ["cluster(s) were not in placement list"%string]
    else NewResult Success []).

Definition affinityErrReason : string := "cluster(s) didn't match cluster selector".

Definition ClusterAffinity_Filter (su : option SchedulingUnit) (cluster : option FederatedCluster) : Result :=
  prechecked su cluster (fun su cluster =>
    if negb (bool_decide (su_ClusterSelector su = ∅)) &&
       negb (Selector_Matches (SelectorFromSet (su_ClusterSelector su)) (c_Labels cluster)) then
      NewResult Unschedulable [affinityErrReason]
    else
      match su_Affinity su ≫= aff_ClusterAffinity with
      | None => NewResult Success []
      | Some clusterAffinity =>
          match RequiredDuringSchedulingIgnoredDuringExecution clusterAffinity with
          | None => NewResult Success []
          | Some required =>
              match MatchClusterSelectorTerms (ClusterSelectorTerms required) cluster with
              | inl true => NewResult Success []
              | inl false | inr _ => NewResult Unschedulable [affinityErrReason]
              end
          end
      end).

Definition evictedErrReason : string :=
  "cluster(s) were evicted due to custom migration configuration".

(** [now] is [metav1.Now()]. *)
Definition ClusterEvicted_Filter (now : Time)
    (su : option SchedulingUnit) (cluster : option FederatedCluster) : Result :=
  prechecked su cluster (fun su cluster =>
    match cm_Info (CustomMigration su) with
    | None => NewResult Success []
    | Some info =>
        if existsb (fun u => String.eqb (c_Name cluster) (uc_Cluster u) && (now <? uc_ValidUntil u))
             (UnavailableClusters info)
        then NewResult Unschedulable [evictedErrReason]
        else NewResult Success []
    end).

Definition KatalystResourcesExist_Filter (su : option SchedulingUnit) (cluster : option FederatedCluster) : Result :=
  prechecked su cluster (fun su cluster =>
    if isScheduled su cluster then NewResult Success []
    else
      let clusterAllocatable := NewResource (Allocatable (st_Resources (Status cluster))) in
      if negb (bool_decide (GetKatalystResources (ResourceRequest su) = ∅)) &&
         bool_decide (GetKatalystResources clusterAllocatable = ∅) then
        NewResult Unschedulable ["Katalyst resource does not exist"%string]
      else NewResult Success []).
End Filters.
