(* ===== verification/FilterTheorems.v ===== *)
(** * The theorems about the filter plugins *)

From Stdlib Require Import ZArith Lia String.
From S2P Require Import Prelude K8s Types Resources FilterPlugins.

(** A loop that appends the elements it keeps is a filter. *)
Lemma foldl_append_filter {A} (f : A -> bool) (l acc : list A) :
  foldl (fun acc x => if f x then acc ++ [x] else acc) acc l = acc ++ filter (fun x => f x = true) l.
Proof.
  revert acc. induction l as [|x l IH]; intros acc; simpl; [by rewrite app_nil_r|].
  rewrite IH. destruct (f x) eqn:E.
  - rewrite filter_cons_True by done. by rewrite <- app_assoc.
  - rewrite filter_cons_False by congruence. done.
Qed.

Section Taints.
Context `{K : Kubernetes} `{R : GoRuntime}.

Lemma getFilteredTaints_elem taints f t :
  t ∈ getFilteredTaints taints (Some f) <-> t ∈ taints /\ f t = true.
Proof using Type.
  unfold getFilteredTaints. rewrite foldl_append_filter. simpl. rewrite list_elem_of_filter. tauto.
Qed.

Lemma firstUntolerated_None tols taints :
  firstUntolerated tols taints = None <->
  forall t, t ∈ taints -> TolerationsTolerateTaint tols t = true.
Proof using Type.
  induction taints as [|x l IH]; simpl.
  - split; [|done]. intros _ t ?%elem_of_nil. done.
  - destruct (TolerationsTolerateTaint tols x) eqn:E; simpl.
    + rewrite IH. split; intros H t; [intros [->|]%elem_of_cons; auto|intros Ht; apply H; by right].
    + split; [done|]. intros H. specialize (H x ltac:(left)). congruence.
Qed.

Lemma firstUntolerated_Some tols taints t :
  firstUntolerated tols taints = Some t -> t ∈ taints /\ TolerationsTolerateTaint tols t = false.
Proof using Type.
  induction taints as [|x l IH]; simpl; [done|].
  destruct (TolerationsTolerateTaint tols x) eqn:E; simpl.
  - intros [? ?]%IH. split; [by right|done].
  - intros [= ->]. split; [left|done].
Qed.

(** A toleration of the taint. *)
Lemma TolerationsTolerateTaint_spec tols t :
  TolerationsTolerateTaint tols t = true <-> exists tol, tol ∈ tols /\ ToleratesTaint tol t = true.
Proof using Type.
  unfold TolerationsTolerateTaint. rewrite existsb_exists.
  split; intros (tol & H & Ht); exists tol; (split; [|done]); by apply list_elem_of_In.
Qed.

Lemma isClusterScheduled_loop su cluster :
  existsb (fun '(c, _) => String.eqb c (c_Name cluster)) (range_map (CurrentClusters su)) =
  isScheduled su cluster.
Proof using Type.
  unfold isScheduled. apply eq_true_iff_eq. rewrite existsb_exists, bool_decide_eq_true. split.
  - intros ([c v] & Hin & Hc). z_bools. subst. exists v. by apply elem_of_range_map, list_elem_of_In.
  - intros [v Hv]. exists (c_Name cluster, v). split; [|apply String.eqb_refl].
    by apply list_elem_of_In, elem_of_range_map.
Qed.

(** The taints that the filter looks at. *)
Definition relevant_taint (su : SchedulingUnit) (cluster : FederatedCluster) (t : Taint) : Prop :=
  t_Effect t = TaintEffectNoExecute \/
  (isScheduled su cluster = false /\ t_Effect t = TaintEffectNoSchedule).

Definition tolerates (su : SchedulingUnit) (t : Taint) : Prop :=
  exists tol, tol ∈ Tolerations su /\ ToleratesTaint tol t = true.

Lemma TaintToleration_Filter_cases su cluster :
  (code (TaintToleration_Filter (Some su) (Some cluster)) = Success /\
   forall t, t ∈ Taints cluster -> relevant_taint su cluster t -> tolerates su t) \/
  (code (TaintToleration_Filter (Some su) (Some cluster)) = Unschedulable /\
   exists t, t ∈ Taints cluster /\ relevant_taint su cluster t /\ ~ tolerates su t).
Proof using Type.
  unfold TaintToleration_Filter, prechecked. simpl. rewrite isClusterScheduled_loop.
  assert (Hrel : forall t, taintFilterPredicate (isScheduled su cluster) t = true <-> relevant_taint su cluster t).
  { intros t. unfold taintFilterPredicate, relevant_taint. destruct (isScheduled su cluster);
      rewrite ?orb_true_iff, ?String.eqb_eq; naive_solver. }
  unfold FindMatchingUntoleratedTaint, tolerates.
  destruct (firstUntolerated _ _) as [t|] eqn:E; simpl; [right|left]; (split; [done|]).
  - apply firstUntolerated_Some in E as [Hin Ht]. apply getFilteredTaints_elem in Hin as [Hin Hp%Hrel].
    exists t. split_and!; [done..|]. rewrite <- TolerationsTolerateTaint_spec. congruence.
  - intros t Hin Hr. apply TolerationsTolerateTaint_spec.
    eapply firstUntolerated_None; [exact E|]. apply getFilteredTaints_elem. by rewrite Hrel.
Qed.

(** [TaintToleration.Filter] accepts a cluster exactly when every NoExecute
    taint and, if the unit is not yet scheduled there, every NoSchedule taint is
    tolerated; otherwise the result is Unschedulable. *)
Theorem TaintToleration_Filter_spec su cluster :
  (code (TaintToleration_Filter (Some su) (Some cluster)) = Success <->
   forall t, t ∈ Taints cluster -> relevant_taint su cluster t -> tolerates su t) /\
  (code (TaintToleration_Filter (Some su) (Some cluster)) <> Success ->
   code (TaintToleration_Filter (Some su) (Some cluster)) = Unschedulable).
Proof using Type.
  destruct (TaintToleration_Filter_cases su cluster) as [[-> H]|[-> (t & Hin & Hr & Ht)]]; [done|].
  split; [|done]. split; [done|]. intros H. destruct Ht. by apply H.
Qed.

Lemma getTolerationsPreferNoSchedule_elem su tol :
  tol ∈ getTolerationsPreferNoSchedule su <->
  tol ∈ Tolerations su /\ (tol_Effect tol = ""%string \/ tol_Effect tol = TaintEffectPreferNoSchedule).
Proof using Type.
  unfold getTolerationsPreferNoSchedule. rewrite foldl_append_filter. simpl.
  rewrite list_elem_of_filter, orb_true_iff, !String.eqb_eq. tauto.
Qed.

Lemma count_fold (f : Taint -> bool) (l : list Taint) n :
  0 <= n -> n + Z.of_nat (length l) < 2 ^ 63 ->
  foldl (fun n t => if f t then n +! 1 else n) n l =
  n + Z.of_nat (length (filter (fun t => f t = true) l)).
Proof using Type.
  revert n. induction l as [|t l IH]; intros n Hn Hl; simpl in *; [lia|].
  destruct (f t) eqn:E.
  - rewrite filter_cons_True by done. rewrite add64_small by (unfold int64; lia).
    simpl. rewrite IH by lia. lia.
  - rewrite filter_cons_False by congruence. apply IH; lia.
Qed.

(** Looking only at the tolerations with an empty or a PreferNoSchedule effect
    loses nothing. *)
Lemma count_intolerable su taints :
  Z.of_nat (length taints) < 2 ^ 63 ->
  countIntolerableTaintsPreferNoSchedule taints (getTolerationsPreferNoSchedule su) =
  Z.of_nat (length (filter (fun t => t_Effect t = TaintEffectPreferNoSchedule /\
    TolerationsTolerateTaint (Tolerations su) t = false) taints)).
Proof using Type.
  intros Hl. unfold countIntolerableTaintsPreferNoSchedule.
  set (f := fun t => String.eqb (t_Effect t) TaintEffectPreferNoSchedule &&
    negb (TolerationsTolerateTaint (getTolerationsPreferNoSchedule su) t)).
  transitivity (foldl (fun n t => if f t then n +! 1 else n) 0 taints).
  { clear Hl. generalize 0 as n. induction taints as [|t l IH]; intros n; simpl; [done|].
    rewrite <- IH. f_equal. unfold f. destruct (t_Effect t =? _)%string; simpl; [|done].
    by destruct (TolerationsTolerateTaint _ t). }
  rewrite count_fold, Z.add_0_l by lia. do 2 f_equal. apply list_filter_iff. intros t.
  unfold f. rewrite andb_true_iff, String.eqb_eq, negb_true_iff, <- !not_true_iff_false,
    !TolerationsTolerateTaint_spec.
  split; intros [He Hn]; (split; [done|]); intros (tol & Hin & Ht); apply Hn; exists tol.
  - split; [|done]. apply getTolerationsPreferNoSchedule_elem. split; [done|].
    rewrite <- He. by apply ToleratesTaint_Effect.
  - apply getTolerationsPreferNoSchedule_elem in Hin as [? _]. done.
Qed.
End Taints.

(** ** Selectors *)

Section Selectors.
Context `{K : Kubernetes}.

(** What one requirement asks of the labels, or of the fields. *)
Definition exprMatches (labels : gmap string string) (expr : ClusterSelectorRequirement) : bool :=
  match selectionOp (csr_Operator expr) with
  | None => false
  | Some op => match NewRequirement (csr_Key expr) op (csr_Values expr) with
               | inl r => Requirement_Matches r labels
               | inr _ => false
               end
  end.

Definition fieldMatches (fields : gmap string string) (expr : ClusterSelectorRequirement) : bool :=
  match csr_Values expr with
  | [v] => if String.eqb (csr_Operator expr) ClusterSelectorOpIn
           then String.eqb (default ""%string (fields !! csr_Key expr)) v
           else negb (String.eqb (default ""%string (fields !! csr_Key expr)) v)
  | _ => false
  end.

Definition validExpr (expr : ClusterSelectorRequirement) : Prop :=
  exists op r, selectionOp (csr_Operator expr) = Some op /\
    NewRequirement (csr_Key expr) op (csr_Values expr) = inl r.

Definition validField (expr : ClusterSelectorRequirement) : Prop :=
  (csr_Operator expr = ClusterSelectorOpIn \/ csr_Operator expr = ClusterSelectorOpNotIn) /\
  length (csr_Values expr) = 1%nat.

(** The terms that the code accepts. *)
Definition validTerm (req : ClusterSelectorTerm) : Prop :=
  (forall e, e ∈ MatchExpressions req -> validExpr e) /\ (forall e, e ∈ MatchFields req -> validField e).

(** An empty term matches nothing; otherwise all its requirements have to hold. *)
Definition termMatches (cluster : FederatedCluster) (req : ClusterSelectorTerm) : bool :=
  negb (bool_decide (MatchExpressions req = [] /\ MatchFields req = [])) &&
  forallb (exprMatches (c_Labels cluster)) (MatchExpressions req) &&
  forallb (fieldMatches {[ "metadata.name"%string := c_Name cluster ]}) (MatchFields req).

Lemma addRequirements_spec csm sel l :
  (forall e, e ∈ csm -> validExpr e) ->
  exists sel', addRequirements sel csm = inl sel' /\
    Selector_Matches sel' l = Selector_Matches sel l && forallb (exprMatches l) csm.
Proof using Type.
  revert sel. induction csm as [|e csm IH]; intros sel Hv; simpl.
  - exists sel. by rewrite andb_true_r.
  - destruct (Hv e ltac:(left)) as (op & r & Hop & Hr). unfold exprMatches at 1. rewrite Hop, Hr.
    destruct (IH (Selector_Add sel r)) as (sel' & -> & Hm); [intros; apply Hv; by right|].
    exists sel'. split; [done|]. by rewrite Hm, Matches_Add, andb_assoc.
Qed.

Lemma fieldSelectors_spec csm fs :
  (forall e, e ∈ csm -> validField e) ->
  exists ss, fieldSelectors csm = inl ss /\
    forallb (fun s => Fields_Matches s fs) ss = forallb (fieldMatches fs) csm.
Proof using Type.
  induction csm as [|e csm IH]; intros Hv; simpl; [by exists []|].
  destruct (Hv e ltac:(left)) as [Hop Hlen]. destruct (IH ltac:(intros; apply Hv; by right)) as (ss & -> & Hss).
  unfold fieldMatches at 1. destruct (csr_Values e) as [|v [|]]; try done.
  destruct Hop as [-> | ->]; simpl; eexists; (split; [done|]); simpl; rewrite Hss.
  - by rewrite Fields_Matches_Equal.
  - by rewrite Fields_Matches_NotEqual.
Qed.

Lemma ClusterSelectorRequirementsAsSelector_spec csm l :
  csm <> [] -> (forall e, e ∈ csm -> validExpr e) ->
  exists sel, ClusterSelectorRequirementsAsSelector csm = inl sel /\
    Selector_Matches sel l = forallb (exprMatches l) csm.
Proof using Type.
  intros Hne Hv. destruct (addRequirements_spec csm NewSelector l Hv) as (sel & Hs & Hm).
  exists sel. rewrite Matches_NewSelector in Hm. destruct csm; done.
Qed.

Lemma ClusterSelectorRequirementsAsFieldSelector_spec csm fs :
  csm <> [] -> (forall e, e ∈ csm -> validField e) ->
  exists sel, ClusterSelectorRequirementsAsFieldSelector csm = inl sel /\
    Fields_Matches sel fs = forallb (fieldMatches fs) csm.
Proof using Type.
  intros Hne Hv. destruct (fieldSelectors_spec csm fs Hv) as (ss & Hs & Hm).
  exists (AndSelectors ss). rewrite Fields_Matches_And, Hm.
  unfold ClusterSelectorRequirementsAsFieldSelector. rewrite Hs. by destruct csm.
Qed.

Lemma matchTerm_spec req cluster :
  validTerm req ->
  matchTerm req (c_Labels cluster) {[ "metadata.name"%string := c_Name cluster ]} =
  if termMatches cluster req then Some (inl true) else None.
Proof using Type.
  intros [He Hf]. unfold matchTerm, termMatches. set (fields := {[ _ := _ ]}).
  assert (Hfields : match MatchFields req with
    | [] => Some (inl true)
    | _ => match ClusterSelectorRequirementsAsFieldSelector (MatchFields req) with
           | inr err => Some (inr err)
           | inl sel => if negb (Fields_Matches sel fields) then None else Some (inl true)
           end
    end = (if forallb (fieldMatches fields) (MatchFields req)
           then Some (inl true) else None : option (bool + string))).
  { destruct (MatchFields req) as [|f fs] eqn:E; [done|].
    destruct (ClusterSelectorRequirementsAsFieldSelector_spec (f :: fs) fields) as (sel & -> & ->);
      [done..|]. by destruct (forallb _ _). }
  destruct (MatchExpressions req) as [|e es] eqn:E.
  - destruct (MatchFields req) as [|f fs]; [done|]. rewrite bool_decide_eq_false_2 by (by intros [_ ?]).
    simpl negb. rewrite !andb_true_l. exact Hfields.
  - rewrite bool_decide_eq_false_2 by (by intros [? _]). simpl negb. rewrite andb_true_l.
    destruct (ClusterSelectorRequirementsAsSelector_spec (e :: es) (c_Labels cluster))
      as (sel & Hsel & Hm); [done..|]. rewrite Hsel, Hm, Hfields.
    by destruct (forallb (exprMatches _) _).
Qed.

Lemma matchTerms_spec terms cluster :
  (forall req, req ∈ terms -> validTerm req) ->
  MatchClusterSelectorTerms terms cluster = inl (existsb (termMatches cluster) terms).
Proof using Type.
  unfold MatchClusterSelectorTerms. induction terms as [|req terms IH]; intros Hv; simpl; [done|].
  rewrite matchTerm_spec by (apply Hv; left).
  destruct (termMatches cluster req); simpl; [done|]. apply IH. intros. apply Hv. by right.
Qed.
End Selectors.

Section Affinity.
Context `{K : Kubernetes}.

(** The required terms of a scheduling unit. *)
Definition required_terms (su : SchedulingUnit) : option (list ClusterSelectorTerm) :=
  ca ← su_Affinity su ≫= aff_ClusterAffinity;
  ClusterSelectorTerms <$> RequiredDuringSchedulingIgnoredDuringExecution ca.

(** [ClusterAffinity.Filter] accepts a cluster exactly when its labels
    contain the cluster selector and, if terms are required, one of the terms
    matches: a term matches when it is not empty and all its label and field
    requirements hold. *)
Theorem ClusterAffinity_Filter_spec su cluster :
  (forall terms req, required_terms su = Some terms -> req ∈ terms -> validTerm req) ->
  code (ClusterAffinity_Filter (Some su) (Some cluster)) = Success <->
  (forall k v, su_ClusterSelector su !! k = Some v -> c_Labels cluster !! k = Some v) /\
  (forall terms, required_terms su = Some terms -> existsb (termMatches cluster) terms = true).
Proof using Type.
  intros Hv. unfold ClusterAffinity_Filter, prechecked. simpl.
  destruct (negb _ && _) eqn:E.
  - split; [done|]. intros [Hl _]. z_bools.
    apply Matches_FromSet in Hl. congruence.
  - assert (Hl : forall k v, su_ClusterSelector su !! k = Some v -> c_Labels cluster !! k = Some v).
    { apply andb_false_iff in E as [E|E]; z_bools; [by rewrite E|]. by apply Matches_FromSet. }
    assert (Hno : required_terms su = None -> Success = Success <->
      (forall k v, su_ClusterSelector su !! k = Some v -> c_Labels cluster !! k = Some v) /\
      (forall terms, required_terms su = Some terms -> existsb (termMatches cluster) terms = true)).
    { intros ->. split; [|done]. intros _. split; [done|]. by intros ? [=]. }
    unfold required_terms in *. destruct (su_Affinity su ≫= aff_ClusterAffinity) as [ca|]; simpl in *; [|auto].
    destruct (RequiredDuringSchedulingIgnoredDuringExecution ca) as [req|]; simpl in *; [|auto].
    rewrite matchTerms_spec by eauto. clear Hno.
    destruct (existsb _ _) eqn:Em; simpl; (split; [|done || (intros [_ H]; by rewrite (H _ eq_refl) in Em)]);
      [|done]. intros _. split; [done|]. by intros ? [= <-].
Qed.
End Affinity.

(** ** Clusters the unit is already placed on *)

Section Scheduled.
Context `{K : Kubernetes} `{R : GoRuntime}.

Lemma scheduled_ClusterReady su cluster :
  isScheduled su cluster = true -> code (ClusterReady_Filter (Some su) (Some cluster)) = Success.
Proof using Type. unfold ClusterReady_Filter, prechecked. simpl. by intros ->. Qed.

Lemma scheduled_Katalyst su cluster :
  isScheduled su cluster = true -> code (KatalystResourcesExist_Filter (Some su) (Some cluster)) = Success.
Proof using Type. unfold KatalystResourcesExist_Filter, prechecked. simpl. by intros ->. Qed.
End Scheduled.

(** ** Concrete inputs *)

Section Witnesses.
#[local] Existing Instance small_kubernetes.
#[local] Existing Instance small_runtime.

Definition example_terms : list ClusterSelectorTerm :=
  [ {| MatchExpressions := [ {| csr_Key := "zone"; csr_Operator := "In"; csr_Values := ["eu"; "us"]%string |} ];
       MatchFields := [] |};
    {| MatchExpressions := [];
       MatchFields := [ {| csr_Key := "metadata.name"; csr_Operator := "In"; csr_Values := ["c1"%string] |} ] |} ].

Definition example_unit : SchedulingUnit := {|
  su_GroupVersion := {| gv_Group := "apps"; gv_Version := "v1" |};
  su_Kind := "Deployment"; su_Resource := "deployments"; su_Namespace := "default"; su_Name := "web";
  su_Labels := ∅; su_Annotations := ∅;
  DesiredReplicas := Some 5; ResourceRequest := emptyResource;
  CurrentClusters := ∅; AutoMigration := None; CustomMigration := {| cm_Info := None |};
  SchedulingMode := SchedulingModeDivide; ReplicasStrategy := ReplicasStrategySpread;
  StickyCluster := false; AvoidDisruption := true;
  su_ClusterSelector := {[ "env"%string := "prod"%string ]}; ClusterNames := ∅;
  su_Affinity := Some {| aff_ClusterAffinity := Some
    {| RequiredDuringSchedulingIgnoredDuringExecution := Some {| ClusterSelectorTerms := example_terms |};
       PreferredDuringSchedulingIgnoredDuringExecution := [] |} |};
  Tolerations := []; MaxClusters := Some 1; su_MinReplicas := ∅; su_MaxReplicas := ∅;
  Weights := ∅; Priorities := ∅; EnableKatalystSupport := false |}.

Definition labelled_cluster (name zone : string) : FederatedCluster := {|
  c_Name := name; c_Labels := {[ "env"%string := "prod"%string; "zone"%string := zone ]};
  c_Annotations := ∅; c_Finalizers := []; c_DeletionTimestamp := None; Taints := [];
  Status := {| Conditions := []; APIResourceTypes := []; JoinPerformed := true;
               st_Resources := {| SchedulableNodes := None; Allocatable := ∅; Available := ∅ |} |} |}.

Lemma example_terms_valid terms req :
  required_terms example_unit = Some terms -> req ∈ terms -> validTerm req.
Proof.
  intros [= <-] Hr. unfold example_terms in Hr.
  each_member; (split; intros e He; simpl in He; each_member).
  - exists selection_In. eexists. split; reflexivity.
  - split; [by left|reflexivity].
Qed.

(** Cluster c9 is in a zone that the first term asks for. *)
Lemma ClusterAffinity_Filter_spec_witness :
  code (ClusterAffinity_Filter (Some example_unit) (Some (labelled_cluster "c9" "us"))) = Success.
Proof.
  apply (ClusterAffinity_Filter_spec example_unit (labelled_cluster "c9" "us") example_terms_valid).
  split.
  - intros k v Hk. simpl in Hk.
    apply lookup_singleton_Some in Hk as [<- <-]. reflexivity.
  - intros terms [= <-]. vm_compute. reflexivity.
Defined.
End Witnesses.
