(* ===== verification/Float64.v ===== *)
(** * Go's float64

    IEEE 754 binary64 with the operations of the Standard Library's [SpecFloat],
    as Go compiles them on targets that do not fuse a product with a sum. *)

From Stdlib Require Import ZArith Lia SpecFloat.
From S2P Require Import Prelude.

Definition prec : Z := 53.
Definition emax : Z := 1024.

Definition float64 : Type := spec_float.

(** [float64(x)] of an integer. *)
Definition f64 (x : Z) : float64 := binary_normalize prec emax x 0 false.
Definition fadd (x y : float64) : float64 := SFadd prec emax x y.
Definition fsub (x y : float64) : float64 := SFsub prec emax x y.
Definition fmul (x y : float64) : float64 := SFmul prec emax x y.
Definition fdiv (x y : float64) : float64 := SFdiv prec emax x y.
Definition fsqrt (x : float64) : float64 := SFsqrt prec emax x.
Definition fabs (x : float64) : float64 := SFabs x.

(** Comparisons; with a NaN they are false. *)
Definition fltb (x y : float64) : bool := SFltb x y.
Definition fleb (x y : float64) : bool := SFleb x y.
Definition feqb (x y : float64) : bool := SFeqb x y.

(** The integer part of a finite number. *)
Definition ftrunc (x : float64) : option Z :=
  match x with
  | S754_zero _ => Some 0
  | S754_finite s m e =>
      let a := if 0 <=? e then Z.pos m * 2 ^ e else Z.pos m / 2 ^ (- e) in
      Some (if s then - a else a)
  | _ => None
  end.

(** [math.Round]: the nearest integer, halves away from zero. *)
Definition fround (x : float64) : float64 :=
  match x with
  | S754_finite s m e =>
      if 0 <=? e then x
      else let a := (2 * Z.pos m + 2 ^ (- e)) / (2 * 2 ^ (- e)) in
           binary_normalize prec emax (if s then - a else a) 0 s
  | _ => x
  end.

(** [int64(x)]: a NaN and a value outside int64 convert to a value that the
    language leaves to the implementation. *)
Class FloatRuntime := {
  invalid_conversion : float64 -> Z;
  invalid_conversion_int64 : forall x, int64 (invalid_conversion x)
}.

Definition int64_of_float `{FloatRuntime} (x : float64) : Z :=
  match ftrunc x with
  | Some z => if (- 2 ^ 63 <=? z) && (z <? 2 ^ 63) then z else invalid_conversion x
  | None => invalid_conversion x
  end.

Lemma int64_of_float_int64 `{FloatRuntime} x : int64 (int64_of_float x).
Proof.
  unfold int64_of_float. destruct (ftrunc x) as [z|]; [|apply invalid_conversion_int64].
  destruct (_ && _) eqn:E; z_bools; [|apply invalid_conversion_int64]. unfold int64. lia.
Qed.

(** amd64 converts an invalid value to the smallest int64. *)
Lemma amd64_int64 (x : float64) : int64 (- 2 ^ 63).
Proof. unfold int64. lia. Qed.

Definition amd64_float : FloatRuntime := {|
  invalid_conversion := fun _ => - 2 ^ 63;
  invalid_conversion_int64 := amd64_int64
|}.

Example f64_third : int64_of_float (H := amd64_float) (fround (fmul (fdiv (f64 2) (f64 3)) (f64 1000))) = 667.
Proof. vm_compute. reflexivity. Qed.
Example f64_half_up : ftrunc (fround (fdiv (f64 (-5)) (f64 2))) = Some (-3).
Proof. vm_compute. reflexivity. Qed.
