(* ===== verification/ScorePlugins.v ===== *)
(** * The resource fit filter, the score plugins and the select plugins

    [plugins/clusterresources] (fit, least, most and balanced allocation), the
    scores of [plugins/tainttoleration] and [plugins/clusteraffinity],
    [plugins/prioritysort] and [plugins/maxcluster].  [Resource.Sub] can panic
    by writing into a nil map, so the functions that call it return a
    [may_panic]. *)

From Stdlib Require Import ZArith Lia String.
From S2P Require Import Prelude K8s Types Resources FilterPlugins Float64.

Record InsufficientResource := {
  ir_ResourceName : string;
  Reason : string;
  Requested : Z;
  Used : Z;
  Capacity : Z
}.

Section ClusterResources.
Context `{K : Kubernetes} `{R : GoRuntime}.

(** ** clusterresources/fit.go *)

Definition getFederatedClusterAllocatableResource (cluster : FederatedCluster) : Resource :=
  NewResource (Allocatable (st_Resources (Status cluster))).

(** An error of [Sub] is only logged: the partly reduced receiver is used. *)
Definition getFederatedClusterRequestResource (cluster : FederatedCluster) : may_panic Resource :=
  let request := NewResource (Allocatable (st_Resources (Status cluster))) in
  match Sub request (Available (st_Resources (Status cluster))) with
  | Ok request => Returns request
  | Err (request, _) => Returns request
  | Panic => Panics
  end.

Definition getSchedulingUnitRequestResource (su : SchedulingUnit) : Resource := ResourceRequest su.

(** The loop over the scalar resources; the set of ignored extended resources
    is empty. *)
Definition fitsScalar (scRequest clusterAllocatable clusterRequest : Resource)
    (insufficient : list InsufficientResource) (e : string * Z) : list InsufficientResource :=
  let '(rName, rQuant) := e in
  if rQuant <=? 0 then insufficient
  else if getScalar clusterAllocatable rName <? rQuant +! getScalar clusterRequest rName then
    insufficient ++ [ {| ir_ResourceName := rName; Reason := "Insufficient " ++ rName;
                         Requested := getScalar scRequest rName;
                         Used := getScalar clusterRequest rName;
                         Capacity := getScalar clusterAllocatable rName |} ]
  else insufficient.

Definition fitsRequest (su : SchedulingUnit) (cluster : FederatedCluster)
    : may_panic (list InsufficientResource) :=
  let scRequest := getSchedulingUnitRequestResource su in
  let clusterAllocatable := getFederatedClusterAllocatableResource cluster in
  clusterRequest ← getFederatedClusterRequestResource cluster;
  if (MilliCPU scRequest =? 0) && (Memory scRequest =? 0) && (EphemeralStorage scRequest =? 0) &&
     bool_decide (default ∅ (ScalarResources scRequest) = ∅) then mret []
  else
    let insufficient :=
      if MilliCPU clusterAllocatable <? MilliCPU scRequest +! MilliCPU clusterRequest then
        [ {| ir_ResourceName := ResourceCPU; Reason := "Insufficient cpu";
             Requested := MilliCPU scRequest; Used := MilliCPU clusterRequest;
             Capacity := MilliCPU clusterAllocatable |} ]
      else [] in
    let insufficient :=
      if Memory clusterAllocatable <? Memory scRequest +! Memory clusterRequest then
        insufficient ++
        [ {| ir_ResourceName := ResourceMemory; Reason := "Insufficient memory";
             Requested := Memory scRequest; Used := Memory clusterRequest;
             Capacity := Memory clusterAllocatable |} ]
      else insufficient in
    mret (foldl (fitsScalar scRequest clusterAllocatable clusterRequest) insufficient
            (range_map (default ∅ (ScalarResources scRequest)))).

Definition ClusterResourcesFit_Filter (su : option SchedulingUnit) (cluster : option FederatedCluster)
    : may_panic Result :=
  match PreCheck su cluster with
  | inr err => mret (NewResult Error [err])
  | inl (su, cluster) =>
      if isScheduled su cluster then mret (NewResult Success [])
      else
        insufficientResources ← fitsRequest su cluster;
        match insufficientResources with
        | [] => mret (NewResult Success [])
        | _ => mret (NewResult Unschedulable (Reason <$> insufficientResources))
        end
  end.

(** Allocatable amount, and requested amount if the unit were placed there. *)
Definition calculateResourceAllocatableRequest (su : SchedulingUnit) (cluster : FederatedCluster)
    (resource : string) : may_panic (Z * Z) :=
  let scRequest := getSchedulingUnitRequestResource su in
  let clusterAllocatable := getFederatedClusterAllocatableResource cluster in
  clusterRequest ← getFederatedClusterRequestResource cluster;
  mret (if String.eqb resource ResourceCPU then
          (MilliCPU clusterAllocatable, MilliCPU clusterRequest +! MilliCPU scRequest)
        else if String.eqb resource ResourceMemory then
          (Memory clusterAllocatable, Memory clusterRequest +! Memory scRequest)
        else if String.eqb resource ResourceEphemeralStorage then
          (EphemeralStorage clusterAllocatable, EphemeralStorage clusterRequest +! EphemeralStorage scRequest)
        else if IsScalarResourceName resource then
          (getScalar clusterAllocatable resource, getScalar clusterRequest resource +! getScalar scRequest resource)
        else (0, 0)).

Definition getRelevantResources (su : SchedulingUnit) : list string :=
  let resources := [ResourceCPU; ResourceMemory] in
  let resources := foldl (fun acc '(resourceName, _) =>
      if IsScalarResourceName resourceName then acc ++ [resourceName] else acc)
    resources (range_map (default ∅ (ScalarResources (ResourceRequest su)))) in
  if negb (EphemeralStorage (ResourceRequest su) =? 0)
  then resources ++ [ResourceEphemeralStorage] else resources.

Fixpoint getAllocatableAndRequested (su : SchedulingUnit) (cluster : FederatedCluster)
    (resources : list string) (allocatable requested : gmap string Z)
    : may_panic (gmap string Z * gmap string Z) :=
  match resources with
  | [] => mret (allocatable, requested)
  | resourceName :: resources' =>
      '(a, r) ← calculateResourceAllocatableRequest su cluster resourceName;
      getAllocatableAndRequested su cluster resources'
        (<[resourceName := a]> allocatable) (<[resourceName := r]> requested)
  end.

(** ** Least and most allocated *)

Definition leastRequestedScore (requested capacity : Z) : Z :=
  if capacity =? 0 then 0
  else if capacity <? requested then 0
  else ((capacity -! requested) *! MaxClusterScore) /! capacity.

Definition mostRequestedScore (requested capacity : Z) : Z :=
  if capacity =? 0 then 0
  else if capacity <? requested then 0
  else (requested *! MaxClusterScore) /! capacity.

(** The loop both plugins share: the weighted sum of the resource scores and
    the sum of the weights. *)
Definition weightedScore (resourceScore : Z -> Z -> Z) (resources : list string)
    (allocatable requested : gmap string Z) : Z * Z :=
  foldl (fun '(score, weightSum) resource =>
    let s := resourceScore (mget requested resource) (mget allocatable resource) in
    match DefaultRequestedRatioResources !! resource with
    | Some weight => (score +! s *! weight, weightSum +! weight)
    | None => (score +! s *! DefaultRatio, weightSum +! DefaultRatio)
    end) (0, 0) resources.

Definition allocated_Score (resourceScore : Z -> Z -> Z)
    (su : option SchedulingUnit) (cluster : option FederatedCluster) : may_panic (Z * Result) :=
  match PreCheck su cluster with
  | inr err => mret (0, NewResult Error [err])
  | inl (su, cluster) =>
      let resources := getRelevantResources su in
      '(allocatable, requested) ← getAllocatableAndRequested su cluster resources ∅ ∅;
      let '(score, weightSum) := weightedScore resourceScore resources allocatable requested in
      mret (if weightSum =? 0 then 0 else score /! weightSum, NewResult Success [])
  end.

Definition ClusterResourcesLeastAllocated_Score := allocated_Score leastRequestedScore.
Definition ClusterResourcesMostAllocated_Score := allocated_Score mostRequestedScore.

(** ** Balanced allocation *)

Definition fractionOfCapacity (requested capacity : Z) : float64 :=
  if capacity =? 0 then f64 1 else fdiv (f64 requested) (f64 capacity).

(** The fractions in the order of the loop; [None] if one of them is at least 1. *)
Fixpoint resourceFractions (requested : list (string * Z)) (allocatable : gmap string Z)
    (totalFraction : float64) (fractions : list float64) : option (float64 * list float64) :=
  match requested with
  | [] => Some (totalFraction, fractions)
  | (i, r) :: requested' =>
      let fraction := fractionOfCapacity r (mget allocatable i) in
      if fleb (f64 1) fraction then None
      else resourceFractions requested' allocatable (fadd totalFraction fraction) (fractions ++ [fraction])
  end.

Definition standardDeviation (totalFraction : float64) (fractions : list float64) : float64 :=
  match fractions with
  | [f0; f1] => fabs (fdiv (fsub f0 f1) (f64 2))
  | _ =>
      let n := f64 (Z.of_nat (length fractions)) in
      if (2 <? Z.of_nat (length fractions)) then
        let mean := fdiv totalFraction n in
        let sum := foldl (fun sum fraction =>
            fadd sum (fmul (fsub fraction mean) (fsub fraction mean))) (f64 0) fractions in
        fsqrt (fdiv sum n)
      else f64 0
  end.

Definition ClusterResourcesBalancedAllocation_Score `{FloatRuntime}
    (su : option SchedulingUnit) (cluster : option FederatedCluster) : may_panic (Z * Result) :=
  match PreCheck su cluster with
  | inr err => mret (0, NewResult Error [err])
  | inl (su, cluster) =>
      let resources := getRelevantResources su in
      '(allocatable, requested) ← getAllocatableAndRequested su cluster resources ∅ ∅;
      match resourceFractions (range_map requested) allocatable (f64 0) [] with
      | None => mret (0, NewResult Success [])
      | Some (totalFraction, fractions) =>
          let std := standardDeviation totalFraction fractions in
          mret (int64_of_float (fmul (fsub (f64 1) std) (f64 MaxClusterScore)), NewResult Success [])
      end
  end.
End ClusterResources.

(** ** The scores of the taint and affinity plugins *)

Section Scores.
Context `{K : Kubernetes}.

Definition TaintToleration_Score (su : option SchedulingUnit) (cluster : option FederatedCluster)
    : Z * Result :=
  match PreCheck su cluster with
  | inr err => (0, NewResult Error [err])
  | inl (su, cluster) =>
      (countIntolerableTaintsPreferNoSchedule (Taints cluster) (getTolerationsPreferNoSchedule su),
       NewResult Success [])
  end.

Definition TaintToleration_NormalizeScore (scores : list ClusterScore) : list ClusterScore :=
  DefaultNormalizeScore MaxClusterScore true scores.

(** The loop over the preferred terms. *)
Fixpoint preferredScore (labels : gmap string string) (terms : list PreferredSchedulingTerm)
    (score : Z) : Z + string :=
  match terms with
  | [] => inl score
  | term :: terms' =>
      if pst_Weight term =? 0 then preferredScore labels terms' score
      else
        match ClusterSelectorRequirementsAsSelector (MatchExpressions (Preference term)) with
        | inr err => inr err
        | inl clusterSelector =>
            preferredScore labels terms'
              (if Selector_Matches clusterSelector labels then score +! pst_Weight term else score)
        end
  end.

Definition ClusterAffinity_Score (su : option SchedulingUnit) (cluster : option FederatedCluster)
    : Z * Result :=
  match PreCheck su cluster with
  | inr err => (0, NewResult Error [err])
  | inl (su, cluster) =>
      match su_Affinity su ≫= aff_ClusterAffinity with
      | None => (0, NewResult Success [])
      | Some clusterAffinity =>
          match preferredScore (c_Labels cluster)
                  (PreferredDuringSchedulingIgnoredDuringExecution clusterAffinity) 0 with
          | inr err => (0, NewResult Error [err])
          | inl score => (score, NewResult Success [])
          end
      end
  end.

Definition ClusterAffinity_NormalizeScore (scores : list ClusterScore) : list ClusterScore :=
  DefaultNormalizeScore MaxClusterScore false scores.
End Scores.

(** ** Select plugins *)

Section Select.
Context `{K : Kubernetes} `{R : GoRuntime}.

(** The order of [PrioritySort]: decreasing score, then increasing name. *)
Definition priorityLess (x y : ClusterScore) : bool :=
  if bool_decide (Score x = Score y) then String.ltb (c_Name (cs_Cluster x)) (c_Name (cs_Cluster y))
  else Score y <? Score x.

Definition PrioritySort_SelectClusters (su : SchedulingUnit) (clusterScoreList : list ClusterScore)
    : list ClusterScore * Result :=
  let ret :=
    if negb (bool_decide (Priorities su = ∅)) ||
       (String.eqb (SchedulingMode su) SchedulingModeDivide &&
        String.eqb (ReplicasStrategy su) ReplicasStrategyBinpack)
    then (fun s => setScore s (mget (Priorities su) (c_Name (cs_Cluster s)))) <$> clusterScoreList
    else clusterScoreList in
  (sort_slice priorityLess ret, NewResult Success []).

Definition MaxClusterErrReason : string := "max cluster is less than 0".

Definition scoreLess (x y : ClusterScore) : bool := Score y <? Score x.

(** [int(x)] is the identity on a 64-bit target. *)
Definition MaxCluster_SelectClusters (su : SchedulingUnit) (clusterScoreList : list ClusterScore)
    : list ClusterScore * Result :=
  if match MaxClusters su with Some m => m <? 0 | None => false end then
    ([], NewResult Unschedulable [MaxClusterErrReason])
  else
    let sorted := sort_slice scoreLess clusterScoreList in
    let len := Z.of_nat (length clusterScoreList) in
    let len := match MaxClusters su with
               | Some m => if m <? len then m else len
               | None => len
               end in
    (take (Z.to_nat len) sorted, NewResult Success []).
End Select.
