(* ===== verification/ScoreTheorems.v ===== *)
(** * The theorems about resource fit, scores and selection *)

From Stdlib Require Import ZArith Lia String.
From S2P Require Import Prelude K8s Types Resources ResourceTheorems FilterPlugins FilterTheorems Float64 ScorePlugins.

Section Fit.
Context `{K : Kubernetes} `{R : GoRuntime}.

Lemma amount_NewResource rl n : amount (NewResource rl) n = request n rl.
Proof using Type.
  unfold NewResource. rewrite Add_amount, amount_empty. unfold request.
  destruct (tracked n); [|done]. destruct (rl !! n); [|done].
  apply add64_small. apply quant_int64.
Qed.

Lemma wf_NewResource rl : wf_resource (NewResource rl).
Proof using Type.
  intros n. rewrite amount_NewResource. unfold request.
  destruct (tracked n); [|unfold int64; lia]. destruct (rl !! n); [apply quant_int64|unfold int64; lia].
Qed.

(** A cluster whose available resources are part of the allocatable ones. *)
Record accounted (cluster : FederatedCluster) : Prop := {
  ac_nonneg : nonneg_list (Available (st_Resources (Status cluster)));
  ac_le : forall n, request n (Available (st_Resources (Status cluster))) <=
                    request n (Allocatable (st_Resources (Status cluster)));
  ac_allocated : allocated (NewResource (Allocatable (st_Resources (Status cluster))))
                   (Available (st_Resources (Status cluster)))
  }.

(** The resources in use are the difference. *)
Lemma clusterRequest_spec cluster : accounted cluster ->
  exists used, getFederatedClusterRequestResource cluster = Returns used /\
    forall n, amount used n = request n (Allocatable (st_Resources (Status cluster))) -
                              request n (Available (st_Resources (Status cluster))).
Proof using Type.
  intros [Hnn Hle Ha]. unfold getFederatedClusterRequestResource.
  destruct (Sub_fits (NewResource (Allocatable (st_Resources (Status cluster))))
    (Available (st_Resources (Status cluster)))) as (used & -> & Hn); [done|done| |].
  - intros k q Hk Ht. rewrite amount_NewResource. etrans; [|apply Hle].
    unfold request. by rewrite Ht, Hk.
  - exists used. split; [done|]. intros n. rewrite Hn, amount_NewResource.
    pose proof (Hle n) as Hlen. pose proof (request_nonneg _ n Hnn) as H0.
    pose proof (wf_NewResource (Allocatable (st_Resources (Status cluster))) n) as Hwf.
    rewrite amount_NewResource in Hwf. unfold int64 in Hwf.
    set (a := request n (Allocatable _)) in *. unfold request in *.
    destruct (Available (st_Resources (Status cluster)) !! n) as [q|], (tracked n); try lia.
    apply sub64_small. unfold int64. lia.
Qed.

(** The resources of a unit: no negative amount, and scalar resources only
    under scalar names. *)
Record valid_request (req : Resource) : Prop := {
  vr_range : forall n, 0 <= amount req n < 2 ^ 62;
  vr_scalar : forall k v, default ∅ (ScalarResources req) !! k = Some v -> scalar_name k
  }.

Lemma getScalar_lookup req k v :
  default ∅ (ScalarResources req) !! k = Some v -> getScalar req k = v.
Proof using Type. unfold getScalar. destruct (ScalarResources req); simpl; [apply mget_Some|done]. Qed.

(** [alloc < req + (alloc - avail)] says that [avail < req]. *)
Lemma insufficient_iff (alloc avail req used : Z) :
  used = alloc - avail -> 0 <= avail <= alloc -> alloc < 2 ^ 62 -> 0 <= req < 2 ^ 62 ->
  (alloc <? req +! used) = (avail <? req).
Proof using Type.
  intros -> Ha Hb Hr. rewrite add64_small by (unfold int64; lia).
  destruct (alloc <? _) eqn:E1, (avail <? req) eqn:E2; z_bools; lia.
Qed.

Lemma fitsScalar_fold sc alloc used l acc :
  foldl (fitsScalar sc alloc used) acc l = [] <->
  acc = [] /\ forall k v, (k, v) ∈ l -> 0 < v -> (getScalar alloc k <? v +! getScalar used k) = false.
Proof using Type.
  revert acc. induction l as [|[k v] l IH]; intros acc; simpl.
  - split; [intros ->; split; [done|]|naive_solver]. by intros k v ?%elem_of_nil.
  - rewrite IH. destruct (v <=? 0) eqn:Ev; z_bools.
    + split; intros [H1 H2]; (split; [done|]).
      * intros k' v' [[= -> ->]|Hin]%elem_of_cons Hpos; [lia|eauto].
      * intros k' v' Hin. apply H2. by right.
    + destruct (getScalar alloc k <? _) eqn:E.
      * split; [intros [H _]; by destruct acc|]. intros [_ H]. rewrite (H k v) in E; [done|left|lia].
      * split; intros [H1 H2]; (split; [done|]).
        -- intros k' v' [[= -> ->]|Hin]%elem_of_cons Hpos; [done|eauto].
        -- intros k' v' Hin. apply H2. by right.
Qed.

Lemma fitsRequest_spec su cluster :
  accounted cluster -> valid_request (ResourceRequest su) ->
  (forall n, request n (Allocatable (st_Resources (Status cluster))) < 2 ^ 62) ->
  let avail n := request n (Available (st_Resources (Status cluster))) in
  exists l, fitsRequest su cluster = Returns l /\
    (l = [] <-> MilliCPU (ResourceRequest su) <= avail ResourceCPU /\
       Memory (ResourceRequest su) <= avail ResourceMemory /\
       forall k v, default ∅ (ScalarResources (ResourceRequest su)) !! k = Some v -> v <= avail k).
Proof using Type.
  intros Hac [Hrange Hsc] Hal avail. set (req := ResourceRequest su) in *.
  destruct (clusterRequest_spec cluster Hac) as (used & Hused & Hn).
  pose proof (fun n => request_nonneg _ n (ac_nonneg _ Hac)) as Hav0. pose proof (ac_le _ Hac) as Hle.
  assert (Htest : forall n, (request n (Allocatable (st_Resources (Status cluster))) <?
      amount req n +! amount used n) = (avail n <? amount req n)).
  { intros n. apply insufficient_iff; [apply Hn|split; [apply Hav0|apply Hle]|apply Hal|apply Hrange]. }
  unfold fitsRequest. rewrite Hused. simpl. unfold getSchedulingUnitRequestResource. fold req.
  unfold getFederatedClusterAllocatableResource. set (alloc := NewResource _).
  assert (Hcpu : MilliCPU alloc = request ResourceCPU (Allocatable (st_Resources (Status cluster))))
    by exact (amount_NewResource _ ResourceCPU).
  assert (Hmem : Memory alloc = request ResourceMemory (Allocatable (st_Resources (Status cluster))))
    by exact (amount_NewResource _ ResourceMemory).
  destruct (_ && _) eqn:Ezero.
  - exists []. split; [done|]. split; [intros _|done]. z_bools.
    pose proof (Hav0 ResourceCPU). pose proof (Hav0 ResourceMemory).
    split_and!; [unfold avail; lia..|]. intros k v Hk. rewrite H0 in Hk. by rewrite lookup_empty in Hk.
  - eexists. split; [reflexivity|]. rewrite fitsScalar_fold.
    pose proof (Htest ResourceCPU) as Hc. pose proof (Htest ResourceMemory) as Hm.
    change (amount req ResourceCPU) with (MilliCPU req) in Hc.
    change (amount used ResourceCPU) with (MilliCPU used) in Hc.
    change (amount req ResourceMemory) with (Memory req) in Hm.
    change (amount used ResourceMemory) with (Memory used) in Hm.
    rewrite Hcpu, Hmem, Hc, Hm. clear Ezero.
    assert (Hscal : (forall k v, (k, v) ∈ range_map (default ∅ (ScalarResources req)) -> 0 < v ->
        (getScalar alloc k <? v +! getScalar used k) = false) <->
      (forall k v, default ∅ (ScalarResources req) !! k = Some v -> v <= avail k)).
    { assert (Heq : forall k v, default ∅ (ScalarResources req) !! k = Some v ->
        (getScalar alloc k <? v +! getScalar used k) = (avail k <? v)).
      { intros k v Hk. pose proof (Htest k) as Ht. rewrite <- (amount_NewResource _ k) in Ht.
        rewrite !amount_scalar in Ht by eauto. by rewrite (getScalar_lookup _ _ _ Hk) in Ht. }
      split; intros H k v Hk.
      - destruct (decide (0 < v)) as [Hpos|]; [|specialize (Hav0 k); unfold avail; lia].
        specialize (H k v). rewrite elem_of_range_map in H. specialize (H Hk Hpos).
        rewrite (Heq k v Hk) in H. z_bools. lia.
      - apply elem_of_range_map in Hk. intros _. rewrite (Heq k v Hk). specialize (H k v Hk).
        apply Z.ltb_ge. lia. }
    rewrite Hscal. destruct (avail ResourceCPU <? _) eqn:E1, (avail ResourceMemory <? _) eqn:E2;
      z_bools; simpl; naive_solver lia.
Qed.

(** [ClusterResourcesFit.Filter] accepts a cluster exactly when the unit is
    already placed there or its request for cpu, memory and every scalar
    resource is within what the cluster has available (ephemeral storage is
    not looked at). *)
Theorem ClusterResourcesFit_Filter_spec su cluster :
  accounted cluster -> valid_request (ResourceRequest su) ->
  (forall n, request n (Allocatable (st_Resources (Status cluster))) < 2 ^ 62) ->
  exists r, ClusterResourcesFit_Filter (Some su) (Some cluster) = Returns r /\
    (code r = Success <->
     isScheduled su cluster = true \/
     let avail n := request n (Available (st_Resources (Status cluster))) in
     MilliCPU (ResourceRequest su) <= avail ResourceCPU /\
     Memory (ResourceRequest su) <= avail ResourceMemory /\
     forall k v, default ∅ (ScalarResources (ResourceRequest su)) !! k = Some v -> v <= avail k).
Proof using Type.
  intros Hac Hvr Hal. unfold ClusterResourcesFit_Filter. simpl.
  destruct (isScheduled su cluster); [eexists; split; [done|]; tauto|].
  destruct (fitsRequest_spec su cluster Hac Hvr Hal) as (l & -> & Hl). simpl.
  destruct l as [|i l]; eexists; (split; [done|]); simpl.
  - split; [|done]. intros _. right. by apply Hl.
  - split; [done|]. intros [?|H]; [done|]. apply Hl in H. done.
Qed.
End Fit.

(** ** Least and most allocated *)

Section Allocated.
Context `{K : Kubernetes} `{R : GoRuntime}.

Lemma least_spec r c : 0 <= r -> 0 <= c < 2 ^ 56 ->
  leastRequestedScore r c = if (c =? 0) || (c <? r) then 0 else (c - r) * 100 / c.
Proof using Type.
  intros Hr Hc. unfold leastRequestedScore, MaxClusterScore. destruct (c =? 0) eqn:E; [done|].
  destruct (c <? r) eqn:E2; [done|]. simpl. z_bools.
  rewrite sub64_small by (unfold int64; lia). rewrite mul64_small by (unfold int64; lia).
  apply quot64_small; unfold int64; lia.
Qed.

Lemma most_spec r c : 0 <= r -> 0 <= c < 2 ^ 56 ->
  mostRequestedScore r c = if (c =? 0) || (c <? r) then 0 else r * 100 / c.
Proof using Type.
  intros Hr Hc. unfold mostRequestedScore, MaxClusterScore. destruct (c =? 0) eqn:E; [done|].
  destruct (c <? r) eqn:E2; [done|]. simpl. z_bools.
  rewrite mul64_small by (unfold int64; lia). apply quot64_small; unfold int64; lia.
Qed.

Lemma share_bounds x c : 0 <= x <= c -> 0 < c -> 0 <= x * 100 / c <= 100.
Proof using Type.
  intros Hx Hc. split; [apply Z.div_pos; lia|]. apply Z.div_le_upper_bound; lia.
Qed.

Definition percentage (f : Z -> Z -> Z) : Prop :=
  forall r c, 0 <= r -> 0 <= c < 2 ^ 56 -> 0 <= f r c <= 100.

Lemma least_percentage : percentage leastRequestedScore.
Proof using Type.
  intros r c Hr Hc. rewrite least_spec by done. destruct (_ || _) eqn:E; [lia|]. z_bools.
  apply share_bounds; lia.
Qed.

Lemma most_percentage : percentage mostRequestedScore.
Proof using Type.
  intros r c Hr Hc. rewrite most_spec by done. destruct (_ || _) eqn:E; [lia|]. z_bools.
  apply share_bounds; lia.
Qed.

(** The most-allocated score of a resource is the least-allocated one
    reversed, up to the rounding of one division; both are 0 when the request
    exceeds the capacity. *)
Theorem least_most_complement requested capacity :
  0 <= requested -> 0 < capacity < 2 ^ 56 ->
  (requested <= capacity ->
     99 <= leastRequestedScore requested capacity + mostRequestedScore requested capacity <= 100) /\
  (capacity < requested ->
     leastRequestedScore requested capacity = 0 /\ mostRequestedScore requested capacity = 0).
Proof using Type.
  intros Hr Hc. rewrite least_spec, most_spec by lia.
  destruct (capacity =? 0) eqn:E0; z_bools; [lia|]. simpl.
  destruct (capacity <? requested) eqn:E; z_bools; split; intros; try lia.
  assert (Hd : (capacity - requested) * 100 + requested * 100 = capacity * 100) by lia.
  pose proof (Z.div_mod ((capacity - requested) * 100) capacity ltac:(lia)) as H1.
  pose proof (Z.div_mod (requested * 100) capacity ltac:(lia)) as H2.
  pose proof (Z.mod_pos_bound ((capacity - requested) * 100) capacity ltac:(lia)).
  pose proof (Z.mod_pos_bound (requested * 100) capacity ltac:(lia)). nia.
Qed.

Lemma ratio_cases n : DefaultRequestedRatioResources !! n = None \/
  exists w, DefaultRequestedRatioResources !! n = Some w /\ 1 <= w <= 4.
Proof using Type.
  destruct (DefaultRequestedRatioResources !! n) as [w|] eqn:E; [right|by left].
  exists w. split; [done|]. revert n w E.
  apply (map_Forall_eval (fun _ w => 1 <= w <= 4)). by_eval.
Qed.

(** The weighted sum of percentages is at most 100 times the sum of weights. *)
Lemma weightedScore_bounds f resources al rq :
  percentage f -> Z.of_nat (length resources) < 2 ^ 50 ->
  (forall n, 0 <= mget rq n) -> (forall n, 0 <= mget al n < 2 ^ 56) ->
  let '(s, w) := weightedScore f resources al rq in
  0 <= s <= 100 * w /\ Z.of_nat (length resources) <= w <= 4 * Z.of_nat (length resources).
Proof using Type.
  intros Hf Hlen Hrq Hal. unfold weightedScore.
  assert (Hg : forall s0 w0, 0 <= s0 <= 100 * w0 -> w0 + 4 * Z.of_nat (length resources) < 2 ^ 54 ->
    let '(s, w) := foldl (fun '(score, weightSum) resource =>
      let s := f (mget rq resource) (mget al resource) in
      match DefaultRequestedRatioResources !! resource with
      | Some weight => (score +! s *! weight, weightSum +! weight)
      | None => (score +! s *! DefaultRatio, weightSum +! DefaultRatio)
      end) (s0, w0) resources in
    0 <= s <= 100 * w /\
    w0 + Z.of_nat (length resources) <= w <= w0 + 4 * Z.of_nat (length resources)).
  { clear Hlen. induction resources as [|n l IH]; intros s0 w0 Hs0 Hl.
    - simpl. lia.
    - cbn [foldl length] in *. specialize (Hf (mget rq n) (mget al n) (Hrq n) (Hal n)).
      assert (Hstep : exists w, 1 <= w <= 4 /\
        match DefaultRequestedRatioResources !! n with
        | Some weight => (s0 +! f (mget rq n) (mget al n) *! weight, w0 +! weight)
        | None => (s0 +! f (mget rq n) (mget al n) *! DefaultRatio, w0 +! DefaultRatio)
        end = (s0 + f (mget rq n) (mget al n) * w, w0 + w)).
      { assert (Harith : forall w, 1 <= w <= 4 ->
          (s0 +! f (mget rq n) (mget al n) *! w, w0 +! w) =
          (s0 + f (mget rq n) (mget al n) * w, w0 + w)).
        { intros w Hw. rewrite mul64_small by (unfold int64; nia).
          rewrite !add64_small by (unfold int64; nia). done. }
        destruct (ratio_cases n) as [->|(w & -> & Hw)].
        - exists 1. split; [lia|]. apply Harith. lia.
        - exists w. split; [done|]. by apply Harith. }
      destruct Hstep as (w & Hw & ->).
      specialize (IH (s0 + f (mget rq n) (mget al n) * w) (w0 + w)).
      destruct (foldl _ _ l) as [s' w']. destruct IH; [nia|lia|]. lia. }
  apply (Hg 0 0); lia.
Qed.
End Allocated.

Section AllocatedScore.
Context `{K : Kubernetes} `{R : GoRuntime}.

Lemma calculate_spec su cluster n :
  accounted cluster -> valid_request (ResourceRequest su) ->
  (forall n, request n (Allocatable (st_Resources (Status cluster))) < 2 ^ 56) ->
  exists a r, calculateResourceAllocatableRequest su cluster n = Returns (a, r) /\
    0 <= a < 2 ^ 56 /\ 0 <= r.
Proof using Type.
  intros Hac [Hrange _] Hal. destruct (clusterRequest_spec cluster Hac) as (used & Hused & Hn).
  unfold calculateResourceAllocatableRequest. rewrite Hused. simpl.
  set (req := ResourceRequest su) in *. unfold getSchedulingUnitRequestResource. fold req.
  unfold getFederatedClusterAllocatableResource.
  assert (Hb : forall m, 0 <= amount (NewResource (Allocatable (st_Resources (Status cluster)))) m < 2 ^ 56 /\
    0 <= amount used m +! amount req m).
  { intros m. rewrite amount_NewResource. pose proof (ac_le _ Hac m). specialize (Hal m).
    pose proof (request_nonneg _ m (ac_nonneg _ Hac)). specialize (Hrange m).
    split; [lia|]. rewrite Hn, add64_small by (unfold int64; lia). lia. }
  destruct (name_cases n) as [->|[->|[->|Hsc]]]; simpl.
  - do 2 eexists. split; [reflexivity|]. exact (Hb ResourceCPU).
  - do 2 eexists. split; [reflexivity|]. exact (Hb ResourceMemory).
  - do 2 eexists. split; [reflexivity|]. exact (Hb ResourceEphemeralStorage).
  - rewrite if_scalar_name by done. destruct (IsScalarResourceName n).
    + do 2 eexists. split; [reflexivity|]. specialize (Hb n). by rewrite !amount_scalar in Hb by done.
    + exists 0, 0. split; [done|lia].
Qed.

Lemma getAllocatableAndRequested_spec su cluster resources al rq :
  accounted cluster -> valid_request (ResourceRequest su) ->
  (forall n, request n (Allocatable (st_Resources (Status cluster))) < 2 ^ 56) ->
  (forall n, 0 <= mget al n < 2 ^ 56) -> (forall n, 0 <= mget rq n) ->
  exists al' rq', getAllocatableAndRequested su cluster resources al rq = Returns (al', rq') /\
    (forall n, 0 <= mget al' n < 2 ^ 56) /\ (forall n, 0 <= mget rq' n).
Proof using Type.
  intros Hac Hvr Hb. revert al rq. induction resources as [|n l IH]; intros al rq Hal Hrq; simpl.
  - exists al, rq. done.
  - destruct (calculate_spec su cluster n Hac Hvr Hb) as (a & r & -> & Ha & Hr). simpl.
    apply IH; intros m; (destruct (decide (n = m)) as [->|Hne];
      [by rewrite mget_insert_eq|by rewrite mget_insert_ne]).
Qed.

(** On a cluster whose available resources are part of its allocatable
    ones, the least- and the most-allocated plugins do not panic and score
    within [0, 100]. *)
Theorem allocated_Score_bounds su cluster :
  accounted cluster -> valid_request (ResourceRequest su) ->
  (forall n, request n (Allocatable (st_Resources (Status cluster))) < 2 ^ 56) ->
  Z.of_nat (length (getRelevantResources su)) < 2 ^ 50 ->
  exists least most,
    ClusterResourcesLeastAllocated_Score (Some su) (Some cluster) = Returns (least, NewResult Success []) /\
    ClusterResourcesMostAllocated_Score (Some su) (Some cluster) = Returns (most, NewResult Success []) /\
    0 <= least <= MaxClusterScore /\ 0 <= most <= MaxClusterScore.
Proof using Type.
  intros Hac Hvr Hb Hlen.
  assert (Hg : forall f, percentage f -> exists z,
    allocated_Score f (Some su) (Some cluster) = Returns (z, NewResult Success []) /\ 0 <= z <= 100).
  { intros f Hf. unfold allocated_Score. simpl.
    destruct (getAllocatableAndRequested_spec su cluster (getRelevantResources su) ∅ ∅)
      as (al & rq & -> & Hal & Hrq); try done; [intros; rewrite mget_empty; lia..|]. simpl.
    pose proof (weightedScore_bounds f (getRelevantResources su) al rq Hf Hlen Hrq Hal) as Hw.
    destruct (weightedScore _ _ _ _) as [s w]. destruct Hw as [Hs Hw].
    eexists. split; [reflexivity|]. destruct (w =? 0) eqn:E; z_bools; [lia|].
    rewrite quot64_small; [|unfold int64; lia|lia|lia].
    split; [apply Z.div_pos; lia|]. apply Z.div_le_upper_bound; lia. }
  destruct (Hg _ least_percentage) as (x & Hx & ?), (Hg _ most_percentage) as (y & Hy & ?).
  exists x, y. done.
Qed.
End AllocatedScore.

(** ** Taints *)

Section TaintScore.
Context `{K : Kubernetes}.

(** The score of [TaintToleration] before normalisation is the number of
    PreferNoSchedule taints that no toleration of the unit tolerates. *)
Theorem TaintToleration_Score_counts su cluster :
  Z.of_nat (length (Taints cluster)) < 2 ^ 63 ->
  TaintToleration_Score (Some su) (Some cluster) =
  (Z.of_nat (length (filter (fun t => t_Effect t = TaintEffectPreferNoSchedule /\
     TolerationsTolerateTaint (Tolerations su) t = false) (Taints cluster))), NewResult Success []).
Proof using Type. intros H. unfold TaintToleration_Score. simpl. by rewrite count_intolerable. Qed.
End TaintScore.

(** ** Selection *)

Section Select.
Context `{K : Kubernetes} `{R : GoRuntime}.

#[export] Instance priorityLess_swo : StrictWeakOrder priorityLess.
Proof.
  pose proof (swo_lex (fun s : ClusterScore => Score s) (fun x y => y <? x)
    (fun x y => String.ltb (c_Name (cs_Cluster x)) (c_Name (cs_Cluster y)))) as H.
  apply H.
  - split; intros *; rewrite ?Z.ltb_lt, ?Z.ltb_ge; lia.
  - intros k1 k2. rewrite !Z.ltb_ge. lia.
  - apply (swo_on String.ltb (fun s : ClusterScore => c_Name (cs_Cluster s))), swo_string.
Qed.

#[export] Instance scoreLess_swo : StrictWeakOrder scoreLess.
Proof. apply (swo_Z_desc (fun s : ClusterScore => Score s)). Qed.

(** [MaxCluster] keeps the best clusters: as many as [maxClusters] allows,
    and no cluster that is left out has a higher score than one that is kept. *)
Theorem MaxCluster_top su scores :
  (forall m, MaxClusters su = Some m -> 0 <= m) ->
  let '(kept, r) := MaxCluster_SelectClusters su scores in
  code r = Success /\
  Z.of_nat (length kept) = Z.min (Z.of_nat (length scores))
    (default (Z.of_nat (length scores)) (MaxClusters su)) /\
  exists left_out, kept ++ left_out ≡ₚ scores /\
    forall x y, x ∈ kept -> y ∈ left_out -> Score y <= Score x.
Proof using Type.
  intros Hm. unfold MaxCluster_SelectClusters.
  destruct (match MaxClusters su with Some m => m <? 0 | None => false end) eqn:E.
  { destruct (MaxClusters su) as [m|]; [|done]. specialize (Hm m eq_refl). z_bools. lia. }
  set (n := Z.to_nat _). set (sorted := sort_slice scoreLess scores).
  assert (Hp : sorted ≡ₚ scores) by apply sort_slice_perm.
  assert (Hlen : length sorted = length scores) by (by rewrite Hp).
  split_and!; [done| |].
  - rewrite length_take, Hlen. unfold n. destruct (MaxClusters su) as [m|]; simpl; [|lia].
    specialize (Hm m eq_refl). destruct (m <? Z.of_nat (length scores)) eqn:E2; z_bools; lia.
  - exists (drop n sorted). split; [by rewrite take_drop|]. intros x y Hx Hy.
    pose proof (sort_slice_sorted _ scoreLess scores _) as Hs. fold sorted in Hs.
    rewrite <- (take_drop n sorted) in Hs. apply StronglySorted_app in Hs as (Hs & _ & _).
    specialize (Hs x y Hx Hy). unfold sorted_rel, scoreLess in Hs. z_bools. lia.
Qed.

(** The list that [PrioritySort] sorts. *)
Definition ranked (su : SchedulingUnit) (scores : list ClusterScore) : list ClusterScore :=
  if negb (bool_decide (Priorities su = ∅)) ||
     (String.eqb (SchedulingMode su) SchedulingModeDivide &&
      String.eqb (ReplicasStrategy su) ReplicasStrategyBinpack)
  then (fun s => setScore s (mget (Priorities su) (c_Name (cs_Cluster s)))) <$> scores
  else scores.

Definition cs_Name (s : ClusterScore) : string := c_Name (cs_Cluster s).

Lemma ranked_perm su l1 l2 : l1 ≡ₚ l2 -> ranked su l1 ≡ₚ ranked su l2.
Proof using Type. intros H. unfold ranked. case_match; [|done]. by apply fmap_Permutation. Qed.

Lemma ranked_names su l : cs_Name <$> ranked su l = cs_Name <$> l.
Proof using Type. unfold ranked. case_match; [|done]. by rewrite <- list_fmap_compose. Qed.

Lemma priorityLess_antisym x y :
  priorityLess x y = false -> priorityLess y x = false -> cs_Name x = cs_Name y.
Proof using Type.
  unfold priorityLess, cs_Name. repeat case_bool_decide; try congruence.
  - apply string_ltb_total.
  - rewrite !Z.ltb_ge. lia.
Qed.

(** The strict order of the result. *)
Definition ranks_before (x y : ClusterScore) : Prop :=
  Score y < Score x \/ Score x = Score y /\ String.ltb (cs_Name x) (cs_Name y) = true.

Lemma priorityLess_ranks x y : priorityLess x y = true <-> ranks_before x y.
Proof using Type.
  unfold priorityLess, ranks_before, cs_Name. case_bool_decide; rewrite ?Z.ltb_lt; naive_solver lia.
Qed.

Lemma sorted_strict l :
  NoDup (cs_Name <$> l) -> StronglySorted (sorted_rel priorityLess) l -> StronglySorted ranks_before l.
Proof using Type.
  intros Hnd. induction 1 as [|x l Hl IH Hx]; [constructor|].
  rewrite fmap_cons in Hnd. apply NoDup_cons in Hnd as [Hx' Hnd]. constructor; [auto|].
  rewrite Forall_forall in *. intros y Hy. specialize (Hx y Hy). apply priorityLess_ranks.
  destruct (priorityLess x y) eqn:E; [done|]. destruct Hx'.
  rewrite (priorityLess_antisym x y E Hx). by apply list_elem_of_fmap_2.
Qed.
End Select.

(** [PrioritySort] returns the clusters, each with the score that ranks it
    (its priority if priorities are set or replicas are bin-packed), best score
    first and by name within a score: when the names are distinct the list
    depends on neither the order of the input nor the sorting algorithm. *)
Theorem PrioritySort_canonical `{K : Kubernetes} (R1 R2 : GoRuntime) su scores1 scores2 :
  scores1 ≡ₚ scores2 -> NoDup (cs_Name <$> scores1) ->
  @PrioritySort_SelectClusters K R1 su scores1 = @PrioritySort_SelectClusters K R2 su scores2 /\
  (@PrioritySort_SelectClusters K R1 su scores1).1 ≡ₚ ranked su scores1 /\
  StronglySorted ranks_before (@PrioritySort_SelectClusters K R1 su scores1).1.
Proof.
  intros Hp Hnd. unfold PrioritySort_SelectClusters.
  change (if _ || _ then _ else scores1) with (ranked su scores1).
  change (if _ || _ then _ else scores2) with (ranked su scores2).
  assert (Hnd' : NoDup (cs_Name <$> @sort_slice R1 _ priorityLess (ranked su scores1)))
    by (by rewrite sort_slice_perm, ranked_names).
  split_and!; [|apply sort_slice_perm|].
  - f_equal. apply (sorted_perm_unique priorityLess); [| |apply sort_slice_sorted, _..].
    + rewrite !sort_slice_perm. by apply ranked_perm.
    + intros x y Hx Hy Hxy Hyx. eapply (NoDup_fmap_fst_eq cs_Name); [exact Hnd'|done|done|].
      by apply priorityLess_antisym.
  - apply sorted_strict; [done|]. apply sort_slice_sorted, _.
Qed.

(** ** Concrete inputs *)

Section Witnesses.
#[local] Existing Instance small_kubernetes.
#[local] Existing Instance small_runtime.

Definition sized_cluster (name : string) (allocatable available : Z) : FederatedCluster := {|
  c_Name := name; c_Labels := ∅; c_Annotations := ∅; c_Finalizers := []; c_DeletionTimestamp := None;
  Taints := [ {| t_Key := "k"; t_Value := "v"; t_Effect := TaintEffectPreferNoSchedule |} ];
  Status := {| Conditions := []; APIResourceTypes := []; JoinPerformed := true;
               st_Resources := {| SchedulableNodes := None;
                 Allocatable := {[ ResourceCPU := (allocatable : Quantity) ]};
                 Available := {[ ResourceCPU := (available : Quantity) ]} |} |} |}.

Lemma request_singleton n q : request n {[ ResourceCPU := (q : Quantity) ]} =
  if decide (n = ResourceCPU) then sat64 q else 0.
Proof.
  unfold request. case_decide as E.
  - subst. by rewrite lookup_singleton_eq.
  - rewrite lookup_singleton_ne by done. by destruct (tracked n).
Qed.

Lemma sized_accounted name : accounted (sized_cluster name 8000 3000).
Proof.
  split; simpl.
  - intros k q [<- <-]%lookup_singleton_Some _. vm_compute. congruence.
  - intros n. rewrite !request_singleton. case_decide; vm_compute; congruence.
  - right. intros k q [<- <-]%lookup_singleton_Some (H & _). done.
Qed.

Lemma sized_small name n b :
  8000 < b -> request n (Allocatable (st_Resources (Status (sized_cluster name 8000 3000)))) < b.
Proof. intros Hb. simpl. rewrite request_singleton. case_decide; [change (sat64 8000) with 8000|]; lia. Qed.

Definition cpu_unit (cpu : Z) : SchedulingUnit := {|
  su_GroupVersion := {| gv_Group := "apps"; gv_Version := "v1" |};
  su_Kind := "Deployment"; su_Resource := "deployments"; su_Namespace := "default"; su_Name := "web";
  su_Labels := ∅; su_Annotations := ∅;
  DesiredReplicas := Some 5; ResourceRequest := setMilliCPU emptyResource cpu;
  CurrentClusters := ∅; AutoMigration := None; CustomMigration := {| cm_Info := None |};
  SchedulingMode := SchedulingModeDivide; ReplicasStrategy := ReplicasStrategySpread;
  StickyCluster := false; AvoidDisruption := true; su_ClusterSelector := ∅; ClusterNames := ∅;
  su_Affinity := None; Tolerations := []; MaxClusters := Some 1; su_MinReplicas := ∅;
  su_MaxReplicas := ∅; Weights := ∅; Priorities := ∅; EnableKatalystSupport := false |}.

Lemma cpu_valid : valid_request (ResourceRequest (cpu_unit 2000)).
Proof.
  split; simpl; [|intros k v; by rewrite lookup_empty].
  intros n. rewrite amount_setMilliCPU, amount_empty. case_decide; lia.
Qed.

Lemma ClusterResourcesFit_Filter_spec_witness :
  exists r, ClusterResourcesFit_Filter (Some (cpu_unit 2000)) (Some (sized_cluster "a" 8000 3000)) = Returns r /\
    code r = Success.
Proof.
  destruct (ClusterResourcesFit_Filter_spec (cpu_unit 2000) (sized_cluster "a" 8000 3000)
    (sized_accounted "a") cpu_valid) as (r & H1 & H2).
  - intros n. apply sized_small. lia.
  - exists r. split; [exact H1|]. apply H2. right. simpl. split; [vm_compute; congruence|].
    split; [vm_compute; congruence|]. intros k v Hk. by rewrite lookup_empty in Hk.
Defined.

Lemma least_most_complement_witness :
  99 <= leastRequestedScore 1 3 + mostRequestedScore 1 3 <= 100.
Proof. apply (least_most_complement 1 3); lia. Defined.

Lemma allocated_Score_bounds_witness :
  exists least, ClusterResourcesLeastAllocated_Score (Some (cpu_unit 2000))
    (Some (sized_cluster "a" 8000 3000)) = Returns (least, NewResult Success []) /\ 0 <= least <= 100.
Proof.
  destruct (allocated_Score_bounds (cpu_unit 2000) (sized_cluster "a" 8000 3000)
    (sized_accounted "a") cpu_valid) as (l & m & H1 & _ & H2 & _).
  - intros n. apply sized_small. lia.
  - vm_compute. reflexivity.
  - exists l. exact (conj H1 H2).
Defined.

Lemma TaintToleration_Score_counts_witness :
  TaintToleration_Score (Some (cpu_unit 2000)) (Some (sized_cluster "a" 8000 3000)) =
  (1, NewResult Success []).
Proof. rewrite TaintToleration_Score_counts; [reflexivity|vm_compute; reflexivity]. Defined.

Definition example_ranking : list ClusterScore :=
  [ {| cs_Cluster := sized_cluster "b" 8000 3000; Score := 3 |};
    {| cs_Cluster := sized_cluster "a" 8000 3000; Score := 3 |};
    {| cs_Cluster := sized_cluster "c" 8000 3000; Score := 7 |} ].

Lemma MaxCluster_top_witness :
  Z.of_nat (length (MaxCluster_SelectClusters (cpu_unit 2000) example_ranking).1) = 1.
Proof.
  pose proof (MaxCluster_top (cpu_unit 2000) example_ranking) as H.
  destruct (MaxCluster_SelectClusters (cpu_unit 2000) example_ranking) as [kept r].
  apply H. intros m [= <-]. lia.
Defined.

Lemma PrioritySort_canonical_witness :
  @PrioritySort_SelectClusters _ small_runtime (cpu_unit 2000) example_ranking =
  @PrioritySort_SelectClusters _ reversed_runtime (cpu_unit 2000) (reverse example_ranking).
Proof.
  apply (PrioritySort_canonical small_runtime reversed_runtime).
  - symmetry. apply reverse_Permutation.
  - apply (bool_decide_eq_true _). vm_compute. reflexivity.
Defined.
End Witnesses.
