(* ===== verification/Rsp.v ===== *)
(** * The replica scheduling plugin ([plugins/rsp/rsp.go])

    [ClusterCapacityWeight] turns the preferences of a scheduling unit, or the
    resources of the clusters, into the input of the planner, and the plan into
    the replicas of each cluster.  Dynamic weights are computed in float64; the
    sums follow the iteration order of the maps. *)

From Stdlib Require Import ZArith Lia String.
From S2P Require Import Prelude K8s Types Resources FilterPlugins Float64 Planner.

Definition supplyLimitProportion : float64 := fdiv (f64 14) (f64 10).
Definition sumWeight : float64 := f64 1000.
(** [int64(sumWeight)], a constant conversion. *)
Definition int64_sumWeight : Z := 1000.

Definition availableResource : string := "available".
Definition allocatableResource : string := "allocatable".

Section Rsp.
Context `{K : Kubernetes} `{R : GoRuntime} `{F : FloatRuntime}.

(** The errors of the weight computation; the first one prints a map of
    resource lists. *)
Inductive WeightError :=
  | AllocatablesIncomplete (allocatables : gmap string ResourceList)
  | NoResource (resourceName : string).

(** ** Resources of the clusters *)

(** The loop over one resource list, starting from cpu, memory and gpu at 0. *)
Definition sumByResource (available : ResourceList) (e : string * Quantity) : ResourceList :=
  let '(resourceName, q) := e in
  match available !! resourceName with
  | Some val => <[resourceName := Quantity_Add val q]> available
  | None => <[resourceName := q]> available
  end.

Definition clusterResourceList (rl : ResourceList) : ResourceList :=
  let available : ResourceList :=
    <[ResourceGPU := zero_quantity]>
    (<[ResourceMemory := zero_quantity]> (<[ResourceCPU := zero_quantity]> ∅)) in
  foldl sumByResource available (range_map rl).

Definition QueryAvailable (clusters : list FederatedCluster) : gmap string ResourceList :=
  foldl (fun ret cluster =>
    <[c_Name cluster := clusterResourceList (Available (st_Resources (Status cluster)))]> ret) ∅ clusters.

Definition QueryAllocatable (clusters : list FederatedCluster) : gmap string ResourceList :=
  foldl (fun ret cluster =>
    <[c_Name cluster := clusterResourceList (Allocatable (st_Resources (Status cluster)))]> ret) ∅ clusters.

Definition QueryClusterResource (clusters : list FederatedCluster) (resource : string)
    : gmap string ResourceList :=
  if String.eqb resource availableResource then QueryAvailable clusters
  else if String.eqb resource allocatableResource then QueryAllocatable clusters
  else ∅.

(** The zero [Quantity] has value 0. *)
Definition resourceValue (rl : ResourceList) (resourceName : string) : Z :=
  match rl !! resourceName with Some q => Value q | None => 0 end.

(** ** Weights *)

Fixpoint weightLimits (allocatables : list (string * ResourceList)) (resourceName : string)
    (sum ratio : float64) (weightLimit : gmap string Z) : gmap string Z + WeightError :=
  match allocatables with
  | [] => inl weightLimit
  | (member, resources) :: allocatables' =>
      match resources !! resourceName with
      | None => inr (NoResource resourceName)
      | Some q =>
          let w := int64_of_float
            (fround (fmul (fmul (fdiv (f64 (Value q)) sum) sumWeight) ratio)) in
          weightLimits allocatables' resourceName sum ratio (<[member := w]> weightLimit)
      end
  end.

(** The same weight for every member: [int64(math.Round(sumWeight / n))]. *)
Definition equalWeights (members : gmap string ResourceList) : gmap string Z :=
  (fun _ => int64_of_float (fround (fdiv sumWeight (f64 (Z.of_nat (size members)))))) <$> members.

Definition CalcWeightLimit (clusters : list FederatedCluster) (resourceName : string)
    (supplyLimitRatio : float64) : gmap string Z + WeightError :=
  let allocatables := QueryClusterResource clusters allocatableResource in
  if negb (Nat.eqb (size allocatables) (length clusters)) then
    inr (AllocatablesIncomplete allocatables)
  else
    let sum := foldl (fun sum '(_, resources) =>
        fadd sum (f64 (resourceValue resources resourceName))) (f64 0) (range_map allocatables) in
    if feqb sum (f64 0) then inl (equalWeights allocatables)
    else weightLimits (range_map allocatables) resourceName sum supplyLimitRatio ∅.

(** The weights before normalisation, with their sum. *)
Fixpoint tmpWeights (avails : list (string * ResourceList)) (resourceName : string)
    (sumAvailable : float64) (weightLimit : gmap string Z)
    (tmp : gmap string Z) (sumTmpWeight : Z) : (gmap string Z * Z) + WeightError :=
  match avails with
  | [] => inl (tmp, sumTmpWeight)
  | (member, resources) :: avails' =>
      match resources !! resourceName with
      | None => inr (NoResource resourceName)
      | Some q =>
          let resourceValue := f64 (Value q) in
          let resourceValue := if fltb resourceValue (f64 0) then f64 0 else resourceValue in
          let weight := int64_of_float (fround (fmul (fdiv resourceValue sumAvailable) sumWeight)) in
          let weight := if mget weightLimit member <? weight then mget weightLimit member else weight in
          tmpWeights avails' resourceName sumAvailable weightLimit
            (<[member := weight]> tmp) (sumTmpWeight +! weight)
      end
  end.

(** The state of the last loop of [AvailableToPercentage]. *)
Record percentState := {
  clusterWeights : gmap string Z;
  otherSumWeight : Z;
  maxWeight : Z;
  maxCluster : string
}.

Definition percentStep (sumTmpWeight : Z) (s : percentState) (e : string * Z) : percentState :=
  let '(member, tmpMemberWeight) := e in
  let weight := int64_of_float
    (fround (fmul (fdiv (f64 tmpMemberWeight) (f64 sumTmpWeight)) sumWeight)) in
  {| clusterWeights := <[member := weight]> (clusterWeights s);
     otherSumWeight := otherSumWeight s +! weight;
     maxWeight := if maxWeight s <? weight then weight else maxWeight s;
     maxCluster := if maxWeight s <? weight then member else maxCluster s |}.

Definition sumAvailables (avails : gmap string ResourceList) (resourceName : string) : float64 :=
  foldl (fun sum '(_, resources) =>
    if 0 <? resourceValue resources resourceName
    then fadd sum (f64 (resourceValue resources resourceName)) else sum)
    (f64 0) (range_map avails).

Definition AvailableToPercentage (clusterAvailables : gmap string ResourceList)
    (resourceName : string) (weightLimit : gmap string Z) : gmap string Z + WeightError :=
  let sumAvailable := sumAvailables clusterAvailables resourceName in
  if feqb sumAvailable (f64 0) then inl (equalWeights clusterAvailables)
  else
    match tmpWeights (range_map clusterAvailables) resourceName sumAvailable weightLimit ∅ 0 with
    | inr err => inr err
    | inl (tmpMemberWeights, sumTmpWeight) =>
        let s := foldl (percentStep sumTmpWeight)
          {| clusterWeights := ∅; otherSumWeight := 0; maxWeight := 0; maxCluster := "" |}
          (range_map tmpMemberWeights) in
        inl (<[maxCluster s := mget (clusterWeights s) (maxCluster s) +!
                 (int64_sumWeight -! otherSumWeight s)]> (clusterWeights s))
    end.

(** ** The inputs of the planner *)

Definition totalReplicasOf (su : SchedulingUnit) : Z := default 0 (DesiredReplicas su).

(** A cluster scheduled without a number of replicas counts for all of them. *)
Definition currentReplicasOf (su : SchedulingUnit) : gmap string Z :=
  (fun replicas => default (totalReplicasOf su) replicas) <$> CurrentClusters su.

Definition isNoSchedule (t : Taint) : bool := String.eqb (t_Effect t) TaintEffectNoSchedule.

(** The preferences of one cluster. *)
Definition clusterPreference (su : SchedulingUnit) (schedulingWeights : gmap string Z)
    (cluster : FederatedCluster) : ClusterPreferences :=
  let name := c_Name cluster in
  let maxReplicas := su_MaxReplicas su !! name in
  let current := mget (currentReplicasOf su) name in
  {| Weight := mget schedulingWeights name;
     MinReplicas := mget (su_MinReplicas su) name;
     MaxReplicas :=
       match FindMatchingUntoleratedTaint (Taints cluster) (Tolerations su) (Some isNoSchedule) with
       | None => maxReplicas
       | Some _ =>
           match maxReplicas with
           | None => Some current
           | Some m => if current <? m then Some current else Some m
           end
       end |}.

Definition clusterPreferencesOf (su : SchedulingUnit) (schedulingWeights : gmap string Z)
    (clusters : list FederatedCluster) : gmap string ClusterPreferences :=
  foldl (fun acc cluster => <[c_Name cluster := clusterPreference su schedulingWeights cluster]> acc)
    ∅ clusters.

(** Negative estimates are dropped. *)
Definition estimatedCapacityOf (su : SchedulingUnit) : gmap string Z :=
  match AutoMigration su ≫= am_Info with
  | Some info => filter (fun '(_, ec) => 0 <= ec) (EstimatedCapacity info)
  | None => ∅
  end.

Definition keepUnschedulableReplicasOf (su : SchedulingUnit) : bool :=
  match AutoMigration su with Some am => KeepUnschedulableReplicas am | None => false end.

Definition limitedCapacityOf (su : SchedulingUnit) : gmap string Z :=
  match cm_Info (CustomMigration su) with
  | Some info => default ∅ (LimitedCapacity info)
  | None => ∅
  end.

(** The resource whose availability weighs the clusters. *)
Definition weightResource (su : SchedulingUnit) : string :=
  if HasScalarResource (ResourceRequest su) ResourceGPU then ResourceGPU
  else if EnableKatalystSupport su && HasScalarResource (ResourceRequest su) ReclaimedResourceMilliCPU
       then ReclaimedResourceMilliCPU
  else ResourceCPU.

Definition WeightError_string (fmt : gmap string ResourceList -> string) (e : WeightError) : string :=
  match e with
  | AllocatablesIncomplete m => "allocatables are incomplete: " ++ fmt m
  | NoResource name => "no " ++ name ++ " resource"
  end.

(** The weights of the clusters, static or dynamic; [fmt] is the [%v] of a map. *)
Definition schedulingWeightsOf (fmt : gmap string ResourceList -> string)
    (su : SchedulingUnit) (clusters : list FederatedCluster) : gmap string Z + Result :=
  if bool_decide (Weights su = ∅) then
    let resourceName := weightResource su in
    let clusterAvailables := QueryClusterResource clusters availableResource in
    if negb (Nat.eqb (length clusters) (size clusterAvailables)) then inr (NewResult Error [])
    else
      match CalcWeightLimit clusters resourceName supplyLimitProportion with
      | inr err => inr (NewResult Error [("CalcWeightLimit failed: " ++ WeightError_string fmt err)%string])
      | inl weightLimit =>
          match AvailableToPercentage clusterAvailables resourceName weightLimit with
          | inr err =>
              inr (NewResult Error [("AvailableToPercentage failed: " ++ WeightError_string fmt err)%string])
          | inl w => inl w
          end
      end
  else inl (Weights su).

(** The replicas of the clusters in the order of [clusters]. *)
Definition clusterReplicasList (clusters : list FederatedCluster) (result : gmap string Z)
    : list ClusterReplicas :=
  foldl (fun acc cluster =>
    match result !! c_Name cluster with
    | None => acc
    | Some replicas =>
        if replicas =? 0 then acc
        else acc ++ [ {| cr_Cluster := cluster; Replicas := replicas |} ]
    end) [] clusters.

(** [None] is a planner loop out of fuel, see [ReplicaScheduling_total]. *)
Definition ReplicaScheduling (fmt : gmap string ResourceList -> string)
    (su : SchedulingUnit) (clusters : list FederatedCluster)
    : option (list ClusterReplicas * Result) :=
  match schedulingWeightsOf fmt su clusters with
  | inr r => Some ([], r)
  | inl schedulingWeights =>
      '(scheduleResult, overflow) ←
        Plan {| Clusters := clusterPreferencesOf su schedulingWeights clusters |}
          (totalReplicasOf su) (ExtractClusterNames clusters) (currentReplicasOf su)
          (estimatedCapacityOf su) (limitedCapacityOf su) (Types.Key su)
          (AvoidDisruption su) (keepUnschedulableReplicasOf su);
      let result := range_update add64 scheduleResult overflow in
      Some (clusterReplicasList clusters result, NewResult Success [])
  end.
End Rsp.
