(* ===== verification/RspTheorems.v ===== *)
(** * The theorems about the replica scheduling plugin *)

From Stdlib Require Import ZArith Lia String.
From S2P Require Import Prelude Planner PlannerFacts PlanTheorems K8s Types Resources FilterPlugins FilterTheorems.
From S2P Require Import Float64 Rsp.

(** ** Dynamic weights *)

Section Weights.
Context `{K : Kubernetes} `{R : GoRuntime} `{F : FloatRuntime}.

(** [otherSumWeight] is the sum of the weights assigned so far. *)
Lemma percentStep_fold sumTmp l s :
  NoDup l.*1 -> (forall k, k ∈ l.*1 -> clusterWeights s !! k = None) ->
  otherSumWeight s = wrap64 (msum (clusterWeights s)) ->
  let s' := foldl (percentStep sumTmp) s l in
  otherSumWeight s' = wrap64 (msum (clusterWeights s')).
Proof using Type.
  revert s. induction l as [|[k v] l IH]; intros s; [done|].
  rewrite fmap_cons, NoDup_cons. intros [Hk Hnd] Hnone Hs. cbn [foldl]. apply IH; [done| |].
  - intros k' Hk'. simpl. rewrite lookup_insert_ne; [apply Hnone; by right|]. by intros <-.
  - simpl. rewrite Hs, add64_wrap_l, msum_insert, (mget_None _ _ (Hnone k ltac:(left))). f_equal. lia.
Qed.

(** The dynamic weights add up to 1000, whatever the rounding of the
    floating-point divisions and the order in which the maps are visited. *)
Theorem AvailableToPercentage_sum avails resourceName limit w :
  feqb (sumAvailables avails resourceName) (f64 0) = false ->
  AvailableToPercentage avails resourceName limit = inl w -> msum64 w = 1000.
Proof using Type.
  unfold AvailableToPercentage. intros ->.
  destruct (tmpWeights _ _ _ _ _ _) as [[tmp sumTmp]|]; [|done].
  set (s := foldl (percentStep sumTmp) _ _). intros [= <-].
  assert (Hs : otherSumWeight s = wrap64 (msum (clusterWeights s))).
  { apply (percentStep_fold sumTmp (range_map tmp)).
    - apply NoDup_range_map_fst.
    - intros k _. apply lookup_empty.
    - simpl. by rewrite msum_empty. }
  rewrite msum64_wrap, msum_insert, Hs. unfold int64_sumWeight, add64, sub64.
  transitivity (wrap64 1000); [|by rewrite wrap64_small by (unfold int64; lia)].
  apply wrap64_congr. set (m := msum _). set (x := mget _ _).
  rewrite <- Zplus_mod_idemp_r, wrap64_mod, Zplus_mod_idemp_r.
  rewrite Z.add_assoc, <- Zplus_mod_idemp_r, wrap64_mod, Zplus_mod_idemp_r.
  replace (m - x + x + (1000 - wrap64 m)) with (m + 1000 - wrap64 m) by lia.
  rewrite Zminus_mod, wrap64_mod, <- Zminus_mod. f_equal. lia.
Qed.
End Weights.

(** ** Replica scheduling *)

Section Scheduling.
Context `{K : Kubernetes} `{R : GoRuntime} `{F : FloatRuntime}.

Lemma clusterPreferencesOf_lookup su w clusters cluster :
  NoDup (c_Name <$> clusters) -> cluster ∈ clusters ->
  clusterPreferencesOf su w clusters !! c_Name cluster = Some (clusterPreference su w cluster).
Proof using Type.
  unfold clusterPreferencesOf. intros Hnd Hin.
  assert (Hg : forall m : gmap string ClusterPreferences, foldl (fun acc cluster =>
      <[c_Name cluster := clusterPreference su w cluster]> acc) m clusters !! c_Name cluster =
      Some (clusterPreference su w cluster)); [|apply Hg].
  induction clusters as [|c l IH]; intros m; [by apply elem_of_nil in Hin|].
  rewrite fmap_cons in Hnd. apply NoDup_cons in Hnd as [Hc Hnd]. cbn [foldl].
  apply elem_of_cons in Hin as [->|Hin]; [|by apply IH].
  clear IH. assert (Hm : forall m : gmap string ClusterPreferences, m !! c_Name c = Some (clusterPreference su w c) ->
    foldl (fun acc cluster => <[c_Name cluster := clusterPreference su w cluster]> acc) m l !! c_Name c =
    Some (clusterPreference su w c)); [|apply Hm, lookup_insert_eq].
  clear m. induction l as [|d l IH]; intros m Hm; [done|]. cbn [foldl].
  rewrite fmap_cons, not_elem_of_cons in Hc. destruct Hc as [Hne Hc]. apply IH; [done| |].
  - rewrite fmap_cons in Hnd. by apply NoDup_cons in Hnd as [_ ?].
  - by rewrite lookup_insert_ne.
Qed.

Lemma clusterPreferencesOf_names su w clusters k p :
  clusterPreferencesOf su w clusters !! k = Some p ->
  exists cluster, cluster ∈ clusters /\ c_Name cluster = k /\ p = clusterPreference su w cluster.
Proof using Type.
  unfold clusterPreferencesOf.
  assert (Hg : forall m : gmap string ClusterPreferences, foldl (fun acc cluster =>
      <[c_Name cluster := clusterPreference su w cluster]> acc) m clusters !! k = Some p ->
    m !! k = Some p \/ exists cluster, cluster ∈ clusters /\ c_Name cluster = k /\
      p = clusterPreference su w cluster).
  { induction clusters as [|c l IH]; intros m; [by left|]. cbn [foldl].
    intros [H|(c' & Hin & Hc)]%IH; [|right; exists c'; split; [by right|done]].
    apply lookup_insert_Some in H as [[<- <-]|[_ H]]; [|by left].
    right. exists c. split; [left|done]. }
  intros [H|H]%Hg; [by rewrite lookup_empty in H|done].
Qed.

(** Every available cluster has preferences of its own. *)
Lemma available_clusters su w clusters :
  NoDup (c_Name <$> clusters) ->
  availablePreferences {| Clusters := clusterPreferencesOf su w clusters |}
    (ExtractClusterNames clusters) = clusterPreferencesOf su w clusters.
Proof using Type.
  intros Hnd. apply map_eq. intros k. rewrite availablePreferences_lookup. simpl.
  unfold ExtractClusterNames. case_decide as E.
  - apply list_elem_of_fmap in E as (cl & -> & Hcl). by rewrite clusterPreferencesOf_lookup.
  - destruct (clusterPreferencesOf su w clusters !! k) as [pr|] eqn:Ek; [|done].
    apply clusterPreferencesOf_names in Ek as (c & Hc & <- & _).
    destruct E. by apply list_elem_of_fmap_2.
Qed.

(** The list built from the plan: the clusters with replicas, in order. *)
Lemma clusterReplicasList_spec clusters result :
  clusterReplicasList clusters result =
  omap (fun cluster => match result !! c_Name cluster with
                       | Some r => if r =? 0 then None
                                   else Some {| cr_Cluster := cluster; Replicas := r |}
                       | None => None
                       end) clusters.
Proof using Type.
  unfold clusterReplicasList.
  assert (Hg : forall acc, foldl (fun acc cluster =>
      match result !! c_Name cluster with
      | None => acc
      | Some replicas => if replicas =? 0 then acc
                         else acc ++ [ {| cr_Cluster := cluster; Replicas := replicas |} ]
      end) acc clusters = acc ++ omap (fun cluster => match result !! c_Name cluster with
                       | Some r => if r =? 0 then None
                                   else Some {| cr_Cluster := cluster; Replicas := r |}
                       | None => None
                       end) clusters); [|apply (Hg [])].
  induction clusters as [|c l IH]; intros acc; simpl; [by rewrite app_nil_r|].
  rewrite IH. destruct (result !! c_Name c) as [r|]; [|done].
  destruct (r =? 0); [done|]. by rewrite <- app_assoc.
Qed.

Lemma elem_of_clusterReplicasList clusters result x :
  x ∈ clusterReplicasList clusters result ->
  cr_Cluster x ∈ clusters /\ result !! c_Name (cr_Cluster x) = Some (Replicas x) /\ Replicas x <> 0.
Proof using Type.
  rewrite clusterReplicasList_spec, list_elem_of_omap. intros (c & Hc & Hx).
  destruct (result !! c_Name c) as [r|] eqn:Er; [|done]. destruct (r =? 0) eqn:E0; [done|].
  injection Hx as <-. z_bools. done.
Qed.

(** No replica of the plan is lost or counted twice. *)
Lemma sum_clusterReplicasList clusters result :
  NoDup (c_Name <$> clusters) -> (forall k, k ∉ c_Name <$> clusters -> mget result k = 0) ->
  sumZ Replicas (clusterReplicasList clusters result) = msum result.
Proof using Type.
  intros Hnd Hdom. rewrite clusterReplicasList_spec.
  transitivity (sumZ (mget result) (c_Name <$> clusters)).
  - clear. induction clusters as [|c l IH]; csimpl; [done|]. rewrite <- IH. unfold mget.
    destruct (result !! c_Name c) as [r|]; simpl; [|done].
    destruct (r =? 0) eqn:E; simpl; z_bools; lia.
  - revert result Hdom. induction (c_Name <$> clusters) as [|k ks IH]; intros result Hdom.
    + simpl. symmetry. rewrite <- msum_empty. apply msum_ext. intros k. rewrite mget_empty.
      apply Hdom, not_elem_of_nil.
    + apply NoDup_cons in Hnd as [Hk Hnd]. simpl. rewrite (msum_delete result k).
      rewrite <- (IH Hnd (delete k result)).
      * rewrite Z.add_comm. f_equal. apply sumZ_ext. intros x Hx. unfold mget.
        rewrite lookup_delete_ne; [done|]. by intros ->.
      * intros x Hx. destruct (decide (x = k)) as [->|Hne].
        -- apply mget_None, lookup_delete_eq.
        -- unfold mget. rewrite lookup_delete_ne by done. apply Hdom.
           by rewrite not_elem_of_cons.
Qed.

(** Inputs the plugin is meant for: distinct clusters, non-negative preferences
    with the minimum below the maximum, replica counts of 31 bits. *)
Record rsp_input (su : SchedulingUnit) (w : gmap string Z) (clusters : list FederatedCluster)
    : Prop := {
  ri_nodup : NoDup (c_Name <$> clusters);
  ri_pref : forall cluster, cluster ∈ clusters ->
    let p := clusterPreference su w cluster in
    0 <= MinReplicas p /\ 0 <= Weight p /\
    forall m, MaxReplicas p = Some m -> MinReplicas p <= m < 2 ^ 63;
  ri_weights : msum (Weight <$> clusterPreferencesOf su w clusters) <= 2 ^ 31;
  ri_total : 0 <= totalReplicasOf su < 2 ^ 31;
  ri_current : small_plan (currentReplicasOf su);
  ri_limited : all_nonneg (limitedCapacityOf su)
}.

Lemma estimated_nonneg su : all_nonneg (estimatedCapacityOf su).
Proof using Type.
  unfold estimatedCapacityOf. destruct (AutoMigration su ≫= am_Info); [|apply all_nonneg_empty].
  intros k v [_ Hv]%map_lookup_filter_Some. done.
Qed.

Lemma rsp_input_plan su w clusters :
  rsp_input su w clusters ->
  plan_input (clusterPreferencesOf su w clusters) (totalReplicasOf su) (currentReplicasOf su)
    (estimatedCapacityOf su) (limitedCapacityOf su) /\
  (forall c p m, clusterPreferencesOf su w clusters !! c = Some p ->
     MaxReplicas p = Some m -> MinReplicas p <= m).
Proof using Type.
  intros [Hnd Hp Hw Ht Hc Hl]. split.
  - split; try done; [|apply estimated_nonneg].
    intros k p (c & Hin & _ & ->)%clusterPreferencesOf_names. destruct (Hp c Hin) as (H1 & H2 & H3).
    split_and!; [done..|]. intros m Hm. specialize (H3 m Hm). lia.
  - intros k p m (c & Hin & _ & ->)%clusterPreferencesOf_names Hm. by apply (Hp c Hin).
Qed.

(** The plan behind the result. *)
Lemma ReplicaScheduling_plan fmt su w clusters :
  schedulingWeightsOf fmt su clusters = inl w -> rsp_input su w clusters ->
  exists res ovf,
    ReplicaScheduling fmt su clusters =
      Some (clusterReplicasList clusters (range_update add64 res ovf), NewResult Success []) /\
    0 <= msum res <= totalReplicasOf su /\
    (forall c, 0 <= mget res c /\
       within_caps (estimatedCapacityOf su) (limitedCapacityOf su) c (mget res c)) /\
    (forall c, c ∉ c_Name <$> clusters -> mget res c = 0) /\
    (forall cluster m, cluster ∈ clusters ->
       MaxReplicas (clusterPreference su w cluster) = Some m ->
       mget res (c_Name cluster) <= Z.max (mget (currentReplicasOf su) (c_Name cluster)) m) /\
    (forall c d, ovf !! c = Some d -> is_Some (estimatedCapacityOf su !! c)).
Proof using Type.
  intros Hw Hin. destruct (rsp_input_plan su w clusters Hin) as [Hpi Hcons].
  pose proof (available_clusters su w clusters (ri_nodup _ _ _ Hin)) as Hav.
  destruct (Plan_limits {| Clusters := clusterPreferencesOf su w clusters |} (totalReplicasOf su)
    (ExtractClusterNames clusters) (currentReplicasOf su) (estimatedCapacityOf su)
    (limitedCapacityOf su) (Types.Key su) (AvoidDisruption su) (keepUnschedulableReplicasOf su))
    as (res & ovf & HP & Htot & Hc & Hno & Hmax & Hovf); [by rewrite Hav..|].
  rewrite Hav in Hno, Hmax. exists res, ovf. split; [|split; [done|split; [done|split_and!; [| |done]]]].
  - unfold ReplicaScheduling. rewrite Hw, HP. done.
  - intros c Hc'. apply Hno. destruct (clusterPreferencesOf su w clusters !! c) eqn:E; [|done].
    apply clusterPreferencesOf_names in E as (cl & Hcl & <- & _). destruct Hc'.
    by apply list_elem_of_fmap_2.
  - intros cl m Hcl Hm. eapply Hmax; [|exact Hm].
    apply clusterPreferencesOf_lookup; [apply Hin|done].
Qed.

(** Without estimates there is no overflow. *)
Lemma no_overflow su (ovf : gmap string Z) :
  estimatedCapacityOf su = ∅ ->
  (forall c d, ovf !! c = Some d -> is_Some (estimatedCapacityOf su !! c)) -> ovf = ∅.
Proof using Type.
  intros He Hovf. apply map_eq. intros k. rewrite lookup_empty.
  destruct (ovf !! k) as [d|] eqn:Ek; [|done].
  destruct (Hovf k d Ek) as [? Hk]. by rewrite He, lookup_empty in Hk.
Qed.

(** A cluster without an estimate has no overflow. *)
Lemma no_overflow_at su (result ovf : gmap string Z) c :
  (forall c d, ovf !! c = Some d -> is_Some (estimatedCapacityOf su !! c)) ->
  estimatedCapacityOf su !! c = None -> range_update add64 result ovf !! c = result !! c.
Proof using Type.
  intros Hovf He. rewrite range_update_lookup. destruct (ovf !! c) as [d|] eqn:Ed; [|done].
  destruct (Hovf c d Ed) as [? H]. by rewrite He in H.
Qed.

(** The list has the clusters in the order they are given. *)
Lemma clusterReplicasList_names clusters result :
  (c_Name ∘ cr_Cluster) <$> clusterReplicasList clusters result `sublist_of` c_Name <$> clusters.
Proof using Type.
  rewrite clusterReplicasList_spec. induction clusters as [|c clusters IH]; [done|]. csimpl.
  destruct (result !! c_Name c) as [r|]; [destruct (r =? 0)|]; [by apply sublist_cons| |by apply sublist_cons].
  by apply sublist_skip.
Qed.


(** A cluster with an untolerated NoSchedule taint gets no new replicas,
    provided its minimum is not above the replicas it already runs (which
    [rsp_input] requires of the maximum that the plugin sets). *)
Theorem ReplicaScheduling_NoSchedule fmt su w clusters cluster :
  schedulingWeightsOf fmt su clusters = inl w -> rsp_input su w clusters ->
  estimatedCapacityOf su = ∅ -> cluster ∈ clusters ->
  (exists t, t ∈ Taints cluster /\ t_Effect t = TaintEffectNoSchedule /\
     forall tol, tol ∈ Tolerations su -> ToleratesTaint tol t = false) ->
  exists l, ReplicaScheduling fmt su clusters = Some (l, NewResult Success []) /\
    forall x, x ∈ l -> c_Name (cr_Cluster x) = c_Name cluster ->
      Replicas x <= mget (currentReplicasOf su) (c_Name cluster).
Proof using Type.
  intros Hw Hin He Hcl (t & Ht & Heff & Htol).
  destruct (ReplicaScheduling_plan fmt su w clusters Hw Hin)
    as (res & ovf & HR & Htot & Hc & Hno & Hmax & Hovf).
  eexists. split; [exact HR|]. intros x Hx Hname.
  assert (Hm : exists m, MaxReplicas (clusterPreference su w cluster) = Some m /\
    m <= mget (currentReplicasOf su) (c_Name cluster)).
  { unfold clusterPreference. simpl.
    destruct (FindMatchingUntoleratedTaint _ _ _) as [t'|] eqn:E.
    - destruct (su_MaxReplicas su !! c_Name cluster) as [m|]; [|eexists; split; [done|lia]].
      destruct (mget _ _ <? m) eqn:Em; z_bools; eexists; (split; [done|lia]).
    - exfalso. unfold FindMatchingUntoleratedTaint in E.
      pose proof (proj1 (firstUntolerated_None _ _) E t) as Hall.
      rewrite getFilteredTaints_elem in Hall.
      assert (Hno' : isNoSchedule t = true) by (unfold isNoSchedule; by rewrite Heff).
      specialize (Hall (conj Ht Hno')).
      apply TolerationsTolerateTaint_spec in Hall as (tol & Hin' & Htt). by rewrite Htol in Htt. }
  destruct Hm as (m & Hm & Hle). specialize (Hmax cluster m Hcl Hm).
  apply elem_of_clusterReplicasList in Hx as (_ & Hr & _). rewrite Hname in Hr.
  assert (ovf = ∅) as -> by (by apply (no_overflow su)).
  unfold range_update in Hr. rewrite map_fold_empty in Hr. rewrite (mget_Some _ _ _ Hr) in Hmax. lia.
Qed.
End Scheduling.

(** ** Concrete inputs *)

Section Witnesses.
#[local] Existing Instance small_kubernetes.
#[local] Existing Instance small_runtime.
#[local] Existing Instance amd64_float.

Definition cpus (n : Z) : gmap string Quantity := {[ ResourceCPU := (1000 * n : Quantity) ]}.

(** Seven, two and one available cpus, no limits that matter. *)
Lemma AvailableToPercentage_sum_witness :
  exists w, AvailableToPercentage {[ "a"%string := cpus 7; "b"%string := cpus 2; "c"%string := cpus 1 ]}
    ResourceCPU {[ "a"%string := 9999; "b"%string := 9999; "c"%string := 9999 ]} = inl w /\ msum64 w = 1000.
Proof.
  eexists. split.
  - vm_compute. reflexivity.
  - eapply AvailableToPercentage_sum with (resourceName := ResourceCPU)
      (avails := {[ "a"%string := cpus 7; "b"%string := cpus 2; "c"%string := cpus 1 ]})
      (limit := {[ "a"%string := 9999; "b"%string := 9999; "c"%string := 9999 ]}).
    + vm_compute. reflexivity.
    + vm_compute. reflexivity.
Defined.

Definition plain_cluster (name : string) (taints : list Taint) : FederatedCluster := {|
  c_Name := name; c_Labels := ∅; c_Annotations := ∅; c_Finalizers := []; c_DeletionTimestamp := None; Taints := taints;
  Status := {| Conditions := []; APIResourceTypes := []; JoinPerformed := true;
               st_Resources := {| SchedulableNodes := None; Allocatable := cpus 8; Available := cpus 4 |} |} |}.

Definition noSchedule : Taint := {| t_Key := "k"; t_Value := "v"; t_Effect := TaintEffectNoSchedule |}.

(** Nine replicas, weights 1 and 2; three already run in cluster a. *)
Definition weighted_unit (avoid : bool) (minA : Z) : SchedulingUnit := {|
  su_GroupVersion := {| gv_Group := "apps"; gv_Version := "v1" |};
  su_Kind := "Deployment"; su_Resource := "deployments"; su_Namespace := "default"; su_Name := "web";
  su_Labels := ∅; su_Annotations := ∅;
  DesiredReplicas := Some 9; ResourceRequest := emptyResource;
  CurrentClusters := {[ "a"%string := Some 3 ]}; AutoMigration := None;
  CustomMigration := {| cm_Info := None |};
  SchedulingMode := SchedulingModeDivide; ReplicasStrategy := ReplicasStrategySpread;
  StickyCluster := false; AvoidDisruption := avoid; su_ClusterSelector := ∅; ClusterNames := ∅;
  su_Affinity := None; Tolerations := []; MaxClusters := None;
  su_MinReplicas := {[ "a"%string := minA ]}; su_MaxReplicas := {[ "b"%string := 8 ]};
  Weights := {[ "a"%string := 1; "b"%string := 2 ]}; Priorities := ∅; EnableKatalystSupport := false |}.

Definition two_clusters : list FederatedCluster :=
  [ plain_cluster "a" [noSchedule]; plain_cluster "b" [] ].

Lemma weighted_input : rsp_input (weighted_unit true 0) (Weights (weighted_unit true 0)) two_clusters.
Proof.
  split.
  - apply (bool_decide_eq_true _). vm_compute. reflexivity.
  - intros c Hc. unfold two_clusters in Hc. each_member; cbv zeta.
    + change (clusterPreference _ _ _) with {| MinReplicas := 0; MaxReplicas := Some 3; Weight := 1 |}.
      simpl. split_and!; [lia..|]. intros m [= <-]. lia.
    + change (clusterPreference _ _ _) with {| MinReplicas := 0; MaxReplicas := Some 8; Weight := 2 |}.
      simpl. split_and!; [lia..|]. intros m [= <-]. lia.
  - vm_compute. congruence.
  - change (totalReplicasOf (weighted_unit true 0)) with 9. lia.
  - split; [apply all_nonneg_eval|]; vm_compute; reflexivity.
  - apply all_nonneg_empty.
Qed.


Lemma ReplicaScheduling_NoSchedule_witness :
  exists l, ReplicaScheduling (fun _ => EmptyString) (weighted_unit true 0) two_clusters =
    Some (l, NewResult Success []) /\
    forall x, x ∈ l -> c_Name (cr_Cluster x) = "a"%string -> Replicas x <= 3.
Proof.
  apply (ReplicaScheduling_NoSchedule (fun _ => EmptyString) (weighted_unit true 0) _ two_clusters
    (plain_cluster "a" [noSchedule]) eq_refl weighted_input eq_refl).
  - left.
  - exists noSchedule. split; [left|]. split; [reflexivity|]. intros tol Htol.
    apply elem_of_nil in Htol. destruct Htol.
Defined.

(** With a minimum of nine the tainted cluster, which runs three replicas, does
    get new ones: the plugin lowers the maximum only. *)
Lemma NoSchedule_min_gets_new_replicas :
  option_map (fun r => map (fun x => (c_Name (cr_Cluster x), Replicas x)) r.1)
    (ReplicaScheduling (fun _ => EmptyString) (weighted_unit false 9) two_clusters) =
  Some [("a"%string, 9)].
Proof. vm_compute. reflexivity. Qed.

(** The overflow of a cluster below its minimum is counted twice: with room for
    two replicas and a minimum and maximum of five the plan and its overflow add
    up to eight. *)
Lemma overflow_exceeds_max :
  getDesiredPlan {[ "a"%string := 2 ]} ∅
    [ {| clusterName := "a"; hash := 0;
         pref := {| MinReplicas := 5; MaxReplicas := Some 5; Weight := 1 |} |} ] 10 false =
  Some ({[ "a"%string := 2 ]}, {[ "a"%string := 6 ]}).
Proof. vm_compute. reflexivity. Qed.

(** The weights of equal clusters depend on the iteration order of the map. *)
Lemma weights_depend_on_order :
  let avails := {[ "a"%string := cpus 1; "b"%string := cpus 1; "c"%string := cpus 1 ]} in
  let limit := {[ "a"%string := 9999; "b"%string := 9999; "c"%string := 9999 ]} in
  @AvailableToPercentage _ small_runtime _ avails ResourceCPU limit <>
  @AvailableToPercentage _ reversed_runtime _ avails ResourceCPU limit.
Proof. vm_compute. congruence. Qed.
End Witnesses.
