(* ===== verification/BinPack.v ===== *)
(** * The bin-packing replica plugin ([plugins/preferencebinpack])

    [getDesiredPlan] fills the clusters one after the other, in the order of
    their priority; [Plan] adjusts the current distribution to it; the plugin
    [PreferenceBinPack] prepares the input.  The data of the package repeats
    that of the weighted planner without weights and hashes. *)

From Stdlib Require Import ZArith Lia String.
From S2P Require Import Prelude K8s Types Resources FilterPlugins.
From S2P Require Planner Rsp.

Record ClusterPreferences := {
  MinReplicas : Z;
  MaxReplicas : option Z
}.

Record ReplicaSchedulingPreference := { Clusters : gmap string ClusterPreferences }.

Record namedClusterPreferences := {
  clusterName : string;
  pref : ClusterPreferences
}.

(** The zero value of [ClusterPreferences], read for an absent key. *)
Definition preferenceOf (rsp : ReplicaSchedulingPreference) (cluster : string) : ClusterPreferences :=
  default {| MinReplicas := 0; MaxReplicas := None |} (Clusters rsp !! cluster).

(** The state of the loops, as in the weighted planner. *)
Abbreviation planState := Planner.planState.
Abbreviation limit := Planner.limit.

Section GetDesiredPlan.
Variables estimatedCapacity limitedCapacity : gmap string Z.

(** One iteration of "assign each cluster the minimum number of replicas". *)
Definition minStep (st : planState) (p : namedClusterPreferences) : planState :=
  let name := clusterName p in
  let min := minInt64 (MinReplicas (pref p)) (Planner.remainingReplicas st) in
  let min := limit limitedCapacity name min in
  let '(min, ovf) :=
    match estimatedCapacity !! name with
    | Some capacity =>
        if capacity <? min then (capacity, <[name := min -! capacity]> (Planner.overflow st))
        else (min, Planner.overflow st)
    | None => (min, Planner.overflow st)
    end in
  {| Planner.remainingReplicas := Planner.remainingReplicas st -! min;
     Planner.plan := <[name := min]> (Planner.plan st);
     Planner.overflow := ovf |}.

(** One iteration of the packing loop. *)
Definition packStep (st : planState) (p : namedClusterPreferences) : planState :=
  let name := clusterName p in
  let start := mget (Planner.plan st) name in
  let total := start +! Planner.remainingReplicas st in
  let total := match MaxReplicas (pref p) with
               | Some m => if m <? total then m else total
               | None => total
               end in
  let total := limit limitedCapacity name total in
  let '(total, ovf) :=
    match estimatedCapacity !! name with
    | Some capacity =>
        if capacity <? total then
          (capacity,
           <[name := MaxInt64 (total -! capacity) (mget (Planner.overflow st) name)]>
             (Planner.overflow st))
        else (total, Planner.overflow st)
    | None => (total, Planner.overflow st)
    end in
  {| Planner.remainingReplicas := Planner.remainingReplicas st -! (total -! start);
     Planner.plan := <[name := total]> (Planner.plan st);
     Planner.overflow := ovf |}.

Definition getDesiredPlan_state (preferences : list namedClusterPreferences) (totalReplicas : Z)
    : planState :=
  let st := foldl minStep
    {| Planner.remainingReplicas := totalReplicas; Planner.plan := ∅; Planner.overflow := ∅ |}
    preferences in
  foldl packStep st preferences.

Definition getDesiredPlan (preferences : list namedClusterPreferences) (totalReplicas : Z)
    : gmap string Z * gmap string Z :=
  let st := getDesiredPlan_state preferences totalReplicas in
  (Planner.plan st, Planner.overflow st).
End GetDesiredPlan.

(** ** Scaling *)

Definition scaleUp (rsp : ReplicaSchedulingPreference)
    (currentReplicaCount desiredReplicaCount limitedCapacity : gmap string Z)
    (scaleUpCount : Z) (availableClusters : list string) : gmap string Z :=
  let namedPreferences := foldl (fun acc cluster =>
    let current := mget currentReplicaCount cluster in
    let desired := mget desiredReplicaCount cluster in
    if current <? desired then
      acc ++ [ {| clusterName := cluster;
                  pref := {| MinReplicas := MinReplicas (preferenceOf rsp cluster);
                             MaxReplicas := (fun m => m -! current) <$> MaxReplicas (preferenceOf rsp cluster) |} |} ]
    else acc) [] availableClusters in
  let '(replicasToScaleUp, _) := getDesiredPlan ∅ limitedCapacity namedPreferences scaleUpCount in
  range_update add64 currentReplicaCount replicasToScaleUp.

(** The clusters are visited in reverse: each one is put in front. *)
Definition scaleDown (currentReplicaCount desiredReplicaCount : gmap string Z)
    (scaleDownCount : Z) (availableClusters : list string) : gmap string Z :=
  let namedPreferences := foldl (fun acc cluster =>
    let current := mget currentReplicaCount cluster in
    let desired := mget desiredReplicaCount cluster in
    if desired <? current then
      {| clusterName := cluster; pref := {| MinReplicas := 0; MaxReplicas := Some current |} |} :: acc
    else acc) [] availableClusters in
  let '(replicasToScaleDown, _) := getDesiredPlan ∅ ∅ namedPreferences scaleDownCount in
  range_update sub64 currentReplicaCount replicasToScaleDown.

(** ** Plan *)

Section Plan.
Context `{R : GoRuntime}.

Definition isScheduledClustersRemoved (availableClusters : list string)
    (currentReplicaCount : gmap string Z) : bool :=
  existsb (fun '(cluster, _) => negb (bool_decide (cluster ∈ availableClusters)))
    (range_map currentReplicaCount).

(** The loop returns false for a cluster whose replicas are not settled. *)
Definition isEstimatedCapacityAvailable
    (currentReplicaCount estimatedCapacity scheduledReplicas : gmap string Z) : bool :=
  negb (existsb (fun '(cluster, replicas) =>
    match estimatedCapacity !! cluster with
    | Some capacity => negb (capacity =? replicas)
    | None => negb (replicas =? mget currentReplicaCount cluster)
    end) (range_map scheduledReplicas)).

Definition shouldPlan (availableClusters : list string)
    (currentReplicaCount limitedCapacity estimatedCapacity scheduledReplicas : gmap string Z) : bool :=
  if isScheduledClustersRemoved availableClusters currentReplicaCount then true
  else if existsb (fun '(cluster, replicas) => Planner.exceeds limitedCapacity cluster replicas)
            (range_map currentReplicaCount) then true
  else isEstimatedCapacityAvailable currentReplicaCount estimatedCapacity scheduledReplicas.

(** The current plan, its total, and the total of the scheduled replicas. *)
Record currentState := {
  currentPlan : gmap string Z;
  currentTotalOkReplicas : Z;
  currentTotalScheduledReplicas : Z
}.

Definition currentStep
    (currentReplicaCount estimatedCapacity limitedCapacity scheduledReplicas : gmap string Z)
    (s : currentState) (p : namedClusterPreferences) : currentState :=
  let name := clusterName p in
  let replicas := mget currentReplicaCount name in
  let replicas := limit estimatedCapacity name replicas in
  let replicas := limit limitedCapacity name replicas in
  {| currentPlan := <[name := replicas]> (currentPlan s);
     currentTotalOkReplicas := currentTotalOkReplicas s +! replicas;
     currentTotalScheduledReplicas :=
       match scheduledReplicas !! name with
       | Some scheduled => currentTotalScheduledReplicas s +! limit limitedCapacity name scheduled
       | None => currentTotalScheduledReplicas s
       end |}.

Definition Plan (rsp : ReplicaSchedulingPreference) (totalReplicas : Z)
    (availableClusters : list string)
    (currentReplicaCount estimatedCapacity limitedCapacity : gmap string Z)
    (avoidDisruption keepUnschedulableReplicas : bool) (scheduledReplicas : gmap string Z)
    : gmap string Z * gmap string Z :=
  if negb (shouldPlan availableClusters currentReplicaCount limitedCapacity estimatedCapacity
             scheduledReplicas) then (currentReplicaCount, ∅)
  else
    let namedPreferences :=
      (fun cluster => {| clusterName := cluster; pref := preferenceOf rsp cluster |}) <$> availableClusters in
    let keepUnschedulableReplicas :=
      if negb avoidDisruption then true else keepUnschedulableReplicas in
    let '(desiredPlan, desiredOverflow) :=
      getDesiredPlan estimatedCapacity limitedCapacity namedPreferences totalReplicas in
    let s := foldl (currentStep currentReplicaCount estimatedCapacity limitedCapacity scheduledReplicas)
      {| currentPlan := ∅; currentTotalOkReplicas := 0; currentTotalScheduledReplicas := 0 |}
      namedPreferences in
    if negb keepUnschedulableReplicas && (currentTotalScheduledReplicas s =? totalReplicas) then
      (scheduledReplicas, ∅)
    else if negb avoidDisruption then (desiredPlan, desiredOverflow)
    else
      let desiredTotalReplicas := msum64 desiredPlan in
      let desiredOverflow :=
        if negb keepUnschedulableReplicas then
          omap (fun value =>
            let value := MinInt64 value (totalReplicas -! currentTotalScheduledReplicas s) in
            if 0 <? value then Some value else None) desiredOverflow
        else desiredOverflow in
      if currentTotalOkReplicas s =? desiredTotalReplicas then (currentPlan s, desiredOverflow)
      else if desiredTotalReplicas <? currentTotalOkReplicas s then
        (scaleDown (currentPlan s) desiredPlan (currentTotalOkReplicas s -! totalReplicas)
           availableClusters, desiredOverflow)
      else
        (scaleUp rsp (currentPlan s) desiredPlan limitedCapacity
           (totalReplicas -! currentTotalOkReplicas s) availableClusters, desiredOverflow).
End Plan.

(** ** The plugin *)

Section Plugin.
Context `{K : Kubernetes} `{R : GoRuntime}.

Definition clusterPreference (su : SchedulingUnit) (cluster : FederatedCluster) : ClusterPreferences :=
  let name := c_Name cluster in
  let maxReplicas := su_MaxReplicas su !! name in
  let current := mget (Rsp.currentReplicasOf su) name in
  {| MinReplicas := mget (su_MinReplicas su) name;
     MaxReplicas :=
       match FindMatchingUntoleratedTaint (Taints cluster) (Tolerations su) (Some Rsp.isNoSchedule) with
       | None => maxReplicas
       | Some _ =>
           match maxReplicas with
           | None => Some current
           | Some m => if current <? m then Some current else Some m
           end
       end |}.

Definition scheduledReplicasOf (su : SchedulingUnit) : gmap string Z :=
  match AutoMigration su ≫= am_Info with
  | Some info => ScheduledReplicas info
  | None => ∅
  end.

Definition ReplicaScheduling (su : SchedulingUnit) (clusters : list FederatedCluster)
    : list ClusterReplicas * Result :=
  let clusterPreferences := foldl (fun acc cluster =>
    <[c_Name cluster := clusterPreference su cluster]> acc) ∅ clusters in
  let '(scheduleResult, overflow) :=
    Plan {| Clusters := clusterPreferences |} (Rsp.totalReplicasOf su) (ExtractClusterNames clusters)
      (Rsp.currentReplicasOf su) (Rsp.estimatedCapacityOf su) (Rsp.limitedCapacityOf su)
      (AvoidDisruption su) (Rsp.keepUnschedulableReplicasOf su) (scheduledReplicasOf su) in
  let result := range_update add64 scheduleResult overflow in
  (Rsp.clusterReplicasList clusters result, NewResult Success []).
End Plugin.
