(* ===== verification/BinPackTheorems.v ===== *)
(** * The theorems about bin packing

    The first loop is that of the weighted planner, so its lemma is reused;
    the packing loop is described by an invariant over the clusters visited. *)

From Stdlib Require Import ZArith Lia String.
From S2P Require Import Prelude K8s Types Resources FilterPlugins.
From S2P Require Planner Rsp.
From S2P Require Import PlannerFacts BinPack.

(** A preference without weight and hash. *)
Definition as_planner (p : namedClusterPreferences) : Planner.namedClusterPreferences :=
  {| Planner.clusterName := clusterName p; Planner.hash := 0;
     Planner.pref := {| Planner.MinReplicas := MinReplicas (pref p);
                        Planner.MaxReplicas := MaxReplicas (pref p); Planner.Weight := 0 |} |}.

(** The inputs: distinct clusters, no negative value, minimum below maximum. *)
Record pack_input (est lim : gmap string Z) (prefs : list namedClusterPreferences) (total : Z)
    : Prop := {
  bi_nodup : NoDup (clusterName <$> prefs);
  bi_pref : forall p, p ∈ prefs -> 0 <= MinReplicas (pref p) /\
    forall m, MaxReplicas (pref p) = Some m -> MinReplicas (pref p) <= m;
  bi_est : all_nonneg est;
  bi_lim : all_nonneg lim;
  bi_total : 0 <= total < 2 ^ 62
}.

Section Pack.
Context (est lim : gmap string Z) (Hest : all_nonneg est) (Hlim : all_nonneg lim).

Definition share (st : planState) (p : namedClusterPreferences) : Z :=
  mget (Planner.plan st) (clusterName p).

(** The cluster of [p] has no room for more than [t] replicas. *)
Definition full (p : namedClusterPreferences) (t : Z) : Prop :=
  MaxReplicas (pref p) = Some t \/ lim !! clusterName p = Some t \/ est !! clusterName p = Some t.

(** [t] replicas are within every bound of [p]'s cluster. *)
Definition within (p : namedClusterPreferences) (t : Z) : Prop :=
  0 <= t /\ within_caps est lim (clusterName p) t /\
  forall m, MaxReplicas (pref p) = Some m -> t <= m.

(** The overflow of [p] on top of [t] replicas stays within the bounds other
    than the estimate. *)
Definition overflow_within (p : namedClusterPreferences) (t : Z) (o : option Z) : Prop :=
  forall d, o = Some d -> est !! clusterName p = Some t /\ 0 < d /\
    (forall c, lim !! clusterName p = Some c -> t + d <= c) /\
    (forall m, MaxReplicas (pref p) = Some m -> t + d <= m).

Lemma minStep_planner st p : minStep est lim st p = Planner.assignMin est lim st (as_planner p).
Proof using Type. reflexivity. Qed.

Lemma minStep_fold l st :
  foldl (minStep est lim) st l = foldl (Planner.assignMin est lim) st (as_planner <$> l).
Proof using Type. revert st. induction l as [|p l IH]; intros st; [done|]. simpl. apply IH. Qed.

Lemma names_as_planner (l : list namedClusterPreferences) : Planner.clusterName <$> (as_planner <$> l) = clusterName <$> l.
Proof using Type. by rewrite <- list_fmap_compose. Qed.

(** Cutting [x] down to a bound that [start] respects. *)
Lemma cap_spec (bound : option Z) start x :
  (forall c, bound = Some c -> start <= c) -> start <= x ->
  let y := match bound with Some c => if c <? x then c else x | None => x end in
  start <= y <= x /\ (forall c, bound = Some c -> y <= c) /\ (y = x \/ bound = Some y).
Proof using Type.
  intros Hb Hx. destruct bound as [c|]; simpl; [|split_and!; [lia|lia|done|by left]].
  specialize (Hb c eq_refl). destruct (c <? x) eqn:E; z_bools;
    (split_and!; [lia|lia|intros ? [= <-]; lia|]); [by right|by left].
Qed.

(** One step of the packing loop. *)
Lemma packStep_spec st p :
  0 <= Planner.remainingReplicas st < 2 ^ 62 -> share st p < 2 ^ 62 -> within p (share st p) ->
  overflow_within p (share st p) (Planner.overflow st !! clusterName p) ->
  exists t o',
    packStep est lim st p =
      {| Planner.remainingReplicas := Planner.remainingReplicas st - (t - share st p);
         Planner.plan := <[clusterName p := t]> (Planner.plan st);
         Planner.overflow := o' |} /\
    share st p <= t <= share st p + Planner.remainingReplicas st /\ within p t /\
    (t = share st p + Planner.remainingReplicas st \/ full p t) /\
    overflow_within p t (o' !! clusterName p) /\
    forall k, k <> clusterName p -> o' !! k = Planner.overflow st !! k.
Proof using Hest Hlim.
  intros Hr Hs2 (H0 & [Hcl Hce] & Hmx) Hov. unfold packStep. fold (share st p).
  set (start := share st p) in *. set (rem := Planner.remainingReplicas st) in *.
  rewrite add64_small by (unfold int64; lia).
  destruct (cap_spec (MaxReplicas (pref p)) start (start + rem) Hmx ltac:(lia)) as (H1 & Hm1 & Hf1).
  set (t1 := match MaxReplicas (pref p) with Some _ => _ | None => _ end) in *. clearbody t1.
  destruct (cap_spec (lim !! clusterName p) start t1 Hcl ltac:(lia)) as (H2 & Hm2 & Hf2).
  fold (limit lim (clusterName p) t1) in H2, Hm2, Hf2.
  set (t2 := limit lim (clusterName p) t1) in *. clearbody t2.
  destruct (cap_spec (est !! clusterName p) start t2 Hce ltac:(lia)) as (H3 & Hm3 & Hf3).
  assert (Hfull : t2 = start + rem \/ full p t2).
  { unfold full. destruct Hf2 as [->|Hf2]; [destruct Hf1 as [->|Hf1]|]; auto. }
  assert (Hw : forall t, start <= t -> t <= t2 -> (forall c, est !! clusterName p = Some c -> t <= c) ->
    within p t).
  { intros t Ht1 Ht2 Hte. split_and!; [lia| |].
    - split; [|done]. intros c Hc. specialize (Hm2 c Hc). lia.
    - intros m Hm. specialize (Hm1 m Hm). lia. }
  assert (Hsub : forall t, start <= t <= start + rem -> rem -! (t -! start) = rem - (t - start)).
  { intros t Ht. rewrite !sub64_small by (unfold int64; rewrite ?sub64_small by (unfold int64; lia); lia). done. }
  destruct (est !! clusterName p) as [c|] eqn:Ec.
  - destruct (c <? t2) eqn:E; z_bools.
    + exists c, (<[clusterName p := MaxInt64 (t2 -! c) (mget (Planner.overflow st) (clusterName p))]>
                   (Planner.overflow st)).
      specialize (Hce c eq_refl). rewrite Hsub by lia. split_and!; [done|lia|lia| | | |].
      * apply Hw; [lia|lia|by intros ? [= <-]].
      * right. right. by right.
      * intros d. rewrite lookup_insert_eq. intros [= <-]. rewrite sub64_small by (unfold int64; lia).
        assert (Hold : 0 <= mget (Planner.overflow st) (clusterName p) /\
          (0 < mget (Planner.overflow st) (clusterName p) ->
           c = start /\ overflow_within p start (Some (mget (Planner.overflow st) (clusterName p))))).
        { unfold mget. destruct (Planner.overflow st !! clusterName p) as [d0|] eqn:Ed; simpl; [|lia].
          destruct (Hov d0 eq_refl) as (He & Hd & _). rewrite Ec in He. injection He as <-.
          split; [lia|done]. }
        destruct Hold as [Hn Hold]. unfold MaxInt64. destruct (_ <? t2 - c) eqn:E2; z_bools.
        -- split_and!; [done|lia| |]; intros b Hb; [specialize (Hm2 b Hb)|specialize (Hm1 b Hb)]; lia.
        -- destruct Hold as [-> Hold]; [lia|]. apply (Hold _ eq_refl).
      * intros k Hk. by rewrite lookup_insert_ne.
    + exists t2, (Planner.overflow st). rewrite Hsub by lia. split_and!; [done|lia|lia| |done| |done].
      * apply Hw; [lia|lia|intros ? [= <-]; lia].
      * intros d Hd. destruct (Hov d Hd) as (He & Hd0 & Hrest). rewrite Ec in He. injection He as ->.
        assert (t2 = start) as -> by lia. rewrite Ec. done.
  - exists t2, (Planner.overflow st). rewrite Hsub by lia. split_and!; [done|lia|lia| |done| |done].
    + by apply Hw; [lia|lia|].
    + intros d Hd. destruct (Hov d Hd) as (He & _). by rewrite Ec in He.
Qed.
(** Everything the packing loop does to the state. *)
Record after_pack (total : Z) (l : list namedClusterPreferences) (st st' : planState) : Prop := {
  bp_accounts : accounts total st';
  bp_le : Planner.remainingReplicas st' <= Planner.remainingReplicas st;
  bp_within : forall p, p ∈ l -> within p (share st' p);
  bp_overflow : forall p, p ∈ l -> overflow_within p (share st' p) (Planner.overflow st' !! clusterName p);
  bp_other : forall k, k ∉ clusterName <$> l ->
    Planner.plan st' !! k = Planner.plan st !! k /\ Planner.overflow st' !! k = Planner.overflow st !! k;
  bp_dom : forall k, is_Some (Planner.plan st' !! k) <->
    is_Some (Planner.plan st !! k) \/ k ∈ clusterName <$> l;
  bp_room : forall p, p ∈ l -> share st' p <= share st p + Planner.remainingReplicas st;
  bp_done : Planner.remainingReplicas st' = 0 \/ forall p, p ∈ l -> full p (share st' p);
  bp_greedy : forall l1 p l2, l = l1 ++ p :: l2 -> share st p < share st' p ->
    forall q, q ∈ l1 -> full q (share st' q)
}.

Lemma pack_fold total l st :
  total < 2 ^ 62 -> NoDup (clusterName <$> l) -> accounts total st ->
  (forall p, p ∈ l -> within p (share st p)) ->
  (forall p, p ∈ l -> overflow_within p (share st p) (Planner.overflow st !! clusterName p)) ->
  after_pack total l st (foldl (packStep est lim) st l).
Proof using Hest Hlim.
  intros Ht. revert st. induction l as [|p l IH]; intros st Hnd Hacc Hw Ho.
  - simpl. split; try done; try (by intros p ?%elem_of_nil).
    + intros k. rewrite fmap_nil, elem_of_nil. tauto.
    + right. by intros p ?%elem_of_nil.
    + intros l1 p l2 H. by destruct l1.
  - rewrite fmap_cons in Hnd. apply NoDup_cons in Hnd as [Hp Hnd].
    pose proof Hacc as (Hr & Hnn & Hsum). pose proof (msum_nonneg _ Hnn).
    pose proof (mget_le_msum (Planner.plan st) (clusterName p) Hnn) as Hle. fold (share st p) in Hle.
    destruct (packStep_spec st p) as (t & o' & Hst & Ht1 & Hwt & Hft & Hot & Hoo);
      [lia|lia|apply Hw; left|apply Ho; left|].
    cbn [foldl]. rewrite Hst. set (st1 := {| Planner.remainingReplicas := _ |}).
    assert (Hne : forall q, q ∈ l -> clusterName q <> clusterName p)
      by (intros q Hq Heq; apply Hp; rewrite <- Heq; by apply list_elem_of_fmap_2).
    assert (Hsh : forall q, q ∈ l -> share st1 q = share st q)
      by (intros q Hq; unfold share; simpl; apply mget_insert_ne; by apply not_eq_sym, Hne).
    destruct (IH st1 Hnd) as [Iacc Ile Iw Io Iother Idom Iroom Idone Igreedy].
    { apply accounts_update; [done|destruct Hwt; lia|]. fold (share st p). lia. }
    { intros q Hq. rewrite Hsh by done. apply Hw. by right. }
    { intros q Hq. rewrite Hsh by done. simpl. rewrite Hoo by (by apply Hne). apply Ho. by right. }
    set (st' := foldl _ st1 l) in *.
    assert (Hsp : share st' p = t).
    { unfold share, mget. destruct (Iother (clusterName p) Hp) as [-> _]. simpl.
      by rewrite lookup_insert_eq. }
    assert (Hr1 : Planner.remainingReplicas st1 = Planner.remainingReplicas st - (t - share st p)) by done.
    split; try done.
    + lia.
    + intros q [->|Hq]%elem_of_cons; [by rewrite Hsp|auto].
    + intros q [->|Hq]%elem_of_cons; [|auto]. rewrite Hsp.
      destruct (Iother (clusterName p) Hp) as [_ ->]. exact Hot.
    + intros k [Hk1 Hk2]%not_elem_of_cons. destruct (Iother k Hk2) as [-> ->]. simpl.
      by rewrite lookup_insert_ne, Hoo by done.
    + intros k. rewrite Idom, fmap_cons, elem_of_cons. simpl. rewrite lookup_insert_is_Some'. naive_solver.
    + intros q [->|Hq]%elem_of_cons; [lia|]. specialize (Iroom q Hq). rewrite Hsh in Iroom by done. lia.
    + destruct Idone as [Id|Id]; [by left|]. destruct Hft as [Hf|Hf].
      * left. destruct Iacc as (? & _). lia.
      * right. intros q [->|Hq]%elem_of_cons; [by rewrite Hsp|auto].
    + intros l1 q l2 Hl Hlt q' Hq'. destruct l1 as [|p' l1]; [by apply elem_of_nil in Hq'|].
      injection Hl as <- ->.
      assert (Hql : q ∈ l1 ++ q :: l2) by (apply elem_of_app; right; left).
      rewrite <- (Hsh q Hql) in Hlt. apply elem_of_cons in Hq' as [->|Hq']; [|by eapply Igreedy].
      rewrite Hsp. destruct Hft as [Hf|]; [|done]. specialize (Iroom q Hql). lia.
Qed.
(** ** The first loop *)

Lemma valid_as_planner p :
  0 <= MinReplicas (pref p) -> (forall m, MaxReplicas (pref p) = Some m -> MinReplicas (pref p) <= m) ->
  valid_pref (as_planner p).
Proof using Type. intros H0 Hm. split_and!; simpl; [done|done|]. intros m H. specialize (Hm m H). lia. Qed.

Lemma minStep_overflow st p :
  0 <= Planner.remainingReplicas st < 2 ^ 62 -> 0 <= MinReplicas (pref p) ->
  (forall m, MaxReplicas (pref p) = Some m -> MinReplicas (pref p) <= m) ->
  Planner.overflow st !! clusterName p = None ->
  overflow_within p (share (minStep est lim st p) p)
    (Planner.overflow (minStep est lim st p) !! clusterName p).
Proof using Hest Hlim.
  intros Hr H0 Hm Hfresh. unfold minStep, share. rewrite minInt64_min.
  set (x := Z.min (MinReplicas (pref p)) (Planner.remainingReplicas st)).
  change (Planner.limit lim (clusterName p) x) with (limit lim (clusterName p) x).
  pose proof (limit_le lim (clusterName p) x) as Hle.
  pose proof (limit_nonneg lim (clusterName p) x Hlim ltac:(lia)) as Hge.
  pose proof (fun c => limit_cap lim (clusterName p) x c) as Hcap.
  set (m := limit lim (clusterName p) x) in *. clearbody m.
  destruct (est !! clusterName p) as [c|] eqn:Ec; [destruct (c <? m) eqn:E|]; z_bools; simpl.
  - specialize (Hest _ _ Ec) as Hc. rewrite mget_insert_eq, lookup_insert_eq, sub64_small by (unfold int64; lia).
    intros d [= <-]. split_and!; [done|lia| |]; intros b Hb; [specialize (Hcap b Hb)|specialize (Hm b Hb)]; lia.
  - rewrite Hfresh. by intros d [=].
  - rewrite Hfresh. by intros d [=].
Qed.

Lemma minStep_fold_overflow l st :
  NoDup (clusterName <$> l) ->
  (forall p, p ∈ l -> 0 <= MinReplicas (pref p) /\
     forall m, MaxReplicas (pref p) = Some m -> MinReplicas (pref p) <= m) ->
  0 <= Planner.remainingReplicas st < 2 ^ 62 -> all_nonneg (Planner.plan st) ->
  (forall p, p ∈ l -> Planner.plan st !! clusterName p = None /\
     Planner.overflow st !! clusterName p = None) ->
  forall p, p ∈ l -> overflow_within p (share (foldl (minStep est lim) st l) p)
    (Planner.overflow (foldl (minStep est lim) st l) !! clusterName p).
Proof using Hest Hlim.
  revert st. induction l as [|p l IH]; intros st Hnd Hp Hr Hnn Hfresh; [by intros p ?%elem_of_nil|].
  rewrite fmap_cons in Hnd. apply NoDup_cons in Hnd as [Hpl Hnd].
  destruct (Hp p) as [H0 Hmax]; [by left|]. destruct (Hfresh p) as [Hfp Hfo]; [by left|].
  cbn [foldl].
  assert (Hst1 : exists t o', minStep est lim st p =
      {| Planner.remainingReplicas := Planner.remainingReplicas st - t;
         Planner.plan := <[clusterName p := t]> (Planner.plan st); Planner.overflow := o' |} /\
      0 <= t <= Planner.remainingReplicas st /\
      forall k, k <> clusterName p -> o' !! k = Planner.overflow st !! k).
  { rewrite minStep_planner.
    destruct (assignMin_spec est lim Hest Hlim st (as_planner p)) as (t & o' & Hs & Ht & _ & _ & Hov);
      [done|by apply valid_as_planner|done|].
    exists t, o'. split_and!; [exact Hs|lia|lia|]. intros k Hk.
    destruct Hov as [->|(_ & d & _ & ->)]; [done|]. by rewrite lookup_insert_ne. }
  pose proof (minStep_overflow st p Hr H0 Hmax Hfo) as Hov1.
  destruct Hst1 as (t & o' & Hs & Ht & Ho'). rewrite Hs in *. set (st1 := {| Planner.plan := _ |}) in *.
  assert (Hne : forall q, q ∈ l -> clusterName p <> clusterName q)
    by (intros q Hq Heq; apply Hpl; rewrite Heq; by apply list_elem_of_fmap_2).
  assert (Hfresh1 : forall q, q ∈ l -> Planner.plan st1 !! clusterName q = None /\
    Planner.overflow st1 !! clusterName q = None).
  { intros q Hq. simpl. rewrite lookup_insert_ne by (by apply Hne).
    rewrite Ho' by (by apply not_eq_sym, Hne). apply Hfresh. by right. }
  intros q [->|Hq]%elem_of_cons.
  - rewrite minStep_fold.
    destruct (assignMin_fold est lim Hest Hlim (as_planner <$> l) st1) as [_ _ _ Hother _].
    + by rewrite names_as_planner.
    + intros q' (q & -> & Hq)%list_elem_of_fmap. destruct (Hp q) as [? ?]; [by right|].
      by apply valid_as_planner.
    + simpl. lia.
    + apply all_nonneg_insert; [done|lia].
    + intros q' (q & -> & Hq)%list_elem_of_fmap. by apply Hfresh1.
    + destruct (Hother (clusterName p)) as [Hpl' Hov']; [by rewrite names_as_planner|].
      unfold share, mget in *. rewrite Hpl', Hov'. exact Hov1.
  - apply IH; [done| |simpl; lia|apply all_nonneg_insert; [done|lia]|done|done].
    intros q' Hq'. apply Hp. by right.
Qed.
End Pack.

(** ** The desired plan *)

Lemma pack_state_spec est lim prefs total :
  pack_input est lim prefs total ->
  exists st0, after_pack est lim total prefs st0 (getDesiredPlan_state est lim prefs total) /\
    (forall k, is_Some (Planner.plan st0 !! k) <-> k ∈ clusterName <$> prefs) /\
    (forall k, k ∉ clusterName <$> prefs -> Planner.overflow st0 !! k = None) /\
    forall p, p ∈ prefs -> share st0 p <= MinReplicas (pref p).
Proof.
  intros [Hnd Hp He Hl Ht]. unfold getDesiredPlan_state.
  set (init := {| Planner.remainingReplicas := total; Planner.plan := ∅; Planner.overflow := ∅ |}).
  destruct (assignMin_fold est lim He Hl (as_planner <$> prefs) init) as [Ha Hs Hd Ho Hov].
  - by rewrite names_as_planner.
  - intros q (p & -> & Hq)%list_elem_of_fmap. destruct (Hp p Hq). by apply valid_as_planner.
  - done.
  - apply all_nonneg_empty.
  - done.
  - rewrite <- minStep_fold in *. set (st0 := foldl (minStep est lim) init prefs) in *.
    assert (Hacc : accounts total st0).
    { apply Ha. split_and!; simpl; [lia|apply all_nonneg_empty|rewrite msum_empty; lia]. }
    assert (Hsh : forall p, p ∈ prefs -> within_caps est lim (clusterName p) (share st0 p) /\
      share st0 p <= MinReplicas (pref p)).
    { intros p Hin. apply (Hs (as_planner p)). by apply list_elem_of_fmap_2. }
    exists st0. split_and!.
    + apply pack_fold; [done|done|lia|done|done| |].
      * intros p Hin. destruct (Hsh p Hin) as [Hc Hm]. destruct (Hp p Hin) as [H0 Hmax].
        split_and!; [by apply all_nonneg_mget, Hacc|done|]. intros m Hmm. specialize (Hmax m Hmm). lia.
      * intros p Hin. apply minStep_fold_overflow; [done..|apply all_nonneg_empty|done|done].
    + intros k. rewrite Hd, names_as_planner. simpl. rewrite lookup_empty.
      split; [by intros [[? [=]]|?]|by right].
    + intros k Hk. destruct (Ho k) as [_ ->]; [by rewrite names_as_planner|]. done.
    + intros p Hin. by apply Hsh.
Qed.

(** The bin-packing plan gives every requested cluster between zero and
    its maximum and capacities, at most [totalReplicas] in all, and leaves
    replicas over only when every cluster is full.  The overflow of a cluster
    is positive only at its estimated capacity and, together with its share,
    stays within its maximum and limited capacity. *)
Theorem getDesiredPlan_packs est lim prefs total :
  pack_input est lim prefs total ->
  let '(pl, ovf) := getDesiredPlan est lim prefs total in
  0 <= msum pl <= total /\
  (forall k, is_Some (pl !! k) <-> k ∈ clusterName <$> prefs) /\
  (forall p, p ∈ prefs -> within est lim p (mget pl (clusterName p)) /\
     overflow_within est lim p (mget pl (clusterName p)) (ovf !! clusterName p)) /\
  (forall k, k ∉ clusterName <$> prefs -> ovf !! k = None) /\
  (msum pl < total -> forall p, p ∈ prefs -> full est lim p (mget pl (clusterName p))).
Proof.
  intros Hin. destruct (pack_state_spec _ _ _ _ Hin) as (st0 & Hst & Hd0 & Ho0 & _).
  destruct Hst as [(Hr & Hnn & Hs) _ Hw Ho Hother Hdom _ Hdone _].
  unfold getDesiredPlan. set (st := getDesiredPlan_state _ _ _ _) in *.
  pose proof (msum_nonneg _ Hnn). split_and!; [lia|lia| | | |].
  - intros k. rewrite Hdom, Hd0. tauto.
  - intros p Hp. split; [by apply Hw|by apply Ho].
  - intros k Hk. destruct (Hother k Hk) as [_ ->]. by apply Ho0.
  - intros Hlt. destruct Hdone as [|Hdone]; [lia|done].
Qed.

(** The packing is greedy: a cluster gets more than its minimum only when
    every cluster before it is full. *)
Theorem getDesiredPlan_greedy est lim prefs total l1 p l2 :
  pack_input est lim prefs total -> prefs = l1 ++ p :: l2 ->
  let '(pl, _) := getDesiredPlan est lim prefs total in
  MinReplicas (pref p) < mget pl (clusterName p) ->
  forall q, q ∈ l1 -> full est lim q (mget pl (clusterName q)).
Proof.
  intros Hin Hl. destruct (pack_state_spec _ _ _ _ Hin) as (st0 & Hst & _ & _ & Hmin).
  unfold getDesiredPlan. intros Hlt q Hq. apply (bp_greedy _ _ _ _ _ _ Hst l1 p l2 Hl); [|done].
  unfold share at 2. specialize (Hmin p). rewrite Hl in Hmin.
  specialize (Hmin ltac:(apply elem_of_app; right; left)). lia.
Qed.

(** ** Concrete inputs *)

Section Witnesses.
#[local] Existing Instance small_runtime.

Definition three_prefs : list namedClusterPreferences :=
  [ {| clusterName := "a"; pref := {| MinReplicas := 1; MaxReplicas := Some 6 |} |};
    {| clusterName := "b"; pref := {| MinReplicas := 2; MaxReplicas := None |} |};
    {| clusterName := "c"; pref := {| MinReplicas := 0; MaxReplicas := Some 4 |} |} ].

Definition three_est : gmap string Z := {[ "a"%string := 3 ]}.
Definition three_lim : gmap string Z := {[ "b"%string := 5 ]}.

Lemma three_input : pack_input three_est three_lim three_prefs 10.
Proof.
  split.
  - apply (bool_decide_eq_true _). vm_compute. reflexivity.
  - intros p Hp. unfold three_prefs in Hp. each_member; simpl;
      (split; [lia|]); intros m [= <-]; lia.
  - apply all_nonneg_eval. vm_compute. reflexivity.
  - apply all_nonneg_eval. vm_compute. reflexivity.
  - lia.
Qed.

Lemma getDesiredPlan_packs_witness :
  0 <= msum (getDesiredPlan three_est three_lim three_prefs 10).1 <= 10.
Proof. exact (proj1 (getDesiredPlan_packs three_est three_lim three_prefs 10 three_input)). Defined.

Lemma getDesiredPlan_greedy_witness :
  full three_est three_lim {| clusterName := "a"; pref := {| MinReplicas := 1; MaxReplicas := Some 6 |} |}
    (mget (getDesiredPlan three_est three_lim three_prefs 10).1 "a").
Proof.
  apply (getDesiredPlan_greedy three_est three_lim three_prefs 10 (take 1 three_prefs)
    {| clusterName := "b"; pref := {| MinReplicas := 2; MaxReplicas := None |} |} (drop 2 three_prefs)
    three_input eq_refl).
  - vm_compute. reflexivity.
  - left.
Defined.

(** Scaling up treats the limited capacity as room for new replicas: a cluster
    with five replicas and a capacity of eight gets thirteen. *)
Lemma scaleUp_exceeds_limitedCapacity :
  Plan {| Clusters := {[ "a"%string := {| MinReplicas := 0; MaxReplicas := None |} ]} |} 20 ["a"%string]
    {[ "a"%string := 5 ]} ∅ {[ "a"%string := 8 ]} true true ∅ =
  ({[ "a"%string := 13 ]}, ∅).
Proof. vm_compute. reflexivity. Qed.

(** Scaling down removes the excess over the total, not over the desired
    plan: a cluster limited to six replicas keeps its eight. *)
Lemma scaleDown_exceeds_MaxReplicas :
  Plan {| Clusters := {[ "a"%string := {| MinReplicas := 0; MaxReplicas := Some 6 |} ]} |} 8 ["a"%string]
    {[ "a"%string := 8 ]} ∅ ∅ true true ∅ =
  ({[ "a"%string := 8 ]}, ∅).
Proof. vm_compute. reflexivity. Qed.
End Witnesses.
