(* ===== verification/Runtime.v ===== *)
(** * The framework runtime ([framework/interface.go], [framework/runtime])

    The plugin interfaces, the registry, the initialisation of the framework
    from a registry and the enabled plugins, and the methods that run the
    plugins of one extension point.  Metrics and logs are left out.  A plugin
    may panic; a nil [*Result] is [None]. *)

From Stdlib Require Import ZArith Lia String.
From S2P Require Import Prelude K8s Types FilterPlugins.

Section Interface.
Context `{K : Kubernetes}.

(** ** Interfaces *)

Definition ScoreExtensionsFn : Type := list ClusterScore -> may_panic (list ClusterScore * option Result).

Record FilterPlugin := {
  fp_Name : string;
  fp_Filter : SchedulingUnit -> FederatedCluster -> may_panic (option Result)
}.

Record ScorePlugin := {
  sp_Name : string;
  sp_Score : SchedulingUnit -> FederatedCluster -> may_panic (Z * option Result);
  sp_ScoreExtensions : option ScoreExtensionsFn
}.

Record SelectPlugin := {
  sel_Name : string;
  sel_SelectClusters : SchedulingUnit -> list ClusterScore -> may_panic (list ClusterScore * option Result)
}.

Record ReplicasPlugin := {
  rp_Name : string;
  rp_ReplicaScheduling : SchedulingUnit -> list FederatedCluster ->
    may_panic (list ClusterReplicas * option Result)
}.

(** A [Plugin] value: its name and the methods its type has. *)
Record Plugin := {
  Name : string;
  Filter : option (SchedulingUnit -> FederatedCluster -> may_panic (option Result));
  ScoreWith : option ((SchedulingUnit -> FederatedCluster -> may_panic (Z * option Result)) *
                      option ScoreExtensionsFn);
  SelectClusters : option (SchedulingUnit -> list ClusterScore ->
                           may_panic (list ClusterScore * option Result));
  ReplicaSchedulingWith : option (SchedulingUnit -> list FederatedCluster ->
                                  may_panic (list ClusterReplicas * option Result))
}.

(** [reflect.TypeOf(pg).Implements(pluginType)] and the converted value. *)
Definition asFilterPlugin (p : Plugin) : option FilterPlugin :=
  (fun f => {| fp_Name := Name p; fp_Filter := f |}) <$> Filter p.
Definition asScorePlugin (p : Plugin) : option ScorePlugin :=
  (fun '(s, e) => {| sp_Name := Name p; sp_Score := s; sp_ScoreExtensions := e |}) <$> ScoreWith p.
Definition asSelectPlugin (p : Plugin) : option SelectPlugin :=
  (fun f => {| sel_Name := Name p; sel_SelectClusters := f |}) <$> SelectClusters p.
Definition asReplicasPlugin (p : Plugin) : option ReplicasPlugin :=
  (fun f => {| rp_Name := Name p; rp_ReplicaScheduling := f |}) <$> ReplicaSchedulingWith p.

(** The interface [Framework]. *)
Record Framework := {
  RunFilterPlugins : SchedulingUnit -> FederatedCluster -> may_panic (option Result);
  RunScorePlugins : SchedulingUnit -> list FederatedCluster ->
    may_panic (gmap string (list ClusterScore) * option Result);
  RunSelectClustersPlugin : SchedulingUnit -> list ClusterScore ->
    may_panic (list FederatedCluster * option Result);
  RunReplicasPlugin : SchedulingUnit -> list FederatedCluster ->
    may_panic (list ClusterReplicas * option Result)
}.
End Interface.

(** ** The registry ([runtime/registry.go])

    A method of the map type changes the map and returns an error or nil. *)

Section Registry.
Context `{K : Kubernetes} `{R : GoRuntime} {Handle : Type}.

Definition PluginFactory : Type := Handle -> Plugin + string.
Definition Registry : Type := gmap string PluginFactory.

Definition Register (r : gmap string PluginFactory) (name : string) (factory : PluginFactory)
    : Registry * option string :=
  match r !! name with
  | Some _ => (r, Some ("a plugin named " ++ name ++ " already exists")%string)
  | None => (<[name := factory]> r, None)
  end.

Definition Unregister (r : gmap string PluginFactory) (name : string) : Registry * option string :=
  match r !! name with
  | None => (r, Some ("no plugin named " ++ name ++ " exists")%string)
  | Some _ => (delete name r, None)
  end.

Fixpoint Merge_loop (r : gmap string PluginFactory) (entries : list (string * PluginFactory))
    : Registry * option string :=
  match entries with
  | [] => (r, None)
  | (name, factory) :: entries' =>
      match Register r name factory with
      | (r', Some err) => (r', Some err)
      | (r', None) => Merge_loop r' entries'
      end
  end.

Definition Merge (r inn : gmap string PluginFactory) : Registry * option string := Merge_loop r (range_map inn).
End Registry.
#[global] Arguments Registry {K} Handle.
#[global] Arguments PluginFactory {K} Handle.

(** ** Enabled plugins ([pkg/apis/core]) *)

Record EnabledPlugins := {
  FilterPlugins : list string;
  ScorePlugins : list string;
  SelectPlugins : list string;
  ReplicasPlugins : list string
}.

Definition IsPluginEnabled (ep : EnabledPlugins) (pluginName : string) : bool :=
  if bool_decide (pluginName ∈ FilterPlugins ep) then true
  else if bool_decide (pluginName ∈ ScorePlugins ep) then true
  else if bool_decide (pluginName ∈ SelectPlugins ep) then true
  else bool_decide (pluginName ∈ ReplicasPlugins ep).

(** ** The framework ([runtime/framework.go]) *)

Section Impl.
Context `{K : Kubernetes} `{R : GoRuntime} {Handle : Type}.

Record frameworkImpl := {
  filterPlugins : list FilterPlugin;
  scorePlugins : list ScorePlugin;
  selectPlugins : list SelectPlugin;
  replicasPlugins : list ReplicasPlugin;
  profileName : string
}.

(** The loop of [addPlugins]: [T] is the plugin type [typeName], [implements]
    its type assertion. *)
Fixpoint addPlugins_loop {T} (typeName : string) (implements : Plugin -> option T)
    (pluginsMap : gmap string Plugin) (enabledPluginNames : list string)
    (registeredPlugins : gset string) (plugins : list T) : list T + string :=
  match enabledPluginNames with
  | [] => inl plugins
  | pluginName :: names =>
      match pluginsMap !! pluginName with
      | None => inr (typeName ++ " " ++ pluginName ++ " does not exist")%string
      | Some pg =>
          match implements pg with
          | None => inr ("plugin " ++ pluginName ++ " does not implement " ++ typeName)%string
          | Some pl =>
              if bool_decide (pluginName ∈ registeredPlugins) then
                inr ("plugin " ++ pluginName ++ " already registered as " ++ typeName)%string
              else addPlugins_loop typeName implements pluginsMap names
                     ({[pluginName]} ∪ registeredPlugins) (plugins ++ [pl])
          end
      end
  end.

Definition addPlugins {T} (typeName : string) (implements : Plugin -> option T)
    (enabledPluginNames : list string) (pluginsMap : gmap string Plugin) : list T + string :=
  addPlugins_loop typeName implements pluginsMap enabledPluginNames ∅ [].

(** The loop that initialises the enabled plugins of the registry. *)
Fixpoint initPlugins (entries : list (string * PluginFactory Handle)) (handle : Handle)
    (enabledPlugins : EnabledPlugins) (pluginsMap : gmap string Plugin) : gmap string Plugin + string :=
  match entries with
  | [] => inl pluginsMap
  | (name, factory) :: entries' =>
      if negb (IsPluginEnabled enabledPlugins name) then
        initPlugins entries' handle enabledPlugins pluginsMap
      else
        match factory handle with
        | inr err => inr ("error initializing plugin " ++ quote name ++ ": " ++ err)%string
        | inl plugin => initPlugins entries' handle enabledPlugins (<[name := plugin]> pluginsMap)
        end
  end.

Definition NewFramework (registry : Registry Handle) (handle : Handle)
    (enabledPlugins : EnabledPlugins) (profileName : string) : frameworkImpl + string :=
  match initPlugins (range_map registry) handle enabledPlugins ∅ with
  | inr err => inr err
  | inl pluginsMap =>
      match addPlugins "FilterPlugin" asFilterPlugin (FilterPlugins enabledPlugins) pluginsMap with
      | inr err => inr err
      | inl fs =>
          match addPlugins "ScorePlugin" asScorePlugin (ScorePlugins enabledPlugins) pluginsMap with
          | inr err => inr err
          | inl ss =>
              match addPlugins "SelectPlugin" asSelectPlugin (SelectPlugins enabledPlugins) pluginsMap with
              | inr err => inr err
              | inl sels =>
                  match addPlugins "ReplicasPlugin" asReplicasPlugin (ReplicasPlugins enabledPlugins)
                          pluginsMap with
                  | inr err => inr err
                  | inl rs => inl {| filterPlugins := fs; scorePlugins := ss; selectPlugins := sels;
                                     replicasPlugins := rs; profileName := profileName |}
                  end
              end
          end
      end
  end.

(** *** Filter *)

Fixpoint runFilterPlugins (plugins : list FilterPlugin) (su : SchedulingUnit)
    (cluster : FederatedCluster) : may_panic (option Result) :=
  match plugins with
  | [] => mret (Some (NewResult Success []))
  | pl :: plugins' =>
      pluginResult ← fp_Filter pl su cluster;
      if negb (IsSuccess pluginResult) then
        mret ((fun r => SetFailedPlugin r (fp_Name pl)) <$> pluginResult)
      else runFilterPlugins plugins' su cluster
  end.

(** *** Score *)

(** [AsError] printed; the results it is called on are not successes. *)
Definition errorString (res : option Result) : string := default ""%string (AsError res).

(** The scores of one plugin, or the message of its failure. *)
Fixpoint pluginScores (plugin : ScorePlugin) (su : SchedulingUnit)
    (clusters : list FederatedCluster) : may_panic (list ClusterScore + string) :=
  match clusters with
  | [] => mret (inl [])
  | cluster :: clusters' =>
      '(score, res) ← sp_Score plugin su cluster;
      if negb (IsSuccess res) then
        mret (inr ("plugin " ++ quote (sp_Name plugin) ++ " schedulingUnit " ++ Key su ++
                   " failed with " ++ errorString res)%string)
      else
        rest ← pluginScores plugin su clusters';
        mret (match rest with
              | inl scoreList => inl ({| cs_Cluster := cluster; Score := score |} :: scoreList)
              | inr msg => inr msg
              end)
  end.

(** The normalised scores of one plugin. *)
Definition normalizedScores (plugin : ScorePlugin) (su : SchedulingUnit)
    (clusters : list FederatedCluster) : may_panic (list ClusterScore + string) :=
  scores ← pluginScores plugin su clusters;
  match scores with
  | inr msg => mret (inr msg)
  | inl scoreList =>
      match sp_ScoreExtensions plugin with
      | None => mret (inl scoreList)
      | Some NormalizeScore =>
          '(scoreList', res) ← NormalizeScore scoreList;
          if negb (IsSuccess res) then
            mret (inr ("plugin " ++ quote (sp_Name plugin) ++ " NormalizeScore schedulingUnit " ++ Key su ++
                       " failed with " ++ errorString res)%string)
          else mret (inl scoreList')
      end
  end.

Fixpoint runScorePlugins (plugins : list ScorePlugin) (su : SchedulingUnit)
    (clusters : list FederatedCluster) (pluginToClusterScore : gmap string (list ClusterScore))
    : may_panic (gmap string (list ClusterScore) * option Result) :=
  match plugins with
  | [] => mret (pluginToClusterScore, None)
  | plugin :: plugins' =>
      scores ← normalizedScores plugin su clusters;
      match scores with
      | inr msg => mret (∅, Some (NewResult Error [msg]))
      | inl scoreList =>
          runScorePlugins plugins' su clusters (<[sp_Name plugin := scoreList]> pluginToClusterScore)
      end
  end.

(** *** Select *)

(** The clusters of the scores that are left, or the message of a failure. *)
Fixpoint selectLoop (plugins : list SelectPlugin) (su : SchedulingUnit)
    (clusterScores : list ClusterScore) : may_panic (list ClusterScore + string) :=
  match plugins with
  | [] => mret (inl clusterScores)
  | plugin :: plugins' =>
      '(newClusterScores, result) ← sel_SelectClusters plugin su clusterScores;
      if negb (IsSuccess result) then
        mret (inr ("plugin " ++ quote (sel_Name plugin) ++ " failed to select clusters for schedulingUnit " ++
                   Key su ++ ": " ++ Message result)%string)
      else selectLoop plugins' su newClusterScores
  end.

(** After the loop the named result is still nil: the loop shadows it. *)
Definition runSelectClustersPlugin (plugins : list SelectPlugin) (su : SchedulingUnit)
    (clusterScores : list ClusterScore) : may_panic (list FederatedCluster * option Result) :=
  match plugins with
  | [] => mret (cs_Cluster <$> clusterScores, Some (NewResult Success []))
  | _ =>
      selected ← selectLoop plugins su clusterScores;
      mret (match selected with
            | inr msg => ([], Some (NewResult Error [msg]))
            | inl scores => (cs_Cluster <$> scores, None)
            end)
  end.

(** *** Replicas *)

(** Only the first plugin runs. *)
Definition runReplicasPlugin (plugins : list ReplicasPlugin) (su : SchedulingUnit)
    (clusters : list FederatedCluster) : may_panic (list ClusterReplicas * option Result) :=
  match clusters with
  | [] => mret ([], Some (NewResult Success ["unnecessary to schedule due to no clusters"%string]))
  | _ =>
      if match DesiredReplicas su with None => true | Some n => n <=? 0 end then
        mret ([], Some (NewResult Success
          ["unnecessary to schedule due to replicas less or equal zero"%string]))
      else
        match plugins with
        | [] => mret ([], Some (NewResult Success ["no replicas plugin registered in the framework"%string]))
        | plugin :: _ =>
            '(clusterReplicasList, result) ← rp_ReplicaScheduling plugin su clusters;
            if negb (IsSuccess result) then
              mret (clusterReplicasList, Some (NewResult Error
                [("plugin " ++ quote (rp_Name plugin) ++ " failed to replica scheduling for schedulingUnit " ++
                  Key su ++ ": " ++ Message result)%string]))
            else mret (clusterReplicasList, result)
        end
  end.

(** The [Framework] that an initialised [frameworkImpl] is. *)
Definition asFramework (f : frameworkImpl) : Framework := {|
  RunFilterPlugins := runFilterPlugins (filterPlugins f);
  RunScorePlugins := fun su clusters => runScorePlugins (scorePlugins f) su clusters ∅;
  RunSelectClustersPlugin := runSelectClustersPlugin (selectPlugins f);
  RunReplicasPlugin := runReplicasPlugin (replicasPlugins f)
|}.
End Impl.
