(* ===== verification/RuntimeTheorems.v ===== *)
(** * The theorems about the framework runtime *)

From Stdlib Require Import ZArith Lia String.
From S2P Require Import Prelude K8s Types Runtime.

(** * The contract between the algorithm and the framework

    What [Schedule] relies on ([LawfulFramework]), what the runtime needs of
    each plugin to provide it ([LawfulPlugins]), and the proof that it does. *)

(** Take apart a computation that returns. *)
Ltac returns_inv :=
  repeat match goal with
  | H : mret _ = Returns _ |- _ => injection H as H
  | H : Returns _ = Returns _ |- _ => injection H as H
  | H : (_ ≫= _) = Returns _ |- _ =>
      let x := fresh "x" in let Hx := fresh "Hx" in
      apply may_panic_bind_Returns in H as (x & Hx & H)
  | H : (_ <$> _) = Returns _ |- _ =>
      let x := fresh "x" in let Hx := fresh "Hx" in
      apply may_panic_fmap_Returns in H as (x & Hx & H)
  | x : (_ * _)%type |- _ => destruct x
  end; simplify_eq/=.

Section Laws.
Context `{K : Kubernetes}.

(** A framework whose scores cover the clusters, and whose selection and
    replicas stay within the clusters it is given. *)
Class LawfulFramework (fwk : Framework) : Prop := {
  law_scores : forall su clusters m res k l,
    RunScorePlugins fwk su clusters = Returns (m, res) -> IsSuccess res = true ->
    m !! k = Some l -> length l = length clusters;
  law_select : forall su scores clusters res c,
    RunSelectClustersPlugin fwk su scores = Returns (clusters, res) -> IsSuccess res = true ->
    c ∈ clusters -> c ∈ cs_Cluster <$> scores;
  law_replicas : forall su clusters l res x,
    RunReplicasPlugin fwk su clusters = Returns (l, res) -> IsSuccess res = true ->
    x ∈ l -> cr_Cluster x ∈ clusters
}.

(** Normalisation works in place: it cannot change the length of the list. *)
Definition lawful_score (p : ScorePlugin) : Prop := forall normalize scores scores' res,
  sp_ScoreExtensions p = Some normalize -> normalize scores = Returns (scores', res) ->
  length scores' = length scores.

Definition lawful_select (p : SelectPlugin) : Prop := forall su scores scores' res s,
  sel_SelectClusters p su scores = Returns (scores', res) -> IsSuccess res = true ->
  s ∈ scores' -> cs_Cluster s ∈ cs_Cluster <$> scores.

Definition lawful_replicas (p : ReplicasPlugin) : Prop := forall su clusters l res x,
  rp_ReplicaScheduling p su clusters = Returns (l, res) -> IsSuccess res = true ->
  x ∈ l -> cr_Cluster x ∈ clusters.

Record LawfulPlugins (f : frameworkImpl) : Prop := {
  lp_score : forall p, p ∈ scorePlugins f -> lawful_score p;
  lp_select : forall p, p ∈ selectPlugins f -> lawful_select p;
  lp_replicas : forall p, p ∈ replicasPlugins f -> lawful_replicas p
}.

Lemma pluginScores_length p su clusters l :
  pluginScores p su clusters = Returns (inl l) -> cs_Cluster <$> l = clusters.
Proof using Type.
  revert l. induction clusters as [|c clusters IH]; intros l; simpl; intros Hl; returns_inv; [done|].
  destruct (negb _); returns_inv. destruct x; simplify_eq/=. f_equal. by apply IH.
Qed.

Lemma normalizedScores_length p su clusters l : lawful_score p ->
  normalizedScores p su clusters = Returns (inl l) -> length l = length clusters.
Proof using Type.
  intros Hp Hl. unfold normalizedScores in Hl. returns_inv. destruct x as [scores|]; returns_inv.
  apply pluginScores_length in Hx. rewrite <- Hx, length_fmap.
  destruct (sp_ScoreExtensions p) as [norm|] eqn:E; returns_inv; [|done].
  destruct (negb _); returns_inv. by eapply Hp.
Qed.

Lemma runScorePlugins_length ps su clusters m0 m res :
  (forall p, p ∈ ps -> lawful_score p) ->
  (forall k l, m0 !! k = Some l -> length l = length clusters) ->
  runScorePlugins ps su clusters m0 = Returns (m, res) -> IsSuccess res = true ->
  forall k l, m !! k = Some l -> length l = length clusters.
Proof using Type.
  revert m0. induction ps as [|p ps IH]; intros m0 Hps Hm0 Hrun Hres; simpl in Hrun; returns_inv; [done|].
  destruct x as [l'|msg]; returns_inv.
  refine (IH _ _ _ Hrun Hres); [intros q Hq; apply Hps; by right|].
  intros k l [[<- <-]|[_ Hk]]%lookup_insert_Some; [|by eapply Hm0].
  eapply normalizedScores_length; [|done]. apply Hps. left.
Qed.

Lemma selectLoop_sub ps su scores scores' s :
  (forall p, p ∈ ps -> lawful_select p) ->
  selectLoop ps su scores = Returns (inl scores') -> s ∈ scores' -> cs_Cluster s ∈ cs_Cluster <$> scores.
Proof using Type.
  revert scores. induction ps as [|p ps IH]; intros scores Hps Hrun Hs; simpl in Hrun; returns_inv.
  - by apply list_elem_of_fmap_2.
  - destruct (IsSuccess o) eqn:Ho; simpl in Hrun; returns_inv.
    apply IH in Hrun as Hin; [|intros q Hq; apply Hps; by right|done].
    apply list_elem_of_fmap in Hin as (s' & -> & Hs'). eapply (Hps p); [left|done..].
Qed.

#[export] Instance asFramework_lawful f : LawfulPlugins f -> LawfulFramework (asFramework f).
Proof using Type.
  intros [Hsc Hse Hre]. split; simpl.
  - intros su clusters m res k l Hrun Hres Hk.
    eapply runScorePlugins_length; [exact Hsc| |exact Hrun|done|done]. intros ? ?. by rewrite lookup_empty.
  - intros su scores clusters res c Hrun Hres Hc. unfold runSelectClustersPlugin in Hrun.
    destruct (selectPlugins f) as [|p ps] eqn:E; [by returns_inv|].
    apply may_panic_bind_Returns in Hrun as (x & Hx & Hrun). destruct x as [scores'|]; returns_inv.
    apply list_elem_of_fmap in Hc as (s & -> & Hs). by eapply selectLoop_sub.
  - intros su clusters l res x Hrun Hres Hx. unfold runReplicasPlugin in Hrun.
    destruct clusters as [|c clusters]; [returns_inv; by apply elem_of_nil in Hx|].
    destruct (match DesiredReplicas su with None => true | Some n => n <=? 0 end);
      [returns_inv; by apply elem_of_nil in Hx|].
    destruct (replicasPlugins f) as [|p ps] eqn:E; [returns_inv; by apply elem_of_nil in Hx|].
    apply may_panic_bind_Returns in Hrun as ([l' r] & Hl & Hrun).
    destruct (IsSuccess r) eqn:Hr; simpl in Hrun; returns_inv.
    eapply (Hre p); [left|done..].
Qed.
End Laws.

Section Runtime.
Context `{K : Kubernetes}.

(** ** Filters *)

(** [pl] accepts the cluster. *)
Definition accepts (pl : FilterPlugin) (su : SchedulingUnit) (cluster : FederatedCluster) : Prop :=
  exists r, fp_Filter pl su cluster = Returns r /\ IsSuccess r = true.

(** [pl] returns the failure [r]. *)
Definition rejects (pl : FilterPlugin) (su : SchedulingUnit) (cluster : FederatedCluster) (r : Result) : Prop :=
  fp_Filter pl su cluster = Returns (Some r) /\ code r <> Success.

Lemma IsSuccess_false r : IsSuccess r = false <-> exists x, r = Some x /\ code x <> Success.
Proof using Type.
  destruct r as [x|]; simpl; [rewrite bool_decide_eq_false|]; naive_solver.
Qed.

Lemma runFilterPlugins_spec pls su cluster :
  (forall pl, pl ∈ pls -> exists r, fp_Filter pl su cluster = Returns r) ->
  exists r, runFilterPlugins pls su cluster = Returns (Some r) /\
    ((code r = Success /\ forall pl, pl ∈ pls -> accepts pl su cluster) \/
     exists l1 pl l2 r', pls = l1 ++ pl :: l2 /\ (forall q, q ∈ l1 -> accepts q su cluster) /\
       rejects pl su cluster r' /\ r = SetFailedPlugin r' (fp_Name pl)).
Proof using Type.
  induction pls as [|pl pls IH]; intros Hret; simpl.
  - eexists. split; [done|]. left. split; [done|]. by intros ? ?%elem_of_nil.
  - destruct (Hret pl) as [r Hr]; [left|]. rewrite Hr. simpl.
    destruct (IsSuccess r) eqn:Hs; simpl.
    + destruct IH as (r' & -> & [[Hc Hall]|(l1 & p & l2 & r'' & -> & Hl1 & Hrej & ->)]);
        [intros; apply Hret; by right| |]; eexists; (split; [done|]).
      * left. split; [done|]. intros q [->|Hq]%elem_of_cons; [by exists r|auto].
      * right. exists (pl :: l1), p, l2, r''. split_and!; [done| |done|done].
        intros q [->|Hq]%elem_of_cons; [by exists r|auto].
    + apply IsSuccess_false in Hs as (x & -> & Hx). eexists. split; [done|]. right.
      exists [], pl, pls, x. split_and!; [done| |done|done]. by intros ? ?%elem_of_nil.
Qed.

(** If no filter plugin panics, [RunFilterPlugins] returns: a success when
    every plugin accepts the cluster, and otherwise the result of the first
    plugin that rejects it, marked with the name of that plugin. *)
Theorem RunFilterPlugins_spec f su cluster :
  (forall pl, pl ∈ filterPlugins f -> exists r, fp_Filter pl su cluster = Returns r) ->
  exists r, RunFilterPlugins (asFramework f) su cluster = Returns (Some r) /\
    ((code r = Success /\ forall pl, pl ∈ filterPlugins f -> accepts pl su cluster) \/
     exists l1 pl l2 r', filterPlugins f = l1 ++ pl :: l2 /\ (forall q, q ∈ l1 -> accepts q su cluster) /\
       rejects pl su cluster r' /\ r = SetFailedPlugin r' (fp_Name pl)).
Proof using Type. apply runFilterPlugins_spec. Qed.

(** A success of the framework is a success of every plugin. *)
Lemma runFilterPlugins_accepts pls su cluster r :
  runFilterPlugins pls su cluster = Returns r -> IsSuccess r = true ->
  forall pl, pl ∈ pls -> accepts pl su cluster.
Proof using Type.
  induction pls as [|pl pls IH]; intros Hrun Hr; [by intros ? ?%elem_of_nil|].
  simpl in Hrun. apply may_panic_bind_Returns in Hrun as (r' & Hr' & Hrun).
  destruct (IsSuccess r') eqn:Hs; simpl in Hrun.
  - intros q [->|Hq]%elem_of_cons; [by exists r'|auto].
  - apply IsSuccess_false in Hs as (x & -> & Hx). injection Hrun as <-. simpl in Hr.
    apply bool_decide_eq_true in Hr. by destruct Hx.
Qed.

(** ** Registering plugins at an extension point *)

(** The plugin named [n] exists and converts to [p]. *)
Definition provides {T} (implements : Plugin -> option T) (pluginsMap : gmap string Plugin)
    (n : string) (p : T) : Prop := exists pg, pluginsMap !! n = Some pg /\ implements pg = Some p.

Lemma addPlugins_loop_spec {T} typeName (implements : Plugin -> option T) m names reg acc l :
  addPlugins_loop typeName implements m names reg acc = inl l <->
  NoDup names /\ (forall n, n ∈ names -> n ∉ reg) /\
  exists l', l = acc ++ l' /\ Forall2 (provides implements m) names l'.
Proof using Type.
  revert reg acc. induction names as [|n names IH]; intros reg acc; simpl.
  - split.
    + intros [= <-]. split_and!; [constructor|by intros ? ?%elem_of_nil|].
      exists []. by rewrite app_nil_r.
    + intros (_ & _ & l' & -> & Hl). inversion Hl. by rewrite app_nil_r.
  - destruct (m !! n) as [pg|] eqn:Hn; [destruct (implements pg) as [p|] eqn:Hp|].
    + case_bool_decide as Hr.
      { split; [done|]. intros (_ & H & _). by destruct (H n); [left|]. }
      rewrite IH, NoDup_cons. split.
      * intros (Hnd & Hnr & l' & -> & Hl). split_and!; [|done| |].
        -- intros Hin. apply (Hnr n Hin). set_solver.
        -- intros q [->|Hq]%elem_of_cons; [done|]. specialize (Hnr q Hq). set_solver.
        -- exists (p :: l'). rewrite <- app_assoc. split; [done|]. constructor; [by exists pg|done].
      * intros ([Hnn Hnd] & Hnr & l' & -> & Hl). inversion Hl as [|? p' ? l'' (pg' & H1 & H2) Hl'']; subst.
        rewrite Hn in H1. injection H1 as <-. rewrite Hp in H2. injection H2 as <-.
        split_and!; [done| |exists l''; by rewrite <- app_assoc].
        intros q Hq. specialize (Hnr q ltac:(by right)). rewrite elem_of_union, elem_of_singleton.
        intros [->|]; [by apply Hnn|done].
    + split; [done|]. intros (_ & _ & l' & -> & Hl).
      inversion Hl as [|? ? ? ? (pg' & H1 & H2)]; subst. congruence.
    + split; [done|]. intros (_ & _ & l' & -> & Hl).
      inversion Hl as [|? ? ? ? (pg' & H1 & H2)]; subst. congruence.
Qed.

Lemma addPlugins_iff {T} typeName (implements : Plugin -> option T) names m l :
  addPlugins typeName implements names m = inl l <->
  NoDup names /\ Forall2 (provides implements m) names l.
Proof using Type.
  unfold addPlugins. rewrite addPlugins_loop_spec. split.
  - by intros (Hnd & _ & l' & -> & Hl).
  - intros [Hnd Hl]. split_and!; [done|set_solver|]. by exists l.
Qed.

(** [addPlugins] succeeds exactly when the names are distinct and each is an
    initialised plugin of the right type, and then it registers those plugins
    in the order of the names. *)
Theorem addPlugins_spec {T} typeName (implements : Plugin -> option T) names m l :
  addPlugins typeName implements names m = inl l <->
  NoDup names /\ Forall2 (provides implements m) names l.
Proof using Type. apply addPlugins_iff. Qed.

(** ** The registry *)

Lemma Merge_loop_spec {Handle} (r : gmap string (PluginFactory Handle)) l r' : NoDup l.*1 ->
  Merge_loop r l = (r', None) <->
  (forall k, k ∈ l.*1 -> r !! k = None) /\ r' = r ∪ list_to_map l.
Proof using Type.
  revert r. induction l as [|[k f] l IH]; intros r; cbn [Merge_loop fmap list_fmap].
  - intros _. simpl. rewrite map_union_empty. split; [|by intros [_ ->]].
    intros [= ->]. split; [|done]. by intros ? ?%elem_of_nil.
  - intros [Hk Hnd]%NoDup_cons. unfold Register. destruct (r !! k) as [g|] eqn:Hr.
    + split; [done|]. intros [H _]. specialize (H k ltac:(left)). simpl in H. congruence.
    + rewrite IH by done. simpl. rewrite <- insert_union_r by done.
      rewrite insert_union_l. split; intros [H1 H2]; (split; [|done]).
      * intros q [->|Hq]%elem_of_cons; [done|]. specialize (H1 q Hq).
        by apply lookup_insert_None in H1 as [? _].
      * intros q Hq. apply lookup_insert_None. split; [apply H1; by right|].
        intros ->. done.
Qed.

Lemma Merge_iff `{R : GoRuntime} {Handle} (r inn r' : gmap string (PluginFactory Handle)) :
  Merge r inn = (r', None) <-> r ##ₘ inn /\ r' = r ∪ inn.
Proof using Type.
  unfold Merge. rewrite Merge_loop_spec by apply NoDup_range_map_fst.
  replace (list_to_map (range_map inn) : gmap string (PluginFactory Handle)) with inn; cycle 1.
  { rewrite (list_to_map_proper (range_map inn) (map_to_list inn));
      [by rewrite list_to_map_to_list|apply NoDup_range_map_fst|apply range_map_perm]. }
  assert (Hd : (forall k, k ∈ (range_map inn).*1 -> r !! k = None) <-> r ##ₘ inn); [|by rewrite Hd].
  rewrite map_disjoint_spec. split.
  - intros H k x y Hx Hy. rewrite H in Hx; [done|].
    apply list_elem_of_fmap. exists (k, y). by rewrite elem_of_range_map.
  - intros H k ([k' y] & -> & Hy)%list_elem_of_fmap. apply elem_of_range_map in Hy. simpl.
    destruct (r !! k') as [x|] eqn:Hx; [|done]. exfalso. by eapply H.
Qed.

(** [Merge] succeeds exactly when no name is registered twice, whatever the
    iteration order, and the result is the union of the registries. *)
Theorem Merge_spec `{R : GoRuntime} {Handle} (r inn r' : gmap string (PluginFactory Handle)) :
  Merge r inn = (r', None) <-> r ##ₘ inn /\ r' = r ∪ inn.
Proof using Type. apply Merge_iff. Qed.
End Runtime.

(** ** Concrete inputs *)

Section Witnesses.
#[local] Existing Instance small_kubernetes.
#[local] Existing Instance small_runtime.

(** A plugin that rejects every cluster but one. *)
Definition only (n : string) : FilterPlugin := {|
  fp_Name := "Only";
  fp_Filter := fun su c => mret (Some
    (if String.eqb (c_Name c) n then NewResult Success []
     else NewResult Unschedulable ["cluster is not the one"%string]))
|}.

(** A plugin that gives every cluster the same score. *)
Definition flat (n : string) (score : Z) : ScorePlugin := {|
  sp_Name := n; sp_Score := fun su c => mret (score, None); sp_ScoreExtensions := None
|}.

Definition toy_impl : frameworkImpl := {|
  filterPlugins := [ only "a" ]; scorePlugins := [ flat "F" 3; flat "G" 4 ];
  selectPlugins := []; replicasPlugins := []; profileName := "toy"
|}.

Definition toy_cluster (n : string) : FederatedCluster := {|
  c_Name := n; c_Labels := ∅; c_Annotations := ∅; c_Finalizers := []; c_DeletionTimestamp := None; Taints := [];
  Status := {| Conditions := []; APIResourceTypes := []; JoinPerformed := true;
               st_Resources := {| SchedulableNodes := None; Allocatable := ∅; Available := ∅ |} |}
|}.

Definition toy_unit : SchedulingUnit := {|
  su_GroupVersion := {| gv_Group := "apps"; gv_Version := "v1" |};
  su_Kind := "Deployment"; su_Resource := "deployments"; su_Namespace := "default"; su_Name := "web";
  su_Labels := ∅; su_Annotations := ∅;
  DesiredReplicas := None;
  ResourceRequest := {| MilliCPU := 0; Memory := 0; EphemeralStorage := 0; ScalarResources := None |};
  CurrentClusters := ∅; AutoMigration := None; CustomMigration := {| cm_Info := None |};
  SchedulingMode := SchedulingModeDuplicate; ReplicasStrategy := ReplicasStrategySpread;
  StickyCluster := true; AvoidDisruption := true; su_ClusterSelector := ∅; ClusterNames := ∅;
  su_Affinity := None; Tolerations := []; MaxClusters := None; su_MinReplicas := ∅; su_MaxReplicas := ∅;
  Weights := ∅; Priorities := ∅; EnableKatalystSupport := false
|}.

Lemma RunFilterPlugins_spec_witness :
  exists r, RunFilterPlugins (asFramework toy_impl) toy_unit (toy_cluster "b") = Returns (Some r) /\
    code r = Unschedulable.
Proof.
  destruct (RunFilterPlugins_spec toy_impl toy_unit (toy_cluster "b")) as (r & Hr & _).
  - intros pl Hpl. simpl in Hpl. each_member. eexists. reflexivity.
  - exists r. split; [exact Hr|]. vm_compute in Hr. injection Hr as <-. reflexivity.
Defined.
End Witnesses.
