(* ===== verification/GenericScheduler.v ===== *)
(** * The scheduling algorithm ([core/generic_scheduler.go])

    [Schedule] against an arbitrary [Framework]: filter, score, select, then
    divide the replicas.  Logs are left out. *)

From Stdlib Require Import ZArith Lia String.
From stdpp Require Import pretty.
From S2P Require Import Prelude K8s Types Runtime.

Record ScheduleResult := { SuggestedClusters : gmap string (option Z) }.

Definition ClusterSet (result : ScheduleResult) : gset string := dom (SuggestedClusters result).

Section ScheduleResult.
Context `{R : GoRuntime}.

(** The loop of [String]; [i] counts the entries written. *)
Definition ScheduleResult_body (result : ScheduleResult) : string * Z :=
  foldl (fun '(sb, i) '(cluster, replicas) =>
    let sb := (sb ++ cluster ++ ":" ++
               match replicas with None => "nil" | Some n => pretty (n : Z) end)%string in
    let i := i + 1 in
    (if i <? Z.of_nat (size (SuggestedClusters result)) then (sb ++ ", ")%string else sb, i))
    ("["%string, 0) (range_map (SuggestedClusters result)).

Definition ScheduleResult_String (result : ScheduleResult) : string :=
  ((ScheduleResult_body result).1 ++ "]")%string.
End ScheduleResult.

(** The errors of [Schedule]: a [*FitError] or a message. *)
Inductive ScheduleError :=
  | FitErr (e : FitError)
  | SchedErr (msg : string).

Section Schedule.
Context `{K : Kubernetes} `{R : GoRuntime}.

(** One iteration of the filter loop; the clusters kept so far and the
    diagnosis of the others. *)
Definition addFilterResult (acc : list FederatedCluster * Diagnosis) (cluster : FederatedCluster)
    (result : option Result) : list FederatedCluster * Diagnosis :=
  let '(ret, diagnosis) := acc in
  match result with
  | Some r =>
      if negb (IsSuccess result) then
        (ret, {| ClusterToResultMap := <[c_Name cluster := r]> (ClusterToResultMap diagnosis);
                 UnschedulablePlugins := {[failedPlugin r]} ∪ UnschedulablePlugins diagnosis |})
      else (ret ++ [cluster], diagnosis)
  | None => (ret ++ [cluster], diagnosis)
  end.

Fixpoint filterLoop (fwk : Framework) (su : SchedulingUnit) (clusters : list FederatedCluster)
    (acc : list FederatedCluster * Diagnosis) : may_panic (list FederatedCluster * Diagnosis) :=
  match clusters with
  | [] => mret acc
  | cluster :: clusters' =>
      result ← RunFilterPlugins fwk su cluster;
      filterLoop fwk su clusters' (addFilterResult acc cluster result)
  end.

Definition findClustersThatFitWorkload (fwk : Framework) (su : SchedulingUnit)
    (clusters : list FederatedCluster) : may_panic (list FederatedCluster * Diagnosis) :=
  filterLoop fwk su clusters ([], {| ClusterToResultMap := ∅; UnschedulablePlugins := ∅ |}).

(** [ret[i].Score], summed over the plugins in the order of the map. *)
Fixpoint sumScores (scores : list (string * list ClusterScore)) (i : nat) (sum : Z) : may_panic Z :=
  match scores with
  | [] => mret sum
  | (_, scoreList) :: scores' =>
      match scoreList !! i with
      | None => Panics
      | Some s => sumScores scores' i (sum +! Score s)
      end
  end.

(** The loop over the clusters from index [i] on. *)
Fixpoint totalScores (scores : gmap string (list ClusterScore)) (clusters : list FederatedCluster)
    (i : nat) : may_panic (list ClusterScore) :=
  match clusters with
  | [] => mret []
  | cluster :: clusters' =>
      sum ← sumScores (range_map scores) i 0;
      rest ← totalScores scores clusters' (S i);
      mret ({| cs_Cluster := cluster; Score := sum |} :: rest)
  end.

Definition scoreClusters (fwk : Framework) (su : SchedulingUnit) (clusters : list FederatedCluster)
    : may_panic (list ClusterScore + string) :=
  '(scores, result) ← RunScorePlugins fwk su clusters;
  if negb (IsSuccess result) then mret (inr (errorString result))
  else
    ret ← totalScores scores clusters 0;
    mret (inl ret).

Definition selectClusters (fwk : Framework) (su : SchedulingUnit) (clusterScores : list ClusterScore)
    : may_panic (list FederatedCluster + string) :=
  '(clusters, result) ← RunSelectClustersPlugin fwk su clusterScores;
  mret (if negb (IsSuccess result) then inr (errorString result) else inl clusters).

Definition replicaScheduling (fwk : Framework) (su : SchedulingUnit) (clusters : list FederatedCluster)
    : may_panic (list ClusterReplicas + string) :=
  '(clusterReplicasList, result) ← RunReplicasPlugin fwk su clusters;
  mret (if negb (IsSuccess result) then inr (errorString result) else inl clusterReplicasList).

(** The result maps, filled in the order of the lists. *)
Definition duplicateResult (selectedClusters : list FederatedCluster) : ScheduleResult :=
  {| SuggestedClusters := foldl (fun m cluster => <[c_Name cluster := None]> m) ∅ selectedClusters |}.

Definition divideResult (clusterReplicaList : list ClusterReplicas) : ScheduleResult :=
  {| SuggestedClusters := foldl (fun m clusterReplica =>
       <[c_Name (cr_Cluster clusterReplica) := Some (Replicas clusterReplica)]> m) ∅ clusterReplicaList |}.

Definition Schedule (fwk : Framework) (schedulingUnit : SchedulingUnit)
    (clusters : list FederatedCluster) : may_panic (ScheduleResult + ScheduleError) :=
  if StickyCluster schedulingUnit && negb (bool_decide (CurrentClusters schedulingUnit = ∅)) then
    mret (inl {| SuggestedClusters := CurrentClusters schedulingUnit |})
  else
    '(feasibleClusters, diagnosis) ← findClustersThatFitWorkload fwk schedulingUnit clusters;
    match feasibleClusters with
    | [] => mret (inr (FitErr {| NumAllClusters := Z.of_nat (length clusters); fe_Diagnosis := diagnosis |}))
    | _ =>
        clusterScores ← scoreClusters fwk schedulingUnit feasibleClusters;
        match clusterScores with
        | inr err => mret (inr (SchedErr ("failed to scoreClusters: " ++ err)%string))
        | inl clusterScores =>
            selectedClusters ← selectClusters fwk schedulingUnit clusterScores;
            match selectedClusters with
            | inr err => mret (inr (SchedErr ("failed to selectClusters: " ++ err)%string))
            | inl selectedClusters =>
                if String.eqb (SchedulingMode schedulingUnit) SchedulingModeDuplicate then
                  mret (inl (duplicateResult selectedClusters))
                else
                  clusterReplicaList ← replicaScheduling fwk schedulingUnit selectedClusters;
                  mret (match clusterReplicaList with
                        | inr err => inr (SchedErr ("failed to do replicaScheduling: " ++ err)%string)
                        | inl clusterReplicaList => inl (divideResult clusterReplicaList)
                        end)
            end
        end
    end.
End Schedule.
