(* ===== verification/GenericSchedulerTheorems.v ===== *)
(** * The theorems about [Schedule]

    They hold for every framework that keeps the contract of [RuntimeTheorems]. *)

From Stdlib Require Import ZArith Lia String.
From S2P Require Import Prelude K8s Types Runtime RuntimeTheorems GenericScheduler.

(** ** The filter loop *)

Section Filter.
Context `{K : Kubernetes} (fwk : Framework) (su : SchedulingUnit).

Definition passes (c : FederatedCluster) : Prop :=
  exists r, RunFilterPlugins fwk su c = Returns r /\ IsSuccess r = true.

Definition fails (c : FederatedCluster) (r : Result) : Prop :=
  RunFilterPlugins fwk su c = Returns (Some r) /\ code r <> Success.

Lemma passes_fails c r : passes c -> fails c r -> False.
Proof using Type.
  intros (r' & Hr' & Hs) [Hr Hc]. rewrite Hr in Hr'. injection Hr' as <-.
  simpl in Hs. by apply bool_decide_eq_true in Hs.
Qed.

Lemma fails_fun c r1 r2 : fails c r1 -> fails c r2 -> r1 = r2.
Proof using Type. intros [H1 _] [H2 _]. rewrite H1 in H2. by injection H2. Qed.

(** One iteration. *)
Lemma addFilterResult_spec c result ret d :
  RunFilterPlugins fwk su c = Returns result ->
  (passes c /\ addFilterResult (ret, d) c result = (ret ++ [c], d)) \/
  exists r, fails c r /\ addFilterResult (ret, d) c result =
    (ret, {| ClusterToResultMap := <[c_Name c := r]> (ClusterToResultMap d);
             UnschedulablePlugins := {[failedPlugin r]} ∪ UnschedulablePlugins d |}).
Proof using Type.
  intros Hr. destruct (IsSuccess result) eqn:Hs.
  - left. split; [by exists result|]. destruct result as [r|]; [|done].
    unfold addFilterResult. by rewrite Hs.
  - apply IsSuccess_false in Hs as (r & -> & Hc). right. exists r. split; [done|].
    unfold addFilterResult. simpl. by rewrite bool_decide_eq_false_2.
Qed.

(** The clusters kept are those that pass, in order; the others fail. *)
Lemma filterLoop_kept clusters ret0 d0 ret d :
  filterLoop fwk su clusters (ret0, d0) = Returns (ret, d) ->
  exists l, ret = ret0 ++ l /\ l `sublist_of` clusters /\ (forall c, c ∈ l -> passes c) /\
    forall c, c ∈ clusters -> c ∈ l \/ exists r, fails c r.
Proof using Type.
  revert ret0 d0. induction clusters as [|c clusters IH]; intros ret0 d0 Hrun; cbn [filterLoop] in Hrun.
  - injection Hrun as <- <-. exists []. rewrite app_nil_r. split_and!; [done|done|by intros ? ?%elem_of_nil|by intros ? ?%elem_of_nil].
  - apply may_panic_bind_Returns in Hrun as (x & Hx & Hrun).
    apply addFilterResult_spec with (ret := ret0) (d := d0) in Hx as [[Hp Ha]|(r & Hf & Ha)]; rewrite Ha in Hrun.
    + apply IH in Hrun as (l & -> & Hl & Hpl & Hcov). exists (c :: l). rewrite <- app_assoc. split_and!; [done| | |].
      * by apply sublist_skip.
      * intros q [->|Hq]%elem_of_cons; auto.
      * intros q [->|Hq]%elem_of_cons; [left; left|]. destruct (Hcov q Hq); [left; by right|by right].
    + apply IH in Hrun as (l & -> & Hl & Hpl & Hcov). exists l. split_and!; [done|by apply sublist_cons|done|].
      intros q [->|Hq]%elem_of_cons; [right; by exists r|auto].
Qed.

(** The diagnosis names every cluster that fails, with its result. *)
Lemma filterLoop_diagnosis clusters ret0 d0 ret d :
  NoDup (c_Name <$> clusters) ->
  (forall c, c ∈ clusters -> ClusterToResultMap d0 !! c_Name c = None) ->
  filterLoop fwk su clusters (ret0, d0) = Returns (ret, d) ->
  (forall k r, ClusterToResultMap d !! k = Some r <->
    ClusterToResultMap d0 !! k = Some r \/ exists c, c ∈ clusters /\ c_Name c = k /\ fails c r) /\
  forall p, p ∈ UnschedulablePlugins d <->
    p ∈ UnschedulablePlugins d0 \/ exists c r, c ∈ clusters /\ fails c r /\ p = failedPlugin r.
Proof using Type.
  revert ret0 d0. induction clusters as [|c clusters IH]; intros ret0 d0 Hnd H0 Hrun; cbn [filterLoop] in Hrun.
  - injection Hrun as <- <-. split; [intros k r|intros p]; (split; [by left|intros [H|H]; [done|]]).
    + by destruct H as (c & ?%elem_of_nil & _).
    + by destruct H as (c & r & ?%elem_of_nil & _).
  - apply may_panic_bind_Returns in Hrun as (x & Hx & Hrun).
    rewrite fmap_cons, NoDup_cons in Hnd. destruct Hnd as [Hc Hnd].
    assert (Hne : forall q, q ∈ clusters -> c_Name c <> c_Name q)
      by (intros q Hq Heq; apply Hc; rewrite Heq; by apply list_elem_of_fmap_2).
    apply addFilterResult_spec with (ret := ret0) (d := d0) in Hx as [[Hp Ha]|(r0 & Hf & Ha)]; rewrite Ha in Hrun;
      (apply IH in Hrun as [Hm Hu]; [|done|]).
    + split; [intros k r; rewrite Hm|intros p; rewrite Hu]; (split; (intros [H|H]; [by left|right])).
      * destruct H as (q & Hq & ?). exists q. split; [by right|done].
      * destruct H as (q & [->|Hq]%elem_of_cons & Hk & Hfq); [by destruct (passes_fails _ _ Hp Hfq)|by exists q].
      * destruct H as (q & r & Hq & ?). exists q, r. split; [by right|done].
      * destruct H as (q & r & [->|Hq]%elem_of_cons & Hfq & ->); [by destruct (passes_fails _ _ Hp Hfq)|by exists q, r].
    + intros q Hq. apply H0. by right.
    + simpl in *. split; [intros k r; rewrite Hm|intros p; rewrite Hu].
      * rewrite lookup_insert_Some. split.
        -- intros [[[<- <-]|[_ H]]|(q & Hq & ?)]; [|by left|].
           ++ right. exists c. split; [left|done].
           ++ right. exists q. split; [by right|done].
        -- intros [H|(q & [->|Hq]%elem_of_cons & <- & Hfq)].
           ++ left. right. split; [|done]. intros <-. rewrite H0 in H; [done|left].
           ++ left. left. by rewrite (fails_fun _ _ _ Hfq Hf).
           ++ right. by exists q.
      * rewrite elem_of_union, elem_of_singleton. split.
        -- intros [[->|H]|(q & r & Hq & ?)]; [|by left|].
           ++ right. exists c, r0. split; [left|done].
           ++ right. exists q, r. split; [by right|done].
        -- intros [H|(q & r & [->|Hq]%elem_of_cons & Hfq & ->)]; [by left; right| |].
           ++ left. left. by rewrite (fails_fun _ _ _ Hfq Hf).
           ++ right. by exists q, r.
    + intros q Hq. simpl. rewrite lookup_insert_ne by (by apply Hne). apply H0. by right.
Qed.

Lemma filterLoop_all_fail clusters acc :
  (forall c, c ∈ clusters -> exists r, fails c r) ->
  exists d, filterLoop fwk su clusters acc = Returns (acc.1, d).
Proof using Type.
  revert acc. induction clusters as [|c clusters IH]; intros [ret d] Hall; simpl; [by exists d|].
  destruct (Hall c) as [r Hf]; [left|]. destruct (Hf) as [Hr Hc]. rewrite Hr. simpl.
  rewrite bool_decide_eq_false_2 by done. simpl.
  apply (IH (ret, _)). intros q Hq. apply Hall. by right.
Qed.
End Filter.

(** ** Scores *)

Section Scores.
Context `{K : Kubernetes} (fwk : Framework) `{!LawfulFramework fwk}.

(** The score of one plugin for the cluster at index [i]. *)
Definition scoreAt (i : nat) (e : string * list ClusterScore) : Z :=
  match e.2 !! i with Some s => Score s | None => 0 end.

Lemma sumScores_value scores i s : (forall e, e ∈ scores -> is_Some (e.2 !! i)) ->
  sumScores scores i (wrap64 s) = Returns (wrap64 (s + sumZ (scoreAt i) scores)).
Proof using Type.
  revert s. induction scores as [|[k l] scores IH]; intros s Hall; simpl; [by rewrite Z.add_0_r|].
  destruct (Hall (k, l)) as [x Hx]; [left|]. simpl in Hx. rewrite Hx, add64_wrap_l, IH.
  - unfold scoreAt at 2. simpl. rewrite Hx. by rewrite Z.add_assoc.
  - intros e He. apply Hall. by right.
Qed.

(** The sum over the plugins does not depend on the order of the map. *)
Definition totalScore (m : gmap string (list ClusterScore)) (i : nat) : Z :=
  wrap64 (sumZ (scoreAt i) (map_to_list m)).

Lemma totalScores_value `{R : GoRuntime} m clusters n :
  (forall k l, m !! k = Some l -> length l = (n + length clusters)%nat) ->
  totalScores m clusters n =
  Returns (imap (fun i c => {| cs_Cluster := c; Score := totalScore m (n + i) |}) clusters).
Proof using Type.
  revert n. induction clusters as [|c clusters IH]; intros n Hm; [done|]. cbn [totalScores].
  change 0 with (wrap64 0). rewrite sumScores_value; cycle 1.
  { intros [k l] He. apply elem_of_range_map in He. apply lookup_lt_is_Some. simpl.
    rewrite (Hm k l He). simpl. lia. }
  simpl mbind. rewrite Z.add_0_l, IH by (intros k l Hk; rewrite (Hm k l Hk); simpl; lia).
  cbn. f_equal. f_equal.
  - unfold totalScore. rewrite Nat.add_0_r. by rewrite (sumZ_perm _ _ _ (range_map_perm _ m)).
  - apply imap_ext. intros i x _. simpl. do 2 f_equal. lia.
Qed.

Lemma scoreClusters_value `{R : GoRuntime} su clusters m res :
  RunScorePlugins fwk su clusters = Returns (m, res) ->
  scoreClusters fwk su clusters =
  Returns (if IsSuccess res then
             inl (imap (fun i c => {| cs_Cluster := c; Score := totalScore m i |}) clusters)
           else inr (errorString res)).
Proof using LawfulFramework0.
  intros Hrun. unfold scoreClusters. rewrite Hrun. simpl. destruct (IsSuccess res) eqn:Hs; [|done]. simpl.
  rewrite totalScores_value; [done|]. intros k l Hk. by rewrite (law_scores su clusters m res k l Hrun Hs Hk).
Qed.

Lemma imap_score_clusters (f : nat -> Z) (clusters : list FederatedCluster) :
  cs_Cluster <$> imap (fun i c => {| cs_Cluster := c; Score := f i |}) clusters = clusters.
Proof using Type. rewrite fmap_imap. induction clusters as [|c l IH] in f |- *; simpl; [done|]. f_equal. apply IH. Qed.

(** When the score plugins succeed, every feasible cluster gets the sum of
    the scores that the plugins gave it, wrapped to int64, whatever the order
    in which the map of scores is visited. *)
Theorem scoreClusters_spec `{R : GoRuntime} su clusters m res :
  RunScorePlugins fwk su clusters = Returns (m, res) -> IsSuccess res = true ->
  exists l, scoreClusters fwk su clusters = Returns (inl l) /\ cs_Cluster <$> l = clusters /\
    forall i s, l !! i = Some s -> Score s = wrap64 (sumZ (scoreAt i) (map_to_list m)).
Proof using LawfulFramework0.
  intros Hrun Hs. rewrite (scoreClusters_value su clusters m res Hrun), Hs.
  eexists. split_and!; [done|apply imap_score_clusters|].
  intros i s Hi. rewrite list_lookup_imap in Hi.
  destruct (clusters !! i); simplify_eq/=. done.
Qed.
End Scores.

(** ** The algorithm *)

Section Schedule.
Context `{K : Kubernetes} (fwk : Framework) `{!LawfulFramework fwk}.

(** The unit keeps its clusters. *)
Definition keeps_clusters (su : SchedulingUnit) : Prop :=
  StickyCluster su = true /\ CurrentClusters su <> ∅.

Lemma not_sticky su : ~ keeps_clusters su ->
  StickyCluster su && negb (bool_decide (CurrentClusters su = ∅)) = false.
Proof using Type.
  unfold keeps_clusters. destruct (StickyCluster su); simpl; [|done].
  case_bool_decide; simpl; [done|]. intros H'. by destruct H'.
Qed.

Lemma duplicateResult_lookup (l : list FederatedCluster) k :
  SuggestedClusters (duplicateResult l) !! k = (if decide (k ∈ c_Name <$> l) then Some None else None).
Proof using Type.
  unfold duplicateResult. simpl.
  assert (Hg : forall m : gmap string (option Z), foldl (fun m cluster => <[c_Name cluster := None]> m) m l !! k =
    if decide (k ∈ c_Name <$> l) then Some (None : option Z) else m !! k); [|by rewrite Hg].
  induction l as [|c l IH]; intros m; [done|]. cbn [foldl]. rewrite IH, fmap_cons.
  repeat case_decide; try done.
  - by destruct H0; right.
  - apply elem_of_cons in H0 as [->|]; [apply lookup_insert_eq|done].
  - apply lookup_insert_ne. intros <-. destruct H0. left.
Qed.

Lemma divideResult_lookup (l : list ClusterReplicas) k v :
  SuggestedClusters (divideResult l) !! k = Some v ->
  exists x, x ∈ l /\ c_Name (cr_Cluster x) = k /\ v = Some (Replicas x).
Proof using Type.
  unfold divideResult. simpl.
  assert (Hg : forall m : gmap string (option Z), foldl (fun m x => <[c_Name (cr_Cluster x) := Some (Replicas x)]> m) m l !! k = Some v ->
    m !! k = Some v \/ exists x, x ∈ l /\ c_Name (cr_Cluster x) = k /\ v = Some (Replicas x)).
  { induction l as [|x l IH]; intros m; simpl; [by left|]. intros [H|H]%IH.
    - apply lookup_insert_Some in H as [[<- <-]|[_ H]]; [|by left]. right. exists x. split; [left|done].
    - right. destruct H as (y & Hy & ?). exists y. split; [by right|done]. }
  intros [H|H]%Hg; [by rewrite lookup_empty in H|done].
Qed.

(** The clusters that select and replica plugins see. *)
Lemma scoreClusters_clusters `{R : GoRuntime} su clusters l :
  scoreClusters fwk su clusters = Returns (inl l) -> cs_Cluster <$> l = clusters.
Proof using LawfulFramework0.
  intros Hl. destruct (RunScorePlugins fwk su clusters) as [[m res]| |] eqn:Hrun.
  - rewrite (scoreClusters_value fwk su clusters m res Hrun) in Hl.
    destruct (IsSuccess res); simplify_eq/=. apply imap_score_clusters.
  - unfold scoreClusters in Hl. by rewrite Hrun in Hl.
  - unfold scoreClusters in Hl. by rewrite Hrun in Hl.
Qed.

Lemma selectClusters_sub su scores l c :
  selectClusters fwk su scores = Returns (inl l) -> c ∈ l -> c ∈ cs_Cluster <$> scores.
Proof using LawfulFramework0.
  unfold selectClusters. intros Hl Hc. returns_inv.
  destruct (IsSuccess o) eqn:Ho; simplify_eq/=. by eapply law_select.
Qed.

Lemma replicaScheduling_sub su clusters l x :
  replicaScheduling fwk su clusters = Returns (inl l) -> x ∈ l -> cr_Cluster x ∈ clusters.
Proof using LawfulFramework0.
  unfold replicaScheduling. intros Hl Hx. returns_inv.
  destruct (IsSuccess o) eqn:Ho; simplify_eq/=. by eapply law_replicas.
Qed.

(** The stages of a successful run. *)
Lemma Schedule_stages `{R : GoRuntime} su clusters result : ~ keeps_clusters su ->
  Schedule fwk su clusters = Returns (inl result) ->
  exists feasible d scores selected,
    findClustersThatFitWorkload fwk su clusters = Returns (feasible, d) /\
    scoreClusters fwk su feasible = Returns (inl scores) /\
    selectClusters fwk su scores = Returns (inl selected) /\
    ((SchedulingMode su = SchedulingModeDuplicate /\ result = duplicateResult selected) \/
     (SchedulingMode su <> SchedulingModeDuplicate /\
      exists l, replicaScheduling fwk su selected = Returns (inl l) /\ result = divideResult l)).
Proof using Type.
  intros Hst. unfold Schedule. rewrite (not_sticky _ Hst).
  intros Hrun. apply may_panic_bind_Returns in Hrun as ([feasible d] & Hf & Hrun).
  destruct feasible as [|c0 feasible]; [returns_inv|]. set (fs := c0 :: feasible) in *.
  apply may_panic_bind_Returns in Hrun as ([scores|] & Hsc & Hrun); [|returns_inv].
  apply may_panic_bind_Returns in Hrun as ([selected|] & Hsel & Hrun); [|returns_inv].
  exists fs, d, scores, selected. split_and!; [done..|].
  destruct (String.eqb_spec (SchedulingMode su) SchedulingModeDuplicate); returns_inv; [by left|].
  right. split; [done|]. destruct x; simplify_eq/=. by eexists.
Qed.

Lemma selected_feasible `{R : GoRuntime} su clusters feasible d scores selected :
  findClustersThatFitWorkload fwk su clusters = Returns (feasible, d) ->
  scoreClusters fwk su feasible = Returns (inl scores) ->
  selectClusters fwk su scores = Returns (inl selected) ->
  forall c, c ∈ selected -> c ∈ clusters /\ passes fwk su c.
Proof using LawfulFramework0.
  intros Hf Hsc Hsel c Hc. apply filterLoop_kept in Hf as (l & -> & Hsub & Hp & _). simpl in *.
  eapply selectClusters_sub in Hc; [|done]. rewrite (scoreClusters_clusters _ _ _ Hsc) in Hc.
  split; [by eapply elem_of_sublist|by apply Hp].
Qed.

Lemma Schedule_suggested `{R : GoRuntime} su clusters result k v : ~ keeps_clusters su ->
  Schedule fwk su clusters = Returns (inl result) -> SuggestedClusters result !! k = Some v ->
  exists c, c ∈ clusters /\ c_Name c = k /\ passes fwk su c /\
    (is_Some v <-> SchedulingMode su <> SchedulingModeDuplicate).
Proof using LawfulFramework0.
  intros Hst Hrun Hk.
  apply Schedule_stages in Hrun as (feasible & d & scores & selected & Hf & Hsc & Hsel & Hres); [|done].
  assert (Hin := selected_feasible su clusters feasible d scores selected Hf Hsc Hsel).
  destruct Hres as [[Hmode ->]|(Hmode & l & Hl & ->)].
  - rewrite duplicateResult_lookup in Hk. case_decide as Hd; simplify_eq/=.
    apply list_elem_of_fmap in Hd as (c & -> & Hc). exists c. destruct (Hin c Hc). split_and!; [done..|].
    split; [by intros [? [=]]|done].
  - apply divideResult_lookup in Hk as (x & Hx & <- & ->).
    eapply replicaScheduling_sub in Hx; [|done]. exists (cr_Cluster x).
    destruct (Hin _ Hx). split_and!; [done..|]. split; [done|by intros; eexists].
Qed.



(** Map iteration order and sorting do not influence [Schedule] outside the
    plugins: two runtimes give the same result for the same framework. *)
Theorem Schedule_deterministic (R1 R2 : GoRuntime) su clusters :
  @Schedule K R1 fwk su clusters = @Schedule K R2 fwk su clusters.
Proof using LawfulFramework0.
  unfold Schedule. destruct (_ && _); [done|].
  destruct (findClustersThatFitWorkload fwk su clusters) as [[[|c0 feasible] d]| |]; [done| |done|done].
  cbn [mbind may_panic_bind]. set (fs := c0 :: feasible).
  replace (@scoreClusters K R1 fwk su fs) with (@scoreClusters K R2 fwk su fs); [done|].
  destruct (RunScorePlugins fwk su fs) as [[m res]| |] eqn:Hrun.
  - by rewrite !(scoreClusters_value fwk su fs m res Hrun).
  - unfold scoreClusters. by rewrite Hrun.
  - unfold scoreClusters. by rewrite Hrun.
Qed.
End Schedule.

(** ** Concrete inputs *)

Section Witnesses.
#[local] Existing Instance small_kubernetes.
#[local] Existing Instance small_runtime.

#[local] Instance toy_lawful : LawfulFramework (asFramework toy_impl).
Proof.
  apply asFramework_lawful. split; simpl; intros p Hp; each_member; intros normalize; done.
Qed.

Definition toy_clusters : list FederatedCluster := [toy_cluster "a"; toy_cluster "b"].

Lemma toy_not_kept : ~ keeps_clusters toy_unit.
Proof. intros [_ H]. by apply H. Qed.

Lemma scoreClusters_spec_witness :
  exists l, scoreClusters (asFramework toy_impl) toy_unit toy_clusters = Returns (inl l) /\
    cs_Cluster <$> l = toy_clusters.
Proof.
  edestruct (scoreClusters_spec (asFramework toy_impl) toy_unit toy_clusters) as (l & Hl & Hc & _);
    [reflexivity|reflexivity|]. by exists l.
Defined.



Lemma Schedule_deterministic_witness :
  @Schedule _ small_runtime (asFramework toy_impl) toy_unit toy_clusters =
  @Schedule _ reversed_runtime (asFramework toy_impl) toy_unit toy_clusters.
Proof. apply (Schedule_deterministic (asFramework toy_impl) small_runtime reversed_runtime). Defined.
End Witnesses.
