(* ===== verification/Webhook.v ===== *)
(** * Webhook plugins ([extensions/webhook/v1alpha1], [webhook.go])

    A webhook plugin sends the scheduling unit and a cluster to an HTTP server
    and reads its verdict.  The HTTP client, JSON and the construction of URLs
    and transports are not part of the repository: they are the class
    [WebhookLibraries]. *)

From Stdlib Require Import ZArith Lia String.
From stdpp Require Import pretty.
From S2P Require Import Prelude K8s Types ApiTypes Resources FilterPlugins Runtime.

(** ** Payload ([pkg/apis/schedulerwebhook/v1alpha1/types.go]) *)

Definition PayloadVersion : string := "v1alpha1".

Section Payload.
Context `{K : Kubernetes}.

Record WebhookSchedulingUnit := {
  w_APIVersion : string;
  w_Kind : string;
  w_Resource : string;
  w_Namespace : string;
  w_Name : string;
  w_Labels : gmap string string;
  w_Annotations : gmap string string;
  w_SchedulingMode : string;
  w_DesiredReplicas : option Z;
  w_ResourceRequest : ResourceList;
  w_CurrentClusters : list string;
  w_CurrentReplicaDistribution : gmap string Z;
  w_ClusterSelector : gmap string string;
  w_ClusterAffinity : list ClusterSelectorTerm;
  w_Tolerations : list Toleration;
  w_MaxClusters : option Z;
  w_Placements : list DesiredPlacement
}.

(** [FilterRequest] and [ScoreRequest] have the same fields. *)
Record FilterRequest := { fr_SchedulingUnit : WebhookSchedulingUnit; fr_Cluster : FederatedCluster }.
Record FilterResponse := { Selected : bool; fresp_Error : string }.
Record ScoreResponse := { sresp_Score : Z; sresp_Error : string }.
Record SelectRequest := { slr_SchedulingUnit : WebhookSchedulingUnit; slr_ClusterScores : list ClusterScore }.
Record SelectResponse := { SelectedClusterNames : list string; slresp_Error : string }.
End Payload.

Definition StatusOK : Z := 200.

(** The libraries behind [doRequest] and [cacheWebhookPlugin]; an error is its
    message. *)
Class WebhookLibraries `{Kubernetes} := {
  JoinPath : string -> string -> string + string;
  Marshal_FilterRequest : FilterRequest -> string + string;
  Marshal_ScoreRequest : FilterRequest -> string + string;
  Marshal_SelectRequest : SelectRequest -> string + string;
  (** [http.NewRequestWithContext]: the error, if there is one. *)
  NewRequestWithContext : string -> string -> option string;
  (** A response body: what [io.ReadAll] and the JSON decoder make of it. *)
  Body : Type;
  ReadAll : Body -> string + string;
  Decode_FilterResponse : Body -> FilterResponse + string;
  Decode_ScoreResponse : Body -> ScoreResponse + string;
  Decode_SelectResponse : Body -> SelectResponse + string;
  (** [HTTPClient.Do] on the URL and the request body: status and body. *)
  HTTPClient : Type;
  Do : HTTPClient -> string -> string -> (Z * Body) + string;
  (** [makeTransport] and the client built on it, for a TLS configuration and
      a timeout. *)
  TLSConfig : Type;
  NewClient : option TLSConfig -> Z -> HTTPClient + string
}.

Section Webhook.
Context `{K : Kubernetes} `{R : GoRuntime} `{W : !WebhookLibraries}.

(** ** The adapter ([adapter.go]) *)

(** [GroupVersion.String]. *)
Definition GroupVersion_String (gv : GroupVersion) : string :=
  if String.eqb (gv_Group gv) "" then gv_Version gv else (gv_Group gv ++ "/" ++ gv_Version gv)%string.

Definition convertCurrentStep (su : SchedulingUnit) (acc : list string * gmap string Z)
    (e : string * option Z) : list string * gmap string Z :=
  let '(currentClusters, currentReplicaDistribution) := acc in
  let '(cluster, replicas) := e in
  (currentClusters ++ [cluster],
   if String.eqb (SchedulingMode su) SchedulingModeDivide
   then <[cluster := default 0 replicas]> currentReplicaDistribution
   else currentReplicaDistribution).

Definition convertPlacement (su : SchedulingUnit) (cluster : string) : DesiredPlacement := {|
  dp_Cluster := cluster;
  dp_Preferences := {| pr_MinReplicas := mget (su_MinReplicas su) cluster;
                       pr_MaxReplicas := su_MaxReplicas su !! cluster;
                       pr_Weight := Weights su !! cluster;
                       pr_Priority := None |} |}.

Definition requiredTerms (su : SchedulingUnit) : list ClusterSelectorTerm :=
  match (su_Affinity su ≫= aff_ClusterAffinity) ≫= RequiredDuringSchedulingIgnoredDuringExecution with
  | Some required => ClusterSelectorTerms required
  | None => []
  end.

Definition ConvertSchedulingUnit (su : SchedulingUnit) : WebhookSchedulingUnit :=
  let '(currentClusters, currentReplicaDistribution) :=
    foldl (convertCurrentStep su) ([], ∅) (range_map (CurrentClusters su)) in
  let placements := foldl (fun acc '(cluster, _) => acc ++ [convertPlacement su cluster]) []
    (range_map (gset_to_gmap tt (ClusterNames su))) in
  {| w_APIVersion := GroupVersion_String (su_GroupVersion su);
     w_Kind := su_Kind su;
     w_Resource := su_Resource su;
     w_Namespace := su_Namespace su;
     w_Name := su_Name su;
     w_Labels := su_Labels su;
     w_Annotations := su_Annotations su;
     w_SchedulingMode := SchedulingMode su;
     w_DesiredReplicas := DesiredReplicas su;
     w_ResourceRequest := Resource_ResourceList (ResourceRequest su);
     w_CurrentClusters := currentClusters;
     w_CurrentReplicaDistribution := currentReplicaDistribution;
     w_ClusterSelector := su_ClusterSelector su;
     w_ClusterAffinity := requiredTerms su;
     w_Tolerations := Tolerations su;
     w_MaxClusters := MaxClusters su;
     w_Placements := placements |}.

(** ** The plugin ([plugin.go]) *)

Record WebhookPlugin := {
  wp_name : string;
  urlPrefix : string;
  filterPath : string;
  scorePath : string;
  selectPath : string;
  client : HTTPClient
}.

(** [doRequest] with the encoder of the request and the decoder of the response. *)
Definition doRequest {Resp} (p : WebhookPlugin) (path : string) (body : string + string)
    (decode : Body -> Resp + string) : Resp + string :=
  match JoinPath (urlPrefix p) path with
  | inr err => inr ("failed to join URL path: " ++ err)%string
  | inl url =>
      match body with
      | inr err => inr ("failed to marshal request: " ++ err)%string
      | inl bodyBytes =>
          match NewRequestWithContext url bodyBytes with
          | Some err => inr ("failed to create request: " ++ err)%string
          | None =>
              match Do (client p) url bodyBytes with
              | inr err => inr ("request failed: " ++ err)%string
              | inl (statusCode, respBody) =>
                  if negb (statusCode =? StatusOK) then
                    match ReadAll respBody with
                    | inr err => inr ("failed to read response body: " ++ err)%string
                    | inl text => inr ("unexpected status code: " ++ pretty statusCode ++ ", body: " ++ text)%string
                    end
                  else
                    match decode respBody with
                    | inr err => inr ("failed to decode response: " ++ err)%string
                    | inl response => inl response
                    end
              end
          end
      end
  end.

Definition Webhook_Filter (p : WebhookPlugin) (su : SchedulingUnit) (cluster : FederatedCluster) : Result :=
  if String.eqb (filterPath p) "" then NewResult Error ["filter is not supported by the webhook"%string]
  else
    let req := {| fr_SchedulingUnit := ConvertSchedulingUnit su; fr_Cluster := cluster |} in
    match doRequest p (filterPath p) (Marshal_FilterRequest req) Decode_FilterResponse with
    | inr err => NewResult Error [err]
    | inl resp =>
        if negb (String.eqb (fresp_Error resp) "") then NewResult Error [fresp_Error resp]
        else if Selected resp then NewResult Success []
        else NewResult Unschedulable
               [("cluster(s) were filtered by webhookPlugin(" ++ wp_name p ++ ")")%string]
    end.

Definition Webhook_Score (p : WebhookPlugin) (su : SchedulingUnit) (cluster : FederatedCluster) : Z * Result :=
  if String.eqb (scorePath p) "" then (0, NewResult Error ["score is not supported by the webhook"%string])
  else
    let req := {| fr_SchedulingUnit := ConvertSchedulingUnit su; fr_Cluster := cluster |} in
    match doRequest p (scorePath p) (Marshal_ScoreRequest req) Decode_ScoreResponse with
    | inr err => (0, NewResult Error [err])
    | inl resp =>
        if negb (String.eqb (sresp_Error resp) "") then (0, NewResult Error [sresp_Error resp])
        else (sresp_Score resp, NewResult Success [])
    end.

Definition Webhook_NormalizeScore (scores : list ClusterScore) : list ClusterScore :=
  DefaultNormalizeScore MaxClusterScore false scores.

(** The last score of each cluster name. *)
Definition clusterMapOf (clusterScores : list ClusterScore) : gmap string ClusterScore :=
  foldl (fun m score => <[c_Name (cs_Cluster score) := score]> m) ∅ clusterScores.

Fixpoint pickSelected (clusterMap : gmap string ClusterScore) (names : list string)
    (selectedClusters : list ClusterScore) : list ClusterScore + string :=
  match names with
  | [] => inl selectedClusters
  | clusterName :: names' =>
      match clusterMap !! clusterName with
      | Some cluster => pickSelected clusterMap names' (selectedClusters ++ [cluster])
      | None => inr ("cluster " ++ quote clusterName ++ " was not in the request sent to the webhook")%string
      end
  end.

Definition Webhook_SelectClusters (p : WebhookPlugin) (su : SchedulingUnit)
    (clusterScores : list ClusterScore) : list ClusterScore * Result :=
  if String.eqb (selectPath p) "" then ([], NewResult Error ["select is not supported by the webhook"%string])
  else
    let req := {| slr_SchedulingUnit := ConvertSchedulingUnit su; slr_ClusterScores := clusterScores |} in
    match doRequest p (selectPath p) (Marshal_SelectRequest req) Decode_SelectResponse with
    | inr err => ([], NewResult Error [err])
    | inl resp =>
        if negb (String.eqb (slresp_Error resp) "") then ([], NewResult Error [slresp_Error resp])
        else
          match pickSelected (clusterMapOf clusterScores) (SelectedClusterNames resp) [] with
          | inr msg => ([], NewResult Error [msg])
          | inl selectedClusters => (selectedClusters, NewResult Success [])
          end
    end.

(** The plugin as a value of the interface type [Plugin]. *)
Definition webhookAsPlugin (p : WebhookPlugin) : Plugin := {|
  Name := wp_name p;
  Filter := Some (fun su cluster => mret (Some (Webhook_Filter p su cluster)));
  ScoreWith := Some (fun su cluster =>
                       let '(score, result) := Webhook_Score p su cluster in mret (score, Some result),
                     Some (fun scores => mret (Webhook_NormalizeScore scores, None)));
  SelectClusters := Some (fun su scores =>
                       let '(selected, result) := Webhook_SelectClusters p su scores in
                       mret (selected, Some result));
  ReplicaSchedulingWith := None
|}.

(** ** The cache of webhook plugins ([webhook.go]) *)

Record WebhookConfiguration := {
  wc_Name : string;
  PayloadVersions : list string;
  wc_URLPrefix : string;
  wc_FilterPath : string;
  wc_ScorePath : string;
  wc_SelectPath : string;
  wc_TLSConfig : option TLSConfig;
  HTTPTimeout : Z
}.

Definition SchedulerSupportedPayloadVersions : gset string := {[ PayloadVersion ]}.

(** Events: type and reason. *)
Inductive webhookEvent := WebhookConfigurationError | WebhookRegistered.

Definition defaultHTTPTimeout : Z := 5 * 1000000000.

(** The first supported version of the configuration, or the empty string. *)
Definition preferredVersion (versions : list string) : string :=
  match list_find (fun v => v ∈ SchedulerSupportedPayloadVersions) versions with
  | Some (_, v) => v
  | None => ""
  end.

Definition cacheWebhookPlugin (webhookPlugins : gmap string Plugin) (config : WebhookConfiguration)
    : gmap string Plugin * list webhookEvent :=
  let payloadVersion := preferredVersion (PayloadVersions config) in
  if String.eqb payloadVersion "" then (webhookPlugins, [WebhookConfigurationError])
  else
    let timeout := if HTTPTimeout config =? 0 then defaultHTTPTimeout else HTTPTimeout config in
    match NewClient (wc_TLSConfig config) timeout with
    | inr _ => (webhookPlugins, [WebhookConfigurationError])
    | inl client =>
        if String.eqb payloadVersion PayloadVersion then
          let plugin := webhookAsPlugin
            {| wp_name := wc_Name config; urlPrefix := wc_URLPrefix config;
               filterPath := wc_FilterPath config; scorePath := wc_ScorePath config;
               selectPath := wc_SelectPath config; client := client |} in
          (<[wc_Name config := plugin]> webhookPlugins, [WebhookRegistered])
        else (webhookPlugins, [])
    end.

Fixpoint registerWebhooks {Handle} (registry : Registry Handle) (plugins : list (string * Plugin))
    : Registry Handle * option string :=
  match plugins with
  | [] => (registry, None)
  | (name, plugin) :: plugins' =>
      match Register registry name (fun _ => inl plugin) with
      | (registry, Some err) => (registry, Some err)
      | (registry, None) => registerWebhooks registry plugins'
      end
  end.

Definition webhookPluginRegistry {Handle} (webhookPlugins : gmap string Plugin)
    : Registry Handle * option string :=
  registerWebhooks ∅ (range_map webhookPlugins).
End Webhook.

(** ** A concrete instance

    A server that answers every request favourably, with code 200. *)
Definition small_webhook `{Kubernetes} : WebhookLibraries := {|
  JoinPath := fun prefix path => inl (prefix ++ "/" ++ path)%string;
  Marshal_FilterRequest := fun r => inl (c_Name (fr_Cluster r));
  Marshal_ScoreRequest := fun r => inl (c_Name (fr_Cluster r));
  Marshal_SelectRequest := fun r => inl ""%string;
  NewRequestWithContext := fun _ _ => None;
  Body := string;
  ReadAll := fun b => inl b;
  Decode_FilterResponse := fun b => inl {| Selected := true; fresp_Error := "" |};
  Decode_ScoreResponse := fun b => inl {| sresp_Score := 10; sresp_Error := "" |};
  Decode_SelectResponse := fun b => inl {| SelectedClusterNames := [b]; slresp_Error := "" |};
  HTTPClient := unit;
  Do := fun _ _ body => inl (StatusOK, body);
  TLSConfig := unit;
  NewClient := fun _ _ => inl tt
|}.
