(* ===== verification/Profile.v ===== *)
(** * Profiles and the in-tree plugins ([profile.go], [plugins/names])

    The in-tree registry, the default plugins, the way a [SchedulingProfile]
    changes them, and [createFramework]. *)

From Stdlib Require Import ZArith Lia String.
From S2P Require Import Prelude K8s Types Resources FilterPlugins Float64 ScorePlugins Runtime Webhook.
From S2P Require Rsp BinPack.

(** ** [plugins/names] *)

Module names.
Definition APIResources : string := "APIResources".
Definition TaintToleration : string := "TaintToleration".
Definition ClusterReady : string := "ClusterReady".
Definition ClusterTerminating : string := "ClusterTerminating".
Definition ClusterResourcesFit : string := "ClusterResourcesFit".
Definition PlacementFilter : string := "PlacementFilter".
Definition KatalystResourcesExist : string := "KatalystResourcesExist".
Definition ClusterAffinity : string := "ClusterAffinity".
Definition ClusterResourcesBalancedAllocation : string := "ClusterResourcesBalancedAllocation".
Definition ClusterResourcesLeastAllocated : string := "ClusterResourcesLeastAllocated".
Definition ClusterResourcesMostAllocated : string := "ClusterResourcesMostAllocated".
Definition MaxCluster : string := "MaxCluster".
Definition ClusterCapacityWeight : string := "ClusterCapacityWeight".
Definition ClusterEvicted : string := "ClusterEvicted".
Definition PreferenceBinPack : string := "PreferenceBinPack".
Definition PrioritySort : string := "PrioritySort".
End names.

(** ** The in-tree plugins as interface values

    The framework always passes a unit and a cluster. *)

Section InTree.
Context `{K : Kubernetes} `{R : GoRuntime} `{F : FloatRuntime}.
(** [now name]: the clock when [ClusterEvicted] filters the cluster [name];
    [fmt]: how Go prints a map of resource lists. *)
Variable now : string -> Time.
Variable fmt : gmap string ResourceList -> string.

Definition plainPlugin (name : string) : Plugin := {|
  Name := name; Filter := None; ScoreWith := None; SelectClusters := None; ReplicaSchedulingWith := None
|}.

Definition filterOnly (name : string)
    (f : option SchedulingUnit -> option FederatedCluster -> may_panic Result) : Plugin := {|
  Name := name;
  Filter := Some (fun su cluster => Some <$> f (Some su) (Some cluster));
  ScoreWith := None; SelectClusters := None; ReplicaSchedulingWith := None
|}.

Definition scoreOnly (name : string)
    (f : option SchedulingUnit -> option FederatedCluster -> may_panic (Z * Result)) : Plugin := {|
  Name := name; Filter := None;
  ScoreWith := Some (fun su cluster => (fun '(s, r) => (s, Some r)) <$> f (Some su) (Some cluster), None);
  SelectClusters := None; ReplicaSchedulingWith := None
|}.

Definition filterAndScore (name : string)
    (f : option SchedulingUnit -> option FederatedCluster -> Result)
    (score : option SchedulingUnit -> option FederatedCluster -> Z * Result)
    (normalize : list ClusterScore -> list ClusterScore) : Plugin := {|
  Name := name;
  Filter := Some (fun su cluster => mret (Some (f (Some su) (Some cluster))));
  ScoreWith := Some (fun su cluster => let '(s, r) := score (Some su) (Some cluster) in mret (s, Some r),
                     Some (fun scores => mret (normalize scores, None)));
  SelectClusters := None; ReplicaSchedulingWith := None
|}.

Definition selectOnly (name : string)
    (f : SchedulingUnit -> list ClusterScore -> list ClusterScore * Result) : Plugin := {|
  Name := name; Filter := None; ScoreWith := None;
  SelectClusters := Some (fun su scores => let '(l, r) := f su scores in mret (l, Some r));
  ReplicaSchedulingWith := None
|}.

Definition replicasOnly (name : string)
    (f : SchedulingUnit -> list FederatedCluster -> option (list ClusterReplicas * Result)) : Plugin := {|
  Name := name; Filter := None; ScoreWith := None; SelectClusters := None;
  ReplicaSchedulingWith := Some (fun su clusters =>
    match f su clusters with
    | Some (l, r) => mret (l, Some r)
    | None => OutOfFuel
    end)
|}.

Definition evictedFilter (su : option SchedulingUnit) (cluster : option FederatedCluster) : Result :=
  ClusterEvicted_Filter (now (match cluster with Some c => c_Name c | None => "" end)) su cluster.

(** The value each in-tree factory returns, by the name it is registered under. *)
Definition inTreePlugins : list (string * Plugin) :=
  let filter f := fun su cluster => mret (f su cluster) in
  [ (names.APIResources, filterOnly names.APIResources (filter APIResources_Filter));
    (names.ClusterReady, filterOnly names.ClusterReady (filter ClusterReady_Filter));
    (names.ClusterTerminating, filterOnly names.ClusterTerminating (filter ClusterTerminating_Filter));
    (names.ClusterAffinity, filterAndScore names.ClusterAffinity ClusterAffinity_Filter
       ClusterAffinity_Score ClusterAffinity_NormalizeScore);
    (names.ClusterResourcesFit, filterOnly names.ClusterResourcesFit ClusterResourcesFit_Filter);
    (names.PlacementFilter, filterOnly names.PlacementFilter (filter PlacementFilter_Filter));
    (names.KatalystResourcesExist, filterOnly names.KatalystResourcesExist
       (filter KatalystResourcesExist_Filter));
    (names.TaintToleration, filterAndScore names.TaintToleration TaintToleration_Filter
       TaintToleration_Score TaintToleration_NormalizeScore);
    (names.ClusterResourcesBalancedAllocation, scoreOnly names.ClusterResourcesBalancedAllocation
       ClusterResourcesBalancedAllocation_Score);
    (names.ClusterResourcesLeastAllocated, scoreOnly names.ClusterResourcesLeastAllocated
       ClusterResourcesLeastAllocated_Score);
    (names.ClusterResourcesMostAllocated, scoreOnly names.ClusterResourcesMostAllocated
       ClusterResourcesMostAllocated_Score);
    (names.MaxCluster, selectOnly names.MaxCluster MaxCluster_SelectClusters);
    (names.ClusterCapacityWeight, replicasOnly names.ClusterCapacityWeight (Rsp.ReplicaScheduling fmt));
    (names.ClusterEvicted, filterOnly names.ClusterEvicted (filter evictedFilter));
    (names.PreferenceBinPack, replicasOnly names.PreferenceBinPack
       (fun su clusters => Some (BinPack.ReplicaScheduling su clusters)));
    (names.PrioritySort, selectOnly names.PrioritySort PrioritySort_SelectClusters) ].

(** The factories never fail. *)
Definition inTreeRegistry {Handle} : Registry Handle :=
  list_to_map ((fun '(name, plugin) => (name, fun _ => inl plugin)) <$> inTreePlugins).
End InTree.

(** ** Default plugins ([extensions_schedulingprofile.go]) *)

Definition GetDefaultEnabledPlugins : EnabledPlugins := {|
  FilterPlugins := [ names.APIResources; names.TaintToleration; names.PlacementFilter;
                     names.ClusterAffinity; names.ClusterReady; names.ClusterTerminating;
                     names.ClusterEvicted ];
  ScorePlugins := [ names.TaintToleration; names.ClusterResourcesBalancedAllocation;
                    names.ClusterResourcesLeastAllocated; names.ClusterAffinity ];
  SelectPlugins := [ names.PrioritySort; names.MaxCluster ];
  ReplicasPlugins := [ names.ClusterCapacityWeight ]
|}.

(** ** Profiles *)

(** A plugin of a profile; [Type] and [Weight] are never read. *)
Record ProfilePlugin := { pp_Name : string }.
Record PluginSet := { ps_Enabled : list ProfilePlugin; ps_Disabled : list ProfilePlugin }.
Record Plugins := { pl_Filter : PluginSet; pl_Score : PluginSet; pl_Select : PluginSet }.
Record SchedulingProfile := { sp_profile_Name : string; sp_Plugins : option Plugins }.

Definition DefaultSchedulerName : string := "default-scheduler".

Definition ProfileName (s : option SchedulingProfile) : string :=
  match s with None => DefaultSchedulerName | Some s => sp_profile_Name s end.

Definition reconcileExtPoint (enabled : list string) (pluginSet : PluginSet) : list string :=
  let disabledSet : gset string := foldl (fun s p => {[pp_Name p]} ∪ s) ∅ (ps_Disabled pluginSet) in
  let result :=
    if negb (bool_decide ("*"%string ∈ disabledSet)) then
      foldl (fun acc e => if negb (bool_decide (e ∈ disabledSet)) then acc ++ [e] else acc) [] enabled
    else [] in
  foldl (fun acc p => acc ++ [pp_Name p]) result (ps_Enabled pluginSet).

Definition applyProfile (base : EnabledPlugins) (profile : SchedulingProfile) : EnabledPlugins :=
  match sp_Plugins profile with
  | None => base
  | Some plugins => {|
      FilterPlugins := reconcileExtPoint (FilterPlugins base) (pl_Filter plugins);
      ScorePlugins := reconcileExtPoint (ScorePlugins base) (pl_Score plugins);
      SelectPlugins := reconcileExtPoint (SelectPlugins base) (pl_Select plugins);
      ReplicasPlugins := ReplicasPlugins base |}
  end.

(** The plugins that [createFramework] enables. *)
Definition enabledPluginsFor (enableKatalystSupport : bool) (profile : option SchedulingProfile)
    (replicasPlugin : list string) : EnabledPlugins :=
  let ep := GetDefaultEnabledPlugins in
  let ep :=
    if enableKatalystSupport then
      {| FilterPlugins := FilterPlugins ep ++ [names.KatalystResourcesExist];
         ScorePlugins := ScorePlugins ep; SelectPlugins := SelectPlugins ep;
         ReplicasPlugins := ReplicasPlugins ep |}
    else ep in
  let ep :=
    match replicasPlugin with
    | [] => ep
    | _ => {| FilterPlugins := FilterPlugins ep; ScorePlugins := ScorePlugins ep;
              SelectPlugins := SelectPlugins ep; ReplicasPlugins := replicasPlugin |}
    end in
  match profile with
  | None => ep
  | Some profile => applyProfile ep profile
  end.

Section CreateFramework.
Context `{K : Kubernetes} `{R : GoRuntime} `{F : FloatRuntime} {Handle : Type}.
Variable now : string -> Time.
Variable fmt : gmap string ResourceList -> string.

(** The scheduler's [enableKatalystSupport] and [webhookPlugins] are arguments. *)
Definition createFramework (enableKatalystSupport : bool) (webhookPlugins : gmap string Plugin)
    (profile : option SchedulingProfile) (handle : Handle) (replicasPlugin : list string)
    : frameworkImpl + string :=
  let enabledPlugins := enabledPluginsFor enableKatalystSupport profile replicasPlugin in
  match Merge ∅ (inTreeRegistry now fmt) with
  | (_, Some err) => inr ("failed to merge in-tree plugin registry into empty registry: " ++ err)%string
  | (registry, None) =>
      match webhookPluginRegistry webhookPlugins with
      | (_, Some err) => inr ("failed to get webhook plugin registry: " ++ err)%string
      | (webhookRegistry, None) =>
          match Merge registry webhookRegistry with
          | (_, Some err) => inr ("failed to merge webhook plugin registry: " ++ err)%string
          | (registry, None) => NewFramework registry handle enabledPlugins (ProfileName profile)
          end
      end
  end.
End CreateFramework.
