(* ===== verification/ProfileTheorems.v ===== *)
(** * The theorems about profiles and the default framework *)

From Stdlib Require Import ZArith Lia String.
From S2P Require Import Prelude K8s Types Resources FilterPlugins FilterTheorems Float64 ScorePlugins Runtime.
From S2P Require Import RuntimeTheorems GenericScheduler GenericSchedulerTheorems Webhook Profile.
From S2P Require Rsp RspTheorems BinPack.

(** ** Profiles *)

Lemma foldl_append_fmap {A B} (f : A -> B) (l : list A) acc :
  foldl (fun acc x => acc ++ [f x]) acc l = acc ++ (f <$> l).
Proof.
  revert acc. induction l as [|x l IH]; intros acc; simpl; [by rewrite app_nil_r|].
  by rewrite IH, <- app_assoc.
Qed.

Lemma foldl_union_names (l : list ProfilePlugin) (s : gset string) k :
  k ∈ foldl (fun s p => {[pp_Name p]} ∪ s) s l <-> k ∈ s \/ k ∈ pp_Name <$> l.
Proof.
  revert s. induction l as [|p l IH]; intros s; simpl.
  - split; [by left|intros [?|?%elem_of_nil]; done].
  - rewrite IH, elem_of_union, elem_of_singleton. simpl. rewrite elem_of_cons. tauto.
Qed.

Lemma reconcileExtPoint_value enabled ps :
  reconcileExtPoint enabled ps =
  (if decide ("*"%string ∈ pp_Name <$> ps_Disabled ps) then []
   else filter (fun e => e ∉ pp_Name <$> ps_Disabled ps) enabled) ++ (pp_Name <$> ps_Enabled ps).
Proof.
  unfold reconcileExtPoint. rewrite foldl_append_fmap. f_equal.
  assert (Hin : forall k, k ∈ foldl (fun s p => {[pp_Name p]} ∪ s) (∅ : gset string) (ps_Disabled ps) <->
    k ∈ pp_Name <$> ps_Disabled ps).
  { intros k. rewrite foldl_union_names. set_solver. }
  set (disabled := foldl _ _ _) in *. clearbody disabled.
  case_bool_decide as Hs; rewrite Hin in Hs; case_decide; try done. simpl.
  rewrite foldl_append_filter. simpl. apply list_filter_iff. intros e.
  by rewrite negb_true_iff, bool_decide_eq_false, Hin.
Qed.

(** A profile removes the disabled plugins of an extension point, all of
    them for the name "*", keeps the order of the others and appends the
    enabled ones. *)
Theorem reconcileExtPoint_spec enabled ps :
  reconcileExtPoint enabled ps =
  (if decide ("*"%string ∈ pp_Name <$> ps_Disabled ps) then []
   else filter (fun e => e ∉ pp_Name <$> ps_Disabled ps) enabled) ++ (pp_Name <$> ps_Enabled ps).
Proof. apply reconcileExtPoint_value. Qed.

(** ** Initialisation of the framework *)

Section Create.
Context `{K : Kubernetes} `{R : GoRuntime} `{F : FloatRuntime} {Handle : Type}.
Context (now : string -> Time) (fmt : gmap string ResourceList -> string).

(** A factory that returns [p]. *)
Definition constant (p : Plugin) : PluginFactory Handle := fun _ => inl p.

Definition inTree : gmap string Plugin := list_to_map (inTreePlugins now fmt).

Lemma inTreeRegistry_constant : inTreeRegistry now fmt = constant <$> inTree.
Proof using Type.
  unfold inTreeRegistry, inTree. rewrite <- list_to_map_fmap. f_equal.
Qed.

Lemma registerWebhooks_Merge (r : gmap string (PluginFactory Handle)) l :
  registerWebhooks r l = Merge_loop r (prod_map id constant <$> l).
Proof using Type.
  revert r. induction l as [|[n p] l IH]; intros r; [done|].
  cbn [registerWebhooks fmap list_fmap Merge_loop prod_map]. change (fun _ => inl p) with (constant p). cbn [id fst snd].
  destruct (Register r n (constant p)) as [r' [e|]]; [done|]. apply IH.
Qed.

Lemma webhookPluginRegistry_ok (wh : gmap string Plugin) :
  webhookPluginRegistry wh = (constant <$> wh, None).
Proof using Type.
  unfold webhookPluginRegistry. rewrite registerWebhooks_Merge. apply Merge_loop_spec.
  - rewrite <- list_fmap_compose. change (fst ∘ prod_map id constant) with (@fst string Plugin).
    apply NoDup_range_map_fst.
  - split; [intros k _; exact (lookup_empty (M := gmap string) k)|]. rewrite (map_empty_union (M := gmap string)).
    rewrite (list_to_map_fmap constant (range_map wh)). f_equal.
    rewrite (list_to_map_proper (range_map wh) (map_to_list wh));
      [by rewrite list_to_map_to_list|apply NoDup_range_map_fst|apply range_map_perm].
Qed.

(** The enabled plugins are the initialised ones. *)
Lemma initPlugins_constant (l : list (string * Plugin)) handle ep m :
  initPlugins (prod_map id constant <$> l) handle ep m =
  inl (foldl (fun m e => if IsPluginEnabled ep e.1 then <[e.1 := e.2]> m else m) m l).
Proof using Type.
  revert m. induction l as [|[n p] l IH]; intros m; [done|]. simpl.
  destruct (IsPluginEnabled ep n); simpl; apply IH.
Qed.

Lemma range_map_fmap_constant (all : gmap string Plugin) :
  exists l, range_map (constant <$> all) = prod_map id constant <$> l /\ NoDup l.*1 /\
     forall n p, (n, p) ∈ l <-> all !! n = Some p.
Proof using Type.
  pose proof (range_map_perm _ (constant <$> all)) as Hp. rewrite map_to_list_fmap in Hp.
  apply Permutation_map_inv in Hp as (l & Hl & Hp). exists l. split_and!.
  - rewrite Hl. apply map_ext. by intros [n p].
  - rewrite <- Hp. apply NoDup_fst_map_to_list.
  - intros n p. rewrite <- Hp. apply elem_of_map_to_list.
Qed.

Lemma initPlugins_spec (all : gmap string Plugin) handle ep :
  exists m, initPlugins (range_map (constant <$> all)) handle ep ∅ = inl m /\
     forall n, m !! n = if IsPluginEnabled ep n then all !! n else None.
Proof using Type.
  destruct (range_map_fmap_constant all) as (l & -> & Hnd & Hl). rewrite initPlugins_constant.
  eexists. split; [done|]. intros n.
  rewrite (foldl_point_list (S := gmap string Plugin) (fun (m : gmap string Plugin) k => m !! k)
    (fun k o p => if IsPluginEnabled ep k then Some p else o)); [|
    intros s k v n'; simpl; destruct (IsPluginEnabled ep k), (decide (n' = k)) as [->|Hne];
      rewrite ?lookup_insert_eq, ?lookup_insert_ne by done; done|done].
  rewrite lookup_empty. destruct (list_to_map l !! n) as [p|] eqn:Hn.
  - apply elem_of_list_to_map_2, Hl in Hn. rewrite Hn. done.
  - destruct (all !! n) as [p|] eqn:Hp; [|by destruct (IsPluginEnabled ep n)].
    apply Hl in Hp. by rewrite (elem_of_list_to_map_1 l n p Hnd Hp) in Hn.
Qed.

Lemma IsPluginEnabled_elem ep n :
  IsPluginEnabled ep n = true <->
  n ∈ FilterPlugins ep \/ n ∈ ScorePlugins ep \/ n ∈ SelectPlugins ep \/ n ∈ ReplicasPlugins ep.
Proof using Type. clear now fmt. unfold IsPluginEnabled. repeat case_bool_decide; naive_solver. Qed.

(** For enabled names the initialised plugins are as good as all plugins. *)
Lemma provides_enabled {T} (implements : Plugin -> option T) (all m : gmap string Plugin) ep names l :
  (forall n, m !! n = if IsPluginEnabled ep n then all !! n else None) ->
  (forall n, n ∈ names -> IsPluginEnabled ep n = true) ->
  Forall2 (provides implements m) names l <-> Forall2 (provides implements all) names l.
Proof using Type.
  intros Hm Hen. split; intros Hf; induction Hf as [|n p names l Hnp Hf IH]; constructor.
  - unfold provides in *. rewrite Hm, Hen in Hnp by left. done.
  - apply IH. intros q Hq. apply Hen. by right.
  - unfold provides in *. rewrite Hm, Hen by left. done.
  - apply IH. intros q Hq. apply Hen. by right.
Qed.

(** [f] has the plugins [ep] names, in that order, out of [all]. *)
Record configured (all : gmap string Plugin) (ep : EnabledPlugins) (f : frameworkImpl) : Prop := {
  cf_filter : NoDup (FilterPlugins ep) /\
     Forall2 (provides asFilterPlugin all) (FilterPlugins ep) (filterPlugins f);
  cf_score : NoDup (ScorePlugins ep) /\
     Forall2 (provides asScorePlugin all) (ScorePlugins ep) (scorePlugins f);
  cf_select : NoDup (SelectPlugins ep) /\
     Forall2 (provides asSelectPlugin all) (SelectPlugins ep) (selectPlugins f);
  cf_replicas : NoDup (ReplicasPlugins ep) /\
     Forall2 (provides asReplicasPlugin all) (ReplicasPlugins ep) (replicasPlugins f)
}.

Lemma NewFramework_iff (all : gmap string Plugin) (handle : Handle) ep name f :
  NewFramework (constant <$> all) handle ep name = inl f <-> configured all ep f /\ profileName f = name.
Proof using Type.
  clear now fmt. unfold NewFramework. destruct (initPlugins_spec all handle ep) as (m & -> & Hm).
  assert (Hen := fun n => proj2 (IsPluginEnabled_elem ep n)).
  assert (Hpe : forall T (implements : Plugin -> option T) names l,
    (forall n, n ∈ names -> n ∈ FilterPlugins ep \/ n ∈ ScorePlugins ep \/
      n ∈ SelectPlugins ep \/ n ∈ ReplicasPlugins ep) ->
    Forall2 (provides implements m) names l <-> Forall2 (provides implements all) names l).
  { intros T impl names l Hn. apply provides_enabled with ep; [done|]. intros n Hin. by apply Hen, Hn. }
  split.
  - destruct (addPlugins _ asFilterPlugin _ m) as [fs|] eqn:E1; [|done].
    destruct (addPlugins _ asScorePlugin _ m) as [ss|] eqn:E2; [|done].
    destruct (addPlugins _ asSelectPlugin _ m) as [sels|] eqn:E3; [|done].
    destruct (addPlugins _ asReplicasPlugin _ m) as [rs|] eqn:E4; [|done].
    intros [= <-]. apply addPlugins_iff in E1 as [? E1], E2 as [? E2], E3 as [? E3], E4 as [? E4].
    rewrite Hpe in E1, E2, E3, E4 by tauto. by repeat split.
  - intros [[[N1 C1] [N2 C2] [N3 C3] [N4 C4]] <-].
    rewrite <- Hpe in C1, C2, C3, C4 by tauto.
    rewrite (proj2 (addPlugins_iff _ _ _ _ _) (conj N1 C1)), (proj2 (addPlugins_iff _ _ _ _ _) (conj N2 C2)),
      (proj2 (addPlugins_iff _ _ _ _ _) (conj N3 C3)), (proj2 (addPlugins_iff _ _ _ _ _) (conj N4 C4)).
    by destruct f.
Qed.

Lemma createFramework_iff kat (wh : gmap string Plugin) profile (handle : Handle) rps f :
  createFramework now fmt kat wh profile handle rps = inl f <->
  inTree ##ₘ wh /\ configured (inTree ∪ wh) (enabledPluginsFor kat profile rps) f /\
  profileName f = ProfileName profile.
Proof using Type.
  unfold createFramework. rewrite inTreeRegistry_constant, webhookPluginRegistry_ok.
  assert (Merge ∅ (constant <$> inTree) = (constant <$> inTree, None)) as ->.
  { apply Merge_iff. split; [apply map_disjoint_empty_l|by rewrite map_empty_union]. }
  destruct (Merge (constant <$> inTree) (constant <$> wh)) as [reg [e|]] eqn:HM.
  - split; [done|]. intros (Hd & _). exfalso.
    assert (HM' : Merge (constant <$> inTree) (constant <$> wh) =
      ((constant <$> inTree) ∪ (constant <$> wh), None)); [|congruence].
    apply Merge_iff. split; [by apply map_disjoint_fmap|done].
  - apply Merge_iff in HM as [Hd ->]. rewrite <- map_fmap_union, NewFramework_iff.
    apply map_disjoint_fmap in Hd. tauto.
Qed.

(** [createFramework] succeeds exactly when no webhook is named like an
    in-tree plugin and, at each extension point, the enabled names are
    distinct and name plugins of the right type; the framework then has these
    plugins in that order, whatever the iteration order of the registries. *)
Theorem createFramework_spec kat (wh : gmap string Plugin) profile (handle : Handle) rps f :
  createFramework now fmt kat wh profile handle rps = inl f <->
  inTree ##ₘ wh /\ configured (inTree ∪ wh) (enabledPluginsFor kat profile rps) f /\
  profileName f = ProfileName profile.
Proof using Type. apply createFramework_iff. Qed.
End Create.

(** ** The plugins of the repository keep the contract of the runtime *)

Section Lawful.
Context `{K : Kubernetes} `{R : GoRuntime} `{F : FloatRuntime}.
Context (now : string -> Time) (fmt : gmap string ResourceList -> string).

Definition lawful_plugin (p : Plugin) : Prop :=
  (forall q, asScorePlugin p = Some q -> lawful_score q) /\
  (forall q, asSelectPlugin p = Some q -> lawful_select q) /\
  (forall q, asReplicasPlugin p = Some q -> lawful_replicas q).

Lemma DefaultNormalizeScore_length max rev l : length (DefaultNormalizeScore max rev l) = length l.
Proof using Type.
  unfold DefaultNormalizeScore. cbv zeta. destruct (_ =? 0); [destruct rev|]; by rewrite ?length_fmap.
Qed.

Lemma lawful_filterOnly n f : lawful_plugin (filterOnly n f).
Proof using Type. by split_and!; intros q Hq; discriminate Hq. Qed.

Lemma lawful_scoreOnly n f : lawful_plugin (scoreOnly n f).
Proof using Type. split_and!; [|intros q Hq; discriminate Hq..]. intros q [= <-] normalize ???. done. Qed.

Lemma lawful_filterAndScore n f s rev :
  lawful_plugin (filterAndScore n f s (DefaultNormalizeScore MaxClusterScore rev)).
Proof using Type.
  split_and!; [|intros q Hq; discriminate Hq..]. intros q [= <-] normalize scores scores' res [= <-] [= <- _].
  apply DefaultNormalizeScore_length.
Qed.

Lemma lawful_selectOnly n f :
  (forall su scores s, s ∈ (f su scores).1 -> cs_Cluster s ∈ cs_Cluster <$> scores) ->
  lawful_plugin (selectOnly n f).
Proof using Type.
  intros Hf. split_and!; [intros q Hq; discriminate Hq| |intros q Hq; discriminate Hq].
  intros q [= <-] su scores scores' res s Hrun _ Hs. simpl in Hrun.
  specialize (Hf su scores s). destruct (f su scores) as [l r]. injection Hrun as <- <-. exact (Hf Hs).
Qed.

Lemma lawful_replicasOnly n f :
  (forall su clusters l r x, f su clusters = Some (l, r) -> x ∈ l -> cr_Cluster x ∈ clusters) ->
  lawful_plugin (replicasOnly n f).
Proof using Type.
  intros Hf. split_and!; [intros q Hq; discriminate Hq|intros q Hq; discriminate Hq|].
  intros q [= <-] su clusters l res x Hrun _ Hx. simpl in Hrun.
  destruct (f su clusters) as [[l' r]|] eqn:E; [|done]. injection Hrun as <- <-. exact (Hf _ _ _ _ _ E Hx).
Qed.

Lemma PrioritySort_clusters su scores s :
  s ∈ (PrioritySort_SelectClusters su scores).1 -> cs_Cluster s ∈ cs_Cluster <$> scores.
Proof using Type.
  unfold PrioritySort_SelectClusters. simpl. rewrite elem_of_sort_slice.
  destruct (_ || _); [|apply list_elem_of_fmap_2].
  intros (s' & -> & Hs')%list_elem_of_fmap. simpl. by apply list_elem_of_fmap_2.
Qed.

Lemma MaxCluster_clusters su scores s :
  s ∈ (MaxCluster_SelectClusters su scores).1 -> cs_Cluster s ∈ cs_Cluster <$> scores.
Proof using Type.
  unfold MaxCluster_SelectClusters. destruct (match MaxClusters su with Some m => m <? 0 | None => false end); simpl.
  - by intros ?%elem_of_nil.
  - intros Hs. apply elem_of_take in Hs as (i & Hi & _). apply list_elem_of_lookup_2 in Hi.
    rewrite elem_of_sort_slice in Hi. by apply list_elem_of_fmap_2.
Qed.

Lemma Rsp_clusters su clusters l r x :
  Rsp.ReplicaScheduling fmt su clusters = Some (l, r) -> x ∈ l -> cr_Cluster x ∈ clusters.
Proof using Type.
  unfold Rsp.ReplicaScheduling. destruct (Rsp.schedulingWeightsOf _ _ _); simpl.
  - intros ([plan ovf] & _ & Hl)%bind_Some Hx. cbv beta iota zeta in Hl. injection Hl as <- _.
    by apply RspTheorems.elem_of_clusterReplicasList in Hx as [? _].
  - intros [= <- _]. by intros ?%elem_of_nil.
Qed.

Lemma BinPack_clusters su clusters l r x :
  Some (BinPack.ReplicaScheduling su clusters) = Some (l, r) -> x ∈ l -> cr_Cluster x ∈ clusters.
Proof using Type.
  unfold BinPack.ReplicaScheduling. destruct (BinPack.Plan _ _ _ _ _ _ _ _ _) as [plan ovf].
  intros [= <- _] Hx. by apply RspTheorems.elem_of_clusterReplicasList in Hx as [? _].
Qed.

Lemma inTree_lawful n p : (n, p) ∈ inTreePlugins now fmt -> lawful_plugin p.
Proof using Type.
  unfold inTreePlugins. intros Hp.
  repeat (apply elem_of_cons in Hp as [[= -> ->]|Hp];
    [first [apply lawful_filterOnly|apply lawful_scoreOnly|apply lawful_filterAndScore
           |apply lawful_selectOnly, PrioritySort_clusters|apply lawful_selectOnly, MaxCluster_clusters
           |apply lawful_replicasOnly, Rsp_clusters|apply lawful_replicasOnly, BinPack_clusters]|]).
  by apply elem_of_nil in Hp.
Qed.

Lemma clusterMapOf_Some scores k s : clusterMapOf scores !! k = Some s -> s ∈ scores.
Proof using Type.
  unfold clusterMapOf.
  assert (Hg : forall m : gmap string ClusterScore,
    foldl (fun m score => <[c_Name (cs_Cluster score) := score]> m) m scores !! k = Some s ->
    m !! k = Some s \/ s ∈ scores).
  { induction scores as [|x l IH]; intros m; simpl; [by left|]. intros [H|H]%IH; [|right; by right].
    apply lookup_insert_Some in H as [[_ <-]|[_ H]]; [right; left|by left]. }
  intros [H|H]%Hg; [by rewrite lookup_empty in H|done].
Qed.

Lemma pickSelected_sub m names acc l s :
  pickSelected m names acc = inl l -> s ∈ l -> s ∈ acc \/ exists k, m !! k = Some s.
Proof using Type.
  revert acc. induction names as [|n names IH]; intros acc; simpl; [intros [= <-]; by left|].
  destruct (m !! n) as [x|] eqn:Hn; [|done]. intros Hl Hs.
  destruct (IH _ Hl Hs) as [Hin|]; [|by right].
  apply elem_of_app in Hin as [|Hin]; [by left|]. apply list_elem_of_singleton in Hin as ->. right. by exists n.
Qed.

Lemma Webhook_clusters `{W : !WebhookLibraries} (p : WebhookPlugin) su scores s :
  s ∈ (Webhook_SelectClusters p su scores).1 -> s ∈ scores.
Proof using Type.
  unfold Webhook_SelectClusters. destruct (String.eqb _ _); [by intros ?%elem_of_nil|].
  destruct (doRequest _ _ _ _) as [resp|]; [|by intros ?%elem_of_nil].
  destruct (negb _); [by intros ?%elem_of_nil|].
  destruct (pickSelected _ _ _) as [sel|] eqn:E; [|by intros ?%elem_of_nil].
  intros Hs. destruct (pickSelected_sub _ _ _ _ s E Hs) as [?%elem_of_nil|[k Hk]]; [done|].
  by eapply clusterMapOf_Some.
Qed.

Lemma webhook_lawful `{W : !WebhookLibraries} (p : WebhookPlugin) : lawful_plugin (webhookAsPlugin p).
Proof using Type.
  split_and!; [| |intros q Hq; discriminate Hq].
  - intros q [= <-] normalize scores scores' res [= <-] [= <- _]. apply DefaultNormalizeScore_length.
  - intros q [= <-] su scores scores' res s Hrun _ Hs. simpl in Hrun.
    pose proof (Webhook_clusters p su scores s) as Hw.
    destruct (Webhook_SelectClusters p su scores) as [l r]. injection Hrun as <- <-.
    by apply list_elem_of_fmap_2, Hw.
Qed.

Lemma configured_provides {T} (implements : Plugin -> option T) all names (l : list T) q :
  Forall2 (provides implements all) names l -> q ∈ l ->
  exists n p, all !! n = Some p /\ implements p = Some q.
Proof using Type.
  induction 1 as [|n x names l (p & Hn & Hp) Hf IH]; [by intros ?%elem_of_nil|].
  intros [->|Hq]%elem_of_cons; [by exists n, p|auto].
Qed.

Lemma configured_lawful all ep f :
  (forall n p, all !! n = Some p -> lawful_plugin p) -> configured all ep f -> LawfulPlugins f.
Proof using Type.
  intros Hall [[_ C1] [_ C2] [_ C3] [_ C4]]. split; intros q Hq.
  - eapply configured_provides in Hq as (n & p & Hn & Hp); [|exact C2]. by apply (Hall n p).
  - eapply configured_provides in Hq as (n & p & Hn & Hp); [|exact C3]. by apply (Hall n p).
  - eapply configured_provides in Hq as (n & p & Hn & Hp); [|exact C4]. by apply (Hall n p).
Qed.

(** The webhook plugins that the scheduler stores. *)
Definition webhooks `{W : !WebhookLibraries} (wh : gmap string Plugin) : Prop :=
  forall n p, wh !! n = Some p -> exists w, p = webhookAsPlugin w.

Lemma all_lawful `{W : !WebhookLibraries} wh n p : webhooks wh ->
  (inTree now fmt ∪ wh) !! n = Some p -> lawful_plugin p.
Proof using Type.
  intros Hwh [Hp|[_ Hp]]%lookup_union_Some_raw.
  - apply elem_of_list_to_map_2 in Hp. by eapply inTree_lawful.
  - apply Hwh in Hp as [w ->]. apply webhook_lawful.
Qed.

Lemma created_lawful `{W : !WebhookLibraries} {Handle} kat wh profile (handle : Handle) rps f :
  webhooks wh -> createFramework now fmt kat wh profile handle rps = inl f ->
  LawfulFramework (asFramework f).
Proof using Type.
  intros Hwh Hf. apply createFramework_iff in Hf as (_ & Hc & _). apply asFramework_lawful.
  eapply configured_lawful; [|exact Hc]. intros n p. by apply all_lawful.
Qed.

(** Every framework that [createFramework] builds from the in-tree plugins
    and webhook plugins, under any profile, keeps the contract that the
    scheduling algorithm relies on. *)
Theorem createFramework_lawful `{W : !WebhookLibraries} {Handle} kat wh profile (handle : Handle) rps f :
  webhooks wh -> createFramework now fmt kat wh profile handle rps = inl f ->
  LawfulFramework (asFramework f).
Proof using Type. apply created_lawful. Qed.

(** ** The default framework *)

Lemma inTree_names : NoDup (inTreePlugins now fmt).*1.
Proof using Type. apply (bool_decide_eq_true _). vm_compute. reflexivity. Qed.

Lemma inTree_lookup n p : (n, p) ∈ inTreePlugins now fmt -> inTree now fmt !! n = Some p.
Proof using Type. apply elem_of_list_to_map_1, inTree_names. Qed.

(** A filter plugin of the in-tree registry that is enabled accepts every
    cluster that passes. *)
Lemma passes_filter kat wh profile rps f su c n p :
  configured (inTree now fmt ∪ wh) (enabledPluginsFor kat profile rps) f ->
  passes (asFramework f) su c -> n ∈ FilterPlugins (enabledPluginsFor kat profile rps) ->
  (n, p) ∈ inTreePlugins now fmt ->
  forall flt, Filter p = Some flt -> exists r, flt su c = Returns r /\ IsSuccess r = true.
Proof using Type.
  intros [[_ Hf] _ _ _] (r & Hr & Hs) Hn Hp flt Hflt.
  apply inTree_lookup in Hp.
  apply list_elem_of_lookup in Hn as [i Hi].
  destruct (Forall2_lookup_l _ _ _ _ _ Hf Hi) as (pl & Hpl & (pg & Hpg & Has)).
  rewrite (lookup_union_Some_l _ _ _ _ Hp) in Hpg. injection Hpg as <-.
  apply list_elem_of_lookup_2 in Hpl.
  destruct (runFilterPlugins_accepts _ _ _ _ Hr Hs pl Hpl) as (r' & Hr' & Hs').
  unfold asFilterPlugin in Has. rewrite Hflt in Has. injection Has as <-. by exists r'.
Qed.

Lemma passes_filterOnly kat wh profile rps f su c n flt :
  configured (inTree now fmt ∪ wh) (enabledPluginsFor kat profile rps) f ->
  passes (asFramework f) su c -> n ∈ FilterPlugins (enabledPluginsFor kat profile rps) ->
  (n, filterOnly n (fun su cluster => mret (flt su cluster))) ∈ inTreePlugins now fmt \/
  (exists score norm, (n, filterAndScore n flt score norm) ∈ inTreePlugins now fmt) ->
  code (flt (Some su) (Some c)) = Success.
Proof using Type.
  intros Hc Hp Hn Hin.
  assert (exists r, (Some <$> (mret (flt (Some su) (Some c)) : may_panic Result)) = Returns r /\
    IsSuccess r = true) as (r & Hr1 & Hr).
  { destruct Hin as [Hin|(score & norm & Hin)]; pose proof (passes_filter _ _ _ _ _ _ _ _ _ Hc Hp Hn Hin) as H.
    - exact (H _ eq_refl).
    - exact (H _ eq_refl). }
  injection Hr1 as <-. simpl in Hr. by apply bool_decide_eq_true in Hr.
Qed.

(** Membership in a concrete list. *)
Ltac pick_member := repeat (solve [left] || right).

(** What the default filters ask of a cluster. *)
Record eligible (su : SchedulingUnit) (c : FederatedCluster) : Prop := {
  el_api : exists r, r ∈ APIResourceTypes (Status c) /\
    {| gvk_Group := ar_Group r; gvk_Version := ar_Version r; gvk_Kind := ar_Kind r |} =
    WithKind (su_GroupVersion su) (su_Kind su);
  el_taints : forall t, t ∈ Taints c -> relevant_taint su c t -> tolerates su t;
  el_placement : ClusterNames su <> ∅ -> c_Name c ∈ ClusterNames su;
  el_affinity : code (ClusterAffinity_Filter (Some su) (Some c)) = Success;
  el_ready : is_Some (CurrentClusters su !! c_Name c) \/ IsClusterReady (Status c) = true;
  el_alive : Time_IsZero (c_DeletionTimestamp c) = true;
  el_evicted : forall info u, cm_Info (CustomMigration su) = Some info -> u ∈ UnavailableClusters info ->
    uc_Cluster u = c_Name c -> uc_ValidUntil u <= now (c_Name c)
}.

Lemma default_filters kat rps profile : sp_Plugins <$> profile = Some None \/ profile = None ->
  forall n, n ∈ FilterPlugins GetDefaultEnabledPlugins ->
  n ∈ FilterPlugins (enabledPluginsFor kat profile rps).
Proof using Type.
  clear now fmt. intros Hp n Hn.
  assert (FilterPlugins (enabledPluginsFor kat profile rps) =
    FilterPlugins (enabledPluginsFor kat None rps)) as ->.
  { destruct profile as [[name pls]|]; [|done]. destruct Hp as [[= ->]|]; done. }
  unfold enabledPluginsFor. destruct kat, rps; simpl in *; try done;
    rewrite !elem_of_cons in *; naive_solver.
Qed.

Lemma default_eligible kat wh profile rps f su c :
  sp_Plugins <$> profile = Some None \/ profile = None ->
  configured (inTree now fmt ∪ wh) (enabledPluginsFor kat profile rps) f ->
  passes (asFramework f) su c -> eligible su c.
Proof using Type.
  intros Hprof Hc Hp.
  assert (Hacc : forall n flt, n ∈ FilterPlugins GetDefaultEnabledPlugins ->
    (n, filterOnly n (fun su cluster => mret (flt su cluster))) ∈ inTreePlugins now fmt \/
    (exists score norm, (n, filterAndScore n flt score norm) ∈ inTreePlugins now fmt) ->
    code (flt (Some su) (Some c)) = Success).
  { intros n flt Hn. eapply passes_filterOnly; [done..|]. by apply default_filters. }
  unfold inTreePlugins, GetDefaultEnabledPlugins in Hacc. simpl FilterPlugins in Hacc.
  assert (Ha := Hacc names.APIResources APIResources_Filter ltac:(pick_member) ltac:(left; pick_member)).
  assert (Ht := Hacc names.TaintToleration TaintToleration_Filter ltac:(pick_member)
    ltac:(right; do 2 eexists; pick_member)).
  assert (Hl := Hacc names.PlacementFilter PlacementFilter_Filter ltac:(pick_member) ltac:(left; pick_member)).
  assert (Hf := Hacc names.ClusterAffinity ClusterAffinity_Filter ltac:(pick_member)
    ltac:(right; do 2 eexists; pick_member)).
  assert (Hr := Hacc names.ClusterReady ClusterReady_Filter ltac:(pick_member) ltac:(left; pick_member)).
  assert (Hd := Hacc names.ClusterTerminating ClusterTerminating_Filter ltac:(pick_member)
    ltac:(left; pick_member)).
  assert (He := Hacc names.ClusterEvicted (evictedFilter now) ltac:(pick_member) ltac:(left; pick_member)).
  clear Hacc. split.
  - unfold APIResources_Filter, prechecked in Ha. simpl in Ha.
    destruct (existsb _ _) eqn:E; [|done]. apply existsb_exists in E as (r & Hin & E).
    apply bool_decide_eq_true in E. exists r. split; [by apply list_elem_of_In|done].
  - by destruct (TaintToleration_Filter_cases su c) as [[_ H]|[H _]]; [|congruence].
  - unfold PlacementFilter_Filter, prechecked in Hl. simpl in Hl. intros Hne.
    rewrite bool_decide_eq_false_2 in Hl by done. case_bool_decide as E; [done|].
    by destruct (decide (c_Name c ∈ ClusterNames su)).
  - done.
  - unfold ClusterReady_Filter, prechecked, isScheduled in Hr. simpl in Hr.
    case_bool_decide; [by left|right]. simpl in Hr. by destruct (IsClusterReady _).
  - unfold ClusterTerminating_Filter, prechecked in Hd. simpl in Hd. by destruct (Time_IsZero _).
  - unfold evictedFilter, ClusterEvicted_Filter, prechecked in He. simpl in He.
    intros info u Hinfo Hu Hname. rewrite Hinfo in He.
    destruct (existsb _ _) eqn:E; [done|]. apply not_true_iff_false in E. rewrite existsb_exists in E.
    apply Z.le_ngt. intros Hlt. apply E. exists u. split; [by apply list_elem_of_In|].
    rewrite Hname, String.eqb_refl. simpl. by apply Z.ltb_lt.
Qed.

(** With the default profile every cluster that [Schedule] suggests for a
    unit that does not keep its clusters is one of the given clusters, supports
    the unit's API resource, has only tolerated taints, is in the placement and
    matches the affinity, is ready or already in use, and is neither
    terminating nor evicted. *)
Theorem default_Schedule_eligible `{W : !WebhookLibraries} {Handle} kat wh profile (handle : Handle) rps f su
    clusters result k v :
  sp_Plugins <$> profile = Some None \/ profile = None -> webhooks wh ->
  createFramework now fmt kat wh profile handle rps = inl f -> ~ keeps_clusters su ->
  Schedule (asFramework f) su clusters = Returns (inl result) -> SuggestedClusters result !! k = Some v ->
  exists c, c ∈ clusters /\ c_Name c = k /\ eligible su c.
Proof using Type.
  intros Hprof Hwh Hf Hst Hrun Hk. pose proof (created_lawful _ _ _ _ _ _ Hwh Hf) as Hlaw.
  destruct (Schedule_suggested _ _ _ _ _ _ Hst Hrun Hk) as (c & Hc & Hn & Hp & _).
  exists c. split_and!; [done..|]. apply createFramework_iff in Hf as (_ & Hconf & _).
  by eapply default_eligible.
Qed.
End Lawful.

(** ** Concrete inputs *)

Section Witnesses.
#[local] Existing Instance small_kubernetes.
#[local] Existing Instance small_runtime.
#[local] Existing Instance amd64_float.
#[local] Existing Instance small_webhook.

Definition at_noon (_ : string) : Time := 12.
Definition no_fmt (_ : gmap string ResourceList) : string := "".

Definition created : frameworkImpl + string :=
  createFramework at_noon no_fmt false ∅ None tt [].

Definition default_impl : frameworkImpl :=
  match created with inl f => f | inr _ => toy_impl end.

Lemma default_created : createFramework at_noon no_fmt false ∅ None tt [] = inl default_impl.
Proof.
  unfold default_impl. fold created.
  assert (H : match created with inl _ => true | inr _ => false end = true) by (vm_compute; reflexivity).
  by destruct created.
Qed.

Lemma no_webhooks : webhooks ∅.
Proof. intros n p H. by rewrite lookup_empty in H. Qed.

Lemma createFramework_lawful_witness : LawfulFramework (asFramework default_impl).
Proof. exact (createFramework_lawful at_noon no_fmt false ∅ None tt [] default_impl no_webhooks default_created). Defined.

(** A ready cluster that serves deployments. *)
Definition ready_cluster (n : string) (cpu : Z) : FederatedCluster := {|
  c_Name := n; c_Labels := ∅; c_Annotations := ∅; c_Finalizers := []; c_DeletionTimestamp := None; Taints := [];
  Status := {| Conditions := [ {| cc_Type := ClusterReadyCondition; cc_Status := "True" |} ];
               APIResourceTypes := [ {| ar_Group := "apps"; ar_Version := "v1"; ar_Kind := "Deployment";
                                  ar_PluralName := "deployments"; ar_Scope := "Namespaced" |} ];
               JoinPerformed := true;
               st_Resources := {| SchedulableNodes := None; Allocatable := RspTheorems.cpus 8;
                                  Available := RspTheorems.cpus cpu |} |}
|}.

(** Two ready clusters and one without conditions. *)
Definition three_clusters : list FederatedCluster :=
  [ ready_cluster "a" 4; ready_cluster "b" 2; toy_cluster "c" ].

Lemma default_Schedule_eligible_witness :
  exists c, c ∈ three_clusters /\ c_Name c = "b"%string /\
    eligible at_noon (RspTheorems.weighted_unit false 0) c.
Proof.
  apply (default_Schedule_eligible at_noon no_fmt false ∅ None tt [] default_impl
    (RspTheorems.weighted_unit false 0) three_clusters
    {| SuggestedClusters := {[ "a"%string := Some 3; "b"%string := Some 6 ]} |} "b" (Some 6)).
  - right. reflexivity.
  - exact no_webhooks.
  - exact default_created.
  - intros [H _]. discriminate H.
  - vm_compute. reflexivity.
  - reflexivity.
Defined.
End Witnesses.
