(* ===== verification/Scheduler.v ===== *)
(** * The scheduler controller ([scheduler.go], [schedulingannotation.go])

    One reconciliation: read the object, its policy, profile and the clusters
    from the caches, decide with the triggers whether to schedule, schedule,
    write the result into the object and update it.  The caches and the API
    server are the fields of [Scheduler]; the result of a reconciliation is the
    worker result and the object sent to the API server, if any.  Events,
    metrics and logs are left out. *)

From Stdlib Require Import ZArith Lia String Ascii.
From S2P Require Import Prelude K8s Types ApiTypes Codecs FedObject Resources PodUtil Triggers SchedulingUnit.
From S2P Require Import Float64 Runtime GenericScheduler Webhook Profile.

Record auxiliarySchedulingInformation := {
  enableFollowerScheduling : bool;
  unschedulableThreshold : option Z
}.

Section Scheduler.
Context `{K : Kubernetes} `{R : GoRuntime} `{C : !Codecs} `{F : FloatRuntime}.

(** What a [Scheduler] reads and writes through its informers and clients. *)
Record Scheduler := {
  s_FederatedObject : string -> string -> FederatedObject + ApiError;
  s_ClusterFederatedObject : string -> FederatedObject + ApiError;
  s_PropagationPolicy : string -> string -> PropagationPolicy + ApiError;
  s_ClusterPropagationPolicy : string -> PropagationPolicy + ApiError;
  s_SchedulingProfile : string -> SchedulingProfile + ApiError;
  s_FederatedClusters : list FederatedCluster + ApiError;
  s_ResourceFTC : GroupVersionKind -> option FederatedTypeConfig;
  s_webhookPlugins : gmap string Plugin;
  s_enableKatalystSupport : bool;
  (** [Update] of the client: the error, if any. *)
  s_Update : FederatedObject -> option ApiError;
  (** [List] of the object listers: of one namespace or all, and of the
      cluster-scoped ones. *)
  s_ListFederatedObjects : option string -> Selector -> list FederatedObject + ApiError;
  s_ListClusterFederatedObjects : Selector -> list FederatedObject + ApiError
}.

(** The clock and the printer of [Profile]. *)
Variable now : string -> Time.
Variable fmt : gmap string ResourceList -> string.

(** ** Reading the caches *)

Definition GetFromLister (s : Scheduler) (namespace name : string) : FederatedObject + ApiError :=
  if String.eqb namespace "" then s_ClusterFederatedObject s name
  else s_FederatedObject s namespace name.

Definition policyFromStore (s : Scheduler) (qualifiedName : QualifiedName) : PropagationPolicy + ApiError :=
  if negb (String.eqb (qn_Namespace qualifiedName) "") then
    s_PropagationPolicy s (qn_Namespace qualifiedName) (qn_Name qualifiedName)
  else s_ClusterPropagationPolicy s (qn_Name qualifiedName).

(** ** Writing the result *)

Definition getSchedulingAnnotationValue (fedObject : FederatedObject) (result : ScheduleResult)
    : string + string :=
  match GetTemplateMetadata (fo_Spec fedObject) with
  | inr err => inr err
  | inl srcMeta => Marshal_Scheduling {|
      SourceGeneration := tm_Generation srcMeta;
      FederatedGeneration := fo_Generation fedObject;
      sch_Placement := SuggestedClusters result |}
  end.

Definition updatePendingControllers (ftc : FederatedTypeConfig) (fedObject : FederatedObject)
    (wasModified : bool) : (FederatedObject * bool) + string :=
  UpdatePendingControllers fedObject PrefixedGlobalSchedulerName wasModified (GetControllers ftc).

(** The replicas of the clusters that have a recommended number. *)
Definition desiredOverrides (result : ScheduleResult) : gmap string Z :=
  foldl (fun m '(clusterName, replicaCount) =>
    match replicaCount with Some n => <[clusterName := n]> m | None => m end)
    ∅ (range_map (SuggestedClusters result)).

(** The two annotations that follow from the policy. *)
Definition setFollowerScheduling (auxInfo : auxiliarySchedulingInformation) (annotations : gmap string string)
    : gmap string string * bool :=
  let value := if enableFollowerScheduling auxInfo then AnnotationValueTrue else AnnotationValueFalse in
  if negb (String.eqb (default ""%string (annotations !! EnableFollowerSchedulingAnnotation)) value) then
    (<[EnableFollowerSchedulingAnnotation := value]> annotations, true)
  else (annotations, false).

Definition setUnschedulableThreshold (auxInfo : auxiliarySchedulingInformation)
    (annotations : gmap string string) : gmap string string * bool :=
  match unschedulableThreshold auxInfo with
  | None =>
      if bool_decide (is_Some (annotations !! PodUnschedulableThresholdAnnotation)) then
        (delete PodUnschedulableThresholdAnnotation annotations, true)
      else (annotations, false)
  | Some threshold =>
      let value := Duration_String threshold in
      if negb (String.eqb (default ""%string (annotations !! PodUnschedulableThresholdAnnotation)) value) then
        (<[PodUnschedulableThresholdAnnotation := value]> annotations, true)
      else (annotations, false)
  end.

Definition applySchedulingResult (ftc : FederatedTypeConfig) (fedObject : FederatedObject)
    (result : ScheduleResult) (auxInfo : auxiliarySchedulingInformation) : (FederatedObject * bool) + string :=
  let clusterSet := ClusterSet result in
  let '(spec, placementUpdated) := SetControllerPlacement (fo_Spec fedObject) PrefixedGlobalSchedulerName
    (sort_slice String.ltb (elements clusterSet)) in
  let fedObject := setSpec fedObject spec in
  match UpdateReplicasOverride ftc fedObject (desiredOverrides result) with
  | inr err => inr err
  | inl (fedObject, overridesUpdated) =>
      let objectModified := placementUpdated || overridesUpdated in
      let '(annotations, modified1) := setFollowerScheduling auxInfo (fo_Annotations fedObject) in
      let '(annotations, modified2) := setUnschedulableThreshold auxInfo annotations in
      let annotationsModified := modified1 || modified2 in
      if objectModified then
        match getSchedulingAnnotationValue fedObject result with
        | inr err => inr err
        | inl value => inl (SetAnnotations fedObject (<[SchedulingAnnotation := value]> annotations), true)
        end
      else if annotationsModified then inl (SetAnnotations fedObject annotations, true)
      else inl (fedObject, false)
  end.

Definition persistSchedulingResult (s : Scheduler) (ftc : FederatedTypeConfig) (fedObject : FederatedObject)
    (result : ScheduleResult) (auxInfo : auxiliarySchedulingInformation)
    : WorkerResult * option FederatedObject :=
  match applySchedulingResult ftc fedObject result auxInfo with
  | inr _ => (StatusError, None)
  | inl (fedObject, schedulingResultsChanged) =>
      match updatePendingControllers ftc fedObject schedulingResultsChanged with
      | inr _ => (StatusError, None)
      | inl (fedObject, _) =>
          match s_Update s fedObject with
          | Some err => (if IsConflict err then StatusConflict else StatusError, Some fedObject)
          | None => (StatusAllOK, Some fedObject)
          end
      end
  end.

(** ** Whether to schedule *)

(** What [prepareToSchedule] returns: a result to return early with the object
    it sent to the API server, or what to schedule. *)
Inductive Prepared :=
  | EarlyReturn (result : WorkerResult) (written : option FederatedObject)
  | Proceed (fedObject : FederatedObject) (policy : option PropagationPolicy)
            (clusters : list FederatedCluster) (profile : option SchedulingProfile).

(** The applied migration configuration follows the configured one; an invalid
    one leaves it alone. *)
Definition updateMigrationConfig (fedObject : FederatedObject) (ftc : FederatedTypeConfig)
    : may_panic FederatedObject :=
  let annotations := fo_Annotations fedObject in
  match annotations !! MigrationConfigurationAnnotation with
  | None =>
      if bool_decide (is_Some (annotations !! AppliedMigrationConfigurationAnnotation)) then
        mret (SetAnnotations fedObject (delete AppliedMigrationConfigurationAnnotation annotations))
      else mret fedObject
  | Some existingMigrationConfigBytes =>
      customMigrationInfoBytes ← getCustomMigrationInfoBytes existingMigrationConfigBytes fedObject ftc;
      match customMigrationInfoBytes with
      | inr _ => mret fedObject
      | inl bytes =>
          mret (SetAnnotations fedObject (<[AppliedMigrationConfigurationAnnotation := bytes]> annotations))
      end
  end.

(** The policy and profile of the object, or the result to return early. *)
Definition policyAndProfile (s : Scheduler) (fedObject : FederatedObject)
    : (option PropagationPolicy * option SchedulingProfile) + WorkerResult :=
  match GetMatchedPolicyKey fedObject with
  | None => inl (None, None)
  | Some policyKey =>
      match policyFromStore s policyKey with
      | inr err => inr (if IsNotFound err then StatusAllOK else StatusError)
      | inl policy =>
          let profileName := pps_SchedulingProfile (pol_Spec policy) in
          if negb (String.eqb profileName "") then
            match s_SchedulingProfile s profileName with
            | inr err => inr (if IsNotFound err then StatusAllOK else StatusError)
            | inl profile => inl (Some policy, Some profile)
            end
          else inl (Some policy, None)
      end
  end.

(** Skip scheduling: finish as a pending controller and write what changed. *)
Definition skipScheduling (s : Scheduler) (ftc : FederatedTypeConfig) (fedObject : FederatedObject)
    (annotationChanged : bool) : Prepared :=
  match updatePendingControllers ftc fedObject false with
  | inr _ => EarlyReturn StatusError None
  | inl (fedObject, updated) =>
      if updated || annotationChanged then
        match s_Update s fedObject with
        | Some err => EarlyReturn (if IsConflict err then StatusConflict else StatusError) (Some fedObject)
        | None => EarlyReturn StatusAllOK (Some fedObject)
        end
      else EarlyReturn StatusAllOK None
  end.

Definition prepareToSchedule (s : Scheduler) (fedObject : FederatedObject) (ftc : FederatedTypeConfig)
    : may_panic Prepared :=
  fedObject ← updateMigrationConfig fedObject ftc;
  mret
    match ControllerDependenciesFulfilled fedObject PrefixedGlobalSchedulerName with
    | inr _ => EarlyReturn StatusError None
    | inl false => EarlyReturn StatusAllOK None
    | inl true =>
        match s_FederatedClusters s with
        | inr _ => EarlyReturn StatusError None
        | inl allClusters =>
            let clusters := filter (fun cluster => IsClusterJoined (Status cluster) = true) allClusters in
            match policyAndProfile s fedObject with
            | inr result => EarlyReturn result None
            | inl (policy, schedulingProfile) =>
                match computeSchedulingTriggers ftc fedObject policy clusters with
                | inr _ => EarlyReturn StatusError None
                | inl triggers =>
                    match computeSchedulingAnnotations triggers fedObject policy with
                    | inr _ => EarlyReturn StatusError None
                    | inl (triggersText, deferredReasons, triggersChanged) =>
                        match updateSchedulingAnnotations triggersText deferredReasons fedObject with
                        | inr _ => EarlyReturn StatusError None
                        | inl (fedObject, annotationChanged) =>
                            let noScheduling :=
                              default ""%string (fo_Annotations fedObject !! NoSchedulingAnnotation) in
                            if negb triggersChanged || negb (String.eqb noScheduling "") then
                              skipScheduling s ftc fedObject annotationChanged
                            else Proceed fedObject policy clusters schedulingProfile
                        end
                    end
                end
            end
        end
    end.

(** ** Scheduling *)

(** A result to persist, or a failure.  Without a policy, and when no cluster
    fits, the result is empty. *)
Definition schedule (s : Scheduler) (ftc : FederatedTypeConfig) (fedObject : FederatedObject)
    (policy : option PropagationPolicy) (schedulingProfile : option SchedulingProfile)
    (clusters : list FederatedCluster) : may_panic (ScheduleResult + WorkerResult) :=
  match policy with
  | None => mret (inl {| SuggestedClusters := ∅ |})
  | Some policy =>
      match schedulingUnitForFedObject ftc fedObject policy (s_enableKatalystSupport s) with
      | inr _ => mret (inr StatusError)
      | inl schedulingUnit =>
          let replicasPlugin :=
            if String.eqb (ReplicasStrategy schedulingUnit) ReplicasStrategyBinpack
            then [names.PreferenceBinPack] else [] in
          match createFramework now fmt (s_enableKatalystSupport s) (s_webhookPlugins s)
                  schedulingProfile tt replicasPlugin with
          | inr _ => mret (inr StatusError)
          | inl framework =>
              result ← Schedule (asFramework framework) schedulingUnit clusters;
              mret match result with
                   | inl result => inl result
                   | inr (FitErr _) => inl {| SuggestedClusters := ∅ |}
                   | inr (SchedErr _) => inr StatusError
                   end
          end
      end
  end.

(** The policy's part of the information written with the result; an
    auto-migration without a threshold is a nil pointer. *)
Definition auxInfoOf (policy : option PropagationPolicy) : may_panic auxiliarySchedulingInformation :=
  match policy with
  | None => mret {| enableFollowerScheduling := false; unschedulableThreshold := None |}
  | Some policy =>
      let enable := negb (DisableFollowerScheduling (pol_Spec policy)) in
      match pps_AutoMigration (pol_Spec policy) with
      | None => mret {| enableFollowerScheduling := enable; unschedulableThreshold := None |}
      | Some autoMigration =>
          duration ← deref (PodUnschedulableDuration autoMigration);
          mret {| enableFollowerScheduling := enable; unschedulableThreshold := Some duration |}
      end
  end.

(** ** The reconciliation *)

Definition reconcile (s : Scheduler) (key : QualifiedName)
    : may_panic (WorkerResult * option FederatedObject) :=
  match GetFromLister s (qn_Namespace key) (qn_Name key) with
  | inr err => mret (if IsNotFound err then StatusAllOK else StatusError, None)
  | inl fedObject =>
      if bool_decide (is_Some (fo_DeletionTimestamp fedObject)) then mret (StatusAllOK, None)
      else
        match GetTemplateMetadata (fo_Spec fedObject) with
        | inr _ => mret (StatusError, None)
        | inl templateMetadata =>
            match s_ResourceFTC s (tm_GVK templateMetadata) with
            | None => mret (StatusAllOK, None)
            | Some ftc =>
                prepared ← prepareToSchedule s fedObject ftc;
                match prepared with
                | EarlyReturn result written => mret (result, written)
                | Proceed fedObject policy clusters schedulingProfile =>
                    result ← schedule s ftc fedObject policy schedulingProfile clusters;
                    match result with
                    | inr workerResult => mret (workerResult, None)
                    | inl result =>
                        auxInfo ← auxInfoOf policy;
                        mret (persistSchedulingResult s ftc fedObject result auxInfo)
                    end
                end
            end
        end
  end.

(** ** Enqueueing objects

    The keys that an event adds to the queue of the worker. *)

Definition NewQualifiedName (o : FederatedObject) : QualifiedName :=
  {| qn_Namespace := fo_Namespace o; qn_Name := fo_Name o |}.

Definition PolicyQualifiedName (policy : PropagationPolicy) : QualifiedName :=
  {| qn_Namespace := pol_Namespace policy; qn_Name := pol_Name policy |}.

Definition enqueueFederatedObjectsForPolicy (s : Scheduler) (policy : PropagationPolicy) : list QualifiedName :=
  let policyKey := PolicyQualifiedName policy in
  let isPolicyNamespaced := negb (String.eqb (qn_Namespace policyKey) "") in
  let labelSelector :=
    if isPolicyNamespaced then SelectorFromSet {[ PropagationPolicyNameLabel := qn_Name policyKey ]}
    else SelectorFromSet {[ ClusterPropagationPolicyNameLabel := qn_Name policyKey ]} in
  let allObjects :=
    if isPolicyNamespaced then s_ListFederatedObjects s (Some (qn_Namespace policyKey)) labelSelector
    else match s_ListFederatedObjects s None labelSelector with
         | inr err => inr err
         | inl fedObjects =>
             match s_ListClusterFederatedObjects s labelSelector with
             | inr err => inr err
             | inl clusterFedObjects => inl (fedObjects ++ clusterFedObjects)
             end
         end in
  match allObjects with
  | inr _ => []
  | inl allObjects =>
      NewQualifiedName <$> filter (fun obj => GetMatchedPolicyKey obj = Some policyKey) allObjects
  end.

(** The objects with one of the policy labels, in the order of a set. *)
Fixpoint labelledObjects (s : Scheduler) (labels : list string) (allObjects : gset (string * string))
    : option (gset (string * string)) :=
  match labels with
  | [] => Some allObjects
  | policyLabel :: labels' =>
      match NewRequirement policyLabel selection_Exists [] with
      | inr _ => None
      | inl hasPolicy =>
          let labelSelector := Selector_Add NewSelector hasPolicy in
          match s_ListFederatedObjects s None labelSelector, s_ListClusterFederatedObjects s labelSelector with
          | inl fedObjects, inl clusterFedObjects =>
              labelledObjects s labels'
                (list_to_set ((fun o => (fo_Namespace o, fo_Name o)) <$> (fedObjects ++ clusterFedObjects)) ∪ allObjects)
          | _, _ => None
          end
      end
  end.

Definition enqueueFederatedObjectsForCluster (s : Scheduler) (cluster : FederatedCluster) : gset (string * string) :=
  if negb (IsClusterJoined (Status cluster)) then ∅
  else default ∅ (labelledObjects s [PropagationPolicyNameLabel; ClusterPropagationPolicyNameLabel] ∅).

Definition Namespaced (a : APIResource) : bool := String.eqb (ar_Scope a) "Namespaced".

Definition ListAllFedObjsForFTC (s : Scheduler) (ftc : FederatedTypeConfig) : list FederatedObject + ApiError :=
  let gvk := GetSourceTypeGVK ftc in
  let labelsSet : gmap string string :=
    {[ GroupVersion_String {| gv_Group := gvk_Group gvk; gv_Version := gvk_Version gvk |} := gvk_Kind gvk ]} in
  if Namespaced (SourceType ftc) then s_ListFederatedObjects s None (SelectorFromSet labelsSet)
  else s_ListClusterFederatedObjects s (SelectorFromSet labelsSet).

Definition enqueueFederatedObjectsForFTC (s : Scheduler) (ftc : FederatedTypeConfig) : list QualifiedName :=
  match ListAllFedObjsForFTC s ftc with
  | inr _ => []
  | inl allObjects => NewQualifiedName <$> allObjects
  end.
End Scheduler.
