(* ===== verification/EnqueueTheorems.v ===== *)
(** * Which objects an event enqueues *)

From Stdlib Require Import ZArith Lia String Ascii.
From S2P Require Import Prelude K8s Types ApiTypes Codecs FedObject SchedulingUnit Runtime Scheduler.

Section Enqueue.
Context `{K : Kubernetes} `{R : GoRuntime} `{C : !Codecs}.

(** Listers return what is in their caches: [fed] are the namespaced objects,
    [cluster] the cluster-scoped ones, which have no namespace. *)
Record listed (s : Scheduler) (fed cluster : list FederatedObject) : Prop := {
  ls_all : forall sel, s_ListFederatedObjects s None sel =
    inl (filter (fun o => Selector_Matches sel (fo_Labels o) = true) fed);
  ls_namespace : forall ns sel, s_ListFederatedObjects s (Some ns) sel =
    inl (filter (fun o => fo_Namespace o = ns /\ Selector_Matches sel (fo_Labels o) = true) fed);
  ls_cluster : forall sel, s_ListClusterFederatedObjects s sel =
    inl (filter (fun o => Selector_Matches sel (fo_Labels o) = true) cluster);
  ls_fed_namespaced : forall o, o ∈ fed -> fo_Namespace o <> ""%string;
  ls_cluster_scoped : forall o, o ∈ cluster -> fo_Namespace o = ""%string
}.

Lemma singleton_selector key value (labels : gmap string string) :
  Selector_Matches (SelectorFromSet {[key := value]}) labels = true <-> labels !! key = Some value.
Proof using Type.
  rewrite Matches_FromSet. split.
  - intros H. apply H. apply lookup_singleton_eq.
  - intros H k v Hk. by apply lookup_singleton_Some in Hk as [<- <-].
Qed.

(** The label that a matched policy was found under. *)
Lemma GetMatchedPolicyKey_label o key : GetMatchedPolicyKey o = Some key ->
  (qn_Namespace key <> ""%string /\ qn_Namespace key = fo_Namespace o /\
   fo_Labels o !! PropagationPolicyNameLabel = Some (qn_Name key)) \/
  (qn_Namespace key = ""%string /\ fo_Labels o !! ClusterPropagationPolicyNameLabel = Some (qn_Name key)).
Proof using Type.
  unfold GetMatchedPolicyKey. destruct (String.eqb_spec (fo_Namespace o) "") as [Hn|Hn]; cbn [negb].
  - intros H. right. destruct (fo_Labels o !! PropagationPolicyNameLabel);
      (destruct (fo_Labels o !! ClusterPropagationPolicyNameLabel); [|done]); by injection H as <-.
  - destruct (fo_Labels o !! PropagationPolicyNameLabel) as [p|].
    + intros [= <-]. left. done.
    + destruct (fo_Labels o !! ClusterPropagationPolicyNameLabel); [|done]. intros [= <-]. by right.
Qed.

(** An event of a policy enqueues exactly the cached objects whose matched
    policy it is: the label selectors lose none of them and no other object is
    enqueued. *)
Theorem enqueueFederatedObjectsForPolicy_spec s fed cluster policy key :
  listed s fed cluster ->
  key ∈ enqueueFederatedObjectsForPolicy s policy <->
  exists o, o ∈ fed ++ cluster /\ GetMatchedPolicyKey o = Some (PolicyQualifiedName policy) /\ key = NewQualifiedName o.
Proof using Type.
  intros [Hall Hns Hcl Hfed Hcs]. unfold enqueueFederatedObjectsForPolicy. cbv zeta.
  destruct (String.eqb_spec (qn_Namespace (PolicyQualifiedName policy)) "") as [He|Hne]; cbn [negb].
  - rewrite Hall, Hcl, <- filter_app. setoid_rewrite list_elem_of_fmap. setoid_rewrite list_elem_of_filter.
    setoid_rewrite list_elem_of_filter. setoid_rewrite singleton_selector. split.
    + intros (o & -> & Hm & _ & Hin). by exists o.
    + intros (o & Hin & Hm & ->). exists o. split_and!; try done.
      destruct (GetMatchedPolicyKey_label _ _ Hm) as [(Hc & _)|[_ Hl]]; [by destruct Hc|done].
  - rewrite Hns. setoid_rewrite list_elem_of_fmap. setoid_rewrite list_elem_of_filter.
    setoid_rewrite list_elem_of_filter. setoid_rewrite singleton_selector. split.
    + intros (o & -> & Hm & _ & Hin). exists o. rewrite elem_of_app. split_and!; [by left|done..].
    + intros (o & [Hin|Hin]%elem_of_app & Hm & ->);
        (destruct (GetMatchedPolicyKey_label _ _ Hm) as [(_ & Hn & Hl)|[Hc _]]; [|by destruct Hne]).
      * by exists o.
      * apply Hcs in Hin. congruence.
Qed.

Lemma labelledObjects_spec s fed cluster labels acc : listed s fed cluster ->
  (forall l, l ∈ labels -> exists r, NewRequirement l selection_Exists [] = inl r) ->
  exists objs, labelledObjects s labels acc = Some objs /\
    forall x, x ∈ objs <-> x ∈ acc \/ exists o l, o ∈ fed ++ cluster /\ l ∈ labels /\
      is_Some (fo_Labels o !! l) /\ x = (fo_Namespace o, fo_Name o).
Proof using Type.
  intros Hl. revert acc. induction labels as [|l labels IH]; intros acc Hreq; cbn [labelledObjects].
  - exists acc. split; [done|]. intros x. split; [by left|]. by intros [?|(? & ? & _ & ?%elem_of_nil & _)].
  - destruct (Hreq l) as [r Hr]; [left|]. rewrite Hr, (ls_all _ _ _ Hl), (ls_cluster _ _ _ Hl).
    edestruct IH as (objs & Hobjs & Hin); [intros l' Hl'; apply Hreq; by right|].
    exists objs. split; [exact Hobjs|]. intros x. rewrite Hin, elem_of_union, elem_of_list_to_set, <- filter_app.
    rewrite list_elem_of_fmap. setoid_rewrite list_elem_of_filter.
    assert (Hm : forall o, Selector_Matches (Selector_Add NewSelector r) (fo_Labels o) = true <-> is_Some (fo_Labels o !! l)).
    { intros o. rewrite Matches_Add, Matches_NewSelector. simpl. by apply NewRequirement_Exists. }
    setoid_rewrite Hm. setoid_rewrite elem_of_cons. split.
    + intros [[(o & -> & Hs & Ho)|Hacc]|(o & l' & Ho & Hl' & Hs & ->)]; [right; exists o, l; auto|by left|].
      right. exists o, l'. auto.
    + intros [Hacc|(o & l' & Ho & [->|Hl'] & Hs & ->)]; [by left; right| |].
      * left. left. by exists o.
      * right. by exists o, l'.
Qed.

(** C36. An event of a joined cluster enqueues every cached object that has a
    policy, and only objects that carry a policy label. *)
Theorem enqueueFederatedObjectsForCluster_spec s fed cluster c :
  listed s fed cluster -> IsClusterJoined (Status c) = true ->
  (forall l, l ∈ [PropagationPolicyNameLabel; ClusterPropagationPolicyNameLabel] ->
     exists r, NewRequirement l selection_Exists [] = inl r) ->
  (forall o policyKey, o ∈ fed ++ cluster -> GetMatchedPolicyKey o = Some policyKey ->
     (fo_Namespace o, fo_Name o) ∈ enqueueFederatedObjectsForCluster s c) /\
  (forall x, x ∈ enqueueFederatedObjectsForCluster s c -> exists o, o ∈ fed ++ cluster /\
     x = (fo_Namespace o, fo_Name o) /\
     (is_Some (fo_Labels o !! PropagationPolicyNameLabel) \/ is_Some (fo_Labels o !! ClusterPropagationPolicyNameLabel))).
Proof using Type.
  intros Hl Hj Hreq. unfold enqueueFederatedObjectsForCluster. rewrite Hj. cbn [negb].
  destruct (labelledObjects_spec s fed cluster _ ∅ Hl Hreq) as (objs & -> & Hin). cbn [default from_option].
  split.
  - intros o key Ho Hm. apply Hin. right.
    destruct (GetMatchedPolicyKey_label _ _ Hm) as [(_ & _ & Hlab)|[_ Hlab]];
      [exists o, PropagationPolicyNameLabel|exists o, ClusterPropagationPolicyNameLabel];
      (split_and!; [done| |by eexists|done]); [left|right; left].
  - intros x Hx. apply Hin in Hx as [Hx|(o & l & Ho & Hlab & Hs & ->)]; [by apply elem_of_empty in Hx|].
    exists o. split_and!; [done..|]. each_member; [by left|by right].
Qed.
End Enqueue.

(** ** Concrete inputs *)

Section Witnesses.
#[local] Existing Instance small_kubernetes.
#[local] Existing Instance small_runtime.
#[local] Existing Instance small_codecs.

(** Caches that hold the given objects and nothing else. *)
Definition listers (fed cluster : list FederatedObject) : Scheduler := {|
  s_FederatedObject := fun _ _ => inr NotFound;
  s_ClusterFederatedObject := fun _ => inr NotFound;
  s_PropagationPolicy := fun _ _ => inr NotFound;
  s_ClusterPropagationPolicy := fun _ => inr NotFound;
  s_SchedulingProfile := fun _ => inr NotFound;
  s_FederatedClusters := inl [];
  s_ResourceFTC := fun _ => None;
  s_webhookPlugins := ∅;
  s_enableKatalystSupport := false;
  s_Update := fun _ => None;
  s_ListFederatedObjects := fun ns sel =>
    inl match ns with
        | Some ns => filter (fun o => fo_Namespace o = ns /\ Selector_Matches sel (fo_Labels o) = true) fed
        | None => filter (fun o => Selector_Matches sel (fo_Labels o) = true) fed
        end;
  s_ListClusterFederatedObjects := fun sel =>
    inl (filter (fun o => Selector_Matches sel (fo_Labels o) = true) cluster)
|}.

Lemma listers_listed fed cluster : (forall o, o ∈ fed -> fo_Namespace o <> ""%string) ->
  (forall o, o ∈ cluster -> fo_Namespace o = ""%string) -> listed (listers fed cluster) fed cluster.
Proof.
  intros Hf Hc. by split.
Qed.

Definition labelled (ns name label value : string) : FederatedObject := {|
  fo_Namespace := ns; fo_Name := name; fo_Labels := {[ label := value ]}; fo_Annotations := ∅;
  fo_OwnerReferences := []; fo_Generation := 1; fo_DeletionTimestamp := None; fo_Finalizers := []; fo_Status := empty_status;
  fo_Spec := {| Template := ""; Overrides := []; Placements := []; Follows := [] |}
|}.

Definition fed_objects : list FederatedObject :=
  [ labelled "default" "web" PropagationPolicyNameLabel "p"; labelled "other" "web" PropagationPolicyNameLabel "p";
    labelled "default" "db" ClusterPropagationPolicyNameLabel "p" ].
Definition cluster_objects : list FederatedObject := [ labelled "" "role" ClusterPropagationPolicyNameLabel "p" ].

Definition policy_p (ns : string) : PropagationPolicy := {|
  pol_Namespace := ns; pol_Name := "p";
  pol_Spec := {| pps_SchedulingProfile := ""; pps_SchedulingMode := ""; pps_ReplicasStrategy := None;
    pps_ClusterSelector := ∅; pps_ClusterAffinity := []; pps_Tolerations := []; pps_MaxClusters := None;
    pps_Placements := []; DisableFollowerScheduling := false; pps_AutoMigration := None;
    pps_ReschedulePolicy := None |}
|}.

Lemma concrete_listed : listed (listers fed_objects cluster_objects) fed_objects cluster_objects.
Proof. apply listers_listed; intros o Ho; unfold fed_objects, cluster_objects in Ho; by each_member. Qed.

Example enqueued_for_policies :
  enqueueFederatedObjectsForPolicy (listers fed_objects cluster_objects) (policy_p "default") =
    [ {| qn_Namespace := "default"; qn_Name := "web" |} ] /\
  enqueueFederatedObjectsForPolicy (listers fed_objects cluster_objects) (policy_p "") =
    [ {| qn_Namespace := "default"; qn_Name := "db" |}; {| qn_Namespace := ""; qn_Name := "role" |} ].
Proof. vm_compute. done. Qed.

Lemma enqueueFederatedObjectsForPolicy_spec_witness :
  {| qn_Namespace := ""; qn_Name := "role" |} ∈
    enqueueFederatedObjectsForPolicy (listers fed_objects cluster_objects) (policy_p "").
Proof.
  apply (enqueueFederatedObjectsForPolicy_spec _ _ _ (policy_p "") {| qn_Namespace := ""; qn_Name := "role" |} concrete_listed).
  exists (labelled "" "role" ClusterPropagationPolicyNameLabel "p"). split_and!; [|vm_compute; reflexivity|reflexivity].
  do 3 right. left.
Defined.

Definition joined_cluster : FederatedCluster := {|
  c_Name := "a"; c_Labels := ∅; c_Annotations := ∅; c_Finalizers := []; c_DeletionTimestamp := None; Taints := [];
  Status := {| Conditions := [ {| cc_Type := ClusterJoined; cc_Status := "True" |} ];
               st_Resources := {| SchedulableNodes := None; Allocatable := ∅; Available := ∅ |};
               APIResourceTypes := []; JoinPerformed := true |}
|}.

Lemma enqueueFederatedObjectsForCluster_spec_witness :
  ("default"%string, "web"%string) ∈
    enqueueFederatedObjectsForCluster (listers fed_objects cluster_objects) joined_cluster.
Proof.
  refine (proj1 (enqueueFederatedObjectsForCluster_spec _ _ _ joined_cluster concrete_listed eq_refl _)
    (labelled "default" "web" PropagationPolicyNameLabel "p") {| qn_Namespace := "default"; qn_Name := "p" |} _ _).
  - intros l Hl. each_member; by eexists.
  - left.
  - vm_compute. reflexivity.
Defined.
End Witnesses.
