(* ===== verification/SchedulerTheorems.v ===== *)
(** * The controller: results are read back, reconciliations settle

    A scheduling result written into the object is the current placement of the
    next scheduling; writing it again changes nothing. *)

From Stdlib Require Import ZArith Lia String Ascii.
From S2P Require Import Prelude K8s Types ApiTypes Codecs FedObject FedObjectTheorems Resources PodUtil.
From S2P Require Import Triggers TriggersTheorems SchedulingUnit Float64 Runtime GenericScheduler Profile Scheduler.

Section Apply.
Context `{K : Kubernetes} `{R : GoRuntime} `{C : !Codecs}.

Notation sched := PrefixedGlobalSchedulerName.

(** ** Overrides and back *)

Lemma desiredOverrides_lookup result k :
  desiredOverrides result !! k = SuggestedClusters result !! k ≫= id.
Proof using Type.
  unfold desiredOverrides.
  rewrite (foldl_point (fun (m : gmap string Z) k => m !! k)
    (fun k o v => match v with Some n => Some n | None => o end)).
  - rewrite lookup_empty. destruct (SuggestedClusters result !! k) as [[n|]|]; done.
  - intros s k' [v|] n; simpl; case_decide as E; subst; rewrite ?lookup_insert_eq; try done.
    by rewrite lookup_insert_ne.
Qed.

(** Every number can be written, and is what is read back. *)
Lemma newOverrides_ok path l : (forall c n, (c, n) ∈ l -> int64 n) ->
  exists os, newOverrides path l = inl os /\
    (fun o => (crp_Cluster o, patchedReplicas path (Patches o))) <$> os = prod_map id Some <$> l.
Proof using Type.
  induction l as [|[c n] l IH]; intros Hl; [by exists []|].
  destruct IH as (os & Hos & Hr); [intros c' n' Hin; apply (Hl c'); by right|].
  destruct (int64_roundtrip n) as (raw & Hm & Hu); [apply (Hl c); left|].
  exists (replicasOverride path c raw :: os). split; [simpl; by rewrite Hm, Hos|].
  rewrite !fmap_cons, Hr. simpl. by rewrite String.eqb_refl, Hu.
Qed.

(** Reading the overrides of the current placement. *)
Definition readOverride (path : string) (res : gmap string (option Z)) (o : ClusterReferenceWithPatches)
    : gmap string (option Z) :=
  match res !! crp_Cluster o with
  | None => res
  | Some _ =>
      match patchedReplicas path (Patches o) with
      | Some replicas => <[crp_Cluster o := Some replicas]> res
      | None => res
      end
  end.

Lemma readOverrides_lookup path os res k (m : gmap string Z) :
  (fun o => (crp_Cluster o, patchedReplicas path (Patches o))) <$> os ≡ₚ prod_map id Some <$> range_map m ->
  foldl (readOverride path) res os !! k =
  match res !! k, m !! k with Some _, Some n => Some (Some n) | o, _ => o end.
Proof using Type.
  intros Hp. set (pairs := _ <$> os) in *.
  pose (step (s : gmap string (option Z)) (p : string * option Z) := match s !! p.1 with
    | None => s | Some _ => match p.2 with Some n => <[p.1 := Some n]> s | None => s end end).
  assert (foldl (readOverride path) res os = foldl step res pairs) as ->.
  { unfold pairs. rewrite foldl_fmap. done. }
  assert (Hfst : pairs.*1 ≡ₚ (range_map m).*1).
  { rewrite Hp, <- list_fmap_compose. done. }
  assert (Hnd : NoDup pairs.*1) by (rewrite Hfst; apply NoDup_range_map_fst).
  rewrite (foldl_point_list (fun (s : gmap string (option Z)) k => s !! k)
    (fun k o v => match o, v with Some _, Some n => Some (Some n) | _, _ => o end)); [| |done].
  - assert (Hm : (list_to_map pairs : gmap string (option Z)) = Some <$> m).
    { rewrite (list_to_map_proper _ _ Hnd Hp), list_to_map_fmap. by rewrite list_to_map_range_map. }
    rewrite Hm, lookup_fmap. destruct (m !! k); simpl; by destruct (res !! k).
  - intros s k' v n. unfold step. simpl. case_decide as E.
    + subst n. destruct (s !! k') as [o|] eqn:Ek; [|done]. destruct v as [z|]; [apply lookup_insert_eq|done].
    + destruct (s !! k'); [|done]. destruct v; [|done]. by rewrite lookup_insert_ne.
Qed.

Lemma placementMap_lookup (l : list ClusterReference) (m : gmap string (option Z)) k :
  foldl (fun res placement => <[cref_Cluster placement := None]> res) m l !! k =
  if decide (k ∈ cref_Cluster <$> l) then Some None else m !! k.
Proof.
  revert m. induction l as [|c l IH]; intros m; [done|]. cbn [foldl]. rewrite IH, fmap_cons.
  destruct (decide (k = cref_Cluster c)) as [->|Hk].
  - rewrite lookup_insert_eq, (decide_True (P := _ ∈ _ :: _)) by left. by case_decide.
  - rewrite lookup_insert_ne by done. apply decide_ext. rewrite elem_of_cons. tauto.
Qed.

(** What is read back from an object that holds [result]. *)
Lemma getCurrentReplicas_of_result ftc o result os :
  GetControllerPlacement (fo_Spec o) sched = sortedRefs (sort_slice String.ltb (elements (ClusterSet result))) ->
  GetControllerOverrides (fo_Spec o) sched = sort_slice crpLess os ->
  (fun o => (crp_Cluster o, patchedReplicas (ToSlashPath (ReplicasSpec ftc)) (Patches o))) <$> os =
    prod_map id Some <$> range_map (desiredOverrides result) ->
  getCurrentReplicasFromObject ftc o = SuggestedClusters result.
Proof using Type.
  intros Hp Ho Hos. unfold getCurrentReplicasFromObject. rewrite Hp, Ho.
  apply map_eq. intros k.
  pose proof (readOverrides_lookup (ToSlashPath (ReplicasSpec ftc)) (sort_slice crpLess os)) as Hr.
  unfold readOverride in Hr. rewrite (Hr _ k (desiredOverrides result)); [|by rewrite sort_slice_perm, Hos].
  rewrite placementMap_lookup, desiredOverrides_lookup, lookup_empty.
  assert (Hin : k ∈ cref_Cluster <$> sortedRefs (sort_slice String.ltb (elements (ClusterSet result))) <->
    is_Some (SuggestedClusters result !! k)).
  { rewrite sortedRefs_names, elem_of_sort_slice, elem_of_elements. unfold ClusterSet. apply elem_of_dom. }
  case_decide as Hk; rewrite Hin in Hk.
  - destruct Hk as [[n|] ->]; done.
  - apply eq_None_not_Some in Hk. by rewrite Hk.
Qed.

(** ** Applying a result *)

Definition resultNames (result : ScheduleResult) : list string :=
  sort_slice String.ltb (elements (ClusterSet result)).

(** The numbers fit the type of the code. *)
Definition int64_result (result : ScheduleResult) : Prop :=
  forall k n, SuggestedClusters result !! k = Some (Some n) -> int64 n.

(** The annotations that follow from the policy, and whether they change. *)
Definition auxAnnotations (aux : auxiliarySchedulingInformation) (m : gmap string string) : gmap string string :=
  (setUnschedulableThreshold aux (setFollowerScheduling aux m).1).1.
Definition auxModified (aux : auxiliarySchedulingInformation) (m : gmap string string) : bool :=
  (setFollowerScheduling aux m).2 || (setUnschedulableThreshold aux (setFollowerScheduling aux m).1).2.

(** The value is the one that follows from the policy. *)
Definition follower_settled (aux : auxiliarySchedulingInformation) (o : option string) : Prop :=
  default ""%string o = if enableFollowerScheduling aux then AnnotationValueTrue else AnnotationValueFalse.
Definition threshold_settled (aux : auxiliarySchedulingInformation) (o : option string) : Prop :=
  match unschedulableThreshold aux with
  | None => o = None
  | Some t => default ""%string o = Duration_String t
  end.

Lemma setFollowerScheduling_settled aux m : follower_settled aux (m !! EnableFollowerSchedulingAnnotation) ->
  setFollowerScheduling aux m = (m, false).
Proof. unfold follower_settled, setFollowerScheduling. intros ->. by rewrite String.eqb_refl. Qed.

Lemma setFollowerScheduling_settles aux m :
  follower_settled aux ((setFollowerScheduling aux m).1 !! EnableFollowerSchedulingAnnotation).
Proof.
  unfold follower_settled, setFollowerScheduling.
  destruct (String.eqb_spec (default "" (m !! EnableFollowerSchedulingAnnotation))
    (if enableFollowerScheduling aux then AnnotationValueTrue else AnnotationValueFalse)); cbn [negb fst].
  - done.
  - by rewrite lookup_insert_eq.
Qed.

Lemma setUnschedulableThreshold_settled aux m : threshold_settled aux (m !! PodUnschedulableThresholdAnnotation) ->
  setUnschedulableThreshold aux m = (m, false).
Proof using Type.
  unfold threshold_settled, setUnschedulableThreshold.
  destruct (unschedulableThreshold aux); intros ->; [by rewrite String.eqb_refl|].
  rewrite bool_decide_eq_false_2; [done|]. by intros [? ?].
Qed.

Lemma setUnschedulableThreshold_settles aux m :
  threshold_settled aux ((setUnschedulableThreshold aux m).1 !! PodUnschedulableThresholdAnnotation).
Proof using Type.
  unfold threshold_settled, setUnschedulableThreshold. destruct (unschedulableThreshold aux) as [t|].
  - destruct (String.eqb_spec (default "" (m !! PodUnschedulableThresholdAnnotation)) (Duration_String t));
      cbn [negb fst]; [done|]. by rewrite lookup_insert_eq.
  - case_bool_decide as E; cbn [fst]; [apply lookup_delete_eq|]. by apply eq_None_not_Some.
Qed.

(** Both only touch their own annotation. *)
Lemma setFollowerScheduling_other aux m k : k <> EnableFollowerSchedulingAnnotation ->
  (setFollowerScheduling aux m).1 !! k = m !! k.
Proof. intros Hk. unfold setFollowerScheduling. destruct (negb _); [by apply lookup_insert_ne|done]. Qed.

Lemma setUnschedulableThreshold_other aux m k : k <> PodUnschedulableThresholdAnnotation ->
  (setUnschedulableThreshold aux m).1 !! k = m !! k.
Proof using Type.
  intros Hk. unfold setUnschedulableThreshold. destruct (unschedulableThreshold aux).
  - destruct (negb _); [by apply lookup_insert_ne|done].
  - case_bool_decide; [by apply lookup_delete_ne|done].
Qed.

Lemma auxAnnotations_settles aux m :
  follower_settled aux (auxAnnotations aux m !! EnableFollowerSchedulingAnnotation) /\
  threshold_settled aux (auxAnnotations aux m !! PodUnschedulableThresholdAnnotation).
Proof using Type.
  unfold auxAnnotations. split; [|apply setUnschedulableThreshold_settles].
  rewrite setUnschedulableThreshold_other by done. apply setFollowerScheduling_settles.
Qed.

Lemma auxAnnotations_other aux m k : k <> EnableFollowerSchedulingAnnotation ->
  k <> PodUnschedulableThresholdAnnotation -> auxAnnotations aux m !! k = m !! k.
Proof using Type.
  intros H1 H2. unfold auxAnnotations. by rewrite setUnschedulableThreshold_other, setFollowerScheduling_other.
Qed.

Lemma aux_settled aux m : follower_settled aux (m !! EnableFollowerSchedulingAnnotation) ->
  threshold_settled aux (m !! PodUnschedulableThresholdAnnotation) ->
  auxAnnotations aux m = m /\ auxModified aux m = false.
Proof using Type.
  intros Hf Ht. unfold auxAnnotations, auxModified. rewrite (setFollowerScheduling_settled _ _ Hf).
  cbn [fst snd]. by rewrite (setUnschedulableThreshold_settled _ _ Ht).
Qed.

Lemma aux_unmodified aux m : auxModified aux m = false -> auxAnnotations aux m = m.
Proof using Type.
  unfold auxAnnotations, auxModified. intros [H1 H2]%orb_false_iff.
  assert (Hm : (setFollowerScheduling aux m).1 = m)
    by (revert H1; unfold setFollowerScheduling; by destruct (negb _)).
  rewrite Hm in *. revert H2. unfold setUnschedulableThreshold.
  destruct (unschedulableThreshold aux); [by destruct (negb _)|by case_bool_decide].
Qed.

(** [applySchedulingResult] in steps. *)
Lemma applySchedulingResult_steps ftc o result aux o' changed :
  applySchedulingResult ftc o result aux = inl (o', changed) ->
  exists spec1 ch1 os spec2 ch2,
    SetControllerPlacement (fo_Spec o) sched (resultNames result) = (spec1, ch1) /\
    newOverrides (ToSlashPath (ReplicasSpec ftc)) (range_map (desiredOverrides result)) = inl os /\
    SetControllerOverrides spec1 sched os = (spec2, ch2) /\
    changed = ch1 || ch2 || auxModified aux (fo_Annotations o) /\
    exists m, o' = SetAnnotations (setSpec o spec2) m /\
      forall k, k <> SchedulingAnnotation -> m !! k = auxAnnotations aux (fo_Annotations o) !! k.
Proof using Type.
  pose proof (aux_unmodified aux (fo_Annotations o)) as Hun. revert Hun.
  unfold applySchedulingResult, UpdateReplicasOverride, auxModified, auxAnnotations. cbv zeta. intros Hun H.
  change (sort_slice String.ltb (elements (ClusterSet result))) with (resultNames result) in H.
  destruct (SetControllerPlacement (fo_Spec o) sched (resultNames result)) as [spec1 ch1].
  destruct (newOverrides _ _) as [os|]; [|done]. cbn [fo_Spec setSpec fo_Annotations] in H.
  destruct (SetControllerOverrides spec1 sched os) as [spec2 ch2] eqn:Eo. exists spec1, ch1, os, spec2, ch2.
  cbn [fo_Spec setSpec fo_Annotations] in H.
  destruct (setFollowerScheduling aux (fo_Annotations o)) as [m1 b1]. cbn [fst snd] in *.
  destruct (setUnschedulableThreshold aux m1) as [m2 b2] eqn:Et. cbn [fst snd] in *.
  split_and!; [done|done|done| |]; destruct (ch1 || ch2).
  - destruct (getSchedulingAnnotationValue _ _); by simplify_eq.
  - destruct (b1 || b2); by simplify_eq.
  - destruct (getSchedulingAnnotationValue _ _); simplify_eq. eexists. split; [by destruct o|].
    intros k Hk. by rewrite lookup_insert_ne.
  - destruct (b1 || b2); simplify_eq; [eexists; split; [by destruct o|done]|].
    exists (fo_Annotations o). split; [by destruct o|]. by rewrite Hun.
Qed.

(** Placements are set without looking at the rest of the spec. *)
Lemma SetControllerPlacement_again c names names' spec spec1 ch spec2 : placed c names spec spec1 ch ->
  Placements spec2 = Placements spec1 -> names' ≡ₚ names ->
  SetControllerPlacement spec2 c names' = (spec2, false).
Proof using Type.
  intros Hp Heq Hn. pose proof (pl_again _ _ _ _ _ Hp names' Hn) as Ha. revert Ha.
  unfold SetControllerPlacement, DeleteControllerPlacement. rewrite Heq. destruct names' as [|n names'].
  - destruct (deleteEntry _ _ _) as [ps b]. intros [= Hps ->]. apply (f_equal Placements) in Hps. simpl in Hps.
    rewrite Hps, <- Heq. by rewrite setPlacements_eta.
  - cbv zeta. destruct (setEntry _ _ _ _) as [ps b]. intros [= Hps ->]. apply (f_equal Placements) in Hps.
    simpl in Hps. rewrite Hps, <- Heq. by rewrite setPlacements_eta.
Qed.

(** An entry for each controller. *)
Definition one_entry_each (spec : GenericFederatedObjectSpec) : Prop :=
  NoDup (pwc_Controller <$> Placements spec) /\ NoDup (owc_Controller <$> Overrides spec).

Lemma applySchedulingResult_effect ftc o result aux o' changed :
  one_entry_each (fo_Spec o) -> int64_result result ->
  applySchedulingResult ftc o result aux = inl (o', changed) ->
  getCurrentReplicasFromObject ftc o' = SuggestedClusters result /\
  (forall c, c <> sched ->
     GetControllerPlacement (fo_Spec o') c = GetControllerPlacement (fo_Spec o) c /\
     GetControllerOverrides (fo_Spec o') c = GetControllerOverrides (fo_Spec o) c) /\
  applySchedulingResult ftc o' result aux = inl (o', false).
Proof using Type.
  intros [Hnp Hno] Hint Happ.
  apply applySchedulingResult_steps in Happ as (spec1 & ch1 & os & spec2 & ch2 & Hp & Hos & Ho & -> & m & -> & Hm).
  pose proof (SetControllerPlacement_placed sched (resultNames result) (fo_Spec o) Hnp) as Hpl. rewrite Hp in Hpl.
  assert (Hov1 : Overrides spec1 = Overrides (fo_Spec o)) by (by rewrite <- (pl_frame _ _ _ _ _ Hpl)).
  pose proof (SetControllerOverrides_overridden sched os spec1) as Hov. rewrite Ho, Hov1 in Hov.
  specialize (Hov Hno).
  assert (Hpl2 : Placements spec2 = Placements spec1) by (by rewrite <- (ov_frame _ _ _ _ _ Hov)).
  destruct (newOverrides_ok (ToSlashPath (ReplicasSpec ftc)) (range_map (desiredOverrides result)))
    as (os' & Hos' & Hread).
  { intros c n Hin. apply elem_of_range_map in Hin. rewrite desiredOverrides_lookup in Hin.
    destruct (SuggestedClusters result !! c) as [v|] eqn:Ec; [|done]. simpl in Hin. subst v. by eapply Hint. }
  rewrite Hos' in Hos. injection Hos as ->. split_and!.
  - apply (getCurrentReplicas_of_result _ _ _ os); [|apply (ov_get _ _ _ _ _ Hov)|done].
    etransitivity; [|exact (pl_get _ _ _ _ _ Hpl)]. unfold GetControllerPlacement. simpl. by rewrite Hpl2.
  - intros c Hc. simpl. rewrite (ov_others _ _ _ _ _ Hov c Hc), <- (pl_others _ _ _ _ _ Hpl c Hc).
    unfold GetControllerPlacement, GetControllerOverrides. by rewrite Hpl2, Hov1.
  - unfold applySchedulingResult, UpdateReplicasOverride. cbv zeta. simpl fo_Spec.
    change (sort_slice String.ltb (elements (ClusterSet result))) with (resultNames result).
    rewrite (SetControllerPlacement_again _ _ (resultNames result) _ _ _ spec2 Hpl Hpl2) by done.
    rewrite Hos'. cbn [fo_Spec setSpec fo_Annotations SetAnnotations].
    assert (Hnd : NoDup (crp_Cluster <$> os)).
    { assert (crp_Cluster <$> os = (range_map (desiredOverrides result)).*1) as ->; [|apply NoDup_range_map_fst].
      apply (f_equal (fmap fst)) in Hread. rewrite <- !list_fmap_compose in Hread. exact Hread. }
    rewrite (ov_again _ _ _ _ _ Hov os) by done. simpl.
    destruct (auxAnnotations_settles aux (fo_Annotations o)) as [Hf Ht].
    rewrite <- Hm in Hf, Ht by done.
    rewrite (setFollowerScheduling_settled _ _ Hf), (setUnschedulableThreshold_settled _ _ Ht). by destruct o.
Qed.

(** C12. The current clusters read back from an object to which a result was
    applied are the suggested clusters with their replicas; the placements and
    overrides of the other controllers are kept, and applying the same result
    again changes nothing. *)
Theorem applySchedulingResult_roundtrip ftc o result aux o' changed :
  one_entry_each (fo_Spec o) -> int64_result result ->
  applySchedulingResult ftc o result aux = inl (o', changed) ->
  getCurrentReplicasFromObject ftc o' = SuggestedClusters result /\
  (forall c, c <> sched ->
     GetControllerPlacement (fo_Spec o') c = GetControllerPlacement (fo_Spec o) c /\
     GetControllerOverrides (fo_Spec o') c = GetControllerOverrides (fo_Spec o) c) /\
  applySchedulingResult ftc o' result aux = inl (o', false).
Proof using Type. apply applySchedulingResult_effect. Qed.
End Apply.
