(* ===== verification/ReconcileTheorems.v ===== *)
(** * Reconciliations settle

    A reconciliation that succeeds leaves an object that the next
    reconciliation, in the same environment, neither schedules nor updates,
    whatever the order of the clusters if a policy says when to reschedule. *)

From Stdlib Require Import ZArith Lia String Ascii.
From S2P Require Import Prelude K8s Types ApiTypes Codecs FedObject FedObjectTheorems Resources PodUtil Triggers.
From S2P Require Import TriggersTheorems SchedulingUnit Float64 Runtime RuntimeTheorems GenericScheduler Profile.
From S2P Require Import Scheduler SchedulerTheorems.

Section Frame.
Context `{K : Kubernetes} `{R : GoRuntime} `{C : !Codecs}.

Notation sched := PrefixedGlobalSchedulerName.

(** The annotations that a reconciliation writes. *)
Definition output_annotations : list string :=
  [ SchedulingTriggersAnnotation; SchedulingDeferredReasonsAnnotation; EnableFollowerSchedulingAnnotation;
    PodUnschedulableThresholdAnnotation; SchedulingAnnotation; PendingControllersAnnotation ].

(** What the decision to schedule depends on is the same. *)
Record same_inputs (o o' : FederatedObject) : Prop := {
  si_namespace : fo_Namespace o' = fo_Namespace o;
  si_labels : fo_Labels o' = fo_Labels o;
  si_deletion : fo_DeletionTimestamp o' = fo_DeletionTimestamp o;
  si_template : Template (fo_Spec o') = Template (fo_Spec o);
  si_annotations : forall k, k ∉ output_annotations -> fo_Annotations o' !! k = fo_Annotations o !! k
}.

#[export] Instance same_inputs_preorder : PreOrder same_inputs.
Proof using Type.
  split; [by split|]. intros x y z [A1 A2 A3 A4 A5] [B1 B2 B3 B4 B5].
  split; [congruence..|]. intros k Hk. by rewrite B5, A5.
Qed.

(** An annotation that is read is not one that is written. *)
Ltac not_output := by apply (bool_decide_eq_true _); vm_compute.

Lemma known_not_output k : k ∈ knownSchedulingAnnotations -> k ∉ output_annotations.
Proof using Type.
  intros Hk Ho.
  assert (H : Forall (fun k => k ∉ knownSchedulingAnnotations) output_annotations)
    by (apply (bool_decide_eq_true _); vm_compute; reflexivity).
  rewrite Forall_forall in H. by apply (H k).
Qed.

Lemma getSchedulingAnnotationsHash_frame o o' : same_inputs o o' ->
  getSchedulingAnnotationsHash o' = getSchedulingAnnotationsHash o.
Proof using Type.
  intros Hs. unfold getSchedulingAnnotationsHash. do 2 f_equal. apply map_eq. intros k.
  assert (Hv : forall m : gmap string string,
    foldl (fun result '(k, v) => if bool_decide (k ∈ knownSchedulingAnnotations) then <[k := v]> result else result)
      (∅ : gmap string string) (range_map m) !! k = if decide (k ∈ knownSchedulingAnnotations) then m !! k else None).
  { intros m. generalize knownSchedulingAnnotations. intros known. rewrite (foldl_point (fun (m : gmap string string) k => m !! k)
      (fun k o v => if decide (k ∈ known) then Some v else o)).
    - rewrite lookup_empty. destruct (m !! k); by case_decide.
    - intros s k' v n. simpl. case_bool_decide; repeat case_decide; subst; try done;
        rewrite ?lookup_insert_eq, ?lookup_insert_ne by done; done. }
  rewrite !Hv. case_decide as Hk; [|done]. by apply (si_annotations _ _ Hs), known_not_output.
Qed.

Lemma template_frame o o' : same_inputs o o' ->
  GetTemplateAsUnstructured (fo_Spec o') = GetTemplateAsUnstructured (fo_Spec o) /\
  GetTemplateMetadata (fo_Spec o') = GetTemplateMetadata (fo_Spec o).
Proof using Type.
  intros Hs. unfold GetTemplateAsUnstructured, GetTemplateMetadata. by rewrite (si_template _ _ Hs).
Qed.

Lemma computeSchedulingTriggers_frame ftc o o' policy cs : same_inputs o o' ->
  computeSchedulingTriggers ftc o' policy cs = computeSchedulingTriggers ftc o policy cs.
Proof using Type.
  intros Hs. destruct (template_frame _ _ Hs) as [Ht _].
  assert (Ham : fo_Annotations o' !! AutoMigrationInfoAnnotation = fo_Annotations o !! AutoMigrationInfoAnnotation)
    by (apply (si_annotations _ _ Hs); not_output).
  unfold computeSchedulingTriggers, getReplicaCount, getResourceRequest, GetResourcePodSpec, GetPodSpec.
  by rewrite (getSchedulingAnnotationsHash_frame _ _ Hs), Ht, Ham.
Qed.

Lemma GetMatchedPolicyKey_frame o o' : same_inputs o o' -> GetMatchedPolicyKey o' = GetMatchedPolicyKey o.
Proof using Type. intros Hs. unfold GetMatchedPolicyKey. by rewrite (si_namespace _ _ Hs), (si_labels _ _ Hs). Qed.

Lemma getCustomMigrationInfoBytes_frame bytes o o' ftc : same_inputs o o' ->
  getCustomMigrationInfoBytes bytes o' ftc = getCustomMigrationInfoBytes bytes o ftc.
Proof using Type.
  intros Hs. destruct (template_frame _ _ Hs) as [Ht _].
  unfold getCustomMigrationInfoBytes, validateMigrationConfig, supportsReplicas. by rewrite Ht.
Qed.

(** The applied migration configuration is up to date. *)
Lemma updateMigrationConfig_settles o ftc o1 o' : updateMigrationConfig o ftc = Returns o1 ->
  same_inputs o1 o' -> updateMigrationConfig o' ftc = Returns o'.
Proof using Type.
  intros Hup Hs.
  assert (Hm : fo_Annotations o' !! MigrationConfigurationAnnotation =
               fo_Annotations o1 !! MigrationConfigurationAnnotation) by (apply (si_annotations _ _ Hs); not_output).
  assert (Ha : fo_Annotations o' !! AppliedMigrationConfigurationAnnotation =
               fo_Annotations o1 !! AppliedMigrationConfigurationAnnotation)
    by (apply (si_annotations _ _ Hs); not_output).
  unfold updateMigrationConfig in *. rewrite Hm, Ha.
  destruct (fo_Annotations o !! MigrationConfigurationAnnotation) as [bytes|] eqn:Em.
  - apply may_panic_bind_Returns in Hup as (x & Hx & Hup).
    assert (Hx' : getCustomMigrationInfoBytes bytes o' ftc = Returns x).
    { rewrite (getCustomMigrationInfoBytes_frame _ _ _ _ Hs), <- Hx.
      destruct x; injection Hup as <-; done. }
    destruct x as [info|err]; injection Hup as <-.
    + simpl. rewrite lookup_insert_ne, Em by done. rewrite Hx'. simpl.
      rewrite insert_id; [by rewrite SetAnnotations_eta|]. rewrite Ha. apply lookup_insert_eq.
    + by rewrite Em, Hx'.
  - case_bool_decide as Hb; injection Hup as <-; simpl.
    + rewrite lookup_delete_ne, Em, lookup_delete_eq by done. done.
    + rewrite Em. by rewrite bool_decide_eq_false_2.
Qed.

Lemma pending_frame o o' : fo_Annotations o' !! PendingControllersAnnotation =
  fo_Annotations o !! PendingControllersAnnotation -> GetPendingControllers o' = GetPendingControllers o.
Proof using Type. intros H. unfold GetPendingControllers. by rewrite H. Qed.

(** A written annotation leaves the inputs alone. *)
Lemma SetAnnotations_inputs o m :
  (forall k, k ∉ output_annotations -> m !! k = fo_Annotations o !! k) -> same_inputs o (SetAnnotations o m).
Proof using Type. intros Hm. by split. Qed.

Lemma updateSchedulingAnnotations_inputs t d o o1 ch : updateSchedulingAnnotations t d o = inl (o1, ch) ->
  same_inputs o o1 /\ fo_Annotations o1 = annotations_after t d (fo_Annotations o).
Proof using Type.
  destruct (updateSchedulingAnnotations_eq t d o) as (ch' & -> & _). intros [= <- _].
  split; [|done]. apply SetAnnotations_inputs. intros k Hk.
  apply annotations_after_other; intros ->; apply Hk; by apply (bool_decide_eq_true _); vm_compute.
Qed.

Lemma SetControllerPlacement_frame spec c names spec' ch :
  SetControllerPlacement spec c names = (spec', ch) ->
  Template spec' = Template spec /\ Overrides spec' = Overrides spec.
Proof using Type.
  unfold SetControllerPlacement, DeleteControllerPlacement. destruct names; cbv zeta.
  - destruct (deleteEntry _ _ _). by intros [= <- _].
  - destruct (setEntry _ _ _ _). by intros [= <- _].
Qed.

Lemma SetControllerOverrides_frame spec c os spec' ch :
  SetControllerOverrides spec c os = (spec', ch) ->
  Template spec' = Template spec /\ Placements spec' = Placements spec.
Proof using Type.
  unfold SetControllerOverrides, DeleteControllerOverrides. destruct os; cbv zeta.
  - destruct (deleteEntry _ _ _). by intros [= <- _].
  - destruct (setEntry _ _ _ _). by intros [= <- _].
Qed.

Lemma applySchedulingResult_inputs ftc o result aux o1 ch :
  applySchedulingResult ftc o result aux = inl (o1, ch) ->
  same_inputs o o1 /\ forall k, k ∈ [SchedulingTriggersAnnotation; SchedulingDeferredReasonsAnnotation;
                                     PendingControllersAnnotation] ->
                    fo_Annotations o1 !! k = fo_Annotations o !! k.
Proof using Type.
  intros H. apply applySchedulingResult_steps in H as (spec1 & ch1 & os & spec2 & ch2 & Hp & _ & Ho & _ & m & -> & Hm).
  apply SetControllerPlacement_frame in Hp as [Hp _]. apply SetControllerOverrides_frame in Ho as [Ho _].
  split.
  - split; simpl; [done..|congruence|]. intros k Hk.
    assert (Hne : forall k', k' ∈ output_annotations -> k <> k') by (by intros k' Hk' ->).
    rewrite Hm, auxAnnotations_other; [done|..]; apply Hne; by apply (bool_decide_eq_true _); vm_compute.
  - intros k Hk. simpl. by each_member; rewrite Hm, auxAnnotations_other.
Qed.

(** ** The second pass *)

(** The scheduler is not pending twice. *)
Definition pending_once (ftc : FederatedTypeConfig) (o : FederatedObject) : Prop :=
  (forall cs, GetPendingControllers o = inl cs -> runs_once sched cs) /\
  forall g, g ∈ GetDownstreamControllers (Controllers ftc) sched -> sched ∉ g.

(** What the last steps of a reconciliation establish. *)
Record handed_over (ftc : FederatedTypeConfig) (o o' : FederatedObject) : Prop := {
  ho_inputs : same_inputs o o';
  ho_kept : forall k, k ∈ [SchedulingTriggersAnnotation; SchedulingDeferredReasonsAnnotation] ->
            fo_Annotations o' !! k = fo_Annotations o !! k;
  ho_pending : exists cs, GetPendingControllers o' = inl cs;
  ho_again : updatePendingControllers ftc o' false = inl (o', false)
}.

Lemma updatePendingControllers_hands_over ftc o modified o' ch : pending_once ftc o ->
  updatePendingControllers ftc o modified = inl (o', ch) -> handed_over ftc o o'.
Proof using Type.
  intros [Hpend Hdown] Hup. unfold updatePendingControllers in *.
  destruct (GetPendingControllers o) as [cs|] eqn:Hcs; [|unfold UpdatePendingControllers in Hup; by rewrite Hcs in Hup].
  destruct (Hpend cs eq_refl) as [Hnd Hrest].
  destruct (UpdatePendingControllers_spec o sched modified (GetControllers ftc) cs o' ch Hcs Hnd) as (Hg & Ha & a & Heq);
    [destruct modified; [exact Hdown|exact Hrest]|exact Hup|].
  subst o'. split.
  - apply SetAnnotations_inputs. intros k Hk. rewrite lookup_insert_ne; [done|].
    intros <-. apply Hk. by apply (bool_decide_eq_true _); vm_compute.
  - intros k Hk. simpl. by each_member; rewrite lookup_insert_ne.
  - by eexists.
  - exact Ha.
Qed.
End Frame.

(** ** Reconciling twice *)

Section Reconcile.
Context `{K : Kubernetes} `{R : GoRuntime} `{C : !Codecs} `{F : FloatRuntime}.
Context (now : string -> Time) (fmt : gmap string ResourceList -> string).

Notation sched := PrefixedGlobalSchedulerName.

Definition joined (allClusters : list FederatedCluster) : list FederatedCluster :=
  filter (fun cluster => IsClusterJoined (Status cluster) = true) allClusters.

(** How [prepareToSchedule] comes to its decision: [o1] has the applied
    migration, [o2] the scheduling annotations. *)
Record decided (s : Scheduler) (ftc : FederatedTypeConfig) (o1 o2 : FederatedObject)
    (policy : option PropagationPolicy) (profile : option SchedulingProfile)
    (clusters : list FederatedCluster) (t d : string) (ch ach : bool) : Prop := {
  de_clusters : exists allClusters, s_FederatedClusters s = inl allClusters /\ clusters = joined allClusters;
  de_policy : policyAndProfile s o1 = inl (policy, profile);
  de_triggers : exists triggers, computeSchedulingTriggers ftc o1 policy clusters = inl triggers /\
                computeSchedulingAnnotations triggers o1 policy = inl (t, d, ch);
  de_update : updateSchedulingAnnotations t d o1 = inl (o2, ach)
}.

Lemma prepareToSchedule_cases s o ftc p : prepareToSchedule s o ftc = Returns p ->
  exists o1, updateMigrationConfig o ftc = Returns o1 /\
    ((exists r, p = EarlyReturn r None) \/
     exists o2 policy profile clusters t d ch ach,
       decided s ftc o1 o2 policy profile clusters t d ch ach /\
       p = if negb ch || negb (String.eqb (default ""%string (fo_Annotations o2 !! NoSchedulingAnnotation)) "")
           then skipScheduling s ftc o2 ach else Proceed o2 policy clusters profile).
Proof using Type.
  clear now fmt. unfold prepareToSchedule. rewrite may_panic_bind_Returns. intros (o1 & Ho1 & H). exists o1.
  split; [done|]. injection H as <-.
  destruct (ControllerDependenciesFulfilled o1 sched) as [[|]|]; [|left; by eexists..].
  destruct (s_FederatedClusters s) as [all|] eqn:Ec; [|left; by eexists].
  destruct (policyAndProfile s o1) as [[policy profile]|] eqn:Ep; [|left; by eexists].
  destruct (computeSchedulingTriggers ftc o1 policy _) as [triggers|] eqn:Et; [|left; by eexists].
  destruct (computeSchedulingAnnotations triggers o1 policy) as [[[t d] ch]|] eqn:Ea; [|left; by eexists].
  destruct (updateSchedulingAnnotations t d o1) as [[o2 ach]|] eqn:Eu; [|left; by eexists].
  right. eexists o2, policy, profile, _, t, d, ch, ach. split; [|reflexivity].
  split; [by eexists|done| |done]. by exists triggers.
Qed.

(** The caches with [o] in the place of the object [key]. *)
Definition with_cached (s : Scheduler) (key : QualifiedName) (o : FederatedObject) : Scheduler := {|
  s_FederatedObject := fun ns name =>
    if decide (ns = qn_Namespace key /\ name = qn_Name key) then inl o else s_FederatedObject s ns name;
  s_ClusterFederatedObject := fun name =>
    if decide (name = qn_Name key) then inl o else s_ClusterFederatedObject s name;
  s_PropagationPolicy := s_PropagationPolicy s;
  s_ClusterPropagationPolicy := s_ClusterPropagationPolicy s;
  s_SchedulingProfile := s_SchedulingProfile s;
  s_FederatedClusters := s_FederatedClusters s;
  s_ResourceFTC := s_ResourceFTC s;
  s_webhookPlugins := s_webhookPlugins s;
  s_enableKatalystSupport := s_enableKatalystSupport s;
  s_Update := s_Update s;
  s_ListFederatedObjects := s_ListFederatedObjects s;
  s_ListClusterFederatedObjects := s_ListClusterFederatedObjects s
|}.

Lemma with_cached_get s key o : GetFromLister (with_cached s key o) (qn_Namespace key) (qn_Name key) = inl o.
Proof using Type. clear now fmt. unfold GetFromLister. simpl. destruct (String.eqb _ _); by rewrite decide_True. Qed.

Lemma policyAndProfile_frame s key o o1 o' : same_inputs o1 o' ->
  policyAndProfile (with_cached s key o) o' = policyAndProfile s o1.
Proof using Type. clear now fmt. intros Hs. unfold policyAndProfile. by rewrite (GetMatchedPolicyKey_frame _ _ Hs). Qed.

(** The same caches, the clusters listed as [cs]. *)
Definition with_listed (s : Scheduler) (cs : list FederatedCluster) : Scheduler := {|
  s_FederatedObject := s_FederatedObject s;
  s_ClusterFederatedObject := s_ClusterFederatedObject s;
  s_PropagationPolicy := s_PropagationPolicy s;
  s_ClusterPropagationPolicy := s_ClusterPropagationPolicy s;
  s_SchedulingProfile := s_SchedulingProfile s;
  s_FederatedClusters := inl cs;
  s_ResourceFTC := s_ResourceFTC s;
  s_webhookPlugins := s_webhookPlugins s;
  s_enableKatalystSupport := s_enableKatalystSupport s;
  s_Update := s_Update s;
  s_ListFederatedObjects := s_ListFederatedObjects s;
  s_ListClusterFederatedObjects := s_ListClusterFederatedObjects s
|}.

(** The policy of [o] says when to reschedule, and may reschedule. *)
Definition reschedules_when (s : Scheduler) (o : FederatedObject) (trigger : RescheduleTrigger) : Prop :=
  exists policy profile, policyAndProfile s o = inl (Some policy, profile) /\
    getIsStickyClusterFromPolicy policy = false /\
    pps_ReschedulePolicy (pol_Spec policy) ≫= Trigger = Some trigger.

(** [cs] lists the clusters of the cache: as the last time, or in another order
    under a policy that says when to reschedule. *)
Definition listed (s : Scheduler) (o : FederatedObject) (cs : list FederatedCluster) : Prop :=
  s_FederatedClusters s = inl cs \/
  exists all trigger, s_FederatedClusters s = inl all /\ all ≡ₚ cs /\ NoDup (c_Name <$> all) /\
    reschedules_when s o trigger /\ forall triggers, marshals triggers.

Lemma updateMigrationConfig_policy s o ftc o1 : updateMigrationConfig o ftc = Returns o1 ->
  policyAndProfile s o1 = policyAndProfile s o.
Proof using Type.
  clear now fmt. unfold updateMigrationConfig, policyAndProfile, GetMatchedPolicyKey.
  destruct (fo_Annotations o !! MigrationConfigurationAnnotation).
  - intros H. apply may_panic_bind_Returns in H as ([x|x] & _ & H); by injection H as <-.
  - case_bool_decide; by intros [= <-].
Qed.

(** The triggers of the second pass ask for the annotations that are there. *)
Lemma triggers_relisted s ftc o o1 o2 policy profile clusters t d ch ach cs o' :
  updateMigrationConfig o ftc = Returns o1 ->
  decided s ftc o1 o2 policy profile clusters t d ch ach -> listed s o cs ->
  fo_Annotations o' !! SchedulingTriggersAnnotation = Some t ->
  exists triggers, computeSchedulingTriggers ftc o1 policy (joined cs) = inl triggers /\
    computeSchedulingAnnotations triggers o' policy = inl (t, d, false).
Proof using Type.
  clear now fmt. intros Hm [(all & Hall & ->) Hpol (triggers & Htr & Han) _] Hcs HT.
  destruct Hcs as [Hcs|(all' & trigger & Hall' & Hp & Hnd & (pol & prof & Hpol' & Hst & Htrg) & Hmar)].
  { rewrite Hcs in Hall. injection Hall as ->. exists triggers. split; [done|].
    by eapply computeSchedulingAnnotations_again. }
  rewrite Hall in Hall'. injection Hall' as <-.
  rewrite <- (updateMigrationConfig_policy s _ _ _ Hm), Hpol in Hpol'. injection Hpol' as -> ->.
  assert (Hj : joined all ≡ₚ joined cs) by (unfold joined; by rewrite Hp).
  assert (Hnd' : NoDup (c_Name <$> joined all))
    by (eapply sublist_NoDup; [exact Hnd|apply fmap_sublist, sublist_filter]).
  exists (with_clusters triggers (c_Name <$> joined cs)). split.
  - eapply computeSchedulingTriggers_similar; [exact Hj| |done..].
    apply Forall_Forall2_diag, Forall_forall. by intros c _.
  - eapply computeSchedulingAnnotations_reordered; try done.
    by rewrite (computeSchedulingTriggers_clusters _ _ _ _ _ Htr), Hj.
Qed.

(** The second pass neither schedules nor updates. *)
Lemma second_pass s key c ftc o o1 o2 policy profile clusters t d ch ach cs o3 o' :
  updateMigrationConfig o ftc = Returns o1 ->
  decided s ftc o1 o2 policy profile clusters t d ch ach ->
  listed s o cs ->
  same_inputs o2 o3 ->
  (forall k, k ∈ [SchedulingTriggersAnnotation; SchedulingDeferredReasonsAnnotation] ->
     fo_Annotations o3 !! k = fo_Annotations o2 !! k) ->
  handed_over ftc o3 o' ->
  prepareToSchedule (with_listed (with_cached s key c) cs) o' ftc = Returns (EarlyReturn StatusAllOK None).
Proof using Type.
  clear now fmt. intros Hm Hdec Hcs Hs23 Hk23 [Hs3 Hk3 [pcs Hpcs] Hagain].
  destruct (updateSchedulingAnnotations_inputs _ _ _ _ _ (de_update _ _ _ _ _ _ _ _ _ _ _ Hdec)) as [Hs12 Ha2].
  assert (Hs1 : same_inputs o1 o') by (etrans; [exact Hs12|]; etrans; [exact Hs23|exact Hs3]).
  assert (HT : fo_Annotations o' !! SchedulingTriggersAnnotation = Some t).
  { rewrite Hk3, Hk23, Ha2 by left. apply annotations_after_triggers. }
  assert (HD : fo_Annotations o' !! SchedulingDeferredReasonsAnnotation = if String.eqb d "" then None else Some d).
  { rewrite Hk3, Hk23, Ha2 by (right; left). apply annotations_after_deferred. }
  destruct (triggers_relisted _ _ _ _ _ _ _ _ _ _ _ _ _ _ Hm Hdec Hcs HT) as (triggers & Htr & Han).
  unfold prepareToSchedule. rewrite (updateMigrationConfig_settles _ _ _ _ Hm Hs1). cbn [mbind may_panic_bind].
  destruct (fulfilled_spec o' sched pcs Hpcs) as ([|] & -> & _); [|done].
  cbn [with_listed s_FederatedClusters].
  change (policyAndProfile (with_listed (with_cached s key c) cs)) with (policyAndProfile (with_cached s key c)).
  rewrite (policyAndProfile_frame _ _ _ _ _ Hs1), (de_policy _ _ _ _ _ _ _ _ _ _ _ Hdec).
  fold (joined cs). rewrite (computeSchedulingTriggers_frame _ _ _ _ _ Hs1), Htr, Han.
  destruct (updateSchedulingAnnotations_eq t d o') as (b & -> & Hb).
  assert (Hafter : annotations_after t d (fo_Annotations o') = fo_Annotations o').
  { apply map_eq. intros k. destruct (decide (k = SchedulingTriggersAnnotation)) as [->|H1].
    { by rewrite annotations_after_triggers, HT. }
    destruct (decide (k = SchedulingDeferredReasonsAnnotation)) as [->|H2].
    { by rewrite annotations_after_deferred, HD. }
    by rewrite annotations_after_other. }
  rewrite Hafter, SetAnnotations_eta in *. rewrite (proj2 Hb eq_refl). cbn [negb orb].
  unfold skipScheduling. rewrite Hagain. done.
Qed.

(** What the cache returns after the API server stored [o']: the generation is
    set by the server. *)
Definition setGeneration (o : FederatedObject) (g : Z) : FederatedObject := {|
  fo_Namespace := fo_Namespace o; fo_Name := fo_Name o; fo_Labels := fo_Labels o;
  fo_Annotations := fo_Annotations o; fo_OwnerReferences := fo_OwnerReferences o; fo_Generation := g;
  fo_DeletionTimestamp := fo_DeletionTimestamp o; fo_Finalizers := fo_Finalizers o;
  fo_Spec := fo_Spec o; fo_Status := fo_Status o
|}.

Lemma setGeneration_handed_over ftc o o' g : handed_over ftc o o' -> handed_over ftc o (setGeneration o' g).
Proof using Type.
  clear now fmt. intros [Hs Hk Hp Ha]. split; [|done..|].
  - etrans; [exact Hs|]. by split.
  - revert Ha. unfold updatePendingControllers, UpdatePendingControllers, SetPendingControllers.
    unfold GetPendingControllers in *. simpl. intros Ha.
    destruct (fo_Annotations o' !! PendingControllersAnnotation) as [v|]; [|done].
    destruct (Unmarshal_PendingControllers v) as [p|]; [|done].
    destruct (NormalizeControllers p) as [|g0 r0]; destruct (Marshal_PendingControllers _); try done;
      rewrite AddAnnotation_eq in Ha |- * by done; simpl in *; injection Ha as Ha1 Ha2;
      apply (f_equal fo_Annotations) in Ha1; simpl in Ha1; by rewrite Ha1, Ha2.
Qed.

Lemma skipScheduling_writes s ftc o ach r o' : pending_once ftc o ->
  skipScheduling s ftc o ach = EarlyReturn r (Some o') -> handed_over ftc o o'.
Proof using Type.
  clear now fmt. unfold skipScheduling. intros Hp H.
  destruct (updatePendingControllers ftc o false) as [[o3 updated]|] eqn:E; [|done].
  destruct (updated || ach); [|done]. destruct (s_Update s o3); injection H as _ <-;
    by eapply updatePendingControllers_hands_over.
Qed.

Lemma persistSchedulingResult_writes s ftc o result aux r o' : pending_once ftc o ->
  persistSchedulingResult s ftc o result aux = (r, Some o') ->
  exists o3, same_inputs o o3 /\
    (forall k, k ∈ [SchedulingTriggersAnnotation; SchedulingDeferredReasonsAnnotation] ->
       fo_Annotations o3 !! k = fo_Annotations o !! k) /\
    handed_over ftc o3 o'.
Proof using Type.
  clear now fmt. unfold persistSchedulingResult. intros [Hp Hd] H.
  destruct (applySchedulingResult ftc o result aux) as [[o3 changed]|] eqn:Ea; [|done].
  destruct (applySchedulingResult_inputs _ _ _ _ _ _ Ea) as [Hs Hk].
  destruct (updatePendingControllers ftc o3 changed) as [[o4 b]|] eqn:Eu; [|done].
  exists o3. split_and!; [done|intros k Hin; apply Hk; each_member; [left|right; left]|].
  assert (o4 = o') as -> by (by destruct (s_Update s o4); injection H as _ ->).
  eapply updatePendingControllers_hands_over; [|exact Eu]. split; [|done].
  rewrite (pending_frame o o3); [done|]. apply Hk. right; right; left.
Qed.

(** The object of a reconciliation that writes. *)
Lemma reconcile_writes s key r o' : reconcile now fmt s key = Returns (r, Some o') ->
  exists o md ftc, GetFromLister s (qn_Namespace key) (qn_Name key) = inl o /\
    fo_DeletionTimestamp o = None /\
    GetTemplateMetadata (fo_Spec o) = inl md /\ s_ResourceFTC s (tm_GVK md) = Some ftc /\
    (prepareToSchedule s o ftc = Returns (EarlyReturn r (Some o')) \/
     exists o2 policy clusters profile result aux,
       prepareToSchedule s o ftc = Returns (Proceed o2 policy clusters profile) /\
       schedule now fmt s ftc o2 policy profile clusters = Returns (inl result) /\
       auxInfoOf policy = Returns aux /\
       persistSchedulingResult s ftc o2 result aux = (r, Some o')).
Proof using Type.
  unfold reconcile. destruct (GetFromLister _ _ _) as [o|e]; [|intros [=]].
  case_bool_decide as Hd; [intros [=]|]. apply eq_None_not_Some in Hd.
  destruct (GetTemplateMetadata (fo_Spec o)) as [md|] eqn:Emd; [|intros [=]].
  destruct (s_ResourceFTC s (tm_GVK md)) as [ftc|] eqn:Eftc; [|intros [=]].
  rewrite may_panic_bind_Returns. intros (p & Hp & H). exists o, md, ftc. split_and!; try done.
  destruct p as [r0 w|o2 policy clusters profile]; [injection H as <- <-; by left|]. right.
  apply may_panic_bind_Returns in H as (res & Hres & H). destruct res as [result|wr]; [|discriminate H].
  apply may_panic_bind_Returns in H as (aux & Haux & [= H]). by exists o2, policy, clusters, profile, result, aux.
Qed.

Lemma updateMigrationConfig_pending o ftc o1 : updateMigrationConfig o ftc = Returns o1 ->
  fo_Annotations o1 !! PendingControllersAnnotation = fo_Annotations o !! PendingControllersAnnotation /\
  fo_DeletionTimestamp o1 = fo_DeletionTimestamp o /\ Template (fo_Spec o1) = Template (fo_Spec o).
Proof using Type.
  clear now fmt. unfold updateMigrationConfig. intros H.
  destruct (fo_Annotations o !! MigrationConfigurationAnnotation) as [bytes|].
  - apply may_panic_bind_Returns in H as ([x|x] & _ & H); injection H as <-; simpl; [|done].
    by rewrite lookup_insert_ne.
  - case_bool_decide; injection H as <-; simpl; [by rewrite lookup_delete_ne|done].
Qed.

Lemma decided_pending s ftc o o1 o2 policy profile clusters t d ch ach :
  updateMigrationConfig o ftc = Returns o1 -> decided s ftc o1 o2 policy profile clusters t d ch ach ->
  pending_once ftc o -> pending_once ftc o2.
Proof using Type.
  clear now fmt. intros Hm Hdec [Hp Hd]. split; [|done].
  destruct (updateMigrationConfig_pending _ _ _ Hm) as (H1 & _).
  destruct (updateSchedulingAnnotations_inputs _ _ _ _ _ (de_update _ _ _ _ _ _ _ _ _ _ _ Hdec)) as [_ H2].
  rewrite (pending_frame o o2); [done|]. by rewrite H2, annotations_after_other, H1.
Qed.

(** C4. A reconciliation that succeeds and writes the object settles, with the
    policies, profiles and clusters of the caches unchanged: when the cache
    returns what was written, the next reconciliation succeeds without
    scheduling or writing, provided the scheduler is not pending twice and the
    clusters are listed in the same order; or in any order under a policy that
    says when to reschedule, if their names are distinct and triggers are encoded
    as texts that are not empty. *)
Theorem reconcile_settles s key o' g cs :
  (forall o gvk ftc, GetFromLister s (qn_Namespace key) (qn_Name key) = inl o ->
     s_ResourceFTC s gvk = Some ftc -> pending_once ftc o) ->
  reconcile now fmt s key = Returns (StatusAllOK, Some o') ->
  (forall o, GetFromLister s (qn_Namespace key) (qn_Name key) = inl o -> listed s o cs) ->
  reconcile now fmt (with_listed (with_cached s key (setGeneration o' g)) cs) key = Returns (StatusAllOK, None).
Proof using Type.
  intros Hpend H Hlisted. apply reconcile_writes in H as (o & md & ftc & Hget & Hdel & Hmd & Hftc & H).
  specialize (Hpend _ _ _ Hget Hftc). specialize (Hlisted _ Hget). set (o'' := setGeneration o' g).
  assert (Hw : exists o1 o2 o3 policy profile clusters t d ch ach,
    updateMigrationConfig o ftc = Returns o1 /\ decided s ftc o1 o2 policy profile clusters t d ch ach /\
    same_inputs o2 o3 /\
    (forall k, k ∈ [SchedulingTriggersAnnotation; SchedulingDeferredReasonsAnnotation] ->
       fo_Annotations o3 !! k = fo_Annotations o2 !! k) /\ handed_over ftc o3 o').
  { destruct H as [Hp|(o2 & policy & clusters & profile & result & aux & Hp & _ & _ & Hper)];
      apply prepareToSchedule_cases in Hp as (o1 & Hm & [[r Hr]|(o2' & pol & prof & cl & t & d & ch & ach & Hdec & Hp)]);
      try discriminate Hr; pose proof (decided_pending _ _ _ _ _ _ _ _ _ _ _ _ Hm Hdec Hpend) as Hpend2.
    - destruct (_ || _); [|discriminate Hp]. symmetry in Hp.
      exists o1, o2', o2', pol, prof, cl, t, d, ch, ach. split_and!; [done..|].
      by eapply skipScheduling_writes.
    - destruct (_ || _).
      { unfold skipScheduling in Hp. destruct (updatePendingControllers _ _ _) as [[? ?]|]; [|done].
        destruct (_ || _); [|done]. by destruct (s_Update _ _). }
      injection Hp as -> -> -> ->.
      destruct (persistSchedulingResult_writes _ _ _ _ _ _ _ Hpend2 Hper) as (o3 & Hs & Hk & Hho).
      by exists o1, o2', o3, pol, prof, cl, t, d, ch, ach. }
  destruct Hw as (o1 & o2 & o3 & policy & profile & clusters & t & d & ch & ach & Hm & Hdec & Hs & Hk & Hho).
  apply (setGeneration_handed_over _ _ _ g) in Hho. fold o'' in Hho.
  destruct (updateMigrationConfig_pending _ _ _ Hm) as (_ & Hd1 & Ht1).
  destruct (updateSchedulingAnnotations_inputs _ _ _ _ _ (de_update _ _ _ _ _ _ _ _ _ _ _ Hdec)) as [Hs12 _].
  assert (Hs1 : same_inputs o1 o'') by (etrans; [exact Hs12|]; etrans; [exact Hs|exact (ho_inputs _ _ _ Hho)]).
  unfold reconcile. change (GetFromLister (with_listed ?s' _)) with (GetFromLister s'). rewrite with_cached_get.
  rewrite (si_deletion _ _ Hs1), Hd1, Hdel. rewrite bool_decide_eq_false_2 by (by intros [? ?]).
  unfold GetTemplateMetadata in *. rewrite (si_template _ _ Hs1), Ht1, Hmd.
  cbn [with_listed with_cached s_ResourceFTC]. rewrite Hftc.
  rewrite (second_pass s key o'' ftc o o1 o2 policy profile clusters t d ch ach cs o3 o'' Hm Hdec
    Hlisted Hs Hk Hho). done.
Qed.
End Reconcile.
