(* ===== verification/EndToEndTheorems.v ===== *)
(** * From the caches to the placement

    The clusters that a reconciliation places in the object are joined member
    clusters that the filters accept. *)

From Stdlib Require Import ZArith Lia String Ascii.
From S2P Require Import Prelude GoStrings K8s Types ApiTypes Codecs FedObject FedObjectTheorems Resources PodUtil.
From S2P Require Import Triggers TriggersTheorems SchedulingUnit Float64 Runtime RuntimeTheorems GenericScheduler.
From S2P Require Import GenericSchedulerTheorems Webhook Profile ProfileTheorems Scheduler SchedulerTheorems.
From S2P Require Import ReconcileTheorems.

Section EndToEnd.
Context `{K : Kubernetes} `{R : GoRuntime} `{C : !Codecs} `{F : FloatRuntime} `{W : !WebhookLibraries}.
Context (now : string -> Time) (fmt : gmap string ResourceList -> string).

Notation sched := PrefixedGlobalSchedulerName.

(** The names of the clusters that the scheduler placed the object on. *)
Definition placedOn (o : FederatedObject) : list string :=
  cref_Cluster <$> GetControllerPlacement (fo_Spec o) sched.

Lemma placedOn_result o result : GetControllerPlacement (fo_Spec o) sched = sortedRefs (resultNames result) ->
  forall name, name ∈ placedOn o <-> is_Some (SuggestedClusters result !! name).
Proof using Type.
  clear now fmt. intros Hp name. unfold placedOn, resultNames in *. rewrite Hp, sortedRefs_names, elem_of_sort_slice, elem_of_elements.
  apply elem_of_dom.
Qed.

Lemma applySchedulingResult_placement ftc o result aux o1 ch : NoDup (pwc_Controller <$> Placements (fo_Spec o)) ->
  applySchedulingResult ftc o result aux = inl (o1, ch) ->
  GetControllerPlacement (fo_Spec o1) sched = sortedRefs (resultNames result).
Proof using Type.
  clear now fmt. intros Hnd H.
  apply applySchedulingResult_steps in H as (spec1 & ch1 & os & spec2 & ch2 & Hp & _ & Ho & _ & m & -> & _).
  pose proof (SetControllerPlacement_placed sched (resultNames result) (fo_Spec o) Hnd) as Hpl. rewrite Hp in Hpl.
  apply SetControllerOverrides_frame in Ho as [_ Ho].
  rewrite <- (pl_get _ _ _ _ _ Hpl). unfold GetControllerPlacement. simpl. by rewrite Ho.
Qed.

Lemma updatePendingControllers_spec ftc o b o' ch : updatePendingControllers ftc o b = inl (o', ch) ->
  fo_Spec o' = fo_Spec o.
Proof using Type.
  clear now fmt. unfold updatePendingControllers, UpdatePendingControllers. intros H.
  destruct (GetPendingControllers o) as [cs|]; [|done].
  assert (Hset : exists l, SetPendingControllers o l = inl (o', ch)) by (destruct cs; by eexists).
  destruct Hset as [l Hl]. by apply SetPendingControllers_spec in Hl as (_ & [a ->] & _).
Qed.

Lemma updateMigrationConfig_spec o ftc o1 : updateMigrationConfig o ftc = Returns o1 -> fo_Spec o1 = fo_Spec o.
Proof using Type.
  clear now fmt. unfold updateMigrationConfig. intros H.
  destruct (fo_Annotations o !! MigrationConfigurationAnnotation) as [bytes|].
  - by apply may_panic_bind_Returns in H as ([x|x] & _ & H); injection H as <-.
  - case_bool_decide; by injection H as <-.
Qed.

(** What [prepareToSchedule] does to the spec: nothing. *)
Lemma prepareToSchedule_spec s o ftc p : prepareToSchedule s o ftc = Returns p ->
  match p with
  | EarlyReturn _ (Some o') => fo_Spec o' = fo_Spec o
  | EarlyReturn _ None => True
  | Proceed o2 policy clusters profile => fo_Spec o2 = fo_Spec o /\
      exists o1 all, s_FederatedClusters s = inl all /\ clusters = joined all /\
        policyAndProfile s o1 = inl (policy, profile)
  end.
Proof using Type.
  clear now fmt. intros H.
  apply prepareToSchedule_cases in H as (o1 & Hm & [[r ->]|(o2 & pol & prof & cl & t & d & ch & ach & Hdec & ->)]); [done|].
  destruct Hdec as [(all & Hall & ->) Hpol _ Hup].
  assert (Hs2 : fo_Spec o2 = fo_Spec o).
  { destruct (updateSchedulingAnnotations_eq t d o1) as (b & Hu & _). rewrite Hu in Hup. injection Hup as <- _.
    simpl. by eapply updateMigrationConfig_spec. }
  destruct (_ || _).
  - unfold skipScheduling. destruct (updatePendingControllers ftc o2 false) as [[o3 u]|] eqn:E; [|done].
    apply updatePendingControllers_spec in E. destruct (u || ach); [|done].
    destruct (s_Update s o3); congruence.
  - split; [done|]. by exists o1, all.
Qed.

(** Why a cluster is suggested: the unit keeps its clusters, or the cluster is
    eligible. *)
Definition justified (s : Scheduler) (su : SchedulingUnit) (name : string) : Prop :=
  (keeps_clusters su /\ is_Some (CurrentClusters su !! name)) \/
  exists all c, s_FederatedClusters s = inl all /\ c ∈ all /\ IsClusterJoined (Status c) = true /\
    c_Name c = name /\ eligible now su c.

(** All profiles leave the default plugins alone. *)
Definition default_profiles (s : Scheduler) : Prop :=
  forall name profile, s_SchedulingProfile s name = inl profile -> sp_Plugins profile = None.

Lemma policyAndProfile_default s o policy profile : default_profiles s ->
  policyAndProfile s o = inl (policy, profile) -> sp_Plugins <$> profile = Some None \/ profile = None.
Proof using Type.
  clear now fmt. intros Hdef. unfold policyAndProfile. destruct (GetMatchedPolicyKey o); [|intros [= _ <-]; by right].
  destruct (policyFromStore s _) as [pol|]; [|done]. destruct (negb _); [|intros [= _ <-]; by right].
  destruct (s_SchedulingProfile s _) as [prof|] eqn:E; [|done]. intros [= _ <-]. left. simpl.
  by rewrite (Hdef _ _ E).
Qed.

Lemma Returns_inl {A B} (x y : A) : mret (inl x) = Returns (inl y : A + B) -> x = y.
Proof. by intros [= ->]. Qed.

Lemma schedule_justified s ftc o policy profile all result name :
  webhooks (s_webhookPlugins s) -> sp_Plugins <$> profile = Some None \/ profile = None ->
  s_FederatedClusters s = inl all ->
  schedule now fmt s ftc o policy profile (joined all) = Returns (inl result) ->
  is_Some (SuggestedClusters result !! name) ->
  exists pol su, policy = Some pol /\
    schedulingUnitForFedObject ftc o pol (s_enableKatalystSupport s) = inl su /\ justified s su name.
Proof using Type.
  intros Hwh Hprof Hall Hrun [v Hv]. unfold schedule in Hrun. destruct policy as [pol|].
  2: { apply Returns_inl in Hrun as <-. simpl in Hv. by rewrite lookup_empty in Hv. }
  destruct (schedulingUnitForFedObject _ _ _ _) as [su|] eqn:Esu; [|done].
  destruct (createFramework _ _ _ _ _ _ _) as [f|] eqn:Ef; [|done].
  apply may_panic_bind_Returns in Hrun as (res & Hsched & Hrun). exists pol, su. split_and!; [done..|].
  destruct res as [r|[e|e]]; [|apply Returns_inl in Hrun as <-; simpl in Hv; by rewrite lookup_empty in Hv|done].
  apply Returns_inl in Hrun as <-.
  destruct (StickyCluster su && negb (bool_decide (CurrentClusters su = ∅))) eqn:Ek.
  - left. apply andb_true_iff in Ek as [E1 E2]. apply negb_true_iff, bool_decide_eq_false in E2.
    unfold Schedule in Hsched. rewrite E1, (bool_decide_eq_false_2 _ E2) in Hsched. injection Hsched as <-.
    split; [by split|by eexists].
  - right. assert (Hk : ~ keeps_clusters su).
    { intros [E1 E2]. by rewrite E1, (bool_decide_eq_false_2 _ E2) in Ek. }
    pose proof (created_lawful now fmt _ _ _ _ _ _ Hwh Ef) as Hlaw.
    destruct (Schedule_suggested _ _ _ _ _ _ Hk Hsched Hv) as (c & Hc & Hn & Hp & _).
    apply list_elem_of_filter in Hc as [Hj Hc]. exists all, c. split_and!; [done..|].
    apply createFramework_iff in Ef as (_ & Hconf & _). by eapply default_eligible.
Qed.

(** C1. With the default plugins, a reconciliation that writes the object keeps
    the placement of the scheduler, or places the object only on clusters that
    it keeps by the policy or on joined clusters that serve its API resource,
    are ready, tolerated, selected, and neither terminating nor evicted; an
    object without a policy is placed on no cluster. *)
Theorem reconcile_places_eligible s key r o' :
  webhooks (s_webhookPlugins s) -> default_profiles s ->
  (forall o, GetFromLister s (qn_Namespace key) (qn_Name key) = inl o ->
     NoDup (pwc_Controller <$> Placements (fo_Spec o))) ->
  reconcile now fmt s key = Returns (r, Some o') ->
  exists o, GetFromLister s (qn_Namespace key) (qn_Name key) = inl o /\
    (placedOn o' = placedOn o \/
     forall name, name ∈ placedOn o' -> exists ftc o2 policy clusters profile su,
       prepareToSchedule s o ftc = Returns (Proceed o2 (Some policy) clusters profile) /\
       schedulingUnitForFedObject ftc o2 policy (s_enableKatalystSupport s) = inl su /\ justified s su name).
Proof using Type.
  intros Hwh Hdef Hnd H. apply reconcile_writes in H as (o & md & ftc & Hget & _ & _ & _ & H).
  exists o. split; [done|]. specialize (Hnd _ Hget).
  destruct H as [Hp|(o2 & policy & clusters & profile & result & aux & Hp & Hsch & _ & Hper)];
    pose proof (prepareToSchedule_spec _ _ _ _ Hp) as Hps.
  { left. unfold placedOn. by rewrite Hps. }
  right. destruct Hps as [Hspec (o1 & all & Hall & -> & Hpol)].
  unfold persistSchedulingResult in Hper.
  destruct (applySchedulingResult ftc o2 result aux) as [[o3 changed]|] eqn:Ea; [|done].
  destruct (updatePendingControllers ftc o3 changed) as [[o4 b]|] eqn:Eu; [|done].
  assert (o4 = o') as -> by (by destruct (s_Update s o4); injection Hper as _ ->).
  apply updatePendingControllers_spec in Eu. rewrite <- Hspec in Hnd.
  apply applySchedulingResult_placement in Ea; [|done]. rewrite <- Eu in Ea.
  intros name Hname. apply (placedOn_result _ _ Ea) in Hname.
  destruct (schedule_justified s ftc o2 policy profile all result name) as (pol & su & -> & Hsu & Hj);
    [done|by eapply policyAndProfile_default|done..|].
  by exists ftc, o2, pol, (joined all), profile, su.
Qed.
End EndToEnd.

(** ** Concrete inputs *)

Section Witnesses.
#[local] Existing Instance small_kubernetes.
#[local] Existing Instance small_runtime.
#[local] Existing Instance small_codecs.
#[local] Existing Instance amd64_float.
#[local] Existing Instance small_webhook.

(** A joined and ready cluster that serves deployments. *)
Definition live_cluster (n : string) (cpu : Z) : FederatedCluster := {|
  c_Name := n; c_Labels := ∅; c_Annotations := ∅; c_Finalizers := []; c_DeletionTimestamp := None; Taints := [];
  Status := {| Conditions := [ {| cc_Type := ClusterJoined; cc_Status := "True" |};
                               {| cc_Type := ClusterReadyCondition; cc_Status := "True" |} ];
               APIResourceTypes := [ SourceType deployments ]; JoinPerformed := true;
               st_Resources := {| SchedulableNodes := None; Allocatable := RspTheorems.cpus 8;
                                  Available := RspTheorems.cpus cpu |} |}
|}.

(** A deployment of nine replicas under [divide_policy], waiting for the
    scheduler and then for an override controller. *)
Definition waiting : FederatedObject := {|
  fo_Namespace := "default"; fo_Name := "web"; fo_Labels := {[ PropagationPolicyNameLabel := "p"%string ]};
  fo_Annotations := {[ PendingControllersAnnotation := decimal (Z.pos (encode (Controllers deployments))) ]};
  fo_OwnerReferences := []; fo_Generation := 1; fo_DeletionTimestamp := None;
  fo_Finalizers := []; fo_Spec := spec0; fo_Status := empty_status
|}.

Definition caches : Scheduler := {|
  s_FederatedObject := fun _ _ => inl waiting;
  s_ClusterFederatedObject := fun _ => inr NotFound;
  s_PropagationPolicy := fun _ _ => inl divide_policy;
  s_ClusterPropagationPolicy := fun _ => inr NotFound;
  s_SchedulingProfile := fun _ => inr NotFound;
  s_FederatedClusters := inl [ live_cluster "a" 4; live_cluster "b" 2; member "c" "x" [] ];
  s_ResourceFTC := fun _ => Some deployments;
  s_webhookPlugins := ∅;
  s_enableKatalystSupport := false;
  s_Update := fun _ => None;
  s_ListFederatedObjects := fun _ _ => inl [waiting];
  s_ListClusterFederatedObjects := fun _ => inl []
|}.

Definition web : QualifiedName := {| qn_Namespace := "default"; qn_Name := "web" |}.

(** What the reconciliation writes. *)
Definition written : FederatedObject :=
  match reconcile at_noon no_fmt caches web with Returns (_, Some o') => o' | _ => waiting end.

Lemma reconcile_written : reconcile at_noon no_fmt caches web = Returns (StatusAllOK, Some written).
Proof. vm_compute. reflexivity. Qed.

(** Seven replicas on "a", two on "b", and the override controller is next. *)
Example written_replicas : map_to_list (getCurrentReplicasFromObject deployments written) =
  [("a"%string, Some 7); ("b"%string, Some 2)] /\
  GetPendingControllers written = inl [["kubeadmiral.io/override"%string]].
Proof. vm_compute. done. Qed.

Lemma applySchedulingResult_roundtrip_witness :
  exists o' changed,
    applySchedulingResult deployments waiting {| SuggestedClusters := {[ "a"%string := Some 6; "b"%string := None ]} |}
      {| enableFollowerScheduling := true; unschedulableThreshold := Some 60 |} = inl (o', changed) /\
    getCurrentReplicasFromObject deployments o' = {[ "a"%string := Some 6; "b"%string := None ]}.
Proof.
  destruct (applySchedulingResult deployments waiting
    {| SuggestedClusters := {[ "a"%string := Some 6; "b"%string := None ]} |}
    {| enableFollowerScheduling := true; unschedulableThreshold := Some 60 |}) as [[o' ch]|] eqn:E;
    [|vm_compute in E; discriminate E].
  exists o', ch. split; [reflexivity|].
  refine (proj1 (applySchedulingResult_roundtrip _ _ _ _ _ _ _ _ E)).
  - split; apply (bool_decide_eq_true _); vm_compute; reflexivity.
  - intros k n Hk. simpl in Hk. apply lookup_insert_Some in Hk as [[_ [= <-]]|[_ Hk]]; [unfold int64; lia|].
    by apply lookup_singleton_Some in Hk as [_ [=]].
Defined.

Lemma waiting_pending : GetPendingControllers waiting = inl (Controllers deployments).
Proof. vm_compute. reflexivity. Qed.

(** The clusters of [caches] in another order. *)
Definition shuffled : list FederatedCluster := [ member "c" "x" []; live_cluster "b" 2; live_cluster "a" 4 ].

Lemma small_marshals triggers : marshals triggers.
Proof.
  eexists. split; [reflexivity|]. intros H. pose proof (parse_decimal_decimal (Z.pos (encode (triggers_tuple triggers)))) as Hp.
  rewrite H in Hp. discriminate Hp.
Qed.

Lemma shuffled_listed : listed caches waiting shuffled.
Proof.
  right. eexists _, _. split_and!; [reflexivity| | | |exact small_marshals].
  - change [live_cluster "a" 4; live_cluster "b" 2; member "c" "x" []] with (rev shuffled). symmetry. apply Permutation_rev.
  - apply (bool_decide_eq_true _). vm_compute. reflexivity.
  - exists divide_policy, None. split_and!; vm_compute; reflexivity.
Qed.

Lemma reconcile_settles_witness :
  reconcile at_noon no_fmt (with_listed (with_cached caches web (setGeneration written 2)) shuffled) web =
  Returns (StatusAllOK, None).
Proof.
  apply (reconcile_settles at_noon no_fmt caches web written 2 shuffled);
    [|exact reconcile_written|intros o [= <-]; exact shuffled_listed].
  intros o gvk ftc [= <-] [= <-]. split.
  - intros cs Hcs. rewrite waiting_pending in Hcs. injection Hcs as <-.
    split; [apply (bool_decide_eq_true _); vm_compute; reflexivity|].
    intros g Hg. unfold deployments, Controllers, tail in Hg. each_member.
    apply (bool_decide_eq_true _). vm_compute. reflexivity.
  - intros g Hg. change (g ∈ [["kubeadmiral.io/override"%string]]) in Hg. each_member.
    apply (bool_decide_eq_true _). vm_compute. reflexivity.
Defined.

Lemma reconcile_places_eligible_witness :
  exists o, GetFromLister caches "default" "web" = inl o /\
    (placedOn written = placedOn o \/
     forall name, name ∈ placedOn written -> exists ftc o2 policy clusters profile su,
       prepareToSchedule caches o ftc = Returns (Proceed o2 (Some policy) clusters profile) /\
       schedulingUnitForFedObject ftc o2 policy false = inl su /\ justified at_noon caches su name).
Proof.
  apply (reconcile_places_eligible at_noon no_fmt caches web StatusAllOK written).
  - exact no_webhooks.
  - intros name profile [=].
  - intros o [= <-]. apply (bool_decide_eq_true _). vm_compute. reflexivity.
  - exact reconcile_written.
Defined.
End Witnesses.
