(* ===== verification/SyncStatus.v ===== *)
(** * The status of a federated object after a sync ([sync/status/status.go])

    How the outcome of a dispatch, one status and one generation per cluster,
    becomes the status of the object, and whether it has to be written. *)

From Stdlib Require Import ZArith Lia String.
From S2P Require Import Prelude K8s Types ApiTypes.

Record CollectedPropagationStatus := {
  StatusMap : gmap string string;
  GenerationMap : gmap string Z;
  ResourcesUpdated : bool
}.

(** The zero value. *)
Definition no_status : CollectedPropagationStatus :=
  {| StatusMap := ∅; GenerationMap := ∅; ResourcesUpdated := false |}.

Definition set_clusters (s : GenericFederatedObjectStatus) (clusters : list PropagationStatus) :=
  {| SyncedGeneration := SyncedGeneration s; gs_Conditions := gs_Conditions s; gs_Clusters := clusters |}.
Definition set_conditions (s : GenericFederatedObjectStatus) (conditions : list GenericFederatedObjectCondition) :=
  {| SyncedGeneration := SyncedGeneration s; gs_Conditions := conditions; gs_Clusters := gs_Clusters s |}.
Definition set_generation (s : GenericFederatedObjectStatus) (generation : Z) :=
  {| SyncedGeneration := generation; gs_Conditions := gs_Conditions s; gs_Clusters := gs_Clusters s |}.

Definition clustersDiffers (s : GenericFederatedObjectStatus) (statusMap : gmap string string)
    (generationMap : gmap string Z) : bool :=
  if negb (Nat.eqb (length (gs_Clusters s)) (size statusMap)) then true
  else if negb (Nat.eqb (length (gs_Clusters s)) (size generationMap)) then true
  else existsb (fun status =>
    negb (String.eqb (default ""%string (statusMap !! prs_Cluster status)) (prs_Status status)) ||
    negb (mget generationMap (prs_Cluster status) =? LastObservedGeneration status)) (gs_Clusters s).

Section Status.
Context `{R : GoRuntime}.

Definition statusOf (statusMap : gmap string string) (generationMap : gmap string Z) (clusterName : string)
    : PropagationStatus := {|
  prs_Cluster := clusterName;
  prs_Status := default ""%string (statusMap !! clusterName);
  LastObservedGeneration := mget generationMap clusterName
|}.

Definition setClusters (s : GenericFederatedObjectStatus) (statusMap : gmap string string)
    (generationMap : gmap string Z) : GenericFederatedObjectStatus * bool :=
  if negb (clustersDiffers s statusMap generationMap) then (s, false)
  else
    let clusterNames := sort_slice String.ltb (range_map statusMap).*1 in
    (set_clusters s (statusOf statusMap generationMap <$> clusterNames), true).

(** The loop that looks for the condition, and writes it in place. *)
Fixpoint updateCondition (f : GenericFederatedObjectCondition -> GenericFederatedObjectCondition)
    (conditions : list GenericFederatedObjectCondition)
    : option (GenericFederatedObjectCondition * list GenericFederatedObjectCondition) :=
  match conditions with
  | [] => None
  | condition :: rest =>
      if String.eqb (gc_Type condition) PropagationConditionType then Some (condition, f condition :: rest)
      else '(found, rest') ← updateCondition f rest; Some (found, condition :: rest')
  end.

(** The condition status for a reason, the test for a transition, and the
    assignments to the condition. *)
Definition newStatusOf (reason : string) : string :=
  if String.eqb reason AggregateSuccess then "True" else "False".

Definition transitionOf (reason : string) (c : GenericFederatedObjectCondition) : bool :=
  negb (String.eqb (gc_Status c) (newStatusOf reason) && String.eqb (gc_Reason c) reason).

Definition writeCondition (now : Time) (reason : string) (transition updateRequired : bool)
    (c : GenericFederatedObjectCondition) : GenericFederatedObjectCondition := {|
  gc_Type := gc_Type c;
  gc_Status := if transition then newStatusOf reason else gc_Status c;
  gc_LastUpdateTime := if updateRequired then now else gc_LastUpdateTime c;
  gc_LastTransitionTime := if transition then now else gc_LastTransitionTime c;
  gc_Reason := if transition then reason else gc_Reason c
|}.

Definition setPropagationCondition (now : Time) (s : GenericFederatedObjectStatus) (reason : string)
    (changesPropagated : bool) : GenericFederatedObjectStatus * bool :=
  let write c :=
    writeCondition now reason (transitionOf reason c) (changesPropagated || transitionOf reason c) c in
  match updateCondition write (gs_Conditions s) with
  | Some (c, conditions) => (set_conditions s conditions, changesPropagated || transitionOf reason c)
  | None =>
      let new := {| gc_Type := PropagationConditionType; gc_Status := ""; gc_LastUpdateTime := zero_time;
                    gc_LastTransitionTime := zero_time; gc_Reason := "" |} in
      (set_conditions s (gs_Conditions s ++ [writeCondition now reason true true new]), true)
  end.

(** "Identify whether one or more clusters could not be reconciled". *)
Definition reasonOf (reason : string) (collectedStatus : CollectedPropagationStatus) : string :=
  if String.eqb reason AggregateSuccess &&
     existsb (fun '(_, value) => negb (String.eqb value ClusterPropagationOK)) (range_map (StatusMap collectedStatus))
  then CheckClusters else reason.

Definition update (now : Time) (s : GenericFederatedObjectStatus) (generation : Z) (reason : string)
    (collectedStatus : CollectedPropagationStatus) : GenericFederatedObjectStatus * bool :=
  let generationUpdated := negb (SyncedGeneration s =? generation) in
  let s := if generationUpdated then set_generation s generation else s in
  let '(s, clustersChanged) := setClusters s (StatusMap collectedStatus) (GenerationMap collectedStatus) in
  let changesPropagated :=
    clustersChanged || ((0 <? Z.of_nat (size (StatusMap collectedStatus))) && ResourcesUpdated collectedStatus) in
  let '(s, propStatusUpdated) := setPropagationCondition now s (reasonOf reason collectedStatus) changesPropagated in
  (s, generationUpdated || propStatusUpdated).

Definition setStatus (o : FederatedObject) (s : GenericFederatedObjectStatus) : FederatedObject := {|
  fo_Namespace := fo_Namespace o; fo_Name := fo_Name o; fo_Labels := fo_Labels o;
  fo_Annotations := fo_Annotations o; fo_OwnerReferences := fo_OwnerReferences o; fo_Generation := fo_Generation o;
  fo_DeletionTimestamp := fo_DeletionTimestamp o; fo_Finalizers := fo_Finalizers o;
  fo_Spec := fo_Spec o; fo_Status := s
|}.

Definition SetFederatedStatus (now : Time) (fedObject : FederatedObject) (reason : string)
    (collectedStatus : CollectedPropagationStatus) : FederatedObject * bool :=
  let '(s, updated) := update now (fo_Status fedObject) (fo_Generation fedObject) reason collectedStatus in
  (setStatus fedObject s, updated).
End Status.

(** ** Properties *)

Section StatusFacts.
Context `{R : GoRuntime}.

(** The clusters of a status are those of the maps. *)
Definition clusters_match (s : GenericFederatedObjectStatus) (statusMap : gmap string string)
    (generationMap : gmap string Z) : Prop :=
  gs_Clusters s ≡ₚ statusOf statusMap generationMap <$> (range_map statusMap).*1.

Lemma length_range_map_fst {V} (m : gmap string V) : length (range_map m).*1 = size m.
Proof. rewrite length_fmap. rewrite (range_map_perm _ m). apply length_map_to_list. Qed.

Lemma elem_of_range_map_fst {V} (m : gmap string V) k : k ∈ (range_map m).*1 <-> is_Some (m !! k).
Proof.
  rewrite list_elem_of_fmap. split.
  - intros ([k' v] & -> & H). apply elem_of_range_map in H. by exists v.
  - intros [v H]. exists (k, v). split; [done|]. by apply elem_of_range_map.
Qed.

Lemma setClusters_spec s st gen s' b : setClusters s st gen = (s', b) ->
  SyncedGeneration s' = SyncedGeneration s /\ gs_Conditions s' = gs_Conditions s /\
  b = clustersDiffers s st gen /\
  (b = true -> gs_Clusters s' = statusOf st gen <$> sort_slice String.ltb (range_map st).*1) /\
  (b = false -> s' = s).
Proof.
  unfold setClusters. destruct (clustersDiffers s st gen); simpl; intros [= <- <-]; by split_and!.
Qed.

(** With a generation for every status, the clusters just set do not differ. *)
Lemma set_clusters_same s st gen :
  size gen = size st ->
  clustersDiffers (set_clusters s (statusOf st gen <$> sort_slice String.ltb (range_map st).*1)) st gen = false.
Proof.
  intros Hsz. unfold clustersDiffers. simpl.
  rewrite length_fmap, (Permutation_length (sort_slice_perm _ String.ltb _)), length_range_map_fst, Hsz, Nat.eqb_refl.
  simpl.
  apply Bool.not_true_iff_false. intros (x & Hx & H)%existsb_exists.
  apply list_elem_of_In, list_elem_of_fmap in Hx as (k & -> & Hk). simpl in H.
  by rewrite String.eqb_refl, Z.eqb_refl in H.
Qed.

Lemma clustersDiffers_size s st gen : size gen <> size st -> clustersDiffers s st gen = true.
Proof.
  intros Hsz. unfold clustersDiffers.
  destruct (Nat.eqb_spec (length (gs_Clusters s)) (size st)) as [E|E]; [|done]. simpl.
  destruct (Nat.eqb_spec (length (gs_Clusters s)) (size gen)) as [E'|E']; [|done]. congruence.
Qed.

Lemma updateCondition_None f l : updateCondition f l = None ->
  Forall (fun c => gc_Type c <> PropagationConditionType) l.
Proof.
  induction l as [|c l IH]; [constructor|]. simpl.
  destruct (String.eqb_spec (gc_Type c) PropagationConditionType); [done|].
  destruct (updateCondition f l) as [[]|]; [done|]. intros _. constructor; [done|by apply IH].
Qed.

(** Writing the condition again writes over it. *)
Lemma updateCondition_again f g l c l' :
  (forall c, gc_Type (f c) = gc_Type c) -> updateCondition f l = Some (c, l') ->
  exists l'', updateCondition g l' = Some (f c, l'') /\ (g (f c) = f c -> l'' = l').
Proof.
  intros Hty. revert c l'. induction l as [|x l IH]; [done|]. intros c l'. simpl.
  destruct (String.eqb_spec (gc_Type x) PropagationConditionType) as [E|E].
  - intros [= <- <-]. simpl. rewrite Hty, E. eexists. split; [done|]. by intros ->.
  - destruct (updateCondition f l) as [[c0 l0]|]; [|done]. simpl. intros [= <- <-]. simpl.
    apply String.eqb_neq in E. rewrite E. destruct (IH _ _ eq_refl) as (l'' & -> & H). simpl.
    eexists. split; [done|]. intros Hg. by rewrite H.
Qed.

Lemma updateCondition_app g l x : Forall (fun c => gc_Type c <> PropagationConditionType) l ->
  gc_Type x = PropagationConditionType -> updateCondition g (l ++ [x]) = Some (x, l ++ [g x]).
Proof.
  intros Hl Hx. induction Hl as [|c l Hc Hl IH]; simpl.
  - by rewrite Hx.
  - apply String.eqb_neq in Hc. rewrite Hc. by rewrite IH.
Qed.

Lemma transitionOf_written now reason u c :
  transitionOf reason (writeCondition now reason (transitionOf reason c) u c) = false.
Proof.
  destruct (transitionOf reason c) eqn:E; unfold transitionOf, writeCondition in *; simpl; [|done].
  by rewrite !String.eqb_refl.
Qed.

Lemma writeCondition_nothing now reason c : writeCondition now reason false false c = c.
Proof. by destruct c. Qed.

(** A status that carries the condition for a reason. *)
Definition has_condition (s : GenericFederatedObjectStatus) (reason : string) : Prop :=
  exists c l, (forall f, updateCondition f (gs_Conditions s) = Some (c, l f)) /\
    (forall f, f c = c -> l f = gs_Conditions s) /\ transitionOf reason c = false.

Lemma setPropagationCondition_has now s reason ch : has_condition (setPropagationCondition now s reason ch).1 reason.
Proof.
  unfold setPropagationCondition, has_condition.
  set (w := fun c => writeCondition now reason (transitionOf reason c) (ch || transitionOf reason c) c).
  destruct (updateCondition w (gs_Conditions s)) as [[c l']|] eqn:E; simpl.
  - exists (w c), (fun g => match updateCondition g l' with Some (_, l) => l | None => [] end).
    assert (forall g, exists l'', updateCondition g l' = Some (w c, l'') /\ (g (w c) = w c -> l'' = l')) as H.
    { intros g. by eapply updateCondition_again. }
    split_and!; [intros f|intros f Hf|apply transitionOf_written]; destruct (H f) as (l'' & -> & Hl); [done|by apply Hl].
  - apply updateCondition_None in E.
    set (c := writeCondition now reason true true _).
    exists c, (fun g => gs_Conditions s ++ [g c]). split_and!.
    + intros f. by rewrite updateCondition_app.
    + by intros f ->.
    + unfold transitionOf, c, writeCondition. simpl. by rewrite !String.eqb_refl.
Qed.

(** Without a transition a condition is only touched for changes to propagate. *)
Lemma setPropagationCondition_again now s reason ch : has_condition s reason ->
  (setPropagationCondition now s reason ch).2 = ch /\
  (ch = false -> (setPropagationCondition now s reason ch).1 = s).
Proof.
  intros (c & l & Hu & Hl & Hc). unfold setPropagationCondition. rewrite Hu, Hc, orb_false_r. simpl.
  split; [done|]. intros ->. rewrite (Hl (fun c => _)); [by destruct s|].
  simpl. by rewrite Hc, writeCondition_nothing.
Qed.

Lemma setPropagationCondition_frame now s reason ch :
  gs_Clusters (setPropagationCondition now s reason ch).1 = gs_Clusters s /\
  SyncedGeneration (setPropagationCondition now s reason ch).1 = SyncedGeneration s.
Proof. unfold setPropagationCondition. by destruct (updateCondition _ _) as [[]|]. Qed.

(** The same outcome once more, with no resource updated. *)
Definition quiet (c : CollectedPropagationStatus) : CollectedPropagationStatus :=
  {| StatusMap := StatusMap c; GenerationMap := GenerationMap c; ResourcesUpdated := false |}.

Lemma update_parts now s generation reason c s' b : update now s generation reason c = (s', b) ->
  exists s1 cc, setClusters (set_generation s generation) (StatusMap c) (GenerationMap c) = (s1, cc) /\
    let ch := cc || ((0 <? Z.of_nat (size (StatusMap c))) && ResourcesUpdated c) in
    s' = (setPropagationCondition now s1 (reasonOf reason c) ch).1 /\
    b = negb (SyncedGeneration s =? generation) || (setPropagationCondition now s1 (reasonOf reason c) ch).2.
Proof.
  unfold update. set (s0 := if negb (SyncedGeneration s =? generation) then _ else s).
  assert (s0 = set_generation s generation) as ->.
  { unfold s0. destruct (Z.eqb_spec (SyncedGeneration s) generation) as [<-|]; [by destruct s|done]. }
  destruct (setClusters _ _ _) as [s1 cc]. destruct (setPropagationCondition _ _ _ _) as [s2 pu] eqn:E.
  intros [= <- <-]. exists s1, cc. simpl. by rewrite E.
Qed.

Lemma setClusters_idempotent s st gen s1 cc : size gen = size st -> setClusters s st gen = (s1, cc) ->
  clustersDiffers s1 st gen = false.
Proof.
  intros Hsz. unfold setClusters. destruct (clustersDiffers s st gen) eqn:E; simpl; intros [= <- <-]; [|done].
  by apply set_clusters_same.
Qed.

Lemma clustersDiffers_ext s s' st gen : gs_Clusters s = gs_Clusters s' ->
  clustersDiffers s st gen = clustersDiffers s' st gen.
Proof. unfold clustersDiffers. by intros ->. Qed.

(** Once a status carries the outcome of a dispatch, the same outcome is
    written again if and only if some cluster of the outcome has no recorded
    generation: then [clustersDiffers] compares the lengths of the two maps and
    never settles. *)
Theorem update_settles now now' s generation reason c s' b :
  update now s generation reason c = (s', b) ->
  ((update now' s' generation reason (quiet c)).2 = true <-> size (GenerationMap c) <> size (StatusMap c)) /\
  (size (GenerationMap c) = size (StatusMap c) -> update now' s' generation reason (quiet c) = (s', false)).
Proof.
  intros H. apply update_parts in H as (s1 & cc & Hcl & Hs' & _). simpl in Hs'.
  set (ch := cc || _) in Hs'.
  destruct (setPropagationCondition_frame now s1 (reasonOf reason c) ch) as [Hgc Hgg].
  pose proof (setPropagationCondition_has now s1 (reasonOf reason c) ch) as Hhas.
  rewrite <- Hs' in Hgc, Hgg, Hhas.
  assert (Hgen : SyncedGeneration s' = generation).
  { rewrite Hgg. by apply setClusters_spec in Hcl as (-> & _). }
  destruct (update now' s' generation reason (quiet c)) as [s2 b2] eqn:E.
  apply update_parts in E as (s3 & cc2 & Hcl2 & Hs2 & Hb2). simpl in *.
  assert (set_generation s' generation = s') as Hid by (rewrite <- Hgen; by destruct s').
  rewrite Hid in Hcl2. rewrite Hgen, Z.eqb_refl in Hb2. simpl in Hb2.
  change (reasonOf reason (quiet c)) with (reasonOf reason c) in *. rewrite andb_false_r, orb_false_r in Hs2, Hb2.
  apply setClusters_spec in Hcl2 as (_ & Hcond & -> & Hyes & Hno).
  assert (has_condition s3 (reasonOf reason c)) as Hhas3.
  { destruct Hhas as (x & l & H1 & H2 & H3). exists x, l. by rewrite Hcond. }
  destruct (setPropagationCondition_again now' s3 _ (clustersDiffers s' (StatusMap c) (GenerationMap c)) Hhas3)
    as [Hagain Hsame]. rewrite Hagain in Hb2. rewrite Hb2.
  assert (Hset : size (GenerationMap c) = size (StatusMap c) ->
    clustersDiffers s' (StatusMap c) (GenerationMap c) = false).
  { intros Hsz. rewrite (clustersDiffers_ext _ s1) by done. by eapply setClusters_idempotent. }
  split; [split|].
  - intros Ht Hsz. by rewrite Hset in Ht.
  - intros Hsz. by apply clustersDiffers_size.
  - intros Hsz. rewrite (Hset Hsz) in *. by rewrite Hs2, Hsame, Hno.
Qed.

Lemma clustersDiffers_false s st gen : NoDup (prs_Cluster <$> gs_Clusters s) ->
  Forall (fun p => prs_Status p <> ""%string) (gs_Clusters s) ->
  clustersDiffers s st gen = false -> gs_Clusters s ≡ₚ statusOf st gen <$> (range_map st).*1.
Proof.
  intros Hnd Hne. unfold clustersDiffers. destruct (Nat.eqb_spec (length (gs_Clusters s)) (size st)) as [Hl|]; [|done].
  destruct (Nat.eqb _ (size gen)); [|done]. simpl. intros He.
  assert (Hp : forall p, p ∈ gs_Clusters s -> p = statusOf st gen (prs_Cluster p) /\ is_Some (st !! prs_Cluster p)).
  { intros p Hp. rewrite Forall_forall in Hne. specialize (Hne _ Hp).
    destruct (negb (String.eqb (default ""%string (st !! prs_Cluster p)) (prs_Status p)) ||
      negb (mget gen (prs_Cluster p) =? LastObservedGeneration p)) eqn:E.
    - enough (existsb (fun status => negb (String.eqb (default ""%string (st !! prs_Cluster status)) (prs_Status status)) ||
        negb (mget gen (prs_Cluster status) =? LastObservedGeneration status)) (gs_Clusters s) = true) by congruence.
      apply existsb_exists. exists p. split; [by apply list_elem_of_In|done].
    - z_bools. destruct p as [n v g]. simpl in *. destruct (st !! n) eqn:Ek; simpl in *; [|congruence].
      split; [|done]. unfold statusOf. rewrite Ek. simpl. congruence. }
  assert (gs_Clusters s = statusOf st gen <$> (prs_Cluster <$> gs_Clusters s)) as Heq.
  { rewrite <- list_fmap_compose. rewrite <- (list_fmap_id (gs_Clusters s)) at 1. apply list_fmap_ext.
    intros i p Hi. simpl. apply Hp. by eapply list_elem_of_lookup_2. }
  rewrite Heq. apply fmap_Permutation, submseteq_length_Permutation.
  - apply NoDup_submseteq; [done|]. intros n (p & -> & Hin)%list_elem_of_fmap.
    apply elem_of_range_map_fst. by apply Hp.
  - rewrite length_range_map_fst, length_fmap. lia.
Qed.

(** A condition of type Propagated with the status for the reason. *)
Lemma setPropagationCondition_In now s reason ch :
  exists c, c ∈ gs_Conditions (setPropagationCondition now s reason ch).1 /\
    gc_Type c = PropagationConditionType /\ gc_Status c = newStatusOf reason /\ gc_Reason c = reason.
Proof.
  destruct (setPropagationCondition_has now s reason ch) as (c & l & Hu & _ & Ht).
  specialize (Hu id). exists c. apply negb_false_iff, andb_true_iff in Ht as [H1 H2]. z_bools.
  enough (c ∈ gs_Conditions (setPropagationCondition now s reason ch).1 /\ gc_Type c = PropagationConditionType)
    by naive_solver.
  revert Hu. generalize (gs_Conditions (setPropagationCondition now s reason ch).1) (l id). clear.
  induction l as [|x l IH]; intros k; simpl; [done|].
  destruct (String.eqb_spec (gc_Type x) PropagationConditionType) as [E|E].
  - intros [= <- <-]. split; [left|done].
  - destruct (updateCondition id l) as [[c' l']|]; [|done]. simpl. intros [= -> <-].
    destruct (IH _ eq_refl). split; [by right|done].
Qed.

(** Every cluster was synced. *)
Definition all_OK (statusMap : gmap string string) : Prop := forall k v, statusMap !! k = Some v -> v = ClusterPropagationOK.

Lemma reasonOf_success reason c :
  newStatusOf (reasonOf reason c) = "True"%string <-> reason = AggregateSuccess /\ all_OK (StatusMap c).
Proof.
  unfold reasonOf, newStatusOf. destruct (String.eqb_spec reason AggregateSuccess) as [->|Hr]; simpl.
  - destruct (existsb _ _) eqn:E; simpl.
    + split; [done|]. intros [_ H]. apply existsb_exists in E as ([k v] & Hin & Hv).
      apply list_elem_of_In, elem_of_range_map in Hin. z_bools. by apply H in Hin.
    + split; [|done]. intros _. split; [done|]. intros k v Hk.
      destruct (String.eqb_spec v ClusterPropagationOK) as [|Hv]; [done|].
      enough (existsb (fun '(_, value) => negb (String.eqb value ClusterPropagationOK)) (range_map (StatusMap c)) = true)
        by congruence.
      apply existsb_exists. exists (k, v). split; [by apply list_elem_of_In, elem_of_range_map|].
      by apply negb_true_iff, String.eqb_neq.
  - apply String.eqb_neq in Hr. rewrite Hr. apply String.eqb_neq in Hr. split; [done|]. by intros [? _].
Qed.

(** The status says what the dispatch did: it lists every cluster of the
    outcome, with its status and the observed generation, it records the
    generation of the object, and its condition is true exactly if nothing
    failed and every cluster is synced. *)
Theorem update_reports now s generation reason c s' b :
  NoDup (prs_Cluster <$> gs_Clusters s) -> Forall (fun p => prs_Status p <> ""%string) (gs_Clusters s) ->
  update now s generation reason c = (s', b) ->
  SyncedGeneration s' = generation /\
  gs_Clusters s' ≡ₚ statusOf (StatusMap c) (GenerationMap c) <$> (range_map (StatusMap c)).*1 /\
  exists cond, cond ∈ gs_Conditions s' /\ gc_Type cond = PropagationConditionType /\
    (gc_Status cond = "True"%string <-> reason = AggregateSuccess /\ all_OK (StatusMap c)).
Proof.
  intros Hnd Hne H. apply update_parts in H as (s1 & cc & Hcl & -> & _). simpl. set (ch := cc || _).
  destruct (setPropagationCondition_frame now s1 (reasonOf reason c) ch) as [-> ->].
  apply setClusters_spec in Hcl as (Hg & _ & Hcc & Hyes & Hno). split_and!; [done|..].
  - destruct cc; [by rewrite Hyes, (sort_slice_perm _ String.ltb _)|].
    rewrite Hno by done. by apply clustersDiffers_false.
  - destruct (setPropagationCondition_In now s1 (reasonOf reason c) ch) as (cond & Hin & Hty & Hst & _).
    exists cond. split_and!; [done..|]. rewrite Hst. apply reasonOf_success.
Qed.
End StatusFacts.

(** ** Concrete inputs *)

Section Witnesses.
#[local] Existing Instance small_runtime.

Definition synced : CollectedPropagationStatus := {|
  StatusMap := {["a"%string := ClusterPropagationOK]}; GenerationMap := {["a"%string := 3]};
  ResourcesUpdated := true |}.

(** The second cluster is not ready: it has a status and no generation. *)
Definition one_unready : CollectedPropagationStatus := {|
  StatusMap := <["b"%string := ClusterNotReady]> {["a"%string := ClusterPropagationOK]};
  GenerationMap := {["a"%string := 3]}; ResourcesUpdated := false |}.

Lemma update_settles_witness :
  update 6 (update 5 empty_status 1 AggregateSuccess synced).1 1 AggregateSuccess (quiet synced) =
    ((update 5 empty_status 1 AggregateSuccess synced).1, false) /\
  (update 6 (update 5 empty_status 1 AggregateSuccess one_unready).1 1 AggregateSuccess (quiet one_unready)).2 = true.
Proof.
  split.
  - apply (proj2 (update_settles 5 6 empty_status 1 AggregateSuccess synced _ _ (surjective_pairing _))). reflexivity.
  - apply (proj1 (update_settles 5 6 empty_status 1 AggregateSuccess one_unready _ _ (surjective_pairing _))). done.
Defined.

Lemma update_reports_witness :
  SyncedGeneration (update 5 empty_status 1 AggregateSuccess one_unready).1 = 1.
Proof.
  apply (proj1 (update_reports 5 empty_status 1 AggregateSuccess one_unready _ _
    NoDup_nil_2 (Forall_nil_2 _) (surjective_pairing _))).
Defined.
End Witnesses.
