(* ===== verification/Version.v ===== *)
(** * Versions of propagated objects ([sync/propagatedversion], [sync/version])

    The version of an object in a member cluster, and the manager that records
    the versions last seen so that unchanged objects are not updated again.  The
    manager's cache is a map of [PropagatedVersion]s by qualified name; the API
    server it writes them to is the class [VersionServer]. *)

From Stdlib Require Import ZArith Lia String Ascii.
From S2P Require Import Prelude GoStrings K8s Types ApiTypes Unstructured Codecs.

(** ** Versions ([propagatedversion.go]) *)

Definition generationPrefix : string := "gen:".
Definition resourceVersionPrefix : string := "rv:".

Record ClusterObjectVersion := { ClusterName : string; cov_Version : string }.
#[export] Instance ClusterObjectVersion_eq_dec : EqDecision ClusterObjectVersion.
Proof. solve_decision. Defined.

(** A nil slice of versions and an empty one are told apart: [None] is nil. *)
Record PropagatedVersionStatus := {
  pvs_TemplateVersion : string;
  pvs_OverrideVersion : string;
  ClusterVersions : option (list ClusterObjectVersion)
}.
#[export] Instance PropagatedVersionStatus_eq_dec : EqDecision PropagatedVersionStatus.
Proof. solve_decision. Defined.

Section Versions.
Context `{U : UnstructuredHelpers}.

(** [pkg/util/meta]; empty and absent maps are equivalent there as here. *)
Definition ObjectMetaObjEquivalent (a b : Unstructured) : bool :=
  if negb (String.eqb (uns_GetName a) (uns_GetName b)) then false
  else if negb (String.eqb (uns_GetNamespace a) (uns_GetNamespace b)) then false
  else if negb (bool_decide (uns_GetLabels a = uns_GetLabels b)) then false
  else if negb (bool_decide (uns_GetAnnotations a = uns_GetAnnotations b)) then false
  else true.

Definition ObjectVersion (clusterObj : Unstructured) : string :=
  let generation := uns_GetGeneration clusterObj in
  if negb (generation =? 0) then (generationPrefix ++ decimal generation)%string
  else (resourceVersionPrefix ++ uns_GetResourceVersion clusterObj)%string.

Definition ObjectNeedsUpdate (desiredObj clusterObj : Unstructured) (recordedVersion : string) : bool :=
  let targetVersion := ObjectVersion clusterObj in
  if negb (String.eqb recordedVersion targetVersion) then true
  else HasPrefix targetVersion generationPrefix && negb (ObjectMetaObjEquivalent desiredObj clusterObj).
End Versions.

Section GenerationMap.
Context `{R : GoRuntime}.

Definition SortClusterVersions (versions : list ClusterObjectVersion) : list ClusterObjectVersion :=
  sort_slice (fun x y => String.ltb (ClusterName x) (ClusterName y)) versions.

Definition PropagatedVersionStatusEquivalent (pvs1 pvs2 : PropagatedVersionStatus) : bool :=
  String.eqb (pvs_TemplateVersion pvs1) (pvs_TemplateVersion pvs2) &&
  String.eqb (pvs_OverrideVersion pvs1) (pvs_OverrideVersion pvs2) &&
  bool_decide (ClusterVersions pvs1 = ClusterVersions pvs2).

(** The generation of one version; [None] to [continue]. *)
Definition generationOf (version : string) : option Z :=
  if HasPrefix version resourceVersionPrefix then Some 0
  else if negb (HasPrefix version generationPrefix) then None
  else match ParseInt (TrimPrefix version generationPrefix) with
       | inr _ => None
       | inl generation => Some generation
       end.

Definition ConvertVersionMapToGenerationMap (versionMap : gmap string string) : gmap string Z :=
  foldl (fun generationMap '(key, version) =>
    match generationOf version with
    | Some generation => <[key := generation]> generationMap
    | None => generationMap
    end) ∅ (range_map versionMap).
End GenerationMap.

(** ** The manager ([manager.go]) *)

Record OwnerReference := { or_APIVersion : string; or_Kind : string; or_Name : string }.

(** [PropagatedVersion] and [ClusterPropagatedVersion]. *)
Record PropagatedVersion := {
  pv_Name : QualifiedName;
  pv_ResourceVersion : string;
  pv_Owner : OwnerReference;
  pv_Status : PropagatedVersionStatus
}.

Definition setResourceVersion (o : PropagatedVersion) (v : string) : PropagatedVersion :=
  {| pv_Name := pv_Name o; pv_ResourceVersion := v; pv_Owner := pv_Owner o; pv_Status := pv_Status o |}.
Definition SetStatus (o : PropagatedVersion) (s : PropagatedVersionStatus) : PropagatedVersion :=
  {| pv_Name := pv_Name o; pv_ResourceVersion := pv_ResourceVersion o; pv_Owner := pv_Owner o; pv_Status := s |}.
Definition NewVersion (qualifiedName : QualifiedName) (owner : OwnerReference) (s : PropagatedVersionStatus)
    : PropagatedVersion :=
  {| pv_Name := qualifiedName; pv_ResourceVersion := ""; pv_Owner := owner; pv_Status := s |}.

(** The interface a federated resource offers the manager; the group version
    and kind are those of the federated object. *)
Record VersionedResource := {
  vr_FederatedName : QualifiedName;
  vr_Object : FederatedObject;
  vr_TemplateVersion : string + string;
  vr_OverrideVersion : string + string;
  vr_FederatedGVK : GroupVersionKind
}.

Record VersionManager := { hasSynced : bool; versions : gmap string PropagatedVersion }.

Definition NewVersionManager : VersionManager := {| hasSynced := false; versions := ∅ |}.
Definition set_versions (m : VersionManager) (vs : gmap string PropagatedVersion) : VersionManager :=
  {| hasSynced := hasSynced m; versions := vs |}.

(** [load] of a list that was not interrupted. *)
Definition load (m : VersionManager) (objs : list PropagatedVersion) : VersionManager :=
  {| hasSynced := true;
     versions := foldl (fun vs obj => <[QualifiedName_String (pv_Name obj) := obj]> vs) (versions m) objs |}.

Definition versionQualifiedName (qualifiedName : QualifiedName) : QualifiedName := qualifiedName.

Definition vm_Get (m : VersionManager) (resource : VersionedResource) : gmap string string + string :=
  let key := QualifiedName_String (versionQualifiedName (vr_FederatedName resource)) in
  match versions m !! key with
  | None => inl ∅
  | Some obj =>
      let status := pv_Status obj in
      match vr_TemplateVersion resource with
      | inr err => inr ("Failed to determine template version: " ++ err)%string
      | inl templateVersion =>
          match vr_OverrideVersion resource with
          | inr err => inr ("Failed to determine override version: " ++ err)%string
          | inl overrideVersion =>
              if String.eqb templateVersion (pvs_TemplateVersion status) &&
                 String.eqb overrideVersion (pvs_OverrideVersion status)
              then inl (foldl (fun versionMap v => <[ClusterName v := cov_Version v]> versionMap) ∅
                          (default [] (ClusterVersions status)))
              else inl ∅
          end
      end
  end.

Section Manager.
Context `{K : Kubernetes} `{R : GoRuntime}.

Definition VersionMapToClusterVersions (versionMap : gmap string string) : list ClusterObjectVersion :=
  SortClusterVersions (foldl (fun clusterVersions '(clusterName, version) =>
    if String.eqb version "" then clusterVersions
    else clusterVersions ++ [{| ClusterName := clusterName; cov_Version := version |}]) [] (range_map versionMap)).

Definition updateClusterVersions (oldVersions : list ClusterObjectVersion) (newVersions : gmap string string)
    (selectedClusters : list string) : list ClusterObjectVersion :=
  let selectedClusterSet : gset string := list_to_set selectedClusters in
  let newVersions := foldl (fun newVersions oldVersion =>
    if negb (bool_decide (ClusterName oldVersion ∈ selectedClusterSet)) then newVersions
    else if bool_decide (is_Some (newVersions !! ClusterName oldVersion)) then newVersions
    else <[ClusterName oldVersion := cov_Version oldVersion]> newVersions) newVersions oldVersions in
  VersionMapToClusterVersions newVersions.

Definition ownerReferenceForFederatedObject (resource : VersionedResource) : OwnerReference :=
  let gvk := vr_FederatedGVK resource in {|
    or_APIVersion := GroupVersion_String {| gv_Group := gvk_Group gvk; gv_Version := gvk_Version gvk |};
    or_Kind := gvk_Kind gvk;
    or_Name := fo_Name (vr_Object resource)
  |}.

(** The part of [Update] under the lock: the new cache, and the object to
    write to the API server, if any. *)
Definition updateCache (m : VersionManager) (resource : VersionedResource) (selectedClusters : list string)
    (versionMap : gmap string string) : (VersionManager * option PropagatedVersion) + string :=
  match vr_TemplateVersion resource with
  | inr err => inr ("Failed to determine template version: " ++ err)%string
  | inl templateVersion =>
      match vr_OverrideVersion resource with
      | inr err => inr ("Failed to determine override version: " ++ err)%string
      | inl overrideVersion =>
          let qualifiedName := versionQualifiedName (vr_FederatedName resource) in
          let key := QualifiedName_String qualifiedName in
          let statusWith clusterVersions := {| pvs_TemplateVersion := templateVersion;
            pvs_OverrideVersion := overrideVersion; ClusterVersions := Some clusterVersions |} in
          match versions m !! key with
          | Some obj =>
              let oldStatus := pv_Status obj in
              let clusterVersions :=
                if String.eqb (pvs_TemplateVersion oldStatus) templateVersion &&
                   String.eqb (pvs_OverrideVersion oldStatus) overrideVersion
                then default [] (ClusterVersions oldStatus) else [] in
              let status := statusWith (updateClusterVersions clusterVersions versionMap selectedClusters) in
              if PropagatedVersionStatusEquivalent oldStatus status then inl (m, None)
              else
                let obj := SetStatus obj status in
                inl (set_versions m (<[key := obj]> (versions m)), Some obj)
          | None =>
              let obj := NewVersion qualifiedName (ownerReferenceForFederatedObject resource)
                (statusWith (VersionMapToClusterVersions versionMap)) in
              inl (set_versions m (<[key := obj]> (versions m)), Some obj)
          end
      end
  end.

Definition vm_Delete (m : VersionManager) (qualifiedName : QualifiedName) : VersionManager :=
  set_versions m (delete (QualifiedName_String (versionQualifiedName qualifiedName)) (versions m)).
End Manager.

(** ** Writing to the API server

    The server keeps the versions; [Create] and [UpdateStatus] return the
    object as stored. *)

Class VersionServer (W : Type) := {
  vs_Get : W -> QualifiedName -> PropagatedVersion + ApiError;
  vs_Create : W -> PropagatedVersion -> W * (PropagatedVersion + ApiError);
  vs_UpdateStatus : W -> PropagatedVersion -> W * (PropagatedVersion + ApiError)
}.

(** What the API server documents: optimistic concurrency on the resource
    version, and a status that is a subresource, which creation leaves empty. *)
Class VersionServerLaws (W : Type) `{!VersionServer W} := {
  vs_store : W -> QualifiedName -> option PropagatedVersion;
  vs_Get_law : forall w n, vs_Get w n = match vs_store w n with Some o => inl o | None => inr NotFound end;
  vs_Create_law : forall w o,
    match vs_store w (pv_Name o) with
    | Some _ => vs_Create w o = (w, inr ErrAlreadyExists)
    | None => exists w' s, vs_Create w o = (w', inl s) /\ pv_Name s = pv_Name o /\
        pv_ResourceVersion s <> ""%string /\
        (forall n, vs_store w' n = if decide (n = pv_Name o) then Some s else vs_store w n)
    end;
  vs_UpdateStatus_law : forall w o,
    match vs_store w (pv_Name o) with
    | None => vs_UpdateStatus w o = (w, inr NotFound)
    | Some cur =>
        if decide (pv_ResourceVersion cur = pv_ResourceVersion o) then
          exists w' s, vs_UpdateStatus w o = (w', inl s) /\ pv_Name s = pv_Name o /\
            pv_Status s = pv_Status o /\ pv_ResourceVersion s <> ""%string /\
            (forall n, vs_store w' n = if decide (n = pv_Name o) then Some s else vs_store w n)
        else vs_UpdateStatus w o = (w, inr Conflict)
    end;
  (** Stored objects have a resource version. *)
  vs_stored : forall w n o, vs_store w n = Some o -> pv_Name o = n /\ pv_ResourceVersion o <> ""%string
}.

Section Write.
Context `{VS : VersionServer W}.

(** One round of the poll, with the two variables that it keeps: done with the
    resource version stored, failed for good, or once more. *)
Inductive Round :=
  | Written (resourceVersion : string)
  | Forbidden
  | Again (resourceVersion : string) (refreshVersion : bool).

(** "Update the status of an existing object". *)
Definition updateStatusRound (w : W) (obj : PropagatedVersion) (resourceVersion : string) : W * Round :=
  let '(w, res) := vs_UpdateStatus w (setResourceVersion obj resourceVersion) in
  match res with
  | inl updatedObj => (w, Written (pv_ResourceVersion updatedObj))
  | inr err =>
      if IsConflict err then (w, Again resourceVersion true)
      else if IsNotFound err then (w, Again "" false)
      else if IsForbidden err then (w, Forbidden)
      else (w, Again resourceVersion false)
  end.

Definition writeRound (w : W) (obj : PropagatedVersion) (qualifiedName : QualifiedName)
    (resourceVersion : string) (refreshVersion : bool) : W * Round :=
  let refreshed :=
    if refreshVersion then
      match vs_Get w qualifiedName with
      | inr err => None
      | inl o => Some (pv_ResourceVersion o)
      end
    else Some resourceVersion in
  match refreshed with
  | None => (w, Again "" true)
  | Some resourceVersion =>
      if String.eqb resourceVersion "" then
        let '(w, res) := vs_Create w (setResourceVersion obj "") in
        match res with
        | inr err =>
            if IsAlreadyExists err then (w, Again resourceVersion true)
            else if IsForbidden err then (w, Forbidden)
            else (w, Again resourceVersion false)
        | inl createdObj => updateStatusRound w obj (pv_ResourceVersion createdObj)
        end
      else updateStatusRound w obj resourceVersion
  end.

(** The poll, with as many rounds as its timeout leaves time for; [None] is a
    failure to write. *)
Fixpoint writeLoop (rounds : nat) (w : W) (obj : PropagatedVersion) (qualifiedName : QualifiedName)
    (resourceVersion : string) (refreshVersion : bool) : W * option PropagatedVersion :=
  match rounds with
  | O => (w, None)
  | S rounds' =>
      let '(w, round) := writeRound w obj qualifiedName resourceVersion refreshVersion in
      match round with
      | Written resourceVersion => (w, Some (setResourceVersion obj resourceVersion))
      | Forbidden => (w, None)
      | Again resourceVersion refreshVersion =>
          writeLoop rounds' w obj qualifiedName resourceVersion refreshVersion
      end
  end.

Definition writeVersion (rounds : nat) (w : W) (obj : PropagatedVersion) (qualifiedName : QualifiedName)
    : W * option PropagatedVersion :=
  writeLoop rounds w obj qualifiedName (pv_ResourceVersion obj) false.

Context `{K : Kubernetes} `{R : GoRuntime}.

(** [Update]: the object in the cache gets the resource version written. *)
Definition vm_Update (rounds : nat) (w : W) (m : VersionManager) (resource : VersionedResource)
    (selectedClusters : list string) (versionMap : gmap string string) : W * (VersionManager * bool + string) :=
  match updateCache m resource selectedClusters versionMap with
  | inr err => (w, inr err)
  | inl (m, None) => (w, inl (m, true))
  | inl (m, Some obj) =>
      let qualifiedName := versionQualifiedName (vr_FederatedName resource) in
      let '(w, written) := writeVersion rounds w obj qualifiedName in
      match written with
      | None => (w, inl (m, false))
      | Some obj => (w, inl (set_versions m (<[QualifiedName_String qualifiedName := obj]> (versions m)), true))
      end
  end.
End Write.

(** * Versions of propagated objects: properties *)

(** ** Generations *)

Section Generations.
Context `{U : UnstructuredHelpers} `{R : GoRuntime}.

Lemma generationOf_ObjectVersion o : int64 (uns_GetGeneration o) ->
  generationOf (ObjectVersion o) = Some (uns_GetGeneration o).
Proof.
  intros Ho. unfold ObjectVersion. destruct (Z.eqb_spec (uns_GetGeneration o) 0) as [E|E]; simpl negb.
  - unfold generationOf. by rewrite HasPrefix_app, E.
  - unfold generationOf. rewrite HasPrefix_app, TrimPrefix_app, ParseInt_decimal by done. done.
Qed.

Lemma ConvertVersionMapToGenerationMap_lookup vm c :
  ConvertVersionMapToGenerationMap vm !! c = vm !! c ≫= generationOf.
Proof.
  unfold ConvertVersionMapToGenerationMap.
  rewrite (foldl_point (fun (m : gmap string Z) k => m !! k)
    (fun _ old v => match generationOf v with Some g => Some g | None => old end)).
  - destruct (vm !! c) as [v|]; [|done]. simpl. by destruct (generationOf v).
  - intros s k v n. destruct (generationOf v); case_decide; subst; try done;
      [by rewrite lookup_insert_eq|by rewrite lookup_insert_ne].
Qed.
End Generations.

(** ** The cache *)

Section Cache.
Context `{K : Kubernetes} `{R : GoRuntime}.

(** The map that [Get] builds from recorded versions. *)
Definition versions_map (l : list ClusterObjectVersion) : gmap string string :=
  foldl (fun versionMap v => <[ClusterName v := cov_Version v]> versionMap) ∅ l.

Lemma versions_map_app l v :
  versions_map (l ++ [v]) = <[ClusterName v := cov_Version v]> (versions_map l).
Proof. unfold versions_map. by rewrite foldl_app. Qed.

Lemma versions_map_In l c v : NoDup (ClusterName <$> l) ->
  versions_map l !! c = Some v <-> {| ClusterName := c; cov_Version := v |} ∈ l.
Proof.
  induction l as [|[c' v'] l IH] using rev_ind.
  - intros _. unfold versions_map. simpl. rewrite lookup_empty, elem_of_nil. done.
  - rewrite fmap_app, NoDup_app. intros (Hnd & Hd & _). rewrite versions_map_app, elem_of_app, list_elem_of_singleton.
    simpl. destruct (decide (c' = c)) as [->|Hne].
    + rewrite lookup_insert_eq. split; [intros [= ->]; by right|]. intros [Hin|[= ->]]; [|done].
      destruct (Hd c); [|by left]. by apply (list_elem_of_fmap_2 ClusterName) in Hin.
    + rewrite lookup_insert_ne, IH by done. split; [by left|]. intros [?|[= ->]]; done.
Qed.

(** A recorded version, unless it is empty. *)
Definition nonempty (v : string) : option string := if String.eqb v "" then None else Some v.

Lemma collect_versions l acc :
  foldl (fun clusterVersions '(clusterName, version) =>
    if String.eqb version "" then clusterVersions
    else clusterVersions ++ [{| ClusterName := clusterName; cov_Version := version |}]) acc l =
  acc ++ omap (fun '(k, v) => if String.eqb v "" then None else Some {| ClusterName := k; cov_Version := v |}) l.
Proof.
  revert acc. induction l as [|[k v] l IH]; intros acc; simpl; [by rewrite app_nil_r|].
  rewrite IH. destruct (String.eqb v ""); [done|]. by rewrite <- app_assoc.
Qed.

Lemma names_collected (l : list (string * string)) :
  sublist (ClusterName <$> omap (fun '(k, v) => if String.eqb v "" then None
             else Some {| ClusterName := k; cov_Version := v |}) l) l.*1.
Proof.
  induction l as [|[k v] l IH]; simpl; [done|].
  destruct (String.eqb v ""); simpl; [by apply sublist_cons|by apply sublist_skip].
Qed.

Lemma VersionMapToClusterVersions_spec vm :
  NoDup (ClusterName <$> VersionMapToClusterVersions vm) /\
  forall c, versions_map (VersionMapToClusterVersions vm) !! c = vm !! c ≫= nonempty.
Proof.
  unfold VersionMapToClusterVersions, SortClusterVersions. rewrite collect_versions. simpl.
  set (less := fun x y => String.ltb (ClusterName x) (ClusterName y)).
  set (l := omap _ (range_map vm)).
  assert (Hnd : NoDup (ClusterName <$> sort_slice less l)).
  { rewrite (sort_slice_perm _ less l). eapply sublist_NoDup; [apply (NoDup_range_map_fst vm)|apply names_collected]. }
  split; [done|]. intros c. apply option_eq. intros v. rewrite versions_map_In by done.
  rewrite elem_of_sort_slice. unfold l. rewrite list_elem_of_omap. unfold nonempty. split.
  - intros ([k w] & Hin & H). destruct (String.eqb w "") eqn:E; [done|]. injection H as -> ->.
    apply elem_of_range_map in Hin. rewrite Hin. simpl. by rewrite E.
  - destruct (vm !! c) as [w|] eqn:Hc; [|done]. simpl. destruct (String.eqb w "") eqn:E; [done|]. intros [= ->].
    exists (c, v). rewrite E. split; [by apply elem_of_range_map|done].
Qed.

(** Versions of selected clusters are kept where there is no new one. *)
Lemma retained_versions (sel : gset string) old (new : gmap string string) c : NoDup (ClusterName <$> old) ->
  foldl (fun newVersions oldVersion =>
    if negb (bool_decide (ClusterName oldVersion ∈ sel)) then newVersions
    else if bool_decide (is_Some (newVersions !! ClusterName oldVersion)) then newVersions
    else <[ClusterName oldVersion := cov_Version oldVersion]> newVersions) new old !! c =
  match new !! c with
  | Some v => Some v
  | None => if bool_decide (c ∈ sel) then versions_map old !! c else None
  end.
Proof.
  revert c. induction old as [|o old IH] using rev_ind; intros c.
  - intros _. simpl. unfold versions_map. simpl. rewrite lookup_empty. destruct (new !! c); [done|].
    by case_bool_decide.
  - rewrite fmap_app, NoDup_app. intros (Hnd & Hd & _). rewrite foldl_app, versions_map_app. simpl.
    set (m := foldl _ new old) in *. specialize (fun c => IH c Hnd).
    assert (Hold : versions_map old !! ClusterName o = None).
    { apply eq_None_not_Some. intros [v Hv]. apply versions_map_In in Hv; [|done].
      destruct (Hd (ClusterName o)); [|by left]. by apply (list_elem_of_fmap_2 ClusterName) in Hv. }
    destruct (decide (ClusterName o ∈ sel)) as [Hs|Hs]; [rewrite (bool_decide_eq_true_2 _ Hs)
                                                        |rewrite (bool_decide_eq_false_2 _ Hs)]; simpl.
    + pose proof (IH (ClusterName o)) as Ho. rewrite (bool_decide_eq_true_2 _ Hs), Hold in Ho.
      destruct (new !! ClusterName o) as [v|] eqn:En; rewrite Ho; simpl;
        (destruct (decide (ClusterName o = c)) as [<-|Hne];
         [rewrite ?lookup_insert_eq|rewrite ?lookup_insert_ne by done; by rewrite IH]).
      * by rewrite Ho, En.
      * by rewrite En, (bool_decide_eq_true_2 _ Hs).
    + rewrite IH. destruct (new !! c); [done|]. case_bool_decide; [|done].
      by rewrite lookup_insert_ne by congruence.
Qed.

(** Every recorded list of versions names a cluster once. *)
Definition names_once (m : VersionManager) : Prop := forall key obj,
  versions m !! key = Some obj -> NoDup (ClusterName <$> default [] (ClusterVersions (pv_Status obj))).

(** What [Get] returns when the versions of the resource can be computed. *)
Definition recorded (m : VersionManager) (r : VersionedResource) (t o : string) : gmap string string :=
  match versions m !! QualifiedName_String (vr_FederatedName r) with
  | Some obj =>
      if String.eqb t (pvs_TemplateVersion (pv_Status obj)) && String.eqb o (pvs_OverrideVersion (pv_Status obj))
      then versions_map (default [] (ClusterVersions (pv_Status obj))) else ∅
  | None => ∅
  end.

Lemma vm_Get_recorded m r t o : vr_TemplateVersion r = inl t -> vr_OverrideVersion r = inl o ->
  vm_Get m r = inl (recorded m r t o).
Proof.
  intros Ht Ho. unfold vm_Get, recorded, versionQualifiedName. rewrite Ht, Ho.
  destruct (versions m !! _) as [obj|]; [|done]. by destruct (String.eqb t _ && String.eqb o _).
Qed.

(** What was recorded is read back: after an update, [Get] returns the new
    version of each cluster, and the previous one of a selected cluster without
    a new version, provided template and overrides are the ones it was recorded
    for; the versions of every other cluster are forgotten. *)
Lemma updateCache_Get m r sel vm m' w old :
  names_once m -> vm_Get m r = inl old -> updateCache m r sel vm = inl (m', w) ->
  names_once m' /\
  exists new, vm_Get m' r = inl new /\
    forall c, new !! c = match vm !! c with
                         | Some v => nonempty v
                         | None => if bool_decide (c ∈ sel) then old !! c ≫= nonempty else None
                         end.
Proof.
  intros Honce Hold Hup. unfold updateCache in Hup.
  destruct (vr_TemplateVersion r) as [t|] eqn:Ht; [|done]. destruct (vr_OverrideVersion r) as [o|] eqn:Ho; [|done].
  rewrite (vm_Get_recorded _ _ _ _ Ht Ho) in Hold. injection Hold as <-.
  unfold versionQualifiedName in Hup. set (key := QualifiedName_String (vr_FederatedName r)) in *.
  assert (Hins : forall obj, NoDup (ClusterName <$> default [] (ClusterVersions (pv_Status obj))) ->
    names_once (set_versions m (<[key := obj]> (versions m)))).
  { intros obj Hnd k o'. simpl. destruct (decide (key = k)) as [<-|Hne].
    - rewrite lookup_insert_eq. by intros [= <-].
    - rewrite lookup_insert_ne by done. apply Honce. }
  assert (Hget : forall m0 obj, versions m0 !! key = Some obj ->
    pvs_TemplateVersion (pv_Status obj) = t -> pvs_OverrideVersion (pv_Status obj) = o ->
    vm_Get m0 r = inl (versions_map (default [] (ClusterVersions (pv_Status obj))))).
  { intros m0 obj Hk Et Eo. rewrite (vm_Get_recorded _ _ _ _ Ht Ho). unfold recorded. fold key.
    by rewrite Hk, Et, Eo, !String.eqb_refl. }
  unfold recorded. fold key. destruct (versions m !! key) as [obj|] eqn:Hk.
  - rewrite (String.eqb_sym t), (String.eqb_sym o).
    set (cv := if String.eqb _ t && String.eqb _ o then default [] (ClusterVersions (pv_Status obj)) else []) in *.
    assert (Hcv : NoDup (ClusterName <$> cv)).
    { unfold cv. destruct (_ && _); [by eapply Honce|constructor]. }
    replace (if String.eqb _ t && String.eqb _ o then _ else ∅) with (versions_map cv) by (unfold cv; by destruct (_ && _)).
    unfold updateClusterVersions in Hup.
    set (newV := foldl _ vm cv) in Hup. destruct (VersionMapToClusterVersions_spec newV) as [Hnd Hl].
    assert (Hnew : forall c, versions_map (VersionMapToClusterVersions newV) !! c =
      match vm !! c with
      | Some v => nonempty v
      | None => if bool_decide (c ∈ sel) then versions_map cv !! c ≫= nonempty else None
      end).
    { intros c. rewrite Hl. unfold newV. rewrite retained_versions by done. destruct (vm !! c); [done|].
      rewrite (bool_decide_ext (c ∈ list_to_set sel) (c ∈ sel)) by apply elem_of_list_to_set.
      by case_bool_decide. }
    unfold PropagatedVersionStatusEquivalent in Hup. cbn [pvs_TemplateVersion pvs_OverrideVersion ClusterVersions] in Hup.
    destruct (String.eqb_spec (pvs_TemplateVersion (pv_Status obj)) t) as [Et|Et];
      destruct (String.eqb_spec (pvs_OverrideVersion (pv_Status obj)) o) as [Eo|Eo]; cbn [andb] in Hup;
      [case_bool_decide as Ecv|..]; injection Hup as <- <-.
    1: { split; [done|]. exists (versions_map (VersionMapToClusterVersions newV)). split; [|done].
         rewrite (Hget m obj Hk Et Eo), Ecv. done. }
    all: split; [by apply Hins|]; exists (versions_map (VersionMapToClusterVersions newV)); split; [|done];
      erewrite Hget; [|apply lookup_insert_eq|done|done]; done.
  - injection Hup as <- <-. destruct (VersionMapToClusterVersions_spec vm) as [Hnd Hl].
    split; [by apply Hins|]. exists (versions_map (VersionMapToClusterVersions vm)). split.
    + erewrite Hget; [|apply lookup_insert_eq|done|done]. done.
    + intros c. rewrite Hl. destruct (vm !! c); [done|]. by case_bool_decide.
Qed.
End Cache.

(** ** Writing *)

Section Writing.
Context `{VS : VersionServer W} `{L : !VersionServerLaws W}.

Definition stores (w : W) (obj : PropagatedVersion) (w' : W) (rv : string) : Prop :=
  exists s, vs_store w' (pv_Name obj) = Some s /\ pv_Status s = pv_Status obj /\ pv_ResourceVersion s = rv /\
    forall n, n <> pv_Name obj -> vs_store w' n = vs_store w n.

(** A round with the stored resource version writes; with another one it asks
    to refresh; without a stored object it asks to create. *)
Lemma updateStatusRound_spec w obj rv :
  match vs_store w (pv_Name obj) with
  | Some cur =>
      if decide (pv_ResourceVersion cur = rv)
      then exists w' rv', updateStatusRound w obj rv = (w', Written rv') /\ stores w obj w' rv'
      else updateStatusRound w obj rv = (w, Again rv true)
  | None => updateStatusRound w obj rv = (w, Again "" false)
  end.
Proof.
  unfold updateStatusRound. pose proof (vs_UpdateStatus_law w (setResourceVersion obj rv)) as H. simpl in H.
  destruct (vs_store w (pv_Name obj)) as [cur|]; [|by rewrite H]. case_decide; [|by rewrite H].
  destruct H as (w' & s & -> & Hn & Hst & _ & Hw). exists w', (pv_ResourceVersion s). split; [done|].
  exists s. rewrite Hw, decide_True by done. split_and!; [done..|]. intros n Hne. by rewrite Hw, decide_False.
Qed.

Lemma create_round w obj : vs_store w (pv_Name obj) = None ->
  exists w' rv', writeRound w obj (pv_Name obj) "" false = (w', Written rv') /\ stores w obj w' rv'.
Proof.
  intros Hn. unfold writeRound. simpl. pose proof (vs_Create_law w (setResourceVersion obj "")) as H. simpl in H.
  rewrite Hn in H. destruct H as (w1 & s & -> & Hname & Hrv & Hw).
  pose proof (updateStatusRound_spec w1 obj (pv_ResourceVersion s)) as Hu.
  rewrite Hw, decide_True, decide_True in Hu by done. destruct Hu as (w' & rv' & Hu & s' & Hs' & Hst & Hr & Ho).
  exists w', rv'. split; [done|]. exists s'. split_and!; [done..|]. intros n Hne. by rewrite Ho, Hw, decide_False.
Qed.

(** The second round, whatever the first one found out. *)
Lemma second_round w obj rv refresh :
  refresh = true /\ is_Some (vs_store w (pv_Name obj)) \/ refresh = false /\ rv = ""%string /\ vs_store w (pv_Name obj) = None ->
  exists w' rv', writeRound w obj (pv_Name obj) rv refresh = (w', Written rv') /\ stores w obj w' rv'.
Proof.
  intros [[-> [cur Hcur]]|(-> & -> & Hn)]; [|by apply create_round].
  unfold writeRound. rewrite vs_Get_law, Hcur. destruct (vs_stored _ _ _ Hcur) as [_ Hne].
  apply String.eqb_neq in Hne. rewrite Hne. pose proof (updateStatusRound_spec w obj (pv_ResourceVersion cur)) as Hu.
  by rewrite Hcur, decide_True in Hu.
Qed.

(** C16. Writing converges: whatever resource version the cached object has, two
    rounds of the poll store its status in the API server when nobody else
    writes, the object in the cache carries the new resource version, and no
    other object is touched. *)
Theorem writeVersion_converges rounds w obj :
  (2 <= rounds)%nat ->
  exists w' rv, writeVersion rounds w obj (pv_Name obj) = (w', Some (setResourceVersion obj rv)) /\ stores w obj w' rv.
Proof.
  destruct rounds as [|[|rounds]]; [lia|lia|]. intros _. unfold writeVersion. set (rv0 := pv_ResourceVersion obj).
  assert (H1 : (exists w' rv', writeRound w obj (pv_Name obj) rv0 false = (w', Written rv') /\ stores w obj w' rv') \/
    exists rv refresh, writeRound w obj (pv_Name obj) rv0 false = (w, Again rv refresh) /\
      (refresh = true /\ is_Some (vs_store w (pv_Name obj)) \/
       refresh = false /\ rv = ""%string /\ vs_store w (pv_Name obj) = None)).
  { destruct (String.eqb_spec rv0 "") as [->|Hne].
    - destruct (vs_store w (pv_Name obj)) as [cur|] eqn:Hcur; [right|left; by apply create_round].
      exists ""%string, true. unfold writeRound. simpl.
      pose proof (vs_Create_law w (setResourceVersion obj "")) as H. simpl in H. rewrite Hcur in H. rewrite H.
      split; [done|]. left. by split; [|eexists].
    - unfold writeRound. apply String.eqb_neq in Hne. rewrite Hne.
      pose proof (updateStatusRound_spec w obj rv0) as Hu.
      destruct (vs_store w (pv_Name obj)) as [cur|] eqn:Hcur; [case_decide|]; [by left|right..].
      + exists rv0, true. split; [done|]. left. by split; [|eexists].
      + exists ""%string, false. split; [done|]. by right. }
  cbn [writeLoop]. destruct H1 as [(w' & rv' & -> & Hs)|(rv & refresh & -> & Hr)]; [by eexists _, _|].
  destruct (second_round w obj rv refresh Hr) as (w' & rv' & -> & Hs). by eexists _, _.
Qed.
End Writing.

(** ** Concrete inputs *)

Section Witnesses.
#[local] Existing Instance small_kubernetes.
#[local] Existing Instance small_runtime.

(** A server that counts the writes of each object. *)
Definition small_store : Type := QualifiedName -> option (OwnerReference * PropagatedVersionStatus * Z).

Definition stored_object (w : small_store) (n : QualifiedName) : option PropagatedVersion :=
  match w n with
  | Some (owner, status, k) => Some {| pv_Name := n; pv_ResourceVersion := String "v" (decimal k);
                                       pv_Owner := owner; pv_Status := status |}
  | None => None
  end.

Definition store_set (w : small_store) (n : QualifiedName) x : small_store :=
  fun n' => if decide (n' = n) then Some x else w n'.

Definition empty_versions : PropagatedVersionStatus :=
  {| pvs_TemplateVersion := ""; pvs_OverrideVersion := ""; ClusterVersions := None |}.

Definition small_Create (w : small_store) (o : PropagatedVersion) : small_store * (PropagatedVersion + ApiError) :=
  match w (pv_Name o) with
  | Some _ => (w, inr ErrAlreadyExists)
  | None => let w' := store_set w (pv_Name o) (pv_Owner o, empty_versions, 1) in
            (w', match stored_object w' (pv_Name o) with Some s => inl s | None => inr NotFound end)
  end.

Definition small_UpdateStatus (w : small_store) (o : PropagatedVersion) : small_store * (PropagatedVersion + ApiError) :=
  match w (pv_Name o) with
  | None => (w, inr NotFound)
  | Some (owner, _, k) =>
      if decide (String "v" (decimal k) = pv_ResourceVersion o) then
        let w' := store_set w (pv_Name o) (owner, pv_Status o, k + 1) in
        (w', match stored_object w' (pv_Name o) with Some s => inl s | None => inr NotFound end)
      else (w, inr Conflict)
  end.

#[local] Instance small_server : VersionServer small_store := {|
  vs_Get := fun w n => match stored_object w n with Some o => inl o | None => inr NotFound end;
  vs_Create := small_Create;
  vs_UpdateStatus := small_UpdateStatus
|}.

Lemma stored_set w n x n' :
  stored_object (store_set w n x) n' = if decide (n' = n) then stored_object (store_set w n x) n else stored_object w n'.
Proof. destruct (decide (n' = n)) as [->|H]; [done|]. unfold stored_object, store_set. by rewrite decide_False. Qed.

#[local] Instance small_server_laws : VersionServerLaws small_store.
Proof.
  refine {| vs_store := stored_object |}.
  - done.
  - intros w o. simpl. unfold small_Create. destruct (w (pv_Name o)) as [[[ow st] k]|] eqn:E; unfold stored_object at 1;
      rewrite E; [done|]. exists (store_set w (pv_Name o) (pv_Owner o, empty_versions, 1)). eexists. split.
    + unfold stored_object, store_set. rewrite decide_True by done. done.
    + split_and!; [done..|]. intros n. rewrite stored_set. case_decide; [|done].
      unfold stored_object, store_set. by rewrite decide_True.
  - intros w o. simpl. unfold small_UpdateStatus, stored_object at 1.
    destruct (w (pv_Name o)) as [[[ow st] k]|] eqn:E; [|done]. simpl. case_decide; [|done].
    exists (store_set w (pv_Name o) (ow, pv_Status o, k + 1)). eexists. split.
    + unfold stored_object, store_set. rewrite decide_True by done. done.
    + split_and!; [done..|]. intros n. rewrite stored_set. case_decide; [|done].
      unfold stored_object, store_set. by rewrite decide_True.
  - intros w n o. unfold stored_object. destruct (w n) as [[[ow st] k]|]; [|done]. by intros [= <-].
Defined.

Definition fed_web : QualifiedName := {| qn_Namespace := "default"; qn_Name := "web" |}.
Definition fed_owner : OwnerReference := {| or_APIVersion := "core.kubeadmiral.io/v1alpha1"; or_Kind := "FederatedObject"; or_Name := "web" |}.

(** A version to write that was deleted from the server in the meantime. *)
Lemma writeVersion_converges_witness :
  exists w' rv, stores (fun _ => None) (setResourceVersion (NewVersion fed_web fed_owner
    {| pvs_TemplateVersion := "t"; pvs_OverrideVersion := "o"; ClusterVersions := Some [] |}) "v9") w' rv.
Proof.
  destruct (writeVersion_converges 2 (fun _ => None : option _) (setResourceVersion (NewVersion fed_web fed_owner
    {| pvs_TemplateVersion := "t"; pvs_OverrideVersion := "o"; ClusterVersions := Some [] |}) "v9") (le_n 2))
    as (w' & rv & _ & H). by exists w', rv.
Defined.

End Witnesses.
