(* ===== verification/Retain.v ===== *)
(** * Retaining the fields of cluster objects ([sync/dispatch/retain.go])

    Before an object of a member cluster is updated, the fields that the
    cluster owns are copied from it into the desired object. *)

From Stdlib Require Import ZArith Lia String Ascii SpecFloat.
From S2P Require Import Prelude GoStrings K8s Types ApiTypes Unstructured Codecs FedObject.

(** ** Names ([common/constants.go]) *)

Definition SourceGenerationAnnotation : string := (DefaultPrefix ++ "source-generation")%string.
Definition RetainReplicasAnnotation : string := (DefaultPrefix ++ "retain-replicas")%string.
Definition PropagatedAnnotationKeys : string := (DefaultPrefix ++ "propagated-annotation-keys")%string.
Definition PropagatedLabelKeys : string := (DefaultPrefix ++ "propagated-label-keys")%string.

Definition coreGVK (kind : string) : GroupVersionKind :=
  {| gvk_Group := ""; gvk_Version := "v1"; gvk_Kind := kind |}.
Definition ServiceGVK : GroupVersionKind := coreGVK "Service".
Definition ServiceAccountGVK : GroupVersionKind := coreGVK "ServiceAccount".
Definition PersistentVolumeGVK : GroupVersionKind := coreGVK "PersistentVolume".
Definition PersistentVolumeClaimGVK : GroupVersionKind := coreGVK "PersistentVolumeClaim".
Definition PodGVK : GroupVersionKind := coreGVK "Pod".
Definition NamespaceGVK : GroupVersionKind := coreGVK "Namespace".
Definition JobGVK : GroupVersionKind := {| gvk_Group := "batch"; gvk_Version := "v1"; gvk_Kind := "Job" |}.
Definition WorkflowGVK : GroupVersionKind :=
  {| gvk_Group := "argoproj.io"; gvk_Version := "v1alpha1"; gvk_Kind := "Workflow" |}.

Definition DefaultAPITokenMountPath : string := "/var/run/secrets/kubernetes.io/serviceaccount".

(** [==] on interface values: false for different dynamic types, a panic for
    two maps or two slices. *)
Definition go_eq (v w : Value) : may_panic bool :=
  match v, w with
  | VNull, VNull => mret true
  | VBool a, VBool b => mret (Bool.eqb a b)
  | VInt a, VInt b => mret (a =? b)
  | VFloat a, VFloat b => mret (SFeqb a b)
  | VString a, VString b => mret (String.eqb a b)
  | VList _, VList _ | VMap _, VMap _ => Panics
  | _, _ => mret false
  end.

(** [m[k]] of a [map[string]interface{}]. *)
Definition vget (m : Object) (k : string) : Value := default VNull (m !! k).

Definition setObject (o : Object) : Unstructured := {| uns_Object := o |}.

Section Retain.
Context `{R : GoRuntime} `{U : UnstructuredHelpers}.

(** ** Labels and annotations *)

(** [sets.List(sets.KeySet(m))], joined. *)
Definition joinKeys (m : gmap string string) : string :=
  String.concat "," (sort_slice String.ltb (elements (dom m))).

Definition recordPropagatedLabelsAndAnnotations (obj : Unstructured) : Unstructured :=
  let annotations := uns_GetAnnotations obj in
  let annotations := <[PropagatedLabelKeys := joinKeys (uns_GetLabels obj)]> annotations in
  let annotations := <[PropagatedAnnotationKeys := joinKeys (uns_GetAnnotations obj)]> annotations in
  uns_SetAnnotations annotations obj.

Definition mergeStringMaps (templateMap observedMap : gmap string string) (lastTemplateKeys : gset string)
    : gmap string string :=
  let deletedKeys := lastTemplateKeys ∖ dom templateMap in
  foldl (fun templateMap '(k, v) =>
    if bool_decide (k ∈ deletedKeys) then templateMap
    else if bool_decide (is_Some (templateMap !! k)) then templateMap
    else <[k := v]> templateMap) templateMap (range_map observedMap).

Definition lastKeys (clusterObj : Unstructured) (annotation : string) : gset string :=
  list_to_set (split_on "," (default ""%string (uns_GetAnnotations clusterObj !! annotation))).

Definition mergeAnnotations (desiredObj clusterObj : Unstructured) : Unstructured :=
  uns_SetAnnotations (mergeStringMaps (uns_GetAnnotations desiredObj) (uns_GetAnnotations clusterObj)
    (lastKeys clusterObj PropagatedAnnotationKeys)) desiredObj.

Definition mergeLabels (desiredObj clusterObj : Unstructured) : Unstructured :=
  uns_SetLabels (mergeStringMaps (uns_GetLabels desiredObj) (uns_GetLabels clusterObj)
    (lastKeys clusterObj PropagatedLabelKeys)) desiredObj.

(** ** Services *)

(** The body of the inner loop: the node port of a matching cluster port. *)
Definition retainPort (fPort : Object) (clusterPort : Value) : may_panic Object :=
  match clusterPort with
  | VMap cPort =>
      sameName ← go_eq (vget fPort "name") (vget cPort "name");
      sameProtocol ← (if sameName : bool then go_eq (vget fPort "protocol") (vget cPort "protocol") else mret false);
      same ← (if sameProtocol : bool then go_eq (vget fPort "port") (vget cPort "port") else mret false);
      mret (if negb same then fPort
            else match cPort !! "nodePort"%string with
                 | Some nodePort => <["nodePort"%string := nodePort]> fPort
                 | None => fPort
                 end)
  | _ => Panics
  end.

Fixpoint retainPortFrom (clusterPorts : list Value) (fPort : Object) : may_panic Object :=
  match clusterPorts with
  | [] => mret fPort
  | clusterPort :: clusterPorts' =>
      fPort ← retainPort fPort clusterPort;
      retainPortFrom clusterPorts' fPort
  end.

(** A port of the desired object that is not a map panics, if there is a
    cluster port to compare it with. *)
Definition retainPortValue (clusterPorts : list Value) (desiredPort : Value) : may_panic Value :=
  match clusterPorts, desiredPort with
  | [], _ => mret desiredPort
  | _, VMap fPort => VMap <$> retainPortFrom clusterPorts fPort
  | _, _ => Panics
  end.

Definition retainServiceFields (desiredObj clusterObj : Unstructured) : may_panic (Unstructured + string) :=
  match NestedString (uns_Object clusterObj) ["spec"; "clusterIP"]%string with
  | inr err => mret (inr ("Error retrieving clusterIP from cluster service: " ++ err)%string)
  | inl clusterIP =>
      let set := match clusterIP with
                 | Some ip => if String.eqb ip "" then inl (uns_Object desiredObj)
                              else SetNestedField (uns_Object desiredObj) (VString ip) ["spec"; "clusterIP"]%string
                 | None => inl (uns_Object desiredObj)
                 end in
      match set with
      | inr err => mret (inr ("Error setting clusterIP for service: " ++ err)%string)
      | inl desired =>
          match NestedSlice (uns_Object clusterObj) ["spec"; "ports"]%string with
          | inr err => mret (inr ("Error retrieving ports from cluster service: " ++ err)%string)
          | inl None => mret (inl (setObject desired))
          | inl (Some clusterPorts) =>
              match NestedSlice desired ["spec"; "ports"]%string with
              | inr err => mret (inr ("Error retrieving ports from service: " ++ err)%string)
              | inl desiredPorts =>
                  ports ← mapM (retainPortValue clusterPorts) (default [] desiredPorts);
                  mret match SetNestedField desired (VList ports) ["spec"; "ports"]%string with
                       | inr err => inr ("Error setting ports for service: " ++ err)%string
                       | inl desired => inl (setObject desired)
                       end
              end
          end
      end
  end.

(** ** Service accounts, jobs, volumes *)

Definition retainServiceAccountFields (desiredObj clusterObj : Unstructured) : Unstructured + string :=
  match NestedSlice (uns_Object desiredObj) ["secrets"]%string with
  | inr err => inr ("Error retrieving secrets from desired service account: " ++ err)%string
  | inl (Some (_ :: _)) => inl desiredObj
  | inl _ =>
      match NestedSlice (uns_Object clusterObj) ["secrets"]%string with
      | inr err => inr ("Error retrieving secrets from service account: " ++ err)%string
      | inl (Some (s :: secrets)) =>
          match SetNestedField (uns_Object desiredObj) (VList (s :: secrets)) ["secrets"]%string with
          | inr err => inr ("Error setting secrets for service account: " ++ err)%string
          | inl desired => inl (setObject desired)
          end
      | inl _ => inl desiredObj
      end
  end.

(** The field of the source, if it is there, into the destination. *)
Definition copyUnstructuredField (srcObj destObj : Unstructured) (fields : list string) : Unstructured + string :=
  match NestedFieldNoCopy (uns_Object srcObj) fields with
  | inl (Some value) =>
      match SetNestedField (uns_Object destObj) value fields with
      | inl dest => inl (setObject dest)
      | inr err => inr err
      end
  | _ => inl destObj
  end.

Definition manualSelector (obj : Unstructured) : bool :=
  match NestedBool (uns_Object obj) ["spec"; "manualSelector"]%string with
  | inl (Some b) => b
  | _ => false
  end.

Definition retainJobFields (desiredObj clusterObj : Unstructured) : Unstructured + string :=
  if manualSelector desiredObj then inl desiredObj
  else
    bind_error (copyUnstructuredField clusterObj desiredObj ["spec"; "selector"]%string) (fun desiredObj =>
      copyUnstructuredField clusterObj desiredObj ["spec"; "template"; "metadata"; "labels"]%string).

Definition retainPersistentVolumeFields (desiredObj clusterObj : Unstructured) : Unstructured + string :=
  copyUnstructuredField clusterObj desiredObj ["spec"; "claimRef"]%string.

Definition retainPersistentVolumeClaimFields (desiredObj clusterObj : Unstructured) : Unstructured + string :=
  match NestedString (uns_Object clusterObj) ["spec"; "volumeName"]%string with
  | inl (Some volumeName) =>
      match SetNestedField (uns_Object desiredObj) (VString volumeName) ["spec"; "volumeName"]%string with
      | inl desired => inl (setObject desired)
      | inr err => inr err
      end
  | _ => inl desiredObj
  end.

(** ** Pods *)

(** The first volume mount at the token path, and its index. *)
Fixpoint findTokenMount (volumeMounts : list Value) (i : nat) : option (Object * nat) :=
  match volumeMounts with
  | [] => None
  | VMap volumeMount :: rest =>
      match NestedString volumeMount ["mountPath"]%string with
      | inl (Some mountPath) =>
          if String.eqb mountPath DefaultAPITokenMountPath then Some (volumeMount, i)
          else findTokenMount rest (S i)
      | _ => findTokenMount rest (S i)
      end
  | _ :: rest => findTokenMount rest (S i)
  end.

Definition findServiceAccountVolumeMount (container : Object) : option (Object * nat) :=
  match NestedSlice container ["volumeMounts"]%string with
  | inl (Some volumeMounts) => findTokenMount volumeMounts 0
  | _ => None
  end.

Definition retainContainer (desiredContainer clusterContainer : Object) : Object + string :=
  bind_error (NestedFieldNoCopy clusterContainer ["resources"]%string) (fun resources =>
  bind_error (match resources with
              | Some resources => SetNestedField desiredContainer resources ["resources"]%string
              | None => inl (RemoveNestedField desiredContainer ["resources"]%string)
              end) (fun desiredContainer =>
  match findServiceAccountVolumeMount desiredContainer, findServiceAccountVolumeMount clusterContainer with
  | None, Some (volumeMnt, idx) =>
      let desiredVolumeMnts := match NestedSlice desiredContainer ["volumeMounts"]%string with
                               | inl (Some l) => l
                               | _ => []
                               end in
      if (length desiredVolumeMnts <? idx)%nat then
        inr "failed to copy service account volume mount, slice length mismatch"%string
      else SetNestedField desiredContainer
             (VList (take idx desiredVolumeMnts ++ VMap volumeMnt :: drop idx desiredVolumeMnts)) ["volumeMounts"]%string
  | _, _ => inl desiredContainer
  end)).

(** The name of a container; [None] to [continue]. *)
Definition containerName (container : Value) : option (Object * string) :=
  match container with
  | VMap c => match NestedString c ["name"]%string with inl (Some name) => Some (c, name) | _ => None end
  | _ => None
  end.

Fixpoint findContainer (desiredName : string) (clusterContainers : list Value) : option Object :=
  match clusterContainers with
  | [] => None
  | cc :: rest =>
      match containerName cc with
      | Some (clusterContainer, name) =>
          if String.eqb name desiredName then Some clusterContainer else findContainer desiredName rest
      | None => findContainer desiredName rest
      end
  end.

Fixpoint retainContainers (desiredContainers clusterContainers : list Value) : list Value + string :=
  match desiredContainers with
  | [] => inl []
  | dc :: rest =>
      bind_error
        match containerName dc with
        | None => inl dc
        | Some (desiredContainer, desiredName) =>
            match findContainer desiredName clusterContainers with
            | None => inl dc
            | Some clusterContainer => bind_error (retainContainer desiredContainer clusterContainer) (fun c => inl (VMap c))
            end
        end (fun dc => bind_error (retainContainers rest clusterContainers) (fun rest => inl (dc :: rest)))
  end.

Definition sliceOrNil (obj : Unstructured) (fields : list string) : list Value :=
  match NestedSlice (uns_Object obj) fields with inl (Some l) => l | _ => [] end.

(** A string field that is left empty is copied from the cluster object. *)
Definition defaultString (clusterObj : Unstructured) (field : string) (desiredObj : Unstructured) : Unstructured + string :=
  match NestedString (uns_Object desiredObj) ["spec"%string; field] with
  | inl None | inl (Some ""%string) => copyUnstructuredField clusterObj desiredObj ["spec"%string; field]
  | _ => inl desiredObj
  end.

(** So is any other field that is absent or null. *)
Definition defaultField (clusterObj : Unstructured) (field : string) (desiredObj : Unstructured) : Unstructured + string :=
  match NestedFieldNoCopy (uns_Object desiredObj) ["spec"%string; field] with
  | inl None | inl (Some VNull) => copyUnstructuredField clusterObj desiredObj ["spec"%string; field]
  | _ => inl desiredObj
  end.

Definition retainContainerList (clusterObj : Unstructured) (field : string) (desiredObj : Unstructured)
    : Unstructured + string :=
  bind_error (retainContainers (sliceOrNil desiredObj ["spec"%string; field]) (sliceOrNil clusterObj ["spec"%string; field]))
    (fun containers =>
      bind_error (SetNestedField (uns_Object desiredObj) (VList containers) ["spec"%string; field])
        (fun desired => inl (setObject desired))).

Definition retainPodFields (desiredObj clusterObj : Unstructured) : Unstructured + string :=
  bind_error (copyUnstructuredField clusterObj desiredObj ["spec"; "ephemeralContainers"]%string) (fun desiredObj =>
  bind_error (copyUnstructuredField clusterObj desiredObj ["spec"; "volumes"]%string) (fun desiredObj =>
  bind_error (defaultString clusterObj "serviceAccountName" desiredObj) (fun desiredObj =>
  bind_error (defaultString clusterObj "serviceAccount" desiredObj) (fun desiredObj =>
  bind_error (defaultString clusterObj "nodeName" desiredObj) (fun desiredObj =>
  bind_error (defaultField clusterObj "priority" desiredObj) (fun desiredObj =>
  bind_error (defaultField clusterObj "dnsConfig" desiredObj) (fun desiredObj =>
  bind_error (retainContainerList clusterObj "containers" desiredObj) (fun desiredObj =>
    retainContainerList clusterObj "initContainers" desiredObj)))))))).

Definition retainArgoWorkflow (desiredObj clusterObj : Unstructured) : Unstructured + string :=
  bind_error (NestedFieldNoCopy (uns_Object clusterObj) ["status"]%string) (fun status =>
    match status with
    | Some status => bind_error (SetNestedField (uns_Object desiredObj) status ["status"]%string)
                       (fun desired => inl (setObject desired))
    | None => inl desiredObj
    end).

(** ** All of them *)

Definition RetainOrMergeClusterFields (targetGvk : GroupVersionKind) (desiredObj clusterObj : Unstructured)
    : may_panic (Unstructured + string) :=
  let desiredObj := uns_SetResourceVersion (uns_GetResourceVersion clusterObj) desiredObj in
  let desiredObj := mergeAnnotations desiredObj clusterObj in
  let desiredObj := mergeLabels desiredObj clusterObj in
  if bool_decide (targetGvk = ServiceGVK) then retainServiceFields desiredObj clusterObj
  else mret
    (if bool_decide (targetGvk = ServiceAccountGVK) then retainServiceAccountFields desiredObj clusterObj
     else if bool_decide (targetGvk = JobGVK) then retainJobFields desiredObj clusterObj
     else if bool_decide (targetGvk = PersistentVolumeGVK) then retainPersistentVolumeFields desiredObj clusterObj
     else if bool_decide (targetGvk = PersistentVolumeClaimGVK) then
       retainPersistentVolumeClaimFields desiredObj clusterObj
     else if bool_decide (targetGvk = PodGVK) then retainPodFields desiredObj clusterObj
     else if bool_decide (targetGvk = WorkflowGVK) then retainArgoWorkflow desiredObj clusterObj
     else inl desiredObj).
End Retain.

(** ** Replicas *)

Section Replicas.
Context `{K : Kubernetes} `{C : !Codecs}.

Definition checkRetainReplicas (fedObj : FederatedObject) : bool :=
  String.eqb (default ""%string (fo_Annotations fedObj !! RetainReplicasAnnotation)) AnnotationValueTrue.

(** [pkg/util/unstructured]; the replicas are not nil here. *)
Definition SetInt64FromPath (value : Unstructured) (path : string) (replicas : option Z) (prefixFields : list string)
    : Unstructured + string :=
  let pathSegments := SplitDotPath path prefixFields in
  match replicas with
  | Some n =>
      match SetNestedField (uns_Object value) (VInt n) pathSegments with
      | inl o => inl (setObject o)
      | inr err => inr ("cannot set [" ++ String.concat " " prefixFields ++ "]: " ++ err)%string
      end
  | None => inl (setObject (RemoveNestedField (uns_Object value) pathSegments))
  end.

Definition retainReplicas (desiredObj clusterObj : Unstructured) (fedObj : FederatedObject) (replicasPath : string)
    : Unstructured + string :=
  if checkRetainReplicas fedObj then
    match GetInt64FromPath clusterObj replicasPath [] with
    | inr err => inr err
    | inl None => inl desiredObj
    | inl (Some replicas) => SetInt64FromPath desiredObj replicasPath (Some replicas) []
    end
  else inl desiredObj.
End Replicas.
