(* ===== verification/RetainTheorems.v ===== *)
(** * Retaining the fields of cluster objects: properties *)

From Stdlib Require Import ZArith Lia String Ascii.
From S2P Require Import Prelude GoStrings K8s Types ApiTypes Unstructured Codecs FedObject Version Retain.

Section Merge.
Context `{R : GoRuntime} `{U : UnstructuredHelpers}.

Lemma mergeStringMaps_lookup template observed keys k :
  mergeStringMaps template observed keys !! k =
  match template !! k with
  | Some v => Some v
  | None => if bool_decide (k ∈ keys) then None else observed !! k
  end.
Proof.
  unfold mergeStringMaps. set (deleted := keys ∖ dom template).
  rewrite (foldl_point (fun (m : gmap string string) k => m !! k)
    (fun k old v => if bool_decide (k ∈ deleted) then old else match old with Some v' => Some v' | None => Some v end)).
  - unfold deleted. destruct (template !! k) as [v|] eqn:Ek.
    + destruct (observed !! k) as [w|]; [|done]. by case_bool_decide.
    + rewrite (bool_decide_ext (k ∈ keys ∖ dom template) (k ∈ keys)).
      * destruct (observed !! k); by repeat case_bool_decide.
      * rewrite elem_of_difference, elem_of_dom, Ek. split; [by intros []|]. split; [done|]. by intros [? ?].
  - intros s k' v n. destruct (decide (n = k')) as [->|Hne].
    + case_bool_decide; [done|]. destruct (s !! k') eqn:E.
      * by rewrite bool_decide_eq_true_2 by by eexists.
      * rewrite bool_decide_eq_false_2 by by intros []. by rewrite lookup_insert_eq.
    + case_bool_decide; [done|]. case_bool_decide; [done|]. by rewrite lookup_insert_ne.
Qed.

(** Keys that can be joined with commas and split again. *)
Definition no_commas (m : gmap string string) : Prop := forall k, is_Some (m !! k) -> string_has "," k = false /\ k <> ""%string.

Lemma elem_of_joinKeys m k : no_commas m ->
  k ∈ (list_to_set (split_on "," (joinKeys m)) : gset string) /\ k <> ""%string <-> is_Some (m !! k).
Proof.
  intros Hm. rewrite elem_of_list_to_set. unfold joinKeys.
  set (ks := sort_slice String.ltb (elements (dom m))).
  assert (Hks : forall x, x ∈ ks <-> is_Some (m !! x)).
  { intros x. unfold ks. by rewrite elem_of_sort_slice, elem_of_elements, elem_of_dom. }
  destruct ks as [|x ks'] eqn:E.
  - simpl. rewrite list_elem_of_singleton, <- Hks, elem_of_nil. naive_solver.
  - rewrite split_on_concat; [|done|].
    + rewrite Hks. split; [by intros [??]|]. intros H. split; [done|]. by apply Hm.
    + apply Forall_forall. intros y Hy. apply Hm, Hks. done.
Qed.

(** The annotations and labels an update of the template [old] recorded. *)
Definition propagated_from (old cluster : Unstructured) : Prop :=
  uns_GetAnnotations cluster !! PropagatedAnnotationKeys = Some (joinKeys (uns_GetAnnotations old)) /\
  uns_GetAnnotations cluster !! PropagatedLabelKeys = Some (joinKeys (uns_GetLabels old)).

Definition merge_key (old desired cluster : gmap string string) (k : string) : option string :=
  match desired !! k with
  | Some v => Some v
  | None => if bool_decide (is_Some (old !! k)) then None else cluster !! k
  end.

Lemma mergeStringMaps_keys desired cluster old k :
  no_commas old -> k <> ""%string ->
  mergeStringMaps desired cluster (list_to_set (split_on "," (joinKeys old))) !! k = merge_key old desired cluster k.
Proof.
  intros Hold Hk. rewrite mergeStringMaps_lookup. unfold merge_key. destruct (desired !! k); [done|].
  rewrite (bool_decide_ext (k ∈ _) (is_Some (old !! k))); [done|].
  rewrite <- (elem_of_joinKeys old k Hold). naive_solver.
Qed.

Lemma GetAnnotations_SetAnnotations a u : metadata_ok u = true -> uns_GetAnnotations (uns_SetAnnotations a u) = a.
Proof. intros Hu. unfold uns_GetAnnotations. by rewrite (ms_meta _ _ _ (Meta_SetAnnotations a)). Qed.
Lemma GetLabels_SetAnnotations a u : metadata_ok u = true ->
  uns_GetLabels (uns_SetAnnotations a u) = uns_GetLabels u.
Proof. intros Hu. unfold uns_GetLabels. by rewrite (ms_meta _ _ _ (Meta_SetAnnotations a)). Qed.
Lemma GetLabels_SetLabels l u : metadata_ok u = true -> uns_GetLabels (uns_SetLabels l u) = l.
Proof. intros Hu. unfold uns_GetLabels. by rewrite (ms_meta _ _ _ (Meta_SetLabels l)). Qed.
Lemma GetAnnotations_SetLabels l u : metadata_ok u = true ->
  uns_GetAnnotations (uns_SetLabels l u) = uns_GetAnnotations u.
Proof. intros Hu. unfold uns_GetAnnotations. by rewrite (ms_meta _ _ _ (Meta_SetLabels l)). Qed.
Lemma metadata_ok_SetAnnotations a u : metadata_ok u = true -> metadata_ok (uns_SetAnnotations a u) = true.
Proof. apply (ms_ok _ _ _ (Meta_SetAnnotations a)). Qed.
Lemma metadata_ok_SetLabels a u : metadata_ok u = true -> metadata_ok (uns_SetLabels a u) = true.
Proof. apply (ms_ok _ _ _ (Meta_SetLabels a)). Qed.
Lemma metadata_ok_SetResourceVersion v u : metadata_ok u = true -> metadata_ok (uns_SetResourceVersion v u) = true.
Proof. apply (ms_ok _ _ _ (Meta_SetResourceVersion v)). Qed.

(** The metadata after the merges. *)
Definition merged (desired cluster : Unstructured) : Unstructured :=
  mergeLabels (mergeAnnotations (uns_SetResourceVersion (uns_GetResourceVersion cluster) desired) cluster) cluster.

Lemma merged_meta desired cluster : metadata_ok desired = true ->
  metadata_ok (merged desired cluster) = true /\
  uns_Meta (merged desired cluster) =
    with_labels (mergeStringMaps (uns_GetLabels desired) (uns_GetLabels cluster) (lastKeys cluster PropagatedLabelKeys))
    (with_annotations (mergeStringMaps (uns_GetAnnotations desired) (uns_GetAnnotations cluster)
                         (lastKeys cluster PropagatedAnnotationKeys))
    (with_resourceVersion (uns_GetResourceVersion cluster) (uns_Meta desired))).
Proof.
  intros Hd. unfold merged, mergeLabels, mergeAnnotations.
  set (rv := uns_GetResourceVersion cluster).
  pose proof (metadata_ok_SetResourceVersion rv _ Hd) as H1.
  pose proof (metadata_ok_SetAnnotations (mergeStringMaps (uns_GetAnnotations (uns_SetResourceVersion rv desired))
    (uns_GetAnnotations cluster) (lastKeys cluster PropagatedAnnotationKeys)) _ H1) as H2.
  split; [by apply metadata_ok_SetLabels|].
  rewrite (ms_meta _ _ _ (Meta_SetLabels _)) by done. rewrite (ms_meta _ _ _ (Meta_SetAnnotations _)) by done.
  rewrite GetLabels_SetAnnotations by done. unfold uns_GetLabels, uns_GetAnnotations.
  by rewrite (ms_meta _ _ _ (Meta_SetResourceVersion _)).
Qed.
End Merge.

(** ** The other fields *)

Section Fields.
Context `{R : GoRuntime} `{U : UnstructuredHelpers}.

(** The metadata of two objects is the same field. *)
Definition same_metadata (u u' : Unstructured) : Prop :=
  uns_Object u !! "metadata"%string = uns_Object u' !! "metadata"%string.

Lemma same_metadata_Meta u u' : same_metadata u u' -> uns_Meta u = uns_Meta u' /\ metadata_ok u = metadata_ok u'.
Proof. intros H. split; [by apply Meta_frame|]. unfold metadata_ok. by rewrite H. Qed.

Lemma SetNestedField_metadata o v k p o' : SetNestedField o v (k :: p) = inl o' -> k <> "metadata"%string ->
  same_metadata (setObject o') (setObject o).
Proof. intros H Hk. unfold same_metadata. simpl. by eapply SetNestedField_other. Qed.

(** A step that leaves the metadata alone. *)
Definition frames (f : Unstructured -> Unstructured + string) : Prop :=
  forall u u', f u = inl u' -> same_metadata u' u.

Lemma same_metadata_trans u1 u2 u3 : same_metadata u1 u2 -> same_metadata u2 u3 -> same_metadata u1 u3.
Proof. unfold same_metadata. congruence. Qed.
Lemma same_metadata_refl u : same_metadata u u.
Proof. done. Qed.
Lemma same_metadata_setObject u : same_metadata (setObject (uns_Object u)) u.
Proof. done. Qed.

Lemma frames_bind f g : frames f -> frames g -> frames (fun u => bind_error (f u) g).
Proof.
  intros Hf Hg u u' (a & Ha & Hu)%bind_error_inl. eapply same_metadata_trans; [by apply Hg|by apply Hf].
Qed.

Lemma frames_set v k p : k <> "metadata"%string ->
  frames (fun u => bind_error (SetNestedField (uns_Object u) v (k :: p)) (fun o => inl (setObject o))).
Proof. intros Hk u u' (o & Ho & [= <-])%bind_error_inl. by eapply SetNestedField_metadata. Qed.

Lemma frames_copy src k p : k <> "metadata"%string -> frames (fun u => copyUnstructuredField src u (k :: p)).
Proof.
  intros Hk u u'. unfold copyUnstructuredField. destruct (NestedFieldNoCopy _ _) as [[v|]|]; [|by intros [= <-]..].
  destruct (SetNestedField _ _ _) as [o|] eqn:E; [|done]. intros [= <-]. by eapply SetNestedField_metadata.
Qed.

Lemma frames_defaultString src field : frames (defaultString src field).
Proof.
  intros u u'. unfold defaultString. destruct (NestedString _ _) as [[[|a s]|]|]; try (by intros [= <-]);
    by apply frames_copy.
Qed.
Lemma frames_defaultField src field : frames (defaultField src field).
Proof.
  intros u u'. unfold defaultField. destruct (NestedFieldNoCopy _ _) as [[[]|]|]; try (by intros [= <-]);
    by apply frames_copy.
Qed.
Lemma frames_containers src field : frames (retainContainerList src field).
Proof.
  intros u u'. unfold retainContainerList. intros (cs & _ & H)%bind_error_inl.
  by apply (frames_set (VList cs) "spec" [field]) in H.
Qed.

Lemma frames_pod src : frames (fun u => retainPodFields u src).
Proof.
  unfold retainPodFields.
  repeat apply (frames_bind _ (fun u => _));
    try (by apply frames_copy); try apply frames_defaultString; try apply frames_defaultField; apply frames_containers.
Qed.

Lemma frames_service src u u' : retainServiceFields u src = Returns (inl u') -> same_metadata u' u.
Proof.
  unfold retainServiceFields. destruct (NestedString _ _) as [ip|]; [|done].
  destruct (match ip with Some _ => _ | None => _ end) as [o|] eqn:Eo; [|done].
  assert (Ho : same_metadata (setObject o) u).
  { destruct ip as [ip|]; [|by injection Eo as <-]. destruct (String.eqb ip ""); [by injection Eo as <-|].
    by apply SetNestedField_metadata in Eo. }
  destruct (NestedSlice _ _) as [[ports|]|]; [|by intros [= <-]|done].
  destruct (NestedSlice o _) as [ps|]; [|done]. rewrite may_panic_bind_Returns. intros (l & _ & H).
  destruct (SetNestedField o _ _) as [o'|] eqn:E; [|done]. injection H as <-.
  eapply same_metadata_trans; [|exact Ho]. by eapply SetNestedField_metadata.
Qed.

Lemma frames_serviceAccount src : frames (fun u => retainServiceAccountFields u src).
Proof.
  intros u u'. unfold retainServiceAccountFields.
  destruct (NestedSlice _ _) as [[[|? ?]|]|]; try done; try (by intros [= <-]);
    (destruct (NestedSlice (uns_Object src) _) as [[[|s ss]|]|]; try done; try (by intros [= <-]);
     destruct (SetNestedField _ _ _) as [o|] eqn:E; [|done]; intros [= <-]; by eapply SetNestedField_metadata).
Qed.

Lemma frames_job src : frames (fun u => retainJobFields u src).
Proof.
  intros u u'. unfold retainJobFields. destruct (manualSelector u); [by intros [= <-]|].
  apply (frames_bind (fun u => copyUnstructuredField src u _)); by apply frames_copy.
Qed.

Lemma frames_claim src : frames (fun u => retainPersistentVolumeClaimFields u src).
Proof.
  intros u u'. unfold retainPersistentVolumeClaimFields. destruct (NestedString _ _) as [[v|]|]; try (by intros [= <-]).
  destruct (SetNestedField _ _ _) as [o|] eqn:E; [|done]. intros [= <-]. by eapply SetNestedField_metadata.
Qed.

Lemma frames_workflow src : frames (fun u => retainArgoWorkflow u src).
Proof.
  intros u u'. unfold retainArgoWorkflow. intros ([v|] & _ & H)%bind_error_inl; [|by injection H as <-].
  by apply (frames_set v "status" []) in H.
Qed.

(** Retention changes the metadata by the merges only. *)
Lemma RetainOrMerge_metadata gvk desired cluster u :
  RetainOrMergeClusterFields gvk desired cluster = Returns (inl u) -> same_metadata u (merged desired cluster).
Proof.
  unfold RetainOrMergeClusterFields. fold (merged desired cluster).
  case_bool_decide as Hg; [by apply frames_service|]. intros [= Hr]. revert Hr.
  repeat case_bool_decide; intros H'.
  - by apply frames_serviceAccount in H'.
  - by apply frames_job in H'.
  - by apply frames_copy in H'.
  - by apply frames_claim in H'.
  - by apply frames_pod in H'.
  - by apply frames_workflow in H'.
  - by injection H' as <-.
Qed.
End Fields.

(** ** Properties *)

Section Properties.
Context `{R : GoRuntime} `{U : UnstructuredHelpers}.

Lemma retained_meta gvk desired cluster u : metadata_ok desired = true ->
  RetainOrMergeClusterFields gvk desired cluster = Returns (inl u) ->
  metadata_ok u = true /\
  uns_GetLabels u = mergeStringMaps (uns_GetLabels desired) (uns_GetLabels cluster) (lastKeys cluster PropagatedLabelKeys) /\
  uns_GetAnnotations u = mergeStringMaps (uns_GetAnnotations desired) (uns_GetAnnotations cluster)
    (lastKeys cluster PropagatedAnnotationKeys) /\
  uns_GetResourceVersion u = uns_GetResourceVersion cluster /\
  uns_GetName u = uns_GetName desired /\ uns_GetNamespace u = uns_GetNamespace desired.
Proof.
  intros Hd H. apply RetainOrMerge_metadata, same_metadata_Meta in H as [Hm Hok].
  destruct (merged_meta desired cluster Hd) as [Hok' Hm']. rewrite Hm' in Hm.
  unfold uns_GetLabels, uns_GetAnnotations, uns_GetResourceVersion, uns_GetName, uns_GetNamespace.
  rewrite Hm. simpl. split; [congruence|done].
Qed.

(** C17. Labels and annotations are merged three ways: a key of the template
    keeps the value of the template, a key that the last update propagated and
    the template dropped is removed, and any other key of the cluster object
    stays; the update is bound to the resource version it was computed from. *)
Theorem RetainOrMerge_three_way gvk old desired cluster u :
  metadata_ok desired = true -> propagated_from old cluster ->
  no_commas (uns_GetLabels old) -> no_commas (uns_GetAnnotations old) ->
  RetainOrMergeClusterFields gvk desired cluster = Returns (inl u) ->
  uns_GetResourceVersion u = uns_GetResourceVersion cluster /\
  forall k, k <> ""%string ->
    uns_GetLabels u !! k = merge_key (uns_GetLabels old) (uns_GetLabels desired) (uns_GetLabels cluster) k /\
    uns_GetAnnotations u !! k =
      merge_key (uns_GetAnnotations old) (uns_GetAnnotations desired) (uns_GetAnnotations cluster) k.
Proof.
  intros Hd [Ha Hl] Hcl Hca H. apply retained_meta in H as (_ & Hl' & Ha' & Hrv & _); [|done].
  split; [done|]. intros k Hk. rewrite Hl', Ha'. unfold lastKeys. rewrite Ha, Hl.
  by split; apply mergeStringMaps_keys.
Qed.

(** A map that extends the template loses and gains nothing. *)
Lemma mergeStringMaps_same desired cluster (keys : gset string) :
  (forall k v, desired !! k = Some v -> cluster !! k = Some v) ->
  (forall k, k ∈ keys -> is_Some (desired !! k) \/ cluster !! k = None) ->
  mergeStringMaps desired cluster keys = cluster.
Proof.
  intros Hsub Hkeys. apply map_eq. intros k. rewrite mergeStringMaps_lookup.
  destruct (desired !! k) eqn:E; [symmetry; by apply Hsub|]. case_bool_decide as Hk; [|done].
  destruct (Hkeys k Hk) as [[? ?]|]; [congruence|done].
Qed.

Lemma lastKeys_joined cluster a m k : no_commas m -> uns_GetAnnotations cluster !! a = Some (joinKeys m) ->
  k ∈ lastKeys cluster a -> is_Some (m !! k) \/ k = ""%string.
Proof.
  intros Hm Ha Hk. unfold lastKeys in Hk. rewrite Ha in Hk. simpl in Hk.
  destruct (decide (k = ""%string)); [by right|left]. by apply (elem_of_joinKeys m k Hm).
Qed.

(** Retention settles: when the cluster object still carries every label
    and annotation that the desired object propagates, whatever else it
    carries, the object to update with has the metadata of the cluster object,
    so that the metadata alone never calls for an update. *)
Lemma retain_same_metadata gvk desired cluster u :
  metadata_ok desired = true ->
  no_commas (uns_GetLabels desired) -> no_commas (uns_GetAnnotations desired) ->
  uns_GetName desired = uns_GetName cluster -> uns_GetNamespace desired = uns_GetNamespace cluster ->
  uns_GetLabels cluster !! ""%string = None -> uns_GetAnnotations cluster !! ""%string = None ->
  uns_GetLabels desired ⊆ uns_GetLabels cluster ->
  uns_GetAnnotations (recordPropagatedLabelsAndAnnotations desired) ⊆ uns_GetAnnotations cluster ->
  RetainOrMergeClusterFields gvk (recordPropagatedLabelsAndAnnotations desired) cluster = Returns (inl u) ->
  ObjectMetaObjEquivalent u cluster = true.
Proof.
  intros Hd Hcl Hca Hn Hns Hel Hea Hl Ha H. unfold recordPropagatedLabelsAndAnnotations in *.
  set (anns := <[PropagatedAnnotationKeys := _]> _) in *.
  pose proof (metadata_ok_SetAnnotations anns _ Hd) as Hd'.
  rewrite GetAnnotations_SetAnnotations in Ha by done.
  apply retained_meta in H as (_ & Hl' & Ha' & _ & Hn' & Hns'); [|done].
  rewrite GetLabels_SetAnnotations in Hl' by done. rewrite GetAnnotations_SetAnnotations in Ha' by done.
  assert (Hka : uns_GetAnnotations cluster !! PropagatedAnnotationKeys = Some (joinKeys (uns_GetAnnotations desired))).
  { eapply lookup_weaken; [|exact Ha]. apply lookup_insert_eq. }
  assert (Hkl : uns_GetAnnotations cluster !! PropagatedLabelKeys = Some (joinKeys (uns_GetLabels desired))).
  { eapply lookup_weaken; [|exact Ha]. unfold anns. rewrite lookup_insert_ne by done. apply lookup_insert_eq. }
  rewrite mergeStringMaps_same in Hl'.
  2: { intros k v Hk. by eapply lookup_weaken. }
  2: { intros k Hk. apply (lastKeys_joined _ _ _ _ Hcl Hkl) in Hk as [?| ->]; [by left|by right]. }
  rewrite mergeStringMaps_same in Ha'.
  2: { intros k v Hk. by eapply lookup_weaken. }
  2: { intros k Hk. apply (lastKeys_joined _ _ _ _ Hca Hka) in Hk as [Hk| ->]; [left|by right].
       unfold anns. destruct (decide (k = PropagatedAnnotationKeys)) as [->|]; [by rewrite lookup_insert_eq|].
       rewrite lookup_insert_ne by done.
       destruct (decide (k = PropagatedLabelKeys)) as [->|]; [by rewrite lookup_insert_eq|].
       by rewrite lookup_insert_ne. }
  unfold ObjectMetaObjEquivalent. rewrite Hl', Ha', Hn', Hns'.
  unfold uns_GetName, uns_GetNamespace in *. rewrite (ms_meta _ _ _ (Meta_SetAnnotations anns)) by done. simpl.
  rewrite Hn, Hns, !String.eqb_refl. simpl. by rewrite !bool_decide_eq_true_2.
Qed.
End Properties.

(** ** Concrete inputs *)

Section Witnesses.
#[local] Existing Instance small_runtime.
#[local] Existing Instance small_helpers.

Definition cm (labels annotations : gmap string string) : Unstructured := setObject {["metadata"%string := VMap
  (<["name"%string := VString "cfg"]> (<["labels"%string := strings_value labels]>
    {["annotations"%string := strings_value annotations]}))]}.

(** The last template had the annotation [x], which the new one drops; the
    cluster added [z]. *)
Definition old_cm : Unstructured := cm ∅ {["x"%string := "1"%string]}.
Definition new_cm : Unstructured := cm {["app"%string := "a"%string]} {["y"%string := "2"%string]}.
Definition cluster_cm : Unstructured :=
  cm ∅ (<["z"%string := "3"%string]> (uns_GetAnnotations (recordPropagatedLabelsAndAnnotations old_cm))).

Definition ConfigMapGVK : GroupVersionKind := coreGVK "ConfigMap".

Lemma no_commas_eval m : forallb (fun '(k, _) => negb (string_has "," k) && negb (String.eqb k "")) (map_to_list m) = true ->
  no_commas m.
Proof.
  rewrite forallb_forall. intros H k [v Hk].
  specialize (H (k, v) ltac:(by apply list_elem_of_In, elem_of_map_to_list)). simpl in H.
  apply andb_true_iff in H as [H1%negb_true_iff H2%negb_true_iff]. by apply String.eqb_neq in H2.
Qed.

Lemma RetainOrMerge_three_way_witness : exists u,
  RetainOrMergeClusterFields ConfigMapGVK new_cm cluster_cm = Returns (inl u) /\
  uns_GetAnnotations u !! "x"%string = None /\ uns_GetAnnotations u !! "z"%string = Some "3"%string.
Proof.
  destruct (RetainOrMergeClusterFields ConfigMapGVK new_cm cluster_cm) as [[u|]| |] eqn:E; [|vm_compute in E; done..].
  exists u. split; [done|].
  destruct (RetainOrMerge_three_way ConfigMapGVK old_cm new_cm cluster_cm u eq_refl) as [_ H];
    [split; vm_compute; reflexivity|apply no_commas_eval; vm_compute; reflexivity..|exact E|].
  split; [rewrite (proj2 (H "x"%string ltac:(done)))|rewrite (proj2 (H "z"%string ltac:(done)))]; vm_compute; reflexivity.
Defined.

End Witnesses.
