(* ===== verification/MemberObjects.v ===== *)
(** * Marks on the objects of member clusters

    [pkg/util/managedlabel], [pkg/util/adoption], [pkg/util/orphaning],
    [pkg/util/finalizers], [pkg/util/cascadingdeletion] and
    [controllers/util/derivedservice.go]: who manages an object, whether it was
    adopted, and what becomes of it on deletion. *)

From Stdlib Require Import ZArith Lia String.
From S2P Require Import Prelude K8s Types ApiTypes Unstructured.

(** ** Finalizers, of any object *)

Section Finalizers.
Context `{R : GoRuntime}.

(** [sets.List]: sorted. *)
Definition set_List (s : gset string) : list string := sort_slice String.ltb (elements s).

Definition HasFinalizer (finalizers : list string) (finalizer : string) : bool :=
  bool_decide (finalizer ∈ (list_to_set finalizers : gset string)).

(** The new finalizers and whether they changed. *)
Definition AddFinalizers (finalizers : list string) (newFinalizers : gset string) : list string * bool :=
  let oldFinalizers : gset string := list_to_set finalizers in
  if bool_decide (newFinalizers ⊆ oldFinalizers) then (finalizers, false)
  else (set_List (oldFinalizers ∪ newFinalizers), true).

Definition RemoveFinalizers (finalizers : list string) (toRemove : gset string) : list string * bool :=
  let oldFinalizers : gset string := list_to_set finalizers in
  if Nat.eqb (size (oldFinalizers ∩ toRemove)) 0 then (finalizers, false)
  else (set_List (oldFinalizers ∖ toRemove), true).
End Finalizers.

(** ** The managed label *)

Definition ManagedByKubeAdmiralLabelKey : string := (DefaultPrefix ++ "managed")%string.
Definition ManagedByKubeAdmiralLabelValue : string := "true".
Definition UnmanagedByKubeAdmiralLabelValue : string := "false".

Section ManagedLabel.
Context `{U : UnstructuredHelpers}.

Definition HasManagedLabel (obj : Unstructured) : bool :=
  String.eqb (default ""%string (uns_GetLabels obj !! ManagedByKubeAdmiralLabelKey)) ManagedByKubeAdmiralLabelValue.

Definition IsExplicitlyUnmanaged (obj : Unstructured) : bool :=
  String.eqb (default ""%string (uns_GetLabels obj !! ManagedByKubeAdmiralLabelKey)) UnmanagedByKubeAdmiralLabelValue.

Definition AddManagedLabel (obj : Unstructured) : Unstructured :=
  uns_SetLabels (<[ManagedByKubeAdmiralLabelKey := ManagedByKubeAdmiralLabelValue]> (uns_GetLabels obj)) obj.

Definition RemoveManagedLabel (obj : Unstructured) : Unstructured :=
  if negb (HasManagedLabel obj) then obj
  else uns_SetLabels (delete ManagedByKubeAdmiralLabelKey (uns_GetLabels obj)) obj.

(** ** Adoption of objects that exist already *)

Definition AdoptedAnnotation : string := (DefaultPrefix ++ "adopted")%string.

Definition HasAdoptedAnnotation (obj : Unstructured) : bool :=
  String.eqb (default ""%string (uns_GetAnnotations obj !! AdoptedAnnotation)) AnnotationValueTrue.

Definition AddAdoptedAnnotation (obj : Unstructured) : Unstructured :=
  if HasAdoptedAnnotation obj then obj
  else uns_SetAnnotations (<[AdoptedAnnotation := AnnotationValueTrue]> (uns_GetAnnotations obj)) obj.
End ManagedLabel.

Definition ConflictResolutionAnnotation : string := (DefaultPrefix ++ "conflict-resolution")%string.
Definition ConflictResolutionInternalAnnotation : string := (InternalPrefix ++ "conflict-resolution")%string.
Definition ClustersToAdoptAnnotation : string := (DefaultPrefix ++ "clusters-to-adopt")%string.
Definition ClustersToAdoptInternalAnnotation : string := (InternalPrefix ++ "clusters-to-adopt")%string.
Definition ConflictResolutionAdopt : string := "adopt".

(** The internal annotation takes precedence. *)
Definition ShouldAdoptPreexistingResources (obj : FederatedObject) : bool :=
  let annotations := fo_Annotations obj in
  let value := match annotations !! ConflictResolutionInternalAnnotation with
               | Some value => value
               | None => default ""%string (annotations !! ConflictResolutionAnnotation)
               end in
  String.eqb value ConflictResolutionAdopt.

Record clustersToAdoptAnnotationElement := { cta_Clusters : list string; cta_Regexp : string }.

(** [json.Unmarshal] into the type above, and [regexp.Compile] with
    [MatchString]. *)
Class AdoptionCodecs := {
  Unmarshal_clustersToAdopt : string -> clustersToAdoptAnnotationElement + string;
  Regexp_Compile : string -> (string -> bool) + string
}.

Definition FilterToAdoptCluster `{AdoptionCodecs} (obj : FederatedObject) (clusterName : string) : bool + string :=
  let annotations := fo_Annotations obj in
  let clustersToAdoptRaw :=
    match annotations !! ClustersToAdoptInternalAnnotation with
    | Some value => value
    | None => default ""%string (annotations !! ClustersToAdoptAnnotation)
    end in
  if String.eqb clustersToAdoptRaw "" then inl false
  else
    match Unmarshal_clustersToAdopt clustersToAdoptRaw with
    | inr err => inr ("failed to unmarshal " ++ ClustersToAdoptAnnotation ++ " annotation " ++ err)%string
    | inl clustersToAdopt =>
        if existsb (fun name => String.eqb name clusterName) (cta_Clusters clustersToAdopt) then inl true
        else if negb (String.eqb (cta_Regexp clustersToAdopt) "") then
          match Regexp_Compile (cta_Regexp clustersToAdopt) with
          | inr err => inr ("failed to compile regexp for to adopt clusters: " ++ err)%string
          | inl clustersToAdoptRegexp => inl (clustersToAdoptRegexp clusterName)
          end
        else inl false
    end.

(** ** Orphaning *)

Definition OrphanManagedResourcesAnnotation : string := (DefaultPrefix ++ "orphan")%string.
Definition OrphanManagedResourcesInternalAnnotation : string := (InternalPrefix ++ "orphan")%string.
Definition OrphanManagedResourcesAll : string := "all".
Definition OrphanManagedResourcesAdopted : string := "adopted".
Definition OrphanManagedResourcesNone : string := "".

Definition GetOrphaningBehavior (obj : FederatedObject) : string :=
  let annotations := fo_Annotations obj in
  let value := match annotations !! OrphanManagedResourcesInternalAnnotation with
               | Some value => value
               | None => default ""%string (annotations !! OrphanManagedResourcesAnnotation)
               end in
  if String.eqb value OrphanManagedResourcesAll || String.eqb value OrphanManagedResourcesAdopted
  then value else OrphanManagedResourcesNone.

Definition ShouldBeOrphaned `{UnstructuredHelpers} (fedObj : FederatedObject) (clusterObj : Unstructured) : bool :=
  let orphaningBehavior := GetOrphaningBehavior fedObj in
  String.eqb orphaningBehavior OrphanManagedResourcesAll ||
  (String.eqb orphaningBehavior OrphanManagedResourcesAdopted && HasAdoptedAnnotation clusterObj).

(** ** Cascading deletion, derived services *)

Definition AnnotationCascadingDelete : string := (DefaultPrefix ++ "cascading-delete")%string.

Definition IsCascadingDeleteEnabled `{Kubernetes} (cluster : FederatedCluster) : bool :=
  bool_decide (is_Some (c_Annotations cluster !! AnnotationCascadingDelete)).

Definition DerivedServiceAnnotation : string := (DefaultPrefix ++ "derived-service")%string.

Definition IsDerivedService (annotations : gmap string string) : bool :=
  bool_decide (is_Some (annotations !! DerivedServiceAnnotation)).
