(* ===== verification/Dispatch.v ===== *)
(** * Dispatching operations to member clusters ([sync/dispatch])

    The operations run as goroutines that talk to the member clusters and
    record what happened, per cluster, in the dispatcher.  Here an operation is
    a program, a list of actions computed from the answers of the cluster, and
    the goroutines interleave by the step relation [dstep].  Events, metrics and
    logs are left out, and so is the timeout of [Wait]. *)

From Stdlib Require Import ZArith Lia String Ascii.
From S2P Require Import Prelude GoStrings K8s Types ApiTypes Unstructured Codecs FedObject Version MemberObjects Retain.

(** ** Member clusters

    What a [dynamic.Interface] answers for the target resource; arguments are
    the namespace and the name or object, and the label selector of [List],
    which goes over all namespaces. *)
Record Client := {
  cl_Get : string -> string -> Unstructured + ApiError;
  cl_Create : string -> Unstructured -> Unstructured + ApiError;
  cl_Update : string -> Unstructured -> Unstructured + ApiError;
  cl_Delete : string -> string -> option ApiError;
  cl_List : gmap string string -> list Unstructured + ApiError
}.

Inductive Request :=
  | ReqGet (namespace name : string)
  | ReqCreate (namespace : string) (obj : Unstructured)
  | ReqUpdate (namespace : string) (obj : Unstructured)
  | ReqDelete (namespace name : string).

(** What an operation does to the dispatcher and to its cluster. *)
Inductive Effect :=
  | RecordStatus (propStatus : string)
  | RecordVersion (version : string)
  | SetResourcesUpdated
  | Send (r : Request).

(** [Go]: count an operation and start it; [Finish]: its result goes to the
    channel; [Crash]: a nil pointer is followed. *)
Inductive Action :=
  | Eff (clusterName : string) (e : Effect)
  | Go (body : list Action)
  | Finish (ok : bool)
  | Crash.

(** ** The federated resource, for the dispatcher ([FederatedResourceForDispatch]) *)
Record FederatedResourceForDispatch := {
  TargetName : QualifiedName;
  TargetGVK : GroupVersionKind;
  TypeConfig : FederatedTypeConfig;
  fr_Object : FederatedObject;
  VersionForCluster : string -> string + string;
  ObjectForCluster : string -> Unstructured + string;
  ApplyOverrides : Unstructured -> string -> Unstructured + string
}.

Definition RetainTerminatingObjectFinalizer : string := (DefaultPrefix ++ "retain-terminating-object")%string.

Section Operations.
Context `{K : Kubernetes} `{R : GoRuntime} `{C : !Codecs} `{A : AdoptionCodecs}.

(** The clients, by cluster. *)
Variable clientAccessor : string -> Client + string.

(** ** [operation.go] *)

Definition recordOperationError (clusterName propStatus : string) : list Action :=
  [Eff clusterName (RecordStatus propStatus); Finish false].

(** With a recorder (the managed dispatcher) errors are recorded. *)
Definition operationError (recorder : bool) (clusterName propStatus : string) : list Action :=
  if recorder then recordOperationError clusterName propStatus else [Finish false].

Definition clusterOperation (recorder : bool) (clusterName : string) (opFunc : Client -> list Action)
    : list Action :=
  match clientAccessor clusterName with
  | inr _ => operationError recorder clusterName ClientRetrievalFailed
  | inl client => opFunc client
  end.

(** ** [unmanaged.go] *)

Definition removeRetainObjectFinalizer (obj : Unstructured) : Unstructured * bool :=
  let '(fs, changed) := RemoveFinalizers (uns_GetFinalizers obj) {[RetainTerminatingObjectFinalizer]} in
  if changed then (uns_SetFinalizers fs obj, true) else (obj, false).

(** The part of [Delete] after the finalizer. *)
Definition deleteObject (recorder : bool) (targetName : QualifiedName) (clusterName : string) (client : Client)
    (clusterObj : Unstructured) : list Action :=
  if bool_decide (is_Some (uns_GetDeletionTimestamp clusterObj)) then [Finish true]
  else
    Eff clusterName (Send (ReqDelete (qn_Namespace targetName) (qn_Name targetName))) ::
    match cl_Delete client (qn_Namespace targetName) (qn_Name targetName) with
    | None => [Finish true]
    | Some err => if IsNotFound err then [Finish true] else operationError recorder clusterName DeletionFailed
    end.

(** When the update of the finalizer finds no object, [clusterObj] is the nil
    that the client returned with the error. *)
Definition deleteFunc (recorder : bool) (targetName : QualifiedName) (clusterName : string)
    (clusterObj : Unstructured) (client : Client) : list Action :=
  let '(clusterObj, needUpdate) := removeRetainObjectFinalizer clusterObj in
  if needUpdate then
    Eff clusterName (Send (ReqUpdate (qn_Namespace targetName) clusterObj)) ::
    match cl_Update client (qn_Namespace targetName) clusterObj with
    | inl clusterObj => deleteObject recorder targetName clusterName client clusterObj
    | inr err => if IsNotFound err then [Crash] else operationError recorder clusterName DeletionFailed
    end
  else deleteObject recorder targetName clusterName client clusterObj.

Definition unmanaged_Delete (recorder : bool) (targetName : QualifiedName) (clusterName : string)
    (clusterObj : Unstructured) : list Action :=
  [Go (clusterOperation recorder clusterName (deleteFunc recorder targetName clusterName clusterObj))].

Definition removeLabelFunc (recorder : bool) (clusterName : string) (clusterObj : Unstructured) (client : Client)
    : list Action :=
  let updateObj := (removeRetainObjectFinalizer (RemoveManagedLabel clusterObj)).1 in
  Eff clusterName (Send (ReqUpdate (uns_GetNamespace clusterObj) updateObj)) ::
  match cl_Update client (uns_GetNamespace clusterObj) updateObj with
  | inl _ => [Finish true]
  | inr _ => operationError recorder clusterName LabelRemovalFailed
  end.

Definition unmanaged_RemoveManagedLabel (recorder : bool) (clusterName : string) (clusterObj : Unstructured)
    : list Action :=
  [Go (clusterOperation recorder clusterName (removeLabelFunc recorder clusterName clusterObj))].

(** ** [checkunmanaged.go] *)

Definition checkFunc (targetName : QualifiedName) (clusterName : string) (client : Client) : list Action :=
  [Eff clusterName (Send (ReqGet (qn_Namespace targetName) (qn_Name targetName)));
   Finish
     match cl_Get client (qn_Namespace targetName) (qn_Name targetName) with
     | inr err => IsNotFound err || IsNoMatchError err
     | inl clusterObj =>
         if bool_decide (is_Some (uns_GetDeletionTimestamp clusterObj)) then false
         else negb (HasManagedLabel clusterObj)
     end].

Definition CheckRemovedOrUnlabeled (targetName : QualifiedName) (clusterName : string) : list Action :=
  [Go (clusterOperation false clusterName (checkFunc targetName clusterName))].

(** ** [managed.go] *)

Variable fedResource : FederatedResourceForDispatch.
Variable skipAdoptingResources : bool.

(** "make finalizers unique": the first of each is kept. *)
Fixpoint uniqueFinalizers (fSet : gset string) (fs : list string) : list string :=
  match fs with
  | [] => []
  | v :: fs' => if bool_decide (v ∈ fSet) then uniqueFinalizers fSet fs'
                else v :: uniqueFinalizers ({[v]} ∪ fSet) fs'
  end.

(** The object to update with, and the failure if it cannot be computed. *)
Definition desiredObject (clusterName : string) (clusterObj : Unstructured) : may_panic (Unstructured + string) :=
  match ObjectForCluster fedResource clusterName with
  | inr _ => mret (inr ComputeResourceFailed)
  | inl obj =>
      let obj := uns_SetFinalizers (uns_GetFinalizers clusterObj) obj in
      match ApplyOverrides fedResource obj clusterName with
      | inr _ => mret (inr ApplyOverridesFailed)
      | inl obj =>
          let obj := match uns_GetFinalizers obj with
                     | [] => obj
                     | fs => uns_SetFinalizers (uniqueFinalizers ∅ fs) obj
                     end in
          let obj := recordPropagatedLabelsAndAnnotations obj in
          retained ← RetainOrMergeClusterFields (TargetGVK fedResource) obj clusterObj;
          mret match retained with
               | inr _ => inr FieldRetentionFailed
               | inl obj =>
                   match retainReplicas obj clusterObj (fr_Object fedResource) (ReplicasSpec (TypeConfig fedResource)) with
                   | inr _ => inr FieldRetentionFailed
                   | inl obj => inl obj
                   end
               end
      end
  end.

Definition updateFunc (clusterName : string) (clusterObj : Unstructured) (client : Client) : list Action :=
  if IsExplicitlyUnmanaged clusterObj then recordOperationError clusterName ManagedLabelFalse
  else
    match desiredObject clusterName clusterObj with
    | Panics | OutOfFuel => [Crash]
    | Returns (inr propStatus) => recordOperationError clusterName propStatus
    | Returns (inl obj) =>
        match VersionForCluster fedResource clusterName with
        | inr _ => recordOperationError clusterName VersionRetrievalFailed
        | inl version =>
            if negb (ObjectNeedsUpdate obj clusterObj version) then
              [Eff clusterName (RecordVersion version); Finish true]
            else
              Eff clusterName (Send (ReqUpdate (uns_GetNamespace obj) obj)) ::
              match cl_Update client (uns_GetNamespace obj) obj with
              | inr _ => recordOperationError clusterName UpdateFailed
              | inl obj =>
                  [Eff clusterName SetResourcesUpdated; Eff clusterName (RecordVersion (ObjectVersion obj)); Finish true]
              end
        end
    end.

Definition managed_Update (clusterName : string) (clusterObj : Unstructured) : list Action :=
  [Eff clusterName (RecordStatus UpdateTimedOut);
   Go (clusterOperation true clusterName (updateFunc clusterName clusterObj))].

(** Whether an error of [Create] may mean that the object exists: [None] for
    another failure, or whether to check that it does. *)
Definition needsExistenceRecheck (createErr : ApiError) : option bool :=
  if IsAlreadyExists createErr then Some false
  else if bool_decide (TargetGVK fedResource = NamespaceGVK) && IsServerTimeout createErr then Some true
  else if bool_decide (TargetGVK fedResource = ServiceGVK) && IsInvalid createErr then Some true
  else None.

(** [Create] after the object was found to exist. *)
Definition adoptObject (clusterName : string) (client : Client) (obj : Unstructured) (recheck : bool) : list Action :=
  Eff clusterName (Send (ReqGet (uns_GetNamespace obj) (uns_GetName obj))) ::
  match cl_Get client (uns_GetNamespace obj) (uns_GetName obj) with
  | inr getErr =>
      if recheck && IsNotFound getErr then recordOperationError clusterName CreationFailed
      else recordOperationError clusterName RetrievalFailed
  | inl obj =>
      match FilterToAdoptCluster (fr_Object fedResource) clusterName with
      | inr _ => recordOperationError clusterName AlreadyExists
      | inl canAdopt =>
          if skipAdoptingResources || negb canAdopt then recordOperationError clusterName AlreadyExists
          else
            let obj := if negb (HasManagedLabel obj) then AddAdoptedAnnotation obj else obj in
            managed_Update clusterName obj ++ [Finish true]
      end
  end.

Definition createFunc (clusterName : string) (client : Client) : list Action :=
  match ObjectForCluster fedResource clusterName with
  | inr _ => recordOperationError clusterName ComputeResourceFailed
  | inl obj =>
      let obj := uns_SetFinalizers [] obj in
      match ApplyOverrides fedResource obj clusterName with
      | inr _ => recordOperationError clusterName ApplyOverridesFailed
      | inl obj =>
          let obj := recordPropagatedLabelsAndAnnotations obj in
          Eff clusterName (Send (ReqCreate (uns_GetNamespace obj) obj)) ::
          match cl_Create client (uns_GetNamespace obj) obj with
          | inl createdObj => [Eff clusterName (RecordVersion (ObjectVersion createdObj)); Finish true]
          | inr createErr =>
              match needsExistenceRecheck createErr with
              | None => recordOperationError clusterName CreationFailed
              | Some recheck => adoptObject clusterName client obj recheck
              end
          end
      end
  end.

Definition managed_Create (clusterName : string) : list Action :=
  [Eff clusterName (RecordStatus CreationTimedOut);
   Go (clusterOperation true clusterName (createFunc clusterName))].

Definition managed_Delete (clusterName : string) (clusterObj : Unstructured) : list Action :=
  Eff clusterName (RecordStatus DeletionTimedOut) ::
  unmanaged_Delete true (TargetName fedResource) clusterName clusterObj.

Definition managed_RemoveManagedLabel (clusterName : string) (clusterObj : Unstructured) : list Action :=
  Eff clusterName (RecordStatus LabelRemovalTimedOut) ::
  unmanaged_RemoveManagedLabel true clusterName clusterObj.
End Operations.

(** ** The state of the dispatcher, and the requests sent *)

Record DispatchState := {
  versionMap : gmap string string;
  statusMap : gmap string string;
  resourcesUpdated : bool;
  sent : list (string * Request)
}.

Definition NewManagedDispatcher : DispatchState :=
  {| versionMap := ∅; statusMap := ∅; resourcesUpdated := false; sent := [] |}.

Definition apply_effect (s : DispatchState) (ce : string * Effect) : DispatchState :=
  let '(c, e) := ce in
  match e with
  | RecordStatus st => {| versionMap := versionMap s; statusMap := <[c := st]> (statusMap s);
                          resourcesUpdated := resourcesUpdated s; sent := sent s |}
  | RecordVersion v => {| versionMap := <[c := v]> (versionMap s); statusMap := statusMap s;
                          resourcesUpdated := resourcesUpdated s; sent := sent s |}
  | SetResourcesUpdated => {| versionMap := versionMap s; statusMap := statusMap s;
                              resourcesUpdated := true; sent := sent s |}
  | Send r => {| versionMap := versionMap s; statusMap := statusMap s;
                 resourcesUpdated := resourcesUpdated s; sent := sent s ++ [(c, r)] |}
  end.

(** ** Interleaving

    The main goroutine runs its program, which starts the operations, and then
    waits: while fewer results arrived than operations were counted, it takes a
    result from the channel; an operation that has its result blocks until then. *)
Record config := {
  main : list Action;
  threads : list (list Action);
  initiated : nat;
  received : nat;
  wait_ok : bool;
  dstate : DispatchState
}.

Definition dinit (program : list Action) (s : DispatchState) : config :=
  {| main := program; threads := []; initiated := 0; received := 0; wait_ok := true; dstate := s |}.

(** [Wait] returns. *)
Definition waited (x : config) : Prop := main x = [] /\ (initiated x <= received x)%nat.

Inductive dstep : config -> config -> Prop :=
  | step_main_effect c e p ts i r ok s :
      dstep {| main := Eff c e :: p; threads := ts; initiated := i; received := r; wait_ok := ok; dstate := s |}
            {| main := p; threads := ts; initiated := i; received := r; wait_ok := ok; dstate := apply_effect s (c, e) |}
  | step_main_go body p ts i r ok s :
      dstep {| main := Go body :: p; threads := ts; initiated := i; received := r; wait_ok := ok; dstate := s |}
            {| main := p; threads := ts ++ [body]; initiated := S i; received := r; wait_ok := ok; dstate := s |}
  | step_effect m c e p ts ts' i r ok s :
      dstep {| main := m; threads := ts ++ (Eff c e :: p) :: ts'; initiated := i; received := r; wait_ok := ok; dstate := s |}
            {| main := m; threads := ts ++ p :: ts'; initiated := i; received := r; wait_ok := ok;
               dstate := apply_effect s (c, e) |}
  | step_go m body p ts ts' i r ok s :
      dstep {| main := m; threads := ts ++ (Go body :: p) :: ts'; initiated := i; received := r; wait_ok := ok; dstate := s |}
            {| main := m; threads := (ts ++ p :: ts') ++ [body]; initiated := S i; received := r; wait_ok := ok; dstate := s |}
  | step_receive b ts ts' i r ok s : (r < i)%nat ->
      dstep {| main := []; threads := ts ++ [Finish b] :: ts'; initiated := i; received := r; wait_ok := ok; dstate := s |}
            {| main := []; threads := ts ++ ts'; initiated := i; received := S r; wait_ok := ok && b; dstate := s |}.

(** ** One operation after the other

    The effects of a program with the operations it starts run on the spot, and
    the results of those operations. *)
Fixpoint effects (a : Action) : list (string * Effect) :=
  match a with
  | Eff c e => [(c, e)]
  | Go body => flat_map effects body
  | Finish _ | Crash => []
  end.

Fixpoint results (a : Action) : list bool :=
  match a with
  | Finish ok => [ok]
  | Go body => flat_map results body
  | Eff _ _ | Crash => []
  end.

Fixpoint crashes (a : Action) : bool :=
  match a with
  | Crash => true
  | Go body => existsb crashes body
  | _ => false
  end.

Definition run (program : list Action) (s : DispatchState) : DispatchState :=
  foldl apply_effect s (flat_map effects program).
Definition run_ok (program : list Action) : bool := forallb id (flat_map results program).

(** ** [Wait], after the operations are done *)

Definition settleStatus (propStatus : string) : option string :=
  if String.eqb propStatus CreationTimedOut || String.eqb propStatus UpdateTimedOut then Some ClusterPropagationOK
  else if String.eqb propStatus DeletionTimedOut then Some WaitingForRemoval
  else if String.eqb propStatus LabelRemovalTimedOut then None
  else Some propStatus.

Definition settle (s : DispatchState) : DispatchState :=
  {| versionMap := versionMap s; statusMap := omap settleStatus (statusMap s);
     resourcesUpdated := resourcesUpdated s; sent := sent s |}.
