(* ===== verification/DispatchTheorems.v ===== *)
(** * Dispatching operations: properties *)

From Stdlib Require Import ZArith Lia String Ascii Btauto.
From S2P Require Import Prelude GoStrings K8s Types ApiTypes Unstructured Codecs FedObject Version MemberObjects Retain Dispatch.

#[local] Arguments apply_effect : simpl never.

(** ** The view of one cluster *)

Definition Lview : Type := option string * option string * list Request.

Definition view (c : string) (s : DispatchState) : Lview :=
  (versionMap s !! c, statusMap s !! c, omap (fun '(c', r) => if decide (c' = c) then Some r else None) (sent s)).

Definition view_effect (v : Lview) (e : Effect) : Lview :=
  let '(ver, st, rs) := v in
  match e with
  | RecordStatus x => (ver, Some x, rs)
  | RecordVersion x => (Some x, st, rs)
  | SetResourcesUpdated => v
  | Send r => (ver, st, rs ++ [r])
  end.

(** The effects on one cluster. *)
Definition on_cluster (c : string) (es : list (string * Effect)) : list Effect :=
  omap (fun '(c', e) => if decide (c' = c) then Some e else None) es.

Lemma view_apply c s c' e :
  view c (apply_effect s (c', e)) = if decide (c' = c) then view_effect (view c s) e else view c s.
Proof.
  unfold view, view_effect, apply_effect. destruct e; simpl; case_decide as H; subst;
    rewrite ?lookup_insert_eq, ?lookup_insert_ne by done; try done;
    rewrite omap_app; simpl; [by rewrite decide_True|rewrite decide_False by done; by rewrite app_nil_r].
Qed.

Lemma on_cluster_app c es es' : on_cluster c (es ++ es') = on_cluster c es ++ on_cluster c es'.
Proof. apply omap_app. Qed.

Lemma view_foldl c es s : view c (foldl apply_effect s es) = foldl view_effect (view c s) (on_cluster c es).
Proof.
  revert s. induction es as [|[c' e] es IH]; intros s; [done|]. simpl. rewrite IH, view_apply.
  by case_decide.
Qed.

(** The flag that is shared by the clusters. *)
Definition updates (es : list (string * Effect)) : bool :=
  existsb (fun '(_, e) => match e with SetResourcesUpdated => true | _ => false end) es.

Lemma updated_foldl es s : resourcesUpdated (foldl apply_effect s es) = resourcesUpdated s || updates es.
Proof.
  revert s. induction es as [|[c e] es IH]; intros s; simpl; [by rewrite orb_false_r|].
  rewrite IH. destruct e; try done. simpl. by rewrite orb_true_r.
Qed.

Lemma updates_app es es' : updates (es ++ es') = updates es || updates es'.
Proof. apply existsb_app. Qed.

(** ** Well-formed programs

    An operation ends with its one result and does not crash; what it does to a
    cluster is done before or by the operations it starts, not after. *)

Definition clusters (p : list Action) : list string := (flat_map effects p).*1.

Inductive wf : bool -> list Action -> Prop :=
  | wf_end : wf true []
  | wf_finish b : wf false [Finish b]
  | wf_eff m c e p : wf m p -> wf m (Eff c e :: p)
  | wf_go m body p : wf false body -> wf m p -> (forall c, c ∈ clusters body -> c ∉ clusters p) -> wf m (Go body :: p).

Definition on (c : string) (p : list Action) : list Effect := on_cluster c (flat_map effects p).

Lemma on_nil c p : c ∉ clusters p -> on c p = [].
Proof.
  unfold clusters, on. induction (flat_map effects p) as [|[c' e] es IH]; [done|]. simpl. intros H.
  rewrite not_elem_of_cons in H. destruct H. rewrite decide_False by done. by apply IH.
Qed.

(** Different programs work on different clusters. *)
Definition apart_programs (ps : list (list Action)) : Prop :=
  forall i j p q c, ps !! i = Some p -> ps !! j = Some q -> c ∈ clusters p -> c ∈ clusters q -> i = j.

(** What all the programs still do to a cluster, in any order: at most one of
    them does something. *)
Definition pending (c : string) (ps : list (list Action)) : list Effect := flat_map (on c) ps.

Lemma apart_programs_cons p ps : apart_programs (p :: ps) <->
  (forall q c, q ∈ ps -> c ∈ clusters p -> c ∉ clusters q) /\ apart_programs ps.
Proof.
  split.
  - intros H. split.
    + intros q c [j Hj]%list_elem_of_lookup Hp Hq. by specialize (H 0%nat (S j) p q c eq_refl Hj Hp Hq).
    + intros i j a b c Hi Hj Ha Hb. specialize (H (S i) (S j) a b c Hi Hj Ha Hb). lia.
  - intros [H1 H2] [|i] [|j] a b c; simpl; intros Ha Hb Hca Hcb; simplify_eq; [done|..].
    + destruct (H1 b c); [|done..]. by eapply list_elem_of_lookup_2.
    + destruct (H1 a c); [|done..]. by eapply list_elem_of_lookup_2.
    + f_equal. by eapply H2.
Qed.

Lemma apart_perm ps qs : ps ≡ₚ qs -> apart_programs ps -> apart_programs qs.
Proof.
  induction 1 as [|p ps qs Hp IH|p q ps|? ? ? ? IH1 ? IH2]; [done|..]; auto.
  - rewrite !apart_programs_cons. intros [H1 H2]. split; [|by apply IH]. intros q c Hq. apply H1. by rewrite Hp.
  - rewrite !apart_programs_cons. intros (H1 & H2 & H3). split_and!; [..|done].
    + intros r c [->|Hr]%elem_of_cons Hc; [|by apply H2]. intros Hq. by apply (H1 p c (list_elem_of_here _ _) Hq).
    + intros r c Hr. apply H1. by right.
Qed.

Lemma pending_nil c ps : (forall q, q ∈ ps -> c ∉ clusters q) -> pending c ps = [].
Proof.
  induction ps as [|p ps IH]; intros H; [done|]. simpl. rewrite (on_nil c p), IH; [done|..].
  - intros q Hq. apply H. by right.
  - apply H. left.
Qed.

(** So the order of the programs does not matter. *)
Lemma pending_perm c ps qs : ps ≡ₚ qs -> apart_programs ps -> pending c ps = pending c qs.
Proof.
  induction 1 as [|p ps qs Hp IH|p q ps|ps qs rs Hp1 IH1 Hp2 IH2]; [done|..].
  - rewrite apart_programs_cons. intros [_ H]. simpl. by rewrite IH.
  - rewrite !apart_programs_cons. intros (H1 & _ & _). simpl. rewrite !app_assoc. f_equal.
    destruct (decide (c ∈ clusters p)) as [Hc|Hc].
    + rewrite (on_nil c q), app_nil_r; [done|]. intros Hq. by apply (H1 p c (list_elem_of_here _ _) Hq).
    + rewrite (on_nil c p) by done. by rewrite app_nil_r.
  - intros H. rewrite IH1 by done. apply IH2. by eapply apart_perm.
Qed.

(** ** One step *)

Lemma clusters_eff c e p : clusters (Eff c e :: p) = c :: clusters p.
Proof. done. Qed.
Lemma clusters_go body p : clusters (Go body :: p) = clusters body ++ clusters p.
Proof. unfold clusters. simpl. by rewrite fmap_app. Qed.
Lemma on_go c body p : on c (Go body :: p) = on c body ++ on c p.
Proof. unfold on. simpl. by rewrite on_cluster_app. Qed.

Lemma effect_step c e p ts ts' s :
  apart_programs (ts ++ (Eff c e :: p) :: ts') ->
  apart_programs (ts ++ p :: ts') /\
  forall c', foldl view_effect (view c' (apply_effect s (c, e))) (pending c' (ts ++ p :: ts')) =
    foldl view_effect (view c' s) (pending c' (ts ++ (Eff c e :: p) :: ts')).
Proof.
  intros Hap. pose proof (apart_perm _ _ (symmetry (Permutation_middle _ _ _)) Hap) as Hap'.
  assert (Hp : apart_programs (p :: ts ++ ts')).
  { apply apart_programs_cons in Hap' as [H1 H2]. apply apart_programs_cons. split; [|done]. intros q x Hq Hx. apply H1; [done|].
    rewrite clusters_eff. by right. }
  assert (Hp' : apart_programs (ts ++ p :: ts')) by (eapply apart_perm; [apply Permutation_middle|done]).
  split; [done|]. intros c'.
  rewrite (pending_perm c' _ _ (symmetry (Permutation_middle _ _ _)) Hap).
  rewrite (pending_perm c' _ _ (symmetry (Permutation_middle _ _ _)) Hp'). simpl. unfold on at 2. simpl.
  rewrite view_apply. by case_decide.
Qed.

Lemma go_step body p ts ts' :
  (forall c, c ∈ clusters body -> c ∉ clusters p) -> apart_programs (ts ++ (Go body :: p) :: ts') ->
  apart_programs ((ts ++ p :: ts') ++ [body]) /\
  forall c, pending c ((ts ++ p :: ts') ++ [body]) = pending c (ts ++ (Go body :: p) :: ts').
Proof.
  intros Hb Hap. pose proof (apart_perm _ _ (symmetry (Permutation_middle _ _ _)) Hap) as Hap'.
  assert (Hperm : (ts ++ p :: ts') ++ [body] ≡ₚ body :: p :: ts ++ ts').
  { rewrite Permutation_app_comm. simpl. constructor. symmetry. apply Permutation_middle. }
  assert (Hq : apart_programs (body :: p :: ts ++ ts')).
  { apply apart_programs_cons in Hap' as [H1 H2]. rewrite !apart_programs_cons. split_and!; [..|done].
    - intros q c [->|Hin]%elem_of_cons Hc; [by apply Hb|]. apply H1; [done|]. rewrite clusters_go. set_solver.
    - intros q c Hin Hc. apply H1; [done|]. rewrite clusters_go. set_solver. }
  assert (Hq' : apart_programs ((ts ++ p :: ts') ++ [body])) by (eapply apart_perm; [symmetry; exact Hperm|done]).
  split; [done|]. intros c. rewrite (pending_perm c _ _ Hperm Hq').
  rewrite (pending_perm c _ _ (symmetry (Permutation_middle _ _ _)) Hap). simpl. by rewrite on_go, app_assoc.
Qed.

(** ** The invariant of an execution of [program] from [s] *)

Definition all_updates (ps : list (list Action)) : bool := existsb (fun p => updates (flat_map effects p)) ps.
Definition all_ok (ps : list (list Action)) : bool := forallb run_ok ps.

Record exec_inv (program : list Action) (s : DispatchState) (x : config) : Prop := {
  ei_main : wf true (main x);
  ei_threads : Forall (wf false) (threads x);
  ei_apart : apart_programs (main x :: threads x);
  ei_count : initiated x = (received x + length (threads x))%nat;
  ei_view : forall c, foldl view_effect (view c (dstate x)) (pending c (main x :: threads x)) = view c (run program s);
  ei_updated : resourcesUpdated (dstate x) || all_updates (main x :: threads x) = resourcesUpdated (run program s);
  ei_ok : wait_ok x && all_ok (main x :: threads x) = run_ok program
}.

Lemma exec_inv_init program s : wf true program -> exec_inv program s (dinit program s).
Proof.
  intros Hwf. split; simpl; [done|constructor|..].
  - apply apart_programs_cons. split; [by intros q c ?%elem_of_nil|]. intros i j p q c Hi. by rewrite lookup_nil in Hi.
  - done.
  - intros c. rewrite app_nil_r. unfold run. by rewrite view_foldl.
  - unfold run. by rewrite orb_false_r, updated_foldl.
  - by rewrite andb_true_r.
Qed.

Lemma all_updates_app ps qs : all_updates (ps ++ qs) = all_updates ps || all_updates qs.
Proof. apply existsb_app. Qed.
Lemma all_ok_app ps qs : all_ok (ps ++ qs) = all_ok ps && all_ok qs.
Proof. apply forallb_app. Qed.
Lemma updated_apply s c e : resourcesUpdated (apply_effect s (c, e)) = resourcesUpdated s || updates [(c, e)].
Proof. exact (updated_foldl [(c, e)] s). Qed.

Lemma updates_eff c e p : updates (flat_map effects (Eff c e :: p)) = updates [(c, e)] || updates (flat_map effects p).
Proof. exact (updates_app [(c, e)] (flat_map effects p)). Qed.
Lemma updates_go body p :
  updates (flat_map effects (Go body :: p)) = updates (flat_map effects body) || updates (flat_map effects p).
Proof. apply updates_app. Qed.
Lemma run_ok_go body p : run_ok (Go body :: p) = run_ok body && run_ok p.
Proof. apply forallb_app. Qed.
Lemma run_ok_eff c e p : run_ok (Eff c e :: p) = run_ok p.
Proof. done. Qed.
Lemma all_updates_cons p ps : all_updates (p :: ps) = updates (flat_map effects p) || all_updates ps.
Proof. done. Qed.
Lemma all_ok_cons p ps : all_ok (p :: ps) = run_ok p && all_ok ps.
Proof. done. Qed.
Lemma all_updates_nil : all_updates [] = false.
Proof. done. Qed.
Lemma all_ok_nil : all_ok [] = true.
Proof. done. Qed.

(** The flags as boolean expressions in those of the parts. *)
Ltac flags :=
  rewrite ?all_updates_cons, ?all_ok_cons, ?all_updates_app, ?all_ok_app, ?all_updates_cons, ?all_ok_cons,
    ?all_updates_nil, ?all_ok_nil, ?run_ok_go, ?run_ok_eff, ?updates_go, ?updates_eff, ?updated_apply; btauto.

Lemma Forall_middle {T} (P : T -> Prop) l x l' : Forall P (l ++ x :: l') <-> P x /\ Forall P (l ++ l').
Proof. rewrite !Forall_app, Forall_cons. tauto. Qed.

Lemma exec_inv_step program s x y : exec_inv program s x -> dstep x y -> exec_inv program s y.
Proof.
  intros [Hm Ht Ha Hc Hv Hu Ho] Hstep.
  destruct Hstep as [c e p ts i r ok s0|body p ts i r ok s0|m c e p ts ts' i r ok s0|m body p ts ts' i r ok s0
                    |b ts ts' i r ok s0 Hlt];
    cbn [main threads initiated received wait_ok dstate] in *.
  - inversion Hm; subst. destruct (effect_step c e p [] ts s0 Ha) as [Ha' Hv'].
    split; cbn [main threads initiated received wait_ok dstate]; try done.
    + intros c'. rewrite <- Hv. apply Hv'.
    + rewrite <- Hu. flags.
  - inversion Hm as [| | |? ? ? Hb Hp Hd]; subst. destruct (go_step body p [] ts Hd Ha) as [Ha' Hv'].
    split; cbn [main threads initiated received wait_ok dstate]; try done.
    + apply Forall_app. by repeat constructor.
    + rewrite length_app. simpl. lia.
    + intros c. rewrite <- Hv. f_equal. apply Hv'.
    + rewrite <- Hu. flags.
    + rewrite <- Ho. flags.
  - apply Forall_middle in Ht as [Hp Ht]. inversion Hp; subst.
    destruct (effect_step c e p (m :: ts) ts' s0 Ha) as [Ha' Hv'].
    split; cbn [main threads initiated received wait_ok dstate]; try done.
    + by apply Forall_middle.
    + rewrite !length_app in *. simpl in *. lia.
    + intros c'. rewrite <- Hv. apply Hv'.
    + rewrite <- Hu. flags.
    + rewrite <- Ho. flags.
  - apply Forall_middle in Ht as [Hp Ht]. inversion Hp as [| | |? ? ? Hb Hp' Hd]; subst.
    destruct (go_step body p (m :: ts) ts' Hd Ha) as [Ha' Hv'].
    split; cbn [main threads initiated received wait_ok dstate]; try done.
    + rewrite Forall_app, Forall_middle. by repeat constructor.
    + rewrite !length_app in *. simpl in *. lia.
    + intros c. rewrite <- Hv. f_equal. apply Hv'.
    + rewrite <- Hu. flags.
    + rewrite <- Ho. flags.
  - apply Forall_middle in Ht as [_ Ht].
    split; cbn [main threads initiated received wait_ok dstate]; try done.
    + eapply (apart_perm _ _ (symmetry (Permutation_middle ([] :: ts) ts' [Finish b]))) in Ha.
      apply apart_programs_cons in Ha as [_ Ha]. done.
    + rewrite !length_app in *. simpl in *. lia.
    + intros c. rewrite <- Hv. f_equal. unfold pending. simpl. by rewrite !flat_map_app.
    + rewrite <- Hu. rewrite !all_updates_cons, !all_updates_app, all_updates_cons. done.
    + rewrite <- Ho. rewrite !all_ok_cons, !all_ok_app, all_ok_cons.
      replace (run_ok [Finish b]) with b by (unfold run_ok; simpl; by rewrite andb_true_r). btauto.
Qed.

Lemma exec_inv_steps program s x : wf true program -> rtc dstep (dinit program s) x -> exec_inv program s x.
Proof.
  intros Hwf Hx. pose proof (exec_inv_init program s Hwf) as Hi. induction Hx as [|x y z Hxy Hyz IH]; [done|].
  apply IH. by eapply exec_inv_step.
Qed.

(** ** Progress and termination *)

Fixpoint action_size (a : Action) : nat :=
  match a with Go body => S (list_sum (map action_size body)) | _ => 1%nat end.
Definition program_size (p : list Action) : nat := list_sum (map action_size p).
Definition sizes (ps : list (list Action)) : nat := list_sum (map program_size ps).
Definition config_size (x : config) : nat := program_size (main x) + sizes (threads x).

Lemma program_size_cons a p : program_size (a :: p) = (action_size a + program_size p)%nat.
Proof. done. Qed.
Lemma action_size_go body : action_size (Go body) = S (program_size body).
Proof. done. Qed.

Lemma sizes_cons p ps : sizes (p :: ps) = (program_size p + sizes ps)%nat.
Proof. done. Qed.
Lemma sizes_app ps qs : sizes (ps ++ qs) = (sizes ps + sizes qs)%nat.
Proof. unfold sizes. by rewrite map_app, list_sum_app. Qed.

Lemma dstep_size x y : dstep x y -> (config_size y < config_size x)%nat.
Proof.
  intros [c e p ts i r ok s|body p ts i r ok s|m c e p ts ts' i r ok s|m body p ts ts' i r ok s|b ts ts' i r ok s Hlt];
    unfold config_size; cbn [main threads];
    rewrite ?sizes_app, ?sizes_cons, ?sizes_app, ?sizes_cons, ?program_size_cons, ?action_size_go;
    change (sizes []) with 0%nat; cbn [action_size]; lia.
Qed.

Lemma exec_progress program s x : exec_inv program s x -> waited x \/ exists y, dstep x y.
Proof.
  intros [Hm Ht Ha Hc _ _ _]. destruct x as [m ts i r ok s0]. unfold waited. simpl in *.
  inversion Hm as [| |? c e p Hp|? body p Hb Hp Hd]; subst; [|right; eexists; constructor..].
  destruct ts as [|t ts]; [left; split; simpl; [done|lia]|right]. apply Forall_cons in Ht as [Ht _].
  inversion Ht as [|b|? c e p Hp|? body p Hb Hp Hd]; subst; eexists.
  - apply (step_receive b []). simpl. lia.
  - apply (step_effect [] c e p []).
  - apply (step_go [] body p []).
Qed.

(** However the goroutines of a dispatch interleave, the dispatch ends: no
    execution takes more steps than the program has actions, none gets stuck,
    and when [Wait] returns every operation is done, its result is the
    conjunction of theirs, and each cluster got the requests, the status and
    the version of running the operations one after the other. *)
Lemma dispatch_confluent program s :
  wf true program ->
  (forall n x, nsteps dstep n (dinit program s) x -> (n <= program_size program)%nat) /\
  (forall x, rtc dstep (dinit program s) x ->
     (waited x \/ exists y, dstep x y) /\
     (waited x -> threads x = [] /\ wait_ok x = run_ok program /\
        (forall c, view c (dstate x) = view c (run program s)) /\
        resourcesUpdated (dstate x) = resourcesUpdated (run program s))).
Proof.
  intros Hwf. split.
  - intros n x Hn. assert (n <= config_size (dinit program s))%nat as Hsz;
      [|unfold config_size in Hsz; cbn [main threads dinit] in Hsz; change (sizes []) with 0%nat in Hsz; lia].
    induction Hn as [|n y z w Hyz Hn IH]; [lia|]. apply dstep_size in Hyz. lia.
  - intros x Hx. apply exec_inv_steps in Hx; [|done]. split; [by eapply exec_progress|].
    destruct Hx as [_ _ _ Hc Hv Hu Ho]. intros [Hmain Hle]. rewrite Hmain in *.
    assert (threads x = []) as Hnil by (destruct (threads x); [done|simpl in Hc; lia]). rewrite Hnil in *.
    split_and!; [done|..].
    + rewrite <- Ho. by rewrite andb_true_r.
    + intros c. by rewrite <- Hv.
    + rewrite <- Hu. by rewrite orb_false_r.
Qed.
