(* ===== verification/SyncResource.v ===== *)
(** * The federated resource ([sync/resource.go], [placement.go], [overrides.go], [accessor.go])

    What the sync controller propagates for a federated object: the object to
    create in each member cluster, the overrides to apply to it, and the
    versions that tell whether it changed.  The caches of overrides and versions
    inside a federated resource are left out: they hold what is computed here. *)

From Stdlib Require Import ZArith Lia String Ascii.
From S2P Require Import Prelude GoStrings K8s Types ApiTypes Unstructured Codecs FedObject Version MemberObjects Retain Dispatch.

(** ** JSON patches, JSON and MD5, which are not part of the repository *)

Class PatchCodecs := {
  Patch : Type;
  Marshal_OverridePatches : list OverridePatch -> string + string;
  DecodePatch : string -> Patch + string;
  Patch_Apply : Patch -> string -> string + string;
  uns_MarshalJSON : Unstructured -> string + string;
  (** The JSON of the object whose one field is ["overrides"]. *)
  Marshal_Overrides : list OverrideWithController -> string + string;
  (** The MD5 sum in hexadecimal. *)
  md5_hex : string -> string
}.

(** ** Sorting overrides *)

(** [sort.SliceStable]. *)
Fixpoint stable_insert {A} (less : A -> A -> bool) (x : A) (l : list A) : list A :=
  match l with
  | [] => [x]
  | y :: l' => if less y x then y :: stable_insert less x l' else x :: l
  end.
Definition SliceStable {A} (less : A -> A -> bool) (l : list A) : list A := foldr (stable_insert less) [] l.

(** [controllerOrder]: each controller gets the length of the map so far. *)
Definition controllerOrder (groups : list (list string)) : gmap string nat :=
  foldl (fun m controllerGroup => foldl (fun m controller => <[controller := size m]> m) m controllerGroup) ∅ groups.

Definition overrideLess (order : gmap string nat) (x y : OverrideWithController) : bool :=
  match order !! owc_Controller x with
  | None => false
  | Some lhs => match order !! owc_Controller y with
                | None => true
                | Some rhs => (lhs <? rhs)%nat
                end
  end.

Definition overridesMap (overrides : list OverrideWithController) : gmap string (list OverridePatch) :=
  foldl (fun m controllerOverride =>
    foldl (fun m clusterOverride =>
      <[crp_Cluster clusterOverride := default [] (m !! crp_Cluster clusterOverride) ++ Patches clusterOverride]> m)
      m (Override controllerOverride)) ∅ overrides.

(** The patches of a cluster: [None] is the nil slice, of a cluster without
    patches. *)
Definition overridesForCluster (typeConfig : FederatedTypeConfig) (federatedObject : FederatedObject)
    (clusterName : string) : option (list OverridePatch) :=
  match overridesMap (SliceStable (overrideLess (controllerOrder (GetControllers typeConfig)))
          (Overrides (fo_Spec federatedObject))) !! clusterName with
  | Some [] | None => None
  | Some overrides => Some overrides
  end.

Definition invalidOverridePaths : gset string :=
  {[ "/metadata/namespace"; "/metadata/name"; "/metadata/generateName"; "/kind" ]}%string.

Section Resource.
Context `{K : Kubernetes} `{R : GoRuntime} `{C : !Codecs} `{P : PatchCodecs}.

(** [controllers/util/overridepolicy.go]. *)
Definition ApplyJSONPatch (obj : Unstructured) (overrides : list OverridePatch) : Unstructured + string :=
  let overrides := (fun o => if String.eqb (Op o) "" then {| Op := "replace"; Path := Path o; op_Value := op_Value o |}
                             else o) <$> overrides in
  bind_error (Marshal_OverridePatches overrides) (fun jsonPatchBytes =>
  bind_error (DecodePatch jsonPatchBytes) (fun patch =>
  bind_error (uns_MarshalJSON obj) (fun objectJSONBytes =>
  bind_error (Patch_Apply patch objectJSONBytes) (fun patchedObjectJSONBytes =>
    Unstructured_UnmarshalJSON patchedObjectJSONBytes)))).

Definition hashUnstructured (json : string + string) : string + string :=
  match json with
  | inr err => inr ("failed to marshal to json: " ++ err)%string
  | inl jsonBytes => inl (md5_hex jsonBytes)
  end.

(** ** The resource *)

Record federatedResource := {
  typeConfig : FederatedTypeConfig;
  federatedName : QualifiedName;
  targetName : QualifiedName;
  federatedObject : FederatedObject;
  template : Unstructured
}.

Definition SetObject (r : federatedResource) (obj : FederatedObject) : federatedResource := {|
  typeConfig := typeConfig r; federatedName := federatedName r; targetName := targetName r;
  federatedObject := obj; template := template r
|}.

Definition res_TargetGVK (r : federatedResource) : GroupVersionKind := GetSourceTypeGVK (typeConfig r).

(** The name of the Go type of the object. *)
Definition FederatedGVK (r : federatedResource) : GroupVersionKind := {|
  gvk_Group := "core.kubeadmiral.io"; gvk_Version := "v1alpha1";
  gvk_Kind := if String.eqb (qn_Namespace (federatedName r)) "" then "ClusterFederatedObject" else "FederatedObject"
|}.

Definition TemplateVersion (r : federatedResource) : string + string :=
  match hashUnstructured (uns_MarshalJSON (template r)) with
  | inr err => inr ("failed to hash template: " ++ err)%string
  | inl hash => inl hash
  end.

Definition OverrideVersion (r : federatedResource) : string + string :=
  match hashUnstructured (Marshal_Overrides (Overrides (fo_Spec (federatedObject r)))) with
  | inr err => inr ("failed to hash overrides: " ++ err)%string
  | inl hash => inl hash
  end.

(** The resource as the version manager sees it. *)
Definition versioned (r : federatedResource) : VersionedResource := {|
  vr_FederatedName := federatedName r;
  vr_Object := federatedObject r;
  vr_TemplateVersion := TemplateVersion r;
  vr_OverrideVersion := OverrideVersion r;
  vr_FederatedGVK := FederatedGVK r
|}.

Definition res_VersionForCluster (m : VersionManager) (r : federatedResource) (clusterName : string)
    : string + string :=
  match vm_Get m (versioned r) with
  | inr err => inr err
  | inl versionMap => inl (default ""%string (versionMap !! clusterName))
  end.

(** [placement.go]. *)
Definition getClusterNames (clusters : list FederatedCluster) : gset string := list_to_set (c_Name <$> clusters).
Definition computePlacement (resource : FederatedObject) (clusters : list FederatedCluster) : gset string :=
  getClusterNames clusters ∩ GetPlacementUnion (fo_Spec resource).

Definition addRetainObjectFinalizer (obj : Unstructured) : Unstructured :=
  let '(fs, changed) := AddFinalizers (uns_GetFinalizers obj) {[RetainTerminatingObjectFinalizer]} in
  if changed then uns_SetFinalizers fs obj else obj.

Definition removeField (obj : Unstructured) (fields : list string) : Unstructured :=
  setObject (RemoveNestedField (uns_Object obj) fields).

Definition dropJobFields (obj : Unstructured) : Unstructured :=
  if manualSelector obj then obj
  else removeField (removeField obj ["spec"; "template"; "metadata"; "labels"; "controller-uid"]%string)
         ["spec"; "selector"; "matchLabels"; "controller-uid"]%string.

Definition ClusterIPNone : string := "None".

Definition dropServiceFields (obj : Unstructured) : Unstructured :=
  match NestedString (uns_Object obj) ["spec"; "clusterIP"]%string with
  | inl (Some clusterIP) =>
      if negb (String.eqb clusterIP ClusterIPNone) then
        removeField (removeField obj ["spec"; "clusterIP"]%string) ["spec"; "clusterIPs"]%string
      else obj
  | _ => obj
  end.

Definition dropPodFields (obj : Unstructured) : Unstructured :=
  removeField obj ["spec"; "ephemeralContainers"]%string.

(** [AddAnnotation] of an unstructured object. *)
Definition addAnnotationTo (obj : Unstructured) (key value : string) : Unstructured :=
  if bool_decide (uns_GetAnnotations obj !! key = Some value) then obj
  else uns_SetAnnotations (<[key := value]> (uns_GetAnnotations obj)) obj.

(** No step of it fails. *)
Definition res_ObjectForCluster (r : federatedResource) (clusterName : string) : Unstructured + string :=
  let obj := template r in
  let obj := if negb (uns_GetGeneration obj =? 0)
             then addAnnotationTo obj SourceGenerationAnnotation (decimal (uns_GetGeneration obj)) else obj in
  inl (if bool_decide (res_TargetGVK r = JobGVK) then addRetainObjectFinalizer (dropJobFields obj)
       else if bool_decide (res_TargetGVK r = ServiceGVK) then dropServiceFields obj
       else if bool_decide (res_TargetGVK r = PodGVK) then addRetainObjectFinalizer (dropPodFields obj)
       else obj).

Definition res_ApplyOverrides (r : federatedResource) (obj : Unstructured) (clusterName : string)
    : Unstructured + string :=
  let overrides := overridesForCluster (typeConfig r) (federatedObject r) clusterName in
  let invalidPathsFound :=
    filter (fun o => Path o ∈ invalidOverridePaths) (default [] overrides) in
  if (0 <? Z.of_nat (length invalidPathsFound)) then inr "invalid override path(s)"%string
  else
    bind_error match overrides with
               | Some overrides => ApplyJSONPatch obj overrides
               | None => inl obj
               end (fun obj => inl (AddManagedLabel obj)).

(** The resource as the dispatcher sees it, with the versions of the manager. *)
Definition for_dispatch (m : VersionManager) (r : federatedResource) : FederatedResourceForDispatch := {|
  TargetName := targetName r;
  TargetGVK := res_TargetGVK r;
  TypeConfig := typeConfig r;
  fr_Object := federatedObject r;
  VersionForCluster := res_VersionForCluster m r;
  ObjectForCluster := res_ObjectForCluster r;
  ApplyOverrides := res_ApplyOverrides r
|}.

(** ** The accessor *)

Definition isSystemNamespace (fedNamespace namespace : string) : bool :=
  existsb (String.eqb namespace) ["kube-system"; "kube-public"; "default"; fedNamespace]%string.

(** [None]: nothing to sync. *)
Definition FederatedResource (lister : QualifiedName -> FederatedObject + ApiError)
    (ftcs : GroupVersionKind -> option FederatedTypeConfig) (fedNamespace : string) (qualifiedName : QualifiedName)
    : option federatedResource + string :=
  match lister qualifiedName with
  | inr err => if IsNotFound err then inl None else inr "failed to get federated object"%string
  | inl federatedObject =>
      match GetTemplateAsUnstructured (fo_Spec federatedObject) with
      | inr err => inr ("failed to unmarshal template: " ++ err)%string
      | inl template =>
          let targetGVK := uns_GroupVersionKind template in
          if bool_decide (targetGVK = NamespaceGVK) && isSystemNamespace fedNamespace (uns_GetName template) then inl None
          else match ftcs targetGVK with
               | None => inl None
               | Some typeConfig =>
                   inl (Some {| typeConfig := typeConfig; federatedName := qualifiedName;
                                targetName := {| qn_Namespace := uns_GetNamespace template; qn_Name := uns_GetName template |};
                                federatedObject := federatedObject; template := template |})
               end
      end
  end.
End Resource.
