(* ===== verification/Naming.v ===== *)
(** * Names of generated objects ([pkg/util/naming])

    The names that are computed from the names of other objects: lower case,
    bounded in length, with the 32-bit FNV-1 hash of [hash/fnv] to keep what was
    changed or cut apart. *)

From Stdlib Require Import ZArith Lia String Ascii DecimalString DecimalPos.
From S2P Require Import Prelude GoStrings.

Definition MaxFederatedObjectNameLength : nat := 253.
Definition MaxEndpointSliceNameLength : nat := 253.
Definition MaxLabelValueLength : nat := 63.

Definition endpointSlicePrefix : string := "imported".
Definition derivedServicePrefix : string := "derived".

Definition fnvHashFunc (key : string) : Z := fnv32_write fnv32_offset key.

(** Comparisons of bytes. *)
Definition between (lo hi c : ascii) : bool :=
  (N_of_ascii lo <=? N_of_ascii c)%N && (N_of_ascii c <=? N_of_ascii hi)%N.

Definition legalChar (ch : ascii) : bool :=
  between "a" "z" ch || between "0" "9" ch || Ascii.eqb ch "." || Ascii.eqb ch "-".

Definition caseDiff : N := (N_of_ascii "a" - N_of_ascii "A")%N.

Definition transformChar (ch : ascii) : ascii :=
  if legalChar ch then ch
  else if between "A" "Z" ch then ascii_of_N (caseDiff + N_of_ascii ch)
  else "."%char.

(** The first loop, and the flag that it sets. *)
Fixpoint transformChars (name : string) : string * bool :=
  match name with
  | EmptyString => (EmptyString, false)
  | String ch name' =>
      let '(transformedName, transformed) := transformChars name' in
      (String (transformChar ch) transformedName, negb (legalChar ch) || transformed)
  end.

(** The second loop: [previous] is the byte before, if any. *)
Fixpoint squashDots (previous : option ascii) (name : string) : string * bool :=
  match name with
  | EmptyString => (EmptyString, false)
  | String ch name' =>
      let '(sanitizedName, transformed) := squashDots (Some ch) name' in
      if bool_decide (previous = Some "."%char) && Ascii.eqb ch "." then (sanitizedName, true)
      else (String ch sanitizedName, transformed)
  end.

Definition transformObjectName (objectName : string) : string * bool :=
  let '(transformedName, transformed1) := transformChars objectName in
  let '(sanitizedName, transformed2) := squashDots None transformedName in
  (sanitizedName, transformed1 || transformed2).

(** A name that is too long is cut, to end with the hash of the whole. *)
Definition truncateName (maxLength : nat) (name : string) : string :=
  if (maxLength <? String.length name)%nat then
    let nameHash := decimal (fnvHashFunc name) in
    (String.substring 0 (maxLength - String.length nameHash - 1) name ++ "-" ++ nameHash)%string
  else name.

Definition GenerateFederatedObjectName (objectName ftcName : string) : string :=
  let '(transformedName, transformed) := transformObjectName objectName in
  let federatedName := (transformedName ++ "-" ++ ftcName)%string in
  let federatedName := if transformed then (federatedName ++ "-" ++ decimal (fnvHashFunc objectName))%string
                       else federatedName in
  truncateName MaxFederatedObjectNameLength federatedName.

Definition GenerateImportedEndpointSliceName (endpointSliceName cluster : string) : string :=
  truncateName MaxEndpointSliceNameLength
    (endpointSlicePrefix ++ "-" ++ cluster ++ "-" ++ endpointSliceName)%string.

Definition GenerateDerivedSvcFedObjName (serviceName : string) : string :=
  truncateName MaxFederatedObjectNameLength
    (derivedServicePrefix ++ "-" ++ serviceName ++ "-" ++ "services")%string.

Definition GenerateSourceClusterValue (clusterName : string) : string :=
  truncateName MaxLabelValueLength clusterName.

(** ** Properties *)

Lemma fnv32_step_range h c : 0 <= fnv32_step h c < 2 ^ 32.
Proof.
  unfold fnv32_step. set (x := (h * 16777619) mod 2 ^ 32).
  assert (0 <= x < 2 ^ 32) as Hx by (apply Z.mod_pos_bound; lia).
  assert (0 <= Z.of_N (N_of_ascii c) < 2 ^ 32) as Hc by (pose proof (N_ascii_bounded c); lia).
  assert (0 <= Z.lxor x (Z.of_N (N_of_ascii c))) as H0 by (apply Z.lxor_nonneg; lia).
  split; [done|]. destruct (decide (Z.lxor x (Z.of_N (N_of_ascii c)) = 0)) as [->|Hne]; [lia|].
  apply Z.log2_lt_pow2; [lia|]. eapply Z.le_lt_trans; [apply Z.log2_lxor; lia|].
  apply Z.max_lub_lt; [destruct (decide (x = 0)) as [->|]; [done|]|
    destruct (decide (Z.of_N (N_of_ascii c) = 0)) as [->|]; [done|]]; apply Z.log2_lt_pow2; lia.
Qed.

Lemma fnvHashFunc_range key : 0 <= fnvHashFunc key < 2 ^ 32.
Proof.
  unfold fnvHashFunc. assert (0 <= fnv32_offset < 2 ^ 32) as H by (unfold fnv32_offset; lia).
  revert H. generalize fnv32_offset. induction key as [|c key IH]; intros h Hh; [done|].
  apply IH, fnv32_step_range.
Qed.

Lemma string_length_app s t : String.length (s ++ t) = (String.length s + String.length t)%nat.
Proof. induction s as [|c s IH]; [done|]. simpl. by rewrite IH. Qed.

Lemma substring_length n s : (n <= String.length s)%nat -> String.length (String.substring 0 n s) = n.
Proof.
  revert s. induction n as [|n IH]; intros s H; [by destruct s|]. destruct s as [|c s]; simpl in *; [lia|].
  rewrite IH; [done|lia].
Qed.

(** *** Decimal numbers *)

Lemma length_string_of_uint d : String.length (NilEmpty.string_of_uint d) = Decimal.nb_digits d.
Proof. induction d; simpl; by f_equal. Qed.

Lemma nb_digits_double d : (Decimal.nb_digits (Decimal.Little.double d) <= S (Decimal.nb_digits d) /\
  Decimal.nb_digits (Decimal.Little.succ_double d) <= S (Decimal.nb_digits d))%nat.
Proof. induction d; simpl; lia. Qed.

Lemma nb_digits_revapp d d' : Decimal.nb_digits (Decimal.revapp d d') = (Decimal.nb_digits d + Decimal.nb_digits d')%nat.
Proof. revert d'. induction d; intros d'; simpl; rewrite ?IHd; simpl; lia. Qed.

Lemma nb_digits_to_uint p : (Decimal.nb_digits (Pos.to_uint p) <= Pos.size_nat p)%nat.
Proof.
  unfold Pos.to_uint, Decimal.rev. rewrite nb_digits_revapp. simpl. rewrite Nat.add_0_r.
  induction p as [p IH|p IH|]; simpl; [..|lia];
    pose proof (nb_digits_double (Pos.to_little_uint p)); lia.
Qed.

Lemma nb_digits_32 p : Zpos p < 2 ^ 32 -> (Decimal.nb_digits (Pos.to_uint p) <= 33)%nat.
Proof.
  intros Hp. transitivity (Pos.size_nat p); [apply nb_digits_to_uint|].
  assert (33%nat = Pos.size_nat 4294967296) as -> by (vm_compute; reflexivity).
  apply Pos.size_nat_monotone. rewrite <- Pos.ltb_lt, Pos2Z.inj_ltb. by apply Z.ltb_lt.
Qed.

Lemma string_of_uint_length d :
  (String.length (NilZero.string_of_uint d) <= Nat.max 1 (Decimal.nb_digits d))%nat.
Proof. destruct d; simpl; rewrite ?length_string_of_uint; lia. Qed.

(** A 32-bit number has few digits, all of them legal. *)
Lemma decimal_spec n : 0 <= n < 2 ^ 32 ->
  (String.length (decimal n) <= 33)%nat /\ exists d, decimal n = NilZero.string_of_uint d.
Proof.
  intros Hn. unfold decimal. destruct n as [|p|p]; [|cbn [Z.to_int NilZero.string_of_int]|lia].
  - split; [simpl; lia|]. by exists (Decimal.D0 Decimal.Nil).
  - split; [|by eexists]. pose proof (string_of_uint_length (Pos.to_uint p)).
    pose proof (nb_digits_32 p). lia.
Qed.

(** *** Legal names *)

Fixpoint all_legal (s : string) : bool :=
  match s with EmptyString => true | String c s' => legalChar c && all_legal s' end.

Lemma all_legal_app s t : all_legal (s ++ t) = all_legal s && all_legal t.
Proof. induction s as [|c s IH]; [done|]. simpl. by rewrite IH, andb_assoc. Qed.

Lemma all_legal_substring n s : all_legal s = true -> all_legal (String.substring 0 n s) = true.
Proof.
  revert s. induction n as [|n IH]; intros [|c s]; simpl; try done.
  intros [-> H]%andb_true_iff. simpl. by apply IH.
Qed.

Lemma all_legal_digits d : all_legal (NilZero.string_of_uint d) = true.
Proof. destruct d as [|d|d|d|d|d|d|d|d|d|d]; [done|..]; simpl; induction d; simpl; done. Qed.

Lemma all_legal_hash key : all_legal (decimal (fnvHashFunc key)) = true.
Proof. destruct (decimal_spec _ (fnvHashFunc_range key)) as (_ & d & ->). apply all_legal_digits. Qed.

Lemma length_hash key : (String.length (decimal (fnvHashFunc key)) <= 33)%nat.
Proof. apply decimal_spec, fnvHashFunc_range. Qed.

Lemma transformChar_legal ch : legalChar (transformChar ch) = true.
Proof.
  destruct ch as [[] [] [] [] [] [] [] []]; reflexivity.
Qed.

Lemma transformChars_spec name t b : transformChars name = (t, b) ->
  all_legal t = true /\ b = negb (all_legal name) /\ (b = false -> t = name) /\ String.length t = String.length name.
Proof.
  revert t b. induction name as [|ch name IH]; simpl; intros t b.
  - by intros [= <- <-].
  - destruct (transformChars name) as [t' b']. intros [= <- <-].
    destruct (IH _ _ eq_refl) as (H1 & -> & H3 & H4). split_and!.
    + simpl. by rewrite transformChar_legal, H1.
    + by rewrite negb_andb.
    + intros [Hc%negb_false_iff Hn]%orb_false_iff. unfold transformChar. rewrite Hc. by rewrite H3.
    + simpl. by rewrite H4.
Qed.

(** No dot follows a dot. *)
Fixpoint no_double_dot (previous : option ascii) (s : string) : bool :=
  match s with
  | EmptyString => true
  | String c s' => negb (bool_decide (previous = Some "."%char) && Ascii.eqb c ".") && no_double_dot (Some c) s'
  end.

Lemma squashDots_spec name previous s b : squashDots previous name = (s, b) ->
  (all_legal name = true -> all_legal s = true) /\ no_double_dot previous s = true /\
  b = negb (no_double_dot previous name) /\ (b = false -> s = name).
Proof.
  revert previous s b. induction name as [|ch name IH]; simpl; intros previous s b.
  - by intros [= <- <-].
  - destruct (squashDots (Some ch) name) as [s' b'] eqn:E.
    destruct (IH _ _ _ E) as (H1 & H2 & H3 & H4).
    destruct (bool_decide (previous = Some "."%char) && Ascii.eqb ch ".") eqn:Ed; intros [= <- <-].
    + apply andb_true_iff in Ed as [Hp Hc]. apply bool_decide_eq_true in Hp. apply Ascii.eqb_eq in Hc. subst.
      split_and!; [|done..]. intros [_ H]%andb_true_iff. auto.
    + split_and!.
      * simpl. intros [-> H]%andb_true_iff. simpl. auto.
      * simpl. by rewrite Ed, H2.
      * done.
      * intros ->. by rewrite H4.
Qed.

Lemma transformObjectName_spec name s b : transformObjectName name = (s, b) ->
  all_legal s = true /\ no_double_dot None s = true /\
  (b = false <-> all_legal name = true /\ no_double_dot None name = true) /\ (b = false -> s = name).
Proof.
  unfold transformObjectName. destruct (transformChars name) as [t b1] eqn:E1.
  destruct (squashDots None t) as [s' b2] eqn:E2. intros [= <- <-].
  destruct (transformChars_spec _ _ _ E1) as (H1 & -> & H3 & _).
  destruct (squashDots_spec _ _ _ _ E2) as (K1 & K2 & -> & K4).
  split_and!; [auto|done|..].
  - rewrite orb_false_iff, !negb_false_iff. split; intros [Ha Hb]; (split; [done|]);
      rewrite Ha in H3; by rewrite (H3 eq_refl) in *.
  - intros [Ha Hb]%orb_false_iff. by rewrite K4, H3.
Qed.

Lemma truncateName_spec maxLength name : (34 <= maxLength)%nat ->
  (String.length (truncateName maxLength name) <= maxLength)%nat /\
  (all_legal name = true -> all_legal (truncateName maxLength name) = true) /\
  ((String.length name <= maxLength)%nat -> truncateName maxLength name = name).
Proof.
  intros Hmax. unfold truncateName. pose proof (length_hash name) as Hh.
  destruct (Nat.ltb_spec maxLength (String.length name)) as [Hlt|Hle]; [|done].
  split_and!; [| |lia].
  - rewrite !string_length_app, substring_length by lia. simpl. lia.
  - intros Hl. by rewrite !all_legal_app, all_legal_hash, all_legal_substring.
Qed.

(** *** Dots in a row *)

Lemma no_double_dot_app previous s c t : c <> "."%char ->
  no_double_dot previous (s ++ String c t) = no_double_dot previous s && no_double_dot None t.
Proof.
  intros Hc. assert (Hnone : forall u, no_double_dot (Some c) u = no_double_dot None u)
    by (intros [|ch u]; [done|]; simpl; by rewrite (bool_decide_false (Some c = _)) by congruence).
  revert previous. induction s as [|ch s IH]; intros previous; simpl.
  - rewrite Hnone. apply Ascii.eqb_neq in Hc. by rewrite Hc, andb_false_r.
  - by rewrite IH, andb_assoc.
Qed.

Lemma no_double_dot_dash previous s t :
  no_double_dot previous (s ++ "-" ++ t) = no_double_dot previous s && no_double_dot None t.
Proof. by apply (no_double_dot_app previous s "-" t). Qed.

Lemma no_double_dot_substring n previous s :
  no_double_dot previous s = true -> no_double_dot previous (String.substring 0 n s) = true.
Proof.
  revert previous s. induction n as [|n IH]; intros previous [|c s]; simpl; try done.
  intros [-> H]%andb_true_iff. simpl. by apply IH.
Qed.

Lemma no_double_dot_hash key : no_double_dot None (decimal (fnvHashFunc key)) = true.
Proof.
  destruct (decimal_spec _ (fnvHashFunc_range key)) as (_ & d & ->).
  assert (H : forall e previous, no_double_dot previous (NilEmpty.string_of_uint e) = true)
    by (induction e; intros previous; simpl; rewrite ?andb_false_r; simpl; auto).
  destruct d; try done; simpl; rewrite ?H; done.
Qed.

Lemma no_double_dot_spec s : no_double_dot None s = true -> forall a b, s <> (a ++ ".." ++ b)%string.
Proof.
  intros H a b ->. revert H. generalize (None : option ascii). induction a as [|c a IH]; intros previous; simpl.
  - by rewrite andb_false_r.
  - intros [_ H]%andb_true_iff. by eapply IH.
Qed.

Lemma truncateName_dots maxLength name :
  no_double_dot None name = true -> no_double_dot None (truncateName maxLength name) = true.
Proof.
  intros H. unfold truncateName. destruct (_ <? _)%nat; [|done].
  by rewrite no_double_dot_dash, no_double_dot_substring, no_double_dot_hash.
Qed.

(** *** Names that end in a hash *)

Fixpoint ends_in_digit (s : string) : bool :=
  match s with
  | EmptyString => false
  | String c EmptyString => between "0" "9" c
  | String _ s' => ends_in_digit s'
  end.

Lemma ends_in_digit_app s t : t <> ""%string -> ends_in_digit (s ++ t) = ends_in_digit t.
Proof.
  intros Ht. induction s as [|c s IH]; [done|]. simpl. rewrite IH. by destruct s; [destruct t|].
Qed.

Lemma ends_in_digit_uint d : ends_in_digit (NilZero.string_of_uint d) = true.
Proof.
  assert (forall d, d = Decimal.Nil \/ ends_in_digit (NilEmpty.string_of_uint d) = true) as Hd.
  { clear d. intros d. induction d; [by left|..]; right; simpl; destruct IHd as [->|IHd]; try reflexivity;
      rewrite IHd; by destruct (NilEmpty.string_of_uint d). }
  destruct d; [reflexivity|..]; match goal with |- context [NilZero.string_of_uint ?x] => by destruct (Hd x) end.
Qed.

Lemma ends_in_digit_hash s key : ends_in_digit (s ++ "-" ++ decimal (fnvHashFunc key)) = true.
Proof.
  destruct (decimal_spec _ (fnvHashFunc_range key)) as (_ & d & ->). pose proof (ends_in_digit_uint d) as Hd.
  rewrite !ends_in_digit_app; [done|by intros E; rewrite E in Hd|done].
Qed.

Lemma string_app_cancel s1 s2 t : (s1 ++ t = s2 ++ t)%string -> s1 = s2.
Proof.
  revert s2. induction s1 as [|a s1 IH]; intros [|b s2] E; [done|..].
  - apply (f_equal String.length) in E. simpl in E. rewrite !string_length_app in E. simpl in E. lia.
  - apply (f_equal String.length) in E. simpl in E. rewrite !string_length_app in E. simpl in E. lia.
  - simpl in E. injection E as -> E. f_equal. by apply IH.
Qed.

(** Source names that are kept have a federated name of their own. *)
Lemma GenerateFederatedObjectName_unique other name ftcName : ftcName <> ""%string -> ends_in_digit ftcName = false ->
  GenerateFederatedObjectName other ftcName = (name ++ "-" ++ ftcName)%string -> other = name.
Proof.
  intros Hne Hd E. assert (ends_in_digit (GenerateFederatedObjectName other ftcName) = false) as Hg
    by (by rewrite E, !ends_in_digit_app).
  unfold GenerateFederatedObjectName in *. destruct (transformObjectName other) as [s b] eqn:Et.
  destruct (transformObjectName_spec _ _ _ Et) as (_ & _ & _ & Hsame). unfold truncateName in *.
  destruct (_ <? _)%nat; [by rewrite ends_in_digit_hash in Hg|].
  destruct b; [by rewrite ends_in_digit_hash in Hg|]. rewrite (Hsame eq_refl) in E. by apply string_app_cancel in E.
Qed.

(** C40. The name of the federated object of a source object is made of the
    characters that a DNS subdomain may have, has no two dots in a row (provided
    the name of the type has none) and is at most 253 long, whatever the name of
    the source object; a source name of these characters, without two dots in a
    row and short enough is kept as it is, and no other source name of a type,
    whose name does not end in a digit, leads to the same federated name.  That
    the name is a DNS subdomain is not claimed: [leading_dot] is not. *)
Theorem GenerateFederatedObjectName_spec objectName ftcName : all_legal ftcName = true ->
  all_legal (GenerateFederatedObjectName objectName ftcName) = true /\
  (no_double_dot None ftcName = true ->
   forall a b, GenerateFederatedObjectName objectName ftcName <> (a ++ ".." ++ b)%string) /\
  (String.length (GenerateFederatedObjectName objectName ftcName) <= MaxFederatedObjectNameLength)%nat /\
  (all_legal objectName = true -> no_double_dot None objectName = true ->
   (String.length objectName + String.length ftcName < MaxFederatedObjectNameLength)%nat ->
   GenerateFederatedObjectName objectName ftcName = (objectName ++ "-" ++ ftcName)%string /\
   forall other, ftcName <> ""%string -> ends_in_digit ftcName = false ->
     GenerateFederatedObjectName other ftcName = GenerateFederatedObjectName objectName ftcName -> other = objectName).
Proof.
  intros Hftc. unfold GenerateFederatedObjectName at 1 2 3 4 6.
  destruct (transformObjectName objectName) as [t b] eqn:E.
  destruct (transformObjectName_spec _ _ _ E) as (H1 & H2 & H3 & H4).
  set (name := if b then _ else _).
  destruct (truncateName_spec MaxFederatedObjectNameLength name) as (Hlen & Hleg & Hsame);
    [unfold MaxFederatedObjectNameLength; lia|].
  split_and!; [| |done|].
  - apply Hleg. unfold name. destruct b; by rewrite !all_legal_app, ?all_legal_hash, H1, Hftc.
  - intros Hdots. apply no_double_dot_spec, truncateName_dots. unfold name. destruct b.
    + by rewrite !no_double_dot_dash, no_double_dot_hash, H2, Hdots.
    + by rewrite no_double_dot_dash, H2, Hdots.
  - intros Ho Hd Hl. assert (b = false) as -> by tauto. specialize (H4 eq_refl). subst t.
    rewrite Hsame by (unfold name; rewrite !string_length_app; simpl; lia).
    split; [done|]. intros other Hne Hdigit. by apply GenerateFederatedObjectName_unique.
Qed.

Lemma GenerateFederatedObjectName_spec_witness :
  GenerateFederatedObjectName "web" "deployments.apps" = "web-deployments.apps"%string /\
  (String.length (GenerateFederatedObjectName "A:system::node" "clusterroles.rbac.authorization.k8s.io") <= 253)%nat /\
  forall a b, GenerateFederatedObjectName "A:system::node" "clusterroles.rbac.authorization.k8s.io" <> (a ++ ".." ++ b)%string.
Proof.
  split_and!.
  - apply (GenerateFederatedObjectName_spec "web" "deployments.apps"); [reflexivity..|]. vm_compute. lia.
  - apply (GenerateFederatedObjectName_spec "A:system::node" "clusterroles.rbac.authorization.k8s.io"). reflexivity.
  - apply (GenerateFederatedObjectName_spec "A:system::node" "clusterroles.rbac.authorization.k8s.io"); reflexivity.
Defined.

(** A legal name may still start with a dot, which no DNS subdomain does. *)
Example leading_dot : transformObjectName ":reader" = (".reader"%string, true).
Proof. reflexivity. Qed.
