(* ===== verification/Sync.v ===== *)
(** * The sync controller ([sync/controller.go])

    One reconciliation of a federated object: bring the objects of its member
    clusters in line with its template, placement and overrides, record the
    versions and the status, and clean up before it is deleted.  The caches are
    the fields of [SyncController]; the API server of the host is the interface
    [SyncServer] on a state [W], threaded through with the two version managers
    and the requests sent to member clusters.  Operations on member clusters run
    as [Dispatch.run] computes, which every interleaving agrees with.  Events,
    metrics and logs are left out, and so are timeouts of [Wait]. *)

From Stdlib Require Import ZArith Lia String Ascii.
From S2P Require Import Prelude GoStrings K8s Types ApiTypes Unstructured Codecs FedObject SyncStatus Version.
From S2P Require Import MemberObjects Retain Dispatch SyncResource Naming.

Definition FinalizerSyncController : string := (DefaultPrefix ++ "sync-controller")%string.
Definition FinalizerCascadingDelete : string := (DefaultPrefix ++ "cascading-delete")%string.
Definition CentralizedHPAEnableKey : string := (DefaultPrefix ++ "centralized-hpa-enabled")%string.

Record GroupVersionResource := { gvr_Group : string; gvr_Version : string; gvr_Resource : string }.

Definition GetSourceTypeGVR (f : FederatedTypeConfig) : GroupVersionResource := {|
  gvr_Group := ar_Group (SourceType f); gvr_Version := ar_Version (SourceType f);
  gvr_Resource := ar_PluralName (SourceType f)
|}.
Definition GetNamespaced (f : FederatedTypeConfig) : bool := String.eqb (ar_Scope (SourceType f)) "Namespaced".

(** The cache of the objects of a kind in a cluster. *)
Record ResourceLister := {
  rl_HasSynced : bool;
  rl_Get : string -> Unstructured + ApiError;
  rl_List : list Unstructured + ApiError
}.

(** The clients of the host for federated objects and clusters. *)
Class SyncServer (W : Type) `{Kubernetes} := {
  fed_Get : W -> string -> string -> FederatedObject + ApiError;
  fed_Update : W -> FederatedObject -> W * (FederatedObject + ApiError);
  fed_UpdateStatus : W -> FederatedObject -> W * (FederatedObject + ApiError);
  cluster_Get : W -> string -> FederatedCluster + ApiError;
  cluster_Update : W -> FederatedCluster -> W * (FederatedCluster + ApiError)
}.

Definition fo_SetFinalizers (o : FederatedObject) (finalizers : list string) : FederatedObject := {|
  fo_Namespace := fo_Namespace o; fo_Name := fo_Name o; fo_Labels := fo_Labels o;
  fo_Annotations := fo_Annotations o; fo_OwnerReferences := fo_OwnerReferences o; fo_Generation := fo_Generation o;
  fo_DeletionTimestamp := fo_DeletionTimestamp o; fo_Finalizers := finalizers;
  fo_Spec := fo_Spec o; fo_Status := fo_Status o
|}.

Definition c_SetFinalizers `{Kubernetes} (c : FederatedCluster) (finalizers : list string) : FederatedCluster := {|
  c_Name := c_Name c; c_Labels := c_Labels c; c_Annotations := c_Annotations c; c_Finalizers := finalizers;
  c_DeletionTimestamp := c_DeletionTimestamp c; Taints := Taints c; Status := Status c
|}.

Section Sync.
Context `{K : Kubernetes} `{R : GoRuntime} `{C : !Codecs} `{A : AdoptionCodecs} `{P : PatchCodecs}.

(** What a [SyncController] reads through its informers and clients. *)
Record SyncController := {
  sc_FederatedObject : string -> string -> FederatedObject + ApiError;
  sc_ClusterFederatedObject : string -> FederatedObject + ApiError;
  sc_ListFederatedObjects : list FederatedObject + ApiError;
  sc_ListClusterFederatedObjects : list FederatedObject + ApiError;
  sc_JoinedClusters : list FederatedCluster + string;
  sc_ClusterLister : string -> FederatedCluster + ApiError;
  sc_ResourceFTC : GroupVersionKind -> option FederatedTypeConfig;
  sc_ListFTCs : list FederatedTypeConfig + string;
  sc_ResourceLister : GroupVersionKind -> string -> option ResourceLister;
  sc_DynamicClient : string -> option (GroupVersionResource -> Client);
  sc_fedNamespace : string
}.

(** Delays, in nanoseconds. *)
Definition reconcileOnClusterChangeDelay : Z := 3000000000.
Definition reconcileOnFTCChangeDelay : Z := 3000000000.
Definition recheckAfterDispatchDelay : Z := 10000000000.
Definition ensureDeletionRecheckDelay : Z := 5000000000.
Definition cascadingDeletionRecheckDelay : Z := 10000000000.
Definition requeueAfter (delay : Z) : WorkerResult :=
  {| wr_Success := false; RequeueAfter := Some delay; Backoff := false |}.

Variable s : SyncController.

(** ** Reading the caches *)

Definition getFromLister (qualifiedName : QualifiedName) : FederatedObject + ApiError :=
  if String.eqb (qn_Namespace qualifiedName) "" then sc_ClusterFederatedObject s (qn_Name qualifiedName)
  else sc_FederatedObject s (qn_Namespace qualifiedName) (qn_Name qualifiedName).

Definition fedAccessor (qualifiedName : QualifiedName) : option federatedResource + string :=
  FederatedResource getFromLister (sc_ResourceFTC s) (sc_fedNamespace s) qualifiedName.

Definition getClusterClient (gvr : GroupVersionResource) (clusterName : string) : Client + string :=
  match sc_DynamicClient s clusterName with
  | Some client => inl (client gvr)
  | None => inr "client does not exist for cluster"%string
  end.

(** [util/informermanager]: the cache once it is synced, and a request
    otherwise; [None] for no object. *)
Definition GetClusterObject (clusterName : string) (qualifiedName : QualifiedName) (gvk : GroupVersionKind)
    : option Unstructured + string :=
  let request :=
    match sc_DynamicClient s clusterName with
    | None => inr "cluster client does not exist for cluster"%string
    | Some client =>
        match sc_ResourceFTC s gvk with
        | None => inr "FTC does not exist for GVK"%string
        | Some ftc =>
            match cl_Get (client (GetSourceTypeGVR ftc)) (qn_Namespace qualifiedName) (qn_Name qualifiedName) with
            | inr err => if IsNotFound err || IsNoMatchError err then inl None
                         else inr "failed to get object with client"%string
            | inl clusterObj => if negb (HasManagedLabel clusterObj) then inl None else inl (Some clusterObj)
            end
        end
    end in
  match sc_ResourceLister s gvk clusterName with
  | Some lister =>
      if rl_HasSynced lister then
        match rl_Get lister (QualifiedName_String qualifiedName) with
        | inr err => if IsNotFound err then inl None else inr "failed to get object from cache"%string
        | inl clusterObj => inl (Some clusterObj)
        end
      else request
  | None => request
  end.

(** [util.go]. *)
Definition isCentralizedHPAObject (fedObject : FederatedObject) : bool + string :=
  match GetTemplateMetadata (fo_Spec fedObject) with
  | inr err => inr err
  | inl templateMetadata =>
      inl (bool_decide (tm_Labels templateMetadata !! CentralizedHPAEnableKey = Some AnnotationValueTrue))
  end.

(** The clusters by name; the last one of a name. *)
Definition clusterMapOf (clusters : list FederatedCluster) : gmap string FederatedCluster :=
  foldl (fun clusterMap cluster => <[c_Name cluster := cluster]> clusterMap) ∅ clusters.

(** [for x := range set]. *)
Definition range_set (x : gset string) : list string := (range_map (gset_to_gmap tt x)).*1.

(** ** One cluster of a sync *)

(** The object of the cluster, unless only one of the two is of a derived
    service. *)
Definition matchingObject (fedObject : FederatedObject) (clusterObj : option Unstructured) : option Unstructured :=
  match clusterObj with
  | None => None
  | Some obj =>
      if eqb (IsDerivedService (fo_Annotations fedObject)) (IsDerivedService (uns_GetAnnotations obj))
      then Some obj else None
  end.

Definition RecordStatusOf (clusterName propStatus : string) : list Action := [Eff clusterName (RecordStatus propStatus)].

(** The interface [dispatch.UnmanagedDispatcher], of both dispatchers. *)
Record UnmanagedDispatcher := {
  d_Delete : string -> Unstructured -> list Action;
  d_RemoveManagedLabel : string -> Unstructured -> list Action
}.

Definition clientAccessor (fedResource : federatedResource) : string -> Client + string :=
  getClusterClient (GetSourceTypeGVR (typeConfig fedResource)).

Definition managedDispatcher (versions : VersionManager) (fedResource : federatedResource) : UnmanagedDispatcher := {|
  d_Delete := managed_Delete (clientAccessor fedResource) (for_dispatch versions fedResource);
  d_RemoveManagedLabel := managed_RemoveManagedLabel (clientAccessor fedResource)
|}.

Definition unmanagedDispatcher (fedResource : federatedResource) : UnmanagedDispatcher := {|
  d_Delete := unmanaged_Delete (clientAccessor fedResource) false (targetName fedResource);
  d_RemoveManagedLabel := unmanaged_RemoveManagedLabel (clientAccessor fedResource) false
|}.

Definition removeFromCluster (dispatcher : UnmanagedDispatcher) (clusterName : string) (fedResource : federatedResource)
    (clusterObj : Unstructured) (respectOrphaningBehavior : bool) : list Action :=
  if negb respectOrphaningBehavior then d_Delete dispatcher clusterName clusterObj
  else if ShouldBeOrphaned (federatedObject fedResource) clusterObj
  then d_RemoveManagedLabel dispatcher clusterName clusterObj
  else d_Delete dispatcher clusterName clusterObj.

(** The body of the loop of [syncToClusters]: what the main goroutine does,
    and whether to check again after the dispatch. *)
Definition syncCluster (versions : VersionManager) (fedResource : federatedResource)
    (selectedClusterNames : gset string) (cluster : FederatedCluster) : list Action * bool :=
  let clusterName := c_Name cluster in
  let skipAdopting := negb (ShouldAdoptPreexistingResources (federatedObject fedResource)) in
  let shouldBeDeleted := negb (bool_decide (clusterName ∈ selectedClusterNames)) in
  let terminating := bool_decide (is_Some (c_DeletionTimestamp cluster)) in
  let isCascadingDeletionTriggered := terminating && IsCascadingDeleteEnabled cluster in
  if negb (IsClusterReady (Status cluster)) then
    (if negb shouldBeDeleted then RecordStatusOf clusterName ClusterNotReady else [], false)
  else
    match GetClusterObject clusterName (targetName fedResource) (res_TargetGVK fedResource) with
    | inr _ => (RecordStatusOf clusterName CachedRetrievalFailed, false)
    | inl clusterObj =>
        let clusterObj := matchingObject (federatedObject fedResource) clusterObj in
        let beingDeleted o := bool_decide (is_Some (uns_GetDeletionTimestamp o)) in
        if isCascadingDeletionTriggered then
          (match clusterObj with
           | Some o => if negb (beingDeleted o) then RecordStatusOf clusterName WaitingForCascadingDeletion else []
           | None => []
           end, false)
        else if shouldBeDeleted then
          match clusterObj with
          | None => ([], false)
          | Some o =>
              if beingDeleted o then (RecordStatusOf clusterName WaitingForRemoval, false)
              else if terminating && negb (IsCascadingDeleteEnabled cluster) then ([], false)
              else (removeFromCluster (managedDispatcher versions fedResource) clusterName fedResource o
                      isCascadingDeletionTriggered, false)
          end
        else if terminating then (RecordStatusOf clusterName ClusterTerminating, false)
        else if negb (HasFinalizer (c_Finalizers cluster) FinalizerCascadingDelete) then
          (RecordStatusOf clusterName FinalizerCheckFailed, true)
        else
          let resource := for_dispatch versions fedResource in
          (match clusterObj with
           | None => managed_Create (clientAccessor fedResource) resource skipAdopting clusterName
           | Some o => managed_Update (clientAccessor fedResource) resource clusterName o
           end, false)
    end.

Definition syncProgram (versions : VersionManager) (fedResource : federatedResource)
    (selectedClusterNames : gset string) (clusters : list FederatedCluster) : list Action :=
  flat_map (fun cluster => (syncCluster versions fedResource selectedClusterNames cluster).1) clusters.

Definition CollectedStatus (d : DispatchState) : CollectedPropagationStatus := {|
  StatusMap := statusMap d;
  GenerationMap := ConvertVersionMapToGenerationMap (versionMap d);
  ResourcesUpdated := resourcesUpdated d
|}.

(** ** The state of a reconciliation *)

Context {W : Type} `{SS : !SyncServer W} `{VS : !VersionServer W}.

(** The API server of the host, the version managers, and the requests sent to
    the member clusters. *)
Record SyncState := {
  world : W;
  versionManager : VersionManager;
  clusterVersionManager : VersionManager;
  requests : list (string * Request)
}.

Definition set_world (st : SyncState) (w : W) : SyncState := {|
  world := w; versionManager := versionManager st; clusterVersionManager := clusterVersionManager st;
  requests := requests st |}.
Definition add_requests (st : SyncState) (rs : list (string * Request)) : SyncState := {|
  world := world st; versionManager := versionManager st; clusterVersionManager := clusterVersionManager st;
  requests := requests st ++ rs |}.

Definition managerOf (st : SyncState) (r : federatedResource) : VersionManager :=
  if GetNamespaced (typeConfig r) then versionManager st else clusterVersionManager st.
Definition set_manager (st : SyncState) (r : federatedResource) (m : VersionManager) : SyncState :=
  if GetNamespaced (typeConfig r)
  then {| world := world st; versionManager := m; clusterVersionManager := clusterVersionManager st; requests := requests st |}
  else {| world := world st; versionManager := versionManager st; clusterVersionManager := m; requests := requests st |}.

(** The clock, and the rounds that a poll has time for. *)
Variable now : Time.
Variable rounds : nat.

(** The managed dispatcher: run the program and wait. *)
Definition dispatch (st : SyncState) (program : list Action) : may_panic (SyncState * DispatchState * bool) :=
  if existsb crashes program then Panics
  else
    let d := settle (run program NewManagedDispatcher) in
    mret (add_requests st (sent d), d, run_ok program).

(** ** Writing the status *)

Inductive StatusWrite :=
  | StatusWritten (obj : FederatedObject)
  | StatusUnchanged
  | StatusFailed.

(** The poll that writes a status: [change] computes the object to write, or
    none if there is nothing to write. *)
Fixpoint pollUpdateStatus (rounds : nat) (w : W) (change : FederatedObject -> option FederatedObject)
    (objNamespace objName : string) (obj : FederatedObject) : W * StatusWrite :=
  match rounds with
  | O => (w, StatusFailed)
  | S rounds' =>
      match change obj with
      | None => (w, StatusUnchanged)
      | Some obj =>
          let '(w, res) := fed_UpdateStatus w obj in
          match res with
          | inl obj => (w, StatusWritten obj)
          | inr err =>
              if IsConflict err then
                match fed_Get w objNamespace objName with
                | inr _ => (w, StatusFailed)
                | inl obj => pollUpdateStatus rounds' w change objNamespace objName obj
                end
              else (w, StatusFailed)
          end
      end
  end.

Definition pollStatusOf (st : SyncState) (change : FederatedObject -> option FederatedObject)
    (fedResource : federatedResource) : SyncState * StatusWrite :=
  let obj := federatedObject fedResource in
  let '(w, written) := pollUpdateStatus rounds (world st) change (fo_Namespace obj) (fo_Name obj) obj in
  (set_world st w, written).

Definition setFederatedStatus (st : SyncState) (fedResource : federatedResource) (reason : string)
    (collectedStatus : option CollectedPropagationStatus) : SyncState * WorkerResult :=
  let collectedStatus := default no_status collectedStatus in
  let change obj :=
    let '(obj, updateRequired) := SetFederatedStatus now obj reason collectedStatus in
    if updateRequired then Some obj else None in
  let '(st, written) := pollStatusOf st change fedResource in
  (st, match written with StatusFailed => StatusError | _ => StatusAllOK end).

(** ** Syncing *)

(** The clusters of the status that are joined. *)
Definition statusClusters (clusterMap : gmap string FederatedCluster) (status : GenericFederatedObjectStatus)
    : list FederatedCluster :=
  omap (fun cluster => clusterMap !! prs_Cluster cluster) (gs_Clusters status).

(** The clusters that are selected and not in the status yet. *)
Definition pendingCreateClusters (selectedClusterNames : gset string) (status : GenericFederatedObjectStatus)
    : gset string :=
  foldl (fun pending cluster => pending ∖ {[prs_Cluster cluster]}) selectedClusterNames (gs_Clusters status).

Definition newClusters (clusterMap : gmap string FederatedCluster) (pending : gset string) : list FederatedCluster :=
  omap (fun name =>
    cluster ← clusterMap !! name;
    if bool_decide (is_Some (c_DeletionTimestamp cluster)) then None else Some cluster) (range_set pending).

Definition pendingStatus (cluster : FederatedCluster) : PropagationStatus :=
  {| prs_Cluster := c_Name cluster; prs_Status := PendingCreate; LastObservedGeneration := 0 |}.

(** [None] for an error. *)
Definition prepareToSync (st : SyncState) (fedResource : federatedResource) (isCentralizedHPAObject : bool)
    : SyncState * option (federatedResource * list FederatedCluster * gset string) :=
  match sc_JoinedClusters s with
  | inr _ => ((setFederatedStatus st fedResource ClusterRetrievalFailed None).1, None)
  | inl clusters =>
      let clusterMap := clusterMapOf clusters in
      let selectedClusterNames :=
        if isCentralizedHPAObject then ∅ else computePlacement (federatedObject fedResource) clusters in
      let status := fo_Status (federatedObject fedResource) in
      let requireSync := statusClusters clusterMap status in
      let pending := pendingCreateClusters selectedClusterNames status in
      if Nat.eqb (size pending) 0 then (st, Some (fedResource, requireSync, selectedClusterNames))
      else
        let added := newClusters clusterMap pending in
        let clusters := gs_Clusters status ++ (pendingStatus <$> added) in
        let change obj := Some (setStatus obj (set_clusters (fo_Status obj) clusters)) in
        let '(st, written) := pollStatusOf st change fedResource in
        (st, match written with
             | StatusWritten obj => Some (SetObject fedResource obj, requireSync ++ added, selectedClusterNames)
             | _ => None
             end)
  end.

Definition syncToClusters (st : SyncState) (fedResource : federatedResource) (clusters : list FederatedCluster)
    (selectedClusterNames : gset string) : may_panic (SyncState * WorkerResult) :=
  let m := managerOf st fedResource in
  let program := syncProgram m fedResource selectedClusterNames clusters in
  let shouldRecheckAfterDispatch :=
    existsb (fun cluster => (syncCluster m fedResource selectedClusterNames cluster).2) clusters in
  '(st, d, dispatchOk) ← dispatch st program;
  let '(w, updated) := vm_Update rounds (world st) m (versioned fedResource) (set_List selectedClusterNames) (versionMap d) in
  let st := set_world st w in
  let st := match updated with
            | inl (m, _) => set_manager st fedResource m
            | inr _ => st
            end in
  let '(st, reconcileStatus) := setFederatedStatus st fedResource AggregateSuccess (Some (CollectedStatus d)) in
  mret (st, if negb (wr_Success reconcileStatus) then reconcileStatus
            else if negb dispatchOk then StatusError
            else if shouldRecheckAfterDispatch then requeueAfter recheckAfterDispatchDelay
            else StatusAllOK).

(** ** Deletion *)

Definition ensureFinalizer (st : SyncState) (fedResource : federatedResource)
    : SyncState * (federatedResource + ApiError) :=
  let obj := federatedObject fedResource in
  let '(finalizers, isUpdated) := AddFinalizers (fo_Finalizers obj) {[FinalizerSyncController]} in
  if negb isUpdated then (st, inl fedResource)
  else
    let '(w, res) := fed_Update (world st) (fo_SetFinalizers obj finalizers) in
    (set_world st w, match res with
                     | inl updatedObj => inl (SetObject fedResource updatedObj)
                     | inr err => inr err
                     end).

Definition removeFinalizer (st : SyncState) (fedResource : federatedResource)
    : SyncState * (federatedResource + ApiError) :=
  let obj := federatedObject fedResource in
  let '(finalizers, isUpdated) := RemoveFinalizers (fo_Finalizers obj) {[FinalizerSyncController]} in
  if negb isUpdated then (st, inl fedResource)
  else
    let '(w, res) := fed_Update (world st) (fo_SetFinalizers obj finalizers) in
    (set_world st w, match res with
                     | inl updatedObj => inl (SetObject fedResource updatedObj)
                     | inr err => inr err
                     end).

Definition getSyncedClusters (fedResource : federatedResource) : list FederatedCluster + string :=
  match sc_JoinedClusters s with
  | inr err => inr ("failed to get the list of joined clusters: " ++ err)%string
  | inl clusters => inl (statusClusters (clusterMapOf clusters) (fo_Status (federatedObject fedResource)))
  end.

(** What is to be done for a cluster of an object that is deleted. *)
Inductive DeletionCase :=
  | Unready
  | RetrievalFailure
  | NoNeed
  | HandleDeletion (clusterObj : Unstructured).

Definition deletionCase (fedResource : federatedResource) (cluster : FederatedCluster) : DeletionCase :=
  if negb (IsClusterReady (Status cluster)) then Unready
  else match GetClusterObject (c_Name cluster) (targetName fedResource) (res_TargetGVK fedResource) with
       | inr _ => RetrievalFailure
       | inl clusterObj =>
           match matchingObject (federatedObject fedResource) clusterObj with
           | None => NoNeed
           | Some clusterObj => HandleDeletion clusterObj
           end
       end.

(** The state, the clusters for which nothing needs to be done, the names of
    those for which [deletionFunc] was called, and whether all went well. *)
Definition handleDeletionInClusters (st : SyncState) (fedResource : federatedResource)
    (deletionFunc : UnmanagedDispatcher -> string -> Unstructured -> list Action)
    : may_panic (SyncState * (gset string * list string * bool + string)) :=
  match getSyncedClusters fedResource with
  | inr err => mret (st, inr err)
  | inl syncedClusters =>
      let case cluster := deletionCase fedResource cluster in
      let program := flat_map (fun cluster =>
        match case cluster with
        | HandleDeletion clusterObj => deletionFunc (unmanagedDispatcher fedResource) (c_Name cluster) clusterObj
        | _ => []
        end) syncedClusters in
      let handled := omap (fun cluster =>
        match case cluster with HandleDeletion _ => Some (c_Name cluster) | _ => None end) syncedClusters in
      let clustersNoNeedHandleDeletion : gset string := list_to_set (omap (fun cluster =>
        match case cluster with NoNeed => Some (c_Name cluster) | _ => None end) syncedClusters) in
      '(st, _, ok) ← dispatch st program;
      mret (st,
        if existsb (fun cluster => match case cluster with RetrievalFailure => true | _ => false end) syncedClusters
        then inr "failed to retrieve a managed resource for the following cluster(s)"%string
        else if existsb (fun cluster => match case cluster with Unready => true | _ => false end) syncedClusters
        then inr "the following clusters were not ready"%string
        else inl (clustersNoNeedHandleDeletion, handled, ok))
  end.

(** [None] if the object is gone from all clusters. *)
Definition checkObjectRemovedFromAllClusters (st : SyncState) (fedResource : federatedResource)
    (clustersNoNeedHandleDeletion : gset string) : may_panic (SyncState * option string) :=
  match getSyncedClusters fedResource with
  | inr err => mret (st, Some err)
  | inl syncedClusters =>
      let program := flat_map (fun cluster =>
        if negb (IsClusterReady (Status cluster)) then []
        else if bool_decide (c_Name cluster ∈ clustersNoNeedHandleDeletion) then []
        else CheckRemovedOrUnlabeled (clientAccessor fedResource) (targetName fedResource) (c_Name cluster))
        syncedClusters in
      '(st, _, ok) ← dispatch st program;
      mret (st,
        if existsb (fun cluster => negb (IsClusterReady (Status cluster))) syncedClusters
        then Some "the following clusters were not ready"%string
        else if negb ok then Some "one or more checks failed"%string
        else None)
  end.

(** Whether to check again later, or an error. *)
Definition ensureRemovalFromClusters (st : SyncState) (fedResource : federatedResource)
    : may_panic (SyncState * (bool + string)) :=
  '(st, res) ← handleDeletionInClusters st fedResource (fun dispatcher clusterName clusterObj =>
    removeFromCluster dispatcher clusterName fedResource clusterObj true);
  match res with
  | inr err => mret (st, inr err)
  | inl (clustersNoNeedHandleDeletion, remainingClusters, ok) =>
      if negb ok then mret (st, inr "failed to remove managed resources from one or more clusters."%string)
      else if (0 <? Z.of_nat (length remainingClusters)) then mret (st, inl true)
      else
        '(st, err) ← checkObjectRemovedFromAllClusters st fedResource clustersNoNeedHandleDeletion;
        mret (st, match err with Some err => inr err | None => inl false end)
  end.

Definition handleTerminatingFederatedResource (st : SyncState) (fedResource : federatedResource)
    : may_panic (SyncState * WorkerResult) :=
  let st := set_manager st fedResource (vm_Delete (managerOf st fedResource) (federatedName fedResource)) in
  let obj := federatedObject fedResource in
  if negb (bool_decide (FinalizerSyncController ∈ fo_Finalizers obj)) then mret (st, StatusAllOK)
  else
    '(st, res) ← ensureRemovalFromClusters st fedResource;
    match res with
    | inr _ => mret (st, StatusError)
    | inl true => mret (st, requeueAfter ensureDeletionRecheckDelay)
    | inl false =>
        let '(st, res) := removeFinalizer st fedResource in
        mret (st, match res with
                  | inr err => if IsConflict err then StatusConflict else StatusError
                  | inl _ => StatusAllOK
                  end)
    end.

(** ** The reconciliation *)

Definition reconcile (st : SyncState) (federatedName : QualifiedName) : may_panic (SyncState * WorkerResult) :=
  match fedAccessor federatedName with
  | inr _ => mret (st, StatusError)
  | inl None => mret (st, StatusAllOK)
  | inl (Some fedResource) =>
      if bool_decide (is_Some (fo_DeletionTimestamp (federatedObject fedResource))) then
        handleTerminatingFederatedResource st fedResource
      else
        match GetPendingControllers (federatedObject fedResource) with
        | inr _ => mret (st, StatusError)
        | inl pendingControllers =>
            match isCentralizedHPAObject (federatedObject fedResource) with
            | inr _ => mret (st, StatusError)
            | inl isCentralizedHPAObject =>
                if (0 <? Z.of_nat (length pendingControllers)) && negb isCentralizedHPAObject
                then mret (st, StatusAllOK)
                else
                  let '(st, res) := ensureFinalizer st fedResource in
                  match res with
                  | inr err => mret (st, if IsConflict err then StatusConflict else StatusError)
                  | inl fedResource =>
                      let obj := federatedObject fedResource in
                      if String.eqb (default ""%string (fo_Annotations obj !! DryRunAnnotation)) AnnotationValueTrue &&
                         Nat.eqb (length (gs_Clusters (fo_Status obj))) 0
                      then mret (st, StatusAllOK)
                      else
                        let '(st, prepared) := prepareToSync st fedResource isCentralizedHPAObject in
                        match prepared with
                        | None => mret (st, StatusError)
                        | Some (fedResource, clustersToSync, selectedClusters) =>
                            syncToClusters st fedResource clustersToSync selectedClusters
                        end
                  end
            end
        end
  end.

(** ** Cascading deletion of a cluster *)

(** One attempt of a [RetryOnConflict]: the name of [cluster] after it, which
    the generated client leaves empty on an error. *)
Definition clusterFinalizerAttempt (change : list string -> list string * bool) (w : W) (name : string)
    : W * string * option ApiError :=
  match cluster_Get w name with
  | inr err => (w, "", Some err)%string
  | inl cluster =>
      let '(finalizers, isUpdated) := change (c_Finalizers cluster) in
      if negb isUpdated then (w, c_Name cluster, None)
      else
        let '(w, res) := cluster_Update w (c_SetFinalizers cluster finalizers) in
        match res with
        | inr err => (w, "", Some err)%string
        | inl cluster => (w, c_Name cluster, None)
        end
  end.

(** [retry.RetryOnConflict]: again after a conflict, for a number of steps. *)
Fixpoint RetryOnConflict (steps : nat) (attempt : W -> string -> W * string * option ApiError) (w : W)
    (name : string) : W * option ApiError :=
  let '(w, name, err) := attempt w name in
  match err with
  | None => (w, None)
  | Some err =>
      if IsConflict err then match steps with
                             | S (S _ as steps') => RetryOnConflict steps' attempt w name
                             | _ => (w, Some err)
                             end
      else (w, Some err)
  end.

(** The steps of [retry.DefaultBackoff]. *)
Definition DefaultBackoffSteps : nat := 4.

Definition ensureClusterFinalizer (w : W) (cluster : FederatedCluster) : W * option ApiError :=
  RetryOnConflict DefaultBackoffSteps
    (clusterFinalizerAttempt (fun finalizers => AddFinalizers finalizers {[FinalizerCascadingDelete]})) w (c_Name cluster).

Definition removeClusterFinalizer (w : W) (cluster : FederatedCluster) : W * option ApiError :=
  RetryOnConflict DefaultBackoffSteps
    (clusterFinalizerAttempt (fun finalizers => RemoveFinalizers finalizers {[FinalizerCascadingDelete]})) w (c_Name cluster).

Definition listManagedClusterObjects (ftc : FederatedTypeConfig) (clusterName : string) : list Unstructured + string :=
  match sc_ResourceLister s (GetSourceTypeGVK ftc) clusterName with
  | None => inr "lister of cluster does not exist"%string
  | Some resourceLister =>
      if rl_HasSynced resourceLister then
        match rl_List resourceLister with
        | inr _ => inr "failed to list cluster objects"%string
        | inl objects => inl objects
        end
      else
        match getClusterClient (GetSourceTypeGVR ftc) clusterName with
        | inr err => inr err
        | inl client =>
            match cl_List client {[ManagedByKubeAdmiralLabelKey := ManagedByKubeAdmiralLabelValue]} with
            | inr err => if IsNoMatchError err || IsNotFound err then inl [] else inr "failed to list"%string
            | inl objects => inl objects
            end
        end
  end.

(** The federated object of an object of a cluster, by name. *)
Definition fedObjectNameOf (ftc : FederatedTypeConfig) (clusterObj : Unstructured) : QualifiedName := {|
  qn_Namespace := uns_GetNamespace clusterObj;
  qn_Name := if IsDerivedService (uns_GetAnnotations clusterObj)
             then GenerateDerivedSvcFedObjName (uns_GetName clusterObj)
             else GenerateFederatedObjectName (uns_GetName clusterObj) (ftc_Name ftc)
|}.

(** Delete or orphan one object: whether it failed. *)
Definition cascadeObject (st : SyncState) (ftc : FederatedTypeConfig) (clusterName : string) (clusterObj : Unstructured)
    : may_panic (SyncState * bool) :=
  match fedAccessor (fedObjectNameOf ftc clusterObj) with
  | inr _ | inl None => mret (st, true)
  | inl (Some fedObj) =>
      '(st, _, dispatchOk) ← dispatch st
        (removeFromCluster (unmanagedDispatcher fedObj) clusterName fedObj clusterObj true);
      mret (st, negb dispatchOk)
  end.

Fixpoint cascadeObjects (st : SyncState) (ftc : FederatedTypeConfig) (clusterName : string)
    (clusterObjs : list Unstructured) : may_panic (SyncState * bool) :=
  match clusterObjs with
  | [] => mret (st, false)
  | clusterObj :: clusterObjs =>
      '(st, failed) ← cascadeObject st ftc clusterName clusterObj;
      '(st, anyFailed) ← cascadeObjects st ftc clusterName clusterObjs;
      mret (st, failed || anyFailed)
  end.

(** Whether the kind of the type config goes to the map of what remains. *)
Definition cascadingDeletionForFTC (st : SyncState) (ftc : FederatedTypeConfig) (clusterName : string)
    : may_panic (SyncState * bool) :=
  match listManagedClusterObjects ftc clusterName with
  | inr _ => mret (st, true)
  | inl clusterObjs => cascadeObjects st ftc clusterName clusterObjs
  end.

(** The goroutines, one after the other: the kinds that remain. *)
Fixpoint cascadingDeletion (st : SyncState) (ftcs : list FederatedTypeConfig) (clusterName : string)
    : may_panic (SyncState * list GroupVersionKind) :=
  match ftcs with
  | [] => mret (st, [])
  | ftc :: ftcs =>
      '(st, remains) ← cascadingDeletionForFTC st ftc clusterName;
      '(st, remaining) ← cascadingDeletion st ftcs clusterName;
      mret (st, if (remains : bool) then GetSourceTypeGVK ftc :: remaining else remaining)
  end.

Definition conflictOrError (err : option ApiError) : WorkerResult :=
  match err with
  | None => StatusAllOK
  | Some err => if IsConflict err then StatusConflict else StatusError
  end.

Definition reconcileClusterForCascadingDeletion (st : SyncState) (qualifiedName : QualifiedName)
    : may_panic (SyncState * WorkerResult) :=
  match sc_ClusterLister s (qn_Name qualifiedName) with
  | inr err => mret (st, if IsNotFound err then StatusAllOK else StatusError)
  | inl cluster =>
      if negb (bool_decide (is_Some (c_DeletionTimestamp cluster))) then
        let '(w, err) := ensureClusterFinalizer (world st) cluster in
        mret (set_world st w, conflictOrError err)
      else if negb (IsClusterJoined (Status cluster)) || negb (IsCascadingDeleteEnabled cluster) then
        let '(w, err) := removeClusterFinalizer (world st) cluster in
        mret (set_world st w, conflictOrError err)
      else if negb (IsClusterReady (Status cluster)) then mret (st, requeueAfter cascadingDeletionRecheckDelay)
      else
        match sc_ListFTCs s with
        | inr _ => mret (st, StatusError)
        | inl ftcs =>
            '(st, remainingByGVK) ← cascadingDeletion st ftcs (c_Name cluster);
            if (0 <? Z.of_nat (length remainingByGVK)) then mret (st, requeueAfter cascadingDeletionRecheckDelay)
            else
              let '(w, err) := removeClusterFinalizer (world st) cluster in
              mret (set_world st w, match err with Some _ => StatusError | None => StatusAllOK end)
        end
  end.

(** ** Events

    What an event adds to the queues, with the delay. *)

Definition VisitFederatedResources {T} (visitFunc : FederatedObject -> list T) : list T :=
  match sc_ListFederatedObjects s with inl fedObjects => flat_map visitFunc fedObjects | inr _ => [] end ++
  match sc_ListClusterFederatedObjects s with inl fedObjects => flat_map visitFunc fedObjects | inr _ => [] end.

Definition nameOf (o : FederatedObject) : QualifiedName := {| qn_Namespace := fo_Namespace o; qn_Name := fo_Name o |}.

Definition enqueueAllObjects : list (QualifiedName * Z) :=
  VisitFederatedResources (fun obj => [(nameOf obj, reconcileOnClusterChangeDelay)]).

Definition enqueueForGVK (gvk : GroupVersionKind) : list (QualifiedName * Z) :=
  VisitFederatedResources (fun obj =>
    match GetTemplateMetadata (fo_Spec obj) with
    | inr _ => []
    | inl templateMeta =>
        if bool_decide (tm_GVK templateMeta = gvk) then [(nameOf obj, reconcileOnFTCChangeDelay)] else []
    end).

(** The predicates of the handlers for cluster events: cascading deletion, and
    the three that reconcile all objects. *)
Definition terminating (c : FederatedCluster) : bool := bool_decide (is_Some (c_DeletionTimestamp c)).
Definition ready (c : option FederatedCluster) : bool :=
  match c with Some c => IsClusterReady (Status c) | None => false end.

Definition enqueuesCascadingDeletion (oldCluster newCluster : option FederatedCluster) : bool :=
  match oldCluster, newCluster with
  | None, _ => true
  | Some old, Some new => negb (terminating old) && terminating new
  | Some _, None => false
  end.

Definition becameReady (oldCluster newCluster : option FederatedCluster) : bool :=
  ready newCluster && negb (ready oldCluster).

Definition becameUnready (oldCluster newCluster : option FederatedCluster) : bool :=
  match newCluster with
  | None => true
  | Some new => if IsClusterReady (Status new) then false else ready oldCluster
  end.

Definition becameTerminating (oldCluster newCluster : option FederatedCluster) : bool :=
  match newCluster with
  | None => false
  | Some new => terminating new && match oldCluster with None => true | Some old => negb (terminating old) end
  end.

(** An event on an object of a member cluster. *)
Definition memberObjectKey (obj : Unstructured) : option QualifiedName :=
  ftc ← sc_ResourceFTC s (uns_GroupVersionKind obj);
  Some {| qn_Namespace := uns_GetNamespace obj; qn_Name := GenerateFederatedObjectName (uns_GetName obj) (ftc_Name ftc) |}.
End Sync.
