(* ===== verification/SyncResourceTheorems.v ===== *)
(** * The federated resource: properties

    The overrides of a cluster in the order of the controllers, and a cluster
    that was synced once needs no further request. *)

From Stdlib Require Import ZArith Lia String Ascii.
From S2P Require Import Prelude GoStrings K8s Types ApiTypes Unstructured Codecs FedObject Version Retain.
From S2P Require Import RetainTheorems MemberObjects Dispatch SyncResource.

(** ** Stable sorting *)

Section Stable.
Context {T : Type} (less : T -> T -> bool).

Lemma stable_insert_perm x l : stable_insert less x l ≡ₚ x :: l.
Proof.
  induction l as [|y l IH]; [done|]. simpl. destruct (less y x); [|done]. rewrite IH. apply Permutation_swap.
Qed.

Lemma SliceStable_perm l : SliceStable less l ≡ₚ l.
Proof. induction l as [|x l IH]; [done|]. simpl. by rewrite stable_insert_perm, IH. Qed.

Lemma SliceStable_cons x l : SliceStable less (x :: l) = stable_insert less x (SliceStable less l).
Proof. done. Qed.

Context `{!StrictWeakOrder less}.

Lemma stable_insert_sorted x l : StronglySorted (sorted_rel less) l -> StronglySorted (sorted_rel less) (stable_insert less x l).
Proof using StrictWeakOrder0.
  induction 1 as [|y l Hl IH Hy]; simpl; [by repeat constructor|]. destruct (less y x) eqn:E.
  - constructor; [done|]. rewrite stable_insert_perm. constructor; [|done]. unfold sorted_rel. by apply swo_asym.
  - constructor; [by constructor|]. constructor; [done|]. eapply Forall_impl; [exact Hy|].
    intros z Hz. unfold sorted_rel in *. by eapply swo_negtrans.
Qed.

Lemma SliceStable_sorted l : StronglySorted (sorted_rel less) (SliceStable less l).
Proof using StrictWeakOrder0. induction l as [|x l IH]; [constructor|]. rewrite SliceStable_cons. by apply stable_insert_sorted. Qed.

(** Elements that are not told apart keep their order. *)
Lemma SliceStable_stable (P : T -> Prop) `{!forall x, Decision (P x)} l :
  (forall x y, P x -> P y -> less x y = false) -> filter P (SliceStable less l) = filter P l.
Proof using Type.
  intros HP. induction l as [|x l IH]; [done|]. rewrite SliceStable_cons, filter_cons, <- IH.
  generalize (SliceStable less l). clear IH. intros k. induction k as [|y k IH]; simpl.
  - by rewrite filter_cons.
  - destruct (less y x) eqn:E; [|by rewrite filter_cons].
    rewrite !(filter_cons _ y), IH. destruct (decide (P x)) as [Hx|]; [|done].
    rewrite !decide_False; [done|..]; intros Hy; specialize (HP y x Hy Hx); congruence.
Qed.
End Stable.

Lemma StronglySorted_lookup {T} (R : T -> T -> Prop) l i j x y : StronglySorted R l ->
  (i < j)%nat -> l !! i = Some x -> l !! j = Some y -> R x y.
Proof.
  intros Hs. revert i j. induction Hs as [|z l Hs IH Hz]; intros [|i] [|j] Hij; simpl; intros Hx Hy; try lia; try done.
  - injection Hx as <-. rewrite Forall_forall in Hz. apply Hz. by eapply list_elem_of_lookup_2.
  - eapply (IH i j); [lia|done..].
Qed.

(** ** The order of the controllers *)

Lemma controllerOrder_spec groups c i : NoDup (concat groups) ->
  controllerOrder groups !! c = Some i <-> concat groups !! i = Some c.
Proof.
  unfold controllerOrder. intros Hnd.
  assert (forall l (m : gmap string nat) pre, NoDup (pre ++ l) -> size m = length pre ->
    (forall c i, m !! c = Some i <-> pre !! i = Some c) ->
    let m' := foldl (fun m controller => <[controller := size m]> m) m l in
    size m' = length (pre ++ l) /\ forall c i, m' !! c = Some i <-> (pre ++ l) !! i = Some c) as Hg.
  { induction l as [|x l IH]; intros m pre Hn Hs Hm; simpl; [by rewrite app_nil_r|].
    assert (m !! x = None) as Hx.
    { apply eq_None_not_Some. intros [j Hj%Hm%list_elem_of_lookup_2].
      apply NoDup_app in Hn as (_ & Hn & _). apply (Hn x Hj). left. }
    replace (pre ++ x :: l) with ((pre ++ [x]) ++ l) in * by by rewrite <- app_assoc.
    apply IH; [done| |].
    - rewrite map_size_insert_None, Hs, length_app by done. simpl. lia.
    - intros c' i'. rewrite lookup_app_Some, list_lookup_singleton_Some, Hs.
      destruct (decide (c' = x)) as [->|Hne].
      + rewrite lookup_insert_eq. split; [intros [= <-]; right; split_and!; [lia|lia|done]|]. intros [H|(H1 & H2 & _)]; [|f_equal; lia].
        apply Hm in H. congruence.
      + rewrite lookup_insert_ne, Hm by done. split; [by left|]. intros [?|(_ & _ & ?)]; [done|congruence]. }
  assert (forall gs (m : gmap string nat) pre, NoDup (pre ++ concat gs) -> size m = length pre ->
    (forall c i, m !! c = Some i <-> pre !! i = Some c) ->
    forall c i, foldl (fun m g => foldl (fun m controller => <[controller := size m]> m) m g) m gs !! c = Some i <->
      (pre ++ concat gs) !! i = Some c) as Hgs.
  { induction gs as [|g gs IH]; intros m pre Hn Hs Hm; simpl; [by rewrite app_nil_r|].
    simpl in Hn. rewrite app_assoc in Hn |- *. assert (NoDup (pre ++ g)) as Hn' by by apply NoDup_app in Hn as [? _].
    destruct (Hg g m pre Hn' Hs Hm) as [Hs' Hm']. by apply IH. }
  apply (Hgs groups ∅ []); [done|done|]. intros c' i'. rewrite lookup_empty, lookup_nil. done.
Qed.

#[export] Instance overrideLess_swo order : StrictWeakOrder (overrideLess order).
Proof.
  unfold overrideLess. split.
  - intros x y. destruct (order !! owc_Controller x), (order !! owc_Controller y); try done.
    rewrite Nat.ltb_lt, Nat.ltb_ge. lia.
  - intros x y z. destruct (order !! owc_Controller x), (order !! owc_Controller y), (order !! owc_Controller z); try done.
    rewrite !Nat.ltb_ge. lia.
Qed.

(** The patches for a cluster, in the order of the overrides. *)
Definition patchesIn (c : string) (o : OverrideWithController) : list OverridePatch :=
  flat_map (fun p => if String.eqb (crp_Cluster p) c then Patches p else []) (Override o).

Lemma overridesMap_spec overrides c :
  default [] (overridesMap overrides !! c) = flat_map (patchesIn c) overrides.
Proof.
  unfold overridesMap.
  set (step := fun (m : gmap string (list OverridePatch)) clusterOverride =>
    <[crp_Cluster clusterOverride := default [] (m !! crp_Cluster clusterOverride) ++ Patches clusterOverride]> m).
  assert (forall l m, default [] (foldl step m l !! c) =
    default [] (m !! c) ++ flat_map (fun p => if String.eqb (crp_Cluster p) c then Patches p else []) l) as Hl.
  { induction l as [|p l IH]; intros m; simpl; [by rewrite app_nil_r|]. rewrite IH. unfold step.
    destruct (String.eqb_spec (crp_Cluster p) c) as [->|Hne].
    - by rewrite lookup_insert_eq; simpl; rewrite <- app_assoc.
    - by rewrite lookup_insert_ne. }
  assert (forall os m, default [] (foldl (fun m o => foldl step m (Override o)) m os !! c) =
    default [] (m !! c) ++ flat_map (patchesIn c) os) as Hos.
  { induction os as [|o os IH]; intros m; simpl; [by rewrite app_nil_r|]. by rewrite IH, Hl, <- app_assoc. }
  by rewrite Hos, lookup_empty.
Qed.

(** C18. The overrides of a cluster are the patches of all the overrides that
    mention it, one after the other: those of a controller that comes earlier in
    the type config first, those of controllers that it does not list last, and
    those of one controller in the order of the object.  A cluster for which no
    override has a patch has none. *)
Theorem overridesForCluster_spec tc f c : NoDup (concat (GetControllers tc)) ->
  exists sorted, sorted ≡ₚ Overrides (fo_Spec f) /\
    overridesForCluster tc f c =
      (if bool_decide (flat_map (patchesIn c) sorted = []) then None else Some (flat_map (patchesIn c) sorted)) /\
    (forall i j x y b, (i < j)%nat -> sorted !! i = Some x -> sorted !! j = Some y ->
       concat (GetControllers tc) !! b = Some (owc_Controller y) ->
       exists a, concat (GetControllers tc) !! a = Some (owc_Controller x) /\ (a <= b)%nat) /\
    (forall controller, filter (fun o => owc_Controller o = controller) sorted =
       filter (fun o => owc_Controller o = controller) (Overrides (fo_Spec f))).
Proof.
  intros Hnd. set (order := controllerOrder (GetControllers tc)).
  exists (SliceStable (overrideLess order) (Overrides (fo_Spec f))). split_and!.
  - apply SliceStable_perm.
  - unfold overridesForCluster. fold order. rewrite <- overridesMap_spec.
    by destruct (overridesMap _ !! c) as [[|p ps]|].
  - intros i j x y b Hij Hx Hy Hb.
    pose proof (SliceStable_sorted (overrideLess order) (Overrides (fo_Spec f))) as Hs.
    pose proof (StronglySorted_lookup _ _ _ _ _ _ Hs Hij Hx Hy) as Hle.
    unfold sorted_rel, overrideLess in Hle. apply (controllerOrder_spec _ _ _ Hnd) in Hb. fold order in Hb. rewrite Hb in Hle.
    destruct (order !! owc_Controller x) as [a|] eqn:Ea; [|done]. exists a. split; [by apply controllerOrder_spec|].
    apply Nat.ltb_ge in Hle. done.
  - intros controller. apply SliceStable_stable. intros x y Hx Hy. unfold overrideLess. rewrite Hx, Hy.
    destruct (order !! controller); [|done]. apply Nat.ltb_irrefl.
Qed.

(** ** The objects that are sent carry the managed label *)

Section Labelled.
Context `{K : Kubernetes} `{R : GoRuntime} `{C : !Codecs} `{P : PatchCodecs}.

(** Metadata that can be written: of the template, and of what the overrides
    make of an object; and replicas that are not part of the metadata. *)
Record metadata_kept (r : federatedResource) : Prop := {
  mk_template : metadata_ok (template r) = true;
  mk_overrides : forall c patches u u', overridesForCluster (typeConfig r) (federatedObject r) c = Some patches ->
    metadata_ok u = true -> ApplyJSONPatch u patches = inl u' -> metadata_ok u' = true;
  mk_replicas : checkRetainReplicas (federatedObject r) = true ->
    exists k p, SplitDotPath (ReplicasSpec (typeConfig r)) [] = k :: p /\ k <> "metadata"%string
}.

Lemma HasManagedLabel_lookup u : HasManagedLabel u = true <->
  uns_GetLabels u !! ManagedByKubeAdmiralLabelKey = Some ManagedByKubeAdmiralLabelValue.
Proof.
  unfold HasManagedLabel, ManagedByKubeAdmiralLabelValue. rewrite String.eqb_eq.
  destruct (uns_GetLabels u !! _); simpl; split; congruence.
Qed.

Lemma AddManagedLabel_ok u : metadata_ok u = true ->
  metadata_ok (AddManagedLabel u) = true /\ HasManagedLabel (AddManagedLabel u) = true.
Proof.
  intros Hu. unfold AddManagedLabel. split; [by apply metadata_ok_SetLabels|].
  apply HasManagedLabel_lookup. rewrite GetLabels_SetLabels by done. apply lookup_insert_eq.
Qed.

Lemma ApplyOverrides_labelled r u c u' : metadata_kept r -> metadata_ok u = true ->
  res_ApplyOverrides r u c = inl u' -> metadata_ok u' = true /\ HasManagedLabel u' = true.
Proof.
  intros [_ Hov _] Hu. unfold res_ApplyOverrides. destruct (0 <? _); [done|].
  intros (u0 & H0 & [= <-])%bind_error_inl. apply AddManagedLabel_ok.
  destruct (overridesForCluster _ _ c) as [patches|] eqn:E; [by eapply Hov|]. by injection H0 as <-.
Qed.

Lemma metadata_ok_SetFinalizers f u : metadata_ok u = true -> metadata_ok (uns_SetFinalizers f u) = true.
Proof. apply (ms_ok _ _ _ (Meta_SetFinalizers f)). Qed.
Lemma GetLabels_SetFinalizers f u : metadata_ok u = true -> uns_GetLabels (uns_SetFinalizers f u) = uns_GetLabels u.
Proof. intros Hu. unfold uns_GetLabels. by rewrite (ms_meta _ _ _ (Meta_SetFinalizers f)). Qed.

Lemma HasManagedLabel_ext u u' : uns_GetLabels u = uns_GetLabels u' -> HasManagedLabel u = HasManagedLabel u'.
Proof. unfold HasManagedLabel. by intros ->. Qed.

(** The steps that leave the metadata writable. *)
Lemma removeField_metadata u k p : k <> "metadata"%string -> same_metadata (removeField u (k :: p)) u.
Proof. intros Hk. unfold same_metadata, removeField. simpl. by apply RemoveNestedField_other. Qed.

Lemma same_metadata_ok u u' : same_metadata u u' -> metadata_ok u' = true -> metadata_ok u = true.
Proof. by intros [_ ->]%same_metadata_Meta. Qed.

Lemma addRetainObjectFinalizer_ok u : metadata_ok u = true -> metadata_ok (addRetainObjectFinalizer u) = true.
Proof.
  intros Hu. unfold addRetainObjectFinalizer. destruct (AddFinalizers _ _) as [fs []]; [|done].
  by apply metadata_ok_SetFinalizers.
Qed.

Lemma ObjectForCluster_ok r c u : metadata_ok (template r) = true -> res_ObjectForCluster r c = inl u ->
  metadata_ok u = true.
Proof.
  intros Ht. unfold res_ObjectForCluster. set (u0 := if negb _ then _ else _).
  assert (metadata_ok u0 = true) as H0.
  { unfold u0, addAnnotationTo. destruct (negb _); [|done]. case_bool_decide; [done|]. by apply metadata_ok_SetAnnotations. }
  clearbody u0. intros [= <-].
  assert (forall v k p, k <> "metadata"%string -> metadata_ok v = true -> metadata_ok (removeField v (k :: p)) = true) as Hrm.
  { intros v k p Hk. apply same_metadata_ok. by apply removeField_metadata. }
  repeat case_bool_decide; try done.
  - apply addRetainObjectFinalizer_ok. unfold dropJobFields. destruct (manualSelector u0); auto.
  - unfold dropServiceFields. destruct (NestedString _ _) as [[ip|]|]; try done. destruct (negb _); auto.
  - apply addRetainObjectFinalizer_ok. unfold dropPodFields. auto.
Qed.

Lemma recordPropagated_labelled u : metadata_ok u = true -> HasManagedLabel u = true ->
  metadata_ok (recordPropagatedLabelsAndAnnotations u) = true /\
  HasManagedLabel (recordPropagatedLabelsAndAnnotations u) = true.
Proof.
  intros Hu Hl. unfold recordPropagatedLabelsAndAnnotations. split; [by apply metadata_ok_SetAnnotations|].
  rewrite <- Hl. apply HasManagedLabel_ext. by rewrite GetLabels_SetAnnotations.
Qed.

Lemma retain_labelled gvk u o u' : metadata_ok u = true -> HasManagedLabel u = true ->
  RetainOrMergeClusterFields gvk u o = Returns (inl u') -> metadata_ok u' = true /\ HasManagedLabel u' = true.
Proof.
  intros Hu Hl H. apply retained_meta in H as (Hok & Hlab & _); [|done]. split; [done|].
  apply HasManagedLabel_lookup. apply HasManagedLabel_lookup in Hl. by rewrite Hlab, mergeStringMaps_lookup, Hl.
Qed.

Lemma retainReplicas_metadata u o f path u' :
  (checkRetainReplicas f = true -> exists k p, SplitDotPath path [] = k :: p /\ k <> "metadata"%string) ->
  retainReplicas u o f path = inl u' -> same_metadata u' u.
Proof.
  intros Hp. unfold retainReplicas, SetInt64FromPath. destruct (checkRetainReplicas f); [|by intros [= <-]].
  destruct (Hp eq_refl) as (k & p & -> & Hk). destruct (GetInt64FromPath _ _ _) as [[n|]|]; [|by intros [= <-]|done].
  destruct (SetNestedField _ _ _) as [x|] eqn:E; [|done]. intros [= <-]. by eapply SetNestedField_metadata.
Qed.

Lemma desiredObject_labelled m r c o u : metadata_kept r ->
  desiredObject (for_dispatch m r) c o = Returns (inl u) -> HasManagedLabel u = true.
Proof.
  intros Hr. unfold desiredObject, for_dispatch. cbn [ObjectForCluster ApplyOverrides TargetGVK fr_Object TypeConfig].
  destruct (res_ObjectForCluster r c) as [u0|] eqn:E0; [|done]. apply ObjectForCluster_ok in E0; [|apply Hr].
  destruct (res_ApplyOverrides r _ c) as [u1|] eqn:E1; [|done].
  apply ApplyOverrides_labelled in E1 as [H1 L1]; [|done|by apply metadata_ok_SetFinalizers].
  set (u2 := match uns_GetFinalizers u1 with [] => u1 | _ => _ end).
  assert (metadata_ok u2 = true /\ HasManagedLabel u2 = true) as [H2 L2].
  { unfold u2. destruct (uns_GetFinalizers u1); [done|]. split; [by apply metadata_ok_SetFinalizers|].
    rewrite <- L1. apply HasManagedLabel_ext. by rewrite GetLabels_SetFinalizers. }
  clearbody u2. destruct (recordPropagated_labelled u2 H2 L2) as [H3 L3].
  rewrite may_panic_bind_Returns. intros ([u4|] & H4 & [= H5]).
  apply retain_labelled in H4 as [H4 L4]; [|done..].
  destruct (retainReplicas _ _ _ _) as [u5|] eqn:E5; [|done]. injection H5 as <-.
  apply retainReplicas_metadata, same_metadata_Meta in E5 as [Hm _]; [|apply Hr].
  rewrite <- L4. apply HasManagedLabel_ext. unfold uns_GetLabels. by rewrite Hm.
Qed.

Lemma created_labelled m r c o u : metadata_kept r -> ObjectForCluster (for_dispatch m r) c = inl o ->
  ApplyOverrides (for_dispatch m r) (uns_SetFinalizers [] o) c = inl u ->
  HasManagedLabel (recordPropagatedLabelsAndAnnotations u) = true.
Proof.
  cbn [for_dispatch ObjectForCluster ApplyOverrides]. intros Hr H0%ObjectForCluster_ok H1; [|apply Hr].
  apply ApplyOverrides_labelled in H1 as [H1 L1]; [|done|by apply metadata_ok_SetFinalizers].
  by apply recordPropagated_labelled.
Qed.
End Labelled.


(** ** A cluster that was synced *)

Section Settles.
Context `{K : Kubernetes} `{R : GoRuntime} `{C : !Codecs} `{A : AdoptionCodecs} `{P : PatchCodecs}.

(** The overrides of the cluster leave the metadata alone, as those of replicas
    do. *)
Definition overrides_frame (r : federatedResource) (c : string) : Prop :=
  forall patches u u', overridesForCluster (typeConfig r) (federatedObject r) c = Some patches ->
    ApplyJSONPatch u patches = inl u' -> same_metadata u' u.

(** The labels and annotations that an object [u] has; those that the resource
    propagates to a cluster. *)
Definition names (u : Unstructured) : string * string := (uns_GetName u, uns_GetNamespace u).

Record propagates (r : federatedResource) (c : string) (d : Unstructured) : Prop := {
  pr_ok : metadata_ok d = true;
  pr_meta : exists u0, res_ObjectForCluster r c = inl u0 /\ names d = names u0 /\
    uns_GetAnnotations d = uns_GetAnnotations u0 /\
    uns_GetLabels d = <[ManagedByKubeAdmiralLabelKey := ManagedByKubeAdmiralLabelValue]> (uns_GetLabels u0)
}.

Lemma SetFinalizers_meta fs u : metadata_ok u = true ->
  names (uns_SetFinalizers fs u) = names u /\ uns_GetAnnotations (uns_SetFinalizers fs u) = uns_GetAnnotations u /\
  uns_GetLabels (uns_SetFinalizers fs u) = uns_GetLabels u.
Proof.
  intros Hu. unfold names, uns_GetName, uns_GetNamespace, uns_GetAnnotations, uns_GetLabels.
  by rewrite (ms_meta _ _ _ (Meta_SetFinalizers fs)).
Qed.

Lemma same_meta_fields u u' : uns_Meta u = uns_Meta u' ->
  names u = names u' /\ uns_GetAnnotations u = uns_GetAnnotations u' /\ uns_GetLabels u = uns_GetLabels u'.
Proof. unfold names, uns_GetName, uns_GetNamespace, uns_GetAnnotations, uns_GetLabels. by intros ->. Qed.

(** What [desiredObject] merges into the cluster object. *)
Lemma desiredObject_propagates m r c o u : metadata_kept r -> overrides_frame r c ->
  desiredObject (for_dispatch m r) c o = Returns (inl u) ->
  exists d u', propagates r c d /\
    RetainOrMergeClusterFields (res_TargetGVK r) (recordPropagatedLabelsAndAnnotations d) o = Returns (inl u') /\
    uns_Meta u = uns_Meta u'.
Proof.
  intros Hr Hf. unfold desiredObject, for_dispatch. cbn [ObjectForCluster ApplyOverrides TargetGVK fr_Object TypeConfig].
  destruct (res_ObjectForCluster r c) as [u0|] eqn:E0; [|done]. pose proof (ObjectForCluster_ok r c u0 (mk_template r Hr) E0) as H0.
  destruct (SetFinalizers_meta (uns_GetFinalizers o) u0 H0) as (F1 & F2 & F3).
  pose proof (metadata_ok_SetFinalizers (uns_GetFinalizers o) u0 H0) as Hv. set (v := uns_SetFinalizers _ u0) in *.
  destruct (res_ApplyOverrides r v c) as [u1|] eqn:E1; [|done].
  assert (propagates r c u1) as Hu1.
  { revert E1. unfold res_ApplyOverrides. destruct (0 <? _); [done|]. intros (p & Hp & [= <-])%bind_error_inl.
    assert (same_metadata p v) as [Hm Hok]%same_metadata_Meta.
    { destruct (overridesForCluster _ _ c) as [patches|] eqn:Eo; [by eapply Hf|]. by injection Hp as <-. }
    rewrite Hv in Hok. apply same_meta_fields in Hm as (M1 & M2 & M3).
    split; [by apply AddManagedLabel_ok|]. exists u0. split; [done|]. unfold AddManagedLabel.
    rewrite GetLabels_SetLabels, GetAnnotations_SetLabels by done. split_and!; [|congruence|congruence].
    rewrite <- F1, <- M1. unfold names, uns_GetName, uns_GetNamespace. by rewrite (ms_meta _ _ _ (Meta_SetLabels _)). }
  set (u2 := match uns_GetFinalizers u1 with [] => u1 | _ => _ end).
  assert (propagates r c u2) as Hu2.
  { unfold u2. destruct (uns_GetFinalizers u1) as [|f fs]; [done|]. destruct Hu1 as [Hok (w & Hw & Hn & Ha & Hl)].
    destruct (SetFinalizers_meta (uniqueFinalizers ∅ (f :: fs)) u1 Hok) as (G1 & G2 & G3).
    split; [by apply metadata_ok_SetFinalizers|]. exists w. split_and!; [done|congruence..]. }
  clearbody u2. rewrite may_panic_bind_Returns. intros ([u4|] & H4 & [= H5]).
  destruct (retainReplicas _ _ _ _) as [u5|] eqn:E5; [|done]. injection H5 as <-.
  apply retainReplicas_metadata, same_metadata_Meta in E5 as [Hm _]; [|apply Hr]. by exists u2, u4.
Qed.

Lemma ObjectVersion_nonempty u : ObjectVersion u <> ""%string.
Proof. unfold ObjectVersion. by destruct (negb _). Qed.

Lemma ObjectMetaObjEquivalent_ext u u' o : uns_Meta u = uns_Meta u' ->
  ObjectMetaObjEquivalent u o = ObjectMetaObjEquivalent u' o.
Proof. unfold ObjectMetaObjEquivalent, uns_GetName, uns_GetNamespace, uns_GetLabels, uns_GetAnnotations. by intros ->. Qed.

(** A merge keeps what is propagated. *)
Lemma mergeStringMaps_subset template observed keys : template ⊆ mergeStringMaps template observed keys.
Proof. apply map_subseteq_spec. intros k v Hk. by rewrite mergeStringMaps_lookup, Hk. Qed.

(** The cluster stored an object as it was sent. *)
Record stored_as (u o : Unstructured) : Prop := {
  sa_names : names o = names u;
  sa_labels : uns_GetLabels o = uns_GetLabels u;
  sa_annotations : uns_GetAnnotations o = uns_GetAnnotations u;
  sa_keys : uns_GetLabels o !! ""%string = None /\ uns_GetAnnotations o !! ""%string = None
}.

(** The keys that the resource propagates can be joined with commas. *)
Definition no_comma_keys (r : federatedResource) (c : string) : Prop :=
  forall u, res_ObjectForCluster r c = inl u -> no_commas (uns_GetLabels u) /\ no_commas (uns_GetAnnotations u).

(** An update that was sent and stored leaves the version of the stored object
    in the dispatcher. *)
Lemma update_recorded clientAccessor client fr c o u o' :
  clientAccessor c = inl client -> desiredObject fr c o = Returns (inl u) ->
  (c, Send (ReqUpdate (uns_GetNamespace u) u)) ∈ flat_map effects (managed_Update clientAccessor fr c o) ->
  cl_Update client (uns_GetNamespace u) u = inl o' ->
  versionMap (run (managed_Update clientAccessor fr c o) NewManagedDispatcher) !! c = Some (ObjectVersion o').
Proof.
  intros Hc Hu Hsent Ho. revert Hsent. unfold managed_Update, clusterOperation. rewrite Hc. unfold updateFunc. rewrite Hu.
  destruct (IsExplicitlyUnmanaged o); [cbn; set_solver|].
  destruct (VersionForCluster fr c) as [v|]; [|cbn; set_solver].
  destruct (ObjectNeedsUpdate u o v); [|cbn; set_solver].
  rewrite Ho. intros _. cbn. by rewrite lookup_insert_eq.
Qed.

(** C8. Syncing settles: once a sync sent an update to a cluster, the cluster
    stored it and the version manager recorded what the dispatcher collected,
    the next sync of the unchanged resource, which finds that object in the
    cache, sends no request to the cluster and records the same version, unless
    computing the object fails; this needs overrides that leave the metadata
    alone. *)
Theorem sync_settles clientAccessor client m m' w sel vm r c o u o' :
  clientAccessor c = inl client ->
  metadata_kept r -> overrides_frame r c -> no_comma_keys r c -> names_once m ->
  let sync := managed_Update clientAccessor (for_dispatch m r) c o in
  desiredObject (for_dispatch m r) c o = Returns (inl u) ->
  (c, Send (ReqUpdate (uns_GetNamespace u) u)) ∈ flat_map effects sync ->
  cl_Update client (uns_GetNamespace u) u = inl o' -> stored_as u o' ->
  vm !! c = versionMap (run sync NewManagedDispatcher) !! c ->
  updateCache m (versioned r) sel vm = inl (m', w) ->
  (exists u', desiredObject (for_dispatch m' r) c o' = Returns (inl u')) ->
  managed_Update clientAccessor (for_dispatch m' r) c o' =
    [Eff c (RecordStatus UpdateTimedOut); Go [Eff c (RecordVersion (ObjectVersion o')); Finish true]].
Proof.
  intros Hcl Hr Hf Hnc Honce sync Hu Hsent Hstored [Sn Sl Sa [Sk1 Sk2]] Hvm Hup [u' Hu'].
  unfold sync in Hvm. erewrite update_recorded in Hvm by done. clear sync Hsent Hstored.
  destruct (desiredObject_propagates m r c o u Hr Hf Hu) as (d & x & [Hd (u0 & E0 & Dn & Da & Dl)] & Hx & Hm).
  destruct (desiredObject_propagates m' r c o' u' Hr Hf Hu') as (d' & x' & [Hd' (u0' & E0' & Dn' & Da' & Dl')] & Hx' & Hm').
  rewrite E0 in E0'. injection E0' as <-.
  assert (HasManagedLabel u = true) as Hlab by by eapply desiredObject_labelled.
  (* the stored object carries what is propagated *)
  assert (metadata_ok (recordPropagatedLabelsAndAnnotations d) = true) as Hrec
    by (unfold recordPropagatedLabelsAndAnnotations; by apply metadata_ok_SetAnnotations).
  pose proof (retained_meta _ _ _ _ Hrec Hx) as (_ & Xl & Xa & _ & Xn & Xns).
  apply same_meta_fields in Hm as (Mn & Ma & Ml).
  assert (Hrecl : forall y, metadata_ok y = true -> uns_GetLabels (recordPropagatedLabelsAndAnnotations y) = uns_GetLabels y /\
    names (recordPropagatedLabelsAndAnnotations y) = names y).
  { intros y Hy. unfold recordPropagatedLabelsAndAnnotations, names, uns_GetName, uns_GetNamespace, uns_GetLabels.
    by rewrite (ms_meta _ _ _ (Meta_SetAnnotations _)). }
  assert (Hreca : uns_GetAnnotations (recordPropagatedLabelsAndAnnotations d') = uns_GetAnnotations (recordPropagatedLabelsAndAnnotations d)).
  { unfold recordPropagatedLabelsAndAnnotations. rewrite !GetAnnotations_SetAnnotations by done. congruence. }
  assert (ObjectMetaObjEquivalent u' o' = true) as Hequiv.
  { rewrite (ObjectMetaObjEquivalent_ext _ _ _ Hm').
    assert (names d' = names o') as [= Hn1 Hn2].
    { rewrite Dn', <- Dn, Sn, Mn. destruct (Hrecl d Hd) as [_ <-]. unfold names. congruence. }
    destruct (Hnc _ E0) as [Nl Na].
    eapply retain_same_metadata; [exact Hd'| | |exact Hn1|exact Hn2|exact Sk1|exact Sk2| | |exact Hx'].
    - rewrite Dl'. intros k Hk. destruct (decide (k = ManagedByKubeAdmiralLabelKey)) as [->|Hne]; [done|].
      rewrite lookup_insert_ne in Hk by done. by apply Nl.
    - by rewrite Da'.
    - rewrite Sl, Ml, Xl, Dl', <- Dl. destruct (Hrecl d Hd) as [<- _]. apply mergeStringMaps_subset.
    - rewrite Sa, Ma, Xa, Hreca. apply mergeStringMaps_subset. }
  (* and the version is the recorded one *)
  assert (res_VersionForCluster m' r c = inl (ObjectVersion o')) as Hver.
  { unfold res_VersionForCluster. destruct (vm_Get m (versioned r)) as [old|] eqn:Eg.
    - destruct (updateCache_Get _ _ _ _ _ _ _ Honce Eg Hup) as [_ (new & -> & Hnew)]. rewrite Hnew, Hvm. unfold nonempty.
      destruct (String.eqb_spec (ObjectVersion o') "") as [He|]; [by apply ObjectVersion_nonempty in He|done].
    - unfold updateCache in Hup. unfold vm_Get in Eg. destruct (vr_TemplateVersion _); [|done].
      destruct (vr_OverrideVersion _); [|done]. destruct (versions m !! _); [|done]. revert Eg. clear. by case_match. }
  unfold managed_Update, clusterOperation. rewrite Hcl. unfold updateFunc.
  replace (IsExplicitlyUnmanaged o') with false.
  2: { symmetry. unfold IsExplicitlyUnmanaged, HasManagedLabel in *. rewrite Sl.
       apply String.eqb_eq in Hlab. by rewrite Hlab. }
  rewrite Hu'. cbn [for_dispatch VersionForCluster]. rewrite Hver. unfold ObjectNeedsUpdate.
  by rewrite String.eqb_refl, Hequiv, andb_false_r.
Qed.
End Settles.

(** ** Concrete inputs *)

(** Patches change nothing, and every object marshals to the same document. *)
Definition small_patches : PatchCodecs := {|
  Patch := unit;
  Marshal_OverridePatches := fun _ => inl ""%string;
  DecodePatch := fun _ => inl tt;
  Patch_Apply := fun _ doc => inl doc;
  uns_MarshalJSON := fun _ => inl "3"%string;
  Marshal_Overrides := fun _ => inl "[]"%string;
  md5_hex := fun doc => doc
|}.

Definition small_adoption : AdoptionCodecs := {|
  Unmarshal_clustersToAdopt := unsupported;
  Regexp_Compile := fun _ => inr "unsupported"%string
|}.

Definition configmaps : FederatedTypeConfig := {|
  ftc_Name := "configmaps";
  SourceType := {| ar_Group := ""; ar_Version := "v1"; ar_Kind := "ConfigMap"; ar_PluralName := "configmaps";
                   ar_Scope := "Namespaced" |};
  ReplicasSpec := ""; ReplicasStatus := "status.replicas"; ReadyReplicasStatus := "status.readyReplicas";
  AutoMigrationEnabled := true; ftc_Annotations := ∅; StatusAggregationEnabled := false; StatusCollection := None;
  Controllers := [["scheduler"]; ["override"; "follower"]]%string
|}.

Definition fed_cfg (overrides : list OverrideWithController) (placements : list string) : FederatedObject := {|
  fo_Namespace := "default"; fo_Name := "cfg-configmaps"; fo_Labels := ∅; fo_Annotations := ∅; fo_OwnerReferences := []; fo_Generation := 1;
  fo_DeletionTimestamp := None; fo_Finalizers := [];
  fo_Spec := {| Template := "3"; Overrides := overrides; Follows := [];
    Placements := [ {| pwc_Controller := "scheduler"; Placement := (fun n => {| cref_Cluster := n |}) <$> placements |} ] |};
  fo_Status := empty_status
|}.

Definition resource_cfg (overrides : list OverrideWithController) (placements : list string) : federatedResource := {|
  typeConfig := configmaps;
  federatedName := {| qn_Namespace := "default"; qn_Name := "cfg-configmaps" |};
  targetName := {| qn_Namespace := "default"; qn_Name := "cfg" |};
  federatedObject := fed_cfg overrides placements;
  template := new_cm
|}.

Section Witnesses.
#[local] Existing Instance small_kubernetes.
#[local] Existing Instance small_runtime.
#[local] Existing Instance small_codecs.
#[local] Existing Instance small_patches.
#[local] Existing Instance small_adoption.

Definition patchOf (path : string) : OverridePatch := {| Op := "replace"; Path := path; op_Value := "1" |}.
Definition overrideOf (controller path : string) : OverrideWithController :=
  {| owc_Controller := controller; Override := [ {| crp_Cluster := "a"; Patches := [patchOf path] |} ] |}.

(** The scheduler comes first, a controller that is not listed last. *)
Lemma overridesForCluster_spec_witness :
  overridesForCluster configmaps
    (fed_cfg [overrideOf "other" "/x"; overrideOf "override" "/y"; overrideOf "scheduler" "/z"]%string []) "a" =
    Some [patchOf "/z"; patchOf "/y"; patchOf "/x"] /\
  exists sorted, sorted ≡ₚ [overrideOf "other" "/x"; overrideOf "scheduler" "/z"]%string /\
    overridesForCluster configmaps (fed_cfg [overrideOf "other" "/x"; overrideOf "scheduler" "/z"]%string []) "a" =
      (if bool_decide (flat_map (patchesIn "a") sorted = []) then None else Some (flat_map (patchesIn "a") sorted)).
Proof.
  split; [vm_compute; reflexivity|].
  destruct (overridesForCluster_spec configmaps (fed_cfg [overrideOf "other" "/x"; overrideOf "scheduler" "/z"]%string []) "a")
    as (sorted & H1 & H2 & _); [|by exists sorted].
  apply (bool_decide_eq_true_1 _). vm_compute. reflexivity.
Defined.

Lemma metadata_kept_cfg placements : metadata_kept (resource_cfg [] placements).
Proof. split; [reflexivity|by intros c patches u u' H|done]. Qed.

(** The client of a cluster that stores what it is sent. *)
Definition storing_client : Client := {|
  cl_Get := fun _ _ => inr NotFound; cl_Create := fun _ o => inl o; cl_Update := fun _ o => inl o;
  cl_Delete := fun _ _ => None; cl_List := fun _ => inl []
|}.

Definition empty_manager : VersionManager := {| hasSynced := true; versions := ∅ |}.

Definition recorded_versions (r : federatedResource) : gmap string string :=
  versionMap (run (managed_Update (fun _ => inl storing_client) (for_dispatch empty_manager r) "a" cluster_cm) NewManagedDispatcher).

Lemma sync_settles_witness : exists u m' w,
  desiredObject (for_dispatch empty_manager (resource_cfg [] ["a"%string])) "a" cluster_cm = Returns (inl u) /\
  updateCache empty_manager (versioned (resource_cfg [] ["a"%string])) ["a"%string] (recorded_versions (resource_cfg [] ["a"%string])) = inl (m', w) /\
  managed_Update (fun _ => inl storing_client) (for_dispatch m' (resource_cfg [] ["a"%string])) "a" u =
    [Eff "a" (RecordStatus UpdateTimedOut); Go [Eff "a" (RecordVersion (ObjectVersion u)); Finish true]].
Proof.
  set (r := resource_cfg [] ["a"%string]).
  destruct (desiredObject (for_dispatch empty_manager r) "a" cluster_cm) as [[u|]| |] eqn:Eu; [|vm_compute in Eu; done..].
  destruct (updateCache empty_manager (versioned r) ["a"%string] (recorded_versions r)) as [[m' w]|] eqn:Em;
    [|vm_compute in Em; done].
  exists u, m', w. split_and!; [done..|].
  assert (u = match desiredObject (for_dispatch empty_manager r) "a" cluster_cm with Returns (inl x) => x | _ => u end)
    as Hu by by rewrite Eu.
  eapply (sync_settles (fun _ => inl storing_client) storing_client empty_manager m' w ["a"%string]
    (recorded_versions r) r "a" cluster_cm u u); [done|apply metadata_kept_cfg|done| | |exact Eu| |done| |done|exact Em|].
  - intros x [= <-]. split; apply no_commas_eval; vm_compute; reflexivity.
  - intros k o Hk. cbn [versions empty_manager] in Hk. by rewrite lookup_empty in Hk.
  - rewrite Hu. apply list_elem_of_In. vm_compute. auto.
  - rewrite Hu. split; [done..|]. split; vm_compute; reflexivity.
  - assert (exists u', desiredObject (for_dispatch m' r) "a" u = Returns (inl u')) as H; [|exact H].
    unfold for_dispatch at 1. rewrite Hu. eexists. vm_compute. reflexivity.
Defined.
End Witnesses.
