(* ===== verification/SyncTheorems.v ===== *)
(** * The sync controller: what is sent to the member clusters

    The programs of the operations are well-formed, so that every interleaving
    of a sync has one outcome, and their requests are those that the state of
    the cluster allows. *)

From Stdlib Require Import ZArith Lia String Ascii.
From S2P Require Import Prelude GoStrings K8s Types ApiTypes Unstructured Codecs FedObject SyncStatus Version.
From S2P Require Import MemberObjects Retain RetainTheorems Dispatch DispatchTheorems SyncResource SyncResourceTheorems.
From S2P Require Import Naming Sync.

(** ** What a program does: its clusters and its requests *)

Definition does (c : string) (P : Request -> Prop) (p : list Action) : Prop :=
  Forall (fun ce => ce.1 = c /\ match ce.2 with Send r => P r | _ => True end) (flat_map effects p).

Lemma does_app c P p q : does c P (p ++ q) <-> does c P p /\ does c P q.
Proof. unfold does. by rewrite flat_map_app, Forall_app. Qed.

Lemma does_nil c P : does c P [].
Proof. constructor. Qed.
Lemma does_eff c (P : Request -> Prop) e p :
  match e with Send r => P r | _ => True end -> does c P p -> does c P (Eff c e :: p).
Proof. intros He Hp. by constructor. Qed.
Lemma does_go c P body p : does c P body -> does c P p -> does c P (Go body :: p).
Proof. intros Hb Hp. unfold does. simpl. by apply Forall_app. Qed.
Lemma does_finish c P b p : does c P p -> does c P (Finish b :: p).
Proof. done. Qed.
Lemma does_crash c P p : does c P p -> does c P (Crash :: p).
Proof. done. Qed.

#[local] Hint Resolve does_nil does_eff does_go does_finish does_crash I : dispatch.

Lemma does_weaken c (P Q : Request -> Prop) p : (forall r, P r -> Q r) -> does c P p -> does c Q p.
Proof.
  intros HPQ Hp. eapply Forall_impl; [exact Hp|]. intros [c' e] [Hc He]. split; [done|]. destruct e; simpl in *; auto.
Qed.

Lemma does_clusters c P p c' : does c P p -> c' ∈ clusters p -> c' = c.
Proof.
  intros Hp (ce & -> & Hin)%list_elem_of_fmap. unfold does in Hp. rewrite Forall_forall in Hp. by apply Hp.
Qed.

(** The requests of a program, as the dispatcher records them. *)
Lemma sent_foldl es s : sent (foldl apply_effect s es) =
  sent s ++ omap (fun '(c, e) => match e with Send r => Some (c, r) | _ => None end) es.
Proof.
  revert s. induction es as [|[c e] es IH]; intros s; simpl; [by rewrite app_nil_r|].
  rewrite IH. destruct e; simpl; try done. by rewrite <- app_assoc.
Qed.

Lemma elem_of_sent c r p s : (c, r) ∈ sent (run p s) <-> (c, r) ∈ sent s \/ (c, Send r) ∈ flat_map effects p.
Proof.
  unfold run. rewrite sent_foldl, elem_of_app, list_elem_of_omap. split; (intros [H|H]; [by left|right]).
  - destruct H as ([c' e] & Hin & He). destruct e; simplify_eq. done.
  - by exists (c, Send r).
Qed.

Lemma flat_map_In {A B} (f : A -> list B) l y : y ∈ flat_map f l <-> exists x, x ∈ l /\ y ∈ f x.
Proof.
  rewrite list_elem_of_In, in_flat_map. split; intros (x & Hx & Hy); exists x;
    (split; [|by apply list_elem_of_In]); by apply list_elem_of_In.
Qed.

Lemma flat_map_flat_map {A B D} (f : A -> list B) (g : B -> list D) l :
  flat_map g (flat_map f l) = flat_map (fun x => flat_map g (f x)) l.
Proof. induction l as [|x l IH]; [done|]. simpl. by rewrite flat_map_app, IH. Qed.

(** ** The operations *)

Section Operations.
Context `{K : Kubernetes} `{R : GoRuntime} `{C : !Codecs} `{A : AdoptionCodecs}.
Variable clientAccessor : string -> Client + string.

(** Case analysis on the answers of the cluster, then the steps. *)
Ltac ops :=
  repeat first
    [ progress (auto with dispatch)
    | case_match
    | apply does_eff | apply does_go | apply does_finish | apply does_crash ].

Lemma recordOperationError_does c st P : does c P (recordOperationError c st).
Proof. unfold recordOperationError. ops. Qed.
Lemma operationError_does recorder c st P : does c P (operationError recorder c st).
Proof. unfold operationError, recordOperationError. ops. Qed.
#[local] Hint Resolve recordOperationError_does operationError_does : dispatch.

Lemma clusterOperation_does recorder c f P : (forall client, does c P (f client)) ->
  does c P (clusterOperation clientAccessor recorder c f).
Proof. intros Hf. unfold clusterOperation. ops. Qed.

Lemma clusterOperation_wf recorder c f : (forall client, existsb crashes (f client) = false -> wf false (f client)) ->
  existsb crashes (clusterOperation clientAccessor recorder c f) = false ->
  wf false (clusterOperation clientAccessor recorder c f).
Proof.
  intros Hf. unfold clusterOperation, operationError, recordOperationError.
  destruct (clientAccessor c); [by apply Hf|]. intros _. destruct recorder; repeat constructor.
Qed.

(** The requests of a deletion of an object. *)
Definition deletion_request (targetName : QualifiedName) (clusterObj : Unstructured) (r : Request) : Prop :=
  match r with
  | ReqDelete ns name => ns = qn_Namespace targetName /\ name = qn_Name targetName
  | ReqUpdate ns obj => ns = qn_Namespace targetName /\ obj = (removeRetainObjectFinalizer clusterObj).1
  | _ => False
  end.

Lemma unmanaged_Delete_does recorder t c o :
  does c (deletion_request t o) (unmanaged_Delete clientAccessor recorder t c o).
Proof.
  apply does_go; [|apply does_nil]. apply clusterOperation_does. intros client.
  unfold deleteFunc, deleteObject. destruct (removeRetainObjectFinalizer o) as [o' changed] eqn:E.
  assert (deletion_request t o (ReqUpdate (qn_Namespace t) o')) by by simpl; rewrite E.
  assert (deletion_request t o (ReqDelete (qn_Namespace t) (qn_Name t))) by done. ops.
Qed.

Lemma wf_error recorder c st : wf false (operationError recorder c st).
Proof. unfold operationError, recordOperationError. destruct recorder; repeat constructor. Qed.
Lemma wf_recorded c st : wf false (recordOperationError c st).
Proof. repeat constructor. Qed.
#[local] Hint Constructors wf : dispatch.
#[local] Hint Resolve wf_error wf_recorded : dispatch.

Ltac wfs := repeat first [ progress (auto with dispatch) | done | case_match | apply wf_eff ].

Lemma deleteFunc_wf recorder t c o client :
  existsb crashes (deleteFunc recorder t c o client) = false -> wf false (deleteFunc recorder t c o client).
Proof. unfold deleteFunc, deleteObject. destruct (removeRetainObjectFinalizer o) as [o' []]; wfs. Qed.

(** A program that starts one operation. *)
Lemma wf_one body : (existsb crashes body = false -> wf false body) ->
  existsb crashes [Go body] = false -> wf true [Go body].
Proof.
  intros Hb Hc. simpl in Hc. rewrite orb_false_r in Hc. apply wf_go; [by apply Hb|constructor|].
  intros c _. apply not_elem_of_nil.
Qed.

Lemma unmanaged_Delete_wf recorder t c o : existsb crashes (unmanaged_Delete clientAccessor recorder t c o) = false ->
  wf true (unmanaged_Delete clientAccessor recorder t c o).
Proof. apply wf_one, clusterOperation_wf. intros. by apply deleteFunc_wf. Qed.

Lemma unmanaged_RemoveManagedLabel_wf recorder c o :
  existsb crashes (unmanaged_RemoveManagedLabel clientAccessor recorder c o) = false ->
  wf true (unmanaged_RemoveManagedLabel clientAccessor recorder c o).
Proof. apply wf_one, clusterOperation_wf. intros client _. unfold removeLabelFunc. wfs. Qed.

Lemma unmanaged_RemoveManagedLabel_does recorder c o :
  does c (fun r => r = ReqUpdate (uns_GetNamespace o) (removeRetainObjectFinalizer (RemoveManagedLabel o)).1)
    (unmanaged_RemoveManagedLabel clientAccessor recorder c o).
Proof. apply does_go; [|apply does_nil]. apply clusterOperation_does. intros client. unfold removeLabelFunc. ops. Qed.

Variable fedResource : FederatedResourceForDispatch.
Variable skipAdoptingResources : bool.

Lemma updateFunc_wf c o client : existsb crashes (updateFunc fedResource c o client) = false ->
  wf false (updateFunc fedResource c o client).
Proof. unfold updateFunc. wfs. Qed.

Lemma managed_Update_wf c o : existsb crashes (managed_Update clientAccessor fedResource c o) = false ->
  wf true (managed_Update clientAccessor fedResource c o).
Proof. intros H. apply wf_eff. revert H. apply wf_one, clusterOperation_wf. intros. by apply updateFunc_wf. Qed.

Lemma existsb_app_false {T} (f : T -> bool) l l' : existsb f (l ++ l') = false ->
  existsb f l = false /\ existsb f l' = false.
Proof. rewrite existsb_app. apply orb_false_iff. Qed.

Lemma adoptObject_wf c client obj recheck :
  existsb crashes (adoptObject clientAccessor fedResource skipAdoptingResources c client obj recheck) = false ->
  wf false (adoptObject clientAccessor fedResource skipAdoptingResources c client obj recheck).
Proof.
  unfold adoptObject. intros H. apply wf_eff. revert H. cbn [existsb crashes orb].
  destruct (cl_Get client _ _) as [o|]; [|wfs]. destruct (FilterToAdoptCluster _ _) as [canAdopt|]; [|wfs].
  destruct (_ || _); [wfs|]. set (o' := if negb (HasManagedLabel o) then _ else o).
  intros [H _]%existsb_app_false. unfold managed_Update in *. simpl app. apply wf_eff. apply wf_go; [|constructor|].
  - simpl in H. rewrite orb_false_r in H. revert H. apply clusterOperation_wf. intros. by apply updateFunc_wf.
  - intros x _. apply not_elem_of_nil.
Qed.

Lemma createFunc_wf c client :
  existsb crashes (createFunc clientAccessor fedResource skipAdoptingResources c client) = false ->
  wf false (createFunc clientAccessor fedResource skipAdoptingResources c client).
Proof.
  unfold createFunc. destruct (ObjectForCluster _ _) as [o|]; [|wfs]. destruct (ApplyOverrides _ _ _) as [o'|]; [|wfs].
  intros H. apply wf_eff. revert H. cbn [existsb crashes orb]. destruct (cl_Create client _ _); [wfs|].
  destruct (needsExistenceRecheck _ _); [|wfs]. apply adoptObject_wf.
Qed.

Lemma managed_Create_wf c :
  existsb crashes (managed_Create clientAccessor fedResource skipAdoptingResources c) = false ->
  wf true (managed_Create clientAccessor fedResource skipAdoptingResources c).
Proof. intros H. apply wf_eff. revert H. apply wf_one, clusterOperation_wf. intros. by apply createFunc_wf. Qed.

(** The requests that bring an object in line: they write objects with [P]. *)
Definition sync_request (P : Unstructured -> Prop) (r : Request) : Prop :=
  match r with
  | ReqCreate _ obj | ReqUpdate _ obj => P obj
  | ReqGet _ _ => True
  | ReqDelete _ _ => False
  end.

Lemma managed_Update_does (P : Unstructured -> Prop) c o :
  (forall o u, desiredObject fedResource c o = Returns (inl u) -> P u) ->
  does c (sync_request P) (managed_Update clientAccessor fedResource c o).
Proof.
  intros HP. apply does_eff; [done|]. apply does_go; [|apply does_nil]. apply clusterOperation_does. intros client.
  unfold updateFunc. destruct (IsExplicitlyUnmanaged o); [ops|].
  destruct (desiredObject fedResource c o) as [[u|]| |] eqn:E; [|ops..].
  assert (sync_request P (ReqUpdate (uns_GetNamespace u) u)) by by apply (HP o). ops.
Qed.

Lemma managed_Create_does (P : Unstructured -> Prop) c :
  (forall o u, ObjectForCluster fedResource c = inl o -> ApplyOverrides fedResource (uns_SetFinalizers [] o) c = inl u ->
     P (recordPropagatedLabelsAndAnnotations u)) ->
  (forall o u, desiredObject fedResource c o = Returns (inl u) -> P u) ->
  does c (sync_request P) (managed_Create clientAccessor fedResource skipAdoptingResources c).
Proof.
  intros HC HP. apply does_eff; [done|]. apply does_go; [|apply does_nil]. apply clusterOperation_does. intros client.
  unfold createFunc. destruct (ObjectForCluster fedResource c) as [o|] eqn:Eo; [|ops].
  destruct (ApplyOverrides fedResource _ c) as [u|] eqn:Eu; [|ops].
  apply does_eff; [by apply (HC o u)|]. destruct (cl_Create client _ _); [ops|].
  destruct (needsExistenceRecheck _ _); [|ops]. unfold adoptObject. apply does_eff; [done|].
  destruct (cl_Get client _ _); [|ops]. destruct (FilterToAdoptCluster _ _) as [canAdopt|]; [|ops].
  destruct (_ || _); [ops|]. apply does_app. split; [by apply managed_Update_does|ops].
Qed.
End Operations.

(** ** One cluster of a sync *)

Section SyncCluster.
Context `{K : Kubernetes} `{R : GoRuntime} `{C : !Codecs} `{A : AdoptionCodecs} `{P : PatchCodecs}.
Variable s : SyncController.

(** The cluster is to have the object, and can be written to. *)
Record syncable (selected : gset string) (cluster : FederatedCluster) : Prop := {
  sy_selected : c_Name cluster ∈ selected;
  sy_ready : IsClusterReady (Status cluster) = true;
  sy_alive : c_DeletionTimestamp cluster = None;
  sy_finalizer : FinalizerCascadingDelete ∈ c_Finalizers cluster
}.

(** The cluster is not to have the object, and has it. *)
Record removable (r : federatedResource) (selected : gset string) (cluster : FederatedCluster) (o : Unstructured) : Prop := {
  re_selected : c_Name cluster ∉ selected;
  re_ready : IsClusterReady (Status cluster) = true;
  re_alive : c_DeletionTimestamp cluster = None;
  re_cached : GetClusterObject s (c_Name cluster) (targetName r) (res_TargetGVK r) = inl (Some o);
  re_derived : IsDerivedService (fo_Annotations (federatedObject r)) = IsDerivedService (uns_GetAnnotations o);
  re_deleted : uns_GetDeletionTimestamp o = None
}.

(** The requests that are sent to a cluster; [L] holds of the objects written. *)
Definition allowed (L : Unstructured -> Prop) (r : federatedResource) (selected : gset string)
    (cluster : FederatedCluster) (q : Request) : Prop :=
  (syncable selected cluster /\ sync_request L q) \/
  (exists o, removable r selected cluster o /\ deletion_request (targetName r) o q).

Lemma None_of_bool {T} (x : option T) : bool_decide (is_Some x) = false -> x = None.
Proof. intros H%bool_decide_eq_false. destruct x; [|done]. by destruct H. Qed.

Lemma matchingObject_Some f x o : matchingObject f x = Some o ->
  x = Some o /\ IsDerivedService (fo_Annotations f) = IsDerivedService (uns_GetAnnotations o).
Proof.
  unfold matchingObject. destruct x as [o'|]; [|done].
  destruct (eqb _ _) eqn:E; [|done]. intros [= <-]. by apply eqb_prop in E.
Qed.

Lemma syncCluster_does (L : Unstructured -> Prop) m r selected cluster :
  (forall o u, ObjectForCluster (for_dispatch m r) (c_Name cluster) = inl o ->
     ApplyOverrides (for_dispatch m r) (uns_SetFinalizers [] o) (c_Name cluster) = inl u ->
     L (recordPropagatedLabelsAndAnnotations u)) ->
  (forall o u, desiredObject (for_dispatch m r) (c_Name cluster) o = Returns (inl u) -> L u) ->
  does (c_Name cluster) (allowed L r selected cluster) (syncCluster s m r selected cluster).1.
Proof.
  intros HC HU. unfold syncCluster, RecordStatusOf.
  assert (forall st, does (c_Name cluster) (allowed L r selected cluster) [Eff (c_Name cluster) (RecordStatus st)]) as Hst.
  { intros st. by apply does_eff; [|apply does_nil]. }
  destruct (IsClusterReady (Status cluster)) eqn:Er; cbn [negb]; [|case_match; [apply Hst|apply does_nil]].
  destruct (GetClusterObject s _ _ _) as [x|] eqn:Ex; [|apply Hst].
  destruct (bool_decide (is_Some (c_DeletionTimestamp cluster))) eqn:Et; cbn [andb].
  - destruct (IsCascadingDeleteEnabled cluster); cbn [negb andb].
    + destruct (matchingObject _ x) as [o|]; [|apply does_nil]. case_match; [apply Hst|apply does_nil].
    + destruct (bool_decide (_ ∈ selected)); cbn [negb]; [apply Hst|]. destruct (matchingObject _ x) as [o|]; [|apply does_nil].
      case_match; [apply Hst|apply does_nil].
  - apply None_of_bool in Et. destruct (bool_decide (_ ∈ selected)) eqn:Hsel; cbn [negb];
      [apply bool_decide_eq_true in Hsel|apply bool_decide_eq_false in Hsel].
    + destruct (HasFinalizer _ _) eqn:Ef; cbn [negb]; [|apply Hst].
      assert (syncable selected cluster) as Hsy.
      { split; [done..|]. unfold HasFinalizer in Ef. apply bool_decide_eq_true in Ef. by apply elem_of_list_to_set in Ef. }
      apply (does_weaken _ (sync_request L)); [by intros q Hq; left|].
      destruct (matchingObject _ x) as [o|].
      * by apply managed_Update_does.
      * by apply managed_Create_does.
    + destruct (matchingObject _ x) as [o|] eqn:Em; [|apply does_nil]. apply matchingObject_Some in Em as [-> Hd].
      destruct (bool_decide (is_Some (uns_GetDeletionTimestamp o))) eqn:Edel; [apply Hst|].
      apply None_of_bool in Edel. cbn [andb fst]. unfold removeFromCluster, managedDispatcher. cbn [negb d_Delete].
      apply (does_weaken _ (deletion_request (targetName r) o)); [by intros q Hq; right; exists o|].
      unfold managed_Delete. apply does_eff; [done|]. cbn [for_dispatch TargetName]. apply unmanaged_Delete_does.
Qed.

Lemma syncCluster_wf m r selected cluster : existsb crashes (syncCluster s m r selected cluster).1 = false ->
  wf true (syncCluster s m r selected cluster).1.
Proof.
  unfold syncCluster, RecordStatusOf, removeFromCluster, managedDispatcher, managed_Delete, managed_RemoveManagedLabel.
  cbn [d_Delete d_RemoveManagedLabel].
  repeat first
    [ solve [intros _; repeat constructor]
    | case_match; cbn [fst]
    | apply managed_Update_wf | apply managed_Create_wf
    | intros H'; apply wf_eff; revert H'; cbn [existsb crashes orb];
      first [apply unmanaged_Delete_wf | apply unmanaged_RemoveManagedLabel_wf] ].
Qed.

(** Programs of different clusters, one after the other. *)
Lemma wf_app p q : wf true p -> wf true q -> (forall c, c ∈ clusters p -> c ∉ clusters q) -> wf true (p ++ q).
Proof.
  intros Hp. remember true as m. induction Hp as [| |m c e p Hp IH|m body p Hb IHb Hp IH Hd]; subst; [done|done|..];
    intros Hq Hpq; simpl.
  - apply wf_eff. apply IH; [done..|]. intros c' Hc'. apply Hpq. rewrite clusters_eff. by right.
  - apply wf_go; [done|..].
    + apply IH; [done..|]. intros c' Hc'. apply Hpq. rewrite clusters_go. apply elem_of_app. by right.
    + intros c Hc. unfold clusters. rewrite flat_map_app, fmap_app, not_elem_of_app. split; [by apply Hd|].
      apply Hpq. rewrite clusters_go. apply elem_of_app. by left.
Qed.

Lemma syncProgram_does m r selected cs c q : metadata_kept r ->
  (c, Send q) ∈ flat_map effects (syncProgram s m r selected cs) ->
  exists cluster, cluster ∈ cs /\ c_Name cluster = c /\ allowed (fun u => HasManagedLabel u = true) r selected cluster q.
Proof.
  intros Hr. unfold syncProgram. rewrite flat_map_flat_map. intros (cluster & Hin & Hq)%flat_map_In.
  exists cluster. pose proof (syncCluster_does (fun u => HasManagedLabel u = true) m r selected cluster) as Hd.
  unfold does in Hd. rewrite Forall_forall in Hd. edestruct Hd as [Hc Hal]; [..|exact Hq|done].
  - intros o u. by apply created_labelled.
  - intros o u. by apply desiredObject_labelled.
Qed.

Lemma syncCluster_clusters m r selected cluster c : c ∈ clusters (syncCluster s m r selected cluster).1 ->
  c = c_Name cluster.
Proof. eapply does_clusters, (syncCluster_does (fun _ => True)); done. Qed.

Lemma syncProgram_wf m r selected cs : NoDup (c_Name <$> cs) ->
  existsb crashes (syncProgram s m r selected cs) = false -> wf true (syncProgram s m r selected cs).
Proof.
  induction cs as [|cluster cs IH]; [constructor|]. simpl. intros [Hnin Hnd]%NoDup_cons [H1 H2]%existsb_app_false.
  apply wf_app; [by apply syncCluster_wf|by apply IH|].
  intros c ->%syncCluster_clusters (ce & Hc & Hin)%list_elem_of_fmap. unfold syncProgram in Hin.
  rewrite flat_map_flat_map in Hin. apply flat_map_In in Hin as (cl & Hcl & Hin). apply Hnin, list_elem_of_fmap.
  exists cl. split; [|done]. rewrite Hc. apply (syncCluster_clusters m r selected cl). apply list_elem_of_fmap. by exists ce.
Qed.

(** C3. However the goroutines of a sync interleave, the sync of clusters with
    different names, unless an operation follows a nil pointer, ends: no
    execution takes more steps than the program has actions, none gets stuck,
    and when [Wait] returns every operation is done, its result is the
    conjunction of theirs, and each cluster got the requests, the status and the
    version that running the operations one after the other gives. *)
Theorem sync_deterministic m r selected cs d :
  NoDup (c_Name <$> cs) -> existsb crashes (syncProgram s m r selected cs) = false ->
  let program := syncProgram s m r selected cs in
  (forall n x, nsteps dstep n (dinit program d) x -> (n <= program_size program)%nat) /\
  (forall x, rtc dstep (dinit program d) x ->
     (waited x \/ exists y, dstep x y) /\
     (waited x -> threads x = [] /\ wait_ok x = run_ok program /\
        (forall c, view c (dstate x) = view c (run program d)) /\
        resourcesUpdated (dstate x) = resourcesUpdated (run program d))).
Proof. intros Hnd Hc. by apply dispatch_confluent, syncProgram_wf. Qed.
End SyncCluster.

(** ** Concrete inputs *)

Section Witnesses.
#[local] Existing Instance small_kubernetes.
#[local] Existing Instance small_runtime.
#[local] Existing Instance small_codecs.
#[local] Existing Instance small_patches.
#[local] Existing Instance small_adoption.

Definition sync_cluster (name : string) (deleted : option Time) : FederatedCluster := {|
  c_Name := name; c_Labels := ∅; c_Annotations := {[AnnotationCascadingDelete := ""%string]};
  c_Finalizers := [FinalizerCascadingDelete]; c_DeletionTimestamp := deleted; Taints := [];
  Status := {| Conditions := [ {| cc_Type := ClusterJoined; cc_Status := "True" |};
                               {| cc_Type := ClusterReadyCondition; cc_Status := "True" |} ];
               st_Resources := {| SchedulableNodes := None; Allocatable := ∅; Available := ∅ |};
               APIResourceTypes := []; JoinPerformed := true |}
|}.

(** Clusters [a] and [b], whose objects are those of [cached]. *)
Definition sync_controller (cached : string -> option Unstructured) (deleted : option Time) : SyncController := {|
  sc_FederatedObject := fun ns n =>
    if String.eqb n "cfg-configmaps" then inl (fed_cfg [] ["a"%string]) else inr NotFound;
  sc_ClusterFederatedObject := fun n =>
    if String.eqb n "cfg-configmaps" then inl (fed_cfg [] ["a"%string]) else inr NotFound;
  sc_ListFederatedObjects := inl [fed_cfg [] ["a"%string]];
  sc_ListClusterFederatedObjects := inl [];
  sc_JoinedClusters := inl [sync_cluster "a" deleted; sync_cluster "b" deleted];
  sc_ClusterLister := fun n => inl (sync_cluster n deleted);
  sc_ResourceFTC := fun _ => Some configmaps;
  sc_ListFTCs := inl [configmaps];
  sc_ResourceLister := fun _ c => Some {|
    rl_HasSynced := true;
    rl_Get := fun _ => match cached c with Some o => inl o | None => inr NotFound end;
    rl_List := inl (match cached c with Some o => [o] | None => [] end) |};
  sc_DynamicClient := fun _ => Some (fun _ => storing_client);
  sc_fedNamespace := "kube-admiral-system"
|}.

(** [a] is selected and has no object; [b] is not selected and has one. *)
Definition cached_in_b (c : string) : option Unstructured := if String.eqb c "b" then Some cluster_cm else None.

Lemma sync_deterministic_witness :
  let program := syncProgram (sync_controller cached_in_b None) empty_manager (resource_cfg [] ["a"%string]) {["a"%string]}
    [sync_cluster "a" None; sync_cluster "b" None] in
  program_size program = 9%nat /\
  forall x, rtc dstep (dinit program NewManagedDispatcher) x -> waited x ->
    wait_ok x = true /\ length (view "a" (dstate x)).2 = 1%nat /\ length (view "b" (dstate x)).2 = 1%nat.
Proof.
  intros program. split; [vm_compute; reflexivity|]. intros x Hx Hw.
  destruct (sync_deterministic (sync_controller cached_in_b None) empty_manager (resource_cfg [] ["a"%string]) {["a"%string]}
    [sync_cluster "a" None; sync_cluster "b" None] NewManagedDispatcher) as [_ H];
    [apply (bool_decide_eq_true_1 _); vm_compute; reflexivity|vm_compute; reflexivity|].
  destruct (H x Hx) as [_ H']. destruct (H' Hw) as (_ & -> & Hv & _). rewrite !Hv. vm_compute. done.
Defined.
End Witnesses.
