(* ===== verification/SyncReconcileTheorems.v ===== *)
(** * The sync controller: safety of a reconciliation

    What the API server of the host promises, and on it: a sync writes only
    where it may, records a cluster before it creates anything there, and gives
    up the finalizer only when nothing is left to delete. *)

From Stdlib Require Import ZArith Lia String Ascii.
From S2P Require Import Prelude GoStrings K8s Types ApiTypes Unstructured Codecs FedObject SyncStatus Version.
From S2P Require Import MemberObjects Retain RetainTheorems Dispatch DispatchTheorems SyncResource SyncResourceTheorems.
From S2P Require Import Naming Sync SyncTheorems.

(** What the server stores, and that a status that was written is stored and
    returned; the status is all that [UpdateStatus] changes. *)
Class SyncServerLaws (W : Type) `{SS : SyncServer W} := {
  fed_store : W -> string -> string -> option FederatedObject;
  fed_UpdateStatus_law : forall w o w' o', fed_UpdateStatus w o = (w', inl o') ->
    fed_store w' (fo_Namespace o) (fo_Name o) = Some o' /\ fo_Status o' = fo_Status o /\
    fo_Namespace o' = fo_Namespace o /\ fo_Name o' = fo_Name o;
  fed_Get_law : forall w ns n o, fed_Get w ns n = inl o -> fo_Namespace o = ns /\ fo_Name o = n
}.

Section Reconcile.
Context `{K : Kubernetes} `{R : GoRuntime} `{C : !Codecs} `{A : AdoptionCodecs} `{P : PatchCodecs}.
Context {W : Type} `{SS : !SyncServer W} `{VS : !VersionServer W}.
Variables (s : SyncController) (now : Time) (rounds : nat).

Lemma requests_set_world (st : SyncState (W := W)) w : requests (set_world st w) = requests st.
Proof. done. Qed.
Lemma requests_set_manager (st : SyncState (W := W)) r m : requests (set_manager st r m) = requests st.
Proof. unfold set_manager. by destruct (GetNamespaced _). Qed.
Lemma world_set_manager (st : SyncState (W := W)) r m : world (set_manager st r m) = world st.
Proof. unfold set_manager. by destruct (GetNamespaced _). Qed.

Lemma setFederatedStatus_requests (st : SyncState (W := W)) r reason c :
  requests (setFederatedStatus now rounds st r reason c).1 = requests st.
Proof. unfold setFederatedStatus, pollStatusOf. by destruct (pollUpdateStatus _ _ _ _ _ _) as [w x]. Qed.

Lemma dispatch_Returns (st : SyncState (W := W)) p st' d ok : dispatch st p = Returns (st', d, ok) ->
  existsb crashes p = false /\ d = settle (run p NewManagedDispatcher) /\ ok = run_ok p /\
  st' = add_requests st (sent (run p NewManagedDispatcher)).
Proof. unfold dispatch. destruct (existsb crashes p); [done|]. by intros [= <- <- <-]. Qed.

Lemma dispatch_sent (st : SyncState (W := W)) p st' d ok c q : dispatch st p = Returns (st', d, ok) ->
  exists rs, requests st' = requests st ++ rs /\ ((c, q) ∈ rs <-> (c, Send q) ∈ flat_map effects p).
Proof.
  intros (_ & _ & _ & ->)%dispatch_Returns. eexists. split; [done|]. rewrite elem_of_sent. simpl.
  split; [|by right]. intros [H|H]; [by apply elem_of_nil in H|done].
Qed.

(** C2. A sync touches a member cluster only as its state allows: it writes the
    object, with the managed label, to a cluster of the sync that is selected,
    ready, not terminating and held by the cascading-delete finalizer; it
    removes the object from a cluster that is not selected, ready and not
    terminating, where the cache has the object and it is not being deleted. *)
Theorem sync_safe (st : SyncState (W := W)) r cs selected st' res :
  metadata_kept r -> syncToClusters s now rounds st r cs selected = Returns (st', res) ->
  exists rs, requests st' = requests st ++ rs /\ forall c q, (c, q) ∈ rs ->
    exists cluster, cluster ∈ cs /\ c_Name cluster = c /\
      allowed s (fun u => HasManagedLabel u = true) r selected cluster q.
Proof.
  intros Hr. unfold syncToClusters. rewrite may_panic_bind_Returns. intros ([[st1 d] ok] & Hd & H).
  destruct (dispatch_Returns _ _ _ _ _ Hd) as (_ & _ & _ & Hst1).
  exists (sent (run (syncProgram s (managerOf st r) r selected cs) NewManagedDispatcher)). split.
  - destruct (vm_Update _ _ _ _ _ _) as [w upd]. set (st2 := match upd with inl _ => _ | inr _ => _ end) in H.
    destruct (setFederatedStatus _ _ _ _ _ _) as [st3 res3] eqn:E. injection H as <- _.
    pose proof (setFederatedStatus_requests st2 r AggregateSuccess (Some (CollectedStatus d))) as Hreq.
    rewrite E in Hreq. simpl in Hreq. rewrite Hreq. unfold st2. rewrite Hst1.
    destruct upd as [[m' ?]|]; by rewrite ?requests_set_manager.
  - intros c q [Hin|Hin]%elem_of_sent; [by apply elem_of_nil in Hin|]. by eapply syncProgram_does.
Qed.

(** ** Write-ahead *)

Lemma clusterMapOf_lookup cs name cluster : clusterMapOf cs !! name = Some cluster ->
  cluster ∈ cs /\ c_Name cluster = name.
Proof.
  unfold clusterMapOf.
  assert (forall (acc : gmap string FederatedCluster), (forall n c, acc !! n = Some c -> c ∈ cs /\ c_Name c = n) ->
    forall l, (forall c, c ∈ l -> c ∈ cs) ->
    foldl (fun clusterMap cluster => <[c_Name cluster := cluster]> clusterMap) acc l !! name = Some cluster ->
    cluster ∈ cs /\ c_Name cluster = name) as H.
  { intros acc Hacc l. revert acc Hacc. induction l as [|c l IH]; intros acc Hacc Hl; simpl; [apply Hacc|].
    apply IH; [|intros; apply Hl; by right]. intros n c'. destruct (decide (c_Name c = n)) as [<-|Hne].
    - rewrite lookup_insert_eq. intros [= <-]. split; [apply Hl; left|done].
    - rewrite lookup_insert_ne by done. apply Hacc. }
  apply H; [|done]. intros n c Hn. by rewrite lookup_empty in Hn.
Qed.

Lemma clusterMapOf_is_Some cs cluster : cluster ∈ cs -> is_Some (clusterMapOf cs !! c_Name cluster).
Proof.
  unfold clusterMapOf.
  assert (forall (acc : gmap string FederatedCluster) l, is_Some (acc !! c_Name cluster) \/ cluster ∈ l ->
    is_Some (foldl (fun clusterMap cluster => <[c_Name cluster := cluster]> clusterMap) acc l !! c_Name cluster)) as H.
  { intros acc l. revert acc. induction l as [|c l IH]; intros acc; simpl.
    - intros [H|H]; [done|by apply elem_of_nil in H].
    - intros H. apply IH. destruct (decide (c_Name c = c_Name cluster)) as [->|Hne].
      + left. rewrite lookup_insert_eq. by eexists.
      + rewrite lookup_insert_ne by done. destruct H as [H|[->|H]%elem_of_cons]; [by left|done|by right]. }
  intros Hin. apply H. by right.
Qed.

Lemma clusterMapOf_NoDup cs cluster : NoDup (c_Name <$> cs) -> cluster ∈ cs ->
  clusterMapOf cs !! c_Name cluster = Some cluster.
Proof.
  intros Hnd Hin. destruct (clusterMapOf_is_Some cs cluster Hin) as [c' Hc'].
  destruct (clusterMapOf_lookup _ _ _ Hc') as [Hin' Hn]. rewrite Hc'. f_equal.
  apply list_elem_of_lookup in Hin as [i Hi]. apply list_elem_of_lookup in Hin' as [j Hj].
  assert (i = j) as ->; [|congruence].
  eapply (NoDup_lookup (c_Name <$> cs)); [done|by rewrite list_lookup_fmap, Hi|]. by rewrite list_lookup_fmap, Hj, <- Hn.
Qed.

Lemma elem_of_statusClusters m status cluster : cluster ∈ statusClusters m status <->
  exists p, p ∈ gs_Clusters status /\ m !! prs_Cluster p = Some cluster.
Proof. unfold statusClusters. by rewrite list_elem_of_omap. Qed.

Lemma elem_of_pendingCreateClusters selected status name :
  name ∈ pendingCreateClusters selected status <->
  name ∈ selected /\ name ∉ prs_Cluster <$> gs_Clusters status.
Proof.
  unfold pendingCreateClusters. revert selected. induction (gs_Clusters status) as [|p l IH]; intros selected; simpl.
  - set_solver.
  - rewrite IH, elem_of_cons, elem_of_difference, elem_of_singleton. tauto.
Qed.

Lemma elem_of_range_set x (y : gset string) : x ∈ range_set y <-> x ∈ y.
Proof.
  unfold range_set. rewrite elem_of_range_map_fst. split.
  - intros [[] H]. by apply lookup_gset_to_gmap_Some in H as [? _].
  - intros H. exists tt. by apply lookup_gset_to_gmap_Some.
Qed.

Lemma elem_of_newClusters m pending cluster :
  cluster ∈ newClusters m pending <->
  exists name, name ∈ pending /\ m !! name = Some cluster /\ c_DeletionTimestamp cluster = None.
Proof.
  unfold newClusters. rewrite list_elem_of_omap. split.
  - intros (name & Hin & H). exists name. apply elem_of_range_set in Hin. split; [done|].
    destruct (m !! name) as [c|]; [|done]. simpl in H. case_bool_decide as Hd; [done|]. injection H as <-.
    split; [done|]. destruct (c_DeletionTimestamp c); [|done]. by destruct Hd.
  - intros (name & Hin & Hm & Hd). exists name. split; [by apply elem_of_range_set|]. rewrite Hm. simpl.
    by rewrite Hd.
Qed.

(** ** Deletion *)

(** The object is gone from every joined cluster of the status. *)
Definition gone (r : federatedResource) : Prop :=
  exists joined, sc_JoinedClusters s = inl joined /\
    forall cluster, cluster ∈ statusClusters (clusterMapOf joined) (fo_Status (federatedObject r)) ->
      deletionCase s r cluster = NoNeed.

Lemma deletionCase_NoNeed r cluster : deletionCase s r cluster = NoNeed <->
  IsClusterReady (Status cluster) = true /\
  exists x, GetClusterObject s (c_Name cluster) (targetName r) (res_TargetGVK r) = inl x /\
    matchingObject (federatedObject r) x = None.
Proof.
  unfold deletionCase. destruct (IsClusterReady _); simpl; [|split; [done|by intros []]].
  destruct (GetClusterObject _ _ _ _) as [x|]; [|split; [done|by intros (_ & ? & ? & _)]].
  destruct (matchingObject _ x) eqn:E; split; try done; [intros (_ & ? & [= <-] & ?); congruence|]. eauto.
Qed.

Lemma flat_map_nil {T U} (f : T -> list U) l : (forall x, x ∈ l -> f x = []) -> flat_map f l = [].
Proof.
  induction l as [|x l IH]; intros H; [done|]. simpl. rewrite H, IH; [done| |left]. intros y Hy. apply H. by right.
Qed.

Lemma existsb_none {T} (f : T -> bool) l : existsb f l = false <-> forall x, x ∈ l -> f x = false.
Proof.
  induction l as [|x l IH]; simpl; [split; [by intros _ y ?%elem_of_nil|done]|].
  rewrite orb_false_iff, IH. split.
  - intros [H1 H2] y [->|Hy]%elem_of_cons; auto.
  - intros H. split; [apply H; left|]. intros y Hy. apply H. by right.
Qed.

Lemma omap_nil {T U} (f : T -> option U) l : omap f l = [] <-> forall x, x ∈ l -> f x = None.
Proof.
  induction l as [|x l IH]; simpl; [split; [by intros _ y ?%elem_of_nil|done]|].
  destruct (f x) eqn:E; simpl.
  - split; [done|]. intros H. specialize (H x (list_elem_of_here _ _)). congruence.
  - rewrite IH. split.
    + intros H y [->|Hy]%elem_of_cons; auto.
    + intros H y Hy. apply H. by right.
Qed.

Lemma dispatch_nil (st : SyncState (W := W)) : dispatch st [] = Returns (st, settle NewManagedDispatcher, true).
Proof. unfold dispatch, add_requests. simpl. rewrite app_nil_r. by destruct st. Qed.

Lemma gone_ensureRemoval (st : SyncState (W := W)) r : gone r -> ensureRemovalFromClusters s st r = Returns (st, inl false).
Proof.
  intros (joined & Hj & Hall). unfold ensureRemovalFromClusters, handleDeletionInClusters, getSyncedClusters. rewrite Hj.
  set (synced := statusClusters _ _) in *.
  rewrite (flat_map_nil _ synced) by (intros x Hx; by rewrite (Hall x Hx)). rewrite dispatch_nil. simpl.
  rewrite !(proj2 (existsb_none _ synced)) by (intros x Hx; by rewrite (Hall x Hx)). simpl.
  rewrite (proj2 (omap_nil _ synced)) by (intros x Hx; by rewrite (Hall x Hx)). simpl.
  unfold checkObjectRemovedFromAllClusters, getSyncedClusters. rewrite Hj. fold synced.
  rewrite (flat_map_nil _ synced).
  - rewrite dispatch_nil. simpl. rewrite (proj2 (existsb_none _ synced)); [done|].
    intros x Hx. apply Hall, deletionCase_NoNeed in Hx as [-> _]. done.
  - intros x Hx. destruct (negb _); [done|]. rewrite bool_decide_eq_true_2; [done|].
    apply elem_of_list_to_set, list_elem_of_omap. exists x. by rewrite (Hall x Hx).
Qed.

Lemma ensureRemoval_gone (st : SyncState (W := W)) r st' : ensureRemovalFromClusters s st r = Returns (st', inl false) -> gone r.
Proof.
  unfold ensureRemovalFromClusters. rewrite may_panic_bind_Returns. intros ([st1 res] & Hh & H). revert Hh.
  unfold handleDeletionInClusters, getSyncedClusters. destruct (sc_JoinedClusters s) as [joined|] eqn:Hj;
    [|intros [= <- <-]; done].
  set (synced := statusClusters _ _) in *. rewrite may_panic_bind_Returns. intros ([[st2 d] ok] & Hd & [= -> <-]).
  destruct (existsb _ synced) eqn:E1; [done|]. destruct (existsb _ synced) eqn:E2 in H; [done|].
  destruct (negb ok); [done|]. destruct (omap _ synced) as [|h hs] eqn:Eh in H; [|done].
  exists joined. split; [done|]. fold synced. intros cluster Hin.
  rewrite existsb_none in E1, E2. rewrite omap_nil in Eh.
  specialize (E1 _ Hin). specialize (E2 _ Hin). specialize (Eh _ Hin). by destruct (deletionCase s r cluster).
Qed.

Lemma dispatch_world (st : SyncState (W := W)) p st' d ok : dispatch st p = Returns (st', d, ok) -> world st' = world st.
Proof. by intros (_ & _ & _ & ->)%dispatch_Returns. Qed.

Lemma ensureRemoval_world (st : SyncState (W := W)) r st' e : ensureRemovalFromClusters s st r = Returns (st', e) ->
  world st' = world st.
Proof.
  unfold ensureRemovalFromClusters. rewrite may_panic_bind_Returns. intros ([st1 res] & Hh & H).
  assert (world st1 = world st) as <-.
  { revert Hh. unfold handleDeletionInClusters. destruct (getSyncedClusters s r); [|by intros [= <- _]].
    rewrite may_panic_bind_Returns. intros ([[st2 d] ok] & Hd & [= -> _]). by eapply dispatch_world. }
  destruct res as [[[no handled] ok]|]; [|by injection H as <- _].
  destruct (negb ok); [by injection H as <- _|]. destruct (0 <? _); [by injection H as <- _|].
  revert H. rewrite may_panic_bind_Returns. intros ([st2 err] & Hc & [= -> _]). revert Hc.
  unfold checkObjectRemovedFromAllClusters. destruct (getSyncedClusters s r); [|by intros [= <- _]].
  rewrite may_panic_bind_Returns. intros ([[st3 d] ok'] & Hd & [= -> _]). by eapply dispatch_world.
Qed.

(** C5. The finalizer of a federated object that is being deleted is given up
    last: the API server is asked for it only if every joined cluster of the
    status is ready and has no object of it, and then nothing is sent to the
    clusters any more; and if that is so, the reconciliation asks for it. *)
Theorem finalizer_removed_last (st : SyncState (W := W)) r st' res :
  handleTerminatingFederatedResource s st r = Returns (st', res) ->
  let asked := (fed_Update (world st) (fo_SetFinalizers (federatedObject r)
    (RemoveFinalizers (fo_Finalizers (federatedObject r)) {[FinalizerSyncController]}).1)).1 in
  if decide (FinalizerSyncController ∈ fo_Finalizers (federatedObject r)) then
    (gone r /\ world st' = asked /\ requests st' = requests st) \/
    (~ gone r /\ world st' = world st /\ res <> StatusAllOK)
  else world st' = world st /\ requests st' = requests st /\ res = StatusAllOK.
Proof.
  unfold handleTerminatingFederatedResource. set (st0 := set_manager st r _).
  assert (world st0 = world st) as Hw by apply world_set_manager.
  assert (requests st0 = requests st) as Hr by apply requests_set_manager. clearbody st0.
  case_bool_decide as Hin; cbn [negb]; intros H.
  - rewrite decide_True by done. revert H. rewrite may_panic_bind_Returns. intros ([st1 e] & He & H).
    destruct e as [[]|err].
    + right. injection H as <- <-. split_and!.
      * intros Hg. by rewrite (gone_ensureRemoval st0 r Hg) in He.
      * rewrite <- Hw. by eapply ensureRemoval_world.
      * done.
    + left. pose proof (ensureRemoval_gone _ _ _ He) as Hg. split; [done|].
      rewrite (gone_ensureRemoval st0 r Hg) in He. injection He as <-. revert H. unfold removeFinalizer.
      destruct (RemoveFinalizers _ _) as [fs changed] eqn:Ef. destruct changed; simpl.
      * rewrite Hw. destruct (fed_Update _ _) as [w x]. intros [= <- _]. done.
      * unfold RemoveFinalizers in Ef. destruct (Nat.eqb_spec (size (list_to_set (fo_Finalizers (federatedObject r)) ∩
          {[FinalizerSyncController]} : gset string)) 0) as [Hz|]; [|done].
        apply size_empty_inv in Hz. exfalso. assert (FinalizerSyncController ∈ (∅ : gset string)); [|set_solver].
        rewrite <- Hz. apply elem_of_intersection. split; [by apply elem_of_list_to_set|set_solver].
    + right. injection H as <- <-. split_and!.
      * intros Hg. by rewrite (gone_ensureRemoval st0 r Hg) in He.
      * rewrite <- Hw. by eapply ensureRemoval_world.
      * done.
  - rewrite decide_False by done. injection H as <- <-. done.
Qed.

(** ** Cascading deletion of a cluster *)

(** The object was deleted, or released from management, without an error. *)
Definition handled (st : SyncState (W := W)) (ftc : FederatedTypeConfig) (clusterName : string) (o : Unstructured) : Prop :=
  exists fed, fedAccessor s (fedObjectNameOf ftc o) = inl (Some fed) /\
    let program := removeFromCluster (unmanagedDispatcher s fed) clusterName fed o true in
    run_ok program = true /\ forall ce, ce ∈ sent (run program NewManagedDispatcher) -> ce ∈ requests st.

Lemma handled_mono (st st' : SyncState (W := W)) ftc c o : requests st ⊆ requests st' ->
  handled st ftc c o -> handled st' ftc c o.
Proof. intros Hsub (fed & Hf & Hok & Hs). exists fed. split_and!; [done..|]. auto. Qed.

Lemma cascadeObjects_spec (st : SyncState (W := W)) ftc c os st' failed : cascadeObjects s st ftc c os = Returns (st', failed) ->
  requests st ⊆ requests st' /\ (failed = false -> forall o, o ∈ os -> handled st' ftc c o).
Proof.
  revert st st' failed. induction os as [|o os IH]; intros st st' failed; simpl.
  - intros [= <- <-]. split; [done|]. intros _ o Ho. by apply elem_of_nil in Ho.
  - rewrite may_panic_bind_Returns. intros ([st1 f1] & H1 & H). revert H. rewrite may_panic_bind_Returns.
    intros ([st2 f2] & H2 & [= <- <-]). destruct (IH _ _ _ H2) as [Hsub Hall].
    assert (requests st ⊆ requests st1 /\ (f1 = false -> handled st1 ftc c o)) as [Hsub1 Ho].
    { revert H1. unfold cascadeObject, handled. destruct (fedAccessor s _) as [[fed|]|]; [|by intros [= <- <-]..].
      rewrite may_panic_bind_Returns. intros ([[st3 d] ok] & Hd & [= -> <-]).
      apply dispatch_Returns in Hd as (_ & _ & -> & ->). simpl. split; [intros x; set_solver|].
      intros Hok%negb_false_iff. exists fed. split_and!; [done..|]. intros ce Hce. apply elem_of_app. by right. }
    split; [by etrans|]. intros [-> ->]%orb_false_iff x [->|Hx]%elem_of_cons; [|by apply Hall].
    eapply handled_mono; [done|]. by apply Ho.
Qed.

Definition kind_handled (st : SyncState (W := W)) (c : string) (ftc : FederatedTypeConfig) : Prop :=
  exists os, listManagedClusterObjects s ftc c = inl os /\ forall o, o ∈ os -> handled st ftc c o.

Lemma cascadingDeletion_spec (st : SyncState (W := W)) ftcs c st' remaining :
  cascadingDeletion s st ftcs c = Returns (st', remaining) ->
  requests st ⊆ requests st' /\ (remaining = [] -> forall ftc, ftc ∈ ftcs -> kind_handled st' c ftc).
Proof.
  revert st st' remaining. induction ftcs as [|ftc ftcs IH]; intros st st' remaining; simpl.
  - intros [= <- <-]. split; [done|]. intros _ x Hx. by apply elem_of_nil in Hx.
  - rewrite may_panic_bind_Returns. intros ([st1 f1] & H1 & H). revert H. rewrite may_panic_bind_Returns.
    intros ([st2 rest] & H2 & [= <- <-]). destruct (IH _ _ _ H2) as [Hsub Hall].
    assert (requests st ⊆ requests st1 /\ (f1 = false -> kind_handled st1 c ftc)) as [Hsub1 Hk].
    { revert H1. unfold cascadingDeletionForFTC, kind_handled.
      destruct (listManagedClusterObjects s ftc c) as [os|]; [|by intros [= <- <-]].
      intros [Hs Ho]%cascadeObjects_spec. split; [done|]. intros Hf. exists os. split; [done|]. by apply Ho. }
    split; [by etrans|]. destruct f1; [done|]. intros -> x [->|Hx]%elem_of_cons; [|by apply Hall].
    destruct (Hk eq_refl) as (os & Hos & Ho). exists os. split; [done|]. intros o Hin. eapply handled_mono; [done|]. by apply Ho.
Qed.

(** C7. A terminating cluster that is joined and asks for cascading deletion is
    let go, with success, only when it is ready, all the managed objects of
    every kind could be listed, and each of them belongs to a federated object
    and was deleted, or released if it is to be orphaned, without an error. *)
Theorem cascading_deletion_complete (st : SyncState (W := W)) name st' cluster :
  sc_ClusterLister s (qn_Name name) = inl cluster -> c_DeletionTimestamp cluster <> None ->
  IsClusterJoined (Status cluster) = true -> IsCascadingDeleteEnabled cluster = true ->
  reconcileClusterForCascadingDeletion s st name = Returns (st', StatusAllOK) ->
  IsClusterReady (Status cluster) = true /\
  exists ftcs, sc_ListFTCs s = inl ftcs /\ forall ftc, ftc ∈ ftcs -> kind_handled st' (c_Name cluster) ftc.
Proof.
  intros Hl Hd Hj Hc. unfold reconcileClusterForCascadingDeletion. rewrite Hl, Hj, Hc.
  rewrite bool_decide_eq_true_2 by (destruct (c_DeletionTimestamp cluster); [by eexists|done]). cbn [negb orb].
  destruct (IsClusterReady (Status cluster)); cbn [negb]; [|done]. destruct (sc_ListFTCs s) as [ftcs|]; [|done].
  rewrite may_panic_bind_Returns. intros ([st1 remaining] & H1 & H). split; [done|]. exists ftcs. split; [done|].
  apply cascadingDeletion_spec in H1 as [_ Hall]. destruct remaining as [|k ks]; [|done]. simpl in H.
  destruct (removeClusterFinalizer _ _) as [w [err|]]; [done|]. injection H as <-.
  intros ftc Hin. destruct (Hall eq_refl ftc Hin) as (os & Hos & Ho). exists os. split; [done|].
  intros o Hin'. eapply handled_mono; [|by apply Ho]. done.
Qed.

Context `{SL : !SyncServerLaws W}.

(** A poll that writes a fixed list of clusters ends with them in the store. *)
Lemma pollUpdateStatus_written n w change ns name obj w' o clusters :
  (forall o1, fo_Namespace o1 = ns -> fo_Name o1 = name -> exists o2, change o1 = Some o2 /\
     fo_Namespace o2 = ns /\ fo_Name o2 = name /\ gs_Clusters (fo_Status o2) = clusters) ->
  fo_Namespace obj = ns -> fo_Name obj = name ->
  pollUpdateStatus n w change ns name obj = (w', StatusWritten o) ->
  fed_store w' ns name = Some o /\ gs_Clusters (fo_Status o) = clusters /\ fo_Namespace o = ns /\ fo_Name o = name.
Proof.
  intros Hch. revert w obj. induction n as [|n IH]; intros w obj Hns Hname; simpl; [done|].
  destruct (Hch obj Hns Hname) as (o2 & -> & H1 & H2 & H3).
  destruct (fed_UpdateStatus w o2) as [w1 [o'|err]] eqn:E.
  - intros [= <- <-]. apply fed_UpdateStatus_law in E as (Hst & Hs & Hn1 & Hn2).
    by rewrite H1, H2 in *; rewrite Hs.
  - destruct (IsConflict err); [|done]. destruct (fed_Get w1 ns name) as [o3|] eqn:Eg; [|done].
    apply fed_Get_law in Eg as [Hg1 Hg2]. by apply IH.
Qed.

(** The clusters selected by the placements, unless a member cluster's
    autoscaler owns the object. *)
Definition selection (r : federatedResource) (hpa : bool) (joined : list FederatedCluster) : gset string :=
  if hpa then ∅ else computePlacement (federatedObject r) joined.

(** C6. Clusters are recorded before they are written to: when a sync is
    prepared, the clusters to sync are joined, and all of them are in the status
    that the API server stores, or that the object had if there is nothing to
    add; all the selected clusters that are joined and not terminating are
    among them, and no request has been sent yet. *)
Theorem prepareToSync_write_ahead (st : SyncState (W := W)) r hpa joined st' r' cs selected :
  sc_JoinedClusters s = inl joined -> NoDup (c_Name <$> joined) ->
  prepareToSync s now rounds st r hpa = (st', Some (r', cs, selected)) ->
  let o := federatedObject r' in
  (r' = r \/ fed_store (world st') (fo_Namespace o) (fo_Name o) = Some o) /\
  (forall cluster, cluster ∈ cs -> cluster ∈ joined /\ c_Name cluster ∈ prs_Cluster <$> gs_Clusters (fo_Status o)) /\
  selected = selection r hpa joined /\
  (forall cluster, cluster ∈ joined -> c_DeletionTimestamp cluster = None -> c_Name cluster ∈ selected -> cluster ∈ cs) /\
  requests st' = requests st.
Proof.
  intros Hj Hnd. unfold prepareToSync. rewrite Hj. fold (selection r hpa joined).
  set (m := clusterMapOf joined). set (sel := selection r hpa joined).
  set (status := fo_Status (federatedObject r)). set (pending := pendingCreateClusters sel status).
  assert (Hcover : forall cluster, cluster ∈ joined -> c_DeletionTimestamp cluster = None -> c_Name cluster ∈ sel ->
    cluster ∈ statusClusters m status \/ c_Name cluster ∈ pending /\ cluster ∈ newClusters m pending).
  { intros cluster Hin Hdel Hsel. assert (m !! c_Name cluster = Some cluster) as Hm by by apply clusterMapOf_NoDup.
    destruct (decide (c_Name cluster ∈ prs_Cluster <$> gs_Clusters status)) as [Hs|Hs].
    - left. apply list_elem_of_fmap in Hs as (p & Hp & Hps). apply elem_of_statusClusters. exists p.
      by rewrite <- Hp.
    - right. assert (c_Name cluster ∈ pending) by by apply elem_of_pendingCreateClusters. split; [done|].
      apply elem_of_newClusters. by eexists. }
  assert (Hstatus : forall cluster, cluster ∈ statusClusters m status ->
    cluster ∈ joined /\ c_Name cluster ∈ prs_Cluster <$> gs_Clusters status).
  { intros cluster (p & Hp & Hm)%elem_of_statusClusters. apply clusterMapOf_lookup in Hm as [Hin Hn].
    split; [done|]. rewrite Hn. apply list_elem_of_fmap. by exists p. }
  destruct (Nat.eqb_spec (size pending) 0) as [Hz|Hz].
  - intros [= <- <- <- <-]. simpl. split_and!; [by left|done|done| |done]. intros cluster Hin Hdel Hsel.
    destruct (Hcover cluster Hin Hdel Hsel) as [|[Hp _]]; [done|].
    apply size_empty_inv in Hz. set_solver.
  - set (added := newClusters m pending). set (clusters := gs_Clusters status ++ (pendingStatus <$> added)).
    unfold pollStatusOf. destruct (pollUpdateStatus _ _ _ _ _ _) as [w written] eqn:E.
    destruct written as [o| |]; [|done..]. intros [= <- <- <- <-]. simpl.
    eapply (pollUpdateStatus_written _ _ _ _ _ _ _ _ clusters) in E as (Hst & Hcl & Hn1 & Hn2);
      [|intros o1 H1 H2; eexists; by split_and!|done..].
    rewrite Hn1, Hn2, Hcl. split_and!; [by right| |done| |done].
    + intros cluster [Hin|Hin]%elem_of_app.
      * destruct (Hstatus _ Hin). split; [done|]. unfold clusters. rewrite fmap_app, elem_of_app. by left.
      * split.
        -- apply elem_of_newClusters in Hin as (n & _ & Hm & _). apply clusterMapOf_lookup in Hm as [? _]. done.
        -- unfold clusters. rewrite fmap_app, elem_of_app. right. apply list_elem_of_fmap.
           exists (pendingStatus cluster). split; [done|]. apply list_elem_of_fmap. by exists cluster.
    + intros cluster Hin Hdel Hsel. apply elem_of_app.
      destruct (Hcover cluster Hin Hdel Hsel) as [|[_ ?]]; [by left|by right].
Qed.
End Reconcile.

(** ** Concrete inputs *)

Section Witnesses.
#[local] Existing Instance small_kubernetes.
#[local] Existing Instance small_runtime.
#[local] Existing Instance small_codecs.
#[local] Existing Instance small_patches.
#[local] Existing Instance small_adoption.

(** A server of federated objects by name, whose writes are stored as they are;
    clusters are not stored, and neither are versions. *)
Definition host : Type := gmap (string * string) FederatedObject.

Definition host_Get (w : host) (ns n : string) : FederatedObject + ApiError :=
  match w !! (ns, n) with
  | Some o => if decide (fo_Namespace o = ns /\ fo_Name o = n) then inl o else inr NotFound
  | None => inr NotFound
  end.

Definition host_Update (w : host) (o : FederatedObject) : host * (FederatedObject + ApiError) :=
  (<[(fo_Namespace o, fo_Name o) := o]> w, inl o).

#[local] Instance host_server : SyncServer host := {|
  fed_Get := host_Get; fed_Update := host_Update; fed_UpdateStatus := host_Update;
  cluster_Get := fun _ n => inl (sync_cluster n (Some 1)); cluster_Update := fun w c => (w, inl c)
|}.

#[local] Instance host_versions : VersionServer host := {|
  vs_Get := fun _ _ => inr NotFound; vs_Create := fun w o => (w, inl o); vs_UpdateStatus := fun w o => (w, inl o)
|}.

#[local] Instance host_laws : SyncServerLaws host.
Proof.
  refine {| fed_store := fun w ns n => w !! (ns, n) |}.
  - intros w o w' o' [= <- <-]. split; [exact (lookup_insert_eq _ _ _)|done].
  - intros w ns n o. simpl. unfold host_Get. destruct (w !! (ns, n)); [|done]. case_decide; [|done]. by intros [= <-].
Defined.

Definition host_state : SyncState (W := host) := {|
  world := ∅; versionManager := empty_manager; clusterVersionManager := empty_manager; requests := []
|}.

Definition web_controller : SyncController := sync_controller cached_in_b None.
Definition cfg_resource : federatedResource := resource_cfg [] ["a"%string].
Definition two_clusters : list FederatedCluster := [sync_cluster "a" None; sync_cluster "b" None].

(** Creates in [a], deletes in [b]. *)
Lemma sync_safe_witness : exists st' res rs,
  syncToClusters web_controller 5 3 host_state cfg_resource two_clusters {["a"%string]} = Returns (st', res) /\
  requests st' = rs /\ length rs = 2%nat /\ forall c q, (c, q) ∈ rs -> exists cluster, cluster ∈ two_clusters /\
    c_Name cluster = c /\ allowed web_controller (fun u => HasManagedLabel u = true) cfg_resource {["a"%string]} cluster q.
Proof.
  assert (match syncToClusters web_controller 5 3 host_state cfg_resource two_clusters {["a"%string]} with
          | Returns (x, _) => Nat.eqb (length (requests x)) 2 | _ => false end = true) as Hrun by (vm_compute; reflexivity).
  destruct (syncToClusters web_controller 5 3 host_state cfg_resource two_clusters {["a"%string]}) as [[st' res]| |] eqn:E;
    [|discriminate Hrun..].
  destruct (sync_safe web_controller 5 3 host_state cfg_resource two_clusters {["a"%string]} st' res
    (metadata_kept_cfg ["a"%string]) E) as (rs & Hrs & Hall).
  exists st', res, (requests st'). split_and!; [done|done| |].
  - by apply Nat.eqb_eq.
  - intros c q Hin. apply Hall. by rewrite Hrs in Hin.
Defined.

Lemma prepareToSync_write_ahead_witness : exists st' r' cs selected,
  prepareToSync web_controller 5 3 host_state cfg_resource false = (st', Some (r', cs, selected)) /\
  prs_Cluster <$> gs_Clusters (fo_Status (federatedObject r')) = ["a"%string] /\ selected = {["a"%string]} /\
  forall cluster, cluster ∈ cs -> c_Name cluster ∈ prs_Cluster <$> gs_Clusters (fo_Status (federatedObject r')).
Proof.
  assert (match prepareToSync web_controller 5 3 host_state cfg_resource false with
          | (x, Some (r', _, _)) => bool_decide (prs_Cluster <$> gs_Clusters (fo_Status (federatedObject r')) = ["a"%string])
          | _ => false end = true) as Hrun by (vm_compute; reflexivity).
  destruct (prepareToSync web_controller 5 3 host_state cfg_resource false) as [st' [[[r' cs] selected]|]] eqn:E; [|done].
  apply bool_decide_eq_true in Hrun.
  destruct (prepareToSync_write_ahead web_controller 5 3 host_state cfg_resource false
    two_clusters st' r' cs selected) as (_ & Hcs & Hsel & _);
    [reflexivity|apply (bool_decide_eq_true_1 _); vm_compute; reflexivity|exact E|].
  exists st', r', cs, selected. split_and!; [done|..].
  - done.
  - rewrite Hsel. apply (bool_decide_eq_true_1 _). vm_compute. reflexivity.
  - intros cluster Hin. by apply Hcs.
Defined.

(** An object that is being deleted, recorded in [b], where it is gone. *)
Definition deleted_resource : federatedResource :=
  SetObject cfg_resource (setStatus (fo_SetFinalizers (fed_cfg [] ["a"%string]) [FinalizerSyncController])
    (set_clusters empty_status [ {| prs_Cluster := "b"; prs_Status := ClusterPropagationOK; LastObservedGeneration := 1 |} ])).

Definition gone_controller : SyncController := sync_controller (fun _ => None) None.

Lemma finalizer_removed_last_witness :
  gone gone_controller deleted_resource /\ ~ gone web_controller deleted_resource.
Proof.
  split.
  - assert (match handleTerminatingFederatedResource gone_controller host_state deleted_resource with
            | Returns (x, _) => (size (world x), length (requests x)) = (1, 0)%nat | _ => False end) as Hs by (vm_compute; reflexivity).
    destruct (handleTerminatingFederatedResource gone_controller host_state deleted_resource) as [[st' res]| |] eqn:E; [|destruct Hs..].
    pose proof (finalizer_removed_last gone_controller host_state deleted_resource st' res E) as H. cbv zeta in H.
    rewrite decide_True in H by (apply (bool_decide_eq_true_1 _); vm_compute; reflexivity).
    destruct H as [[Hg _]|(_ & Hw & _)]; [done|]. exfalso.
    rewrite Hw in Hs. done.
  - assert (match handleTerminatingFederatedResource web_controller host_state deleted_resource with
            | Returns (x, _) => (size (world x), length (requests x)) = (0, 1)%nat | _ => False end) as Hs by (vm_compute; reflexivity).
    destruct (handleTerminatingFederatedResource web_controller host_state deleted_resource) as [[st' res]| |] eqn:E; [|destruct Hs..].
    pose proof (finalizer_removed_last web_controller host_state deleted_resource st' res E) as H. cbv zeta in H.
    rewrite decide_True in H by (apply (bool_decide_eq_true_1 _); vm_compute; reflexivity).
    destruct H as [(_ & _ & Hreq)|(Hg & _)]; [|done]. exfalso.
    rewrite Hreq in Hs. done.
Defined.

(** Cluster [b] is terminating and has an object, which is deleted. *)
Definition terminating_controller : SyncController := sync_controller cached_in_b (Some 1).

Lemma cascading_deletion_complete_witness : exists st',
  reconcileClusterForCascadingDeletion terminating_controller host_state {| qn_Namespace := ""; qn_Name := "b" |} =
    Returns (st', StatusAllOK) /\
  exists ftcs, sc_ListFTCs terminating_controller = inl ftcs /\
    forall ftc, ftc ∈ ftcs -> kind_handled terminating_controller st' "b" ftc.
Proof.
  assert (match reconcileClusterForCascadingDeletion terminating_controller host_state {| qn_Namespace := ""; qn_Name := "b" |} with
          | Returns (_, x) => x = StatusAllOK | _ => False end) as Hs by (vm_compute; reflexivity).
  destruct (reconcileClusterForCascadingDeletion terminating_controller host_state {| qn_Namespace := ""; qn_Name := "b" |})
    as [[st' res]| |] eqn:E; [subst res|destruct Hs..].
  exists st'. split; [done|].
  apply (cascading_deletion_complete terminating_controller host_state {| qn_Namespace := ""; qn_Name := "b" |} st'
    (sync_cluster "b" (Some 1)) eq_refl ltac:(done) eq_refl); [vm_compute; reflexivity|exact E].
Defined.
End Witnesses.
