(* ===== verification/OverridePolicy.v ===== *)
(** * The override policy controller ([pkg/controllers/override])

    The rules of the override policies that a federated object refers to become
    the patches of its clusters: image, command, args, environment, annotation,
    label and JSON patch overriders, each computed on the template as the
    earlier rules left it.  The caches and the API server are the fields of
    [OverrideController]; the result of a reconciliation is the worker result
    and the object sent to the API server, if any.  Events, metrics and logs are
    left out. *)

From Stdlib Require Import ZArith Lia String Ascii.
From S2P Require Import Prelude GoStrings K8s Types ApiTypes Unstructured Codecs FedObject PodUtil FilterPlugins.
From S2P Require Import SyncResource.

(** * Images ([override/imageparse.go], [pkg/lifted/distribution/reference])

    The parts of an image reference and the operations on them.  The parser of
    references, [github.com/distribution/reference], is not part of the
    repository: it is the class [ImageReferences], whose law says that a parsed
    reference prints as it was written. *)

(** ** The regular expressions *)

Definition ascii_between (lo c hi : ascii) : bool :=
  (nat_of_ascii lo <=? nat_of_ascii c)%nat && (nat_of_ascii c <=? nat_of_ascii hi)%nat.
Definition is_alpha (c : ascii) : bool := ascii_between "a" c "z" || ascii_between "A" c "Z".
Definition is_digit (c : ascii) : bool := ascii_between "0" c "9".
Definition is_alnum (c : ascii) : bool := is_alpha c || is_digit c.
(** [\w]. *)
Definition is_word (c : ascii) : bool := is_alnum c || Ascii.eqb c "_".
(** [[:xdigit:]]. *)
Definition is_xdigit (c : ascii) : bool := is_digit c || ascii_between "a" c "f" || ascii_between "A" c "F".

Fixpoint all_chars (f : ascii -> bool) (s : string) : bool :=
  match s with EmptyString => true | String c s' => f c && all_chars f s' end.

(** [^[\w][\w.-]{0,127}$]. *)
Definition AnchoredTagRegexp_MatchString (s : string) : bool :=
  match s with
  | EmptyString => false
  | String c s' =>
      is_word c && (String.length s' <=? 127)%nat &&
      all_chars (fun c => is_word c || Ascii.eqb c "." || Ascii.eqb c "-") s'
  end.

Definition is_separator (c : ascii) : bool :=
  Ascii.eqb c "-" || Ascii.eqb c "_" || Ascii.eqb c "+" || Ascii.eqb c ".".

(** After a letter of the algorithm: letters and digits, a separator that a
    letter has to follow, or the colon and the encoded part. *)
Fixpoint matchAlgorithm (start : bool) (s : string) : bool :=
  match s with
  | EmptyString => false
  | String c s' =>
      if start then is_alpha c && matchAlgorithm false s'
      else if is_alnum c then matchAlgorithm false s'
      else if is_separator c then matchAlgorithm true s'
      else Ascii.eqb c ":" && (32 <=? String.length s')%nat && all_chars is_xdigit s'
  end.

(** [digestPat]: the parts of the algorithm are letters and digits that start
    with a letter, the encoded part has at least 32 hexadecimal digits. *)
Definition AnchoredDigestRegexp_MatchString (s : string) : bool := matchAlgorithm true s.

Example digest_regexp :
  AnchoredDigestRegexp_MatchString "sha256+b64:0123456789abcdef0123456789ABCDEF" = true /\
  AnchoredDigestRegexp_MatchString "sha256+:0123456789abcdef0123456789abcdef" = false /\
  AnchoredDigestRegexp_MatchString "sha256:0123456789abcdef" = false.
Proof. repeat split; reflexivity. Qed.

(** ** References *)

(** The interfaces [Named], [Tagged] and [Digested] of a reference. *)
Record Reference := {
  ref_Name : option string;
  ref_Tag : option string;
  ref_Digest : option string
}.

(** A part that is there, after its separator. *)
Definition suffix (separator part : string) : string :=
  if String.eqb part "" then "" else (separator ++ part)%string.

Definition Reference_String (r : Reference) : string :=
  (default "" (ref_Name r) ++ suffix ":" (default "" (ref_Tag r)) ++ suffix "@" (default "" (ref_Digest r)))%string.

Class ImageReferences := {
  reference_Parse : string -> Reference + string;
  reference_Parse_String : forall s r, reference_Parse s = inl r -> Reference_String r = s
}.

(** ** Images *)

Definition OperatorAddIfAbsent : string := "addIfAbsent".
Definition OperatorAppend : string := "append".
Definition OperatorOverwrite : string := "overwrite".
Definition OperatorDelete : string := "delete".

Record Image := { registry : string; repository : string; tag : string; digest : string }.

Definition operateImageComponent (oldValue operator newValue : string) : string + string :=
  if String.eqb operator OperatorAddIfAbsent then
    if String.eqb newValue "" then inr (OperatorAddIfAbsent ++ " operation needs value")%string
    else if negb (String.eqb oldValue "")
    then inr (OperatorAddIfAbsent ++ " is not allowed to operate on non-empty value")%string
    else inl newValue
  else if String.eqb operator OperatorOverwrite then inl newValue
  else if String.eqb operator OperatorDelete then inl ""%string
  else inr ("unsupported operator: " ++ operator)%string.

Definition OperateRegistry (i : Image) (operator value : string) : Image + string :=
  bind_error (operateImageComponent (registry i) operator value) (fun newRegistry =>
    inl {| registry := newRegistry; repository := repository i; tag := tag i; digest := digest i |}).

Definition OperateRepository (i : Image) (operator value : string) : Image + string :=
  bind_error (operateImageComponent (repository i) operator value) (fun newRepository =>
    inl {| registry := registry i; repository := newRepository; tag := tag i; digest := digest i |}).

Definition OperateTag (i : Image) (operator value : string) : Image + string :=
  bind_error (operateImageComponent (tag i) operator value) (fun newTag =>
    if negb (String.eqb newTag "") && negb (AnchoredTagRegexp_MatchString newTag)
    then inr "invalid tag format after applying the overrider"%string
    else inl {| registry := registry i; repository := repository i; tag := newTag; digest := digest i |}).

Definition OperateDigest (i : Image) (operator value : string) : Image + string :=
  bind_error (operateImageComponent (digest i) operator value) (fun newDigest =>
    if negb (String.eqb newDigest "") && negb (AnchoredDigestRegexp_MatchString newDigest)
    then inr "invalid digest format after applying the overrider"%string
    else inl {| registry := registry i; repository := repository i; tag := tag i; digest := newDigest |}).

Definition Image_String (i : Image) : string :=
  let fullName := repository i in
  let fullName := if negb (String.eqb (registry i) "") then (registry i ++ "/" ++ repository i)%string else fullName in
  let fullName := if negb (String.eqb (tag i) "") then (fullName ++ ":" ++ tag i)%string else fullName in
  if negb (String.eqb (digest i) "") then (fullName ++ "@" ++ digest i)%string else fullName.

Definition SplitRegistryAndRepository (name : string) : string * string :=
  match cut "/" name with
  | None => (""%string, name)
  | Some (before, after) =>
      if negb (string_has "." before || string_has ":" before) && negb (String.eqb before "localhost")
      then (""%string, name)
      else (before, after)
  end.

Section Parse.
Context `{IR : ImageReferences}.

Definition ParseImage (fullName : string) : Image + string :=
  bind_error (reference_Parse fullName) (fun ref =>
    let '(registry, repository) :=
      match ref_Name ref with
      | Some name => SplitRegistryAndRepository name
      | None => (""%string, ""%string)
      end in
    inl {| registry := registry; repository := repository;
           tag := default ""%string (ref_Tag ref); digest := default ""%string (ref_Digest ref) |}).
End Parse.

(** ** Override policies ([types_overridepolicy.go], [types_common.go]) *)

Record TargetClusters := {
  tc_Clusters : list string;
  tc_ClusterSelector : gmap string string;
  tc_ClusterAffinity : list ClusterSelectorTerm
}.

Record EnvOverrider := { eo_ContainerName : string; eo_Operator : string; eo_Value : list EnvVar }.
Record EntrypointOverrider := { po_ContainerName : string; po_Operator : string; po_Value : slice string }.
Record StringMapOverrider := { so_Operator : string; so_Value : gmap string string }.
Record Operation := { opn_ImageComponent : string; opn_Operator : string; opn_Value : string }.
Record ImageOverrider := { io_ContainerNames : list string; io_ImagePath : string; io_Operations : list Operation }.
(** [Value] is the raw JSON. *)
Record JsonPatchOverrider := { jo_Operator : string; jo_Path : string; jo_Value : string }.

Record Overriders := {
  ov_Image : list ImageOverrider;
  ov_Command : list EntrypointOverrider;
  ov_Args : list EntrypointOverrider;
  ov_Envs : list EnvOverrider;
  ov_Annotations : list StringMapOverrider;
  ov_Labels : list StringMapOverrider;
  ov_JsonPatch : list JsonPatchOverrider
}.

Record OverrideRule := { or_TargetClusters : option TargetClusters; or_Overriders : option Overriders }.

(** [OverridePolicy] and [ClusterOverridePolicy] through [GenericOverridePolicy]. *)
Record GenericOverridePolicy := { gop_Namespace : string; gop_Name : string; OverrideRules : list OverrideRule }.

Definition OverridePolicyNameLabel : string := (DefaultPrefix ++ "override-policy-name")%string.
Definition ClusterOverridePolicyNameLabel : string := (DefaultPrefix ++ "cluster-override-policy-name")%string.
Definition PrefixedControllerName : string := (DefaultPrefix ++ "overridepolicy-controller")%string.

Definition OperatorReplace : string := "replace".
Definition CommandTarget : string := "command".
Definition ArgsTarget : string := "args".
Definition AnnotationsTarget : string := "annotations".
Definition LabelsTarget : string := "labels".
Definition EnvTarget : string := "env".
Definition ImageTarget : string := "image".
Definition InitContainers : string := "initContainers".
Definition Containers : string := "containers".

(** ** Libraries

    [LabelSelectorAsSelector] of a selector with [MatchLabels] only, and the
    encodings of values and patches. *)
Class OverrideLibraries `{Kubernetes} := {
  LabelSelectorAsSelector : gmap string string -> Selector + string;
  LabelSelectorAsSelector_Matches : forall matchLabels s l, LabelSelectorAsSelector matchLabels = inl s ->
    Selector_Matches s l = true <-> forall k v, matchLabels !! k = Some v -> l !! k = Some v;
  Marshal_Strings : slice string -> string + string;
  Marshal_EnvVars : slice EnvVar -> string + string;
  (** [json.Unmarshal] into [apiextensionsv1.JSON]: the raw JSON. *)
  Unmarshal_JSON : string -> string + string
}.

(** ** The environment of a container ([envspatch.go]) *)

(** The indexes of each name. *)
Definition envIndexes (value : list EnvVar) : gmap string (list nat) :=
  foldl (fun mapValue '(index, oldEnv) => <[ev_Name oldEnv := default [] (mapValue !! ev_Name oldEnv) ++ [index]]> mapValue)
    ∅ (imap pair value).

(** [value] without the elements at [indexes]: the segments between them. *)
Definition removeIndexes (value : list EnvVar) (indexes : list nat) : slice EnvVar :=
  let '(tmpValue, _, lastIndex) := foldl (fun '(tmpValue, start, _) index =>
    (append tmpValue (take (index - start) (drop start value)), S index, index)) (None, 0%nat, 0%nat) indexes in
  if negb (Z.of_nat lastIndex =? Z.of_nat (length value) - 1) then append tmpValue (drop (S lastIndex) value)
  else tmpValue.

Definition envStep (operator : string) (s : slice EnvVar * gmap string (list nat)) (env : EnvVar)
    : (slice EnvVar * gmap string (list nat)) + string :=
  let '(value, mapValue) := s in
  if String.eqb operator OperatorAddIfAbsent then
    match mapValue !! ev_Name env with
    | Some _ => inr (OperatorAddIfAbsent ++ " is not allowed to operate on exist key:" ++ ev_Name env)%string
    | None =>
        let value := append value [env] in
        inl (value, <[ev_Name env := [pred (length (default [] value))]]> mapValue)
    end
  else if String.eqb operator OperatorOverwrite then
    match mapValue !! ev_Name env with
    | Some indexes => inl (option_map (fun value => foldl (fun value index => <[index := env]> value) value indexes) value, mapValue)
    | None => inl (value, mapValue)
    end
  else if String.eqb operator OperatorDelete then
    match mapValue !! ev_Name env with
    | Some indexes =>
        let value := removeIndexes (default [] value) indexes in
        inl (value, envIndexes (default [] value))
    | None => inl (value, mapValue)
    end
  else inr ("unsupported operator:" ++ operator)%string.

Definition applyEnvOverrider (value : slice EnvVar) (envOverrider : EnvOverrider) : slice EnvVar + string :=
  let operator := if String.eqb (eo_Operator envOverrider) "" then OperatorOverwrite else eo_Operator envOverrider in
  if String.eqb operator OperatorAddIfAbsent && Nat.eqb (length (eo_Value envOverrider)) 0
  then inr (OperatorAddIfAbsent ++ " operation needs value")%string
  else
    bind_error (foldl_error (envStep operator) (value, envIndexes (default [] value)) (eo_Value envOverrider))
      (fun '(value, _) => inl value).

(** ** Commands and arguments ([commandargspatch.go]) *)

Definition applyEntrypointOverrider (oldValue : slice string) (entrypointOverrider : EntrypointOverrider)
    : slice string + string :=
  let operator := po_Operator entrypointOverrider in
  let value := default [] (po_Value entrypointOverrider) in
  if String.eqb operator OperatorAppend then
    if Nat.eqb (length value) 0 then inr (OperatorAppend ++ " operation needs non-empty list")%string
    else inl (append oldValue value)
  else if String.eqb operator OperatorOverwrite then inl (po_Value entrypointOverrider)
  else if String.eqb operator OperatorDelete then
    inl (append None (filter (fun v => v ∉ (list_to_set value : gset string)) (default [] oldValue)))
  else inr ("unsupported operator:" ++ operator)%string.

(** ** Annotations and labels ([annotationslabelspatch.go]) *)

Record helpData := { hd_gvk : GroupVersionKind; hd_sourceObj : Unstructured }.

(** The map of helpers is shared by the policies of an object; the source
    object of a helper is changed in place. *)
Abbreviation Helpers := (gmap string helpData).
Abbreviation OverridesMap := (gmap string (list OverridePatch)).

Section Overriders.
Context `{K : Kubernetes} `{R : GoRuntime} `{C : !Codecs} `{P : PatchCodecs} `{L : !OverrideLibraries} `{IR : ImageReferences}.

Definition stringMapStep (operator : string) (mapValue : gmap string string) (kv : string * string)
    : gmap string string + string :=
  let '(key, value) := kv in
  if String.eqb operator OperatorAddIfAbsent then
    if bool_decide (is_Some (mapValue !! key))
    then inr (OperatorAddIfAbsent ++ " is not allowed to operate on exist key:" ++ key)%string
    else inl (<[key := value]> mapValue)
  else if String.eqb operator OperatorOverwrite then
    inl (if bool_decide (is_Some (mapValue !! key)) then <[key := value]> mapValue else mapValue)
  else if String.eqb operator OperatorDelete then inl (delete key mapValue)
  else inl mapValue.

Definition applyStringMapOverrider (mapValue : gmap string string) (stringMapOverrider : StringMapOverrider)
    : gmap string string + string :=
  let overriderMap := so_Value stringMapOverrider in
  let operator := if String.eqb (so_Operator stringMapOverrider) "" then OperatorOverwrite
                  else so_Operator stringMapOverrider in
  if String.eqb operator OperatorAddIfAbsent && Nat.eqb (size overriderMap) 0
  then inr (OperatorAddIfAbsent ++ " operation needs value")%string
  else foldl_error (stringMapStep operator) mapValue (range_map overriderMap).

Definition replacePatch (path value : string) : OverridePatch :=
  {| Op := OperatorReplace; Path := path; op_Value := value |}.

Definition getLabelsOrAnnotationsFromObject (rawObj : Unstructured) (target : string) : gmap string string :=
  if String.eqb target LabelsTarget then uns_GetLabels rawObj else uns_GetAnnotations rawObj.

Definition parseStringMapOverriders (helper : helpData) (overriders : list StringMapOverrider) (target : string)
    : list OverridePatch + string :=
  match overriders with
  | [] => inl []
  | _ =>
      let mapValue := getLabelsOrAnnotationsFromObject (hd_sourceObj helper) target in
      bind_error (foldl_error applyStringMapOverrider mapValue overriders) (fun mapValue =>
      bind_error (Marshal_StringMap mapValue) (fun jsonBytes =>
        inl [replacePatch ("/metadata/" ++ target) jsonBytes]))
  end.

(** ** Containers *)

Definition PodSpecError_String (e : PodSpecError) : string :=
  match e with
  | ErrUnknownTypeToGetPodSpec _ => "unknown type to get pod spec"
  | PodSpecErr msg => msg
  end.

(** [pkg/util/pod]. *)
Definition GetResourcePodSpecFromUnstructuredObj (unstructuredObj : Unstructured) (gvk : GroupVersionKind)
    : PodSpec + PodSpecError :=
  match PodSpecPaths !! (gvk_Group gvk, gvk_Kind gvk) with
  | None => inr (ErrUnknownTypeToGetPodSpec gvk)
  | Some podSpecPath => getPodSpecFromUnstructuredObj unstructuredObj podSpecPath
  end.

Definition helperPodSpec (helper : helpData) : PodSpec + string :=
  match GetResourcePodSpecFromUnstructuredObj (hd_sourceObj helper) (hd_gvk helper) with
  | inl podSpec => inl podSpec
  | inr err => inr ("failed to get podSpec from sourceObj: " ++ PodSpecError_String err)%string
  end.

Definition generateTargetPathForPodSpec (gvk : GroupVersionKind) (containerKind target : string) (index : nat)
    : string + string :=
  match PodSpecPaths !! (gvk_Group gvk, gvk_Kind gvk) with
  | None => inr (PodSpecError_String (ErrUnknownTypeToGetPodSpec gvk))
  | Some path =>
      let podSpecPath := ("/" ++ ReplaceAll path "." "/")%string in
      inl (podSpecPath ++ "/" ++ containerKind ++ "/" ++ decimal (Z.of_nat index) ++ "/" ++ target)%string
  end.

(** The kinds and containers in the order of the two nested loops. *)
Definition indexedContainers (podSpec : PodSpec) : list (string * nat * Container) :=
  imap (fun index c => (InitContainers, index, c)) (ps_InitContainers podSpec) ++
  imap (fun index c => (Containers, index, c)) (ps_Containers podSpec).

Definition lookForMatchedContainer (podSpec : PodSpec) (containerName : string)
    : option (string * nat * Container) :=
  snd <$> list_find (fun '(_, _, c) => containerName = con_Name c) (indexedContainers podSpec).

(** The loop that both overriders of containers share: the newest value of each
    path. *)
Definition overrideContainers {V O} (helper : helpData) (podSpec : PodSpec) (target : string)
    (containerName : O -> string) (valueOf : Container -> V) (apply : V -> O -> V + string)
    (overriders : list O) : gmap string V + string :=
  foldl_error (fun patchMap overrider =>
    match lookForMatchedContainer podSpec (containerName overrider) with
    | None => inl patchMap
    | Some (containerKind, containerIndex, container) =>
        bind_error (generateTargetPathForPodSpec (hd_gvk helper) containerKind target containerIndex) (fun targetPath =>
        let currentValue := default (valueOf container) (patchMap !! targetPath) in
        bind_error (apply currentValue overrider) (fun newValue =>
          inl (<[targetPath := newValue]> patchMap)))
    end) ∅ overriders.

(** The patches of a map of paths, sorted. *)
Definition convertPatchMap {V} (marshal : V -> string + string) (patchMap : gmap string V)
    : list OverridePatch + string :=
  bind_error (foldl_error (fun patches '(path, value) =>
    bind_error (marshal value) (fun jsonBytes => inl (patches ++ [replacePatch path jsonBytes])))
    [] (range_map patchMap)) (fun patches =>
  inl (sort_slice (fun x y => String.ltb (Path x) (Path y)) patches)).

Definition parseEnvOverriders (helper : helpData) (overriders : list EnvOverrider) : list OverridePatch + string :=
  match overriders with
  | [] => inl []
  | _ =>
      bind_error (helperPodSpec helper) (fun podSpec =>
      bind_error (overrideContainers helper podSpec EnvTarget eo_ContainerName con_Env applyEnvOverrider overriders)
        (convertPatchMap Marshal_EnvVars))
  end.

Definition getCommandOrArgsFromContainer (container : Container) (target : string) : slice string :=
  if String.eqb target CommandTarget then con_Command container else con_Args container.

Definition parseEntrypointOverriders (helper : helpData) (overriders : list EntrypointOverrider) (target : string)
    : list OverridePatch + string :=
  match overriders with
  | [] => inl []
  | _ =>
      bind_error (helperPodSpec helper) (fun podSpec =>
      bind_error (overrideContainers helper podSpec target po_ContainerName
        (fun c => getCommandOrArgsFromContainer c target) applyEntrypointOverrider overriders)
        (convertPatchMap Marshal_Strings))
  end.

(** ** Images ([imagepatch.go], [imageparse.go]) *)

(** A value at a slash path; keys are not unescaped. *)
Fixpoint getFields (currentObj : Value) (fields : list string) : Value + string :=
  match fields with
  | [] => inl currentObj
  | field :: fields =>
      match currentObj with
      | VMap obj => getFields (default VNull (obj !! field)) fields
      | VList obj =>
          match ParseIntSize 32 field with
          | inr _ => inr ("slice found, but the next path segment is not a number: " ++ field)%string
          | inl index =>
              if (index <? 0) || (Z.of_nat (length obj) <=? index) then inr "index is negative or out of range"%string
              else getFields (nth (Z.to_nat index) obj VNull) fields
          end
      | _ => inr "accessor error: unknown type"%string
      end
  end.

Definition GetStringFromUnstructuredObj (input : Unstructured) (path : string) : string + string :=
  let fields := split_on "/" (Trim "/" path) in
  bind_error (getFields (VMap (uns_Object input)) fields) (fun currentObj =>
    match currentObj with
    | VString value => inl value
    | _ => inr (quote path ++ " does not point to a string field")%string
    end).

Definition applyOperation (newImage : Image) (operation : Operation) : Image + string :=
  let operator := if String.eqb (opn_Operator operation) "" then OperatorOverwrite else opn_Operator operation in
  let value := opn_Value operation in
  let component := opn_ImageComponent operation in
  if String.eqb component "Registry" then OperateRegistry newImage operator value
  else if String.eqb component "Repository" then OperateRepository newImage operator value
  else if String.eqb component "Tag" then OperateTag newImage operator value
  else if String.eqb component "Digest" then OperateDigest newImage operator value
  else inr ("unsupported image component(" ++ component ++ ")")%string.

Definition applyImageOverrider (oldImage : string) (imageOverrider : ImageOverrider) : string + string :=
  bind_error (ParseImage oldImage) (fun newImage =>
  bind_error (foldl_error applyOperation newImage (io_Operations imageOverrider)) (fun newImage =>
    inl (Image_String newImage))).

Definition parsePatchesFromImagePath (helper : helpData) (imageOverrider : ImageOverrider)
    (patchMap : gmap string string) : gmap string string + string :=
  let imagePath := io_ImagePath imageOverrider in
  if negb (HasPrefix imagePath "/") then inr "image path should be start with /"%string
  else
    let imageValue := default ""%string (patchMap !! imagePath) in
    bind_error (if String.eqb imageValue "" then GetStringFromUnstructuredObj (hd_sourceObj helper) imagePath
                else inl imageValue) (fun imageValue =>
    bind_error (applyImageOverrider imageValue imageOverrider) (fun newImageValue =>
      inl (<[imagePath := newImageValue]> patchMap))).

Definition parsePatchesFromWorkload (helper : helpData) (imageOverrider : ImageOverrider)
    (patchMap : gmap string string) : gmap string string + string :=
  bind_error (helperPodSpec helper) (fun podSpec =>
    let specifiedContainers : gset string :=
      list_to_set (filter (fun name => name <> ""%string) (io_ContainerNames imageOverrider)) in
    foldl_error (fun patchMap '(containerKind, containerIndex, container) =>
      if Nat.eqb (length (io_ContainerNames imageOverrider)) 0 || bool_decide (con_Name container ∈ specifiedContainers)
      then
        bind_error (generateTargetPathForPodSpec (hd_gvk helper) containerKind ImageTarget containerIndex) (fun imagePath =>
        let imageValue := default (con_Image container) (patchMap !! imagePath) in
        bind_error (applyImageOverrider imageValue imageOverrider) (fun newImageValue =>
          inl (<[imagePath := newImageValue]> patchMap)))
      else inl patchMap) patchMap (indexedContainers podSpec)).

Definition parseImageOverriders (helper : helpData) (imageOverriders : list ImageOverrider)
    : list OverridePatch + string :=
  bind_error (foldl_error (fun patchMap imageOverrider =>
    if negb (String.eqb (io_ImagePath imageOverrider) "") then parsePatchesFromImagePath helper imageOverrider patchMap
    else parsePatchesFromWorkload helper imageOverrider patchMap) ∅ imageOverriders)
    (convertPatchMap (fun value => inl (quote value))).

(** ** The overriders of a rule ([util.go]) *)

Definition parseJSONPatchOverriders (overriders : list JsonPatchOverrider) : list OverridePatch + string :=
  foldl_error (fun patches overrider =>
    bind_error (if (0 <? Z.of_nat (String.length (jo_Value overrider))) then Unmarshal_JSON (jo_Value overrider)
                else inl ""%string) (fun value =>
      inl (patches ++ [{| Op := jo_Operator overrider; Path := jo_Path overrider; op_Value := value |}])))
    [] overriders.

Definition parsePatchesFromOverriders (helper : helpData) (overriders : option Overriders)
    : list OverridePatch + string :=
  match overriders with
  | None => inl []
  | Some overriders =>
      bind_error (parseImageOverriders helper (ov_Image overriders)) (fun imagePatches =>
      bind_error (parseEntrypointOverriders helper (ov_Command overriders) CommandTarget) (fun commandPatches =>
      bind_error (parseEntrypointOverriders helper (ov_Args overriders) ArgsTarget) (fun argsPatches =>
      bind_error (parseEnvOverriders helper (ov_Envs overriders)) (fun envsPatches =>
      bind_error (parseStringMapOverriders helper (ov_Annotations overriders) AnnotationsTarget) (fun annotationsPatches =>
      bind_error (parseStringMapOverriders helper (ov_Labels overriders) LabelsTarget) (fun labelsPatches =>
      bind_error (parseJSONPatchOverriders (ov_JsonPatch overriders)) (fun jsonPatches =>
        inl (imagePatches ++ commandPatches ++ argsPatches ++ envsPatches ++ annotationsPatches ++ labelsPatches ++
             jsonPatches))))))))
  end.

Definition ignoreFinalizerPatches (p : list OverridePatch) : list OverridePatch :=
  filter (fun patch => HasPrefix (Path patch) "/metadata/finalizers" = false) p.

(** ** Matching clusters *)

Definition isClusterMatchedByClusterNames (clusterNames : list string) (cluster : FederatedCluster) : bool :=
  match clusterNames with
  | [] => true
  | _ => existsb (fun clusterName => String.eqb clusterName (c_Name cluster)) clusterNames
  end.

Definition isClusterMatchedByClusterSelector (clusterSelector : gmap string string) (cluster : FederatedCluster)
    : bool + string :=
  match LabelSelectorAsSelector clusterSelector with
  | inr err => inr ("failed to interpret clusterSelector: " ++ err)%string
  | inl selector => inl (Selector_Matches selector (c_Labels cluster))
  end.

Definition isClusterMatchedByClusterAffinity (clusterAffinity : list ClusterSelectorTerm) (cluster : FederatedCluster)
    : bool + string :=
  match clusterAffinity with
  | [] => inl true
  | _ => MatchClusterSelectorTerms clusterAffinity cluster
  end.

Definition isClusterMatched (targetClusters : option TargetClusters) (cluster : FederatedCluster) : bool + string :=
  match targetClusters with
  | None => inl true
  | Some targetClusters =>
      if negb (isClusterMatchedByClusterNames (tc_Clusters targetClusters) cluster) then inl false
      else
        bind_error (isClusterMatchedByClusterSelector (tc_ClusterSelector targetClusters) cluster) (fun matched =>
        if negb matched then inl false
        else isClusterMatchedByClusterAffinity (tc_ClusterAffinity targetClusters) cluster)
  end.

(** ** The overrides of a policy *)

Definition getGVKFromFederatedObject (fedObject : FederatedObject) : GroupVersionKind + string :=
  bind_error (GetTemplateAsUnstructured (fo_Spec fedObject)) (fun sourceObj => inl (uns_GroupVersionKind sourceObj)).

Definition getHelpDataFromFedObj (fedObj : FederatedObject) : helpData + string :=
  bind_error (getGVKFromFederatedObject fedObj) (fun gvk =>
  bind_error (GetTemplateAsUnstructured (fo_Spec fedObj)) (fun sourceObj =>
    inl {| hd_gvk := gvk; hd_sourceObj := sourceObj |})).

Definition parseRule (fedObject : FederatedObject) (cluster : FederatedCluster)
    (s : Helpers * list OverridePatch) (rule : OverrideRule) : (Helpers * list OverridePatch) + string :=
  let '(helpers, patches) := s in
  bind_error (isClusterMatched (or_TargetClusters rule) cluster) (fun matched =>
  if negb matched then inl s
  else
    bind_error (match helpers !! c_Name cluster with
                | Some helper => inl helper
                | None => getHelpDataFromFedObj fedObject
                end) (fun helper =>
    bind_error (parsePatchesFromOverriders helper (or_Overriders rule)) (fun currPatches =>
    bind_error (ApplyJSONPatch (hd_sourceObj helper) (ignoreFinalizerPatches currPatches)) (fun sourceObj =>
      inl (<[c_Name cluster := {| hd_gvk := hd_gvk helper; hd_sourceObj := sourceObj |}]> helpers,
           patches ++ currPatches))))).

Definition parseCluster (fedObject : FederatedObject) (rules : list OverrideRule) (s : Helpers * OverridesMap)
    (cluster : FederatedCluster) : (Helpers * OverridesMap) + string :=
  let '(helpers, overrides) := s in
  bind_error (foldl_error (parseRule fedObject cluster) (helpers, []) rules) (fun '(helpers, patches) =>
    inl (helpers, match patches with [] => overrides | _ => <[c_Name cluster := patches]> overrides end)).

Definition parseOverrides (policy : GenericOverridePolicy) (clusters : list FederatedCluster)
    (fedObject : FederatedObject) (helpers : Helpers) : (Helpers * OverridesMap) + string :=
  foldl_error (parseCluster fedObject (OverrideRules policy)) (helpers, ∅) clusters.

Definition mergeOverrides (dest src : OverridesMap) : OverridesMap :=
  foldl (fun dest '(clusterName, srcOverrides) =>
    <[clusterName := default [] (dest !! clusterName) ++ srcOverrides]> dest) dest (range_map src).

Definition overridesList (m : OverridesMap) : list ClusterReferenceWithPatches :=
  (fun '(clusterName, clusterOverrides) => {| crp_Cluster := clusterName; Patches := clusterOverrides |}) <$> range_map m.

Definition setOverrides (federatedObj : FederatedObject) (m : OverridesMap) : FederatedObject :=
  let m := filter (fun '(_, clusterOverrides) => clusterOverrides <> []) m in
  let spec := fo_Spec federatedObj in
  setSpec federatedObj
    (if Nat.eqb (size m) 0 then (DeleteControllerOverrides spec PrefixedControllerName).1
     else (SetControllerOverrides spec PrefixedControllerName (overridesList m)).1).

Definition convertOverridesListToMap (overridesList : list ClusterReferenceWithPatches) : OverridesMap :=
  foldl (fun ret override => <[crp_Cluster override := Patches override]> ret) ∅ overridesList.

(** ** The controller ([overridepolicy_controller.go]) *)

Record OverrideController := {
  oc_FederatedObject : string -> string -> FederatedObject + ApiError;
  oc_ClusterFederatedObject : string -> FederatedObject + ApiError;
  oc_OverridePolicy : string -> string -> GenericOverridePolicy + ApiError;
  oc_ClusterOverridePolicy : string -> GenericOverridePolicy + ApiError;
  oc_FederatedClusters : list FederatedCluster + ApiError;
  oc_ResourceFTC : GroupVersionKind -> option FederatedTypeConfig;
  oc_Update : FederatedObject -> option ApiError;
  oc_ListFederatedObjects : option string -> Selector -> list FederatedObject + ApiError;
  oc_ListClusterFederatedObjects : Selector -> list FederatedObject + ApiError
}.

Variable c : OverrideController.

(** One of the policies of an object: the policy, or whether to check again. *)
Definition lookForPolicy (name : string) (get : string -> GenericOverridePolicy + ApiError)
    : GenericOverridePolicy + bool :=
  if String.eqb name "" then inr false
  else match get name with
       | inl policy => inl policy
       | inr err => inr (negb (IsNotFound err))
       end.

Definition lookForMatchedPolicies (obj : FederatedObject) (isNamespaced : bool)
    : list GenericOverridePolicy + bool :=
  let labels := fo_Labels obj in
  let clusterPolicies :=
    match labels !! ClusterOverridePolicyNameLabel with
    | None => inl []
    | Some clusterPolicyName =>
        match lookForPolicy clusterPolicyName (oc_ClusterOverridePolicy c) with
        | inl policy => inl [policy]
        | inr recheck => inr recheck
        end
    end in
  match clusterPolicies with
  | inr recheck => inr recheck
  | inl policies =>
      match labels !! OverridePolicyNameLabel with
      | Some policyName =>
          if isNamespaced then
            match lookForPolicy policyName (oc_OverridePolicy c (fo_Namespace obj)) with
            | inl policy => inl (policies ++ [policy])
            | inr recheck => inr recheck
            end
          else inl policies
      | None => inl policies
      end
  end.

Definition getFederatedObject (qualifiedName : QualifiedName) : option FederatedObject + ApiError :=
  let cachedObj :=
    if String.eqb (qn_Namespace qualifiedName) "" then oc_ClusterFederatedObject c (qn_Name qualifiedName)
    else oc_FederatedObject c (qn_Namespace qualifiedName) (qn_Name qualifiedName) in
  match cachedObj with
  | inl obj => inl (Some obj)
  | inr err => if IsNotFound err then inl None else inr err
  end.

Definition getPlacedClusters (fedObject : FederatedObject) : list FederatedCluster + ApiError :=
  match oc_FederatedClusters c with
  | inr err => inr err
  | inl clusterObjs =>
      inl (filter (fun clusterObj => c_Name clusterObj ∈ GetPlacementUnion (fo_Spec fedObject)) clusterObjs)
  end.

(** The overrides of all policies, in order. *)
Definition applyPolicy (placedClusters : list FederatedCluster) (fedObject : FederatedObject)
    (s : Helpers * OverridesMap) (policy : GenericOverridePolicy) : (Helpers * OverridesMap) + string :=
  let '(helpers, overrides) := s in
  bind_error (parseOverrides policy placedClusters fedObject helpers) (fun '(helpers, newOverrides) =>
    inl (helpers, mergeOverrides overrides newOverrides)).

Definition computeOverrides (policies : list GenericOverridePolicy) (placedClusters : list FederatedCluster)
    (fedObject : FederatedObject) : OverridesMap + string :=
  bind_error (foldl_error (applyPolicy placedClusters fedObject) (∅, ∅) policies) (fun '(_, overrides) => inl overrides).

(** The end of [reconcile], from the overrides on: the object sent to the API
    server, if any.  An update that fails for another reason than a conflict is
    not tried again. *)
Definition applyOverrides (typeConfig : FederatedTypeConfig) (fedObject : FederatedObject) (overrides : OverridesMap)
    : WorkerResult * option FederatedObject :=
  let currentOverrides := convertOverridesListToMap
    (GetControllerOverrides (fo_Spec fedObject) PrefixedControllerName) in
  let needsUpdate := negb (bool_decide (overrides = currentOverrides)) in
  let fedObject := if needsUpdate then setOverrides fedObject overrides else fedObject in
  match UpdatePendingControllers fedObject PrefixedControllerName needsUpdate (GetControllers typeConfig) with
  | inr _ => (StatusError, None)
  | inl (fedObject, pendingControllersUpdated) =>
      if needsUpdate || pendingControllersUpdated then
        match oc_Update c fedObject with
        | None => (StatusAllOK, Some fedObject)
        | Some err => (if IsConflict err then StatusConflict else StatusAllOK, Some fedObject)
        end
      else (StatusAllOK, None)
  end.

Definition reconcile (qualifiedName : QualifiedName) : WorkerResult * option FederatedObject :=
  match getFederatedObject qualifiedName with
  | inr _ => (StatusError, None)
  | inl None => (StatusAllOK, None)
  | inl (Some fedObject) =>
      if bool_decide (is_Some (fo_DeletionTimestamp fedObject)) then (StatusAllOK, None)
      else
        match GetTemplateMetadata (fo_Spec fedObject) with
        | inr _ => (StatusError, None)
        | inl templateMetadata =>
            match oc_ResourceFTC c (tm_GVK templateMetadata) with
            | None => (StatusAllOK, None)
            | Some typeConfig =>
                match ControllerDependenciesFulfilled fedObject PrefixedControllerName with
                | inr _ => (StatusError, None)
                | inl false => (StatusAllOK, None)
                | inl true =>
                    match lookForMatchedPolicies fedObject (negb (String.eqb (fo_Namespace fedObject) "")) with
                    | inr recheckOnErr => (if (recheckOnErr : bool) then StatusError else StatusAllOK, None)
                    | inl policies =>
                        match getPlacedClusters fedObject with
                        | inr _ => (StatusError, None)
                        | inl placedClusters =>
                            match computeOverrides policies placedClusters fedObject with
                            | inr _ => (StatusError, None)
                            | inl overrides => applyOverrides typeConfig fedObject overrides
                            end
                        end
                    end
                end
            end
        end
  end.

(** ** Events *)

Definition enqueueFederatedObjectsForFTC (ftc : FederatedTypeConfig) : list QualifiedName :=
  let gvk := GetSourceTypeGVK ftc in
  let labelsSet : gmap string string :=
    {[ GroupVersion_String {| gv_Group := gvk_Group gvk; gv_Version := gvk_Version gvk |} := gvk_Kind gvk ]} in
  let allObjects :=
    if String.eqb (ar_Scope (SourceType ftc)) "Namespaced" then oc_ListFederatedObjects c None (SelectorFromSet labelsSet)
    else oc_ListClusterFederatedObjects c (SelectorFromSet labelsSet) in
  match allObjects with
  | inr _ => []
  | inl allObjects => (fun o => {| qn_Namespace := fo_Namespace o; qn_Name := fo_Name o |}) <$> allObjects
  end.

Definition namespacedName (o : FederatedObject) : QualifiedName := {| qn_Namespace := fo_Namespace o; qn_Name := fo_Name o |}.
Definition clusterName (o : FederatedObject) : QualifiedName := {| qn_Namespace := ""; qn_Name := fo_Name o |}.

Definition enqueueFedObjectsUsingPolicy (policy : GenericOverridePolicy) (labelKey : string) : list QualifiedName :=
  let selector := SelectorFromSet {[labelKey := gop_Name policy]} in
  match oc_ListClusterFederatedObjects c selector with
  | inr _ => []
  | inl clusterFedObjects =>
      (clusterName <$> clusterFedObjects) ++
      match oc_ListFederatedObjects c
              (if String.eqb (gop_Namespace policy) "" then None else Some (gop_Namespace policy)) selector with
      | inr _ => []
      | inl fedObjects => namespacedName <$> fedObjects
      end
  end.

(** The objects with one of the labels; the loop returns at the first error. *)
Fixpoint objectsWithLabels (keys : list string) : list QualifiedName :=
  match keys with
  | [] => []
  | key :: keys =>
      match NewRequirement key selection_Exists [] with
      | inr _ => []
      | inl requirement =>
          let selector := Selector_Add NewSelector requirement in
          match oc_ListFederatedObjects c None selector with
          | inr _ => []
          | inl fedObjects =>
              (namespacedName <$> fedObjects) ++
              if String.eqb key ClusterOverridePolicyNameLabel then
                match oc_ListClusterFederatedObjects c selector with
                | inr _ => []
                | inl clusterFedObjects => (clusterName <$> clusterFedObjects) ++ objectsWithLabels keys
                end
              else objectsWithLabels keys
          end
      end
  end.

Definition reconcileOnClusterChange : list QualifiedName :=
  objectsWithLabels [OverridePolicyNameLabel; ClusterOverridePolicyNameLabel].

(** The handlers of updates of clusters and of type configs. *)
Definition onFTCUpdate (lastObserved latest : option FederatedTypeConfig) : list QualifiedName :=
  match lastObserved, latest with
  | None, Some latest => enqueueFederatedObjectsForFTC latest
  | _, _ => []
  end.
Definition onClusterUpdate (oldCluster newCluster : FederatedCluster) : list QualifiedName :=
  if bool_decide (c_Labels oldCluster = c_Labels newCluster) then [] else reconcileOnClusterChange.
End Overriders.
