(* ===== verification/OverriderTheorems.v ===== *)
(** * The overriders: properties

    The environment overrider, which works on the indexes of each name, does
    what its documentation says of the list of variables; annotations and labels
    are overridden key by key; images keep the parts that no operation names. *)

From Stdlib Require Import ZArith Lia String Ascii.
From S2P Require Import Prelude GoStrings K8s Types ApiTypes Unstructured Codecs FedObject PodUtil FilterPlugins.
From S2P Require Import SyncResource OverridePolicy.

(** ** Environment variables *)

(** What each operator means for the list of variables. *)
Definition lastNamed (n : string) (envs : list EnvVar) : option EnvVar :=
  last (filter (fun e => ev_Name e = n) envs).

Definition fresh (value envs : list EnvVar) : Prop :=
  envs <> [] /\ NoDup (ev_Name <$> envs) /\ Forall (fun e => ev_Name e ∉ ev_Name <$> value) envs.
#[export] Instance fresh_dec value envs : Decision (fresh value envs).
Proof. unfold fresh. apply _. Defined.

Definition envReference (operator : string) (value envs : list EnvVar) : option (list EnvVar) :=
  if String.eqb operator OperatorAddIfAbsent then
    if decide (fresh value envs) then Some (value ++ envs) else None
  else if String.eqb operator OperatorOverwrite then
    Some ((fun old => default old (lastNamed (ev_Name old) envs)) <$> value)
  else if String.eqb operator OperatorDelete then
    Some (filter (fun old => ev_Name old ∉ ev_Name <$> envs) value)
  else match envs with [] => Some value | _ => None end.

(** The positions of a name, counted from [k]. *)
Fixpoint positions (n : string) (k : nat) (value : list EnvVar) : list nat :=
  match value with
  | [] => []
  | e :: value => if decide (ev_Name e = n) then k :: positions n (S k) value else positions n (S k) value
  end.

Lemma positions_app n k v w : positions n k (v ++ w) = positions n k v ++ positions n (k + length v) w.
Proof.
  revert k. induction v as [|e v IH]; intros k; simpl; [by rewrite Nat.add_0_r|].
  rewrite IH. replace (S k + length v)%nat with (k + S (length v))%nat by lia. by case_decide.
Qed.

Lemma positions_nil n k v : positions n k v = [] <-> n ∉ ev_Name <$> v.
Proof.
  revert k. induction v as [|e v IH]; intros k; simpl; [split; [intros _; apply not_elem_of_nil|done]|].
  rewrite not_elem_of_cons. case_decide; [split; [done|naive_solver]|]. rewrite IH. naive_solver.
Qed.

Lemma positions_names n k v w : ev_Name <$> v = ev_Name <$> w -> positions n k v = positions n k w.
Proof.
  revert k w. induction v as [|e v IH]; intros k [|e' w]; simpl; try done.
  intros [= He Hw]. rewrite He. by case_decide; rewrite (IH (S k) w Hw).
Qed.

Definition nonnil {A} (l : list A) : option (list A) := match l with [] => None | _ => Some l end.

Lemma nonnil_app {A} (l : list A) x : nonnil (l ++ [x]) = Some (l ++ [x]).
Proof. by destruct l. Qed.

Lemma envIndexes_lookup v n : envIndexes v !! n = nonnil (positions n 0 v).
Proof.
  unfold envIndexes. set (step := fun mapValue '(index, oldEnv) => _).
  enough (forall l k (m : gmap string (list nat)) p, m !! n = nonnil p ->
    foldl step m (imap (fun i => pair (k + i)%nat) l) !! n = nonnil (p ++ positions n k l)) as H by by apply (H v 0%nat ∅ []).
  intros l. induction l as [|e l IH]; intros k m p Hm; simpl; [by rewrite app_nil_r|].
  rewrite Nat.add_0_r. rewrite (imap_ext _ (fun i => pair (S k + i)%nat)) by (intros; simpl; f_equal; lia).
  case_decide as En.
  - replace (p ++ k :: positions n (S k) l) with ((p ++ [k]) ++ positions n (S k) l) by (by rewrite <- app_assoc).
    apply IH. subst n. rewrite lookup_insert_eq, Hm, nonnil_app. by destruct p.
  - apply IH. by rewrite lookup_insert_ne.
Qed.

(** *** Delete *)

Definition others (n : string) (v : list EnvVar) : list EnvVar := filter (fun e => ev_Name e <> n) v.

Lemma others_nop n v : n ∉ ev_Name <$> v -> others n v = v.
Proof.
  induction v as [|e v IH]; [done|]. rewrite fmap_cons, not_elem_of_cons. intros [He Hv]. unfold others.
  rewrite filter_cons, decide_True by done. f_equal. by apply IH.
Qed.

(** The segments between the positions, and the rest. *)
Lemma removeIndexes_list n v : n ∈ ev_Name <$> v -> default [] (removeIndexes v (positions n 0 v)) = others n v.
Proof.
  intros Hn. unfold removeIndexes. set (step := fun '(_, _, _) _ => _).
  assert (forall l pre (tmp : slice EnvVar) start lst, v = pre ++ l -> (start <= length pre)%nat ->
    let '(tmp', start', lst') := foldl step (tmp, start, lst) (positions n (length pre) l) in
    default [] tmp' ++ drop start' v = default [] tmp ++ drop start pre ++ others n l /\
    (n ∈ ev_Name <$> l -> start' = S lst')) as H.
  { intros l. induction l as [|e l IH]; intros pre tmp start lst -> Hs.
    - simpl. rewrite !app_nil_r. split; [done|]. by intros ?%elem_of_nil.
    - cbn [positions]. replace (S (length pre)) with (length (pre ++ [e])) by (rewrite length_app; simpl; lia).
      unfold others. rewrite filter_cons. case_decide as En.
      + rewrite decide_False by (intros H; by apply H). cbn [foldl]. unfold step at 2.
        assert (Hv : pre ++ e :: l = (pre ++ [e]) ++ l) by (by rewrite <- app_assoc).
        pose proof (IH (pre ++ [e]) (append tmp (take (length pre - start) (drop start (pre ++ e :: l))))
          (S (length pre)) (length pre) Hv) as H.
        specialize (H ltac:(rewrite length_app; simpl; lia)).
        destruct (foldl step _ _) as [[tmp' start'] lst'] eqn:Ef. destruct H as [-> Hl]. split.
        * rewrite append_list, drop_app_le, take_app_le by (rewrite ?length_drop; lia).
          rewrite take_ge by (rewrite length_drop; lia). rewrite (drop_ge (pre ++ [e])) by (rewrite length_app; simpl; lia).
          by rewrite <- app_assoc.
        * intros _. destruct (decide (n ∈ ev_Name <$> l)) as [Hin|Hin]; [by apply Hl|].
          apply (positions_nil n (length (pre ++ [e]))) in Hin. rewrite Hin in Ef. simpl in Ef. by injection Ef as _ <- <-.
      + rewrite decide_True by done. pose proof (IH (pre ++ [e]) tmp start lst) as H.
        rewrite <- app_assoc in H. specialize (H eq_refl ltac:(rewrite length_app; simpl; lia)).
        destruct (foldl step _ _) as [[tmp' start'] lst']. destruct H as [-> Hl]. split.
        * rewrite drop_app_le by lia. by rewrite <- app_assoc.
        * rewrite fmap_cons, elem_of_cons. intros [Hin|Hin]; [congruence|by apply Hl]. }
  specialize (H v [] None 0%nat 0%nat eq_refl ltac:(simpl; lia)). simpl in H.
  destruct (foldl step _ _) as [[tmp start] lst]. destruct H as [H Hl]. rewrite <- H, (Hl Hn).
  destruct (Z.eqb_spec (Z.of_nat lst) (Z.of_nat (length v) - 1)); simpl; [|by rewrite append_list].
  rewrite drop_ge by lia. by rewrite app_nil_r.
Qed.

(** *** Overwrite *)

Definition overwriteWith (env old : EnvVar) : EnvVar := if decide (ev_Name old = ev_Name env) then env else old.

Lemma overwrite_list env v :
  foldl (fun value index => <[index := env]> value) v (positions (ev_Name env) 0 v) = overwriteWith env <$> v.
Proof.
  enough (forall l pre, foldl (fun value index => <[index := env]> value) (pre ++ l)
    (positions (ev_Name env) (length pre) l) = pre ++ (overwriteWith env <$> l)) as H by apply (H v []).
  intros l. induction l as [|e l IH]; intros pre; [done|]. cbn [positions fmap list_fmap].
  unfold overwriteWith at 1. case_decide as En; cbn [foldl].
  - replace (length pre) with (length pre + 0)%nat at 1 by lia. rewrite insert_app_r. cbn [insert list_insert].
    pose proof (IH (pre ++ [env])) as H.
    rewrite <- !app_assoc, length_app, Nat.add_1_r in H. exact H.
  - pose proof (IH (pre ++ [e])) as H. rewrite <- !app_assoc, length_app, Nat.add_1_r in H. exact H.
Qed.

Lemma overwriteWith_names env (v : list EnvVar) : ev_Name <$> (overwriteWith env <$> v) = ev_Name <$> v.
Proof.
  rewrite <- list_fmap_compose. apply list_fmap_ext. intros _ old _. simpl. unfold overwriteWith. by case_decide.
Qed.

(** *** The loop over the variables *)

Definition represents (m : gmap string (list nat)) (v : list EnvVar) : Prop :=
  forall n, m !! n = nonnil (positions n 0 v).

Lemma represents_Some m v n l : represents m v -> m !! n = Some l -> l = positions n 0 v /\ n ∈ ev_Name <$> v.
Proof.
  intros Hm Hl. rewrite Hm in Hl. destruct (decide (n ∈ ev_Name <$> v)) as [Hn|Hn].
  - destruct (positions n 0 v) eqn:E; [done|]. injection Hl as <-. done.
  - apply (positions_nil n 0) in Hn. by rewrite Hn in Hl.
Qed.

Lemma represents_None m v n : represents m v -> m !! n = None -> n ∉ ev_Name <$> v.
Proof. intros Hm Hl. rewrite Hm in Hl. apply (positions_nil n 0). by destruct (positions n 0 v). Qed.

Definition refStep (operator : string) (v : list EnvVar) (env : EnvVar) : option (list EnvVar) :=
  if String.eqb operator OperatorAddIfAbsent then
    if decide (ev_Name env ∈ ev_Name <$> v) then None else Some (v ++ [env])
  else if String.eqb operator OperatorOverwrite then Some (overwriteWith env <$> v)
  else if String.eqb operator OperatorDelete then Some (others (ev_Name env) v)
  else None.

Lemma envStep_ref operator value m env : represents m (default [] value) ->
  match envStep operator (value, m) env with
  | inl (value', m') => refStep operator (default [] value) env = Some (default [] value') /\ represents m' (default [] value')
  | inr _ => refStep operator (default [] value) env = None
  end.
Proof.
  intros Hm. unfold envStep, refStep. destruct (String.eqb operator OperatorAddIfAbsent).
  - destruct (m !! ev_Name env) as [l|] eqn:El.
    + by rewrite decide_True by by eapply represents_Some.
    + pose proof (represents_None _ _ _ Hm El) as Hn. rewrite decide_False by done.
      simpl. split; [done|]. intros n. rewrite length_app, positions_app. simpl.
      destruct (decide (ev_Name env = n)) as [<-|Hne].
      * apply (positions_nil _ 0) in Hn. rewrite lookup_insert_eq, Hn. simpl. do 2 f_equal. rewrite ?length_app. simpl. lia.
      * rewrite lookup_insert_ne, app_nil_r by done. apply Hm.
  - destruct (String.eqb operator OperatorOverwrite).
    + destruct (m !! ev_Name env) as [l|] eqn:El.
      * destruct (represents_Some _ _ _ _ Hm El) as [-> Hn]. destruct value as [v|]; [|by apply elem_of_nil in Hn].
        simpl in *. rewrite overwrite_list. split; [done|]. intros n.
        rewrite (positions_names n 0 _ v) by apply overwriteWith_names. apply Hm.
      * split; [|done]. f_equal. apply (represents_None _ _ _ Hm) in El. rewrite <- (list_fmap_id (default [] value)) at 2.
        apply list_fmap_ext. intros i x Hx. unfold overwriteWith. rewrite decide_False; [done|]. intros Heq. apply El.
        rewrite <- Heq. by eapply list_elem_of_fmap_2, list_elem_of_lookup_2.
    + destruct (String.eqb operator OperatorDelete); [|done].
      destruct (m !! ev_Name env) as [l|] eqn:El.
      * destruct (represents_Some _ _ _ _ Hm El) as [-> Hn]. rewrite removeIndexes_list by done.
        split; [done|]. intros n. apply envIndexes_lookup.
      * split; [|done]. f_equal. apply others_nop. by eapply represents_None.
Qed.

Fixpoint refLoop (operator : string) (v envs : list EnvVar) : option (list EnvVar) :=
  match envs with
  | [] => Some v
  | env :: envs => v ← refStep operator v env; refLoop operator v envs
  end.

Lemma envLoop_ref operator envs value m : represents m (default [] value) ->
  match foldl_error (envStep operator) (value, m) envs with
  | inl (value', _) => refLoop operator (default [] value) envs = Some (default [] value')
  | inr _ => refLoop operator (default [] value) envs = None
  end.
Proof.
  revert value m. induction envs as [|env envs IH]; intros value m Hm; [done|]. cbn [foldl_error refLoop].
  pose proof (envStep_ref operator value m env Hm) as H. destruct (envStep operator (value, m) env) as [[value' m']|].
  - destruct H as [-> Hm']. simpl. by apply IH.
  - by rewrite H.
Qed.

(** *** The loop against the reference *)

Lemma refLoop_add v envs : refLoop OperatorAddIfAbsent v envs =
  if decide (NoDup (ev_Name <$> envs) /\ Forall (fun e => ev_Name e ∉ ev_Name <$> v) envs) then Some (v ++ envs) else None.
Proof.
  revert v. induction envs as [|env envs IH]; intros v; cbn [refLoop].
  - rewrite decide_True by (split; constructor). by rewrite app_nil_r.
  - unfold refStep at 1. rewrite String.eqb_refl. destruct (decide (ev_Name env ∈ ev_Name <$> v)) as [Hin|Hin]; simpl.
    + rewrite decide_False; [done|]. intros [_ H]. by inversion_clear H.
    + rewrite IH, <- app_assoc. simpl. apply decide_ext. rewrite NoDup_cons, Forall_cons, fmap_app. simpl.
      rewrite !Forall_forall. split.
      * intros [H1 H2]. split_and!; [|done..|].
        -- intros (e & He & Hine)%list_elem_of_fmap. apply (H2 e Hine), elem_of_app. right. rewrite He. left.
        -- intros e He H. by apply (H2 e He), elem_of_app; left.
      * intros [[H1 H2] [_ H3]]. split; [done|]. intros e He [H|H]%elem_of_app; [by apply (H3 e)|].
        apply list_elem_of_singleton in H. apply H1. rewrite <- H. by apply list_elem_of_fmap_2.
Qed.

Lemma refLoop_overwrite v envs : refLoop OperatorOverwrite v envs =
  Some ((fun old => default old (lastNamed (ev_Name old) envs)) <$> v).
Proof.
  revert v. induction envs as [|env envs IH]; intros v; cbn [refLoop].
  - by rewrite list_fmap_id.
  - unfold refStep at 1. simpl. rewrite IH. f_equal. rewrite <- list_fmap_compose. apply list_fmap_ext.
    intros _ old _. simpl. unfold lastNamed, overwriteWith. rewrite filter_cons.
    destruct (decide (ev_Name old = ev_Name env)) as [->|Hne]; [rewrite decide_True by done|by rewrite decide_False by done].
    rewrite last_cons. by destruct (last _).
Qed.

Lemma refLoop_delete v envs : refLoop OperatorDelete v envs =
  Some (filter (fun old => ev_Name old ∉ ev_Name <$> envs) v).
Proof.
  revert v. induction envs as [|env envs IH]; intros v; cbn [refLoop].
  - f_equal. symmetry. induction v as [|e v IH]; [done|]. rewrite filter_cons, decide_True by apply not_elem_of_nil. by f_equal.
  - unfold refStep at 1. simpl. rewrite IH. f_equal. unfold others. rewrite list_filter_filter.
    apply list_filter_iff. intros old. rewrite ?fmap_cons, ?not_elem_of_cons. tauto.
Qed.

Lemma refLoop_other operator v envs : operator <> OperatorAddIfAbsent -> operator <> OperatorOverwrite ->
  operator <> OperatorDelete -> refLoop operator v envs = match envs with [] => Some v | _ => None end.
Proof.
  intros H1%String.eqb_neq H2%String.eqb_neq H3%String.eqb_neq. destruct envs as [|env envs]; [done|]. simpl.
  unfold refStep. by rewrite H1, H2, H3.
Qed.

(** The environment overrider, which keeps the indexes of each name, does
    what its API documents: "addIfAbsent" appends the variables if there are
    some, their names are different and new, and fails otherwise; "overwrite",
    the default, replaces each variable by the last one of its name and leaves
    the others; "delete" removes the variables of the names given; any other
    operator is an error. *)
Theorem applyEnvOverrider_reference value o :
  match applyEnvOverrider value o with inl v => Some (default [] v) | inr _ => None end =
  envReference (if String.eqb (eo_Operator o) "" then OperatorOverwrite else eo_Operator o) (default [] value) (eo_Value o).
Proof.
  unfold applyEnvOverrider. set (operator := if String.eqb _ _ then _ else _). set (envs := eo_Value o).
  assert (Hm : represents (envIndexes (default [] value)) (default [] value)) by (intros n; apply envIndexes_lookup).
  pose proof (envLoop_ref operator envs value _ Hm) as Hl. unfold envReference.
  destruct (String.eqb_spec operator OperatorAddIfAbsent) as [E1|H1].
  - rewrite E1, refLoop_add in *. destruct (Nat.eqb_spec (length envs) 0) as [E|E]; simpl.
    + apply length_zero_iff_nil in E. rewrite E. by rewrite decide_False by (by intros [? _]).
    + assert (Hne : envs <> []) by (by intros E'; rewrite E' in E). unfold fresh.
      destruct (decide (NoDup (ev_Name <$> envs) /\ Forall (fun e => ev_Name e ∉ ev_Name <$> default [] value) envs)) as [Hf|Hf].
      * rewrite decide_True by done. destruct (foldl_error _ _ _) as [[]|]; cbn [bind_error]; congruence.
      * rewrite decide_False by (by intros [_ ?]). destruct (foldl_error _ _ _) as [[]|]; cbn [bind_error]; congruence.
  - rewrite andb_false_l. destruct (String.eqb_spec operator OperatorOverwrite) as [E2|H2].
    + rewrite E2, refLoop_overwrite in *. destruct (foldl_error _ _ _) as [[]|]; cbn [bind_error]; congruence.
    + destruct (String.eqb_spec operator OperatorDelete) as [E3|H3].
      * rewrite E3, refLoop_delete in *. destruct (foldl_error _ _ _) as [[]|]; cbn [bind_error]; congruence.
      * rewrite refLoop_other in Hl by done. destruct (foldl_error _ _ _) as [[]|]; cbn [bind_error]; congruence.
Qed.

(** ** Annotations and labels *)

Definition stringMapReference (operator : string) (m o : gmap string string) : option (gmap string string) :=
  if String.eqb operator OperatorAddIfAbsent then if decide (o <> ∅ /\ o ##ₘ m) then Some (o ∪ m) else None
  else if String.eqb operator OperatorOverwrite then Some ((o ∩ m) ∪ m)
  else if String.eqb operator OperatorDelete then Some (m ∖ o)
  else Some m.

Section StringMaps.
Context `{R : GoRuntime}.

Lemma addStep_list (m : gmap string string) (l : list (string * string)) : NoDup l.*1 ->
  match foldl_error (stringMapStep OperatorAddIfAbsent) m l with
  | inl m' => list_to_map l ##ₘ m /\ m' = list_to_map l ∪ m
  | inr _ => ~ (list_to_map l : gmap string string) ##ₘ m
  end.
Proof using Type.
  revert m. induction l as [|[k v] l IH]; intros m; simpl.
  - intros _. split; [apply map_disjoint_empty_l|by rewrite (left_id_L ∅ (∪))].
  - rewrite NoDup_cons. intros [Hk Hnd]. case_bool_decide as Hm; simpl.
    + rewrite map_disjoint_insert_l. intros [H _]. rewrite H in Hm. by destruct Hm.
    + apply eq_None_not_Some in Hm. specialize (IH (<[k:=v]> m) Hnd).
      assert (Hkl : (list_to_map l : gmap string string) !! k = None) by by apply not_elem_of_list_to_map_1.
      destruct (foldl_error _ _ _) as [m'|].
      * destruct IH as [Hd ->]. rewrite map_disjoint_insert_r in Hd. destruct Hd as [_ Hd]. split.
        -- by apply map_disjoint_insert_l.
        -- by rewrite <- insert_union_r, insert_union_l.
      * rewrite map_disjoint_insert_l. intros [_ Hd]. apply IH. by apply map_disjoint_insert_r.
Qed.

Lemma overwriteStep_list (m : gmap string string) (l : list (string * string)) : NoDup l.*1 ->
  foldl_error (stringMapStep OperatorOverwrite) m l = inl ((list_to_map l ∩ m) ∪ m).
Proof using Type.
  intros Hnd. rewrite (foldl_error_inl _ (fun m '(key, value) =>
    if bool_decide (is_Some (m !! key)) then <[key := value]> m else m)) by (by intros ? [] _).
  f_equal. apply map_eq. intros n. rewrite (foldl_point_list (fun (m : gmap string string) n => m !! n)
    (fun _ o v => match o with Some _ => Some v | None => None end)); [| |done].
  - rewrite lookup_union, lookup_intersection. destruct (_ !! n), (m !! n); done.
  - intros s k v n'. case_bool_decide as Hs; case_decide as E; subst.
    + rewrite lookup_insert_eq. by destruct Hs as [? ->].
    + by rewrite lookup_insert_ne.
    + apply eq_None_not_Some in Hs. by rewrite Hs.
    + done.
Qed.

Lemma deleteStep_list (m : gmap string string) (l : list (string * string)) : NoDup l.*1 ->
  foldl_error (stringMapStep OperatorDelete) m l = inl (m ∖ list_to_map l).
Proof using Type.
  intros Hnd. rewrite (foldl_error_inl _ (fun m '(key, _) => delete key m)) by (by intros ? [] _).
  f_equal. apply map_eq. intros n. rewrite (foldl_point_list (fun (m : gmap string string) n => m !! n)
    (fun _ _ _ => None)); [| |done].
  - rewrite lookup_difference. destruct (_ !! n), (m !! n); done.
  - intros s k v n'. case_decide as E; subst; [by rewrite lookup_delete_eq|by rewrite lookup_delete_ne].
Qed.

(** Annotations and labels are overridden as the API documents, whatever the
    order in which the runtime visits the map of the overrider; an operator that
    the API does not know changes nothing. *)
Lemma applyStringMapOverrider_reference m o :
  match applyStringMapOverrider m o with inl m' => Some m' | inr _ => None end =
  stringMapReference (if String.eqb (so_Operator o) "" then OperatorOverwrite else so_Operator o) m (so_Value o).
Proof using Type.
  unfold applyStringMapOverrider, stringMapReference. set (operator := if String.eqb _ _ then _ else _).
  pose proof (NoDup_range_map_fst (so_Value o)) as Hnd.
  destruct (String.eqb_spec operator OperatorAddIfAbsent) as [->|H1].
  - simpl. destruct (Nat.eqb_spec (size (so_Value o)) 0) as [E|E].
    + apply map_size_empty_inv in E. by rewrite decide_False by (by intros [? _]).
    + pose proof (addStep_list m (range_map (so_Value o)) Hnd) as H.
      rewrite list_to_map_range_map in H.
      destruct (foldl_error _ _ _) as [m'|].
      * destruct H as [Hd ->]. rewrite decide_True; [done|]. split; [|done]. intros He. by rewrite He, map_size_empty in E.
      * by rewrite decide_False by (by intros [_ ?]).
  - rewrite andb_false_l. destruct (String.eqb_spec operator OperatorOverwrite) as [->|H2]; [by rewrite overwriteStep_list, list_to_map_range_map|].
    destruct (String.eqb_spec operator OperatorDelete) as [->|H3]; [by rewrite deleteStep_list, list_to_map_range_map|].
    rewrite (foldl_error_inl _ (fun m _ => m)).
    + f_equal. generalize (range_map (so_Value o)). intros l. by induction l.
    + intros m' [k v] _. unfold stringMapStep.
      apply String.eqb_neq in H1, H2, H3. by rewrite H1, H2, H3.
Qed.
End StringMaps.

(** ** Images *)

Section Images.
Context `{IR : ImageReferences}.

Lemma Split_join name : let '(registry, repository) := SplitRegistryAndRepository name in
  (if negb (String.eqb registry "") then (registry ++ "/" ++ repository)%string else repository) = name \/ registry = ""%string.
Proof using Type.
  unfold SplitRegistryAndRepository. pose proof (cut_spec "/" name) as H. destruct (cut "/" name) as [[before after]|]; [|by right].
  destruct H as [-> _]. destruct (negb _ && negb _); [by right|]. destruct (String.eqb_spec before ""); [by right|by left].
Qed.

(** The registry of a name that was split off is not empty. *)
Lemma Split_registry name : let '(registry, repository) := SplitRegistryAndRepository name in
  registry = ""%string -> repository = name.
Proof using Type.
  unfold SplitRegistryAndRepository. destruct (cut "/" name) as [[before after]|]; [|done].
  destruct (string_has "." before || string_has ":" before) eqn:Eb; simpl.
  - intros ->. done.
  - destruct (String.eqb_spec before "localhost") as [->|]; done.
Qed.

(** Parsing an image and printing it gives the image back: splitting the
    name into registry and repository loses nothing, and neither do the tag and
    the digest. *)
Lemma ParseImage_law s i : ParseImage s = inl i -> Image_String i = s.
Proof using Type.
  unfold ParseImage. rewrite bind_error_inl. intros (r & Hr & H). apply reference_Parse_String in Hr.
  rewrite <- Hr. unfold Reference_String, suffix.
  assert (Hname : (if negb (String.eqb (registry i) "") then (registry i ++ "/" ++ repository i)%string else repository i) =
    default ""%string (ref_Name r)).
  { destruct (ref_Name r) as [name|]; [|by injection H as <-]. pose proof (Split_join name) as Hj.
    pose proof (Split_registry name) as Hs. destruct (SplitRegistryAndRepository name) as [reg rep].
    injection H as <-. simpl. destruct Hj as [Hj|Hj]; [done|]. rewrite Hj. simpl. by apply Hs. }
  assert (tag i = default ""%string (ref_Tag r) /\ digest i = default ""%string (ref_Digest r)) as [Ht Hd].
  { destruct (ref_Name r) as [name|]; [destruct (SplitRegistryAndRepository name)|]; by injection H as <-. }
  unfold Image_String. rewrite Hname, Ht, Hd.
  destruct (String.eqb_spec (default ""%string (ref_Tag r)) "") as [->|], (String.eqb_spec (default ""%string (ref_Digest r)) "") as [->|];
    cbn [negb]; by rewrite ?string_app_nil_r, ?string_app_assoc.
Qed.

Definition touches (component : string) (o : ImageOverrider) : Prop :=
  component ∈ opn_ImageComponent <$> io_Operations o.

(** What operations may have done to an image. *)
Record operated (o : ImageOverrider) (i i' : Image) : Prop := {
  op_registry : ~ touches "Registry" o -> registry i' = registry i;
  op_repository : ~ touches "Repository" o -> repository i' = repository i;
  op_tag : tag i' = tag i \/ touches "Tag" o /\ (tag i' = ""%string \/ AnchoredTagRegexp_MatchString (tag i') = true);
  op_digest : digest i' = digest i \/
    touches "Digest" o /\ (digest i' = ""%string \/ AnchoredDigestRegexp_MatchString (digest i') = true)
}.

Lemma applyOperation_operated o i i1 i2 op : op ∈ io_Operations o -> operated o i i1 ->
  applyOperation i1 op = inl i2 -> operated o i i2.
Proof using Type.
  intros Hop [Hreg Hrep Ht Hd]. unfold applyOperation. set (operator := if String.eqb _ _ then _ else _).
  assert (Htouch : forall component, opn_ImageComponent op = component -> touches component o)
    by (intros component <-; by apply list_elem_of_fmap_2).
  destruct (String.eqb_spec (opn_ImageComponent op) "Registry") as [E|].
  { intros (v & _ & [= <-])%bind_error_inl. split; [|done..]. intros []. by apply Htouch. }
  destruct (String.eqb_spec (opn_ImageComponent op) "Repository") as [E|].
  { intros (v & _ & [= <-])%bind_error_inl. split; [done| |done..]. intros []. by apply Htouch. }
  destruct (String.eqb_spec (opn_ImageComponent op) "Tag") as [E|].
  { intros (v & _ & H)%bind_error_inl. destruct (negb _ && negb _) eqn:Ev; [done|]. injection H as <-.
    split; [done..| |done]. right. split; [by apply Htouch|]. simpl.
    destruct (String.eqb_spec v ""); [by left|right]. simpl in Ev. by apply negb_false_iff in Ev. }
  destruct (String.eqb_spec (opn_ImageComponent op) "Digest") as [E|]; [|done].
  intros (v & _ & H)%bind_error_inl. destruct (negb _ && negb _) eqn:Ev; [done|]. injection H as <-.
  split; [done..|]. right. split; [by apply Htouch|]. simpl.
  destruct (String.eqb_spec v ""); [by left|right]. simpl in Ev. by apply negb_false_iff in Ev.
Qed.

(** Overriding an image changes the parts that the operations name and no
    other, and a tag or a digest that it sets is well-formed. *)
Theorem applyImageOverrider_frame old o new : applyImageOverrider old o = inl new ->
  exists i i', ParseImage old = inl i /\ Image_String i = old /\ operated o i i' /\ Image_String i' = new.
Proof using Type.
  unfold applyImageOverrider. rewrite bind_error_inl. intros (i & Hi & H).
  apply bind_error_inl in H as (i' & Hops & [= <-]). exists i, i'. split_and!; [done| |..|done].
  - by apply ParseImage_law.
  - eapply (foldl_error_ind (operated o i)); [|split; auto|exact Hops]. intros; by eapply applyOperation_operated.
Qed.
End Images.

(** ** Concrete inputs *)

(** References without tags and digests. *)
Definition small_references : ImageReferences := {|
  reference_Parse := fun s => inl {| ref_Name := Some s; ref_Tag := None; ref_Digest := None |};
  reference_Parse_String := fun s r H => match H in _ = y return
    match y with inl r => Reference_String r = s | inr _ => True end with eq_refl => string_app_nil_r s end
|}.

Definition retag : ImageOverrider := {|
  io_ContainerNames := []; io_ImagePath := "";
  io_Operations := [ {| opn_ImageComponent := "Registry"; opn_Operator := "delete"; opn_Value := "" |};
                     {| opn_ImageComponent := "Tag"; opn_Operator := ""; opn_Value := "v1.2" |} ]
|}.

Lemma applyImageOverrider_frame_witness :
  @applyImageOverrider small_references "docker.io/library/nginx" retag = inl "library/nginx:v1.2"%string /\
  exists i i', @ParseImage small_references "docker.io/library/nginx" = inl i /\
    Image_String i = "docker.io/library/nginx"%string /\ operated retag i i' /\ Image_String i' = "library/nginx:v1.2"%string.
Proof.
  split; [reflexivity|]. apply (@applyImageOverrider_frame small_references "docker.io/library/nginx" retag).
  reflexivity.
Defined.

(** Two variables of one name are replaced both, and the last value wins. *)
Example overwrite_twice :
  let var n v := {| ev_Name := n; ev_Value := v; ev_ValueFrom := None |} in
  applyEnvOverrider (Some [var "A" "1"; var "B" "2"; var "A" "3"]%string)
    {| eo_ContainerName := "main"; eo_Operator := ""; eo_Value := [var "A" "4"; var "A" "5"]%string |} =
  inl (Some [var "A" "5"; var "B" "2"; var "A" "5"]%string).
Proof. reflexivity. Qed.
