(* ===== verification/OverrideTheorems.v ===== *)
(** * The override policy controller: properties

    The overrides of a cluster are those of all the rules that match it, in the
    order of the policies, each computed on the template as the earlier ones
    left it; the clusters do not influence each other.  A reconciliation stores
    them and settles. *)

From Stdlib Require Import ZArith Lia String Ascii.
From S2P Require Import Prelude GoStrings K8s Types ApiTypes Unstructured Codecs FedObject FedObjectTheorems PodUtil.
From S2P Require Import FilterPlugins Dispatch SyncResource SyncResourceTheorems SyncTheorems OverridePolicy.
From S2P Require Import OverriderTheorems.

Section Override.
Context `{K : Kubernetes} `{R : GoRuntime} `{C : !Codecs} `{P : PatchCodecs} `{L : !OverrideLibraries} `{IR : ImageReferences}.

(** ** The patches of one cluster *)

(** One rule for one cluster: the helper, if there is one yet, and the patches. *)
Definition clusterRule (fedObject : FederatedObject) (cluster : FederatedCluster)
    (s : option helpData * list OverridePatch) (rule : OverrideRule) : (option helpData * list OverridePatch) + string :=
  let '(h, patches) := s in
  bind_error (isClusterMatched (or_TargetClusters rule) cluster) (fun matched =>
  if negb matched then inl s
  else
    bind_error (match h with Some helper => inl helper | None => getHelpDataFromFedObj fedObject end) (fun helper =>
    bind_error (parsePatchesFromOverriders helper (or_Overriders rule)) (fun currPatches =>
    bind_error (ApplyJSONPatch (hd_sourceObj helper) (ignoreFinalizerPatches currPatches)) (fun sourceObj =>
      inl (Some {| hd_gvk := hd_gvk helper; hd_sourceObj := sourceObj |}, patches ++ currPatches))))).

Definition clusterRun (fedObject : FederatedObject) (cluster : FederatedCluster) (h : option helpData)
    (rules : list OverrideRule) : (option helpData * list OverridePatch) + string :=
  foldl_error (clusterRule fedObject cluster) (h, []) rules.

(** The reference: one cluster, one list of rules. *)
Definition clusterPatches (fedObject : FederatedObject) (cluster : FederatedCluster) (rules : list OverrideRule)
    : list OverridePatch + string :=
  bind_error (clusterRun fedObject cluster None rules) (fun '(_, patches) => inl patches).

Lemma clusterRule_shift fed cluster h ps rule :
  clusterRule fed cluster (h, ps) rule =
  bind_error (clusterRule fed cluster (h, []) rule) (fun '(h', qs) => inl (h', ps ++ qs)).
Proof using Type.
  unfold clusterRule. destruct (isClusterMatched _ _) as [[|]|]; simpl; [|by rewrite app_nil_r|done].
  destruct (match h with Some _ => _ | None => _ end) as [helper|]; simpl; [|done].
  destruct (parsePatchesFromOverriders _ _); simpl; [|done]. by destruct (ApplyJSONPatch _ _).
Qed.

Lemma clusterRun_shift fed cluster h ps rules :
  foldl_error (clusterRule fed cluster) (h, ps) rules =
  bind_error (clusterRun fed cluster h rules) (fun '(h', qs) => inl (h', ps ++ qs)).
Proof using Type.
  unfold clusterRun. revert h ps. induction rules as [|rule rules IH]; intros h ps; cbn [foldl_error]; [simpl; by rewrite app_nil_r|].
  rewrite clusterRule_shift. destruct (clusterRule fed cluster (h, []) rule) as [[h1 qs]|]; cbn [bind_error]; [|done].
  rewrite IH, (IH h1 qs). destruct (foldl_error _ _ _) as [[h2 rs]|]; cbn [bind_error]; [|done]. by rewrite app_assoc.
Qed.

Lemma clusterRun_app fed cluster h rules1 rules2 : clusterRun fed cluster h (rules1 ++ rules2) =
  bind_error (clusterRun fed cluster h rules1) (fun '(h1, ps) =>
  bind_error (clusterRun fed cluster h1 rules2) (fun '(h2, qs) => inl (h2, ps ++ qs))).
Proof using Type.
  unfold clusterRun at 1. rewrite foldl_error_app. fold (clusterRun fed cluster h rules1).
  destruct (clusterRun fed cluster h rules1) as [[h1 ps]|]; cbn [bind_error]; [|done]. apply clusterRun_shift.
Qed.

(** ** The map of helpers *)

(** [helpers'] is [helpers] with the helper [h] of [name]. *)
Definition helper_set (name : string) (helpers helpers' : Helpers) (h : option helpData) : Prop :=
  helpers' !! name = h /\ forall n, n <> name -> helpers' !! n = helpers !! n.

Lemma parseRule_cluster fed cluster helpers ps rule :
  match parseRule fed cluster (helpers, ps) rule, clusterRule fed cluster (helpers !! c_Name cluster, ps) rule with
  | inl (helpers', ps'), inl (h', ps'') => helper_set (c_Name cluster) helpers helpers' h' /\ ps' = ps''
  | inr e, inr e' => e = e'
  | _, _ => False
  end.
Proof using Type.
  unfold parseRule, clusterRule. destruct (isClusterMatched _ _) as [[|]|]; simpl; [|done..].
  destruct (match helpers !! c_Name cluster with Some _ => _ | None => _ end) as [helper|]; simpl; [|done].
  destruct (parsePatchesFromOverriders _ _); simpl; [|done]. destruct (ApplyJSONPatch _ _); simpl; [|done].
  split; [|done]. split; [apply lookup_insert_eq|]. intros n Hn. by apply lookup_insert_ne.
Qed.

Lemma parseRules_cluster fed cluster helpers ps rules :
  match foldl_error (parseRule fed cluster) (helpers, ps) rules,
        foldl_error (clusterRule fed cluster) (helpers !! c_Name cluster, ps) rules with
  | inl (helpers', ps'), inl (h', ps'') => helper_set (c_Name cluster) helpers helpers' h' /\ ps' = ps''
  | inr e, inr e' => e = e'
  | _, _ => False
  end.
Proof using Type.
  revert helpers ps. induction rules as [|rule rules IH]; intros helpers ps; [done|]. cbn [foldl_error].
  pose proof (parseRule_cluster fed cluster helpers ps rule) as H.
  destruct (parseRule fed cluster _ rule) as [[helpers1 ps1]|], (clusterRule fed cluster _ rule) as [[h1 ps1']|]; try done.
  destruct H as [[<- Ho] <-]. cbn [bind_error]. specialize (IH helpers1 ps1).
  destruct (foldl_error (parseRule _ _) _ _) as [[helpers2 ps2]|], (foldl_error (clusterRule _ _) _ _) as [[h2 ps2']|]; try done.
  destruct IH as [[Hh Ho'] ->]. split; [|done]. split; [done|]. intros n Hn. by rewrite Ho', Ho.
Qed.

(** ** One policy *)

Definition names (clusters : list FederatedCluster) : list string := c_Name <$> clusters.

(** The outcome of a policy for its clusters: the helpers and the overrides. *)
Record policy_done (fed : FederatedObject) (rules : list OverrideRule) (clusters : list FederatedCluster)
    (helpers helpers' : Helpers) (m m' : OverridesMap) : Prop := {
  pd_cluster : forall cluster, cluster ∈ clusters -> exists ps,
    clusterRun fed cluster (helpers !! c_Name cluster) rules = inl (helpers' !! c_Name cluster, ps) /\
    m' !! c_Name cluster = nonnil ps;
  pd_other : forall n, n ∉ names clusters -> m' !! n = m !! n /\ helpers' !! n = helpers !! n
}.

Lemma clusterSteps_spec fed rules clusters helpers m : NoDup (names clusters) ->
  (forall n, n ∈ names clusters -> m !! n = None) ->
  match foldl_error (parseCluster fed rules) (helpers, m) clusters with
  | inl (helpers', m') => policy_done fed rules clusters helpers helpers' m m'
  | inr _ => exists cluster e, cluster ∈ clusters /\ clusterRun fed cluster (helpers !! c_Name cluster) rules = inr e
  end.
Proof using Type.
  revert helpers m. induction clusters as [|cluster clusters IH]; intros helpers m; simpl.
  { intros _ _. split; [by intros ? ?%elem_of_nil|done]. }
  rewrite NoDup_cons. intros [Hn Hnd] Hm. pose proof (parseRules_cluster fed cluster helpers [] rules) as H.
  fold (clusterRun fed cluster (helpers !! c_Name cluster) rules) in H.
  destruct (foldl_error (parseRule fed cluster) _ _) as [[h1 ps]|e] eqn:E1; simpl.
  2: { exists cluster, e. split; [left|]. destruct (clusterRun _ _ _ _) as [[]|]; [done|by subst]. }
  destruct (clusterRun fed cluster _ rules) as [[h' ps']|] eqn:E2; [|done]. destruct H as [[Hh Ho] <-].
  set (m1 := match ps with [] => m | _ => _ end).
  assert (Hm1 : m1 !! c_Name cluster = nonnil ps /\ forall n, n <> c_Name cluster -> m1 !! n = m !! n).
  { unfold m1. destruct ps as [|p ps]; [split; [apply Hm; left|done]|]. split; [apply lookup_insert_eq|].
    intros n Hne. by apply lookup_insert_ne. }
  destruct Hm1 as [Hm1 Hm1']. specialize (IH h1 m1 Hnd).
  destruct (foldl_error (parseCluster fed rules) _ _) as [[h2 m2]|e].
  - destruct IH as [IHc IHo].
    { intros n Hin. rewrite Hm1' by (by intros ->). apply Hm. by right. }
    destruct (IHo (c_Name cluster) Hn) as [Hm2 Hh2]. split.
    + intros c' [->|Hc']%elem_of_cons; [exists ps; rewrite Hh2, Hh, Hm2; done|].
      destruct (IHc c' Hc') as (qs & Hr & Hq). rewrite Ho in Hr by (intros Heq; apply Hn; rewrite <- Heq; by apply list_elem_of_fmap_2).
      by exists qs.
    + intros n. cbn [names fmap list_fmap]. rewrite not_elem_of_cons. intros [Hne Hnin].
      destruct (IHo n Hnin) as [-> ->]. by rewrite Hm1', Ho.
  - destruct IH as (c' & e' & Hc' & He').
    { intros n Hin. rewrite Hm1' by (by intros ->). apply Hm. by right. }
    exists c', e'. split; [by right|]. rewrite Ho in He'; [done|]. intros Heq. apply Hn. rewrite <- Heq. by apply list_elem_of_fmap_2.
Qed.

Lemma parseOverrides_spec policy clusters fed helpers : NoDup (names clusters) ->
  match parseOverrides policy clusters fed helpers with
  | inl (helpers', m') => policy_done fed (OverrideRules policy) clusters helpers helpers' ∅ m'
  | inr _ => exists cluster e, cluster ∈ clusters /\ clusterRun fed cluster (helpers !! c_Name cluster) (OverrideRules policy) = inr e
  end.
Proof using Type. intros Hnd. apply (clusterSteps_spec fed (OverrideRules policy) clusters helpers ∅ Hnd). done. Qed.

(** ** All policies *)

Lemma mergeOverrides_lookup dest src n : mergeOverrides dest src !! n =
  match src !! n with Some ps => Some (default [] (dest !! n) ++ ps) | None => dest !! n end.
Proof using Type.
  unfold mergeOverrides. rewrite (foldl_point (fun (m : OverridesMap) n => m !! n)
    (fun _ o ps => Some (default [] o ++ ps))); [done|].
  intros s k ps n'. case_decide as E; subst; [by rewrite lookup_insert_eq|by rewrite lookup_insert_ne].
Qed.

Record policies_done (fed : FederatedObject) (rules : list OverrideRule) (clusters : list FederatedCluster)
    (helpers : Helpers) (m : OverridesMap) : Prop := {
  ps_cluster : forall cluster, cluster ∈ clusters -> exists ps,
    clusterRun fed cluster None rules = inl (helpers !! c_Name cluster, ps) /\ m !! c_Name cluster = nonnil ps;
  ps_other : forall n, n ∉ names clusters -> m !! n = None
}.

Lemma nonnil_default {A} (ps : list A) : default [] (nonnil ps) = ps.
Proof using Type. by destruct ps. Qed.

Lemma nonnil_merge {A} (ps qs : list A) :
  match nonnil qs with Some qs => Some (default [] (nonnil ps) ++ qs) | None => nonnil ps end = nonnil (ps ++ qs).
Proof using Type. destruct ps, qs; simpl; by rewrite ?app_nil_r. Qed.

Lemma applyPolicies_spec fed clusters policies : NoDup (names clusters) ->
  match foldl_error (applyPolicy clusters fed) (∅, ∅) policies with
  | inl (helpers, m) => policies_done fed (flat_map OverrideRules policies) clusters helpers m
  | inr _ => exists cluster e, cluster ∈ clusters /\ clusterRun fed cluster None (flat_map OverrideRules policies) = inr e
  end.
Proof using Type.
  intros Hnd. induction policies as [|policy policies IH] using rev_ind.
  { simpl. split; [|done]. intros cluster _. exists []. done. }
  rewrite foldl_error_app, flat_map_app. simpl (flat_map _ [_]). rewrite app_nil_r.
  destruct (foldl_error _ _ policies) as [[helpers m]|e]; cbn [bind_error].
  2: { destruct IH as (cluster & e' & Hc & He). exists cluster, e'. split; [done|]. by rewrite clusterRun_app, He. }
  destruct IH as [IHc IHo]. cbn [foldl_error]. unfold applyPolicy at 1.
  pose proof (parseOverrides_spec policy clusters fed helpers Hnd) as Hp.
  destruct (parseOverrides policy clusters fed helpers) as [[helpers' m']|e]; cbn [bind_error].
  - destruct Hp as [Hpc Hpo]. split.
    + intros cluster Hc. destruct (IHc cluster Hc) as (ps & Hr & Hm), (Hpc cluster Hc) as (qs & Hr' & Hm').
      exists (ps ++ qs). split; [by rewrite clusterRun_app, Hr; cbn [bind_error]; rewrite Hr'|].
      by rewrite mergeOverrides_lookup, Hm, Hm', nonnil_merge.
    + intros n Hn. rewrite mergeOverrides_lookup. destruct (Hpo n Hn) as [-> _]. rewrite lookup_empty. by apply IHo.
  - destruct Hp as (cluster & e' & Hc & He). exists cluster, e'. split; [done|].
    destruct (IHc cluster Hc) as (ps & Hr & _). by rewrite clusterRun_app, Hr; cbn [bind_error]; rewrite He.
Qed.

(** What the overrides of an object are. *)
Record overrides_of (policies : list GenericOverridePolicy) (clusters : list FederatedCluster) (fed : FederatedObject)
    (m : OverridesMap) : Prop := {
  oo_cluster : forall cluster, cluster ∈ clusters ->
    clusterPatches fed cluster (flat_map OverrideRules policies) = inl (default [] (m !! c_Name cluster));
  oo_nonempty : forall n ps, m !! n = Some ps -> ps <> [];
  oo_other : forall n, n ∉ names clusters -> m !! n = None
}.

Lemma computeOverrides_spec policies clusters fed : NoDup (names clusters) ->
  match computeOverrides policies clusters fed with
  | inl m => overrides_of policies clusters fed m
  | inr _ => exists cluster e, cluster ∈ clusters /\ clusterPatches fed cluster (flat_map OverrideRules policies) = inr e
  end.
Proof using Type.
  intros Hnd. unfold computeOverrides, clusterPatches. pose proof (applyPolicies_spec fed clusters policies Hnd) as H.
  destruct (foldl_error _ _ _) as [[helpers m]|]; cbn [bind_error].
  - destruct H as [Hc Ho]. split; [| |done].
    + intros cluster Hin. unfold clusterPatches. destruct (Hc cluster Hin) as (ps & -> & ->). simpl. by rewrite nonnil_default.
    + intros n ps Hps ->. destruct (decide (n ∈ names clusters)) as [Hn|Hn]; [|by rewrite Ho in Hps].
      apply list_elem_of_fmap in Hn as (cluster & -> & Hin). destruct (Hc cluster Hin) as (qs & _ & Hq).
      rewrite Hq in Hps. by destruct qs.
  - destruct H as (cluster & e & Hin & He). exists cluster, e. by rewrite He.
Qed.

(** ** Storing the overrides *)

Notation me := PrefixedControllerName.

Definition storedOverrides (o : FederatedObject) : OverridesMap :=
  convertOverridesListToMap (GetControllerOverrides (fo_Spec o) me).

Lemma convert_list (l : list ClusterReferenceWithPatches) (m : OverridesMap) :
  (fun o => (crp_Cluster o, Patches o)) <$> l ≡ₚ range_map m -> convertOverridesListToMap l = m.
Proof using Type.
  intros Hp. unfold convertOverridesListToMap.
  assert (foldl (fun ret override => <[crp_Cluster override:=Patches override]> ret) ∅ l =
    foldl (fun (ret : OverridesMap) '(k, v) => <[k := v]> ret) ∅ ((fun o => (crp_Cluster o, Patches o)) <$> l)) as ->
    by by rewrite foldl_fmap.
  assert (NoDup ((fun o => (crp_Cluster o, Patches o)) <$> l).*1) as Hnd by (rewrite Hp; apply NoDup_range_map_fst).
  apply map_eq. intros n. rewrite (foldl_point_list (fun (m : OverridesMap) n => m !! n) (fun _ _ v => Some v)); [| |done].
  - rewrite (list_to_map_proper _ _ Hnd Hp), list_to_map_range_map, lookup_empty. by destruct (m !! n).
  - intros s k v n'. case_decide as E; subst; [by rewrite lookup_insert_eq|by rewrite lookup_insert_ne].
Qed.

Lemma overridesList_pairs m : (fun o => (crp_Cluster o, Patches o)) <$> overridesList m = range_map m.
Proof using Type.
  unfold overridesList. rewrite <- list_fmap_compose. rewrite <- (list_fmap_id (range_map m)) at 2.
  apply list_fmap_ext. by intros _ [k v] _.
Qed.

Lemma nonempty_filter (m : OverridesMap) : (forall n ps, m !! n = Some ps -> ps <> []) ->
  filter (fun '(_, clusterOverrides) => clusterOverrides <> []) m = m.
Proof using Type. intros Hm. apply map_filter_id. intros n ps. apply Hm. Qed.

(** What an object keeps when its overrides are set. *)
Record same_object (o o' : FederatedObject) : Prop := {
  so_namespace : fo_Namespace o' = fo_Namespace o;
  so_name : fo_Name o' = fo_Name o;
  so_labels : fo_Labels o' = fo_Labels o;
  so_deletion : fo_DeletionTimestamp o' = fo_DeletionTimestamp o;
  so_template : Template (fo_Spec o') = Template (fo_Spec o);
  so_placements : Placements (fo_Spec o') = Placements (fo_Spec o);
  so_others : forall controller, controller <> me ->
    GetControllerOverrides (fo_Spec o') controller = GetControllerOverrides (fo_Spec o) controller
}.

Lemma setOverrides_spec o m : NoDup (owc_Controller <$> Overrides (fo_Spec o)) ->
  (forall n ps, m !! n = Some ps -> ps <> []) ->
  let o' := setOverrides o m in
  storedOverrides o' = m /\ same_object o o' /\ fo_Annotations o' = fo_Annotations o.
Proof using Type.
  intros Hnd Hm. unfold setOverrides. rewrite (nonempty_filter m Hm).
  set (r := if Nat.eqb (size m) 0 then DeleteControllerOverrides (fo_Spec o) me
            else SetControllerOverrides (fo_Spec o) me (overridesList m)).
  assert (Hr : (if Nat.eqb (size m) 0 then (DeleteControllerOverrides (fo_Spec o) me).1
    else (SetControllerOverrides (fo_Spec o) me (overridesList m)).1) = r.1) by (unfold r; by case_match).
  rewrite Hr.
  assert (Hset : r = SetControllerOverrides (fo_Spec o) me (overridesList m)).
  { unfold r. destruct (Nat.eqb_spec (size m) 0) as [E|]; [|done]. apply map_size_empty_inv in E as ->.
    unfold overridesList. assert (range_map (∅ : OverridesMap) = []) as ->; [|done].
    apply Permutation_nil. by rewrite range_map_perm, map_to_list_empty. }
  rewrite Hset. pose proof (SetControllerOverrides_overridden me (overridesList m) (fo_Spec o) Hnd) as H.
  destruct (SetControllerOverrides _ _ _) as [spec' changed]. destruct H as [Hget Hoth Hframe _ _].
  cbn [fst]. split_and!; [|split; try done|done].
  - unfold storedOverrides. cbn [fo_Spec setSpec]. rewrite Hget. apply convert_list.
    by rewrite sort_slice_perm, overridesList_pairs.
  - cbn [fo_Spec setSpec]. by rewrite <- Hframe.
  - cbn [fo_Spec setSpec]. by rewrite <- Hframe.
Qed.

(** The controller runs once for an object. *)
Definition override_once (typeConfig : FederatedTypeConfig) (o : FederatedObject) : Prop :=
  (forall cs, GetPendingControllers o = inl cs -> runs_once me cs) /\
  forall g, g ∈ GetDownstreamControllers (GetControllers typeConfig) me -> me ∉ g.

Variable c : OverrideController.

Lemma applyOverrides_spec typeConfig o m res o' : NoDup (owc_Controller <$> Overrides (fo_Spec o)) ->
  (forall n ps, m !! n = Some ps -> ps <> []) -> override_once typeConfig o ->
  applyOverrides c typeConfig o m = (res, Some o') ->
  storedOverrides o' = m /\ same_object o o' /\
  UpdatePendingControllers o' me false (GetControllers typeConfig) = inl (o', false) /\
  res = match oc_Update c o' with Some err => if IsConflict err then StatusConflict else StatusAllOK | None => StatusAllOK end.
Proof using Type.
  intros Hnd Hm [Hcs Hdown]. unfold applyOverrides. fold (storedOverrides o).
  set (needsUpdate := negb _). set (o1 := if needsUpdate then _ else _).
  assert (Ho1 : storedOverrides o1 = m /\ same_object o o1 /\ fo_Annotations o1 = fo_Annotations o).
  { unfold o1, needsUpdate. case_bool_decide as E; simpl; [by rewrite E|]. by apply setOverrides_spec. }
  destruct Ho1 as (Hst & Hsame & Hann). clearbody o1 needsUpdate.
  destruct (UpdatePendingControllers o1 me needsUpdate (GetControllers typeConfig)) as [[o2 updated]|] eqn:Eu; [|done].
  destruct (needsUpdate || updated); [|done].
  assert (Hg : GetPendingControllers o1 = GetPendingControllers o) by (unfold GetPendingControllers; by rewrite Hann).
  destruct (GetPendingControllers o) as [cs|] eqn:Ecs; [|unfold UpdatePendingControllers in Eu; by rewrite Hg in Eu].
  destruct (Hcs cs eq_refl) as [Hnd' Htail].
  destruct (UpdatePendingControllers_spec o1 me needsUpdate (GetControllers typeConfig) cs o2 updated Hg Hnd') as (_ & Hagain & a & Ha);
    [by destruct needsUpdate|done|].
  assert (storedOverrides o2 = m /\ same_object o o2) as [Hst2 Hsame2].
  { rewrite Ha. split; [done|]. destruct Hsame. by split. }
  intros H. assert (o2 = o') as -> by (destruct (oc_Update c o2); congruence). split_and!; [done..|].
  destruct (oc_Update c o'); congruence.
Qed.

(** ** A reconciliation *)

(** The steps before the overrides are stored. *)
Lemma reconcile_sends name res o' : reconcile c name = (res, Some o') ->
  exists o md typeConfig policies placed m,
    getFederatedObject c name = inl (Some o) /\ fo_DeletionTimestamp o = None /\
    GetTemplateMetadata (fo_Spec o) = inl md /\ oc_ResourceFTC c (tm_GVK md) = Some typeConfig /\
    lookForMatchedPolicies c o (negb (String.eqb (fo_Namespace o) "")) = inl policies /\
    getPlacedClusters c o = inl placed /\ computeOverrides policies placed o = inl m /\
    applyOverrides c typeConfig o m = (res, Some o').
Proof using Type.
  unfold reconcile. destruct (getFederatedObject c name) as [[o|]|]; [|done..].
  case_bool_decide as Hdel; [done|]. destruct (GetTemplateMetadata (fo_Spec o)) as [md|] eqn:Emd; [|done].
  destruct (oc_ResourceFTC c (tm_GVK md)) as [ftc|] eqn:Eftc; [|done].
  destruct (ControllerDependenciesFulfilled o me) as [[|]|]; [|done..].
  destruct (lookForMatchedPolicies c o _) as [policies|[]] eqn:Ep; [|done..].
  destruct (getPlacedClusters c o) as [placed|] eqn:Epl; [|done].
  destruct (computeOverrides policies placed o) as [m|] eqn:Em; [|done]. intros H.
  exists o, md, ftc, policies, placed, m. split_and!; try done. by apply eq_None_not_Some.
Qed.

(** The clusters of the cache have different names. *)
Definition clusters_once : Prop := forall clusters, oc_FederatedClusters c = inl clusters -> NoDup (names clusters).

Lemma getPlacedClusters_spec o placed : clusters_once -> getPlacedClusters c o = inl placed ->
  NoDup (names placed) /\ exists clusters, oc_FederatedClusters c = inl clusters /\
    forall cluster, cluster ∈ placed <-> cluster ∈ clusters /\ c_Name cluster ∈ GetPlacementUnion (fo_Spec o).
Proof using Type.
  intros Honce. unfold getPlacedClusters. destruct (oc_FederatedClusters c) as [clusters|] eqn:E; [|done].
  intros [= <-]. split.
  - eapply sublist_NoDup; [by apply (Honce clusters)|]. apply fmap_sublist, sublist_filter.
  - exists clusters. split; [done|]. intros cluster. rewrite list_elem_of_filter. tauto.
Qed.

(** The controller runs once, by the type config of the object. *)
Definition overrides_once (o : FederatedObject) : Prop := forall md typeConfig,
  GetTemplateMetadata (fo_Spec o) = inl md -> oc_ResourceFTC c (tm_GVK md) = Some typeConfig -> override_once typeConfig o.

(** C19. What a reconciliation sends to the API server: the overrides of the
    override controller are, for each cluster in which the object is placed, the
    patches of the rules of its policies that match the cluster, cluster policy
    first, each rule computed on the template as the rules before it left it;
    there are none for other clusters; and the template, the placements and the
    overrides of other controllers are untouched. *)
Theorem reconcile_overrides name o res o' : clusters_once ->
  getFederatedObject c name = inl (Some o) -> NoDup (owc_Controller <$> Overrides (fo_Spec o)) ->
  overrides_once o ->
  reconcile c name = (res, Some o') ->
  exists policies, lookForMatchedPolicies c o (negb (String.eqb (fo_Namespace o) "")) = inl policies /\
    same_object o o' /\
    (forall clusters cluster, oc_FederatedClusters c = inl clusters -> cluster ∈ clusters ->
       c_Name cluster ∈ GetPlacementUnion (fo_Spec o) ->
       clusterPatches o cluster (flat_map OverrideRules policies) =
         inl (default [] (storedOverrides o' !! c_Name cluster))) /\
    (forall n, n ∉ GetPlacementUnion (fo_Spec o) -> storedOverrides o' !! n = None).
Proof using Type.
  intros Honce Hget Hnd Hrun (o1 & md & ftc & policies & placed & m & Hget' & _ & Hmd & Hftc & Hp & Hpl & Hm & Happ)%reconcile_sends.
  rewrite Hget in Hget'. injection Hget' as <-. exists policies. split; [done|].
  destruct (getPlacedClusters_spec o placed Honce Hpl) as (Hnames & clusters & Hcl & Hin).
  pose proof (computeOverrides_spec policies placed o Hnames) as Hspec. rewrite Hm in Hspec. destruct Hspec as [Hc Hne Hoth].
  destruct (applyOverrides_spec ftc o m res o' Hnd Hne (Hrun md ftc Hmd Hftc) Happ) as (-> & Hsame & _ & _). split_and!; [done|..].
  - intros clusters' cluster Hcl'. rewrite Hcl in Hcl'. injection Hcl' as <-. intros Hi Hu. by apply Hc, Hin.
  - intros n Hn. apply Hoth. intros (cluster & -> & Hi)%list_elem_of_fmap. by apply Hn, Hin.
Qed.

(** The environment of a reconciliation, but for the object. *)
Record same_environment (c c' : OverrideController) : Prop := {
  se_OverridePolicy : oc_OverridePolicy c' = oc_OverridePolicy c;
  se_ClusterOverridePolicy : oc_ClusterOverridePolicy c' = oc_ClusterOverridePolicy c;
  se_FederatedClusters : oc_FederatedClusters c' = oc_FederatedClusters c;
  se_ResourceFTC : oc_ResourceFTC c' = oc_ResourceFTC c
}.

Lemma computeOverrides_template policies placed o o' : Template (fo_Spec o') = Template (fo_Spec o) ->
  computeOverrides policies placed o' = computeOverrides policies placed o.
Proof using Type.
  intros Ht. unfold computeOverrides, applyPolicy, parseOverrides, parseCluster, parseRule, getHelpDataFromFedObj,
    getGVKFromFederatedObject, GetTemplateAsUnstructured. by rewrite Ht.
Qed.

(** Reconciliations settle: once the API server stored the object that a
    reconciliation sent, the next reconciliation, with the same policies,
    clusters and type configs, succeeds and sends nothing. *)
Theorem override_settles c' name o res o' : clusters_once ->
  getFederatedObject c name = inl (Some o) -> NoDup (owc_Controller <$> Overrides (fo_Spec o)) ->
  overrides_once o ->
  reconcile c name = (res, Some o') ->
  same_environment c c' -> getFederatedObject c' name = inl (Some o') ->
  reconcile c' name = (StatusAllOK, None).
Proof using Type.
  intros Honce Hget Hnd Hrun (o1 & md & ftc & policies & placed & m & Hget' & Hdel & Hmd & Hftc & Hp & Hpl & Hm & Happ)%reconcile_sends.
  rewrite Hget in Hget'. injection Hget' as <-. intros [Ep Ecp Ecl Eftc] Hget1.
  destruct (getPlacedClusters_spec o placed Honce Hpl) as (Hnames & _).
  pose proof (computeOverrides_spec policies placed o Hnames) as Hspec. rewrite Hm in Hspec.
  destruct (applyOverrides_spec ftc o m res o' Hnd (oo_nonempty _ _ _ _ Hspec) (Hrun md ftc Hmd Hftc) Happ) as (Hst & Hsame & Hagain & _).
  destruct Hsame as [Sns Sn Sl Sd St Spl So].
  assert (Hp' : lookForMatchedPolicies c' o' (negb (String.eqb (fo_Namespace o') "")) = inl policies)
    by (revert Hp; unfold lookForMatchedPolicies; by rewrite Sl, Sns, Ep, Ecp).
  assert (Hpl' : getPlacedClusters c' o' = inl placed)
    by (revert Hpl; unfold getPlacedClusters, GetPlacementUnion; by rewrite Ecl, Spl).
  unfold reconcile. rewrite Hget1, Sd, Hdel. cbn [bool_decide]. rewrite bool_decide_eq_false_2 by by intros [].
  unfold GetTemplateMetadata in *. rewrite St, Hmd, Eftc, Hftc, Hp', Hpl'.
  rewrite (computeOverrides_template policies placed o o' St), Hm.
  destruct (GetPendingControllers o') as [cs|] eqn:Ecs;
    [|by unfold UpdatePendingControllers in Hagain; rewrite Ecs in Hagain].
  destruct (fulfilled_spec o' me cs Ecs) as ([|] & -> & _); [|done].
  unfold applyOverrides. fold (storedOverrides o'). rewrite Hst, bool_decide_eq_true_2 by done. cbn [negb].
  by rewrite Hagain.
Qed.

(** An update that fails is not tried again, unless it is a conflict: the
    reconciliation reports success. *)
Lemma failed_update_dropped name o' err : IsConflict err = false -> oc_Update c o' = Some err ->
  forall res, reconcile c name = (res, Some o') -> res = StatusAllOK.
Proof using Type.
  intros Hc Hu res (o & md & ftc & policies & placed & m & _ & _ & _ & _ & _ & _ & _ & H)%reconcile_sends.
  revert H. unfold applyOverrides. destruct (UpdatePendingControllers _ _ _ _) as [[o2 ?]|]; [|done].
  destruct (_ || _); [|done]. destruct (oc_Update c o2) eqn:E; intros [= <- <-]; [|done].
  rewrite Hu in E. injection E as <-. by rewrite Hc.
Qed.
End Override.

(** ** Concrete inputs *)

Definition small_override `{Kubernetes} : OverrideLibraries := {|
  LabelSelectorAsSelector := fun m => inl (SelectorFromSet m);
  LabelSelectorAsSelector_Matches := fun m s l H => match H in _ = y return
    match y with
    | inl s => Selector_Matches s l = true <-> forall k v, m !! k = Some v -> l !! k = Some v
    | inr _ => True
    end with eq_refl => Matches_FromSet m l end;
  Marshal_Strings := fun _ => inl "[]"%string;
  Marshal_EnvVars := fun _ => inl "[]"%string;
  Unmarshal_JSON := fun raw => inl raw
|}.

Section Witnesses.
#[local] Existing Instance small_kubernetes.
#[local] Existing Instance small_runtime.
#[local] Existing Instance small_codecs.
#[local] Existing Instance small_patches.
#[local] Existing Instance small_references.
#[local] Existing Instance small_override.

Definition pause : JsonPatchOverrider := {| jo_Operator := ""; jo_Path := "/spec/paused"; jo_Value := "true" |}.

(** Pauses the object in the cluster "a". *)
Definition pausing : GenericOverridePolicy := {|
  gop_Namespace := "default"; gop_Name := "p";
  OverrideRules := [ {|
    or_TargetClusters := Some {| tc_Clusters := ["a"%string]; tc_ClusterSelector := ∅; tc_ClusterAffinity := [] |};
    or_Overriders := Some {| ov_Image := []; ov_Command := []; ov_Args := []; ov_Envs := []; ov_Annotations := [];
                             ov_Labels := []; ov_JsonPatch := [pause] |} |} ]
|}.

Definition paused : FederatedObject := {|
  fo_Namespace := "default"; fo_Name := "web"; fo_Labels := {[ OverridePolicyNameLabel := "p"%string ]};
  fo_Annotations := {[ PendingControllersAnnotation := decimal (Z.pos (encode [[PrefixedControllerName]])) ]};
  fo_OwnerReferences := []; fo_Generation := 1; fo_DeletionTimestamp := None; fo_Finalizers := [];
  fo_Spec := {| Template := decimal 3; Overrides := []; Follows := [];
    Placements := [ {| pwc_Controller := "scheduler"; Placement := (fun n => {| cref_Cluster := n |}) <$> ["a"; "b"]%string |} ] |};
  fo_Status := empty_status
|}.

Definition override_ftc : FederatedTypeConfig := {|
  ftc_Name := "deployments"; SourceType := SourceType configmaps; ReplicasSpec := "spec.replicas"; ReplicasStatus := "status.replicas"; ReadyReplicasStatus := "status.readyReplicas";
  AutoMigrationEnabled := true; ftc_Annotations := ∅; StatusAggregationEnabled := false; StatusCollection := None;
  Controllers := [["scheduler"%string]; [PrefixedControllerName]]
|}.

Definition override_controller (o : FederatedObject) : OverrideController := {|
  oc_FederatedObject := fun _ _ => inl o;
  oc_ClusterFederatedObject := fun _ => inr NotFound;
  oc_OverridePolicy := fun _ _ => inl pausing;
  oc_ClusterOverridePolicy := fun _ => inr NotFound;
  oc_FederatedClusters := inl [sync_cluster "a" None; sync_cluster "b" None];
  oc_ResourceFTC := fun _ => Some override_ftc;
  oc_Update := fun _ => None;
  oc_ListFederatedObjects := fun _ _ => inl [o];
  oc_ListClusterFederatedObjects := fun _ => inl []
|}.

Definition web : QualifiedName := {| qn_Namespace := "default"; qn_Name := "web" |}.

Definition overridden_web : FederatedObject :=
  match reconcile (override_controller paused) web with (_, Some o') => o' | _ => paused end.

Lemma reconcile_paused : reconcile (override_controller paused) web = (StatusAllOK, Some overridden_web).
Proof. vm_compute. reflexivity. Qed.

Lemma override_clusters_once o : clusters_once (override_controller o).
Proof. intros clusters [= <-]. apply (bool_decide_eq_true_1 _). vm_compute. reflexivity. Qed.

Lemma paused_once : overrides_once (override_controller paused) paused.
Proof.
  intros md ftc _ [= <-]. split.
  - intros cs Hcs. assert (GetPendingControllers paused = inl [[PrefixedControllerName]]) as Hp by (vm_compute; reflexivity).
    rewrite Hp in Hcs. injection Hcs as <-. clear Hp.
    split; [apply NoDup_singleton|by intros g ?%elem_of_nil].
  - assert (GetDownstreamControllers (GetControllers override_ftc) PrefixedControllerName = []) as -> by (vm_compute; reflexivity).
    by intros g ?%elem_of_nil.
Qed.

Lemma reconcile_overrides_witness :
  reconcile (override_controller paused) web = (StatusAllOK, Some overridden_web) /\
  storedOverrides overridden_web !! "a"%string = Some [ {| Op := ""; Path := "/spec/paused"; op_Value := "true" |} ] /\
  storedOverrides overridden_web !! "c"%string = None.
Proof.
  split; [apply reconcile_paused|]. split; [vm_compute; reflexivity|].
  destruct (reconcile_overrides (override_controller paused) web paused StatusAllOK overridden_web)
    as (policies & _ & _ & _ & H);
    [apply override_clusters_once|reflexivity|constructor
    |apply paused_once|apply reconcile_paused|].
  apply H. apply (bool_decide_eq_true_1 _). vm_compute. reflexivity.
Defined.

Lemma override_settles_witness :
  reconcile (override_controller overridden_web) web = (StatusAllOK, None).
Proof.
  apply (override_settles (override_controller paused) (override_controller overridden_web) web paused StatusAllOK overridden_web);
    [apply override_clusters_once|reflexivity|constructor
    |apply paused_once|apply reconcile_paused|by split|reflexivity].
Defined.
End Witnesses.
