(* ===== verification/Federate.v ===== *)
(** * The federate controller ([pkg/controllers/federate])

    A source object of the host cluster becomes a federated object: its labels
    and annotations are divided between the federated object and the template,
    the template is the source object without what the API server and the
    cluster own, and three annotations record what was observed.  The caches are
    the fields of [FederateController]; the API server is the interface
    [FederateServer] on a state [W].  Of errors only the reason is kept, which
    wrapping preserves.  Events, metrics and logs are left out. *)

From Stdlib Require Import ZArith Lia String Ascii.
From S2P Require Import Prelude GoStrings K8s Types ApiTypes Unstructured Codecs FedObject MemberObjects Retain.
From S2P Require Import Naming Sync OverridePolicy.

Definition FederateControllerPrefix : string := ("federate.controller." ++ DefaultPrefix)%string.
Definition FinalizerFederateController : string := (DefaultPrefix ++ "federate-controller")%string.
Definition NoFederatedResource : string := (DefaultPrefix ++ "no-federated-resource")%string.
Definition NoAutoPropagationAnnotation : string := (DefaultPrefix ++ "no-auto-propagation")%string.
Definition FollowersAnnotation : string := (DefaultPrefix ++ "followers")%string.
Definition DisableFollowingAnnotation : string := (DefaultPrefix ++ "disable-following")%string.
Definition LatestReplicasetDigestsAnnotation : string := (DefaultPrefix ++ "latest-replicaset-digests")%string.
Definition ObservedAnnotationKeysAnnotation : string := (FederateControllerPrefix ++ "observed-annotations")%string.
Definition ObservedLabelKeysAnnotation : string := (FederateControllerPrefix ++ "observed-labels")%string.
Definition TemplateGeneratorMergePatchAnnotation : string :=
  (FederateControllerPrefix ++ "template-generator-merge-patch")%string.
Definition StatusField : string := "status".

Definition federatedAnnotationSet : gset string := list_to_set
  [RetainReplicasAnnotation; SchedulingModeAnnotation; StickyClusterAnnotation; NoAutoPropagationAnnotation;
   OrphanManagedResourcesAnnotation; ConflictResolutionAnnotation; ClustersToAdoptAnnotation;
   TolerationsAnnotations; PlacementsAnnotations; ClusterSelectorAnnotations; AffinityAnnotations;
   MaxClustersAnnotations; NoSchedulingAnnotation; FollowsObjectAnnotation; FollowersAnnotation;
   DisableFollowingAnnotation; MigrationConfigurationAnnotation; DryRunAnnotation].
Definition ignoredAnnotationSet : gset string := list_to_set
  [LatestReplicasetDigestsAnnotation; AppliedMigrationConfigurationAnnotation; SchedulingAnnotation].
Definition federatedLabelSet : gset string := list_to_set
  [PropagationPolicyNameLabel; ClusterPropagationPolicyNameLabel; OverridePolicyNameLabel;
   ClusterOverridePolicyNameLabel].

(** ** Libraries

    Setters of [metav1.Object] on unstructured objects, owner references, JSON
    and merge patches.  A setter that is given the zero value of its field
    removes the field. *)

Definition metadata_field (field : string) : list string := ["metadata"%string; field].

(** [set] writes one field of the metadata, ... *)
Record field_setter `{UnstructuredHelpers} (set : Unstructured -> Unstructured) (field : string) : Prop := {
  fs_ok : forall u, metadata_ok u = true -> metadata_ok (set u) = true;
  fs_apart : forall u p, metadata_ok u = true -> apart (metadata_field field) p ->
    NestedFieldNoCopy (uns_Object (set u)) p = NestedFieldNoCopy (uns_Object u) p;
  fs_other : forall u k, k <> "metadata"%string -> uns_Object (set u) !! k = uns_Object u !! k
}.

(** ... and here removes it. *)
Definition clears `{UnstructuredHelpers} (set : Unstructured -> Unstructured) (field : string) : Prop :=
  field_setter set field /\
  forall u, metadata_ok u = true -> NestedFieldNoCopy (uns_Object (set u)) (metadata_field field) = inl None.

(** ... or stores a map of strings; an absent map stands for a nil one. *)
Definition stores `{UnstructuredHelpers} (set : gmap string string -> Unstructured -> Unstructured) (field : string)
    : Prop := forall l, field_setter (set l) field /\
  forall u, metadata_ok u = true ->
    let found := NestedFieldNoCopy (uns_Object (set l u)) (metadata_field field) in
    found = inl (Some (strings_value l)) \/ l = ∅ /\ found = inl None.

Definition without_deletion (m : ObjectMeta) : ObjectMeta := {|
  om_Name := om_Name m; om_Namespace := om_Namespace m; om_Labels := om_Labels m; om_Annotations := om_Annotations m;
  om_Finalizers := om_Finalizers m; om_Generation := om_Generation m;
  om_ResourceVersion := om_ResourceVersion m; om_DeletionTimestamp := None |}.

(** No null anywhere. *)
Inductive null_free : Value -> Prop :=
  | null_free_bool b : null_free (VBool b)
  | null_free_int n : null_free (VInt n)
  | null_free_float f : null_free (VFloat f)
  | null_free_string s : null_free (VString s)
  | null_free_list l : (forall v, v ∈ l -> null_free v) -> null_free (VList l)
  | null_free_map m : (forall k v, m !! k = Some v -> null_free v) -> null_free (VMap m).

(** A merge patch can turn [source] into the target: it cannot write a null
    (RFC 7386), but leaves those that are there alone. *)
Inductive patchable : option Value -> Value -> Prop :=
  | patchable_same v : patchable (Some v) v
  | patchable_new source v : null_free v -> patchable source v
  | patchable_map s t : (forall k v, t !! k = Some v -> patchable (s !! k) v) -> patchable (Some (VMap s)) (VMap t).

Class FederateLibraries `{C : Codecs} := {
  uns_GetAPIVersion : Unstructured -> string;
  uns_GetKind : Unstructured -> string;
  uns_SetSelfLink : string -> Unstructured -> Unstructured;
  uns_SetUID : string -> Unstructured -> Unstructured;
  (** [None] is the zero time. *)
  uns_SetCreationTimestamp : option Time -> Unstructured -> Unstructured;
  uns_SetDeletionTimestamp : option Time -> Unstructured -> Unstructured;
  (** The setters applied to nil. *)
  uns_SetOwnerReferences_nil : Unstructured -> Unstructured;
  uns_SetFinalizers_nil : Unstructured -> Unstructured;
  uns_SetManagedFields_nil : Unstructured -> Unstructured;

  NewControllerRef : Unstructured -> GroupVersionKind -> MetaOwnerReference;
  FromAPIVersionAndKind : string -> string -> GroupVersionKind;

  Unstructured_MarshalJSON : Unstructured -> string + string;
  (** [json.Marshal] of an unstructured object. *)
  json_Marshal : Unstructured -> string + string;
  (** [utiljson.Unmarshal] into a [map[string]any]. *)
  utiljson_Unmarshal : string -> Object + string;
  jsonpatch_CreateMergePatch : string -> string -> string + string;
  jsonpatch_MergePatch : string -> string -> string + string;

  NestedField_cons : forall o k m p, o !! k = Some (VMap m) -> NestedFieldNoCopy o (k :: p) = NestedFieldNoCopy m p;
  SetSelfLink_clears : clears (uns_SetSelfLink "") "selfLink";
  SetUID_clears : clears (uns_SetUID "") "uid";
  SetResourceVersion_clears : clears (uns_SetResourceVersion "") "resourceVersion";
  SetCreationTimestamp_clears : clears (uns_SetCreationTimestamp None) "creationTimestamp";
  SetDeletionTimestamp_clears : clears (uns_SetDeletionTimestamp None) "deletionTimestamp";
  SetOwnerReferences_clears : clears uns_SetOwnerReferences_nil "ownerReferences";
  SetFinalizers_clears : clears uns_SetFinalizers_nil "finalizers";
  SetManagedFields_clears : clears uns_SetManagedFields_nil "managedFields";
  SetLabels_stores : stores uns_SetLabels "labels";
  SetAnnotations_stores : stores uns_SetAnnotations "annotations";

  Meta_SetSelfLink : metadata_setter uns_Meta (uns_SetSelfLink "") id;
  Meta_SetUID : metadata_setter uns_Meta (uns_SetUID "") id;
  Meta_SetCreationTimestamp : metadata_setter uns_Meta (uns_SetCreationTimestamp None) id;
  Meta_SetDeletionTimestamp : metadata_setter uns_Meta (uns_SetDeletionTimestamp None) without_deletion;
  Meta_SetOwnerReferences : metadata_setter uns_Meta uns_SetOwnerReferences_nil id;
  Meta_SetFinalizers_nil : metadata_setter uns_Meta uns_SetFinalizers_nil (with_finalizers []);
  Meta_SetManagedFields : metadata_setter uns_Meta uns_SetManagedFields_nil id;

  NewControllerRef_law : forall u gvk,
    mor_Name (NewControllerRef u gvk) = uns_GetName u /\
    mor_Controller (NewControllerRef u gvk) = Some true /\
    (string_has "/" (gvk_Group gvk) = false -> string_has "/" (gvk_Version gvk) = false ->
     FromAPIVersionAndKind (mor_APIVersion (NewControllerRef u gvk)) (mor_Kind (NewControllerRef u gvk)) = gvk);

  (** A patch converts every text of the source into a text of the target. *)
  MergePatch_law : forall s t p s' source target,
    utiljson_Unmarshal s = inl source -> utiljson_Unmarshal t = inl target -> utiljson_Unmarshal s' = inl source ->
    patchable (Some (VMap source)) (VMap target) -> jsonpatch_CreateMergePatch s t = inl p ->
    exists r, jsonpatch_MergePatch s' p = inl r /\ utiljson_Unmarshal r = inl target
}.

(** ** Submaps ([pkg/util/annotation/submap.go])

    [None] is a nil map.  The number of changes is at most the number of
    entries of the two maps, far from the bounds of [int]. *)

Section Submap.
Context `{R : GoRuntime}.

(** The closure [iteration]. *)
Definition copyKey (src : gmap string string) (s : option (gmap string string) * Z) (key : string)
    : option (gmap string string) * Z :=
  let '(dest, numChanges) := s in
  match src !! key, default ∅ dest !! key with
  | Some srcValue, destValue =>
      if bool_decide (destValue = Some srcValue) then (dest, numChanges)
      else (Some (<[key := srcValue]> (default ∅ dest)), numChanges + 1)
  | None, Some _ => (delete key <$> dest, numChanges + 1)
  | None, None => (dest, numChanges)
  end.

Definition copyMatching (src : gmap string string) (matcher : string -> bool)
    (s : option (gmap string string) * Z) (entry : string * string) : option (gmap string string) * Z :=
  if matcher entry.1 then copyKey src s entry.1 else s.

Definition CopySubmap (src : gmap string string) (dest : option (gmap string string)) (matcher : string -> bool)
    : option (gmap string string) * Z :=
  let s := foldl (copyMatching src matcher) (dest, 0) (range_map src) in
  foldl (copyMatching src matcher) s (range_map (default ∅ s.1)).

(** ** Labels and annotations ([util.go]) *)

Definition classifyStep (matcher : string -> bool * bool) (maps : gmap string string * gmap string string)
    (entry : string * string) : gmap string string * gmap string string :=
  let '(federatedMap, templateMap) := maps in
  let '(key, value) := entry in
  let '(federated, template) := matcher key in
  (if federated : bool then <[key := value]> federatedMap else federatedMap,
   if template : bool then <[key := value]> templateMap else templateMap).

Definition classifyStringMap (src : gmap string string) (matcher : string -> bool * bool)
    : gmap string string * gmap string string :=
  foldl (classifyStep matcher) (∅, ∅) (range_map src).

Definition classifyAnnotation (annotation : string) : bool * bool :=
  if bool_decide (annotation ∈ ignoredAnnotationSet) then (false, false)
  else if bool_decide (annotation ∈ federatedAnnotationSet) then (true, false)
  else (false, true).

Definition classifyLabel (labelKey : string) : bool * bool :=
  if bool_decide (labelKey ∈ federatedLabelSet) then (true, false) else (false, true).

Definition classifyAnnotations (annotations : gmap string string) : gmap string string * gmap string string :=
  classifyStringMap annotations classifyAnnotation.
Definition classifyLabels (labels : gmap string string) : gmap string string * gmap string string :=
  classifyStringMap labels classifyLabel.

Definition observeKey (federatedMap : gmap string string) (s : list string * list string) (entry : string * string)
    : list string * list string :=
  let '(observedFederatedKeys, observedNonFederatedKeys) := s in
  if bool_decide (is_Some (federatedMap !! entry.1)) then (observedFederatedKeys ++ [entry.1], observedNonFederatedKeys)
  else (observedFederatedKeys, observedNonFederatedKeys ++ [entry.1]).

Definition generateObservedKeys (sourceMap federatedMap : gmap string string) : string :=
  if Nat.eqb (size sourceMap) 0 then ""
  else
    let '(observedFederatedKeys, observedNonFederatedKeys) :=
      foldl (observeKey federatedMap) ([], []) (range_map sourceMap) in
    String.concat "|" [String.concat "," (sort_slice String.ltb observedFederatedKeys);
                       String.concat "," (sort_slice String.ltb observedNonFederatedKeys)].
End Submap.

Section Federate.
Context `{K : Kubernetes} `{R : GoRuntime} `{C : !Codecs} `{L : !FederateLibraries}.

(** ** The federated object of a source object *)

Definition TemplateForSourceObject (sourceObj : Unstructured) (annotations labels : gmap string string)
    : Unstructured :=
  let template := uns_SetSelfLink "" sourceObj in
  let template := uns_SetUID "" template in
  let template := uns_SetResourceVersion "" template in
  let template := uns_SetCreationTimestamp None template in
  let template := uns_SetDeletionTimestamp None template in
  let template := uns_SetAnnotations annotations template in
  let template := uns_SetLabels labels template in
  let template := uns_SetOwnerReferences_nil template in
  let template := uns_SetFinalizers_nil template in
  let template := uns_SetManagedFields_nil template in
  {| uns_Object := RemoveNestedField (uns_Object template) [StatusField] |}.

Definition CreateMergePatch (sourceObject targetObject : Unstructured) : string + string :=
  match json_Marshal sourceObject with
  | inr err => inr ("failed to marshal source object: " ++ err)%string
  | inl sourceJSON =>
      match json_Marshal targetObject with
      | inr err => inr ("failed to marshal target object: " ++ err)%string
      | inl targetJSON =>
          match jsonpatch_CreateMergePatch sourceJSON targetJSON with
          | inr err => inr ("failed to create a merge patch: " ++ err)%string
          | inl patchBytes => inl patchBytes
          end
      end
  end.

Definition desiredOwner (sourceObj : Unstructured) : list MetaOwnerReference :=
  [NewControllerRef sourceObj (uns_GroupVersionKind sourceObj)].

Definition setTemplate (spec : GenericFederatedObjectSpec) (raw : string) : GenericFederatedObjectSpec := {|
  Template := raw; Overrides := Overrides spec; Placements := Placements spec; Follows := Follows spec |}.

Definition newFederatedObjectForSourceObject (ftc : FederatedTypeConfig) (sourceObj : Unstructured)
    : FederatedObject + string :=
  let '(federatedLabels, templateLabels) := classifyLabels (uns_GetLabels sourceObj) in
  let federatedLabels := <[uns_GetAPIVersion sourceObj := uns_GetKind sourceObj]> federatedLabels in
  let '(federatedAnnotations, templateAnnotations) := classifyAnnotations (uns_GetAnnotations sourceObj) in
  let observedLabelKeys := generateObservedKeys (uns_GetLabels sourceObj) federatedLabels in
  let observedAnnotationKeys := generateObservedKeys (uns_GetAnnotations sourceObj) federatedAnnotations in
  let federatedAnnotations := <[ObservedAnnotationKeysAnnotation := observedAnnotationKeys]> federatedAnnotations in
  let federatedAnnotations := <[ObservedLabelKeysAnnotation := observedLabelKeys]> federatedAnnotations in
  let templateObject := TemplateForSourceObject sourceObj templateAnnotations templateLabels in
  match Unstructured_MarshalJSON templateObject with
  | inr err => inr ("failed to marshal template: " ++ err)%string
  | inl rawTemplate =>
      match CreateMergePatch sourceObj templateObject with
      | inr err => inr ("failed to create merge patch for source object: " ++ err)%string
      | inl templateGeneratorMergePatch => inl {|
          fo_Namespace := uns_GetNamespace sourceObj;
          fo_Name := GenerateFederatedObjectName (uns_GetName sourceObj) (ftc_Name ftc);
          fo_Labels := federatedLabels;
          fo_Annotations := <[TemplateGeneratorMergePatchAnnotation := templateGeneratorMergePatch]> federatedAnnotations;
          fo_OwnerReferences := desiredOwner sourceObj;
          fo_Generation := 0; fo_DeletionTimestamp := None; fo_Finalizers := [];
          fo_Spec := {| Template := rawTemplate; Overrides := []; Placements := []; Follows := [] |};
          fo_Status := empty_status |}
      end
  end.

Definition fo_SetOwnerReferences (o : FederatedObject) (owners : list MetaOwnerReference) : FederatedObject := {|
  fo_Namespace := fo_Namespace o; fo_Name := fo_Name o; fo_Labels := fo_Labels o;
  fo_Annotations := fo_Annotations o; fo_OwnerReferences := owners; fo_Generation := fo_Generation o;
  fo_DeletionTimestamp := fo_DeletionTimestamp o; fo_Finalizers := fo_Finalizers o;
  fo_Spec := fo_Spec o; fo_Status := fo_Status o
|}.

Definition fo_SetLabels (o : FederatedObject) (labels : gmap string string) : FederatedObject := {|
  fo_Namespace := fo_Namespace o; fo_Name := fo_Name o; fo_Labels := labels;
  fo_Annotations := fo_Annotations o; fo_OwnerReferences := fo_OwnerReferences o; fo_Generation := fo_Generation o;
  fo_DeletionTimestamp := fo_DeletionTimestamp o; fo_Finalizers := fo_Finalizers o;
  fo_Spec := fo_Spec o; fo_Status := fo_Status o
|}.

(** The annotations of an object that has none are a nil map. *)
Definition GetAnnotations (o : FederatedObject) : option (gmap string string) :=
  if bool_decide (fo_Annotations o = ∅) then None else Some (fo_Annotations o).

(** The loop that records what was observed: writing to a nil map panics. *)
Definition recordStep (s : may_panic (option (gmap string string) * Z)) (entry : string * string)
    : may_panic (option (gmap string string) * Z) :=
  '(newAnnotations, annotationChanges) ← s;
  let '(key, desiredValue) := entry in
  match newAnnotations with
  | None => Panics
  | Some annotations =>
      if bool_decide (annotations !! key = Some desiredValue) then Returns (Some annotations, annotationChanges)
      else Returns (Some (<[key := desiredValue]> annotations), annotationChanges + 1)
  end.

Definition recordObserved (observed : gmap string string) (newAnnotations : option (gmap string string))
    (annotationChanges : Z) : may_panic (option (gmap string string) * Z) :=
  foldl recordStep (Returns (newAnnotations, annotationChanges)) (range_map observed).

(** The object as it was changed in place, and whether it was. *)
Definition updateTemplate (fedObject : FederatedObject) (targetTemplate : Unstructured)
    : (FederatedObject * bool) + string :=
  match Unstructured_UnmarshalJSON (Template (fo_Spec fedObject)) with
  | inr err => inr ("failed to unmarshal template from federated object: " ++ err)%string
  | inl foundTemplate =>
      if bool_decide (uns_Object foundTemplate = uns_Object targetTemplate) then inl (fedObject, false)
      else
        match Unstructured_MarshalJSON targetTemplate with
        | inr err => inr ("failed to marshal template: " ++ err)%string
        | inl rawTargetTemplate => inl (setSpec fedObject (setTemplate (fo_Spec fedObject) rawTargetTemplate), true)
        end
  end.

Definition updateAnnotations (fedObject : FederatedObject) (federatedAnnotations observed : gmap string string)
    : may_panic (FederatedObject * bool) :=
  let '(newAnnotations, annotationChanges) :=
    CopySubmap federatedAnnotations (GetAnnotations fedObject) (fun key => (classifyAnnotation key).1) in
  '(newAnnotations, annotationChanges) ← recordObserved observed newAnnotations annotationChanges;
  if 0 <? annotationChanges then Returns (SetAnnotations fedObject (default ∅ newAnnotations), true)
  else Returns (fedObject, false).

Definition updateFederatedObjectForSourceObject (typeConfig : FederatedTypeConfig) (sourceObject : Unstructured)
    (fedObject : FederatedObject) : may_panic ((FederatedObject * bool) + string) :=
  let '(fedObject, ownerUpdated) :=
    if bool_decide (fo_OwnerReferences fedObject = desiredOwner sourceObject) then (fedObject, false)
    else (fo_SetOwnerReferences fedObject (desiredOwner sourceObject), true) in
  let '(federatedLabels, templateLabels) := classifyLabels (uns_GetLabels sourceObject) in
  let federatedLabels := <[uns_GetAPIVersion sourceObject := uns_GetKind sourceObject]> federatedLabels in
  let '(fedObject, labelsUpdated) :=
    if bool_decide (federatedLabels = fo_Labels fedObject) then (fedObject, false)
    else (fo_SetLabels fedObject federatedLabels, true) in
  let '(federatedAnnotations, templateAnnotations) := classifyAnnotations (uns_GetAnnotations sourceObject) in
  let observedAnnotationKeys := generateObservedKeys (uns_GetAnnotations sourceObject) federatedAnnotations in
  let observedLabelKeys := generateObservedKeys (uns_GetLabels sourceObject) federatedLabels in
  let targetTemplate := TemplateForSourceObject sourceObject templateAnnotations templateLabels in
  match updateTemplate fedObject targetTemplate with
  | inr err => Returns (inr err)
  | inl (fedObject, templateUpdated) =>
      match CreateMergePatch sourceObject targetTemplate with
      | inr err => Returns (inr ("failed to create merge patch for source object: " ++ err)%string)
      | inl templateGeneratorMergePatch =>
          '(fedObject, annotationsUpdated) ← updateAnnotations fedObject federatedAnnotations
            (list_to_map [(ObservedAnnotationKeysAnnotation, observedAnnotationKeys);
                          (ObservedLabelKeysAnnotation, observedLabelKeys);
                          (TemplateGeneratorMergePatchAnnotation, templateGeneratorMergePatch)]);
          if ownerUpdated || labelsUpdated || templateUpdated || annotationsUpdated then
            match SetPendingControllers fedObject (GetControllers typeConfig) with
            | inr err => Returns (inr ("failed to set pending controllers for federated object: " ++ err)%string)
            | inl (fedObject, _) => Returns (inl (fedObject, true))
            end
          else Returns (inl (fedObject, false))
      end
  end.
End Federate.

(** ** The controller ([controller.go]) *)

Record workerKey := { wk_name : string; wk_namespace : string; wk_gvk : GroupVersionKind }.

Definition workerKey_QualifiedName (k : workerKey) : QualifiedName :=
  {| qn_Namespace := wk_namespace k; qn_Name := wk_name k |}.

(** The clients of the host: source objects and federated objects. *)
Class FederateServer (W : Type) := {
  src_Update : W -> GroupVersionResource -> Unstructured -> W * (Unstructured + ApiError);
  fdo_Create : W -> FederatedObject -> W * (FederatedObject + ApiError);
  fdo_Update : W -> FederatedObject -> W * (FederatedObject + ApiError);
  fdo_Delete : W -> string -> string -> W * option ApiError
}.

(** The caches, the rate limiter of keys whose cache is not synced, and the
    namespace that is not federated. *)
Record FederateController := {
  fdc_ResourceFTC : GroupVersionKind -> option FederatedTypeConfig;
  fdc_ResourceLister : GroupVersionKind -> option ResourceLister;
  fdc_FederatedObject : string -> string -> FederatedObject + ApiError;
  fdc_ClusterFederatedObject : string -> FederatedObject + ApiError;
  fdc_cacheSyncRateLimiter_When : workerKey -> Z;
  fdc_fedSystemNamespace : string
}.

Section Controller.
Context `{K : Kubernetes} `{R : GoRuntime} `{C : !Codecs} `{L : !FederateLibraries} {W : Type} `{S : !FederateServer W}.
Variable c : FederateController.

(** [fedobjectadapters.GetFromLister]. *)
Definition fdc_GetFromLister (namespace name : string) : FederatedObject + ApiError :=
  if String.eqb namespace "" then fdc_ClusterFederatedObject c name else fdc_FederatedObject c namespace name.

(** The finalizers of the source object; on success the object as the server
    returns it. *)
Definition ensureFinalizer (w : W) (sourceGVR : GroupVersionResource) (sourceObj : Unstructured)
    : W * (Unstructured + ApiError) :=
  let '(finalizers, isUpdated) := AddFinalizers (uns_GetFinalizers sourceObj) {[FinalizerFederateController]} in
  if negb isUpdated then (w, inl sourceObj)
  else src_Update w sourceGVR (uns_SetFinalizers finalizers sourceObj).

Definition removeFinalizer (w : W) (sourceGVR : GroupVersionResource) (sourceObj : Unstructured)
    : W * (Unstructured + ApiError) :=
  let '(finalizers, isUpdated) := RemoveFinalizers (uns_GetFinalizers sourceObj) {[FinalizerFederateController]} in
  if negb isUpdated then (w, inl sourceObj)
  else src_Update w sourceGVR (uns_SetFinalizers finalizers sourceObj).

Definition handleTerminatingSourceObject (w : W) (sourceGVR : GroupVersionResource) (sourceObject : Unstructured)
    (fedObject : option FederatedObject) : W * option ApiError :=
  match fedObject with
  | None =>
      let '(w, res) := removeFinalizer w sourceGVR sourceObject in
      (w, match res with inl _ => None | inr err => Some err end)
  | Some fedObject =>
      match fo_DeletionTimestamp fedObject with
      | None => fdo_Delete w (fo_Namespace fedObject) (fo_Name fedObject)
      | Some _ => (w, None)
      end
  end.

Definition handleCreateFederatedObject (w : W) (ftc : FederatedTypeConfig) (sourceObject : Unstructured)
    : W * option ApiError :=
  match newFederatedObjectForSourceObject ftc sourceObject with
  | inr err => (w, Some (OtherError err))
  | inl fedObject =>
      match SetPendingControllers fedObject (GetControllers ftc) with
      | inr err => (w, Some (OtherError err))
      | inl (fedObject, _) =>
          let '(w, res) := fdo_Create w fedObject in
          (w, match res with inl _ => None | inr err => Some err end)
      end
  end.

(** The boolean: whether the object was updated. *)
Definition handleExistingFederatedObject (w : W) (ftc : FederatedTypeConfig) (sourceObject : Unstructured)
    (fedObject : FederatedObject) : may_panic (W * (bool + ApiError)) :=
  res ← updateFederatedObjectForSourceObject ftc sourceObject fedObject;
  match res with
  | inr err => Returns (w, inr (OtherError err))
  | inl (fedObject, needsUpdate) =>
      if negb needsUpdate then Returns (w, inl false)
      else
        let '(w, res) := fdo_Update w fedObject in
        Returns (w, match res with inl _ => inl true | inr err => inr err end)
  end.

(** The first owner that is the controller. *)
Definition controllerOf (ownerRefs : list MetaOwnerReference) : option MetaOwnerReference :=
  List.find (fun ref => default false (mor_Controller ref)) ownerRefs.

Definition ownedByAnother (key : workerKey) (sourceObject : Unstructured) (fedObject : FederatedObject) : bool :=
  match controllerOf (fo_OwnerReferences fedObject) with
  | None => false
  | Some owner =>
      negb (bool_decide (FromAPIVersionAndKind (mor_APIVersion owner) (mor_Kind owner) = wk_gvk key)) ||
      negb (String.eqb (mor_Name owner) (uns_GetName sourceObject))
  end.

(** From the point where the source object is known not to be terminating. *)
Definition federate (w : W) (ftc : FederatedTypeConfig) (sourceObject : Unstructured)
    (fedObject : option FederatedObject) : may_panic (W * WorkerResult) :=
  let noFederatedResource := default ""%string (uns_GetAnnotations sourceObject !! NoFederatedResource) in
  if (0 <? String.length noFederatedResource)%nat then Returns (w, StatusAllOK)
  else
    let '(w, res) := ensureFinalizer w (GetSourceTypeGVR ftc) sourceObject in
    match res, fedObject with
    | inr err, _ => Returns (w, if IsConflict err then StatusConflict else StatusError)
    | inl sourceObject, None =>
        match handleCreateFederatedObject w ftc sourceObject with
        | (w, Some err) => Returns (w, if IsInvalid err then StatusErrorNoRetry else StatusError)
        | (w, None) => Returns (w, StatusAllOK)
        end
    | inl sourceObject, Some fedObject =>
        '(w, res) ← handleExistingFederatedObject w ftc sourceObject fedObject;
        match res with
        | inr err => Returns (w, if IsConflict err then StatusConflict else StatusError)
        | inl _ => Returns (w, StatusAllOK)
        end
    end.

Definition reconcile (w : W) (key : workerKey) : may_panic (W * WorkerResult) :=
  match fdc_ResourceFTC c (wk_gvk key) with
  | None => Returns (w, StatusAllOK)
  | Some ftc =>
      match fdc_ResourceLister c (wk_gvk key) with
      | None => Returns (w, StatusAllOK)
      | Some lister =>
          if negb (rl_HasSynced lister) then
            Returns (w, {| wr_Success := true; RequeueAfter := Some (fdc_cacheSyncRateLimiter_When c key);
                           Backoff := false |})
          else
            match rl_Get lister (QualifiedName_String (workerKey_QualifiedName key)) with
            | inr err => Returns (w, if IsNotFound err then StatusAllOK else StatusError)
            | inl sourceObject =>
                let found := fdc_GetFromLister (uns_GetNamespace sourceObject)
                  (GenerateFederatedObjectName (uns_GetName sourceObject) (ftc_Name ftc)) in
                match found with
                | inr err =>
                    if negb (IsNotFound err) then Returns (w, StatusError)
                    else
                      match uns_GetDeletionTimestamp sourceObject with
                      | Some _ =>
                          let '(w, err) := handleTerminatingSourceObject w (GetSourceTypeGVR ftc) sourceObject None in
                          Returns (w, conflictOrError err)
                      | None => federate w ftc sourceObject None
                      end
                | inl fedObject =>
                    if ownedByAnother key sourceObject fedObject then Returns (w, StatusErrorNoRetry)
                    else
                      match uns_GetDeletionTimestamp sourceObject with
                      | Some _ =>
                          let '(w, err) :=
                            handleTerminatingSourceObject w (GetSourceTypeGVR ftc) sourceObject (Some fedObject) in
                          Returns (w, conflictOrError err)
                      | None => federate w ftc sourceObject (Some fedObject)
                      end
                end
            end
      end
  end.

(** ** Events *)

Definition enqueueSourceObject (ftc : FederatedTypeConfig) (uns : Unstructured) : option workerKey :=
  if String.eqb (uns_GetNamespace uns) (fdc_fedSystemNamespace c) then None
  else Some {| wk_name := uns_GetName uns; wk_namespace := uns_GetNamespace uns; wk_gvk := GetSourceTypeGVK ftc |}.

Definition templateKey (fedObj : FederatedObject) : option workerKey :=
  match GetTemplateAsUnstructured (fo_Spec fedObj) with
  | inr _ => None
  | inl srcMeta => Some {| wk_name := uns_GetName srcMeta; wk_namespace := uns_GetNamespace srcMeta;
                           wk_gvk := uns_GroupVersionKind srcMeta |}
  end.

Definition enqueueFederatedObject (fedObj : FederatedObject) : option workerKey :=
  if String.eqb (fo_Namespace fedObj) (fdc_fedSystemNamespace c) then None else templateKey fedObj.
End Controller.

(** ** Propagation status ([pkg/util/propagationstatus]) *)

Section Propagated.
Context `{K : Kubernetes} `{C : !Codecs} `{L : !FederateLibraries}.

Definition parseObservedKeys (keys : string) : gset string * gset string :=
  match split_on "|" keys with
  | [fedKeys; nonFedKeys] =>
      (if String.eqb fedKeys "" then ∅ else list_to_set (split_on "," fedKeys),
       if String.eqb nonFedKeys "" then ∅ else list_to_set (split_on "," nonFedKeys))
  | _ => (∅, ∅)
  end.

(** A key that is absent reads as the empty string. *)
Definition areStringMapsSynced (sourceMap federatedMap : gmap string string) (observedKeys : string) : bool :=
  let '(fedKeys, ignoredKeys) := parseObservedKeys observedKeys in
  bool_decide (fedKeys ∪ ignoredKeys = dom sourceMap) &&
  forallb (fun key => String.eqb (default ""%string (sourceMap !! key)) (default ""%string (federatedMap !! key)))
    (elements fedKeys).

Definition pruneSourceObj (sourceObj : Unstructured) (mergePatch : string) : Object + string :=
  match Unstructured_MarshalJSON sourceObj with
  | inr err => inr err
  | inl sourceJSON =>
      match jsonpatch_MergePatch sourceJSON mergePatch with
      | inr err => inr err
      | inl prunedSourceJSON => utiljson_Unmarshal prunedSourceJSON
      end
  end.

Definition IsFederatedTemplateUpToDate (sourceObject : Unstructured) (fedObject : FederatedObject) : bool + string :=
  match GetTemplateAsUnstructured (fo_Spec fedObject) with
  | inr err => inr err
  | inl templateMap =>
      let fedAnnotations := fo_Annotations fedObject in
      let read key := default ""%string (fedAnnotations !! key) in
      if Nat.eqb (size fedAnnotations) 0 then inl false
      else if negb (areStringMapsSynced (uns_GetAnnotations sourceObject) fedAnnotations
                      (read ObservedAnnotationKeysAnnotation)) then inl false
      else if negb (areStringMapsSynced (uns_GetLabels sourceObject) (fo_Labels fedObject)
                      (read ObservedLabelKeysAnnotation)) then inl false
      else
        match pruneSourceObj sourceObject (read TemplateGeneratorMergePatchAnnotation) with
        | inr err => inr err
        | inl prunedSourceObj => inl (bool_decide (prunedSourceObj = uns_Object templateMap))
        end
  end.

Definition IsResourceTemplateSyncedToMemberClusters (fedObject : FederatedObject) : bool :=
  SyncedGeneration (fo_Status fedObject) =? fo_Generation fedObject.

(** The objects may be nil. *)
Definition IsResourcePropagated (sourceObject : option Unstructured) (fedObject : option FederatedObject)
    : bool + string :=
  match sourceObject, fedObject with
  | None, _ => inr "source object can't be nil"%string
  | _, None => inl false
  | Some sourceObject, Some fedObject =>
      match IsFederatedTemplateUpToDate sourceObject fedObject with
      | inr err => inr err
      | inl false => inl false
      | inl true =>
          if negb (IsResourceTemplateSyncedToMemberClusters fedObject) then inl false
          else inl (forallb (fun cluster => String.eqb (prs_Status cluster) ClusterPropagationOK)
                      (gs_Clusters (fo_Status fedObject)))
      end
  end.
End Propagated.
