(* ===== verification/FederateLibrary.v ===== *)
(** * A concrete instance of the libraries of the federate controller

    Metadata as in [Unstructured.small_helpers]; documents are the positions in
    a finite table of objects, and a merge patch is the document of its target. *)

From Stdlib Require Import ZArith Lia String Ascii.
From S2P Require Import Prelude GoStrings K8s Types ApiTypes Unstructured Codecs Webhook Federate.

(** ** Setters *)

Section Setters.
#[local] Existing Instance small_helpers.

Lemma object_get_metadata u p : metadata_ok u = true -> p <> [] ->
  object_get (uns_Object u) ("metadata"%string :: p) = object_get (metadata_map u) p.
Proof.
  unfold metadata_ok, metadata_map. rewrite object_get_cons.
  destruct (uns_Object u !! "metadata"%string) as [[| | | | | |m]|]; try done.
  intros _ Hp. by rewrite object_get_empty.
Qed.

(** A setter given by what it does to the map of the metadata. *)
Lemma metadata_map_field_setter set k f :
  (forall u, metadata_ok u = true -> metadata_ok (set u) = true) ->
  (forall u, metadata_ok u = true -> metadata_map (set u) = f (metadata_map u)) ->
  (forall m k', k' <> k -> f m !! k' = m !! k') ->
  (forall u k', k' <> "metadata"%string -> uns_Object (set u) !! k' = uns_Object u !! k') ->
  field_setter set k.
Proof.
  intros Hok Hmap Hf Hother. split; [done| |done]. intros u p Hu Hp. simpl.
  destruct p as [|x p]; [by apply apart_nil_r in Hp|].
  destruct (decide (x = "metadata"%string)) as [->|Hx].
  - apply apart_cons in Hp. destruct p as [|y p]; [by apply apart_nil_r in Hp|].
    rewrite !object_get_metadata, Hmap by (done || by apply Hok). rewrite !object_get_cons, Hf; [done|].
    intros ->. destruct Hp as [Hp _]. apply Hp. by exists p.
  - by rewrite !object_get_cons, Hother.
Qed.

Lemma set_field_setter k v : field_setter (set_metadata k v) k.
Proof.
  apply (metadata_map_field_setter _ _ (fun m => <[k := v]> m)).
  - apply set_metadata_ok.
  - apply metadata_map_set.
  - intros m k' Hk. by rewrite lookup_insert_ne.
  - apply set_metadata_other.
Qed.

Lemma remove_field_clears k : clears (remove_metadata k) k.
Proof.
  split.
  - apply (metadata_map_field_setter _ _ (fun m => delete k m)).
    + apply remove_metadata_ok.
    + apply metadata_map_remove.
    + intros m k' Hk. by rewrite lookup_delete_ne.
    + apply remove_metadata_other.
  - intros u Hu. change (object_get (uns_Object (remove_metadata k u)) ["metadata"%string; k] = inl None).
    rewrite object_get_metadata, metadata_map_remove by (done || by apply remove_metadata_ok).
    rewrite object_get_top. by rewrite lookup_delete_eq.
Qed.

Lemma set_map_stores k : stores (fun l => set_metadata k (strings_value l)) k.
Proof.
  intros l. split; [apply set_field_setter|]. intros u Hu. left.
  change (object_get (uns_Object (set_metadata k (strings_value l) u)) ["metadata"%string; k] = inl (Some (strings_value l))).
  rewrite object_get_metadata, metadata_map_set by (done || by apply set_metadata_ok).
  by rewrite object_get_top, lookup_insert_eq.
Qed.

Lemma remove_other_setter k : k ∉ ["name"; "namespace"; "labels"; "annotations"; "finalizers"; "generation";
    "resourceVersion"; "deletionTimestamp"]%string -> metadata_setter small_Meta (remove_metadata k) id.
Proof.
  intros Hk. rewrite !not_elem_of_cons in Hk. destruct_and? Hk. apply remove_metadata_setter. intros u Hu.
  unfold small_Meta, field_string, field_strings. rewrite (metadata_map_remove _ _ Hu).
  by rewrite !lookup_delete_ne by congruence.
Qed.

Lemma remove_selfLink_setter : metadata_setter small_Meta (remove_metadata "selfLink") id.
Proof. by apply remove_other_setter, (bool_decide_eq_true_1 _). Qed.
Lemma remove_uid_setter : metadata_setter small_Meta (remove_metadata "uid") id.
Proof. by apply remove_other_setter, (bool_decide_eq_true_1 _). Qed.
Lemma remove_creation_setter : metadata_setter small_Meta (remove_metadata "creationTimestamp") id.
Proof. by apply remove_other_setter, (bool_decide_eq_true_1 _). Qed.
Lemma remove_owners_setter : metadata_setter small_Meta (remove_metadata "ownerReferences") id.
Proof. by apply remove_other_setter, (bool_decide_eq_true_1 _). Qed.
Lemma remove_managedFields_setter : metadata_setter small_Meta (remove_metadata "managedFields") id.
Proof. by apply remove_other_setter, (bool_decide_eq_true_1 _). Qed.
Lemma remove_deletion_setter : metadata_setter small_Meta (remove_metadata "deletionTimestamp") without_deletion.
Proof. small_remover. Qed.
Lemma remove_finalizers_setter : metadata_setter small_Meta (remove_metadata "finalizers") (with_finalizers []).
Proof. small_remover. Qed.

Lemma small_NestedField_cons o k m p : o !! k = Some (VMap m) -> object_get o (k :: p) = object_get m p.
Proof. intros H. by rewrite object_get_cons, H. Qed.
End Setters.

(** ** Owner references *)

Definition small_ControllerRef `{UnstructuredHelpers} (u : Unstructured) (gvk : GroupVersionKind) : MetaOwnerReference := {|
  mor_APIVersion := GroupVersion_String {| gv_Group := gvk_Group gvk; gv_Version := gvk_Version gvk |};
  mor_Kind := gvk_Kind gvk; mor_Name := uns_GetName u;
  mor_UID := field_string (metadata_map u) "uid"; mor_Controller := Some true; mor_BlockOwnerDeletion := Some true
|}.

Definition small_FromAPIVersionAndKind (apiVersion kind : string) : GroupVersionKind :=
  match cut "/" apiVersion with
  | Some (group, version) => {| gvk_Group := group; gvk_Version := version; gvk_Kind := kind |}
  | None => {| gvk_Group := ""; gvk_Version := apiVersion; gvk_Kind := kind |}
  end.

Lemma cut_none c s : string_has c s = false -> cut c s = None.
Proof.
  intros H. pose proof (cut_spec c s) as Hc. destruct (cut c s) as [[b a]|]; [|done].
  destruct Hc as [-> _]. exfalso. clear -H. induction b as [|x b IH]; simpl in H.
  - by rewrite Ascii.eqb_refl in H.
  - apply orb_false_iff in H as [_ H]. auto.
Qed.

Lemma cut_first c s t : string_has c s = false -> cut c (s ++ String c t) = Some (s, t).
Proof.
  induction s as [|a s IH]; simpl.
  - intros _. by rewrite Ascii.eqb_refl.
  - intros [Ha Hs]%orb_false_iff. by rewrite Ha, IH.
Qed.

Lemma small_ControllerRef_law `{UnstructuredHelpers} u gvk :
  mor_Name (small_ControllerRef u gvk) = uns_GetName u /\
  mor_Controller (small_ControllerRef u gvk) = Some true /\
  (string_has "/" (gvk_Group gvk) = false -> string_has "/" (gvk_Version gvk) = false ->
   small_FromAPIVersionAndKind (mor_APIVersion (small_ControllerRef u gvk)) (mor_Kind (small_ControllerRef u gvk)) = gvk).
Proof.
  split_and!; [done..|]. destruct gvk as [g v k]. simpl. intros Hg Hv.
  unfold GroupVersion_String, small_FromAPIVersionAndKind. simpl. destruct (String.eqb_spec g "") as [->|_].
  - by rewrite cut_none.
  - change (g ++ "/" ++ v)%string with (g ++ String "/" v)%string. by rewrite cut_first.
Qed.

(** ** Documents *)

Section Table.
Context `{Kubernetes} (table : list Unstructured).

Definition table_marshal (u : Unstructured) : string + string :=
  match list_find (fun x => x = u) table with
  | Some (i, _) => inl (decimal (Z.of_nat i))
  | None => inr "not in the table"%string
  end.

Definition table_unmarshal (s : string) : Unstructured + string :=
  match parse_decimal s with
  | inr e => inr e
  | inl n => match table !! Z.to_nat n with Some u => inl u | None => inr "not in the table"%string end
  end.

Definition table_codecs : Codecs := codecs_reading table_unmarshal.
#[local] Existing Instance table_codecs.

Definition table_object (s : string) : Object + string :=
  match table_unmarshal s with inl u => inl (uns_Object u) | inr e => inr e end.

Lemma table_roundtrip u s : table_marshal u = inl s -> table_unmarshal s = inl u.
Proof.
  unfold table_marshal, table_unmarshal. destruct (list_find _ table) as [[i x]|] eqn:E; [|done].
  intros [= <-]. rewrite parse_decimal_decimal, Nat2Z.id. apply list_find_Some in E as (-> & -> & _). done.
Qed.

Definition set_time (k : string) (t : option Time) : Unstructured -> Unstructured :=
  match t with Some t => set_metadata k (VInt t) | None => remove_metadata k end.

Definition table_libraries : FederateLibraries (C := table_codecs) := {|
  uns_GetAPIVersion := fun u => field_string (uns_Object u) "apiVersion";
  uns_GetKind := fun u => field_string (uns_Object u) "kind";
  uns_SetSelfLink := set_metadata_string "selfLink";
  uns_SetUID := set_metadata_string "uid";
  uns_SetCreationTimestamp := set_time "creationTimestamp";
  uns_SetDeletionTimestamp := set_time "deletionTimestamp";
  uns_SetOwnerReferences_nil := remove_metadata "ownerReferences";
  uns_SetFinalizers_nil := remove_metadata "finalizers";
  uns_SetManagedFields_nil := remove_metadata "managedFields";
  NewControllerRef := small_ControllerRef;
  FromAPIVersionAndKind := small_FromAPIVersionAndKind;
  Unstructured_MarshalJSON := table_marshal;
  json_Marshal := table_marshal;
  utiljson_Unmarshal := table_object;
  jsonpatch_CreateMergePatch := fun _ t => inl t;
  jsonpatch_MergePatch := fun _ p => inl p;
  NestedField_cons := small_NestedField_cons;
  SetSelfLink_clears := remove_field_clears "selfLink";
  SetUID_clears := remove_field_clears "uid";
  SetResourceVersion_clears := remove_field_clears "resourceVersion";
  SetCreationTimestamp_clears := remove_field_clears "creationTimestamp";
  SetDeletionTimestamp_clears := remove_field_clears "deletionTimestamp";
  SetOwnerReferences_clears := remove_field_clears "ownerReferences";
  SetFinalizers_clears := remove_field_clears "finalizers";
  SetManagedFields_clears := remove_field_clears "managedFields";
  SetLabels_stores := set_map_stores "labels";
  SetAnnotations_stores := set_map_stores "annotations";
  Meta_SetSelfLink := remove_selfLink_setter;
  Meta_SetUID := remove_uid_setter;
  Meta_SetCreationTimestamp := remove_creation_setter;
  Meta_SetDeletionTimestamp := remove_deletion_setter;
  Meta_SetOwnerReferences := remove_owners_setter;
  Meta_SetFinalizers_nil := remove_finalizers_setter;
  Meta_SetManagedFields := remove_managedFields_setter;
  NewControllerRef_law := small_ControllerRef_law;
  MergePatch_law := fun s t p s' source target _ Ht _ _ Hp =>
    match Hp with eq_refl => ex_intro _ t (conj eq_refl Ht) end
|}.
End Table.

(** ** A source object *)

Definition source_cfg : Unstructured := {| uns_Object := list_to_map [
  ("apiVersion", VString "v1"); ("kind", VString "ConfigMap");
  ("data", VMap {["colour"%string := VString "red"]});
  ("status", VMap ∅);
  ("metadata", VMap (list_to_map [
     ("name", VString "cfg"); ("namespace", VString "default"); ("uid", VString "u1"); ("resourceVersion", VString "7");
     ("labels", strings_value {["app"%string := "web"%string]});
     ("annotations", strings_value (list_to_map
        [(StickyClusterAnnotation, "true"); ("note", "kept")]))]%string))]%string |}.
