(* ===== verification/FederateTheorems.v ===== *)
(** * Properties of the federate controller

    How labels and annotations are divided, the template, the round trip of the
    observed keys, and the federated object as the status code reads it back;
    then the requests of a reconciliation. *)

From Stdlib Require Import ZArith Lia String Ascii.
From S2P Require Import Prelude GoStrings K8s Types ApiTypes Unstructured Codecs FedObject FedObjectTheorems.
From S2P Require Import MemberObjects Naming Sync OverridePolicy Federate FederateLibrary.

(** ** Labels and annotations *)

Section Maps.
Context `{R : GoRuntime}.

Lemma classifyStringMap_spec src matcher k :
  (classifyStringMap src matcher).1 !! k = (if (matcher k).1 then src !! k else None) /\
  (classifyStringMap src matcher).2 !! k = (if (matcher k).2 then src !! k else None).
Proof.
  assert (forall s k' v n, ((classifyStep matcher s (k', v)).1 !! n, (classifyStep matcher s (k', v)).2 !! n) =
    if decide (n = k') then (if (matcher k').1 then Some v else s.1 !! n, if (matcher k').2 then Some v else s.2 !! n)
    else (s.1 !! n, s.2 !! n)) as Hstep.
  { intros [a b] k' v n. simpl. destruct (matcher k') as [[] []]; simpl; case_decide; subst;
      rewrite ?lookup_insert_eq, ?lookup_insert_ne by done; done. }
  pose proof (foldl_point (fun (s : gmap string string * gmap string string) n => (s.1 !! n, s.2 !! n))
    (fun k o v => (if (matcher k).1 then Some v else o.1, if (matcher k).2 then Some v else o.2))
    (classifyStep matcher) Hstep) as H.
  specialize (H src (∅, ∅) k). unfold classifyStringMap. destruct (foldl _ _ _) as [a b]. simpl in *.
  rewrite !lookup_empty in H. destruct (src !! k), (matcher k) as [[] []]; simplify_eq/=; by rewrite ?H, ?H1.
Qed.

(** One key is copied, or removed when it is not in the source. *)
Lemma copyKey_spec src s key : let s' := copyKey src s key in
  (forall k, default ∅ s'.1 !! k = if decide (k = key) then src !! k else default ∅ s.1 !! k) /\
  (s'.2 = if decide (default ∅ s.1 !! key = src !! key) then s.2 else s.2 + 1) /\
  (is_Some s.1 -> is_Some s'.1) /\
  (default ∅ s.1 !! key = src !! key -> s'.1 = s.1).
Proof.
  destruct s as [dest n]. simpl. destruct (src !! key) as [v|] eqn:Es.
  - case_bool_decide as Hd; simpl.
    + rewrite Hd, decide_True by done. split_and!; [|done..]. intros k. case_decide; [congruence|done].
    + rewrite decide_False by done. split_and!; [|done|by eexists|done].
      intros k. case_decide; subst; [by rewrite lookup_insert_eq|by rewrite lookup_insert_ne].
  - destruct (default ∅ dest !! key) as [w|] eqn:Ed; simpl.
    + split_and!; [|done|by intros [d ->]; eexists|done].
      intros k. destruct dest as [d|]; simpl in *; [|by rewrite lookup_empty in Ed].
      case_decide; subst; [by rewrite lookup_delete_eq|by rewrite lookup_delete_ne].
    + split_and!; [|done..]. intros k. case_decide; congruence.
Qed.

Section Copy.
Variables (src : gmap string string) (matcher : string -> bool).

(** Copying is idempotent at every key, so a list of keys may be visited in any
    order and more than once. *)
Lemma copyMatching_spec l s : let s' := foldl (copyMatching src matcher) s l in
  (forall k, default ∅ s'.1 !! k =
     if decide (matcher k = true /\ k ∈ l.*1) then src !! k else default ∅ s.1 !! k) /\
  (s.2 <= s'.2) /\ (is_Some s.1 -> is_Some s'.1) /\ (s'.2 = s.2 -> s'.1 = s.1).
Proof.
  revert s. induction l as [|e l IH]; intros s; simpl.
  - split_and!; [|lia|done..]. intros k. rewrite decide_False; [done|]. intros [_ H]. by apply elem_of_nil in H.
  - assert (copyMatching src matcher s e = if matcher e.1 then copyKey src s e.1 else s) as Es by done.
    set (s1 := copyMatching src matcher s e) in *. clearbody s1.
    destruct (IH s1) as (H1 & H2 & H3 & H4). clear IH. set (s' := foldl _ s1 l) in *. clearbody s'.
    destruct (matcher e.1) eqn:Em; subst s1.
    + destruct (copyKey_spec src s e.1) as (K1 & K2 & K3 & K4).
      set (s1 := copyKey src s e.1) in *. clearbody s1. split_and!.
      * intros k. rewrite H1, K1. destruct (decide (k = e.1)) as [->|Hne].
        -- rewrite (decide_True (P := _ /\ e.1 ∈ e.1 :: _)) by (split; [done|left]). by repeat case_decide.
        -- apply decide_ext. rewrite elem_of_cons. naive_solver.
      * case_decide; lia.
      * auto.
      * intros Heq. case_decide as Hd; [|lia]. rewrite H4, K4; [done..|]. lia.
    + split_and!; [|done..]. intros k. rewrite H1. apply decide_ext. rewrite elem_of_cons. split; [tauto|]. intros [? [->|?]]; [congruence|done].
Qed.

Lemma elem_of_range_keys {V} (m : gmap string V) k : k ∈ (range_map m).*1 <-> is_Some (m !! k).
Proof.
  rewrite list_elem_of_fmap. split.
  - intros ([k' v] & -> & H%elem_of_range_map). by eexists.
  - intros [v H]. exists (k, v). by rewrite elem_of_range_map.
Qed.

(** The keys that match are those of the source, the others are left. *)
Lemma CopySubmap_spec dest : let res := CopySubmap src dest matcher in
  (forall k, default ∅ res.1 !! k = if matcher k then src !! k else default ∅ dest !! k) /\
  (0 <= res.2) /\ (is_Some dest -> is_Some res.1) /\ (res.2 = 0 -> res.1 = dest).
Proof.
  unfold CopySubmap. cbv zeta.
  destruct (copyMatching_spec (range_map src) (dest, 0)) as (H1 & H2 & H3 & H4).
  set (s1 := foldl _ (dest, 0) _) in *.
  destruct (copyMatching_spec (range_map (default ∅ s1.1)) s1) as (K1 & K2 & K3 & K4).
  set (s2 := foldl _ s1 _) in *. clearbody s1 s2. simpl in *. split_and!.
  - intros k. rewrite K1, H1. destruct (matcher k) eqn:Em.
    + repeat case_decide; try done; rewrite elem_of_range_keys in *; try rewrite H1 in *.
      * destruct (default ∅ dest !! k) eqn:Ed; [|destruct (src !! k) eqn:Es; [|done]; naive_solver].
        destruct H. split; [done|]. rewrite decide_False; [by eexists|]. rewrite elem_of_range_keys. tauto.
    + rewrite !decide_False by (intros [? _]; congruence). done.
  - lia.
  - auto.
  - intros Heq. rewrite K4, H4 by lia. done.
Qed.

Lemma copyMatching_same l s : (forall k, matcher k = true -> default ∅ s.1 !! k = src !! k) ->
  foldl (copyMatching src matcher) s l = s.
Proof.
  intros H. induction l as [|e l IH]; [done|]. simpl.
  assert (copyMatching src matcher s e = s) as ->; [|done]. unfold copyMatching.
  destruct (matcher e.1) eqn:Em; [|done]. destruct (copyKey_spec src s e.1) as (_ & K2 & _ & K4).
  rewrite decide_True in K2 by auto. specialize (K4 (H _ Em)). destruct (copyKey src s e.1), s; simpl in *. congruence.
Qed.

Lemma CopySubmap_same dest : (forall k, matcher k = true -> default ∅ dest !! k = src !! k) ->
  CopySubmap src dest matcher = (dest, 0).
Proof. intros H. unfold CopySubmap. rewrite (copyMatching_same (range_map src) (dest, 0)) by done. by apply copyMatching_same. Qed.
End Copy.

(** ** The observed keys *)

(** What the API server allows in the key of a label or annotation, as far as
    the encoding of lists of keys depends on it. *)
Definition plain_key (k : string) : Prop :=
  k <> ""%string /\ string_has "," k = false /\ string_has "|" k = false.
Definition plain_keys (m : gmap string string) : Prop := forall k, is_Some (m !! k) -> plain_key k.

Lemma string_has_app c s t : string_has c (s ++ t) = string_has c s || string_has c t.
Proof. induction s as [|a s IH]; [done|]. simpl. by rewrite IH, orb_assoc. Qed.

Lemma string_has_concat c sep l : string_has c sep = false -> Forall (fun s => string_has c s = false) l ->
  string_has c (String.concat sep l) = false.
Proof.
  intros Hsep. induction l as [|s [|t l] IH]; intros Hl; [done|..]; inversion_clear Hl as [|?? Hs Hl']; [done|].
  change (String.concat sep (s :: t :: l)) with (s ++ sep ++ String.concat sep (t :: l))%string.
  by rewrite !string_has_app, Hs, Hsep, IH.
Qed.

Lemma parse_joined_keys l : Forall plain_key l ->
  (if String.eqb (String.concat "," l) "" then ∅ else list_to_set (split_on "," (String.concat "," l)) : gset string) =
  list_to_set l.
Proof.
  intros Hl. destruct l as [|k l]; [done|]. inversion_clear Hl as [|?? Hk Hl'].
  destruct (String.eqb_spec (String.concat "," (k :: l)) "") as [E|_].
  - destruct Hk as [Hk _]. destruct k as [|a k]; [done|]. by destruct l.
  - rewrite split_on_concat; [done..|]. constructor; [apply Hk|]. eapply Forall_impl; [done|]. by intros ? (_ & ? & _).
Qed.

Lemma observeKey_spec fed l s : foldl (observeKey fed) s l =
  (s.1 ++ filter (fun k => is_Some (fed !! k)) l.*1, s.2 ++ filter (fun k => ~ is_Some (fed !! k)) l.*1).
Proof.
  revert s. induction l as [|e l IH]; intros s.
  { destruct s. simpl. by rewrite !filter_nil, !app_nil_r. }
  simpl.
  rewrite IH, !filter_cons. destruct s as [a b]. simpl. case_bool_decide as Hd.
  - rewrite decide_True, decide_False by tauto. simpl. by rewrite <- app_assoc.
  - rewrite decide_False, decide_True by tauto. simpl. by rewrite <- app_assoc.
Qed.

(** Reading back the keys of a map, divided by whether they are federated. *)
Lemma parse_generateObservedKeys src fed : plain_keys src ->
  parseObservedKeys (generateObservedKeys src fed) =
  (filter (fun k => is_Some (fed !! k)) (dom src), filter (fun k => ~ is_Some (fed !! k)) (dom src)).
Proof.
  intros Hsrc. unfold generateObservedKeys. destruct (Nat.eqb_spec (size src) 0) as [E|_].
  - apply map_size_empty_inv in E as ->. rewrite dom_empty_L. change (parseObservedKeys "") with (∅ : gset string, ∅ : gset string). f_equal; symmetry; apply set_eq; intros k; rewrite elem_of_filter; set_solver.
  - rewrite observeKey_spec. cbn [fst snd app].
    assert (forall P `{!forall k, Decision (P k)},
      Forall plain_key (sort_slice String.ltb (filter P (range_map src).*1)) /\
      list_to_set (sort_slice String.ltb (filter P (range_map src).*1)) = filter P (dom src)) as Hsort.
    { intros P HP. split.
      - apply Forall_forall. intros k Hk. rewrite elem_of_sort_slice, list_elem_of_filter, elem_of_range_keys in Hk.
        apply Hsrc. tauto.
      - apply set_eq. intros k. rewrite elem_of_list_to_set, elem_of_sort_slice, list_elem_of_filter.
        by rewrite elem_of_filter, elem_of_dom, elem_of_range_keys. }
    destruct (Hsort (fun k => is_Some (fed !! k)) _) as [P1 S1].
    destruct (Hsort (fun k => ~ is_Some (fed !! k)) _) as [P2 S2]. clear Hsort.
    unfold parseObservedKeys.
    assert (forall l, Forall plain_key l -> string_has "|" (String.concat "," l) = false) as Hbar.
    { intros l Hl. apply string_has_concat; [done|]. eapply Forall_impl; [done|]. by intros ? (_ & _ & ?). }
    rewrite split_on_concat; [|done|repeat constructor; auto].
    by rewrite !parse_joined_keys, S1, S2.
Qed.

(** The federated half of a map is in sync with the map it came from. *)
Lemma areStringMapsSynced_generate src fed stored : plain_keys src ->
  (forall k v, src !! k = Some v -> is_Some (fed !! k) -> stored !! k = Some v) ->
  areStringMapsSynced src stored (generateObservedKeys src fed) = true.
Proof.
  intros Hsrc Hfed. unfold areStringMapsSynced. rewrite parse_generateObservedKeys by done.
  apply andb_true_iff. split.
  - apply bool_decide_eq_true, set_eq. intros k. rewrite elem_of_union, !elem_of_filter.
    destruct (decide (is_Some (fed !! k))); tauto.
  - apply forallb_forall. intros k Hk. apply list_elem_of_In in Hk.
    rewrite elem_of_elements, elem_of_filter, elem_of_dom in Hk. destruct Hk as [Hf [v Hv]].
    rewrite Hv, (Hfed k v) by done. apply String.eqb_refl.
Qed.
End Maps.

(** ** The template *)

Lemma apart_fields f g : f <> g -> apart (metadata_field f) (metadata_field g).
Proof. unfold metadata_field. intros H. split; intros [k E]; injection E; congruence. Qed.

Section Template.
Context `{K : Kubernetes} `{R : GoRuntime} `{C : !Codecs} `{L : !FederateLibraries}.

(** A setter leaves what lies elsewhere. *)
Lemma setter_keeps set f u p x : field_setter set f -> metadata_ok u = true -> apart (metadata_field f) p ->
  NestedFieldNoCopy (uns_Object u) p = x -> NestedFieldNoCopy (uns_Object (set u)) p = x.
Proof. intros Hset Hu Hp <-. by apply (fs_apart _ _ Hset). Qed.
Lemma setter_ok set f u : field_setter set f -> metadata_ok u = true -> metadata_ok (set u) = true.
Proof. intros Hset. apply (fs_ok _ _ Hset). Qed.
Lemma setter_other set f u k x : field_setter set f -> k <> "metadata"%string ->
  uns_Object u !! k = x -> uns_Object (set u) !! k = x.
Proof. intros Hset Hk <-. by apply (fs_other _ _ Hset). Qed.
Lemma clears_now set f u : clears set f -> metadata_ok u = true ->
  NestedFieldNoCopy (uns_Object (set u)) (metadata_field f) = inl None.
Proof. intros [_ H]. apply H. Qed.

Lemma clears_setter set f : clears set f -> field_setter set f.
Proof. by intros [? _]. Qed.
Lemma stores_setter set f l : stores set f -> field_setter (set l) f.
Proof. intros H. apply H. Qed.

(** The fields that the setters of [TemplateForSourceObject] write, in order. *)
Definition cleared_fields : list string :=
  ["selfLink"; "uid"; "resourceVersion"; "creationTimestamp"; "deletionTimestamp"; "ownerReferences"; "finalizers";
   "managedFields"]%string.

(** The setters of the metadata, composed. *)
Definition template_metadata (annotations labels : gmap string string) (u : Unstructured) : Unstructured :=
  uns_SetManagedFields_nil (uns_SetFinalizers_nil (uns_SetOwnerReferences_nil (uns_SetLabels labels
    (uns_SetAnnotations annotations (uns_SetDeletionTimestamp None (uns_SetCreationTimestamp None
      (uns_SetResourceVersion "" (uns_SetUID "" (uns_SetSelfLink "" u))))))))).

Lemma TemplateForSourceObject_eq u annotations labels : TemplateForSourceObject u annotations labels =
  {| uns_Object := delete StatusField (uns_Object (template_metadata annotations labels u)) |}.
Proof. unfold TemplateForSourceObject. by rewrite RemoveNestedField_top. Qed.

(** The maps of strings as they are stored. *)
Definition stored_as (l : gmap string string) (x : option Value + string) : Prop :=
  x = inl (Some (strings_value l)) \/ l = ∅ /\ x = inl None.
Lemma stores_now set f l u : stores set f -> metadata_ok u = true ->
  stored_as l (NestedFieldNoCopy (uns_Object (set l u)) (metadata_field f)).
Proof. intros H. apply H. Qed.
Lemma stored_keeps set f l u p : field_setter set f -> metadata_ok u = true -> apart (metadata_field f) p ->
  stored_as l (NestedFieldNoCopy (uns_Object u) p) -> stored_as l (NestedFieldNoCopy (uns_Object (set u)) p).
Proof. intros Hset Hu Hp H. by rewrite (setter_keeps set f u p _ Hset Hu Hp eq_refl). Qed.

Ltac known_setter := first
  [apply clears_setter, SetSelfLink_clears|apply clears_setter, SetUID_clears
  |apply clears_setter, SetResourceVersion_clears|apply clears_setter, SetCreationTimestamp_clears
  |apply clears_setter, SetDeletionTimestamp_clears|apply stores_setter, SetAnnotations_stores
  |apply stores_setter, SetLabels_stores|apply clears_setter, SetOwnerReferences_clears
  |apply clears_setter, SetFinalizers_clears|apply clears_setter, SetManagedFields_clears].
Ltac known_clear := first
  [apply SetSelfLink_clears|apply SetUID_clears|apply SetResourceVersion_clears|apply SetCreationTimestamp_clears
  |apply SetDeletionTimestamp_clears|apply SetOwnerReferences_clears|apply SetFinalizers_clears
  |apply SetManagedFields_clears].
Ltac metadata_is_ok := repeat (eapply setter_ok; [known_setter|]); assumption.

Section Metadata.
Variables (annotations labels : gmap string string) (u : Unstructured).
Hypothesis Hu : metadata_ok u = true.

Lemma template_metadata_ok : metadata_ok (template_metadata annotations labels u) = true.
Proof using Hu. unfold template_metadata. metadata_is_ok. Qed.

Lemma template_metadata_other k : k <> "metadata"%string ->
  uns_Object (template_metadata annotations labels u) !! k = uns_Object u !! k.
Proof using Type. intros Hk. unfold template_metadata. by repeat (eapply setter_other; [known_setter|done|]). Qed.

Lemma template_metadata_cleared f : f ∈ cleared_fields ->
  NestedFieldNoCopy (uns_Object (template_metadata annotations labels u)) (metadata_field f) = inl None.
Proof using Hu.
  intros Hf. unfold template_metadata. unfold cleared_fields in Hf. rewrite !elem_of_cons, elem_of_nil in Hf.
  destruct_or? Hf; subst; try done;
    repeat first [eapply clears_now; [known_clear|metadata_is_ok]
                 |eapply setter_keeps; [known_setter|metadata_is_ok|by apply apart_fields|]].
Qed.

Lemma template_metadata_kept p : apart (metadata_field "labels") p -> apart (metadata_field "annotations") p ->
  Forall (fun f => apart (metadata_field f) p) cleared_fields ->
  NestedFieldNoCopy (uns_Object (template_metadata annotations labels u)) p = NestedFieldNoCopy (uns_Object u) p.
Proof using Hu.
  intros Hl Ha Hc. unfold cleared_fields in Hc. rewrite !Forall_cons in Hc. destruct_and? Hc. unfold template_metadata.
  repeat (eapply setter_keeps; [known_setter|metadata_is_ok|assumption|]). done.
Qed.

Lemma template_metadata_maps :
  stored_as labels (NestedFieldNoCopy (uns_Object (template_metadata annotations labels u)) (metadata_field "labels")) /\
  stored_as annotations
    (NestedFieldNoCopy (uns_Object (template_metadata annotations labels u)) (metadata_field "annotations")).
Proof using Hu.
  split; unfold template_metadata;
    repeat (eapply stored_keeps; [known_setter|metadata_is_ok|by apply apart_fields|]);
    [eapply (stores_now uns_SetLabels)|eapply (stores_now uns_SetAnnotations)];
    first [metadata_is_ok|apply SetLabels_stores|apply SetAnnotations_stores].
Qed.
End Metadata.

Lemma template_Meta annotations labels u : metadata_ok u = true ->
  uns_Meta (template_metadata annotations labels u) = {|
    om_Name := uns_GetName u; om_Namespace := uns_GetNamespace u; om_Labels := labels; om_Annotations := annotations;
    om_Finalizers := []; om_Generation := uns_GetGeneration u; om_ResourceVersion := "";
    om_DeletionTimestamp := None |}.
Proof.
  intros Hu. unfold template_metadata.
  rewrite (ms_meta _ _ _ Meta_SetManagedFields), (ms_meta _ _ _ Meta_SetFinalizers_nil),
    (ms_meta _ _ _ Meta_SetOwnerReferences), (ms_meta _ _ _ (Meta_SetLabels labels)),
    (ms_meta _ _ _ (Meta_SetAnnotations annotations)), (ms_meta _ _ _ Meta_SetDeletionTimestamp),
    (ms_meta _ _ _ Meta_SetCreationTimestamp), (ms_meta _ _ _ (Meta_SetResourceVersion "")),
    (ms_meta _ _ _ Meta_SetUID), (ms_meta _ _ _ Meta_SetSelfLink) by metadata_is_ok.
  done.
Qed.

Lemma TemplateForSourceObject_Meta annotations labels u : metadata_ok u = true ->
  uns_Meta (TemplateForSourceObject u annotations labels) = {|
    om_Name := uns_GetName u; om_Namespace := uns_GetNamespace u; om_Labels := labels; om_Annotations := annotations;
    om_Finalizers := []; om_Generation := uns_GetGeneration u; om_ResourceVersion := "";
    om_DeletionTimestamp := None |}.
Proof.
  intros Hu. rewrite TemplateForSourceObject_eq, <- template_Meta by done. apply Meta_frame. simpl.
  by rewrite lookup_delete_ne.
Qed.

(** C37. The template of a source object has none of the fields that the API
    server or the source cluster own, nor a status; its labels and annotations
    are the given ones, its name, namespace and generation those of the source
    object, and every field elsewhere is as it was. *)
Theorem TemplateForSourceObject_spec sourceObj annotations labels : metadata_ok sourceObj = true ->
  let template := TemplateForSourceObject sourceObj annotations labels in
  uns_Meta template = {|
    om_Name := uns_GetName sourceObj; om_Namespace := uns_GetNamespace sourceObj;
    om_Labels := labels; om_Annotations := annotations; om_Finalizers := [];
    om_Generation := uns_GetGeneration sourceObj; om_ResourceVersion := ""; om_DeletionTimestamp := None |} /\
  uns_Object template !! StatusField = None /\
  (forall field, field ∈ cleared_fields ->
    NestedFieldNoCopy (uns_Object template) (metadata_field field) = inl None) /\
  (forall path, apart [StatusField] path ->
    Forall (fun field => apart (metadata_field field) path) ("labels" :: "annotations" :: cleared_fields)%string ->
    NestedFieldNoCopy (uns_Object template) path = NestedFieldNoCopy (uns_Object sourceObj) path).
Proof.
  intros Hu. cbv zeta. split; [by apply TemplateForSourceObject_Meta|]. rewrite TemplateForSourceObject_eq.
  assert (forall p, apart [StatusField] p ->
    NestedFieldNoCopy (delete StatusField (uns_Object (template_metadata annotations labels sourceObj))) p =
    NestedFieldNoCopy (uns_Object (template_metadata annotations labels sourceObj)) p) as Hstatus.
  { intros p Hp. rewrite <- RemoveNestedField_top. by apply RemoveNestedField_apart. }
  split_and!.
  - simpl. apply lookup_delete_eq.
  - intros f Hf. simpl. rewrite Hstatus; [by apply template_metadata_cleared|]. split; intros [k E]; done.
  - intros p Hp Hf. rewrite !Forall_cons in Hf. simpl. rewrite Hstatus by done.
    apply template_metadata_kept; tauto.
Qed.

Lemma strings_value_null_free l : null_free (strings_value l).
Proof. constructor. intros k v. rewrite lookup_fmap. destruct (l !! k); intros [= <-]. constructor. Qed.

Lemma nested_metadata u m f : uns_Object u !! "metadata"%string = Some (VMap m) ->
  NestedFieldNoCopy (uns_Object u) (metadata_field f) = inl (m !! f).
Proof. intros H. unfold metadata_field. by rewrite (NestedField_cons _ _ _ _ H), NestedField_top. Qed.

(** A merge patch can turn the source object into its template. *)
Lemma template_patchable u m annotations labels : uns_Object u !! "metadata"%string = Some (VMap m) ->
  patchable (Some (VMap (uns_Object u))) (VMap (uns_Object (TemplateForSourceObject u annotations labels))).
Proof.
  intros Hm. assert (metadata_ok u = true) as Hu by (unfold metadata_ok; by rewrite Hm).
  rewrite TemplateForSourceObject_eq. apply patchable_map. intros k v Hv. simpl in Hv.
  apply lookup_delete_Some in Hv as [_ Hv].
  destruct (decide (k = "metadata"%string)) as [->|Hk].
  - pose proof (template_metadata_ok annotations labels u Hu) as Hok. unfold metadata_ok in Hok. rewrite Hv in Hok.
    destruct v as [| | | | | |t]; try done. rewrite Hm. apply patchable_map. intros f w Hf.
    pose proof (nested_metadata _ _ f Hv) as Hnested. rewrite Hf in Hnested.
    destruct (template_metadata_maps annotations labels u Hu) as [Hl Ha].
    assert (forall l, stored_as l (inl (Some w)) -> patchable (m !! f) w) as Hstored.
    { intros l [[= ->]|[_ H]]; [|done]. apply patchable_new, strings_value_null_free. }
    destruct (decide (f = "labels"%string)) as [->|Hnl]; [rewrite Hnested in Hl; eauto|].
    destruct (decide (f = "annotations"%string)) as [->|Hna]; [rewrite Hnested in Ha; eauto|].
    destruct (decide (f ∈ cleared_fields)) as [Hc|Hc].
    { by rewrite (template_metadata_cleared annotations labels u Hu f Hc) in Hnested. }
    rewrite template_metadata_kept, (nested_metadata _ _ f Hm) in Hnested;
      [injection Hnested as ->; constructor|done|by apply apart_fields..|].
    apply Forall_forall. intros g Hg. apply apart_fields. by intros ->.
  - rewrite template_metadata_other in Hv by done. rewrite Hv. constructor.
Qed.
End Template.

(** ** The federated object *)

Section Observed.
Context `{R : GoRuntime}.

Lemma recordStep_list l a n : NoDup l.*1 -> exists n',
  foldl recordStep (Returns (Some a, n)) l = Returns (Some (list_to_map l ∪ a), n') /\ n <= n' /\
  (list_to_map l ∪ a = a -> n' = n) /\ (n' = n -> list_to_map l ∪ a = a).
Proof.
  revert a n. induction l as [|[k v] l IH]; intros a n; simpl.
  - intros _. exists n. rewrite (left_id_L ∅ (∪)). split_and!; [done|lia|done..].
  - rewrite NoDup_cons. intros [Hk Hl]. apply (not_elem_of_list_to_map_1 (M := gmap string)) in Hk as Hnone.
    assert (list_to_map l ∪ <[k := v]> a = <[k := v]> (list_to_map l) ∪ a) as Hcomm.
    { by rewrite <- insert_union_r, insert_union_l. }
    case_bool_decide as Ha.
    + destruct (IH a n Hl) as (n' & -> & H1 & H2 & H3). exists n'.
      rewrite <- Hcomm, (insert_id a) by done. done.
    + destruct (IH (<[k := v]> a) (n + 1) Hl) as (n' & -> & H1 & H2 & H3). exists n'. rewrite <- Hcomm.
      split_and!; [done|lia| |lia]. intros Heq. destruct Ha. rewrite <- Heq, lookup_union, Hnone, lookup_insert_eq.
      done.
Qed.

Lemma recordObserved_Some observed a n : exists n',
  recordObserved observed (Some a) n = Returns (Some (observed ∪ a), n') /\ n <= n' /\
  (observed ∪ a = a -> n' = n) /\ (n' = n -> observed ∪ a = a).
Proof.
  unfold recordObserved. destruct (recordStep_list (range_map observed) a n (NoDup_range_map_fst _)) as (n' & H).
  rewrite list_to_map_range_map in H. by exists n'.
Qed.

Lemma recordStep_panics l : foldl recordStep Panics l = Panics.
Proof. by induction l. Qed.

Lemma recordObserved_None observed n : observed <> ∅ -> recordObserved observed None n = Panics.
Proof.
  intros H. unfold recordObserved. destruct (range_map observed) as [|[k v] l] eqn:E.
  - destruct H. rewrite <- (list_to_map_range_map observed), E. done.
  - simpl. apply recordStep_panics.
Qed.
End Observed.

Lemma default_GetAnnotations o : default ∅ (GetAnnotations o) = fo_Annotations o.
Proof. unfold GetAnnotations. by case_bool_decide. Qed.
Lemma SetAnnotations_same o : SetAnnotations o (fo_Annotations o) = o.
Proof. by destruct o. Qed.

Definition federatedKey (key : string) : bool := (classifyAnnotation key).1.

Section Annotations.
Context `{R : GoRuntime}.
Variables (federatedAnnotations observed : gmap string string).
Hypothesis Hobserved : observed <> ∅.

(** The annotations of the federated object that the update aims at. *)
Definition merged_annotations (o : FederatedObject) (annotations : gmap string string) : Prop :=
  forall k, annotations !! k = match observed !! k with
                               | Some v => Some v
                               | None => if federatedKey k then federatedAnnotations !! k else fo_Annotations o !! k
                               end.

Lemma updateAnnotations_spec o o' b : updateAnnotations o federatedAnnotations observed = Returns (o', b) ->
  exists annotations, o' = SetAnnotations o annotations /\ merged_annotations o annotations /\ (b = false -> o' = o).
Proof using Hobserved.
  unfold updateAnnotations. change (fun key => (classifyAnnotation key).1) with federatedKey.
  destruct (CopySubmap_spec federatedAnnotations federatedKey (GetAnnotations o)) as (H1 & H2 & H3 & H4).
  destruct (CopySubmap _ _ _) as [newAnnotations n]. simpl in *. rewrite default_GetAnnotations in H1.
  destruct newAnnotations as [a|]; [|by rewrite recordObserved_None].
  destruct (recordObserved_Some observed a n) as (n' & Hrec & Hn & _ & Hsame). rewrite Hrec. simpl.
  assert (merged_annotations o (observed ∪ a)) as Hm.
  { intros k. rewrite lookup_union. simpl in H1. rewrite <- H1. by destruct (observed !! k), (a !! k). }
  destruct (Z.ltb_spec 0 n') as [Hlt|Hle]; intros [= <- <-].
  - by eexists.
  - exists (observed ∪ a). split_and!; [|done|done]. rewrite Hsame by lia.
    assert (n = 0) as -> by lia. specialize (H4 eq_refl).
    pose proof (default_GetAnnotations o) as Hd. rewrite <- H4 in Hd. simpl in Hd. subst a.
    by rewrite SetAnnotations_same.
Qed.

Lemma updateAnnotations_same o : fo_Annotations o <> ∅ ->
  (forall k v, observed !! k = Some v -> fo_Annotations o !! k = Some v) ->
  (forall k, federatedKey k = true -> fo_Annotations o !! k = federatedAnnotations !! k) ->
  updateAnnotations o federatedAnnotations observed = Returns (o, false).
Proof using Type.
  intros Hne Hobs Hfed. unfold updateAnnotations. change (fun key => (classifyAnnotation key).1) with federatedKey.
  rewrite CopySubmap_same by (intros k Hk; rewrite default_GetAnnotations; auto).
  unfold GetAnnotations. rewrite bool_decide_eq_false_2 by done.
  destruct (recordObserved_Some observed (fo_Annotations o) 0) as (n' & -> & _ & Hsame & _).
  rewrite Hsame; [done|]. apply map_eq. intros k. rewrite lookup_union.
  destruct (observed !! k) as [v|] eqn:E; [|by destruct (fo_Annotations o !! k)].
  rewrite (Hobs k v E). done.
Qed.
End Annotations.

Section Sync.
Context `{K : Kubernetes} `{R : GoRuntime} `{C : !Codecs} `{L : !FederateLibraries}.

Definition labels_of (src : Unstructured) : gmap string string :=
  <[uns_GetAPIVersion src := uns_GetKind src]> (classifyLabels (uns_GetLabels src)).1.
Definition annotations_of (src : Unstructured) : gmap string string :=
  (classifyAnnotations (uns_GetAnnotations src)).1.
Definition template_of (src : Unstructured) : Unstructured :=
  TemplateForSourceObject src (classifyAnnotations (uns_GetAnnotations src)).2 (classifyLabels (uns_GetLabels src)).2.

(** What the federate controller wants to find in the three annotations that
    record what was observed, for a given merge patch. *)
Definition observed_of (src : Unstructured) (patch : string) : gmap string string := list_to_map
  [(ObservedAnnotationKeysAnnotation, generateObservedKeys (uns_GetAnnotations src) (annotations_of src));
   (ObservedLabelKeysAnnotation, generateObservedKeys (uns_GetLabels src) (labels_of src));
   (TemplateGeneratorMergePatchAnnotation, patch)].

(** A federated object that reflects its source object. *)
Record in_sync (src : Unstructured) (o : FederatedObject) : Prop := {
  is_owner : fo_OwnerReferences o = desiredOwner src;
  is_labels : fo_Labels o = labels_of src;
  is_annotations : forall k, federatedKey k = true -> fo_Annotations o !! k = annotations_of src !! k;
  is_template : Unstructured_UnmarshalJSON (Template (fo_Spec o)) = inl (template_of src);
  is_observed : exists patch, CreateMergePatch src (template_of src) = inl patch /\
    forall k v, observed_of src patch !! k = Some v -> fo_Annotations o !! k = Some v
}.

(** JSON represents the object: it is read back as it was written. *)
Definition json_exact (u : Unstructured) : Prop :=
  (exists s, Unstructured_MarshalJSON u = inl s /\ Unstructured_UnmarshalJSON s = inl u /\
             utiljson_Unmarshal s = inl (uns_Object u)) /\
  (exists s, json_Marshal u = inl s /\ utiljson_Unmarshal s = inl (uns_Object u)).

Lemma observed_lookup src patch k v : observed_of src patch !! k = Some v ->
  k = ObservedAnnotationKeysAnnotation /\ v = generateObservedKeys (uns_GetAnnotations src) (annotations_of src) \/
  k = ObservedLabelKeysAnnotation /\ v = generateObservedKeys (uns_GetLabels src) (labels_of src) \/
  k = TemplateGeneratorMergePatchAnnotation /\ v = patch.
Proof.
  unfold observed_of. simpl. rewrite !lookup_insert_Some, lookup_empty. intros H. destruct_or? H; naive_solver.
Qed.

Lemma observed_found src patch :
  observed_of src patch !! ObservedAnnotationKeysAnnotation =
    Some (generateObservedKeys (uns_GetAnnotations src) (annotations_of src)) /\
  observed_of src patch !! ObservedLabelKeysAnnotation =
    Some (generateObservedKeys (uns_GetLabels src) (labels_of src)) /\
  observed_of src patch !! TemplateGeneratorMergePatchAnnotation = Some patch.
Proof.
  assert (ObservedAnnotationKeysAnnotation <> ObservedLabelKeysAnnotation /\
    ObservedAnnotationKeysAnnotation <> TemplateGeneratorMergePatchAnnotation /\
    ObservedLabelKeysAnnotation <> TemplateGeneratorMergePatchAnnotation) as (H1 & H2 & H3)
    by (split_and!; vm_compute; discriminate).
  unfold observed_of. simpl. split_and!;
    repeat first [rewrite lookup_insert_eq|rewrite lookup_insert_ne by congruence]; reflexivity.
Qed.

Lemma observed_nonempty src patch : observed_of src patch <> ∅.
Proof. intros H. destruct (observed_found src patch) as (E & _). by rewrite H, lookup_empty in E. Qed.

(** The controller's own keys are not copied from source objects. *)
Lemma own_keys_not_federated :
  federatedKey ObservedAnnotationKeysAnnotation = false /\ federatedKey ObservedLabelKeysAnnotation = false /\
  federatedKey TemplateGeneratorMergePatchAnnotation = false /\ federatedKey PendingControllersAnnotation = false.
Proof. split_and!; vm_compute; reflexivity. Qed.

Lemma observed_not_federated src patch k : federatedKey k = true -> observed_of src patch !! k = None.
Proof.
  intros Hk. destruct (observed_of src patch !! k) as [v|] eqn:E; [|done].
  destruct own_keys_not_federated as (H1 & H2 & H3 & _).
  destruct (observed_lookup _ _ _ _ E) as [[-> _]|[[-> _]|[-> _]]]; congruence.
Qed.

(** *** Creation *)

Lemma newFederatedObject_in_sync ftc src o : newFederatedObjectForSourceObject ftc src = inl o ->
  json_exact (template_of src) ->
  in_sync src o /\ fo_Namespace o = uns_GetNamespace src /\
  fo_Name o = GenerateFederatedObjectName (uns_GetName src) (ftc_Name ftc).
Proof.
  intros Hnew [(s & Hs & Hback & _) _]. unfold newFederatedObjectForSourceObject in Hnew.
  destruct (classifyLabels (uns_GetLabels src)) as [fl tl] eqn:El.
  destruct (classifyAnnotations (uns_GetAnnotations src)) as [fa ta] eqn:Ea.
  assert (TemplateForSourceObject src ta tl = template_of src) as Ht by (unfold template_of; by rewrite El, Ea).
  assert (<[uns_GetAPIVersion src := uns_GetKind src]> fl = labels_of src) as Hl by (unfold labels_of; by rewrite El).
  assert (fa = annotations_of src) as -> by (unfold annotations_of; by rewrite Ea).
  rewrite Ht, Hl, Hs in Hnew. destruct (CreateMergePatch src (template_of src)) as [patch|] eqn:Ep; [|done].
  injection Hnew as <-. split; [|done]. split; try done; simpl.
  - intros k Hk. destruct own_keys_not_federated as (H1 & H2 & H3 & _).
    rewrite !lookup_insert_ne by congruence. done.
  - exists patch. split; [done|]. intros k v Hkv. destruct (observed_found src patch) as (F1 & F2 & F3).
    destruct (observed_lookup _ _ _ _ Hkv) as [[-> ->]|[[-> ->]|[-> ->]]];
      repeat first [rewrite lookup_insert_eq
                   |rewrite lookup_insert_ne by (vm_compute; discriminate)]; reflexivity.
Qed.

Lemma pending_in_sync src o cs o' b : SetPendingControllers o cs = inl (o', b) -> in_sync src o -> in_sync src o'.
Proof.
  intros H [H1 H2 H3 H4 (p & Hp & H5)]. apply SetPendingControllers_spec in H as (_ & [a ->] & _).
  destruct own_keys_not_federated as (_ & _ & _ & Hpk).
  split; cbn [fo_OwnerReferences fo_Labels fo_Annotations fo_Spec SetAnnotations]; [assumption..| | |].
  - intros k Hk. rewrite lookup_insert_ne by congruence. auto.
  - assumption.
  - exists p. split; [done|]. intros k v Hkv. rewrite lookup_insert_ne; [auto|].
    destruct (observed_lookup _ _ _ _ Hkv) as [[-> _]|[[-> _]|[-> _]]]; vm_compute; discriminate.
Qed.

(** *** Update *)

Lemma updateTemplate_spec o target o' b : updateTemplate o target = inl (o', b) -> json_exact target ->
  (exists raw, o' = setSpec o (setTemplate (fo_Spec o) raw)) /\
  Unstructured_UnmarshalJSON (Template (fo_Spec o')) = inl target /\ (b = false -> o' = o).
Proof.
  intros H [(s & Hs & Hback & _) _]. unfold updateTemplate in H.
  destruct (Unstructured_UnmarshalJSON (Template (fo_Spec o))) as [found|] eqn:Ef; [|done].
  case_bool_decide as Heq.
  - injection H as <- <-. split_and!; [|by rewrite Ef; destruct found, target; simpl in *; subst|done].
    exists (Template (fo_Spec o)). by destruct o as [? ? ? ? ? ? ? ? []].
  - rewrite Hs in H. injection H as <- <-. split_and!; [by eexists|done|done].
Qed.

Definition set_owner (src : Unstructured) (o : FederatedObject) : FederatedObject :=
  fo_SetOwnerReferences o (desiredOwner src).
Definition set_labels (src : Unstructured) (o : FederatedObject) : FederatedObject := fo_SetLabels o (labels_of src).

(** The update in one equation: the owner and the labels are set, then the
    template and the annotations. *)
Lemma update_eq ftc src o : updateFederatedObjectForSourceObject ftc src o =
  let o1 := set_labels src (set_owner src o) in
  match updateTemplate o1 (template_of src) with
  | inr err => Returns (inr err)
  | inl (o2, templateUpdated) =>
      match CreateMergePatch src (template_of src) with
      | inr err => Returns (inr ("failed to create merge patch for source object: " ++ err)%string)
      | inl patch =>
          '(o3, annotationsUpdated) ← updateAnnotations o2 (annotations_of src) (observed_of src patch);
          if negb (bool_decide (fo_OwnerReferences o = desiredOwner src)) ||
             negb (bool_decide (labels_of src = fo_Labels o)) || templateUpdated || annotationsUpdated then
            match SetPendingControllers o3 (GetControllers ftc) with
            | inr err => Returns (inr ("failed to set pending controllers for federated object: " ++ err)%string)
            | inl (o4, _) => Returns (inl (o4, true))
            end
          else Returns (inl (o3, false))
      end
  end.
Proof.
  unfold updateFederatedObjectForSourceObject. cbv zeta. unfold observed_of, annotations_of, template_of.
  assert ((if bool_decide (fo_OwnerReferences o = desiredOwner src) then (o, false)
           else (fo_SetOwnerReferences o (desiredOwner src), true)) =
          (set_owner src o, negb (bool_decide (fo_OwnerReferences o = desiredOwner src)))) as ->.
  { case_bool_decide as H; [|done]. unfold set_owner. rewrite <- H. by destruct o. }
  destruct (classifyLabels (uns_GetLabels src)) as [fl tl] eqn:El.
  assert (<[uns_GetAPIVersion src := uns_GetKind src]> fl = labels_of src) as -> by (unfold labels_of; by rewrite El).
  assert ((if bool_decide (labels_of src = fo_Labels (set_owner src o)) then (set_owner src o, false)
           else (fo_SetLabels (set_owner src o) (labels_of src), true)) =
          (set_labels src (set_owner src o), negb (bool_decide (labels_of src = fo_Labels o)))) as ->.
  { change (fo_Labels (set_owner src o)) with (fo_Labels o). case_bool_decide as H; [|done].
    unfold set_labels. rewrite H. by destruct o. }
  by destruct (classifyAnnotations (uns_GetAnnotations src)) as [fa ta].
Qed.

(** Whatever the update returns reflects the source object. *)
Lemma update_in_sync ftc src o o' b : updateFederatedObjectForSourceObject ftc src o = Returns (inl (o', b)) ->
  json_exact (template_of src) ->
  in_sync src o' /\ fo_Namespace o' = fo_Namespace o /\ fo_Name o' = fo_Name o /\ (b = false -> o' = o).
Proof.
  intros Hup Hexact. rewrite update_eq in Hup. cbv zeta in Hup.
  set (o1 := set_labels src (set_owner src o)) in *.
  destruct (updateTemplate o1 _) as [[o2 tb]|] eqn:Et; [|done].
  destruct (updateTemplate_spec _ _ _ _ Et Hexact) as ([raw Ho2] & Htmpl & Hsame2).
  destruct (CreateMergePatch src (template_of src)) as [patch|] eqn:Ep; [|done].
  apply may_panic_bind_Returns in Hup as ([o3 ab] & Ha & Hup).
  destruct (updateAnnotations_spec _ _ (observed_nonempty src patch) _ _ _ Ha) as (as3 & Ho3 & Hm & Hsame3).
  assert (in_sync src o3) as Hsync.
  { subst o3. split.
    - by subst o2.
    - by subst o2.
    - intros k Hk. simpl. rewrite Hm, observed_not_federated by done. by rewrite Hk.
    - exact Htmpl.
    - exists patch. split; [done|]. intros k v Hkv. simpl. by rewrite Hm, Hkv. }
  assert (fo_Namespace o3 = fo_Namespace o /\ fo_Name o3 = fo_Name o) as [Hns Hname] by by subst.
  destruct (negb _ || negb _ || tb || ab) eqn:Eb.
  - destruct (SetPendingControllers o3 _) as [[o4 pb]|] eqn:Epc; [|done]. injection Hup as <- <-.
    split; [by eapply pending_in_sync|]. apply SetPendingControllers_spec in Epc as (_ & [a ->] & _). done.
  - injection Hup as <- <-. split_and!; [done..|]. intros _.
    rewrite !orb_false_iff, !negb_false_iff, !bool_decide_eq_true in Eb. destruct Eb as [[[E1 E2] ->] ->].
    rewrite Hsame3, Hsame2 by done. subst o1. unfold set_labels, set_owner. rewrite <- E1, E2. by destruct o.
Qed.

(** An object that reflects the source object is left alone. *)
Lemma in_sync_settled ftc src o : in_sync src o ->
  updateFederatedObjectForSourceObject ftc src o = Returns (inl (o, false)).
Proof.
  intros [H1 H2 H3 H4 (patch & Hp & H5)]. rewrite update_eq. cbv zeta.
  assert (set_labels src (set_owner src o) = o) as ->.
  { unfold set_labels, set_owner. rewrite <- H1, <- H2. by destruct o. }
  unfold updateTemplate. rewrite H4, bool_decide_eq_true_2 by done. rewrite Hp.
  rewrite updateAnnotations_same; [| |done|done]; simpl.
  - by rewrite H1, H2, !bool_decide_eq_true_2.
  - intros Hne. destruct (observed_found src patch) as (F & _). apply H5 in F. by rewrite Hne, lookup_empty in F.
Qed.

(** *** As the status code reads it back *)

(** What the API server guarantees of a source object, as far as it matters
    here; the last condition excludes a label that the controller overwrites
    with the kind. *)
Record federable (src : Unstructured) : Prop := {
  fed_metadata : exists m, uns_Object src !! "metadata"%string = Some (VMap m);
  fed_exact : json_exact src;
  fed_template_exact : json_exact (template_of src);
  fed_label_keys : plain_keys (uns_GetLabels src);
  fed_annotation_keys : plain_keys (uns_GetAnnotations src);
  fed_no_clash : forall v, uns_GetLabels src !! uns_GetAPIVersion src = Some v -> v = uns_GetKind src
}.

Lemma federable_metadata_ok src : federable src -> metadata_ok src = true.
Proof. intros [[m Hm] _ _ _ _ _]. unfold metadata_ok. by rewrite Hm. Qed.

Lemma annotations_of_lookup src k : annotations_of src !! k = if federatedKey k then uns_GetAnnotations src !! k else None.
Proof. apply (classifyStringMap_spec (uns_GetAnnotations src) classifyAnnotation k). Qed.

Lemma labels_of_lookup src k v : uns_GetLabels src !! k = Some v -> is_Some (labels_of src !! k) ->
  (forall w, uns_GetLabels src !! uns_GetAPIVersion src = Some w -> w = uns_GetKind src) ->
  labels_of src !! k = Some v.
Proof.
  unfold labels_of. intros Hv Hk Hclash. destruct (decide (k = uns_GetAPIVersion src)) as [->|Hne].
  - rewrite lookup_insert_eq. f_equal. symmetry. auto.
  - rewrite lookup_insert_ne in * by done. unfold classifyLabels in *.
    destruct (classifyStringMap_spec (uns_GetLabels src) classifyLabel k) as [E _]. rewrite E in *.
    destruct (classifyLabel k).1; [done|]. by destruct Hk.
Qed.

Lemma pruned_source src patch : federable src -> CreateMergePatch src (template_of src) = inl patch ->
  pruneSourceObj src patch = inl (uns_Object (template_of src)).
Proof.
  intros [[m Hm] Hs Ht _ _ _] Hp.
  destruct Hs as [(s' & Hs' & _ & Hsu') (s & Hsj & Hsu)]. destruct Ht as [_ (t & Htj & Htu)].
  unfold CreateMergePatch in Hp. rewrite Hsj, Htj in Hp.
  destruct (jsonpatch_CreateMergePatch s t) as [q|] eqn:Eq; [|done]. injection Hp as ->.
  destruct (MergePatch_law _ _ _ _ _ _ Hsu Htu Hsu' (template_patchable src m _ _ Hm) Eq) as (r & Hr & Hru).
  unfold pruneSourceObj. by rewrite Hs', Hr.
Qed.

Lemma in_sync_up_to_date src o : federable src -> in_sync src o -> IsFederatedTemplateUpToDate src o = inl true.
Proof.
  intros Hfed [H1 H2 H3 H4 (patch & Hp & H5)]. pose proof (pruned_source src patch Hfed Hp) as Hpruned.
  destruct Hfed as [_ _ _ Hl Ha Hclash]. destruct (observed_found src patch) as (F1 & F2 & F3).
  apply H5 in F1, F2, F3. unfold IsFederatedTemplateUpToDate, GetTemplateAsUnstructured.
  rewrite H4, F1, F2, F3. cbn [default from_option id].
  rewrite (proj2 (Nat.eqb_neq _ _)).
  2: { intros E. apply map_size_empty_inv in E. by rewrite E, lookup_empty in F1. }
  rewrite areStringMapsSynced_generate; [|done|].
  2: { intros k v Hv Hk. rewrite annotations_of_lookup in Hk. destruct (federatedKey k) eqn:Ek; [|by destruct Hk].
       by rewrite H3, annotations_of_lookup, Ek. }
  rewrite areStringMapsSynced_generate; [|done|].
  2: { intros k v Hv Hk. rewrite H2. by apply labels_of_lookup. }
  simpl. rewrite Hpruned. by rewrite bool_decide_eq_true_2.
Qed.

(** The update panics only on an object without annotations, for a source
    object without federated ones. *)
Lemma update_panics ftc src o : updateFederatedObjectForSourceObject ftc src o = Panics ->
  fo_Annotations o = ∅ /\ annotations_of src = ∅.
Proof.
  rewrite update_eq. cbv zeta. intros H.
  destruct (updateTemplate _ _) as [[o2 tb]|] eqn:Et; [|done].
  assert (fo_Annotations o2 = fo_Annotations o) as Ho2.
  { unfold updateTemplate in Et. by split_match_in Et. }
  destruct (CreateMergePatch _ _) as [patch|]; [|done].
  destruct (updateAnnotations _ _ _) as [[o3 ab]| |] eqn:Ea.
  - simpl in H. destruct (_ || _ || _ || _); [|done]. by destruct (SetPendingControllers _ _) as [[]|].
  - unfold updateAnnotations in Ea. change (fun key => (classifyAnnotation key).1) with federatedKey in Ea.
    destruct (CopySubmap_spec (annotations_of src) federatedKey (GetAnnotations o2)) as (H1 & _ & H3 & _).
    destruct (CopySubmap _ _ _) as [[a|] n]; simpl in *.
    { destruct (recordObserved_Some (observed_of src patch) a n) as (n' & Hr & _). rewrite Hr in Ea. simpl in Ea.
      by destruct (0 <? n'). }
    rewrite default_GetAnnotations, Ho2 in H1. split; apply map_eq; intros k; specialize (H1 k);
      rewrite lookup_empty in *.
    + unfold GetAnnotations in H3. rewrite Ho2 in H3. case_bool_decide as He; [by rewrite He|].
      destruct H3 as [? ?]; [by eexists|done].
    + rewrite annotations_of_lookup in *. by destruct (federatedKey k).
  - unfold updateAnnotations in Ea. destruct (CopySubmap _ _ _) as [[a|] n].
    + destruct (recordObserved_Some (observed_of src patch) a n) as (n' & Hr & _). rewrite Hr in Ea. simpl in Ea.
      by destruct (0 <? n').
    + by rewrite recordObserved_None in Ea by apply observed_nonempty.
Qed.

(** And there it does panic, once the template and the patch are computed. *)
Lemma update_nil_annotations ftc src o o2 b patch : fo_Annotations o = ∅ -> annotations_of src = ∅ ->
  updateTemplate (set_labels src (set_owner src o)) (template_of src) = inl (o2, b) ->
  CreateMergePatch src (template_of src) = inl patch ->
  updateFederatedObjectForSourceObject ftc src o = Panics.
Proof.
  intros Ho Hsrc Ht Hp. rewrite update_eq. cbv zeta. rewrite Ht, Hp, Hsrc.
  assert (fo_Annotations o2 = ∅) as Ho2.
  { rewrite <- Ho. clear -Ht. unfold updateTemplate in Ht. split_match_in Ht; done. }
  unfold updateAnnotations, GetAnnotations. rewrite Ho2, (bool_decide_eq_true_2 ((∅ : gmap string string) = ∅)) by done.
  rewrite CopySubmap_same by done. by rewrite recordObserved_None by apply observed_nonempty.
Qed.
End Sync.

(** ** A concrete template *)

Section Witnesses.
#[local] Existing Instance small_kubernetes.
#[local] Instance no_table : Codecs := table_codecs [].
#[local] Instance no_table_libraries : FederateLibraries := table_libraries [].

Lemma TemplateForSourceObject_spec_witness :
  let template := TemplateForSourceObject source_cfg {["note"%string := "kept"%string]} {["app"%string := "web"%string]} in
  uns_GetResourceVersion template = ""%string /\ uns_Object template !! StatusField = None /\
  NestedFieldNoCopy (uns_Object template) ["data"; "colour"]%string = inl (Some (VString "red")).
Proof.
  destruct (TemplateForSourceObject_spec source_cfg {["note"%string := "kept"%string]} {["app"%string := "web"%string]})
    as (Hmeta & Hstatus & _ & Hframe); [reflexivity|].
  split_and!.
  - unfold uns_GetResourceVersion. by rewrite Hmeta.
  - exact Hstatus.
  - rewrite Hframe; [reflexivity| |].
    + split; intros [k E]; discriminate E.
    + repeat constructor; intros [k E]; discriminate E.
Defined.
End Witnesses.
