(* ===== verification/FederateReconcileTheorems.v ===== *)
(** * Properties of a reconciliation of the federate controller

    Which requests it sends and in which order, and that a federated object
    that it leaves behind reflects the source object, for the status code and
    for the next reconciliation. *)

From Stdlib Require Import ZArith Lia String Ascii.
From S2P Require Import Prelude GoStrings K8s Types ApiTypes Unstructured Codecs FedObject FedObjectTheorems.
From S2P Require Import MemberObjects Naming Sync OverridePolicy Federate FederateLibrary FederateTheorems.

(** ** Requests *)

Inductive FederateRequest :=
  | UpdateSource (u : Unstructured)
  | CreateFederated (o : FederatedObject)
  | UpdateFederated (o : FederatedObject)
  | DeleteFederated (namespace name : string).

(** A server that also records the requests it receives. *)
Definition logged {W} (S : FederateServer W) : FederateServer (W * list FederateRequest) := {|
  src_Update := fun '(w, log) gvr u => let '(w, res) := src_Update w gvr u in ((w, log ++ [UpdateSource u]), res);
  fdo_Create := fun '(w, log) o => let '(w, res) := fdo_Create w o in ((w, log ++ [CreateFederated o]), res);
  fdo_Update := fun '(w, log) o => let '(w, res) := fdo_Update w o in ((w, log ++ [UpdateFederated o]), res);
  fdo_Delete := fun '(w, log) namespace name =>
    let '(w, res) := fdo_Delete w namespace name in ((w, log ++ [DeleteFederated namespace name]), res)
|}.

Lemma AddFinalizers_spec `{GoRuntime} fs f fs' b : AddFinalizers fs {[f]} = (fs', b) ->
  f ∈ fs' /\ (b = false -> fs' = fs).
Proof.
  unfold AddFinalizers. case_bool_decide as Hin; intros [= <- <-].
  - split; [|done]. apply singleton_subseteq_l, elem_of_list_to_set in Hin. done.
  - split; [|done]. unfold set_List. rewrite elem_of_sort_slice, elem_of_elements. set_solver.
Qed.

Lemma AddFinalizers_present `{GoRuntime} fs f : f ∈ fs -> AddFinalizers fs {[f]} = (fs, false).
Proof.
  intros Hf. unfold AddFinalizers. rewrite bool_decide_eq_true_2; [done|].
  apply singleton_subseteq_l. by apply elem_of_list_to_set.
Qed.

Section Requests.
Context `{K : Kubernetes} `{R : GoRuntime} `{C : !Codecs} `{L : !FederateLibraries}.

(** The source object once the finalizer is on it, the result [u] of a request
    or the object [src] of the cache, and the requests for it. *)
Definition held (src : Unstructured) (claim : list FederateRequest) : Prop :=
  FinalizerFederateController ∈ uns_GetFinalizers src /\ claim = [] \/
  exists fs, FinalizerFederateController ∈ fs /\ claim = [UpdateSource (uns_SetFinalizers fs src)].

(** What one reconciliation may send for the source object [src] of the cache,
    when [cached] is the federated object of its name. *)
Inductive protocol (key : workerKey) (src : Unstructured) (cached : FederatedObject + ApiError)
    : list FederateRequest -> Prop :=
  | protocol_idle : protocol key src cached []
  | protocol_delete o : uns_GetDeletionTimestamp src <> None -> cached = inl o ->
      ownedByAnother key src o = false -> fo_DeletionTimestamp o = None ->
      protocol key src cached [DeleteFederated (fo_Namespace o) (fo_Name o)]
  | protocol_release fs : uns_GetDeletionTimestamp src <> None -> cached = inr NotFound ->
      FinalizerFederateController ∉ fs ->
      protocol key src cached [UpdateSource (uns_SetFinalizers fs src)]
  | protocol_claim claim : uns_GetDeletionTimestamp src = None -> held src claim ->
      (forall o, cached = inl o -> ownedByAnother key src o = false) -> protocol key src cached claim
  | protocol_create claim o : uns_GetDeletionTimestamp src = None -> held src claim ->
      cached = inr NotFound -> protocol key src cached (claim ++ [CreateFederated o])
  | protocol_update claim o o' : uns_GetDeletionTimestamp src = None -> held src claim ->
      cached = inl o -> ownedByAnother key src o = false ->
      fo_Namespace o' = fo_Namespace o -> fo_Name o' = fo_Name o ->
      protocol key src cached (claim ++ [UpdateFederated o']).

Lemma update_names ftc src o o' b : updateFederatedObjectForSourceObject ftc src o = Returns (inl (o', b)) ->
  fo_Namespace o' = fo_Namespace o /\ fo_Name o' = fo_Name o.
Proof.
  rewrite update_eq. cbv zeta. intros H.
  destruct (updateTemplate _ _) as [[o2 tb]|] eqn:Et; [|done].
  assert (fo_Namespace o2 = fo_Namespace o /\ fo_Name o2 = fo_Name o) as Ho2 by (unfold updateTemplate in Et; split_match_in Et; done).
  destruct (CreateMergePatch _ _) as [patch|]; [|done].
  apply may_panic_bind_Returns in H as ([o3 ab] & Ha & H).
  apply updateAnnotations_spec in Ha as (? & -> & _ & _); [|by apply observed_nonempty].
  destruct (_ || _ || _ || _); [|by injection H as <- <-].
  destruct (SetPendingControllers _ _) as [[o4 pb]|] eqn:Epc; [|done]. injection H as <- <-.
  by apply SetPendingControllers_spec in Epc as (_ & [a ->] & _).
Qed.

Context {W : Type} (S : FederateServer W) (c : FederateController).

Definition found_for (ftc : FederatedTypeConfig) (src : Unstructured) : FederatedObject + ApiError :=
  fdc_GetFromLister c (uns_GetNamespace src) (GenerateFederatedObjectName (uns_GetName src) (ftc_Name ftc)).

Lemma ensureFinalizer_logged w log gvr src w' log' r :
  ensureFinalizer (S := logged S) (w, log) gvr src = ((w', log'), r) ->
  exists claim, held src claim /\ log' = log ++ claim.
Proof using Type.
  unfold ensureFinalizer. destruct (AddFinalizers _ _) as [fs b] eqn:E.
  apply AddFinalizers_spec in E as [Hf Hsame]. destruct b; simpl.
  - destruct (src_Update w gvr _) as [w1 r1]. intros [= <- <- _]. eexists. split; [right; by eexists|done].
  - intros [= <- <- _]. rewrite (Hsame eq_refl) in Hf. exists []. split; [by left|by rewrite app_nil_r].
Qed.

Lemma removeFinalizer_logged w log gvr src w' log' r :
  removeFinalizer (S := logged S) (w, log) gvr src = ((w', log'), r) ->
  log' = log \/ exists fs, FinalizerFederateController ∉ fs /\ log' = log ++ [UpdateSource (uns_SetFinalizers fs src)].
Proof using Type.
  unfold removeFinalizer, RemoveFinalizers. destruct (Nat.eqb _ 0); simpl.
  - intros [= <- <- _]. by left.
  - destruct (src_Update w gvr _) as [w1 r1]. intros [= <- <- _]. right. eexists. split; [|done].
    unfold set_List. rewrite elem_of_sort_slice, elem_of_elements. set_solver.
Qed.

Lemma create_logged w log ftc src w' log' e :
  handleCreateFederatedObject (S := logged S) (w, log) ftc src = ((w', log'), e) ->
  log' = log /\ e <> None \/
  exists o, log' = log ++ [CreateFederated o] /\ (json_exact (template_of src) -> in_sync src o) /\
    fo_Namespace o = uns_GetNamespace src /\
    fo_Name o = GenerateFederatedObjectName (uns_GetName src) (ftc_Name ftc).
Proof using Type.
  unfold handleCreateFederatedObject.
  destruct (newFederatedObjectForSourceObject ftc src) as [o|] eqn:En; [|intros [= <- <- <-]; by left].
  destruct (SetPendingControllers o _) as [[o1 b]|] eqn:Ep; [|intros [= <- <- <-]; by left].
  simpl. destruct (fdo_Create w o1) as [w1 r]. intros [= <- <- _]. right. exists o1. split; [done|].
  assert (fo_Namespace o = uns_GetNamespace src /\
          fo_Name o = GenerateFederatedObjectName (uns_GetName src) (ftc_Name ftc)) as Hnames.
  { unfold newFederatedObjectForSourceObject in En. split_match_in En. done. }
  split.
  - intros Hexact. eapply pending_in_sync; [done|]. by apply (newFederatedObject_in_sync ftc).
  - by apply SetPendingControllers_spec in Ep as (_ & [a ->] & _).
Qed.

Lemma existing_logged w log ftc src o w' log' r :
  handleExistingFederatedObject (S := logged S) (w, log) ftc src o = Returns ((w', log'), r) ->
  log' = log /\ ((exists e, r = inr e) \/ (json_exact (template_of src) -> in_sync src o)) \/
  exists o', log' = log ++ [UpdateFederated o'] /\ (json_exact (template_of src) -> in_sync src o') /\
    fo_Namespace o' = fo_Namespace o /\ fo_Name o' = fo_Name o.
Proof using Type.
  unfold handleExistingFederatedObject. intros H. apply may_panic_bind_Returns in H as ([[o1 b]|e] & Hup & H).
  - destruct b; simpl in H.
    + destruct (fdo_Update w o1) as [w1 r1]. injection H as <- <- _. right. exists o1. split_and!; [done| | |].
      * intros Hexact. by apply (update_in_sync _ _ _ _ _ Hup).
      * apply (update_names _ _ _ _ _ Hup).
      * apply (update_names _ _ _ _ _ Hup).
    + injection H as <- <- _. left. split; [done|]. right. intros Hexact.
      destruct (update_in_sync _ _ _ _ _ Hup Hexact) as (Hsync & _ & _ & Hsame). by rewrite <- (Hsame eq_refl).
  - injection H as <- <- <-. left. split; [done|]. left. by eexists.
Qed.

Lemma terminating_logged w log gvr src cached w' log' e key :
  (forall o, cached = Some o -> ownedByAnother key src o = false) ->
  uns_GetDeletionTimestamp src <> None ->
  handleTerminatingSourceObject (S := logged S) (w, log) gvr src cached = ((w', log'), e) ->
  exists sent, log' = log ++ sent /\
    protocol key src (match cached with Some o => inl o | None => inr NotFound end) sent.
Proof using Type.
  intros Hown Hdel. unfold handleTerminatingSourceObject. destruct cached as [o|].
  - destruct (fo_DeletionTimestamp o) eqn:Ed.
    + intros [= <- <- _]. exists []. rewrite app_nil_r. split; [done|constructor].
    + simpl. destruct (fdo_Delete w _ _) as [w1 r]. intros [= <- <- _]. eexists. split; [done|].
      eapply protocol_delete; eauto.
  - destruct (removeFinalizer _ _ _) as [[w1 log1] r] eqn:Er. intros [= <- <- _].
    apply removeFinalizer_logged in Er as [->|(fs & Hfs & ->)]; eexists.
    + split; [by rewrite app_nil_r|constructor].
    + split; [done|]. by apply protocol_release.
Qed.

(** A live source object: the requests, and what a successful end means. *)
Lemma federate_logged w ftc src cached w' log' res key :
  (forall o, cached = Some o -> ownedByAnother key src o = false) ->
  uns_GetDeletionTimestamp src = None ->
  federate (S := logged S) (w, []) ftc src cached = Returns ((w', log'), res) ->
  protocol key src (match cached with Some o => inl o | None => inr NotFound end) log'.
Proof using Type.
  intros Hown Hdel. unfold federate. destruct (0 <? _)%nat; [intros [= _ <- _]; constructor|].
  destruct (ensureFinalizer _ _ _) as [[w1 log1] [src1|e]] eqn:Ef;
    apply ensureFinalizer_logged in Ef as (claim & Hheld & ->); cbn [app].
  2: { intros [= _ <- _]. apply protocol_claim; [done..|]. intros o Ho. apply Hown. by destruct cached; simplify_eq. }
  destruct cached as [o|].
  - intros H. apply may_panic_bind_Returns in H as ([[w2 log2] r] & He & H).
    assert (log2 = log') as -> by (destruct r; congruence).
    apply existing_logged in He as [[-> _]|(o' & -> & _ & Hns & Hname)].
    + apply protocol_claim; [done..|]. intros o1 [= <-]. by apply Hown.
    + eapply protocol_update; eauto.
  - destruct (handleCreateFederatedObject _ _ _) as [[w2 log2] r] eqn:Ec. intros H.
    assert (log2 = log') as -> by (destruct r; congruence).
    apply create_logged in Ec as [[-> _]|(o & -> & _)].
    + by apply protocol_claim.
    + by apply protocol_create.
Qed.

(** C21. A reconciliation sends at most two requests, in the order of the
    protocol: the finalizer is on the source object before its federated object
    is created or updated, a federated object that another source object owns is
    not touched, a federated object is deleted only for a source object that is
    terminating, and the finalizer is taken off only then and only when the
    federated object is gone. *)
Theorem reconcile_requests w key w' log res :
  reconcile (S := logged S) c (w, []) key = Returns ((w', log), res) ->
  log = [] \/
  exists ftc lister src, fdc_ResourceFTC c (wk_gvk key) = Some ftc /\
    fdc_ResourceLister c (wk_gvk key) = Some lister /\ rl_HasSynced lister = true /\
    rl_Get lister (QualifiedName_String (workerKey_QualifiedName key)) = inl src /\
    protocol key src (found_for ftc src) log.
Proof using Type.
  unfold reconcile.
  destruct (fdc_ResourceFTC c (wk_gvk key)) as [ftc|]; [|intros [= _ <- _]; by left].
  destruct (fdc_ResourceLister c (wk_gvk key)) as [lister|]; [|intros [= _ <- _]; by left].
  destruct (rl_HasSynced lister) eqn:Hsync; cbn [negb]; [|intros [= _ <- _]; by left].
  destruct (rl_Get lister _) as [src|err] eqn:Eget; [|intros [= _ <- _]; by left].
  fold (found_for ftc src). intros Hrun.
  destruct (found_for ftc src) as [o|err] eqn:Ef.
  - destruct (ownedByAnother key src o) eqn:Eo; [injection Hrun as _ <- _; by left|].
    right. exists ftc, lister, src. split_and!; [done..|]. rewrite Ef.
    assert (forall o', Some o = Some o' -> ownedByAnother key src o' = false) as Hown by (intros o' [= <-]; done).
    destruct (uns_GetDeletionTimestamp src) eqn:Ed.
    + destruct (handleTerminatingSourceObject _ _ _ _) as [[w1 log1] e] eqn:Et.
      apply (terminating_logged _ _ _ _ _ _ _ _ _ Hown) in Et as (sent & -> & Hp); [|by rewrite Ed].
      by injection Hrun as _ <- _.
    + by apply (federate_logged _ _ _ _ _ _ _ _ Hown Ed) in Hrun.
  - destruct err; simpl in Hrun; try (injection Hrun as _ <- _; by left).
    right. exists ftc, lister, src. split_and!; [done..|]. rewrite Ef.
    assert (forall o', None = Some o' -> ownedByAnother key src o' = false) as Hown by done.
    destruct (uns_GetDeletionTimestamp src) eqn:Ed.
    + destruct (removeFinalizer _ _ _) as [[w1 log1] e] eqn:Et.
      assert (handleTerminatingSourceObject (S := logged S) (w, []) (GetSourceTypeGVR ftc) src None =
              ((w1, log1), match e with inl _ => None | inr err => Some err end)) as Ht.
      { unfold handleTerminatingSourceObject. by rewrite Et. }
      apply (terminating_logged _ _ _ _ _ _ _ _ _ Hown) in Ht as (sent & -> & Hp); [|by rewrite Ed].
      by injection Hrun as _ <- _.
    + by apply (federate_logged _ _ _ _ _ _ _ _ Hown Ed) in Hrun.
Qed.

(** ** The outcome of a successful reconciliation *)

(** The API server stores an update under a new resource version, and what it
    returns is a valid object again. *)
Definition stores_updates : Prop := forall w gvr u w' u', src_Update w gvr u = (w', inl u') -> metadata_ok u = true ->
  (exists v, uns_Meta u' = with_resourceVersion v (uns_Meta u)) /\
  uns_GroupVersionKind u' = uns_GroupVersionKind u /\ federable u'.

(** [src'] is [src] with the finalizer, as the server has it. *)
Record claimed (src src' : Unstructured) : Prop := {
  cl_finalizer : FinalizerFederateController ∈ uns_GetFinalizers src';
  cl_federable : federable src';
  cl_kind : uns_GroupVersionKind src' = uns_GroupVersionKind src;
  cl_meta : exists fs v, uns_Meta src' = with_resourceVersion v (with_finalizers fs (uns_Meta src))
}.

Lemma ensureFinalizer_claimed w log gvr src w' log' src' : stores_updates -> federable src ->
  ensureFinalizer (S := logged S) (w, log) gvr src = ((w', log'), inl src') -> claimed src src'.
Proof using Type.
  intros Hserver Hsrc. unfold ensureFinalizer. destruct (AddFinalizers _ _) as [fs b] eqn:E.
  apply AddFinalizers_spec in E as [Hf Hsame]. destruct b; simpl.
  - destruct (src_Update w gvr _) as [w1 r1] eqn:Eu. intros [= _ _ ->].
    pose proof (federable_metadata_ok _ Hsrc) as Hok.
    pose proof (ms_ok _ _ _ (Meta_SetFinalizers fs) _ Hok) as Hok'.
    destruct (Hserver _ _ _ _ _ Eu Hok') as ([v Hv] & Hg & Hfed).
    rewrite (ms_meta _ _ _ (Meta_SetFinalizers fs) _ Hok) in Hv. split; [|done| |by eexists _, _].
    + unfold uns_GetFinalizers. by rewrite Hv.
    + rewrite Hg. apply GroupVersionKind_frame. intros k. apply (ms_other _ _ _ (Meta_SetFinalizers fs)).
  - intros [= _ _ <-]. rewrite (Hsame eq_refl) in Hf. split; [done..|].
    exists (uns_GetFinalizers src), (uns_GetResourceVersion src).
    unfold uns_GetFinalizers, uns_GetResourceVersion. by destruct (uns_Meta src).
Qed.

(** The server may change what the controller does not look at. *)
Definition same_content (o1 o2 : FederatedObject) : Prop :=
  fo_OwnerReferences o1 = fo_OwnerReferences o2 /\ fo_Labels o1 = fo_Labels o2 /\
  fo_Annotations o1 = fo_Annotations o2 /\ Template (fo_Spec o1) = Template (fo_Spec o2).

Lemma same_content_in_sync src o1 o2 : same_content o1 o2 -> in_sync src o2 -> in_sync src o1.
Proof using Type.
  intros (E1 & E2 & E3 & E4) [H1 H2 H3 H4 (p & Hp & H5)].
  split; [congruence|congruence|by rewrite E3|congruence|]. exists p. by rewrite E3.
Qed.

Lemma in_sync_owned key src o : in_sync src o -> uns_GroupVersionKind src = wk_gvk key ->
  string_has "/" (gvk_Group (wk_gvk key)) = false -> string_has "/" (gvk_Version (wk_gvk key)) = false ->
  ownedByAnother key src o = false.
Proof using Type.
  intros Hsync Hkey Hg Hv. unfold ownedByAnother. rewrite (is_owner _ _ Hsync). unfold desiredOwner.
  destruct (NewControllerRef_law src (uns_GroupVersionKind src)) as (Hname & Hctl & Hgvk).
  simpl. rewrite Hctl. simpl. rewrite Hkey in *. rewrite Hgvk, Hname, bool_decide_eq_true_2 by done.
  by rewrite String.eqb_refl.
Qed.
End Requests.

(** Caches that hold the source object and the federated object as they are. *)
Record caught_up `{K : Kubernetes} `{R : GoRuntime} `{C : !Codecs} (c : FederateController) (key : workerKey)
    (ftc : FederatedTypeConfig) (src : Unstructured) (o : FederatedObject) : Prop := {
  cu_ftc : fdc_ResourceFTC c (wk_gvk key) = Some ftc;
  cu_source : exists lister, fdc_ResourceLister c (wk_gvk key) = Some lister /\ rl_HasSynced lister = true /\
    rl_Get lister (QualifiedName_String (workerKey_QualifiedName key)) = inl src;
  cu_federated : found_for c ftc src = inl o
}.

Section Outcome.
Context `{K : Kubernetes} `{R : GoRuntime} `{C : !Codecs} `{L : !FederateLibraries} {W : Type} (S : FederateServer W).

(** A source object that is to be federated. *)
Record wanted (key : workerKey) (src : Unstructured) : Prop := {
  wt_alive : uns_GetDeletionTimestamp src = None;
  wt_opted_in : default ""%string (uns_GetAnnotations src !! NoFederatedResource) = ""%string;
  wt_kind : uns_GroupVersionKind src = wk_gvk key;
  wt_group : string_has "/" (gvk_Group (wk_gvk key)) = false;
  wt_version : string_has "/" (gvk_Version (wk_gvk key)) = false
}.

Lemma claimed_wanted key src src' : claimed src src' -> wanted key src -> wanted key src'.
Proof using Type.
  intros [_ _ Hkind (fs & v & Hm)] [H1 H2 H3 H4 H5].
  unfold uns_GetDeletionTimestamp, uns_GetAnnotations in *. split; unfold uns_GetDeletionTimestamp, uns_GetAnnotations;
    rewrite ?Hm; [done..|congruence|done|done].
Qed.

(** With caches that have caught up, nothing is left to do. *)
Lemma caught_up_idle c w key ftc src o : caught_up c key ftc src o -> in_sync src o -> wanted key src ->
  FinalizerFederateController ∈ uns_GetFinalizers src -> reconcile (S := S) c w key = Returns (w, StatusAllOK).
Proof using Type.
  intros [H1 (lister & H2 & H3 & H4) H5] Hsync [Ha Ho Hk Hg Hv] Hf.
  unfold reconcile. rewrite H1, H2, H3, H4. cbn [negb]. fold (found_for c ftc src). rewrite H5.
  rewrite in_sync_owned, Ha by done. unfold federate. rewrite Ho. simpl.
  unfold ensureFinalizer. rewrite AddFinalizers_present by done. simpl.
  unfold handleExistingFederatedObject. by rewrite in_sync_settled.
Qed.

(** C20. When a reconciliation of a source object that is to be federated
    succeeds, the federated object that it sent, or the one in the cache when it
    sent none, is up to date with the source object for the status code; and
    once the caches show both objects, reconciling again sends nothing. *)
Theorem reconcile_federates c w key w' log ftc lister src : stores_updates S ->
  fdc_ResourceFTC c (wk_gvk key) = Some ftc ->
  fdc_ResourceLister c (wk_gvk key) = Some lister -> rl_HasSynced lister = true ->
  rl_Get lister (QualifiedName_String (workerKey_QualifiedName key)) = inl src ->
  federable src -> wanted key src ->
  reconcile (S := logged S) c (w, []) key = Returns ((w', log), StatusAllOK) ->
  exists src' o, claimed src src' /\
    (CreateFederated o ∈ log \/ UpdateFederated o ∈ log \/ found_for c ftc src = inl o) /\
    IsFederatedTemplateUpToDate src' o = inl true /\
    forall c' w2 o', caught_up c' key ftc src' o' -> same_content o' o ->
      reconcile (S := S) c' w2 key = Returns (w2, StatusAllOK).
Proof using Type.
  intros Hserver Hftc Hlister Hsynced Hget Hfed Hwanted Hrun.
  assert (exists cached, (forall o, cached = Some o -> found_for c ftc src = inl o) /\
    federate (S := logged S) (w, []) ftc src cached = Returns ((w', log), StatusAllOK)) as (cached & Hcached & Hfe).
  { unfold reconcile in Hrun. rewrite Hftc, Hlister, Hsynced, Hget, (wt_alive _ _ Hwanted) in Hrun. cbn [negb] in Hrun.
    fold (found_for c ftc src) in Hrun. destruct (found_for c ftc src) as [o|err].
    - destruct (ownedByAnother key src o); [done|]. exists (Some o). split; [congruence|done].
    - destruct err; try done. by exists None. }
  clear Hrun. unfold federate in Hfe. rewrite (wt_opted_in _ _ Hwanted) in Hfe. cbn [String.length Nat.ltb Nat.leb] in Hfe.
  destruct (ensureFinalizer _ _ _) as [[w1 log1] [src'|e]] eqn:Ef.
  2: { cbn in Hfe. by destruct (IsConflict e). }
  pose proof (ensureFinalizer_claimed _ _ _ _ _ _ _ _ Hserver Hfed Ef) as Hclaimed.
  pose proof (claimed_wanted _ _ _ Hclaimed Hwanted) as Hwanted'.
  pose proof (fed_template_exact _ (cl_federable _ _ Hclaimed)) as Hexact.
  assert (exists o, in_sync src' o /\
    (CreateFederated o ∈ log \/ UpdateFederated o ∈ log \/ found_for c ftc src = inl o)) as (o & Hsync & Ho).
  { destruct cached as [o|].
    - apply may_panic_bind_Returns in Hfe as ([[w2 log2] r] & He & Hfe).
      destruct r as [b|e]; [|by destruct (IsConflict e)]. injection Hfe as -> ->.
      apply existing_logged in He as [[-> [[e He]|Hs]]|(o' & -> & Hs & _)]; [done| |].
      + exists o. split; [auto|]. right. right. auto.
      + exists o'. split; [auto|]. right. left. apply elem_of_app. right. by left.
    - destruct (handleCreateFederatedObject _ _ _) as [[w2 log2] r] eqn:Ec.
      destruct r as [e|]; [by destruct (IsInvalid e)|]. injection Hfe as -> ->.
      apply create_logged in Ec as [[_ He]|(o & -> & Hs & _)]; [done|].
      exists o. split; [auto|]. left. apply elem_of_app. right. by left. }
  exists src', o. split_and!; [done|done| |].
  - apply in_sync_up_to_date; [apply (cl_federable _ _ Hclaimed)|done].
  - intros c' w2 o' Hcu Hsame. eapply caught_up_idle; [done| |done|apply (cl_finalizer _ _ Hclaimed)].
    by eapply same_content_in_sync.
Qed.
End Outcome.

(** ** A concrete reconciliation *)

Section Witnesses.
#[local] Existing Instance small_kubernetes.
#[local] Existing Instance small_runtime.

Definition claimed_cfg : Unstructured :=
  set_metadata "finalizers" (VList [VString FinalizerFederateController]) source_cfg.

(** The template does not depend on the table. *)
Definition template_cfg : Unstructured :=
  template_of (C := table_codecs []) (L := table_libraries []) source_cfg.

Definition cfg_table : list Unstructured := [source_cfg; claimed_cfg; template_cfg].
#[local] Instance cfg_codecs : Codecs := table_codecs cfg_table.
#[local] Instance cfg_libraries : FederateLibraries := table_libraries cfg_table.

(** A server that accepts the claimed source object only. *)
Definition cfg_server : FederateServer unit := {|
  src_Update := fun w _ u => (w, if decide (u = claimed_cfg) then inl claimed_cfg else inr ErrInvalid);
  fdo_Create := fun w o => (w, inl o);
  fdo_Update := fun w o => (w, inl o);
  fdo_Delete := fun w _ _ => (w, None)
|}.

Definition cfg_key : workerKey := {|
  wk_name := "cfg"; wk_namespace := "default"; wk_gvk := uns_GroupVersionKind source_cfg |}.

Definition cfg_ftc : FederatedTypeConfig := {|
  ftc_Name := "configmaps"; ReplicasSpec := ""; ReplicasStatus := "status.replicas"; ReadyReplicasStatus := "status.readyReplicas";
  AutoMigrationEnabled := true; ftc_Annotations := ∅; StatusAggregationEnabled := false; StatusCollection := None; Controllers := [["scheduler"%string]];
  SourceType := {| ar_Group := ""; ar_Version := "v1"; ar_Kind := "ConfigMap"; ar_PluralName := "configmaps";
                   ar_Scope := "Namespaced" |} |}.

Definition cfg_controller (src : Unstructured) (found : FederatedObject + ApiError) : FederateController := {|
  fdc_ResourceFTC := fun _ => Some cfg_ftc;
  fdc_ResourceLister := fun _ => Some {| rl_HasSynced := true; rl_Get := fun _ => inl src; rl_List := inl [src] |};
  fdc_FederatedObject := fun _ _ => found;
  fdc_ClusterFederatedObject := fun _ => inr NotFound;
  fdc_cacheSyncRateLimiter_When := fun _ => 100000000;
  fdc_fedSystemNamespace := "kube-admiral-system"
|}.

Definition first_run : may_panic ((unit * list FederateRequest) * WorkerResult) :=
  reconcile (S := logged cfg_server) (cfg_controller source_cfg (inr NotFound)) (tt, []) cfg_key.
Definition first_log : list FederateRequest := match first_run with Returns ((_, log), _) => log | _ => [] end.

Lemma first_run_ok : first_run = Returns ((tt, first_log), StatusAllOK) /\ List.length first_log = 2%nat.
Proof. split; vm_compute; reflexivity. Qed.

Lemma reconcile_requests_witness : first_log = [] \/
  exists ftc lister src, fdc_ResourceFTC (cfg_controller source_cfg (inr NotFound)) (wk_gvk cfg_key) = Some ftc /\
    fdc_ResourceLister (cfg_controller source_cfg (inr NotFound)) (wk_gvk cfg_key) = Some lister /\
    rl_HasSynced lister = true /\
    rl_Get lister (QualifiedName_String (workerKey_QualifiedName cfg_key)) = inl src /\
    protocol cfg_key src (found_for (cfg_controller source_cfg (inr NotFound)) ftc src) first_log.
Proof.
  apply (reconcile_requests cfg_server (cfg_controller source_cfg (inr NotFound)) tt cfg_key tt first_log StatusAllOK).
  apply first_run_ok.
Defined.

Lemma json_exact_table u : u ∈ cfg_table -> json_exact u.
Proof.
  intros Hu. assert (exists s, table_marshal cfg_table u = inl s) as [s Hs].
  { unfold table_marshal. destruct (list_find _ cfg_table) as [[i x]|] eqn:E; [by eexists|].
    apply list_find_None in E. rewrite Forall_forall in E. by destruct (E u Hu). }
  pose proof (table_roundtrip cfg_table u s Hs) as Hback.
  split; exists s; simpl; unfold table_object; by rewrite Hback.
Qed.

Lemma plain_keys_eval (m : gmap string string) :
  forallb (fun k => negb (String.eqb k "") && negb (string_has "," k) && negb (string_has "|" k)) (map_to_list m).*1 = true ->
  plain_keys m.
Proof.
  intros H k [v Hv]. rewrite forallb_forall in H. specialize (H k).
  assert (In k (map_to_list m).*1) as Hin.
  { apply list_elem_of_In, list_elem_of_fmap. exists (k, v). by rewrite elem_of_map_to_list. }
  apply H in Hin. rewrite !andb_true_iff, !negb_true_iff in Hin. destruct Hin as [[Hk H1] H2].
  split; [by apply String.eqb_neq|done].
Qed.

Lemma cfg_template u : u ∈ [source_cfg; claimed_cfg] -> template_of u = template_cfg.
Proof.
  intros Hu. apply (bool_decide_eq_true_1 _). rewrite !elem_of_cons, elem_of_nil in Hu.
  destruct_or? Hu; subst u; vm_compute; reflexivity.
Qed.

Lemma cfg_federable u : u ∈ [source_cfg; claimed_cfg] -> federable u.
Proof.
  intros Hu. pose proof (cfg_template u Hu) as Ht. split.
  - exists (metadata_map u). apply (bool_decide_eq_true_1 _). rewrite !elem_of_cons, elem_of_nil in Hu.
    destruct_or? Hu; subst u; vm_compute; reflexivity.
  - apply json_exact_table. change cfg_table with ([source_cfg; claimed_cfg] ++ [template_cfg]).
    apply elem_of_app. left. exact Hu.
  - rewrite Ht. apply json_exact_table. change cfg_table with ([source_cfg; claimed_cfg] ++ [template_cfg]).
    apply elem_of_app. right. constructor.
  - apply plain_keys_eval. rewrite !elem_of_cons, elem_of_nil in Hu.
    destruct_or? Hu; subst u; vm_compute; reflexivity.
  - apply plain_keys_eval. rewrite !elem_of_cons, elem_of_nil in Hu.
    destruct_or? Hu; subst u; vm_compute; reflexivity.
  - intros v Hv. exfalso. revert Hv. rewrite !elem_of_cons, elem_of_nil in Hu.
    destruct_or? Hu; subst u; vm_compute; discriminate.
Qed.

Lemma cfg_stores_updates : stores_updates cfg_server.
Proof.
  intros w gvr u w' u' Hup _. cbn [src_Update cfg_server] in Hup. destruct (decide (u = claimed_cfg)) as [->|]; [|done].
  injection Hup as _ <-. split; [|split].
  - exists (uns_GetResourceVersion claimed_cfg). unfold uns_GetResourceVersion. by destruct (uns_Meta claimed_cfg).
  - reflexivity.
  - apply cfg_federable. do 2 constructor.
Qed.

Lemma cfg_wanted : wanted cfg_key source_cfg.
Proof. split; vm_compute; reflexivity. Qed.

Lemma reconcile_federates_witness : exists src' o, claimed source_cfg src' /\
  (CreateFederated o ∈ first_log \/ UpdateFederated o ∈ first_log \/
   found_for (cfg_controller source_cfg (inr NotFound)) cfg_ftc source_cfg = inl o) /\
  IsFederatedTemplateUpToDate src' o = inl true.
Proof.
  edestruct (reconcile_federates cfg_server (cfg_controller source_cfg (inr NotFound)) tt cfg_key tt first_log cfg_ftc)
    as (src' & o & H1 & H2 & H3 & _);
    [apply cfg_stores_updates|reflexivity|reflexivity|reflexivity|reflexivity|apply cfg_federable; constructor|apply cfg_wanted
    |apply first_run_ok|].
  by exists src', o.
Defined.
End Witnesses.
