(* ===== verification/AutoMigration.v ===== *)
(** * The auto migration controller ([pkg/controllers/automigration])

    For each cluster of a federated object it counts the pods that could not be
    scheduled for longer than a threshold, and tells the scheduler through an
    annotation how many replicas the cluster can hold.  The caches, the clients
    of the member clusters and the clock are fields of [AutoMigrationController];
    the result of a reconciliation is the worker result and the object sent to
    the API server, if any. *)

From Stdlib Require Import ZArith Lia String Ascii.
From S2P Require Import Prelude GoStrings K8s Types ApiTypes Unstructured Codecs FedObject PodUtil MemberObjects.
From S2P Require Import Webhook Naming Sync Federate.

(** ** Pods *)

Record PodCondition := {
  pc_Type : string;
  pc_Status : string;
  pc_Reason : string;
  pc_Message : string;
  pc_LastProbeTime : Time;
  pc_LastTransitionTime : Time
}.
#[export] Instance PodCondition_eq_dec : EqDecision PodCondition.
Proof. unfold EqDecision. change Time with Z. solve_decision. Defined.

Record ClusterPod := {
  pod_Namespace : string;
  pod_DeletionTimestamp : option Time;
  pod_OwnerReferences : list MetaOwnerReference;
  pod_Conditions : list PodCondition
}.

Definition PodScheduled : string := "PodScheduled".
Definition ConditionTrue : string := "True".
Definition ConditionFalse : string := "False".
Definition PodReasonUnschedulable : string := "Unschedulable".

(** [util.go]. *)
Definition getPodScheduledCondition (pod : ClusterPod) : option PodCondition * bool :=
  match List.find (fun condition => String.eqb (pc_Type condition) PodScheduled) (pod_Conditions pod) with
  | None => (None, false)
  | Some condition =>
      if negb (String.eqb (pc_Status condition) ConditionFalse) ||
         negb (String.eqb (pc_Reason condition) PodReasonUnschedulable)
      then (Some condition, false)
      else (Some condition, true)
  end.

(** [Time.Sub] saturates. *)
Definition Time_Sub (t u : Time) : Z := Z.max (- 2 ^ 63) (Z.min (2 ^ 63 - 1) ((t : Z) - u)).

(** The counts are numbers of pods in memory. *)
Definition countPod (currentTime : Time) (unschedulableThreshold : Z) (s : Z * Z * option Z) (pod : ClusterPod)
    : Z * Z * option Z :=
  let '(scheduledCount, unschedulableCount, nextCrossIn) := s in
  if bool_decide (is_Some (pod_DeletionTimestamp pod)) then s
  else
    match getPodScheduledCondition pod with
    | (Some scheduledCondition, true) =>
        let crossingThresholdIn :=
          Time_Sub (pc_LastTransitionTime scheduledCondition + unschedulableThreshold) currentTime in
        if crossingThresholdIn <=? 0 then (scheduledCount, unschedulableCount + 1, nextCrossIn)
        else
          match nextCrossIn with
          | Some next =>
              if crossingThresholdIn <? next then (scheduledCount, unschedulableCount, Some crossingThresholdIn) else s
          | None => (scheduledCount, unschedulableCount, Some crossingThresholdIn)
          end
    | (Some scheduledCondition, false) =>
        if String.eqb (pc_Status scheduledCondition) ConditionTrue
        then (scheduledCount + 1, unschedulableCount, nextCrossIn) else s
    | (None, _) => s
    end.

Definition countScheduledAndUnschedulablePods (podList : list ClusterPod) (currentTime : Time) (unschedulableThreshold : Z)
    : Z * Z * option Z :=
  foldl (countPod currentTime unschedulableThreshold) (0, 0, None) podList.

(** Of conditions that are absent the pointers are compared. *)
Definition podScheduledConditionChanged (oldPod newPod : ClusterPod) : bool :=
  match (getPodScheduledCondition newPod).1, (getPodScheduledCondition oldPod).1 with
  | None, None => false
  | Some condition, Some oldCondition =>
      let isEqual := String.eqb (pc_Status condition) (pc_Status oldCondition) &&
        String.eqb (pc_Reason condition) (pc_Reason oldCondition) &&
        String.eqb (pc_Message condition) (pc_Message oldCondition) &&
        (pc_LastProbeTime condition =? pc_LastProbeTime oldCondition) &&
        (pc_LastTransitionTime condition =? pc_LastTransitionTime oldCondition) in
      negb isEqual
  | _, _ => true
  end.

(** ** Deployments ([plugins], [pkg/lifted/kubernetes/pkg/controller/deployment/util]) *)

(** A pod template: its labels and the rest. *)
Record PodTemplate := { pt_Labels : gmap string string; pt_Rest : Value }.
#[export] Instance PodTemplate_eq_dec : EqDecision PodTemplate.
Proof. solve_decision. Defined.

Record ReplicaSet := {
  rs_Name : string;
  rs_UID : string;
  rs_CreationTimestamp : Time;
  rs_OwnerReferences : list MetaOwnerReference;
  rs_Template : PodTemplate
}.

Definition DefaultDeploymentUniqueLabelKey : string := "pod-template-hash".

Class AutoMigrationLibraries `{C : Codecs} := {
  uns_GetOwnerReferences : Unstructured -> list MetaOwnerReference;
  (** [metav1.LabelSelectorAsSelector], printed. *)
  LabelSelector : Type;
  LabelSelector_String : LabelSelector -> string + string;
  (** A deployment: namespace, UID, selector and template. *)
  FromUnstructured_Deployment : Object -> (string * string * LabelSelector * PodTemplate) + string;
  ParseDuration : string -> Z + string;
  (** What a failed [Unmarshal_AutoMigrationInfo] decoded before the error. *)
  Decoded_AutoMigrationInfo : string -> AutoMigrationInfo;
  Marshal_AutoMigrationInfo : AutoMigrationInfo -> string + string;
  AutoMigrationInfo_roundtrip : forall i s, Marshal_AutoMigrationInfo i = inl s ->
    Unmarshal_AutoMigrationInfo s = inl i
}.

(** The clients of a member cluster. *)
Definition DynamicClient : Type := GroupVersionResource -> string -> string -> Unstructured + ApiError.
Record KubeClient := {
  ListReplicaSetsIn : string -> string -> list ReplicaSet + ApiError;
  ListPodsIn : string -> string -> list ClusterPod + ApiError
}.

Definition ApiError_String (e : ApiError) : string :=
  match e with
  | NotFound => "not found" | Conflict => "conflict" | ErrAlreadyExists => "already exists"
  | ErrServerTimeout => "server timeout" | ErrInvalid => "invalid" | ErrForbidden => "forbidden"
  | ErrNoMatch => "no match" | OtherError msg => msg
  end%string.

Section Deployments.
Context `{K : Kubernetes} `{R : GoRuntime} `{C : !Codecs} `{A : !AutoMigrationLibraries}.

Record Deployment := {
  dep_Namespace : string;
  dep_UID : string;
  dep_Selector : LabelSelector;
  dep_Template : PodTemplate
}.

(** [metav1.IsControlledBy]. *)
Definition IsControlledBy (owners : list MetaOwnerReference) (uid : string) : bool :=
  match controllerOf owners with Some ref => String.eqb (mor_UID ref) uid | None => false end.

Definition ListReplicaSets (deployment : Deployment) (getRSList : string -> string -> list ReplicaSet + ApiError)
    : list ReplicaSet + string :=
  match LabelSelector_String (dep_Selector deployment) with
  | inr err => inr err
  | inl selector =>
      match getRSList (dep_Namespace deployment) selector with
      | inr err => inr (ApiError_String err)
      | inl all => inl (List.filter (fun rs => IsControlledBy (rs_OwnerReferences rs) (dep_UID deployment)) all)
      end
  end.

Definition ListPods (deployment : Deployment) (rsList : list ReplicaSet) (getPodList : string -> string -> list ClusterPod + ApiError)
    : list ClusterPod + string :=
  match LabelSelector_String (dep_Selector deployment) with
  | inr err => inr err
  | inl selector =>
      match getPodList (dep_Namespace deployment) selector with
      | inr err => inr (ApiError_String err)
      | inl all =>
          let rsMap : gset string := list_to_set (rs_UID <$> rsList) in
          inl (List.filter (fun pod => match controllerOf (pod_OwnerReferences pod) with
                                       | Some controllerRef => bool_decide (mor_UID controllerRef ∈ rsMap)
                                       | None => false
                                       end) all)
      end
  end.

Definition EqualIgnoreHash (template1 template2 : PodTemplate) : bool :=
  bool_decide (delete DefaultDeploymentUniqueLabelKey (pt_Labels template1) =
               delete DefaultDeploymentUniqueLabelKey (pt_Labels template2)) &&
  bool_decide (pt_Rest template1 = pt_Rest template2).

Definition ReplicaSetLess (x y : ReplicaSet) : bool :=
  if rs_CreationTimestamp x =? rs_CreationTimestamp y then String.ltb (rs_Name x) (rs_Name y)
  else rs_CreationTimestamp x <? rs_CreationTimestamp y.

Definition FindNewReplicaSet (deployment : Deployment) (rsList : list ReplicaSet) : option ReplicaSet :=
  List.find (fun rs => EqualIgnoreHash (rs_Template rs) (dep_Template deployment)) (sort_slice ReplicaSetLess rsList).

(** [deployments.go]. *)
Definition GetPodsForClusterObject (unsObj : Unstructured) (handle : KubeClient) : list ClusterPod + string :=
  match FromUnstructured_Deployment (uns_Object unsObj) with
  | inr err => inr err
  | inl (namespace, uid, selector, template) =>
      let deployment := {| dep_Namespace := namespace; dep_UID := uid; dep_Selector := selector;
                           dep_Template := template |} in
      match ListReplicaSets deployment (ListReplicaSetsIn handle) with
      | inr err => inr err
      | inl rsList =>
          match FindNewReplicaSet deployment rsList with
          | None => inl []
          | Some newRS => ListPods deployment [newRS] (ListPodsIn handle)
          end
      end
  end.

(** [plugins/util.go]: an owner of the kind; [None] when there is none. *)
Definition GetSpecifiedOwnerFromObj (client : DynamicClient) (namespace : string) (ownerReferences : list MetaOwnerReference)
    (resource : APIResource) : option Unstructured + ApiError :=
  let gv := GroupVersion_String {| gv_Group := ar_Group resource; gv_Version := ar_Version resource |} in
  match List.find (fun o => String.eqb (mor_APIVersion o) gv && String.eqb (mor_Kind o) (ar_Kind resource))
          ownerReferences with
  | None => inl None
  | Some owner =>
      match client {| gvr_Group := ar_Group resource; gvr_Version := ar_Version resource;
                      gvr_Resource := ar_PluralName resource |} namespace (mor_Name owner) with
      | inr err => if IsNotFound err then inl None else inr err
      | inl ownerObj => inl (Some ownerObj)
      end
  end.

Definition ReplicaSetResource : APIResource := {|
  ar_PluralName := "replicasets"; ar_Group := "apps"; ar_Version := "v1"; ar_Kind := "ReplicaSet"; ar_Scope := "" |}.
Definition DeploymentResource : APIResource := {|
  ar_PluralName := "deployments"; ar_Group := "apps"; ar_Version := "v1"; ar_Kind := DeploymentKind; ar_Scope := "" |}.

Definition GetTargetObjectFromPod (pod : ClusterPod) (client : DynamicClient) : option Unstructured + ApiError :=
  match GetSpecifiedOwnerFromObj client (pod_Namespace pod) (pod_OwnerReferences pod) ReplicaSetResource with
  | inr err => inr err
  | inl None => inl None
  | inl (Some rs) => GetSpecifiedOwnerFromObj client (uns_GetNamespace rs) (uns_GetOwnerReferences rs) DeploymentResource
  end.

(** The only native plugin, of deployments. *)
Definition NativePlugin : GroupVersionKind := {| gvk_Group := "apps"; gvk_Version := "v1"; gvk_Kind := DeploymentKind |}.
Definition ResolvePlugin (gvk : GroupVersionKind) : bool := bool_decide (gvk = NativePlugin).
End Deployments.

(** ** The controller ([controller.go]) *)

Record AutoMigrationController := {
  amc_FederatedObject : string -> string -> FederatedObject + ApiError;
  amc_ClusterFederatedObject : string -> FederatedObject + ApiError;
  amc_ResourceFTC : GroupVersionKind -> option FederatedTypeConfig;
  amc_ResourceLister : GroupVersionKind -> string -> option ResourceLister;
  amc_DynamicClient : string -> option DynamicClient;
  amc_KubeClient : string -> option KubeClient;
  (** The time at which the pods of a cluster are counted. *)
  amc_Now : string -> Time;
  amc_Update : FederatedObject -> option ApiError
}.

Section Controller.
Context `{K : Kubernetes} `{R : GoRuntime} `{C : !Codecs} `{A : !AutoMigrationLibraries}.
Variable c : AutoMigrationController.

Definition amc_GetFromLister (qualifiedName : QualifiedName) : FederatedObject + ApiError :=
  if String.eqb (qn_Namespace qualifiedName) "" then amc_ClusterFederatedObject c (qn_Name qualifiedName)
  else amc_FederatedObject c (qn_Namespace qualifiedName) (qn_Name qualifiedName).

Definition getFTCIfAutoMigrationIsEnabled (gvk : GroupVersionKind) : option FederatedTypeConfig :=
  match amc_ResourceFTC c gvk with
  | Some typeConfig => if AutoMigrationEnabled typeConfig then Some typeConfig else None
  | None => None
  end.

(** A field that is absent counts as 0. *)
Definition getTotalAndReadyReplicas (typeConfig : FederatedTypeConfig) (unsObj : Unstructured) : (Z * Z) + string :=
  match GetInt64FromPath unsObj (ReplicasStatus typeConfig) [] with
  | inr err => inr ("replicas: " ++ err)%string
  | inl totalReplicas =>
      match GetInt64FromPath unsObj (ReadyReplicasStatus typeConfig) [] with
      | inr err => inr ("ready replicas: " ++ err)%string
      | inl readyReplicas => inl (default 0 totalReplicas, default 0 readyReplicas)
      end
  end.

Definition getDesiredReplicas (typeConfig : FederatedTypeConfig) (unsObj : Unstructured) : Z + string :=
  match GetInt64FromPath unsObj (ReplicasSpec typeConfig) [] with
  | inr err => inr ("desired replicas: " ++ err)%string
  | inl None => inr ("no desired replicas at " ++ ReplicasSpec typeConfig)%string
  | inl (Some desiredReplicas) => inl desiredReplicas
  end.

(** An error with whether to back off. *)
Definition getPodsFromCluster (typeConfig : FederatedTypeConfig) (unsClusterObj : Unstructured) (clusterName : string)
    : list ClusterPod + bool :=
  if negb (ResolvePlugin (GetSourceTypeGVK typeConfig)) then inr false
  else
    match amc_DynamicClient c clusterName, amc_KubeClient c clusterName with
    | None, _ | _, None => inr true
    | Some _, Some kubeClient =>
        match GetPodsForClusterObject unsClusterObj kubeClient with
        | inr _ => inr true
        | inl pods => inl pods
        end
    end.

(** An object of a member cluster. *)
Record ClusterObject := { co_Object : Unstructured; co_ClusterName : string }.

Record Estimate := {
  es_estimatedCapacity : gmap string Z;
  es_scheduledReplicas : gmap string Z;
  es_needsBackoff : bool;
  es_retryAfter : option Z
}.

Definition earlier (retryAfter nextCrossIn : option Z) : option Z :=
  match nextCrossIn, retryAfter with
  | None, _ => retryAfter
  | Some next, None => Some next
  | Some next, Some retry => if next <? retry then Some next else Some retry
  end.

(** The replicas that a cluster can hold. *)
Definition clusterCapacity (pods desiredReplicas unschedulable : Z) : Z :=
  if desiredReplicas <=? pods then pods -! unschedulable else desiredReplicas -! unschedulable.

(** The body of the loop: the part that lists pods, ... *)
Definition estimateFromPods (typeConfig : FederatedTypeConfig) (unschedulableThreshold : Z) (s : Estimate)
    (clusterObj : ClusterObject) : Estimate :=
  let cluster := co_ClusterName clusterObj in
  match getDesiredReplicas typeConfig (co_Object clusterObj) with
  | inr _ => s
  | inl desiredReplicas =>
      match getPodsFromCluster typeConfig (co_Object clusterObj) cluster with
      | inr clusterNeedsBackoff => {|
          es_estimatedCapacity := es_estimatedCapacity s; es_scheduledReplicas := es_scheduledReplicas s;
          es_needsBackoff := es_needsBackoff s || clusterNeedsBackoff; es_retryAfter := es_retryAfter s |}
      | inl pods =>
          let '(scheduled, unschedulable, nextCrossIn) :=
            countScheduledAndUnschedulablePods pods (amc_Now c cluster) unschedulableThreshold in
          let clusterEstimatedCapacity := clusterCapacity (Z.of_nat (length pods)) desiredReplicas unschedulable in
          {| es_estimatedCapacity :=
               if desiredReplicas <=? clusterEstimatedCapacity then es_estimatedCapacity s
               else <[cluster := if clusterEstimatedCapacity <? 0 then 0 else clusterEstimatedCapacity]>
                      (es_estimatedCapacity s);
             es_scheduledReplicas := <[cluster := scheduled]> (es_scheduledReplicas s);
             es_needsBackoff := es_needsBackoff s;
             es_retryAfter := earlier (es_retryAfter s) nextCrossIn |}
      end
  end.

(** ... unless all replicas are ready. *)
Definition estimateCluster (typeConfig : FederatedTypeConfig) (unschedulableThreshold : Z) (s : Estimate)
    (clusterObj : ClusterObject) : Estimate :=
  match getTotalAndReadyReplicas typeConfig (co_Object clusterObj) with
  | inl (totalReplicas, readyReplicas) =>
      if totalReplicas =? readyReplicas then {|
        es_estimatedCapacity := es_estimatedCapacity s;
        es_scheduledReplicas := <[co_ClusterName clusterObj := totalReplicas]> (es_scheduledReplicas s);
        es_needsBackoff := es_needsBackoff s; es_retryAfter := es_retryAfter s |}
      else estimateFromPods typeConfig unschedulableThreshold s clusterObj
  | inr _ => estimateFromPods typeConfig unschedulableThreshold s clusterObj
  end.

Definition no_estimate : Estimate := {|
  es_estimatedCapacity := ∅; es_scheduledReplicas := ∅; es_needsBackoff := false; es_retryAfter := None |}.

Definition estimateCapacity (typeConfig : FederatedTypeConfig) (clusterObjs : list ClusterObject)
    (unschedulableThreshold : Z) : AutoMigrationInfo * option WorkerResult :=
  let s := foldl (estimateCluster typeConfig unschedulableThreshold) no_estimate clusterObjs in
  ({| EstimatedCapacity := es_estimatedCapacity s; ScheduledReplicas := es_scheduledReplicas s |},
   if es_needsBackoff s || bool_decide (is_Some (es_retryAfter s)) then
     Some {| wr_Success := true; RequeueAfter := es_retryAfter s; Backoff := es_needsBackoff s |}
   else None).

(** The objects of the clusters of the placements; the type config and the
    threshold when auto migration is enabled. *)
Definition targetObject (gvk : GroupVersionKind) (namespace name cluster : string)
    : option ClusterObject + string :=
  match amc_ResourceLister c gvk cluster with
  | None => inr "informer of resource does not exist"%string
  | Some lister =>
      if negb (rl_HasSynced lister) then inr "informer of resource is not synced"%string
      else
        match rl_Get lister (namespace ++ "/" ++ name)%string with
        | inr err => if IsNotFound err then inl None else inr "failed to get object from informer stores"%string
        | inl object => inl (Some {| co_Object := object; co_ClusterName := cluster |})
        end
  end.

Definition appendTarget (gvk : GroupVersionKind) (namespace name : string) (clusterObjs : list ClusterObject)
    (cluster : ClusterReference) : list ClusterObject + string :=
  bind_error (targetObject gvk namespace name (cref_Cluster cluster)) (fun target =>
  inl (clusterObjs ++ option_list target)).

Definition getTargetObjectsIfAutoMigrationEnabled (fedObject : FederatedObject)
    : (list ClusterObject * option (FederatedTypeConfig * option Z)) + string :=
  let parsed : option Z + string :=
    match fo_Annotations fedObject !! PodUnschedulableThresholdAnnotation with
    | None => inl None
    | Some value => match ParseDuration value with inl duration => inl (Some duration) | inr err => inr err end
    end in
  bind_error parsed (fun unschedulableThreshold =>
  bind_error (GetTemplateMetadata (fo_Spec fedObject)) (fun objectMeta =>
  match getFTCIfAutoMigrationIsEnabled (tm_GVK objectMeta) with
  | None => inl ([], None)
  | Some ftc =>
      bind_error (foldl_error (appendTarget (tm_GVK objectMeta) (tm_Namespace objectMeta) (tm_Name objectMeta)) []
        (mjoin (Placement <$> Placements (fo_Spec fedObject)))) (fun clusterObjs =>
      inl (clusterObjs, Some (ftc, unschedulableThreshold)))
  end)).

Definition no_AutoMigrationInfo : AutoMigrationInfo := {| EstimatedCapacity := ∅; ScheduledReplicas := ∅ |}.

Definition existingAutoMigrationInfo (fedObject : FederatedObject) : AutoMigrationInfo :=
  match fo_Annotations fedObject !! AutoMigrationInfoAnnotation with
  | None => no_AutoMigrationInfo
  | Some bytes =>
      match Unmarshal_AutoMigrationInfo bytes with
      | inl info => info
      | inr _ => Decoded_AutoMigrationInfo bytes
      end
  end.

(** The end of [reconcile]: the request, and the result when it succeeds. *)
Definition updateInfo (fedObject : FederatedObject) (annotations : gmap string string) (result : WorkerResult)
    : WorkerResult * option FederatedObject :=
  let fedObject := SetAnnotations fedObject annotations in
  match amc_Update c fedObject with
  | Some err => (if IsConflict err then StatusConflict else StatusError, Some fedObject)
  | None => (result, Some fedObject)
  end.

Definition reconcile (qualifiedName : QualifiedName) : WorkerResult * option FederatedObject :=
  match amc_GetFromLister qualifiedName with
  | inr err => (if IsNotFound err then StatusAllOK else StatusError, None)
  | inl fedObject =>
      if bool_decide (is_Some (fo_DeletionTimestamp fedObject)) then (StatusAllOK, None)
      else
        match getTargetObjectsIfAutoMigrationEnabled fedObject with
        | inr _ => (StatusError, None)
        | inl (clusterObjs, Some (ftc, Some unschedulableThreshold)) =>
            let '(autoMigrationInfo, result) := estimateCapacity ftc clusterObjs unschedulableThreshold in
            let result := default StatusAllOK result in
            if bool_decide (existingAutoMigrationInfo fedObject = autoMigrationInfo) then (result, None)
            else
              match Marshal_AutoMigrationInfo autoMigrationInfo with
              | inr _ => (StatusAllOK, None)
              | inl bytes =>
                  updateInfo fedObject (<[AutoMigrationInfoAnnotation := bytes]> (fo_Annotations fedObject)) result
              end
        | inl _ =>
            if bool_decide (is_Some (fo_Annotations fedObject !! AutoMigrationInfoAnnotation)) then
              updateInfo fedObject (delete AutoMigrationInfoAnnotation (fo_Annotations fedObject)) StatusAllOK
            else (StatusAllOK, None)
        end
  end.

(** ** Events *)

Definition fedObjectNameFor (ftc : FederatedTypeConfig) (obj : Unstructured) : QualifiedName := {|
  qn_Namespace := uns_GetNamespace obj; qn_Name := GenerateFederatedObjectName (uns_GetName obj) (ftc_Name ftc) |}.

Definition onFederatedObjectUpdate (oldObj newObj : FederatedObject) : option QualifiedName :=
  let threshold o := default ""%string (fo_Annotations o !! PodUnschedulableThresholdAnnotation) in
  if String.eqb (threshold oldObj) (threshold newObj) then None
  else Some {| qn_Namespace := fo_Namespace newObj; qn_Name := fo_Name newObj |}.

Definition onTargetObject (targetObj : Unstructured) : option QualifiedName :=
  if negb (Time_IsZero (uns_GetDeletionTimestamp targetObj)) then None
  else
    match getFTCIfAutoMigrationIsEnabled (uns_GroupVersionKind targetObj) with
    | None => None
    | Some ftc => Some (fedObjectNameFor ftc targetObj)
    end.

Definition getPossibleSourceObjectsFromCluster (pod : ClusterPod) (clusterName : string) : option (list QualifiedName) :=
  match amc_DynamicClient c clusterName, amc_KubeClient c clusterName with
  | None, _ | _, None => None
  | Some dynamicClient, Some _ =>
      match getFTCIfAutoMigrationIsEnabled NativePlugin with
      | None => Some []
      | Some ftc =>
          match GetTargetObjectFromPod pod dynamicClient with
          | inr _ | inl None => Some []
          | inl (Some object) =>
              let gvk := uns_GroupVersionKind object in
              let gkMatched := String.eqb (gvk_Group gvk) (gvk_Group NativePlugin) &&
                               String.eqb (gvk_Kind gvk) (gvk_Kind NativePlugin) in
              if negb (HasManagedLabel object) || negb gkMatched then Some []
              else Some [fedObjectNameFor ftc object]
          end
      end
  end.

Definition onPodUpdate (oldPod newPod : ClusterPod) (cluster : string) : list QualifiedName :=
  if bool_decide (is_Some (pod_DeletionTimestamp newPod)) then []
  else if negb (podScheduledConditionChanged oldPod newPod) then []
  else default [] (getPossibleSourceObjectsFromCluster newPod cluster).
End Controller.
