(* ===== verification/AutoMigrationTheorems.v ===== *)
(** * The auto migration controller: properties

    What is counted and when to count again, the bounds of the estimated
    capacities, and that the annotation is what the scheduler reads. *)

From Stdlib Require Import ZArith Lia String Ascii.
From S2P Require Import Prelude GoStrings K8s Types ApiTypes Unstructured Codecs FedObject PodUtil MemberObjects.
From S2P Require Import Triggers SchedulingUnit Webhook Naming Sync Federate AutoMigration.

(** ** Counting pods *)

(** Since when the pod has been waiting to be scheduled, if it is. *)
Definition waiting_since (pod : ClusterPod) : option Time :=
  match pod_DeletionTimestamp pod, getPodScheduledCondition pod with
  | None, (Some condition, true) => Some (pc_LastTransitionTime condition)
  | _, _ => None
  end.

(** The time until the pod has waited for the threshold. *)
Definition remaining (threshold : Z) (now : Time) (pod : ClusterPod) : option Z :=
  (fun since => Time_Sub ((since : Z) + threshold) now) <$> waiting_since pod.

Definition crossed (threshold : Z) (now : Time) (pod : ClusterPod) : bool :=
  match remaining threshold now pod with Some d => d <=? 0 | None => false end.

(** Pods that cross the threshold later. *)
Definition ahead (threshold : Z) (now : Time) (pod : ClusterPod) : option Z :=
  match remaining threshold now pod with Some d => if d <=? 0 then None else Some d | None => None end.

Definition least (x y : option Z) : option Z :=
  match x, y with None, z | z, None => z | Some a, Some b => Some (Z.min a b) end.

Lemma countPod_spec now threshold s pod : exists scheduled,
  countPod now threshold s pod =
  (scheduled, s.1.2 + Z.b2z (crossed threshold now pod), least s.2 (ahead threshold now pod)).
Proof.
  destruct s as [[sc un] next]. unfold countPod, crossed, ahead, remaining, waiting_since. simpl.
  assert (forall z, least next None = next /\ z + 0 = z) as Hn by (intros z; split; [by destruct next|lia]).
  destruct (pod_DeletionTimestamp pod) as [t|].
  { rewrite bool_decide_eq_true_2 by done. exists sc. simpl. by rewrite (proj1 (Hn 0)), (proj2 (Hn un)). }
  rewrite bool_decide_eq_false_2 by (by intros [? ?]).
  destruct (getPodScheduledCondition pod) as [[condition|] []]; simpl;
    rewrite ?(proj1 (Hn 0)), ?(proj2 (Hn un)); try (by eexists).
  - destruct (Z.leb_spec (Time_Sub (pc_LastTransitionTime condition + threshold) now) 0); simpl.
    + exists sc. by rewrite (proj1 (Hn 0)).
    + rewrite (proj2 (Hn un)). destruct next as [d|]; simpl; [|by eexists].
      destruct (Z.ltb_spec (Time_Sub (pc_LastTransitionTime condition + threshold) now) d); eexists; repeat f_equal; lia.
  - destruct (String.eqb _ _); by eexists.
Qed.

Lemma countPods_fold now threshold pods s : exists scheduled,
  foldl (countPod now threshold) s pods =
  (scheduled, s.1.2 + sumZ (fun pod => Z.b2z (crossed threshold now pod)) pods,
   foldl (fun next pod => least next (ahead threshold now pod)) s.2 pods).
Proof.
  revert s. induction pods as [|pod pods IH]; intros s; simpl.
  - exists s.1.1. rewrite Z.add_0_r. by destruct s as [[]].
  - destruct (countPod_spec now threshold s pod) as [sc ->]. destruct (IH (sc, s.1.2 + Z.b2z (crossed threshold now pod),
      least s.2 (ahead threshold now pod))) as [sc' ->]. exists sc'. simpl. by rewrite Z.add_assoc.
Qed.

Definition unschedulable_at (pods : list ClusterPod) (threshold : Z) (now : Time) : Z :=
  (countScheduledAndUnschedulablePods pods now threshold).1.2.
Definition next_cross (pods : list ClusterPod) (threshold : Z) (now : Time) : option Z :=
  (countScheduledAndUnschedulablePods pods now threshold).2.

Lemma unschedulable_at_eq pods threshold now :
  unschedulable_at pods threshold now = sumZ (fun pod => Z.b2z (crossed threshold now pod)) pods.
Proof.
  unfold unschedulable_at, countScheduledAndUnschedulablePods.
  destruct (countPods_fold now threshold pods (0, 0, None)) as [sc ->]. done.
Qed.

Lemma next_cross_eq pods threshold now :
  next_cross pods threshold now = foldl (fun next pod => least next (ahead threshold now pod)) None pods.
Proof.
  unfold next_cross, countScheduledAndUnschedulablePods.
  destruct (countPods_fold now threshold pods (0, 0, None)) as [sc ->]. done.
Qed.

Lemma unschedulable_at_bounds pods threshold now :
  0 <= unschedulable_at pods threshold now <= Z.of_nat (length pods).
Proof.
  rewrite unschedulable_at_eq. induction pods as [|pod pods IH]; [done|]. simpl.
  destruct (crossed threshold now pod); simpl; lia.
Qed.

(** The fold is the least of the times ahead. *)
Lemma least_fold {A} (f : A -> option Z) l d0 : let d := foldl (fun next x => least next (f x)) d0 l in
  (forall x e, x ∈ l -> f x = Some e -> exists m, d = Some m /\ m <= e) /\
  (forall e, d0 = Some e -> exists m, d = Some m /\ m <= e) /\
  (forall m, d = Some m -> d0 = Some m \/ exists x, x ∈ l /\ f x = Some m).
Proof.
  revert d0. induction l as [|x l IH]; intros d0; simpl.
  - split_and!; [by intros x e ?%elem_of_nil|intros e ->; by exists e|auto].
  - destruct (IH (least d0 (f x))) as (H1 & H2 & H3). split_and!.
    + intros y e [->|Hy]%elem_of_cons Hf; [|eauto]. rewrite Hf in *.
      destruct d0 as [a|]; simpl in *.
      * destruct (H2 _ eq_refl) as (m & Hm & Hle). exists m. split; [done|lia].
      * by apply H2.
    + intros e ->. destruct (f x) as [b|]; simpl in *.
      * destruct (H2 _ eq_refl) as (m & Hm & Hle). exists m. split; [done|lia].
      * by apply H2.
    + intros m Hm. destruct (H3 m Hm) as [Hd|(y & Hy & Hf)]; [|right; exists y; by rewrite elem_of_cons; auto].
      destruct d0 as [a|], (f x) as [b|] eqn:Ef; simplify_eq/=; auto.
      * destruct (Z.min_spec a b) as [[_ E]|[_ E]]; rewrite E; [by left|]. right. exists x. rewrite elem_of_cons. auto.
      * right. exists x. rewrite elem_of_cons. auto.
Qed.

(** Times that [Time.Sub] does not saturate on. *)
Definition times_in_range (pods : list ClusterPod) (threshold : Z) (t : Time) : Prop :=
  forall pod since, pod ∈ pods -> waiting_since pod = Some since -> int64 ((since : Z) + threshold - t).

Lemma Time_Sub_in_range t u : int64 ((t : Z) - u) -> Time_Sub t u = (t : Z) - u.
Proof. unfold Time_Sub, int64. lia. Qed.

Lemma crossed_in_range pods threshold t pod since : times_in_range pods threshold t -> pod ∈ pods ->
  waiting_since pod = Some since -> crossed threshold t pod = ((since : Z) + threshold <=? t).
Proof.
  intros Hr Hpod Hs. unfold crossed, remaining. rewrite Hs. simpl. rewrite Time_Sub_in_range by eauto.
  apply eq_true_iff_eq. rewrite !Z.leb_le. lia.
Qed.

Lemma crossed_not_waiting threshold t pod : waiting_since pod = None -> crossed threshold t pod = false.
Proof. intros H. unfold crossed, remaining. by rewrite H. Qed.

Lemma ahead_in_range pods threshold t pod d : times_in_range pods threshold t -> pod ∈ pods ->
  ahead threshold t pod = Some d <-> exists since, waiting_since pod = Some since /\ d = (since : Z) + threshold - t /\ 0 < d.
Proof.
  intros Hr Hpod. unfold ahead, remaining. destruct (waiting_since pod) as [since|] eqn:Hs; simpl; [|naive_solver].
  rewrite Time_Sub_in_range by eauto. destruct (Z.leb_spec ((since : Z) + threshold - t) 0) as [Hle|Hlt]; split.
  - done.
  - intros (x & [= <-] & -> & H). lia.
  - intros [= <-]. by exists since.
  - intros (x & [= <-] & -> & H). done.
Qed.

(** Counting the pods again is of use exactly when the controller asks for
    it: until the time it asks for, no further pod crosses the threshold, then at
    least one has; and when it does not ask, no pod ever will. *)
Theorem requeue_exact pods threshold now t : (now : Z) <= t ->
  times_in_range pods threshold now -> times_in_range pods threshold t ->
  match next_cross pods threshold now with
  | None => unschedulable_at pods threshold t = unschedulable_at pods threshold now
  | Some d => 0 < d /\
      ((t : Z) < now + d -> unschedulable_at pods threshold t = unschedulable_at pods threshold now) /\
      ((now : Z) + d <= t -> unschedulable_at pods threshold now < unschedulable_at pods threshold t)
  end.
Proof.
  intros Hle Hnow Ht. rewrite next_cross_eq, !unschedulable_at_eq.
  destruct (least_fold (ahead threshold now) pods None) as (Hmin & _ & Hin).
  assert (forall pod, pod ∈ pods -> Z.b2z (crossed threshold now pod) <= Z.b2z (crossed threshold t pod)) as Hmono.
  { intros pod Hpod. destruct (waiting_since pod) as [since|] eqn:Hs; [|by rewrite !crossed_not_waiting].
    rewrite (crossed_in_range _ _ _ _ _ Hnow Hpod Hs), (crossed_in_range _ _ _ _ _ Ht Hpod Hs).
    destruct (Z.leb_spec ((since : Z) + threshold) now), (Z.leb_spec ((since : Z) + threshold) t); simpl; lia. }
  assert (forall pod since, pod ∈ pods -> waiting_since pod = Some since -> (now : Z) < since + threshold ->
    exists m, foldl (fun next pod => least next (ahead threshold now pod)) None pods = Some m /\
              m <= (since : Z) + threshold - now) as Hahead.
  { intros pod since Hpod Hs Hlt. apply (Hmin pod _ Hpod). apply (ahead_in_range _ _ _ _ _ Hnow Hpod).
    exists since. split_and!; [done..|lia]. }
  assert (forall pod, pod ∈ pods -> (forall m, foldl (fun next pod => least next (ahead threshold now pod)) None pods = Some m ->
    (t : Z) < now + m) -> Z.b2z (crossed threshold t pod) = Z.b2z (crossed threshold now pod)) as Hsame.
  { intros pod Hpod Hm. destruct (waiting_since pod) as [since|] eqn:Hs; [|by rewrite !crossed_not_waiting].
    rewrite (crossed_in_range _ _ _ _ _ Hnow Hpod Hs), (crossed_in_range _ _ _ _ _ Ht Hpod Hs). f_equal.
    destruct (Z.leb_spec ((since : Z) + threshold) now) as [?|Hlt]; [apply Z.leb_le; lia|].
    destruct (Hahead pod since Hpod Hs Hlt) as (m & E & Hle'). apply Z.leb_gt. specialize (Hm m E). lia. }
  destruct (foldl _ None pods) as [d|] eqn:Ed.
  - destruct (Hin d eq_refl) as [?|(pod & Hpod & Ha)]; [done|].
    apply (ahead_in_range _ _ _ _ _ Hnow Hpod) in Ha as (since & Hs & -> & Hd). split_and!; [done| |].
    + intros Hlt. apply sumZ_ext. intros p Hp. apply Hsame; [done|]. by intros m [= <-].
    + intros Hge. apply (sumZ_lt _ _ _ pod); [done|done|].
      rewrite (crossed_in_range _ _ _ _ _ Hnow Hpod Hs), (crossed_in_range _ _ _ _ _ Ht Hpod Hs).
      rewrite (proj2 (Z.leb_gt _ _)), (proj2 (Z.leb_le _ _)) by lia. done.
  - apply sumZ_ext. intros p Hp. by apply Hsame.
Qed.

(** ** Estimated capacities *)

Section Estimate.
Context `{K : Kubernetes} `{R : GoRuntime} `{C : !Codecs} `{A : !AutoMigrationLibraries}.
Variables (c : AutoMigrationController) (ftc : FederatedTypeConfig) (threshold : Z).

(** What the loop writes for one object. *)
Definition clusterEstimate (obj : ClusterObject) : option Z :=
  es_estimatedCapacity (estimateCluster c ftc threshold no_estimate obj) !! co_ClusterName obj.

Lemma estimateFromPods_spec s obj : es_estimatedCapacity (estimateFromPods c ftc threshold s obj) =
  match es_estimatedCapacity (estimateFromPods c ftc threshold no_estimate obj) !! co_ClusterName obj with
  | Some n => <[co_ClusterName obj := n]> (es_estimatedCapacity s)
  | None => es_estimatedCapacity s
  end.
Proof using Type.
  unfold estimateFromPods. destruct (getDesiredReplicas _ _) as [d|]; simpl; rewrite ?lookup_empty; [|done].
  destruct (getPodsFromCluster _ _ _ _) as [pods|]; simpl; rewrite ?lookup_empty; [|done].
  destruct (countScheduledAndUnschedulablePods _ _ _) as [[sc un] next]; simpl.
  by destruct (_ <=? _); rewrite ?lookup_empty, ?lookup_insert_eq.
Qed.

Lemma estimateCluster_spec s obj : es_estimatedCapacity (estimateCluster c ftc threshold s obj) =
  match clusterEstimate obj with
  | Some n => <[co_ClusterName obj := n]> (es_estimatedCapacity s)
  | None => es_estimatedCapacity s
  end.
Proof using Type.
  unfold clusterEstimate, estimateCluster. destruct (getTotalAndReadyReplicas _ _) as [[t r]|];
    [destruct (t =? r); simpl; [by rewrite lookup_empty|]|]; apply estimateFromPods_spec.
Qed.

Lemma estimate_fold objs s cluster : NoDup (co_ClusterName <$> objs) ->
  es_estimatedCapacity (foldl (estimateCluster c ftc threshold) s objs) !! cluster =
  match List.find (fun obj => bool_decide (co_ClusterName obj = cluster)) objs ≫= clusterEstimate with
  | Some n => Some n
  | None => es_estimatedCapacity s !! cluster
  end.
Proof using Type.
  revert s. induction objs as [|obj objs IH]; intros s; [done|]. rewrite fmap_cons, NoDup_cons. intros [Hobj Hnd].
  simpl. rewrite IH, estimateCluster_spec by done. case_bool_decide as Hc; simpl.
  - assert (List.find (fun x => bool_decide (co_ClusterName x = cluster)) objs = None) as ->.
    { destruct (List.find _ objs) as [x|] eqn:E; [|done]. apply find_some in E as [Hin Hx].
      apply bool_decide_eq_true in Hx. destruct Hobj. rewrite list_elem_of_fmap. exists x.
      split; [congruence|by apply list_elem_of_In]. }
    simpl. destruct (clusterEstimate obj) as [n|]; [|done]. by rewrite Hc, lookup_insert_eq.
  - destruct (_ ≫= clusterEstimate) as [n|]; [done|].
    destruct (clusterEstimate obj) as [n|]; [|done]. by rewrite lookup_insert_ne.
Qed.

(** Replicas and pods are counted in 64 bits. *)
Record machine_sized (obj : ClusterObject) : Prop := {
  mz_desired : forall desired, getDesiredReplicas ftc (co_Object obj) = inl desired -> int64 desired;
  mz_pods : forall pods, getPodsFromCluster c ftc (co_Object obj) (co_ClusterName obj) = inl pods ->
    int64 (Z.of_nat (length pods))
}.

Lemma clusterCapacity_exact pods desired : int64 desired -> int64 (Z.of_nat (length pods)) -> forall now,
  let unschedulable := unschedulable_at pods threshold now in
  clusterCapacity (Z.of_nat (length pods)) desired unschedulable =
    Z.max (Z.of_nat (length pods)) desired - unschedulable /\
  0 <= clusterCapacity (Z.of_nat (length pods)) desired unschedulable.
Proof using Type.
  intros Hd Hp now. pose proof (unschedulable_at_bounds pods threshold now) as Hu. cbv zeta.
  unfold clusterCapacity, int64 in *. destruct (Z.leb_spec desired (Z.of_nat (length pods)));
    rewrite sub64_small by (unfold int64; lia); lia.
Qed.

(** A cluster that has to give up replicas, and how many it can hold: the pods
    it has or wants, less those that could not be scheduled for too long. *)
Definition overloaded (obj : ClusterObject) (n : Z) : Prop := exists desired pods,
  (forall total ready, getTotalAndReadyReplicas ftc (co_Object obj) = inl (total, ready) -> total <> ready) /\
  getDesiredReplicas ftc (co_Object obj) = inl desired /\
  getPodsFromCluster c ftc (co_Object obj) (co_ClusterName obj) = inl pods /\
  n = Z.max (Z.of_nat (length pods)) desired - unschedulable_at pods threshold (amc_Now c (co_ClusterName obj)) /\
  0 <= n < desired.

Lemma estimateFromPods_overloaded obj n : machine_sized obj ->
  (forall total ready, getTotalAndReadyReplicas ftc (co_Object obj) = inl (total, ready) -> total <> ready) ->
  es_estimatedCapacity (estimateFromPods c ftc threshold no_estimate obj) !! co_ClusterName obj = Some n <->
  overloaded obj n.
Proof using Type.
  intros [Hdesired Hpods] Hready. unfold estimateFromPods, overloaded.
  destruct (getDesiredReplicas _ _) as [d|] eqn:Ed; simpl; [|rewrite lookup_empty; naive_solver].
  destruct (getPodsFromCluster _ _ _ _) as [pods|] eqn:Ep; simpl; [|rewrite lookup_empty; naive_solver].
  destruct (clusterCapacity_exact pods d (Hdesired d eq_refl) (Hpods pods eq_refl) (amc_Now c (co_ClusterName obj)))
    as [Hcap Hnonneg]. unfold unschedulable_at in *.
  destruct (countScheduledAndUnschedulablePods _ _ _) as [[sc un] next] eqn:Ec. simpl in *.
  destruct (Z.leb_spec d (clusterCapacity (Z.of_nat (length pods)) d un)) as [Hle|Hlt].
  - rewrite lookup_empty. split; [done|]. intros (d' & pods' & _ & [= <-] & [= <-] & Hn' & Hn). rewrite Ec in Hn'. simpl in Hn'. lia.
  - rewrite lookup_insert_eq, (proj2 (Z.ltb_ge _ _)) by lia. split.
    + intros [= <-]. exists d, pods. rewrite Ec. by split_and!.
    + intros (d' & pods' & _ & [= <-] & [= <-] & -> & Hn). rewrite Ec. by f_equal.
Qed.

Lemma clusterEstimate_spec obj n : machine_sized obj -> clusterEstimate obj = Some n <-> overloaded obj n.
Proof using Type.
  intros Hsized. pose proof (estimateFromPods_overloaded obj n Hsized) as Hslow.
  unfold clusterEstimate, estimateCluster. destruct (getTotalAndReadyReplicas _ _) as [[t r]|] eqn:Et.
  - destruct (Z.eqb_spec t r) as [->|Hne]; simpl.
    + rewrite lookup_empty. split; [done|]. intros (d & pods & H & _). by destruct (H r r).
    + apply Hslow. by intros ? ? [= <- <-].
  - by apply Hslow.
Qed.

(** C34. The estimated capacities are those of the clusters that have to give up
    replicas, no others; an estimate is at least 0, without the safeguard, and
    less than the replicas that the cluster is to have. *)
Theorem estimateCapacity_spec objs cluster n : NoDup (co_ClusterName <$> objs) -> Forall machine_sized objs ->
  EstimatedCapacity (estimateCapacity c ftc objs threshold).1 !! cluster = Some n <->
  exists obj, obj ∈ objs /\ co_ClusterName obj = cluster /\ overloaded obj n.
Proof using Type.
  intros Hnd Hsized. simpl. rewrite estimate_fold by done. simpl. rewrite lookup_empty.
  rewrite Forall_forall in Hsized. split.
  - destruct (List.find _ objs) as [obj|] eqn:E; simpl; [|done]. apply find_some in E as [Hin Hc].
    apply list_elem_of_In in Hin. apply bool_decide_eq_true in Hc.
    destruct (clusterEstimate obj) as [m|] eqn:Em; [|done]. intros [= ->].
    exists obj. split_and!; [done..|]. apply clusterEstimate_spec; auto.
  - intros (obj & Hin & Hc & Ho). apply clusterEstimate_spec in Ho; [|auto].
    assert (List.find (fun x => bool_decide (co_ClusterName x = cluster)) objs = Some obj) as ->; [|by simpl; rewrite Ho].
    clear -Hnd Hin Hc. induction objs as [|x objs IH]; [by apply elem_of_nil in Hin|].
    rewrite fmap_cons, NoDup_cons in Hnd. destruct Hnd as [Hx Hnd]. simpl. case_bool_decide as Hd.
    + apply elem_of_cons in Hin as [->|Hin]; [done|]. destruct Hx. rewrite list_elem_of_fmap. exists obj.
      split; [congruence|done].
    + apply elem_of_cons in Hin as [->|Hin]; [done|]. auto.
Qed.
End Estimate.

(** ** Reconciliation *)

Section Reconcile.
Context `{K : Kubernetes} `{R : GoRuntime} `{C : !Codecs} `{A : !AutoMigrationLibraries}.

(** The same caches, clients and clock, with another federated object. *)
Record same_clusters (c c' : AutoMigrationController) : Prop := {
  sc_ftc : amc_ResourceFTC c' = amc_ResourceFTC c;
  sc_lister : amc_ResourceLister c' = amc_ResourceLister c;
  sc_dynamic : amc_DynamicClient c' = amc_DynamicClient c;
  sc_kube : amc_KubeClient c' = amc_KubeClient c;
  sc_now : amc_Now c' = amc_Now c
}.

Lemma targets_frame c c' o annotations : same_clusters c c' ->
  annotations !! PodUnschedulableThresholdAnnotation = fo_Annotations o !! PodUnschedulableThresholdAnnotation ->
  getTargetObjectsIfAutoMigrationEnabled c' (SetAnnotations o annotations) =
  getTargetObjectsIfAutoMigrationEnabled c o.
Proof using Type.
  intros [H1 H2 H3 H4 H5] Hth. unfold getTargetObjectsIfAutoMigrationEnabled, getFTCIfAutoMigrationIsEnabled.
  cbn [fo_Annotations SetAnnotations fo_Spec]. rewrite Hth, H1.
  unfold appendTarget, targetObject. by rewrite H2.
Qed.

Lemma estimate_frame c c' ftc objs threshold : same_clusters c c' ->
  estimateCapacity c' ftc objs threshold = estimateCapacity c ftc objs threshold.
Proof using Type.
  intros [H1 H2 H3 H4 H5]. unfold estimateCapacity, estimateCluster, estimateFromPods, getPodsFromCluster. by rewrite H3, H4, H5.
Qed.

(** C33. What a reconciliation sends is what the scheduler reads back: the
    estimate of the moment when auto migration is enabled, nothing otherwise.
    Once it is stored, reconciling again at the same moment sends nothing and
    asks for the same time of the next reconciliation. *)
Theorem automigration_feeds_scheduler c c' name o res o' : amc_GetFromLister c name = inl o ->
  reconcile c name = (res, Some o') -> amc_Update c o' = None ->
  same_clusters c c' -> amc_GetFromLister c' name = inl o' ->
  reconcile c' name = (res, None) /\
  match getTargetObjectsIfAutoMigrationEnabled c o with
  | inl (objs, Some (ftc, Some threshold)) =>
      getAutoMigrationInfo o' = inl (Some (estimateCapacity c ftc objs threshold).1)
  | _ => getAutoMigrationInfo o' = inl None
  end.
Proof using Type.
  intros Hget Hrun Hup Hsame Hget'.
  assert (AutoMigrationInfoAnnotation <> PodUnschedulableThresholdAnnotation) as Hkeys by (vm_compute; discriminate).
  unfold reconcile in *. rewrite Hget in Hrun. rewrite Hget'.
  destruct (bool_decide (is_Some (fo_DeletionTimestamp o))) eqn:Edel; [done|].
  assert (forall annotations, annotations !! PodUnschedulableThresholdAnnotation =
      fo_Annotations o !! PodUnschedulableThresholdAnnotation -> o' = SetAnnotations o annotations ->
    bool_decide (is_Some (fo_DeletionTimestamp o')) = false /\
    getTargetObjectsIfAutoMigrationEnabled c' o' = getTargetObjectsIfAutoMigrationEnabled c o) as Hframe.
  { intros annotations Ha ->. split; [done|]. by apply targets_frame. }
  destruct (getTargetObjectsIfAutoMigrationEnabled c o) as [[objs [[ftc [threshold|]]|]]|err] eqn:Et; [|..|done].
  1: destruct (estimateCapacity c ftc objs threshold) as [info result] eqn:Ei;
     destruct (bool_decide (existingAutoMigrationInfo o = info)); [done|];
     destruct (Marshal_AutoMigrationInfo info) as [bytes|] eqn:Em; [|done];
     unfold updateInfo in Hrun; destruct (amc_Update c _) as [e|] eqn:Eu; injection Hrun as <- <-; [congruence|];
     destruct (Hframe (<[AutoMigrationInfoAnnotation := bytes]> (fo_Annotations o))) as [-> ->];
       [by rewrite lookup_insert_ne|done|];
     rewrite (estimate_frame c c') by done; rewrite Ei;
     unfold existingAutoMigrationInfo, getAutoMigrationInfo; cbn [fo_Annotations SetAnnotations];
     rewrite lookup_insert_eq, (AutoMigrationInfo_roundtrip _ _ Em), bool_decide_eq_true_2 by done; done.
  all: destruct (bool_decide (is_Some (fo_Annotations o !! AutoMigrationInfoAnnotation))); [|done];
     unfold updateInfo in Hrun; destruct (amc_Update c _) as [e|] eqn:Eu; injection Hrun as <- <-; [congruence|];
     destruct (Hframe (delete AutoMigrationInfoAnnotation (fo_Annotations o))) as [-> ->];
       [by rewrite lookup_delete_ne|done|];
     unfold getAutoMigrationInfo; cbn [fo_Annotations SetAnnotations];
     rewrite lookup_delete_eq, bool_decide_eq_false_2 by (by intros [? ?]); done.
Qed.
End Reconcile.

(** ** Concrete inputs *)

Definition small_Marshal_info (i : AutoMigrationInfo) : string + string :=
  encoded (EstimatedCapacity i, ScheduledReplicas i).

Lemma small_info_roundtrip `{Kubernetes} i s : small_Marshal_info i = inl s ->
  Unmarshal_AutoMigrationInfo (Codecs := small_codecs) s = inl i.
Proof. intros E%decoded_encoded. simpl. rewrite E. by destruct i. Qed.

Definition web_template : PodTemplate := {| pt_Labels := {["app"%string := "web"%string]}; pt_Rest := VNull |}.

(** Every object is the deployment "u1". *)
Definition small_automigration `{Kubernetes} : AutoMigrationLibraries (C := small_codecs) := {|
  uns_GetOwnerReferences := fun _ => [];
  LabelSelector := unit;
  LabelSelector_String := fun _ => inl "app=web"%string;
  FromUnstructured_Deployment := fun _ => inl ("default", "u1", tt, web_template)%string;
  ParseDuration := parse_decimal;
  Decoded_AutoMigrationInfo := fun _ => no_AutoMigrationInfo;
  Marshal_AutoMigrationInfo := small_Marshal_info;
  AutoMigrationInfo_roundtrip := small_info_roundtrip
|}.

Section Witnesses.
#[local] Existing Instance small_kubernetes.
#[local] Existing Instance small_runtime.
#[local] Existing Instance small_codecs.
#[local] Existing Instance small_automigration.

Definition owned_by (uid : string) : list MetaOwnerReference :=
  [ {| mor_APIVersion := "apps/v1"; mor_Kind := "ReplicaSet"; mor_Name := "owner"; mor_UID := uid;
       mor_Controller := Some true; mor_BlockOwnerDeletion := None |} ].

Definition waiting_pod (since : Time) : ClusterPod := {|
  pod_Namespace := "default"; pod_DeletionTimestamp := None; pod_OwnerReferences := owned_by "r1";
  pod_Conditions := [ {| pc_Type := PodScheduled; pc_Status := ConditionFalse; pc_Reason := PodReasonUnschedulable;
                         pc_Message := ""; pc_LastProbeTime := 0; pc_LastTransitionTime := since |} ] |}.

Definition web_pods : list ClusterPod := [waiting_pod 10; waiting_pod 70].

Lemma requeue_exact_witness : next_cross web_pods 60 100 = Some 30 /\
  unschedulable_at web_pods 60 129 = 1 /\ 1 < unschedulable_at web_pods 60 130.
Proof.
  assert (forall t : Time, 0 <= t <= 200 -> times_in_range web_pods 60 t) as Hr.
  { intros t Ht pod since Hpod Hs. unfold web_pods in Hpod. rewrite !elem_of_cons, elem_of_nil in Hpod.
    destruct_or? Hpod; subst pod; injection Hs as <-; unfold int64; lia. }
  pose proof (requeue_exact web_pods 60 100 129 ltac:(lia) (Hr 100 ltac:(lia)) (Hr 129 ltac:(lia))) as (_ & H1 & _).
  pose proof (requeue_exact web_pods 60 100 130 ltac:(lia) (Hr 100 ltac:(lia)) (Hr 130 ltac:(lia))) as (_ & _ & H2).
  split_and!; [reflexivity| |].
  - rewrite H1 by (vm_compute; reflexivity). reflexivity.
  - change 1 with (unschedulable_at web_pods 60 100). apply H2. vm_compute. discriminate.
Defined.

Definition web_object (ready : Z) : Unstructured := {| uns_Object := list_to_map [
  ("metadata", VMap (list_to_map [("name", VString "web"); ("namespace", VString "default")]));
  ("spec", VMap (list_to_map [("replicas", VInt 3)]));
  ("status", VMap (list_to_map [("replicas", VInt 3); ("readyReplicas", VInt ready)]))]%string |}.

Definition web_ftc : FederatedTypeConfig := {|
  ftc_Name := "deployments.apps"; SourceType := DeploymentResource; ReplicasSpec := "spec.replicas";
  ReplicasStatus := "status.replicas"; ReadyReplicasStatus := "status.readyReplicas"; AutoMigrationEnabled := true; ftc_Annotations := ∅; StatusAggregationEnabled := false; StatusCollection := None;
  Controllers := [] |}.

Definition web_fed : FederatedObject := {|
  fo_Namespace := "default"; fo_Name := "web"; fo_Labels := ∅;
  fo_Annotations := {[ PodUnschedulableThresholdAnnotation := "60"%string ]};
  fo_OwnerReferences := []; fo_Generation := 1; fo_DeletionTimestamp := None; fo_Finalizers := [];
  fo_Spec := {| Template := "3"; Overrides := []; Follows := [];
    Placements := [ {| pwc_Controller := "scheduler"; Placement := (fun n => {| cref_Cluster := n |}) <$> ["a"; "b"]%string |} ] |};
  fo_Status := empty_status |}.

(** The cluster "a" has two pods that wait, "b" has all replicas ready. *)
Definition web_migration (o : FederatedObject) : AutoMigrationController := {|
  amc_FederatedObject := fun _ _ => inl o;
  amc_ClusterFederatedObject := fun _ => inr NotFound;
  amc_ResourceFTC := fun _ => Some web_ftc;
  amc_ResourceLister := fun _ cluster => Some {|
    rl_HasSynced := true; rl_List := inl [];
    rl_Get := fun _ => inl (web_object (if String.eqb cluster "a" then 0 else 3)) |};
  amc_DynamicClient := fun _ => Some (fun _ _ _ => inr NotFound);
  amc_KubeClient := fun _ => Some {|
    ListReplicaSetsIn := fun _ _ => inl [ {| rs_Name := "web-1"; rs_UID := "r1"; rs_CreationTimestamp := 0;
      rs_OwnerReferences := owned_by "u1"; rs_Template := web_template |} ];
    ListPodsIn := fun _ _ => inl web_pods |};
  amc_Now := fun _ => 100;
  amc_Update := fun _ => None
|}.

Definition web_objects : list ClusterObject :=
  [ {| co_Object := web_object 0; co_ClusterName := "a" |}; {| co_Object := web_object 3; co_ClusterName := "b" |} ].

Lemma web_desired ready : getDesiredReplicas web_ftc (web_object ready) = inl 3.
Proof. vm_compute. reflexivity. Qed.
Lemma web_pods_of ready cluster : getPodsFromCluster (web_migration web_fed) web_ftc (web_object ready) cluster = inl web_pods.
Proof. vm_compute. reflexivity. Qed.

Lemma web_machine_sized ready cluster :
  machine_sized (web_migration web_fed) web_ftc {| co_Object := web_object ready; co_ClusterName := cluster |}.
Proof.
  split; cbn [co_Object co_ClusterName].
  - intros d Hd. rewrite web_desired in Hd. injection Hd as <-. unfold int64. lia.
  - intros pods Hp. rewrite web_pods_of in Hp. injection Hp as <-. unfold int64. simpl. lia.
Qed.

Lemma estimateCapacity_spec_witness :
  EstimatedCapacity (estimateCapacity (web_migration web_fed) web_ftc web_objects 60).1 !! "a"%string = Some 2.
Proof.
  apply (estimateCapacity_spec (web_migration web_fed) web_ftc 60 web_objects "a" 2);
    [apply (bool_decide_eq_true_1 _); vm_compute; reflexivity|unfold web_objects; apply Forall_cons_2; [|apply Forall_cons_2; [|apply Forall_nil_2]]; apply web_machine_sized|].
  exists {| co_Object := web_object 0; co_ClusterName := "a" |}. split_and!; [left|reflexivity|].
  exists 3, web_pods. split_and!; [|apply web_desired|apply web_pods_of|reflexivity|lia|lia].
  intros total ready Ht. assert (getTotalAndReadyReplicas web_ftc (web_object 0) = inl (3, 0)) as E by (vm_compute; reflexivity).
  cbn [co_Object] in Ht. rewrite E in Ht. injection Ht as <- <-. lia.
Defined.

Definition web_name : QualifiedName := {| qn_Namespace := "default"; qn_Name := "web" |}.
Definition web_updated : FederatedObject :=
  match reconcile (web_migration web_fed) web_name with (_, Some o) => o | _ => web_fed end.
Definition web_result : WorkerResult := {| wr_Success := true; RequeueAfter := Some 30; Backoff := false |}.

Lemma reconcile_web : reconcile (web_migration web_fed) web_name = (web_result, Some web_updated).
Proof. vm_compute. reflexivity. Qed.

Lemma automigration_feeds_scheduler_witness :
  reconcile (web_migration web_updated) web_name = (web_result, None).
Proof.
  apply (automigration_feeds_scheduler (web_migration web_fed) (web_migration web_updated) web_name web_fed web_result web_updated);
    [reflexivity|apply reconcile_web|reflexivity|by split|reflexivity].
Defined.
End Witnesses.
