(* ===== verification/PolicyRC.v ===== *)
(** * Reference counts of policies ([pkg/controllers/policyrc])

    How many federated objects refer to each propagation and override policy.
    [Counter] keeps the policies that each object was last seen with and their
    counts; its methods hold a mutex, so each is one step.  Counts are numbers of
    objects in memory, far from the bounds of [int64]. *)

From Stdlib Require Import ZArith Lia String Ascii.
From S2P Require Import Prelude GoStrings K8s Types ApiTypes Codecs FedObject SchedulingUnit OverridePolicy.

(** ** The counter ([counter.go]) *)

Record Counter := {
  knownPolicies : gmap QualifiedName (list QualifiedName);
  policyCounts : gmap QualifiedName Z
}.

Definition NewCounter : Counter := {| knownPolicies := ∅; policyCounts := ∅ |}.

(** Reading an absent count gives 0. *)
Definition count (counts : gmap QualifiedName Z) (policy : QualifiedName) : Z := default 0 (counts !! policy).

Definition releaseStep (s : may_panic (gmap QualifiedName Z)) (previousPolicy : QualifiedName)
    : may_panic (gmap QualifiedName Z) :=
  counts ← s;
  let counts := <[previousPolicy := count counts previousPolicy - 1]> counts in
  if count counts previousPolicy <? 0 then Panics else Returns counts.

Definition acquireStep (counts : gmap QualifiedName Z) (newPolicy : QualifiedName) : gmap QualifiedName Z :=
  <[newPolicy := count counts newPolicy + 1]> counts.

(** The new counter and the policies that are flagged. *)
Definition Update (counter : Counter) (object : QualifiedName) (newPolicies : list QualifiedName)
    : may_panic (Counter * list QualifiedName) :=
  let previousPolicies := default [] (knownPolicies counter !! object) in
  let known := match newPolicies with
               | [] => delete object (knownPolicies counter)
               | _ => <[object := newPolicies]> (knownPolicies counter)
               end in
  counts ← foldl releaseStep (Returns (policyCounts counter)) previousPolicies;
  Returns ({| knownPolicies := known; policyCounts := foldl acquireStep counts newPolicies |},
           previousPolicies ++ newPolicies).

Definition GetPolicyCounts (counter : Counter) (keys : list QualifiedName) : list Z :=
  count (policyCounts counter) <$> keys.

(** ** The controller ([controller.go]) *)

Definition propagationPoliciesOf (fedObj : option FederatedObject) : list QualifiedName :=
  match fedObj with Some o => option_list (GetMatchedPolicyKey o) | None => [] end.

Definition overridePoliciesOf (fedObj : option FederatedObject) : list QualifiedName :=
  match fedObj with
  | None => []
  | Some o =>
      match fo_Labels o !! OverridePolicyNameLabel with
      | Some op => [ {| qn_Namespace := fo_Namespace o; qn_Name := op |} ]
      | None => []
      end ++
      match fo_Labels o !! ClusterOverridePolicyNameLabel with
      | Some cop => [ {| qn_Namespace := ""; qn_Name := cop |} ]
      | None => []
      end
  end.

(** The two counters, and the policies enqueued for either worker. *)
Record Counters := { ppCounter : Counter; opCounter : Counter }.

Section Controller.
(** The federated objects of the cache. *)
Variable getFedObject : QualifiedName -> FederatedObject + ApiError.

Definition reconcileCount (s : Counters) (qualifiedName : QualifiedName)
    : may_panic (Counters * list QualifiedName * list QualifiedName * WorkerResult) :=
  match getFedObject qualifiedName with
  | inr err =>
      if negb (IsNotFound err) then Returns (s, [], [], StatusError)
      else
        '(pp, pps) ← Update (ppCounter s) qualifiedName (propagationPoliciesOf None);
        '(op, ops) ← Update (opCounter s) qualifiedName (overridePoliciesOf None);
        Returns ({| ppCounter := pp; opCounter := op |}, pps, ops, StatusAllOK)
  | inl fedObj =>
      '(pp, pps) ← Update (ppCounter s) qualifiedName (propagationPoliciesOf (Some fedObj));
      '(op, ops) ← Update (opCounter s) qualifiedName (overridePoliciesOf (Some fedObj));
      Returns ({| ppCounter := pp; opCounter := op |}, pps, ops, StatusAllOK)
  end.

(** The stores of policies hold the count of their status; the request is the
    count that is written. *)
Definition reconcilePersist (nsScopeStore clusterScopeStore : QualifiedName -> option Z + string)
    (updateStatus : QualifiedName -> Z -> option ApiError) (counter : Counter) (qualifiedName : QualifiedName)
    : WorkerResult * option Z :=
  let store := if negb (String.eqb (qn_Namespace qualifiedName) "") then nsScopeStore else clusterScopeStore in
  match store qualifiedName with
  | inr _ => (StatusError, None)
  | inl None => (StatusAllOK, None)
  | inl (Some refCount) =>
      let newRefCount := hd 0 (GetPolicyCounts counter [qualifiedName]) in
      if newRefCount =? refCount then (StatusAllOK, None)
      else
        match updateStatus qualifiedName newRefCount with
        | Some err => (if IsConflict err then StatusConflict else StatusError, Some newRefCount)
        | None => (StatusAllOK, Some newRefCount)
        end
  end.
End Controller.

(** * Reference counts of policies: properties *)

(** ** References *)

(** How often a list names a policy. *)
Definition occurrences (policy : QualifiedName) (l : list QualifiedName) : Z :=
  sumZ (fun p => if decide (p = policy) then 1 else 0) l.

Lemma occurrences_nil policy : occurrences policy [] = 0.
Proof. done. Qed.
Lemma occurrences_cons policy x l :
  occurrences policy (x :: l) = (if decide (x = policy) then 1 else 0) + occurrences policy l.
Proof. done. Qed.

Lemma occurrences_nonneg policy l : 0 <= occurrences policy l.
Proof. apply sumZ_nonneg. intros p _. by case_decide. Qed.

Lemma occurrences_zero policy l : policy ∉ l -> occurrences policy l = 0.
Proof.
  intros H. unfold occurrences. rewrite (sumZ_ext _ (fun _ => 0)); [apply sumZ_zero|].
  intros p Hp. rewrite decide_False; [done|]. by intros ->.
Qed.

(** The references to a policy among the objects that are known. *)
Definition references (policy : QualifiedName) (known : gmap QualifiedName (list QualifiedName)) : Z :=
  sumZ (fun kv => occurrences policy kv.2) (map_to_list known).

Lemma references_delete policy known object :
  references policy (delete object known) =
  references policy known - occurrences policy (default [] (known !! object)).
Proof.
  unfold references. destruct (known !! object) as [l|] eqn:E; simpl.
  - rewrite <- (sumZ_perm _ _ _ (map_to_list_delete known object l E)). simpl. lia.
  - rewrite delete_id by done. change (occurrences policy []) with 0. lia.
Qed.

Lemma references_insert policy known object l :
  references policy (<[object := l]> known) =
  references policy known - occurrences policy (default [] (known !! object)) + occurrences policy l.
Proof.
  rewrite <- references_delete. rewrite <- insert_delete_eq. unfold references.
  rewrite (sumZ_perm _ _ _ (map_to_list_insert (delete object known) object l (lookup_delete_eq known object))).
  simpl. lia.
Qed.

Lemma references_nonneg policy known : 0 <= references policy known.
Proof. apply sumZ_nonneg. intros kv _. apply occurrences_nonneg. Qed.

Lemma references_at_least policy known object :
  occurrences policy (default [] (known !! object)) <= references policy known.
Proof. pose proof (references_nonneg policy (delete object known)) as H. rewrite references_delete in H. lia. Qed.

(** ** One update *)

Lemma count_insert counts p n q : count (<[p := n]> counts) q = if decide (p = q) then n else count counts q.
Proof.
  unfold count. case_decide; subst; [by rewrite lookup_insert_eq|by rewrite lookup_insert_ne].
Qed.

Lemma release_fold counts l : (forall p, occurrences p l <= count counts p) -> exists counts',
  foldl releaseStep (Returns counts) l = Returns counts' /\ forall p, count counts' p = count counts p - occurrences p l.
Proof.
  revert counts. induction l as [|x l IH]; intros counts Hge.
  - exists counts. split; [done|]. intros p. rewrite occurrences_nil. lia.
  - pose proof (Hge x) as Hx. rewrite occurrences_cons, decide_True in Hx by done.
    pose proof (occurrences_nonneg x l) as Hnn.
    change (foldl releaseStep (Returns counts) (x :: l)) with (foldl releaseStep (releaseStep (Returns counts) x) l).
    unfold releaseStep at 2. cbn [mbind may_panic_bind]. rewrite count_insert, decide_True by done. rewrite (proj2 (Z.ltb_ge _ _)) by lia.
    destruct (IH (<[x := count counts x - 1]> counts)) as (counts' & -> & Hc).
    + intros p. rewrite count_insert. specialize (Hge p). rewrite occurrences_cons in Hge.
      destruct (decide (x = p)); subst; lia.
    + exists counts'. split; [done|]. intros p. rewrite Hc, count_insert, occurrences_cons.
      destruct (decide (x = p)); subst; lia.
Qed.

Lemma acquire_fold counts l p : count (foldl acquireStep counts l) p = count counts p + occurrences p l.
Proof.
  revert counts. induction l as [|x l IH]; intros counts; [rewrite occurrences_nil; simpl; lia|].
  rewrite occurrences_cons. simpl. rewrite IH. unfold acquireStep. rewrite count_insert. destruct (decide (x = p)); subst; lia.
Qed.

(** The counts are those of the objects known. *)
Definition exact (c : Counter) : Prop := forall p, count (policyCounts c) p = references p (knownPolicies c).

(** The policies that an object is known with. *)
Definition known_of (c : Counter) (object : QualifiedName) : list QualifiedName :=
  default [] (knownPolicies c !! object).

Lemma Update_exact c object policies : exact c -> exists c' flagged,
  Update c object policies = Returns (c', flagged) /\ exact c' /\
  (forall o, known_of c' o = if decide (o = object) then policies else known_of c o) /\
  (forall p, count (policyCounts c') p <> count (policyCounts c) p -> p ∈ flagged).
Proof.
  intros Hexact. unfold Update. set (known := match policies with [] => _ | _ => _ end).
  assert (forall p, references p known = references p (knownPolicies c) - occurrences p (known_of c object) +
    occurrences p policies) as Hrefs.
  { intros p. unfold known, known_of. destruct policies as [|x l]; [|apply references_insert].
    rewrite references_delete. rewrite occurrences_nil. lia. }
  destruct (release_fold (policyCounts c) (known_of c object)) as (counts & Hrel & Hcounts).
  { intros p. rewrite Hexact. apply references_at_least. }
  unfold known_of in Hrel. rewrite Hrel. simpl. do 2 eexists. split; [done|]. split_and!.
  - intros p. simpl. rewrite acquire_fold, Hcounts, Hexact, Hrefs. lia.
  - intros o. unfold known_of, known. simpl. destruct policies as [|x l]; case_decide; subst.
    + by rewrite lookup_delete_eq.
    + by rewrite lookup_delete_ne.
    + by rewrite lookup_insert_eq.
    + by rewrite lookup_insert_ne.
  - intros p. simpl. rewrite acquire_fold, Hcounts. unfold known_of. intros Hne.
    destruct (decide (p ∈ default [] (knownPolicies c !! object) ++ policies)) as [|Hn]; [done|].
    rewrite elem_of_app in Hn. rewrite !occurrences_zero in Hne by tauto. lia.
Qed.

(** ** Every counter that updates lead to *)

Inductive reachable : Counter -> Prop :=
  | reachable_new : reachable NewCounter
  | reachable_update c object policies c' flagged : reachable c ->
      Update c object policies = Returns (c', flagged) -> reachable c'.

Lemma reachable_exact c : reachable c -> exact c.
Proof.
  induction 1 as [|c object policies c' flagged _ IH Hup].
  - intros p. unfold references. simpl. by rewrite map_to_list_empty.
  - destruct (Update_exact c object policies IH) as (c1 & fl & E & Hexact & _). rewrite E in Hup.
    by injection Hup as <- _.
Qed.

(** C32. Whatever updates led to a counter, its counts are the numbers of
    references of the objects it knows; the next update does not panic, and flags
    every policy whose count it changes. *)
Theorem counter_exact c : reachable c ->
  (forall keys, GetPolicyCounts c keys = (fun p => references p (knownPolicies c)) <$> keys) /\
  forall object policies, exists c' flagged, Update c object policies = Returns (c', flagged) /\
    forall p, references p (knownPolicies c') <> references p (knownPolicies c) -> p ∈ flagged.
Proof.
  intros Hr. pose proof (reachable_exact c Hr) as Hexact. split.
  - intros keys. unfold GetPolicyCounts. apply list_fmap_ext. intros i p _. apply Hexact.
  - intros object policies. destruct (Update_exact c object policies Hexact) as (c' & fl & E & Hexact' & _ & Hflag).
    exists c', fl. split; [done|]. intros p Hp. apply Hflag. by rewrite Hexact, Hexact'.
Qed.

(** ** Both counters *)

Definition found (getFedObject : QualifiedName -> FederatedObject + ApiError) (n : QualifiedName) : option FederatedObject :=
  match getFedObject n with inl o => Some o | inr _ => None end.

Definition cache_reads (getFedObject : QualifiedName -> FederatedObject + ApiError) : Prop :=
  forall n err, getFedObject n = inr err -> err = NotFound.

(** All names of the queue, in its order. *)
Fixpoint countAll (getFedObject : QualifiedName -> FederatedObject + ApiError) (s : Counters) (queue : list QualifiedName)
    : may_panic Counters :=
  match queue with
  | [] => Returns s
  | n :: queue => '(s, _, _, _) ← reconcileCount getFedObject s n; countAll getFedObject s queue
  end.

Lemma reconcileCount_spec get s n : cache_reads get -> exact (ppCounter s) -> exact (opCounter s) ->
  exists s' pps ops, reconcileCount get s n = Returns (s', pps, ops, StatusAllOK) /\
    exact (ppCounter s') /\ exact (opCounter s') /\
    (forall o, known_of (ppCounter s') o = if decide (o = n) then propagationPoliciesOf (found get n) else known_of (ppCounter s) o) /\
    (forall o, known_of (opCounter s') o = if decide (o = n) then overridePoliciesOf (found get n) else known_of (opCounter s) o).
Proof.
  intros Hget Hpp Hop. unfold reconcileCount, found.
  destruct (get n) as [o|err] eqn:E; [|rewrite (Hget n err E); cbn [IsNotFound negb]];
    (edestruct (Update_exact (ppCounter s) n) as (pp & pps & -> & H1 & H2 & _); [done|]);
    (edestruct (Update_exact (opCounter s) n) as (op & ops & -> & H3 & H4 & _); [done|]); simpl;
    do 3 eexists; (split; [reflexivity|]); done.
Qed.

Lemma countAll_spec get s queue : cache_reads get -> exact (ppCounter s) -> exact (opCounter s) ->
  exists s', countAll get s queue = Returns s' /\ exact (ppCounter s') /\ exact (opCounter s') /\
    (forall o, known_of (ppCounter s') o =
       if decide (o ∈ queue) then propagationPoliciesOf (found get o) else known_of (ppCounter s) o) /\
    (forall o, known_of (opCounter s') o =
       if decide (o ∈ queue) then overridePoliciesOf (found get o) else known_of (opCounter s) o).
Proof.
  intros Hget. revert s. induction queue as [|n queue IH]; intros s Hpp Hop; simpl.
  - exists s. split_and!; try done; intros o; rewrite decide_False; try done; by intros ?%elem_of_nil.
  - destruct (reconcileCount_spec get s n Hget Hpp Hop) as (s1 & pps & ops & -> & Hpp1 & Hop1 & K1 & K2). simpl.
    destruct (IH s1 Hpp1 Hop1) as (s' & -> & Hpp' & Hop' & L1 & L2). exists s'. split_and!; try done;
      intros o; [rewrite L1, K1|rewrite L2, K2];
      (destruct (decide (o ∈ queue)); [rewrite decide_True by (by right); done|]);
      (destruct (decide (o = n)) as [->|]; [by rewrite decide_True by (by left)|]);
      rewrite decide_False; try done; rewrite elem_of_cons; tauto.
Qed.

(** Two maps with the same policies of every object have the same references. *)
Lemma references_known p (f : QualifiedName -> list QualifiedName) known names : NoDup names ->
  (forall o, default [] (known !! o) = if decide (o ∈ names) then f o else []) ->
  references p known = sumZ (fun o => occurrences p (f o)) names.
Proof.
  revert known. induction names as [|n names IH]; intros known Hnd Hf.
  - unfold references. simpl. rewrite (sumZ_ext _ (fun _ => 0)); [apply sumZ_zero|].
    intros [k l] Hkl%elem_of_map_to_list. specialize (Hf k).
    rewrite Hkl, decide_False in Hf by (by intros ?%elem_of_nil). cbn in Hf. by subst l.
  - rewrite NoDup_cons in Hnd. destruct Hnd as [Hn Hnd]. simpl.
    rewrite <- (IH (delete n known)); [|done|].
    + rewrite references_delete, Hf, decide_True by left. lia.
    + intros o. destruct (decide (o = n)) as [->|Hne].
      * rewrite lookup_delete_eq. by rewrite decide_False.
      * rewrite lookup_delete_ne by done. rewrite Hf. apply decide_ext. rewrite elem_of_cons. tauto.
Qed.

(** Once every object of the cache, and every object known from before, has
    been counted, in whatever order and however often, the count that is written
    to the status of a policy is the number of references to it in the cache. *)
Theorem persisted_count get s queue names policy refCount nsStore clusterStore updateStatus :
  cache_reads get -> reachable (ppCounter s) -> reachable (opCounter s) ->
  NoDup names -> (forall o, o ∈ names <-> o ∈ queue) ->
  (forall o, known_of (ppCounter s) o <> [] \/ known_of (opCounter s) o <> [] \/ found get o <> None -> o ∈ queue) ->
  (if negb (String.eqb (qn_Namespace policy) "") then nsStore else clusterStore) policy = inl (Some refCount) ->
  exists s', countAll get s queue = Returns s' /\
    let references_in policiesOf := sumZ (fun o => occurrences policy (policiesOf (found get o))) names in
    let written n := if n =? refCount then None else Some n in
    (reconcilePersist nsStore clusterStore updateStatus (ppCounter s') policy).2 =
      written (references_in propagationPoliciesOf) /\
    (reconcilePersist nsStore clusterStore updateStatus (opCounter s') policy).2 =
      written (references_in overridePoliciesOf).
Proof.
  intros Hget Hpp Hop Hnd Hnames Hall Hstore.
  destruct (countAll_spec get s queue Hget (reachable_exact _ Hpp) (reachable_exact _ Hop))
    as (s' & Hrun & Epp & Eop & K1 & K2).
  exists s'. split; [done|]. cbv zeta.
  assert (forall c n, exact c -> references policy (knownPolicies c) = n ->
    (reconcilePersist nsStore clusterStore updateStatus c policy).2 = if n =? refCount then None else Some n) as Hp.
  { intros c n Hc <-. unfold reconcilePersist. rewrite Hstore. simpl. rewrite Hc.
    destruct (_ =? _); [done|]. by destruct (updateStatus _ _). }
  assert (forall o, o ∉ queue -> known_of (ppCounter s) o = [] /\ known_of (opCounter s) o = []) as Hunseen.
  { intros o Ho. split; destruct (known_of _ o) eqn:E; try done; destruct Ho; apply Hall; rewrite E; auto. }
  split; apply Hp; try done.
  - apply references_known; [done|]. intros o. change (known_of (ppCounter s') o = if decide (o ∈ names) then
      propagationPoliciesOf (found get o) else []). rewrite K1.
    destruct (decide (o ∈ queue)) as [Hin|Hnot];
      [by rewrite decide_True by (by apply Hnames)|rewrite decide_False by (by rewrite Hnames); by apply Hunseen].
  - apply references_known; [done|]. intros o. change (known_of (opCounter s') o = if decide (o ∈ names) then
      overridePoliciesOf (found get o) else []). rewrite K2.
    destruct (decide (o ∈ queue)) as [Hin|Hnot];
      [by rewrite decide_True by (by apply Hnames)|rewrite decide_False by (by rewrite Hnames); by apply Hunseen].
Qed.

(** The label of a namespaced policy on an object without namespace counts as a
    reference to the cluster policy of that name, which the override controller
    does not apply ([OverridePolicy.lookForMatchedPolicies]). *)
Lemma cluster_scoped_reference o policy : fo_Namespace o = ""%string ->
  fo_Labels o !! OverridePolicyNameLabel = Some policy ->
  {| qn_Namespace := ""; qn_Name := policy |} ∈ overridePoliciesOf (Some o).
Proof. intros Hns Hl. unfold overridePoliciesOf. rewrite Hl, Hns. left. Qed.

(** ** Concrete inputs *)

Section Witnesses.
Definition a_policy : QualifiedName := {| qn_Namespace := "default"; qn_Name := "p" |}.
Definition an_object (n : string) : QualifiedName := {| qn_Namespace := "default"; qn_Name := n |}.

Definition labelled (n : string) : FederatedObject := {|
  fo_Namespace := "default"; fo_Name := n;
  fo_Labels := list_to_map [(PropagationPolicyNameLabel, "p"%string); (OverridePolicyNameLabel, "p"%string)];
  fo_Annotations := ∅; fo_OwnerReferences := []; fo_Generation := 1; fo_DeletionTimestamp := None; fo_Finalizers := [];
  fo_Spec := {| Template := ""; Overrides := []; Placements := []; Follows := [] |}; fo_Status := empty_status |}.

(** The cache holds "x" and "y". *)
Definition two_objects (n : QualifiedName) : FederatedObject + ApiError :=
  if String.eqb (qn_Name n) "x" || String.eqb (qn_Name n) "y" then inl (labelled (qn_Name n)) else inr NotFound.

Definition counted_once : Counter :=
  match Update NewCounter (an_object "x") [a_policy] with Returns (c, _) => c | _ => NewCounter end.

Lemma counter_exact_witness : GetPolicyCounts counted_once [a_policy] = [1].
Proof.
  assert (reachable counted_once) as Hr.
  { eapply (reachable_update NewCounter (an_object "x") [a_policy]); [constructor|]. vm_compute. reflexivity. }
  destruct (counter_exact counted_once Hr) as [H _]. rewrite H. vm_compute. reflexivity.
Defined.

Lemma two_objects_queue o : found two_objects o <> None ->
  qn_Name o = "x"%string \/ qn_Name o = "y"%string.
Proof.
  unfold found, two_objects. destruct (String.eqb_spec (qn_Name o) "x"); [auto|].
  destruct (String.eqb_spec (qn_Name o) "y"); [auto|done].
Qed.

(** The cache without the names of other namespaces. *)
Definition two_cached (n : QualifiedName) : FederatedObject + ApiError :=
  if String.eqb (qn_Namespace n) "default" then two_objects n else inr NotFound.

Lemma persisted_count_witness : exists s',
  countAll two_cached {| ppCounter := NewCounter; opCounter := NewCounter |} [an_object "y"; an_object "x"; an_object "y"] =
    Returns s' /\
  (reconcilePersist (fun _ => inl (Some 0)) (fun _ => inl None) (fun _ _ => None) (ppCounter s') a_policy).2 = Some 2.
Proof.
  destruct (persisted_count two_cached {| ppCounter := NewCounter; opCounter := NewCounter |}
    [an_object "y"; an_object "x"; an_object "y"] [an_object "x"; an_object "y"] a_policy 0
    (fun _ => inl (Some 0)) (fun _ => inl None) (fun _ _ => None)) as (s' & Hrun & Hpp & _).
  - intros n err. unfold two_cached, two_objects. destruct (String.eqb _ _); [|congruence].
    destruct (_ || _); congruence.
  - constructor.
  - constructor.
  - apply (bool_decide_eq_true_1 _). vm_compute. reflexivity.
  - intros o. rewrite !elem_of_cons, elem_of_nil. tauto.
  - intros [ns n] [H|[H|H]]; [done..|]. unfold found, two_cached in H. simpl in H.
    destruct (String.eqb_spec ns "default") as [->|]; [|done].
    apply (two_objects_queue {| qn_Namespace := "default"; qn_Name := n |}) in H as [H|H]; simpl in H; subst n;
      rewrite !elem_of_cons; auto.
  - reflexivity.
  - exists s'. split; [exact Hrun|]. rewrite Hpp. vm_compute. reflexivity.
Defined.
End Witnesses.
