(* ===== verification/Follower.v ===== *)
(** * The follower controller ([pkg/controllers/follower])

    Followers (config maps, secrets, ...) are placed in the clusters of the
    workloads that refer to them, their leaders.  The controller keeps two
    caches: the followers that each leader wants, and the leaders that each
    follower was last seen to follow.  A reconciliation reads federated objects
    from the informer store without copying them, so that its changes are made to
    the objects of the store: the store is part of [FollowerState]. *)

From Stdlib Require Import ZArith Lia String Ascii.
From S2P Require Import Prelude GoStrings Collections K8s Types ApiTypes Unstructured Codecs FedObject PodUtil Webhook Naming Sync.
From S2P Require Import OverridePolicy Federate.

(** * Names in a pod spec ([pkg/lifted/kubernetes/pkg/api/v1/pod])

    The visitors of the secrets and the config maps of a pod.  A visitor is
    called with a name and says whether to go on; its effects are a state that
    is passed along. *)

(** ** Masks of kinds of containers *)

Definition Containers : Z := Z.shiftl 1 0.
Definition InitContainers : Z := Z.shiftl 1 1.
Definition EphemeralContainers : Z := Z.shiftl 1 2.
Definition AllContainers : Z := Z.lor (Z.lor InitContainers Containers) EphemeralContainers.
Definition AllFeatureEnabledContainers : Z := AllContainers.

Section Visitors.
Context `{K : Kubernetes} {S : Type}.

Definition ContainerVisitor : Type := Container -> Z -> S -> S * bool.
Definition Visitor : Type := string -> S -> S * bool.

Definition skipEmptyNames (visitor : Visitor) : Visitor := fun name s =>
  if String.eqb name "" then (s, true) else visitor name s.

(** A loop that returns false when the visit of an item does. *)
Fixpoint visitEach {A} (visit : A -> S -> S * bool) (l : list A) (s : S) : S * bool :=
  match l with
  | [] => (s, true)
  | x :: l =>
      let '(s, shouldContinue) := visit x s in
      if (shouldContinue : bool) then visitEach visit l s else (s, false)
  end.

Definition visitOptional (visitor : Visitor) (name : option string) : S -> S * bool := fun s =>
  match name with Some name => visitor name s | None => (s, true) end.

Definition VisitContainers (podSpec : PodSpec) (mask : Z) (visitor : ContainerVisitor) (s : S) : S * bool :=
  let visitMasked containerType containers s :=
    if negb (Z.land mask containerType =? 0) then visitEach (fun c => visitor c containerType) containers s
    else (s, true) in
  let '(s, shouldContinue) := visitMasked InitContainers (ps_InitContainers podSpec) s in
  if negb shouldContinue then (s, false)
  else
    let '(s, shouldContinue) := visitMasked Containers (ps_Containers podSpec) s in
    if negb shouldContinue then (s, false)
    else visitMasked EphemeralContainers (ps_EphemeralContainers podSpec) s.

(** ** Secrets *)

Definition visitContainerSecretNames (container : Container) (visitor : Visitor) (s : S) : S * bool :=
  let '(s, shouldContinue) := visitEach (fun env => visitOptional visitor (SecretRef env)) (con_EnvFrom container) s in
  if negb shouldContinue then (s, false)
  else visitEach (fun envVar => visitOptional visitor (ks_Name <$> (ev_ValueFrom envVar ≫= SecretKeyRef)))
         (default [] (con_Env container)) s.

Definition visitVolumeSecretNames (source : VolumeSource) (visitor : Visitor) (s : S) : S * bool :=
  match AzureFile source with
  | Some secretName => if negb (String.eqb secretName "") then visitor secretName s else (s, true)
  | None =>
  match CephFS source with
  | Some secretRef => visitOptional visitor secretRef s
  | None =>
  match Cinder source with
  | Some secretRef => visitOptional visitor secretRef s
  | None =>
  match FlexVolume source with
  | Some secretRef => visitOptional visitor secretRef s
  | None =>
  match Projected source with
  | Some sources => visitEach (fun p => visitOptional visitor (proj_Secret p)) sources s
  | None =>
  match RBD source with
  | Some secretRef => visitOptional visitor secretRef s
  | None =>
  match vs_Secret source with
  | Some secretName => visitor secretName s
  | None =>
  match ScaleIO source with
  | Some secretRef => visitOptional visitor secretRef s
  | None =>
  match ISCSI source with
  | Some secretRef => visitOptional visitor secretRef s
  | None =>
  match StorageOS source with
  | Some secretRef => visitOptional visitor secretRef s
  | None =>
  match CSI source with
  | Some nodePublishSecretRef => visitOptional visitor nodePublishSecretRef s
  | None => (s, true)
  end end end end end end end end end end end.

(** Whether the containers were visited to the end is not looked at. *)
Definition VisitPodSecretNames (podSpec : PodSpec) (visitor : Visitor) (s : S) : S * bool :=
  let visitor := skipEmptyNames visitor in
  let '(s, shouldContinue) := visitEach visitor (ps_ImagePullSecrets podSpec) s in
  if negb shouldContinue then (s, false)
  else
    let '(s, _) := VisitContainers podSpec AllContainers (fun c _ => visitContainerSecretNames c visitor) s in
    visitEach (fun source => visitVolumeSecretNames source visitor) (ps_Volumes podSpec) s.

(** ** Config maps *)

Definition visitContainerConfigmapNames (container : Container) (visitor : Visitor) (s : S) : S * bool :=
  let '(s, shouldContinue) := visitEach (fun env => visitOptional visitor (ConfigMapRef env)) (con_EnvFrom container) s in
  if negb shouldContinue then (s, false)
  else visitEach (fun envVar => visitOptional visitor (ks_Name <$> (ev_ValueFrom envVar ≫= ConfigMapKeyRef)))
         (default [] (con_Env container)) s.

Definition visitVolumeConfigmapNames (source : VolumeSource) (visitor : Visitor) (s : S) : S * bool :=
  match Projected source with
  | Some sources => visitEach (fun p => visitOptional visitor (proj_ConfigMap p)) sources s
  | None =>
  match vs_ConfigMap source with
  | Some name => visitor name s
  | None => (s, true)
  end end.

Definition VisitPodConfigmapNames (podSpec : PodSpec) (visitor : Visitor) (s : S) : S * bool :=
  let visitor := skipEmptyNames visitor in
  let '(s, _) := VisitContainers podSpec AllContainers (fun c _ => visitContainerConfigmapNames c visitor) s in
  visitEach (fun source => visitVolumeConfigmapNames source visitor) (ps_Volumes podSpec) s.
End Visitors.

(** ** A map with its inverse ([bidirectional_cache.go]) *)

Record bidirectionalCache (A B : Type) `{Countable A} `{Countable B} := {
  bc_cache : gmap A (gset B);
  bc_reverseCache : gmap B (gset A)
}.
Arguments bc_cache {A B _ _ _ _} _.
Arguments bc_reverseCache {A B _ _ _ _} _.

Section Cache.
Context `{T : SetsRuntime} {A B : Type} `{Countable A} `{Countable B}.

Definition newBidirectionalCache : bidirectionalCache A B := {| bc_cache := ∅; bc_reverseCache := ∅ |}.

Definition lookup (c : bidirectionalCache A B) (key : A) : gset B := default ∅ (bc_cache c !! key).
Definition reverseLookup (c : bidirectionalCache A B) (key : B) : gset A := default ∅ (bc_reverseCache c !! key).

Definition removeStale (key : A) (reverseCache : gmap B (gset A)) (value : B) : gmap B (gset A) :=
  match reverseCache !! value with
  | None => reverseCache
  | Some keySet =>
      let keySet := keySet ∖ {[key]} in
      if Z.of_nat (size keySet) =? 0 then delete value reverseCache else <[value := keySet]> reverseCache
  end.

Definition insertAdded (key : A) (reverseCache : gmap B (gset A)) (value : B) : gmap B (gset A) :=
  <[value := default ∅ (reverseCache !! value) ∪ {[key]}]> reverseCache.

Definition update (c : bidirectionalCache A B) (key : A) (newValues : gset B) : bidirectionalCache A B :=
  let oldValues := default ∅ (bc_cache c !! key) in
  let cache := if 0 <? Z.of_nat (size newValues) then <[key := newValues]> (bc_cache c) else delete key (bc_cache c) in
  let staleValues := oldValues ∖ newValues in
  let addedValues := newValues ∖ oldValues in
  let reverseCache := foldl (removeStale key) (bc_reverseCache c) (UnsortedList staleValues) in
  {| bc_cache := cache; bc_reverseCache := foldl (insertAdded key) reverseCache (UnsortedList addedValues) |}.
End Cache.

(** ** References ([util.go]) *)

(** Group and kind. *)
Notation GroupKind := (string * string)%type.

Record FollowerReference := { fr_GroupKind : GroupKind; fr_Namespace : string; fr_Name : string }.
#[export] Instance FollowerReference_eq_dec : EqDecision FollowerReference.
Proof. solve_decision. Defined.
#[export] Instance FollowerReference_countable : Countable FollowerReference.
Proof.
  apply (inj_countable' (fun r => (fr_GroupKind r, fr_Namespace r, fr_Name r))
    (fun x => {| fr_GroupKind := x.1.1; fr_Namespace := x.1.2; fr_Name := x.2 |})).
  by intros [].
Defined.

Definition LeaderReference_GroupKind (l : LeaderReference) : GroupKind := (lr_Group l, lr_Kind l).

Record objectGroupKindKey := {
  ok_namespace : string;
  ok_fedName : string;
  ok_sourceName : string;
  ok_sourceGK : GroupKind
}.

Record followerAnnotationElement := { fae_Group : string; fae_Kind : string; fae_Name : string }.

(** [json.Unmarshal] into a list of the type above. *)
Class FollowerCodecs := { Unmarshal_followers : string -> list followerAnnotationElement + string }.

Definition ConfigMapKind : string := "ConfigMap".
Definition SecretKind : string := "Secret".
Definition ServiceKind : string := "Service".
Definition ServiceAccountKind : string := "ServiceAccount".
Definition IngressKind : string := "Ingress".
Definition PersistentVolumeClaimKind : string := "PersistentVolumeClaim".
Definition HPAScaleTargetRefPath : string := (DefaultPrefix ++ "scale-target-ref-path")%string.

Definition leaderPodSpecPaths : gmap GroupKind string :=
  list_to_map ((fun k => (k, default ""%string (PodSpecPaths !! k))) <$>
    [("apps", DeploymentKind); ("apps", StatefulSetKind); ("apps", DaemonSetKind);
     ("batch", JobKind); ("batch", CronJobKind); ("", PodKind)]%string).

Definition supportedFollowerTypes : gset GroupKind :=
  list_to_set [("", ConfigMapKind); ("", SecretKind); ("", PersistentVolumeClaimKind); ("", ServiceAccountKind);
               ("", ServiceKind); ("networking.k8s.io", IngressKind)]%string.

Section References.
Context `{K : Kubernetes} `{R : GoRuntime} `{C : !Codecs} `{F : FollowerCodecs}.

Definition GetFollowersFromAnnotation (fedObject : FederatedObject) : gset FollowerReference + string :=
  let annotation := default ""%string (fo_Annotations fedObject !! FollowersAnnotation) in
  if String.eqb annotation "" then inl ∅
  else
    bind_error (Unmarshal_followers annotation) (fun followersFromAnnotation =>
    inl (foldl (fun followers e =>
           {[ {| fr_GroupKind := (fae_Group e, fae_Kind e); fr_Namespace := fo_Namespace fedObject;
                 fr_Name := fae_Name e |} ]} ∪ followers) ∅ followersFromAnnotation)).

(** The visitor that inserts a reference and goes on. *)
Definition insertFollower (kind namespace : string) : Visitor (S := gset FollowerReference) := fun name followers =>
  ({[ {| fr_GroupKind := (""%string, kind); fr_Namespace := namespace; fr_Name := name |} ]} ∪ followers, true).

Definition getFollowersFromPod (namespace : string) (podSpec : PodSpec) : gset FollowerReference :=
  let '(followers, _) := VisitPodSecretNames podSpec (insertFollower "Secret" namespace) ∅ in
  let '(followers, _) := VisitPodConfigmapNames podSpec (insertFollower "ConfigMap" namespace) followers in
  let followers := foldl (fun followers vol =>
    match PersistentVolumeClaim vol with
    | Some claimName => (insertFollower "PersistentVolumeClaim" namespace claimName followers).1
    | None => followers
    end) followers (ps_Volumes podSpec) in
  let saName := ps_ServiceAccountName podSpec in
  if negb (String.eqb saName "") then (insertFollower "ServiceAccount" namespace saName followers).1 else followers.

Definition getFollowersFromPodSpec (fedObject : FederatedObject) (podSpecPath : string)
    : gset FollowerReference + PodSpecError :=
  match GetPodSpec fedObject podSpecPath with
  | inr err => inr err
  | inl podSpec => inl (getFollowersFromPod (fo_Namespace fedObject) podSpec)
  end.

Definition SkipSync (federatedObject : FederatedObject) : bool :=
  if 0 <? Z.of_nat (length (gs_Clusters (fo_Status federatedObject))) then false
  else String.eqb (default ""%string (fo_Annotations federatedObject !! DryRunAnnotation)) AnnotationValueTrue.

(** Whether scheduling of followers is enabled by the leader. *)
Definition leadsFollowers (fedObj : FederatedObject) : bool :=
  let has key := String.eqb (default ""%string (fo_Annotations fedObj !! key)) AnnotationValueTrue in
  negb (negb (has EnableFollowerSchedulingAnnotation) || has NoSchedulingAnnotation || SkipSync fedObj).

Definition inferFollowers (sourceGK : GroupKind) (fedObj : FederatedObject) : gset FollowerReference + string :=
  if negb (leadsFollowers fedObj) then inl ∅
  else
    bind_error (GetFollowersFromAnnotation fedObj) (fun followersFromAnnotation =>
    match getFollowersFromPodSpec fedObj (default ""%string (leaderPodSpecPaths !! sourceGK)) with
    | inr err => inr (PodSpecError_String err)
    | inl followersFromPodSpec => inl (followersFromAnnotation ∪ followersFromPodSpec)
    end).
End References.

(** ** The controller ([controller.go]) *)

Definition follower_controller : string := (DefaultPrefix ++ "follower-controller")%string.

(** What the controller reads, but for the store of federated objects. *)
Record FollowerEnvironment := {
  (** A read of the store that fails. *)
  fe_ListerError : QualifiedName -> option ApiError;
  (** The annotations of a type config. *)
  fe_FTC : string -> gmap string string + ApiError;
  fe_Update : FederatedObject -> option ApiError
}.

Record FollowerState := {
  gkToFTCName : gmap GroupKind string;
  cacheObservedFromLeaders : bidirectionalCache LeaderReference FollowerReference;
  cacheObservedFromFollowers : bidirectionalCache FollowerReference LeaderReference;
  (** The informer store of federated objects. *)
  fs_store : gmap QualifiedName FederatedObject
}.

(** The effects of a reconciliation beside those on the state. *)
Record FollowerOutcome := {
  fo_result : WorkerResult;
  fo_sent : option FederatedObject;
  fo_enqueued : list objectGroupKindKey
}.
Definition finished (result : WorkerResult) : FollowerOutcome :=
  {| fo_result := result; fo_sent := None; fo_enqueued := [] |}.

Definition setFollows (o : FederatedObject) (leaders : list LeaderReference) : FederatedObject :=
  setSpec o {| Template := Template (fo_Spec o); Overrides := Overrides (fo_Spec o);
               Placements := Placements (fo_Spec o); Follows := leaders |}.

Definition with_store (s : FollowerState) (store : gmap QualifiedName FederatedObject) : FollowerState := {|
  gkToFTCName := gkToFTCName s; cacheObservedFromLeaders := cacheObservedFromLeaders s;
  cacheObservedFromFollowers := cacheObservedFromFollowers s; fs_store := store |}.
Definition with_leaders (s : FollowerState) c : FollowerState := {|
  gkToFTCName := gkToFTCName s; cacheObservedFromLeaders := c;
  cacheObservedFromFollowers := cacheObservedFromFollowers s; fs_store := fs_store s |}.
Definition with_followers (s : FollowerState) c : FollowerState := {|
  gkToFTCName := gkToFTCName s; cacheObservedFromLeaders := cacheObservedFromLeaders s;
  cacheObservedFromFollowers := c; fs_store := fs_store s |}.

Section Controller.
Context `{K : Kubernetes} `{R : GoRuntime} `{C : !Codecs} `{T : SetsRuntime} `{F : FollowerCodecs}.
Variable e : FollowerEnvironment.

Definition fol_GetFromLister (s : FollowerState) (name : QualifiedName) : FederatedObject + ApiError :=
  match fe_ListerError e name with
  | Some err => inr err
  | None => match fs_store s !! name with Some o => inl o | None => inr NotFound end
  end.

(** The handler of updates of type configs. *)
Definition onFTCUpdate (s : FollowerState) (latest : option FederatedTypeConfig) : FollowerState :=
  match latest with
  | None => s
  | Some latest =>
      let targetGK := (ar_Group (SourceType latest), ar_Kind (SourceType latest)) in
      {| gkToFTCName := <[targetGK := ftc_Name latest]> (gkToFTCName s);
         cacheObservedFromLeaders := cacheObservedFromLeaders s;
         cacheObservedFromFollowers := cacheObservedFromFollowers s; fs_store := fs_store s |}
  end.

Definition isHPAType (s : FollowerState) (gk : GroupKind) : bool + ApiError :=
  match fe_FTC e (default ""%string (gkToFTCName s !! gk)) with
  | inr err => inr err
  | inl annotations => inl (bool_decide (is_Some (annotations !! HPAScaleTargetRefPath)))
  end.

Definition enqueueSupportedType (s : FollowerState) (fedObject : FederatedObject) : option objectGroupKindKey :=
  match GetTemplateAsUnstructured (fo_Spec fedObject) with
  | inr _ => None
  | inl template =>
      let gvk := uns_GroupVersionKind template in
      let templateGK := (gvk_Group gvk, gvk_Kind gvk) in
      let isLeader := bool_decide (is_Some (leaderPodSpecPaths !! templateGK)) in
      let isFollower := bool_decide (templateGK ∈ supportedFollowerTypes) ||
                        match isHPAType s templateGK with inl b => b | inr _ => false end in
      if isLeader || isFollower then
        Some {| ok_sourceGK := templateGK; ok_namespace := fo_Namespace fedObject; ok_fedName := fo_Name fedObject;
                ok_sourceName := uns_GetName template |}
      else None
  end.

Definition enqueueFollowers (s : FollowerState) (followers : gset FollowerReference) : list objectGroupKindKey :=
  omap (fun follower =>
    match gkToFTCName s !! fr_GroupKind follower with
    | None => None
    | Some ftcName => Some {|
        ok_sourceGK := fr_GroupKind follower; ok_namespace := fr_Namespace follower; ok_sourceName := fr_Name follower;
        ok_fedName := GenerateFederatedObjectName (fr_Name follower) ftcName |}
    end) (UnsortedList followers).

Definition key_name (key : objectGroupKindKey) : QualifiedName :=
  {| qn_Namespace := ok_namespace key; qn_Name := ok_fedName key |}.

Definition reconcileLeader (s : FollowerState) (key : objectGroupKindKey) : FollowerState * FollowerOutcome :=
  let leader := {| lr_Group := (ok_sourceGK key).1; lr_Kind := (ok_sourceGK key).2;
                   lr_Namespace := ok_namespace key; lr_Name := ok_sourceName key |} in
  let updateCaches desiredFollowers :=
    let s := with_leaders s (update (cacheObservedFromLeaders s) leader desiredFollowers) in
    let currentFollowers := reverseLookup (cacheObservedFromFollowers s) leader in
    (s, {| fo_result := StatusAllOK; fo_sent := None;
           fo_enqueued := enqueueFollowers s (desiredFollowers ∪ currentFollowers) |}) in
  match fol_GetFromLister s (key_name key) with
  | inr err => if negb (IsNotFound err) then (s, finished StatusError) else updateCaches ∅
  | inl fedObj =>
      match inferFollowers (ok_sourceGK key) fedObj with
      | inr _ => (s, finished StatusError)
      | inl desiredFollowers => updateCaches desiredFollowers
      end
  end.

(** The errors keep the error of the API server that they wrap. *)
Definition getLeaderObj (s : FollowerState) (leader : LeaderReference) : option FederatedObject + (string + ApiError) :=
  let leaderGK := LeaderReference_GroupKind leader in
  match leaderPodSpecPaths !! leaderGK with
  | None => inr (inl "unsupported leader type"%string)
  | Some _ =>
      match gkToFTCName s !! leaderGK with
      | None => inr (inl "unknown leader gk"%string)
      | Some ftcName =>
          match fol_GetFromLister s {| qn_Namespace := lr_Namespace leader;
                                       qn_Name := GenerateFederatedObjectName (lr_Name leader) ftcName |} with
          | inr err => if IsNotFound err then inl None else inr (inr err)
          | inl leaderObj => inl (Some leaderObj)
          end
      end
  end.

Definition leaderPlacementUnion (s : FollowerState) (leaders : list LeaderReference)
    : gset string + (string + ApiError) :=
  foldl_error (fun clusters leader =>
    bind_error (getLeaderObj s leader) (fun leaderObjWithPlacement =>
    match leaderObjWithPlacement with
    | None => inl clusters
    | Some o => inl (GetPlacementUnion (fo_Spec o) ∪ clusters)
    end)) ∅ leaders.

(** The changes are made to the object of the store. *)
Definition updateFollower (s : FollowerState) (name : QualifiedName) (followerObj : FederatedObject)
    (leadersChanged : bool) (leaders : list LeaderReference)
    : FollowerState * option FederatedObject * (bool + (string + ApiError)) :=
  let followerObj := if leadersChanged then setFollows followerObj leaders else followerObj in
  let s := with_store s (<[name := followerObj]> (fs_store s)) in
  match leaderPlacementUnion s leaders with
  | inr err => (s, None, inr err)
  | inl clusters =>
      let '(spec, placementsChanged) :=
        SetControllerPlacement (fo_Spec followerObj) follower_controller (UnsortedList clusters) in
      let followerObj := setSpec followerObj spec in
      let s := with_store s (<[name := followerObj]> (fs_store s)) in
      if leadersChanged || placementsChanged then
        match fe_Update e followerObj with
        | Some err => (s, Some followerObj, inr (inr err))
        | None => (s, Some followerObj, inl true)
        end
      else (s, None, inl false)
  end.

Definition reconcileFollower (s : FollowerState) (key : objectGroupKindKey) : FollowerState * FollowerOutcome :=
  let follower := {| fr_GroupKind := ok_sourceGK key; fr_Namespace := ok_namespace key; fr_Name := ok_sourceName key |} in
  match fol_GetFromLister s (key_name key) with
  | inr err =>
      if negb (IsNotFound err) then (s, finished StatusError)
      else (with_followers s (update (cacheObservedFromFollowers s) follower ∅), finished StatusAllOK)
  | inl followerObject =>
      let currentLeaders : gset LeaderReference := list_to_set (Follows (fo_Spec followerObject)) in
      let s := with_followers s (update (cacheObservedFromFollowers s) follower currentLeaders) in
      let desiredLeaders : gset LeaderReference :=
        if String.eqb (default ""%string (fo_Annotations followerObject !! DisableFollowingAnnotation)) AnnotationValueTrue
        then ∅ else reverseLookup (cacheObservedFromLeaders s) follower in
      let leadersChanged := negb (bool_decide (desiredLeaders = currentLeaders)) in
      let '(s, sent, res) := updateFollower s (key_name key) followerObject leadersChanged (UnsortedList desiredLeaders) in
      (s, {| fo_result := match res with
                          | inl _ => StatusAllOK
                          | inr (inr err) => if IsConflict err then StatusConflict else StatusError
                          | inr (inl _) => StatusError
                          end;
             fo_sent := sent; fo_enqueued := [] |})
  end.

Definition reconcile (s : FollowerState) (key : objectGroupKindKey) : FollowerState * FollowerOutcome :=
  if bool_decide (is_Some (leaderPodSpecPaths !! ok_sourceGK key)) then reconcileLeader s key
  else
    match isHPAType s (ok_sourceGK key) with
    | inr _ => (s, finished StatusError)
    | inl isHPA =>
        if bool_decide (ok_sourceGK key ∈ supportedFollowerTypes) || isHPA then reconcileFollower s key
        else (s, finished StatusAllOK)
    end.
End Controller.
