(* ===== verification/FollowerTheorems.v ===== *)
(** * The follower controller: properties *)

From Stdlib Require Import ZArith Lia String Ascii.
From S2P Require Import Prelude GoStrings Collections K8s Types ApiTypes Unstructured Codecs FedObject FedObjectTheorems PodUtil.
From S2P Require Import Webhook SchedulerTheorems Naming Sync OverridePolicy Federate FederateLibrary Follower.

(** ** The map with its inverse *)

Section Cache.
Context `{T : SetsRuntime} {A B : Type} `{Countable A} `{Countable B}.
Implicit Types (c : bidirectionalCache A B) (r : gmap B (gset A)).

(** The sets of a reverse cache. *)
Definition at_value r (v : B) : gset A := default ∅ (r !! v).

Lemma reverseLookup_at c v : reverseLookup c v = at_value (bc_reverseCache c) v.
Proof using Type. done. Qed.

Lemma at_insert r v x w : at_value (<[v := x]> r) w = if decide (v = w) then x else at_value r w.
Proof using Type.
  unfold at_value. case_decide; subst; [by rewrite lookup_insert_eq|by rewrite lookup_insert_ne].
Qed.

Lemma size_zero `{Countable D} (x : gset D) : (Z.of_nat (size x) =? 0) = bool_decide (x = ∅).
Proof using Type.
  destruct (decide (x = ∅)) as [->|Hne]; [by rewrite bool_decide_eq_true_2, size_empty|].
  rewrite bool_decide_eq_false_2 by done. apply Z.eqb_neq. intros E. apply Hne, leibniz_equiv, size_empty_inv. lia.
Qed.

Lemma at_removeStale key r v w :
  at_value (removeStale key r v) w = if decide (v = w) then at_value r w ∖ {[key]} else at_value r w.
Proof using Type.
  unfold removeStale. destruct (r !! v) as [x|] eqn:Ev.
  - assert (at_value r v = x) as Hx by (unfold at_value; by rewrite Ev). rewrite size_zero.
    destruct (decide (v = w)) as [<-|Hne].
    + rewrite Hx. case_bool_decide as He; [|by rewrite at_insert, decide_True].
      unfold at_value. by rewrite lookup_delete_eq, He.
    + case_bool_decide; [unfold at_value; by rewrite lookup_delete_ne|by rewrite at_insert, decide_False].
  - destruct (decide (v = w)) as [<-|]; [|done]. unfold at_value. rewrite Ev. simpl. set_solver.
Qed.

(** A loop that changes the set of each value in the same, idempotent way. *)
Lemma at_fold (step : gmap B (gset A) -> B -> gmap B (gset A)) (g : gset A -> gset A) l r w :
  (forall r v w, at_value (step r v) w = if decide (v = w) then g (at_value r w) else at_value r w) ->
  (forall x, g (g x) = g x) ->
  at_value (foldl step r l) w = if decide (w ∈ l) then g (at_value r w) else at_value r w.
Proof using Type.
  intros Hstep Hg. revert r. induction l as [|v l IH]; intros r.
  - destruct (decide (w ∈ [])) as [Hn|]; [by apply elem_of_nil in Hn|done].
  - cbn [foldl]. rewrite IH, Hstep.
    destruct (decide (w ∈ v :: l)) as [Hin|Hin]; rewrite elem_of_cons in Hin;
      destruct (decide (w ∈ l)), (decide (v = w)); subst; try done; naive_solver.
Qed.

Lemma at_removeStale_all key l r w :
  at_value (foldl (removeStale key) r l) w = if decide (w ∈ l) then at_value r w ∖ {[key]} else at_value r w.
Proof using Type. apply (at_fold _ (fun x => x ∖ {[key]})); [apply at_removeStale|set_solver]. Qed.

Lemma at_insertAdded_all key l r w :
  at_value (foldl (insertAdded key) r l) w = if decide (w ∈ l) then at_value r w ∪ {[key]} else at_value r w.
Proof using Type.
  apply (at_fold _ (fun x => x ∪ {[key]})); [|set_solver]. intros r' v' w'. unfold insertAdded. rewrite at_insert.
  by destruct (decide (v' = w')) as [<-|].
Qed.

Lemma reverseLookup_update c key values v :
  reverseLookup (update c key values) v =
    if decide (v ∈ values) then
      (if decide (v ∈ lookup c key) then reverseLookup c v else reverseLookup c v ∪ {[key]})
    else if decide (v ∈ lookup c key) then reverseLookup c v ∖ {[key]} else reverseLookup c v.
Proof using Type.
  rewrite !reverseLookup_at. unfold update. cbn [bc_reverseCache].
  change (default ∅ (bc_cache c !! key)) with (lookup c key).
  rewrite at_insertAdded_all, at_removeStale_all. apply leibniz_equiv. intros a.
  destruct (decide (v ∈ UnsortedList (values ∖ lookup c key))) as [H1|H1]; rewrite elem_of_UnsortedList in H1;
    destruct (decide (v ∈ UnsortedList (lookup c key ∖ values))) as [H2|H2]; rewrite elem_of_UnsortedList in H2;
    destruct (decide (v ∈ values)), (decide (v ∈ lookup c key)); set_solver.
Qed.

Lemma lookup_update c key values k : lookup (update c key values) k = if decide (k = key) then values else lookup c k.
Proof using Type.
  unfold lookup, update. cbn [bc_cache]. destruct (Z.ltb_spec 0 (Z.of_nat (size values))) as [Hpos|Hzero].
  - case_decide; subst; [by rewrite lookup_insert_eq|by rewrite lookup_insert_ne].
  - assert (values = ∅) as -> by (apply leibniz_equiv, size_empty_inv; lia).
    case_decide; subst; [by rewrite lookup_delete_eq|by rewrite lookup_delete_ne].
Qed.

(** The two maps are inverse to each other. *)
Definition inverse c : Prop := forall k v, k ∈ reverseLookup c v <-> v ∈ lookup c k.

Lemma update_inverse c key values : inverse c -> inverse (update c key values).
Proof using Type.
  intros Hc k v. rewrite reverseLookup_update, lookup_update. specialize (Hc k v).
  destruct (decide (k = key)) as [->|Hk];
    destruct (decide (v ∈ values)), (decide (v ∈ lookup c key)); set_solver.
Qed.

Lemma new_inverse : inverse newBidirectionalCache.
Proof using Type. intros k v. unfold reverseLookup, lookup. simpl. rewrite !lookup_empty. set_solver. Qed.

(** After any updates, a key has a value in the cache exactly when the value
    has the key in the reverse cache, and an update sets the values of its key
    and no others. *)
Theorem cache_inverse updates : let c := foldl (fun c '(key, values) => update c key values) newBidirectionalCache updates in
  (forall k v, k ∈ reverseLookup c v <-> v ∈ lookup c k) /\
  forall key values k, lookup (update c key values) k = if decide (k = key) then values else lookup c k.
Proof using Type.
  cbv zeta. split; [|intros; apply lookup_update].
  assert (forall c, inverse c -> inverse (foldl (fun c '(key, values) => update c key values) c updates)) as Hfold.
  { induction updates as [|[key values] l IH]; intros c Hc; [done|]. simpl. by apply IH, update_inverse. }
  apply Hfold, new_inverse.
Qed.
End Cache.

(** ** Followers of a pod *)

Section Pod.
Context `{K : Kubernetes}.

(** A visitor that always goes on visits every item. *)
Definition goes_on {A S} (visit : A -> S -> S * bool) (f : A -> S -> S) : Prop := forall x s, visit x s = (f x s, true).

Lemma visitEach_all {A S} (visit : A -> S -> S * bool) f l s : goes_on visit f ->
  visitEach visit l s = (foldl (fun s x => f x s) s l, true).
Proof using Type. intros Hv. revert s. induction l as [|x l IH]; intros s; simpl; [done|]. rewrite Hv. apply IH. Qed.
(** The first source of a volume that is set. *)
Definition first_set {A} (sources : list (option (list A))) : list A :=
  default [] (foldr (fun source rest => match source with Some l => Some l | None => rest end) None sources).

Definition volume_secrets (v : VolumeSource) : list string := first_set
  [(fun n => [n]) <$> AzureFile v; option_list <$> CephFS v; option_list <$> Cinder v; option_list <$> FlexVolume v;
   omap proj_Secret <$> Projected v; option_list <$> RBD v; (fun n => [n]) <$> vs_Secret v; option_list <$> ScaleIO v;
   option_list <$> ISCSI v; option_list <$> StorageOS v; option_list <$> CSI v].
Definition volume_configmaps (v : VolumeSource) : list string := first_set
  [omap proj_ConfigMap <$> Projected v; (fun n => [n]) <$> vs_ConfigMap v].

Definition container_secrets (c : Container) : list string :=
  omap SecretRef (con_EnvFrom c) ++ omap (fun e => ks_Name <$> (ev_ValueFrom e ≫= SecretKeyRef)) (default [] (con_Env c)).
Definition container_configmaps (c : Container) : list string :=
  omap ConfigMapRef (con_EnvFrom c) ++
  omap (fun e => ks_Name <$> (ev_ValueFrom e ≫= ConfigMapKeyRef)) (default [] (con_Env c)).

Definition all_containers (p : PodSpec) : list Container :=
  ps_InitContainers p ++ ps_Containers p ++ ps_EphemeralContainers p.

(** The names that a pod refers to, in the order of the visit. *)
Definition pod_secrets (p : PodSpec) : list string :=
  ps_ImagePullSecrets p ++ flat_map container_secrets (all_containers p) ++ flat_map volume_secrets (ps_Volumes p).
Definition pod_configmaps (p : PodSpec) : list string :=
  flat_map container_configmaps (all_containers p) ++ flat_map volume_configmaps (ps_Volumes p).

Section Visits.
Context {S : Type} (visitor : Visitor (S := S)) (f : string -> S -> S).
Hypothesis Hvisitor : goes_on visitor f.

Definition visit_names (names : list string) (s : S) : S := foldl (fun s n => f n s) s names.

Lemma visit_names_app l1 l2 s : visit_names (l1 ++ l2) s = visit_names l2 (visit_names l1 s).
Proof using Type. apply foldl_app. Qed.

Lemma visitOptional_all n : goes_on (fun _ : unit => visitOptional visitor n) (fun _ => visit_names (option_list n)).
Proof using Hvisitor. intros _ s. destruct n; simpl; [apply Hvisitor|done]. Qed.

(** Visiting the names that each item has. *)
Lemma visitEach_names {A} (visit : A -> S -> S * bool) (names : A -> list string) l s :
  (forall x s, visit x s = (visit_names (names x) s, true)) ->
  visitEach visit l s = (visit_names (flat_map names l) s, true).
Proof using Type.
  intros Hv. revert s. induction l as [|x l IH]; intros s; simpl; [done|]. by rewrite Hv, visit_names_app.
Qed.

Lemma visitEach_optional {A} (name : A -> option string) l s :
  visitEach (fun x => visitOptional visitor (name x)) l s = (visit_names (omap name l) s, true).
Proof using Hvisitor.
  rewrite (visitEach_names _ (fun x => option_list (name x))).
  - do 2 f_equal. induction l as [|x l IH]; simpl; [done|]. rewrite IH. by destruct (name x).
  - intros x s'. apply (visitOptional_all (name x) tt).
Qed.

Lemma VisitContainers_names p (visit : Container -> S -> S * bool) names s :
  (forall c s, visit c s = (visit_names (names c) s, true)) ->
  VisitContainers p AllContainers (fun c _ => visit c) s = (visit_names (flat_map names (all_containers p)) s, true).
Proof using Type.
  intros Hv. unfold VisitContainers, all_containers.
  replace (Z.land AllContainers Follower.InitContainers =? 0) with false by reflexivity.
  replace (Z.land AllContainers Follower.Containers =? 0) with false by reflexivity.
  replace (Z.land AllContainers EphemeralContainers =? 0) with false by reflexivity. cbn [negb].
  rewrite (visitEach_names visit names) by done. cbn [negb]. rewrite (visitEach_names visit names) by done. cbn [negb].
  rewrite (visitEach_names visit names) by done. by rewrite !flat_map_app, !visit_names_app.
Qed.

Lemma visitContainerSecretNames_all c s :
  visitContainerSecretNames c visitor s = (visit_names (container_secrets c) s, true).
Proof using Hvisitor.
  unfold visitContainerSecretNames, container_secrets. rewrite visitEach_optional. cbn [negb].
  by rewrite visitEach_optional, visit_names_app.
Qed.
Lemma visitContainerConfigmapNames_all c s :
  visitContainerConfigmapNames c visitor s = (visit_names (container_configmaps c) s, true).
Proof using Hvisitor.
  unfold visitContainerConfigmapNames, container_configmaps. rewrite visitEach_optional. cbn [negb].
  by rewrite visitEach_optional, visit_names_app.
Qed.

(** Empty names have no effect. *)
Hypothesis Hempty : forall s, f "" s = s.

Lemma visitVolumeSecretNames_all v s :
  visitVolumeSecretNames v visitor s = (visit_names (volume_secrets v) s, true).
Proof using Hvisitor Hempty.
  unfold visitVolumeSecretNames, volume_secrets, first_set.
  assert (forall n, visitOptional visitor n s = (visit_names (option_list n) s, true)) as Hopt
    by (intros n; apply (visitOptional_all n tt)).
  destruct (AzureFile v) as [n|]; simpl.
  { destruct (String.eqb_spec n "") as [->|]; simpl; [by rewrite Hempty|apply Hvisitor]. }
  do 3 (match goal with |- context [match ?x with Some secretRef => visitOptional _ _ _ | None => _ end] =>
          destruct x as [n|]; simpl; [apply Hopt|] end).
  destruct (Projected v) as [l|]; simpl; [apply visitEach_optional|].
  destruct (RBD v) as [n|]; simpl; [apply Hopt|].
  destruct (vs_Secret v) as [n|]; simpl; [apply Hvisitor|].
  do 4 (match goal with |- context [match ?x with Some secretRef => visitOptional _ _ _ | None => _ end] =>
          destruct x as [n|]; simpl; [apply Hopt|] end).
  done.
Qed.

Lemma visitVolumeConfigmapNames_all v s :
  visitVolumeConfigmapNames v visitor s = (visit_names (volume_configmaps v) s, true).
Proof using Hvisitor.
  unfold visitVolumeConfigmapNames, volume_configmaps, first_set.
  destruct (Projected v) as [l|]; simpl; [apply visitEach_optional|].
  destruct (vs_ConfigMap v) as [n|]; simpl; [apply Hvisitor|done].
Qed.
End Visits.

(** The effect of a visitor that goes on, without empty names. *)
Definition skipping {S} (f : string -> S -> S) : string -> S -> S := fun n s => if String.eqb n "" then s else f n s.

Lemma skipEmptyNames_goes_on {S} (visitor : Visitor (S := S)) f : goes_on visitor f ->
  goes_on (skipEmptyNames visitor) (skipping f).
Proof using Type. intros Hv n s. unfold skipEmptyNames, skipping. by destruct (String.eqb n ""). Qed.

Lemma VisitPodSecretNames_all {S} (visitor : Visitor (S := S)) f p s : goes_on visitor f ->
  VisitPodSecretNames p visitor s = (visit_names (skipping f) (pod_secrets p) s, true).
Proof using Type.
  intros Hv%skipEmptyNames_goes_on. unfold VisitPodSecretNames, pod_secrets. cbv zeta.
  rewrite (visitEach_all _ _ _ _ Hv). cbn [negb].
  rewrite (VisitContainers_names (skipping f) p _ container_secrets) by (intros c s'; by apply visitContainerSecretNames_all).
  rewrite (visitEach_names (skipping f) _ volume_secrets) by (intros v s'; by apply visitVolumeSecretNames_all).
  by rewrite !visit_names_app.
Qed.

Lemma VisitPodConfigmapNames_all {S} (visitor : Visitor (S := S)) f p s : goes_on visitor f ->
  VisitPodConfigmapNames p visitor s = (visit_names (skipping f) (pod_configmaps p) s, true).
Proof using Type.
  intros Hv%skipEmptyNames_goes_on. unfold VisitPodConfigmapNames, pod_configmaps. cbv zeta.
  rewrite (VisitContainers_names (skipping f) p _ container_configmaps) by (intros c s'; by apply visitContainerConfigmapNames_all).
  rewrite (visitEach_names (skipping f) _ volume_configmaps) by (intros v s'; by apply visitVolumeConfigmapNames_all).
  by rewrite visit_names_app.
Qed.

(** ** References of a pod *)

Definition reference (kind namespace name : string) : FollowerReference :=
  {| fr_GroupKind := (""%string, kind); fr_Namespace := namespace; fr_Name := name |}.

Lemma visit_insert kind namespace names (s : gset FollowerReference) r :
  r ∈ visit_names (skipping (fun n s => {[reference kind namespace n]} ∪ s)) names s <->
  r ∈ s \/ exists n, n ∈ names /\ n <> ""%string /\ r = reference kind namespace n.
Proof using Type.
  revert s. induction names as [|n names IH]; intros s; simpl.
  - split; [auto|]. intros [H|(n & Hn & _)]; [done|by apply elem_of_nil in Hn].
  - rewrite IH. unfold skipping. setoid_rewrite elem_of_cons.
    destruct (String.eqb_spec n "") as [->|Hne]; rewrite ?elem_of_union, ?elem_of_singleton; naive_solver.
Qed.

(** The objects of its namespace that a pod refers to. *)
Inductive refers_to (namespace : string) (p : PodSpec) : FollowerReference -> Prop :=
  | refers_secret n : n ∈ pod_secrets p -> n <> ""%string -> refers_to namespace p (reference "Secret" namespace n)
  | refers_configmap n : n ∈ pod_configmaps p -> n <> ""%string -> refers_to namespace p (reference "ConfigMap" namespace n)
  | refers_claim n v : v ∈ ps_Volumes p -> PersistentVolumeClaim v = Some n ->
      refers_to namespace p (reference "PersistentVolumeClaim" namespace n)
  | refers_account : ps_ServiceAccountName p <> ""%string ->
      refers_to namespace p (reference "ServiceAccount" namespace (ps_ServiceAccountName p)).

(** The followers of a pod are the secrets and config maps that its pull
    secrets, containers of every kind and volumes name, its volume claims and its
    service account, all in the namespace of the leader. *)
Theorem getFollowersFromPod_spec namespace p r : r ∈ getFollowersFromPod namespace p <-> refers_to namespace p r.
Proof using Type.
  unfold getFollowersFromPod.
  rewrite (VisitPodSecretNames_all _ (fun n s => {[reference "Secret" namespace n]} ∪ s)) by done.
  rewrite (VisitPodConfigmapNames_all _ (fun n s => {[reference "ConfigMap" namespace n]} ∪ s)) by done.
  set (s1 := visit_names _ (pod_configmaps p) _).
  assert (r ∈ s1 <-> (exists n, n ∈ pod_secrets p /\ n <> ""%string /\ r = reference "Secret" namespace n) \/
    exists n, n ∈ pod_configmaps p /\ n <> ""%string /\ r = reference "ConfigMap" namespace n) as Hs1.
  { unfold s1. rewrite !visit_insert. set_solver. }
  clearbody s1.
  assert (forall l s, r ∈ foldl (fun followers vol =>
      match PersistentVolumeClaim vol with
      | Some claimName => (insertFollower "PersistentVolumeClaim" namespace claimName followers).1
      | None => followers
      end) s l <-> r ∈ s \/ exists n v, v ∈ l /\ PersistentVolumeClaim v = Some n /\
      r = reference "PersistentVolumeClaim" namespace n) as Hvol.
  { induction l as [|v l IH]; intros s; simpl.
    - split; [auto|]. intros [H|(n & v & Hv & _)]; [done|by apply elem_of_nil in Hv].
    - rewrite IH. setoid_rewrite elem_of_cons.
      destruct (PersistentVolumeClaim v) as [n|] eqn:E; simpl; rewrite ?elem_of_union, ?elem_of_singleton; naive_solver. }
  destruct (String.eqb_spec (ps_ServiceAccountName p) "") as [Ha|Ha]; simpl;
    rewrite ?elem_of_union, ?elem_of_singleton, Hvol, Hs1.
  - split; [intros H; destruct_or? H; destruct_and?; naive_solver eauto using refers_to|].
    intros H. destruct H; naive_solver.
  - split; [|intros H; destruct H; naive_solver].
    intros H. naive_solver eauto using refers_to.
Qed.
End Pod.

(** ** Leaders *)

Section Leaders.
Context `{K : Kubernetes} `{R : GoRuntime} `{C : !Codecs} `{T : SetsRuntime} `{F : FollowerCodecs}.
Variable e : FollowerEnvironment.
Hypothesis Hlister : forall n, fe_ListerError e n = None.
Implicit Types (s : FollowerState) (l : LeaderReference) (o : FederatedObject).

Notation fol_me := follower_controller.

Lemma read_store s n : fol_GetFromLister e s n = match fs_store s !! n with Some o => inl o | None => inr NotFound end.
Proof using Hlister. unfold fol_GetFromLister. by rewrite Hlister. Qed.

(** The federated object of a leader. *)
Definition leader_name s l : option QualifiedName :=
  (fun ftcName => {| qn_Namespace := lr_Namespace l; qn_Name := GenerateFederatedObjectName (lr_Name l) ftcName |}) <$>
    (gkToFTCName s !! LeaderReference_GroupKind l).
Definition leader_object s l : option FederatedObject := leader_name s l ≫= (fun n => fs_store s !! n).

(** Leaders of a kind that the controller knows. *)
Definition known_leader s l : Prop :=
  is_Some (leaderPodSpecPaths !! LeaderReference_GroupKind l) /\ is_Some (gkToFTCName s !! LeaderReference_GroupKind l).

Definition leader_placements s l : gset string :=
  match leader_object s l with Some o => GetPlacementUnion (fo_Spec o) | None => ∅ end.

Lemma getLeaderObj_known s l : known_leader s l -> getLeaderObj e s l = inl (leader_object s l).
Proof using Hlister.
  intros [[path Hp] [ftc Hf]]. unfold getLeaderObj, leader_object, leader_name. rewrite Hp, Hf. simpl.
  rewrite read_store. by destruct (fs_store s !! _).
Qed.

Lemma leaderPlacementUnion_known s leaders : (forall l, l ∈ leaders -> known_leader s l) ->
  exists u, leaderPlacementUnion e s leaders = inl u /\
    forall n, n ∈ u <-> exists l, l ∈ leaders /\ n ∈ leader_placements s l.
Proof using Hlister.
  intros Hknown. unfold leaderPlacementUnion.
  assert (forall acc, exists u, foldl_error (fun clusters leader =>
    bind_error (getLeaderObj e s leader) (fun leaderObjWithPlacement =>
    match leaderObjWithPlacement with
    | None => inl clusters
    | Some o => inl (GetPlacementUnion (fo_Spec o) ∪ clusters)
    end)) acc leaders = inl u /\ forall n, n ∈ u <-> n ∈ acc \/ exists l, l ∈ leaders /\ n ∈ leader_placements s l) as Hfold.
  2: { destruct (Hfold ∅) as (u & Hu & Hn). exists u. split; [done|]. intros n. rewrite Hn. set_solver. }
  induction leaders as [|l leaders IH]; intros acc; simpl.
  - exists acc. split; [done|]. intros n. split; [auto|]. intros [H|(l & Hl & _)]; [done|by apply elem_of_nil in Hl].
  - rewrite getLeaderObj_known by (apply Hknown; left). simpl.
    destruct (IH (fun l' Hl' => Hknown l' (list_elem_of_further _ _ _ Hl')) (leader_placements s l ∪ acc)) as (u & Hu & Hn).
    exists u. split.
    + unfold leader_placements in Hu. destruct (leader_object s l); simpl; [done|].
      assert (∅ ∪ acc = acc) as E by set_solver. by rewrite E in Hu.
    + intros n. rewrite Hn. setoid_rewrite elem_of_cons. rewrite elem_of_union. naive_solver.
Qed.

(** ** Changes to the store *)

(** Placements of leaders are read from the store. *)
Lemma leader_placements_store s store l :
  (forall n, GetPlacementUnion ∘ fo_Spec <$> (store !! n) = GetPlacementUnion ∘ fo_Spec <$> (fs_store s !! n)) ->
  leader_placements (with_store s store) l = leader_placements s l.
Proof using Type.
  intros Hst. unfold leader_placements, leader_object, leader_name, with_store. cbn [gkToFTCName fs_store].
  destruct (gkToFTCName s !! _) as [ftc|]; [|done]. simpl.
  match goal with |- context [store !! ?n] => specialize (Hst n) end.
  destruct (store !! _), (fs_store s !! _); simpl in Hst; congruence.
Qed.

Lemma leader_placements_other s1 s2 name l : gkToFTCName s1 = gkToFTCName s2 -> leader_name s2 l <> Some name ->
  (forall n, n <> name -> fs_store s1 !! n = fs_store s2 !! n) -> leader_placements s1 l = leader_placements s2 l.
Proof using Type.
  intros Hftc Hl Hst. unfold leader_placements, leader_object.
  assert (leader_name s1 l = leader_name s2 l) as -> by (unfold leader_name; by rewrite Hftc).
  destruct (leader_name s2 l) as [n|]; simpl; [|done]. rewrite Hst; [done|congruence].
Qed.

#[local] Instance GenericFederatedObjectSpec_eq_dec : EqDecision GenericFederatedObjectSpec.
Proof. solve_decision. Defined.

Record updated_follower s (name : QualifiedName) o (leaders : gset LeaderReference) (s' : FollowerState)
    (sent : option FederatedObject) (o' : FederatedObject) : Prop := {
  uf_state : s' = with_store s (<[name := o']> (fs_store s));
  uf_follows : list_to_set (Follows (fo_Spec o')) = leaders;
  uf_placed : forall n, n ∈ cref_Cluster <$> GetControllerPlacement (fo_Spec o') fol_me <->
                exists l, l ∈ leaders /\ n ∈ leader_placements s l;
  uf_again : forall u, (forall n, n ∈ u <-> exists l, l ∈ leaders /\ n ∈ leader_placements s l) ->
             SetControllerPlacement (fo_Spec o') fol_me (UnsortedList u) = (fo_Spec o', false);
  uf_others : forall c, c <> fol_me -> GetControllerPlacement (fo_Spec o') c = GetControllerPlacement (fo_Spec o) c;
  uf_object : o' = setSpec o (fo_Spec o') /\ Template (fo_Spec o') = Template (fo_Spec o) /\
              Overrides (fo_Spec o') = Overrides (fo_Spec o);
  uf_sent : match sent with Some x => x = o' /\ o' <> o | None => o' = o end
}.

(** The follower that [updateFollower] leaves in the store. *)
Lemma updateFollower_spec s name o (leaders : gset LeaderReference) :
  fs_store s !! name = Some o -> NoDup (pwc_Controller <$> Placements (fo_Spec o)) ->
  (forall l, l ∈ leaders -> known_leader s l) ->
  exists s' sent o', updated_follower s name o leaders s' sent o' /\
    updateFollower e s name o (negb (bool_decide (leaders = list_to_set (Follows (fo_Spec o))))) (UnsortedList leaders) =
      (s', sent, match sent with
                 | None => inl false
                 | Some x => match fe_Update e x with Some err => inr (inr err) | None => inl true end
                 end).
Proof using Hlister.
  intros Hst Hnd Hknown. unfold updateFollower.
  set (changed := negb _). set (o1 := if changed then _ else _).
  assert (Placements (fo_Spec o1) = Placements (fo_Spec o) /\ list_to_set (Follows (fo_Spec o1)) = leaders /\
    o1 = setSpec o (fo_Spec o1) /\ Template (fo_Spec o1) = Template (fo_Spec o) /\
    Overrides (fo_Spec o1) = Overrides (fo_Spec o) /\ if changed then leaders <> list_to_set (Follows (fo_Spec o)) else o1 = o) as (Hpl & Hfol & Hobj & Ht & Hov & Hch).
  { unfold o1, changed. case_bool_decide as Heq; simpl.
    - split_and!; [done|by rewrite Heq|by destruct o|done..].
    - split_and!; try done. apply leibniz_equiv. intros l. by rewrite elem_of_list_to_set, elem_of_UnsortedList. }
  clearbody o1. clearbody changed. cbv zeta.
  set (s1 := with_store s (<[name := o1]> (fs_store s))).
  assert (forall l, leader_placements s1 l = leader_placements s l) as Hlp.
  { intros l. apply leader_placements_store. intros n. destruct (decide (n = name)) as [->|Hne].
    - rewrite lookup_insert_eq, Hst. simpl. unfold GetPlacementUnion. by rewrite Hpl.
    - by rewrite lookup_insert_ne. }
  destruct (leaderPlacementUnion_known s1 (UnsortedList leaders)) as (u & -> & Hu).
  { intros l Hl. apply elem_of_UnsortedList in Hl. by apply Hknown. }
  pose proof (SetControllerPlacement_placed fol_me (UnsortedList u) (fo_Spec o1)) as Hplaced. rewrite Hpl in Hplaced.
  specialize (Hplaced Hnd). destruct (SetControllerPlacement _ _ _) as [spec placementsChanged].
  destruct Hplaced as [Hget Hothers Hframe Hpc Hagain].
  assert (with_store s1 (<[name := setSpec o1 spec]> (fs_store s1)) =
    with_store s (<[name := setSpec o1 spec]> (fs_store s))) as ->.
  { unfold s1, with_store. cbn [gkToFTCName cacheObservedFromLeaders cacheObservedFromFollowers fs_store].
    by rewrite insert_insert_eq. }
  assert (forall sent, (match sent with Some x => x = setSpec o1 spec /\ setSpec o1 spec <> o | None => setSpec o1 spec = o end) ->
    updated_follower s name o leaders (with_store s (<[name := setSpec o1 spec]> (fs_store s))) sent (setSpec o1 spec)) as Hup.
  { intros sent Hsent. split; try done.
    - cbn [fo_Spec setSpec]. rewrite <- Hfol. f_equal. by rewrite <- Hframe.
    - intros n. cbn [fo_Spec setSpec]. rewrite Hget, sortedRefs_names, elem_of_UnsortedList, Hu.
      setoid_rewrite elem_of_UnsortedList. by setoid_rewrite Hlp.
    - intros u' Hu'. cbn [fo_Spec setSpec]. apply Hagain. assert (u' = u) as -> by
        (apply leibniz_equiv; intros n; rewrite Hu', Hu; setoid_rewrite elem_of_UnsortedList; by setoid_rewrite Hlp). done.
    - intros c Hc. cbn [fo_Spec setSpec]. rewrite Hothers by done. unfold GetControllerPlacement. by rewrite Hpl.
    - cbn [fo_Spec setSpec]. rewrite Hobj. split; [done|]. rewrite <- Ht, <- Hov, <- Hframe. done. }
  assert (setSpec o1 (fo_Spec o1) = o1) as Heta by (by destruct o1).
  assert (changed = true -> setSpec o1 spec <> o) as Hfollows.
  { intros -> E. apply Hch. rewrite <- Hfol, <- E. cbn [fo_Spec setSpec]. f_equal. by rewrite <- Hframe. }
  destruct (changed || placementsChanged) eqn:Eor.
  - eexists _, (Some (setSpec o1 spec)), _. split; [apply Hup; split; [done|]|by destruct (fe_Update e _)].
    destruct changed; [by apply Hfollows|]. subst o1. intros E. simpl in Eor. apply (proj1 Hpc Eor).
    by apply (f_equal fo_Spec) in E.
  - apply orb_false_iff in Eor as [-> ->]. eexists _, None, _. split; [apply Hup|done]. subst o1.
    destruct (decide (spec = fo_Spec o)) as [->|Hne]; [done|]. by apply Hpc in Hne.
Qed.

(** ** Reconciliation of a follower *)

Definition follower_of (key : objectGroupKindKey) : FollowerReference :=
  {| fr_GroupKind := ok_sourceGK key; fr_Namespace := ok_namespace key; fr_Name := ok_sourceName key |}.

Definition following_disabled o : bool :=
  String.eqb (default ""%string (fo_Annotations o !! DisableFollowingAnnotation)) AnnotationValueTrue.

(** The leaders that a follower should have, by the cache. *)
Definition desired_leaders s o (f : FollowerReference) : gset LeaderReference :=
  if following_disabled o then ∅ else reverseLookup (cacheObservedFromLeaders s) f.

(** The state in which a follower is updated. *)
Definition observed s (key : objectGroupKindKey) o : FollowerState :=
  with_followers s (update (cacheObservedFromFollowers s) (follower_of key) (list_to_set (Follows (fo_Spec o)))).

Definition update_result (sent : option FederatedObject) : WorkerResult :=
  match sent ≫= fe_Update e with
  | None => StatusAllOK
  | Some err => if IsConflict err then StatusConflict else StatusError
  end.

(** A follower that the controller may reconcile. *)
Record followable s (key : objectGroupKindKey) o : Prop := {
  fl_stored : fs_store s !! key_name key = Some o;
  fl_once : NoDup (pwc_Controller <$> Placements (fo_Spec o));
  fl_known : forall l, l ∈ desired_leaders s o (follower_of key) -> known_leader s l
}.

Lemma reconcileFollower_spec s key o : followable s key o ->
  exists s' sent o',
    updated_follower (observed s key o) (key_name key) o (desired_leaders s o (follower_of key)) s' sent o' /\
    reconcileFollower e s key = (s', {| fo_result := update_result sent; fo_sent := sent; fo_enqueued := [] |}).
Proof using Hlister.
  intros [Hst Hnd Hknown]. unfold reconcileFollower. rewrite read_store, Hst. cbv zeta.
  fold (follower_of key) (following_disabled o) (observed s key o).
  change (reverseLookup (cacheObservedFromLeaders (observed s key o)) (follower_of key)) with
    (reverseLookup (cacheObservedFromLeaders s) (follower_of key)).
  fold (desired_leaders s o (follower_of key)).
  destruct (updateFollower_spec (observed s key o) (key_name key) o (desired_leaders s o (follower_of key)) Hst Hnd Hknown)
    as (s' & sent & o' & Hup & ->).
  exists s', sent, o'. split; [done|]. unfold update_result.
  destruct sent as [x|]; simpl; [|done]. by destruct (fe_Update e x).
Qed.

Lemma updated_lookup s name o leaders s' sent o' : updated_follower s name o leaders s' sent o' ->
  fs_store s' !! name = Some o' /\ cacheObservedFromLeaders s' = cacheObservedFromLeaders s /\
  gkToFTCName s' = gkToFTCName s /\ fo_Annotations o' = fo_Annotations o.
Proof using Type.
  intros [-> _ _ _ _ (Ho & _) _]. split_and!; try done; [apply lookup_insert_eq|by rewrite Ho].
Qed.

(** Once a follower was reconciled, its object in the store is as it should be,
    whatever the API server said: reconciling it again sends nothing. *)
Lemma reconcileFollower_again s key o s1 out : followable s key o ->
  (forall l, l ∈ desired_leaders s o (follower_of key) -> leader_name s l <> Some (key_name key)) ->
  reconcileFollower e s key = (s1, out) ->
  exists s2, reconcileFollower e s1 key = (s2, finished StatusAllOK).
Proof using Hlister.
  intros Hf Hself Hrun. destruct (reconcileFollower_spec s key o Hf) as (s' & sent & o' & Hup & E).
  rewrite E in Hrun. injection Hrun as <- _.
  destruct (updated_lookup _ _ _ _ _ _ _ Hup) as (Hst' & Hcache & Hftc & Hann).
  assert (desired_leaders s' o' (follower_of key) = desired_leaders s o (follower_of key)) as Hdes.
  { unfold desired_leaders, following_disabled. by rewrite Hann, Hcache. }
  assert (forall l, known_leader s l -> known_leader s' l) as Hknown by (intros l; unfold known_leader; by rewrite Hftc).
  unfold reconcileFollower. rewrite read_store, Hst'. cbv zeta.
  fold (follower_of key) (following_disabled o') (observed s' key o').
  change (reverseLookup (cacheObservedFromLeaders (observed s' key o')) (follower_of key)) with
    (reverseLookup (cacheObservedFromLeaders s') (follower_of key)).
  fold (desired_leaders s' o' (follower_of key)). rewrite Hdes, (uf_follows _ _ _ _ _ _ _ Hup).
  rewrite bool_decide_eq_true_2 by done. unfold updateFollower. cbn [negb].
  set (s2 := with_store _ _).
  destruct (leaderPlacementUnion_known s2 (UnsortedList (desired_leaders s o (follower_of key)))) as (u & -> & Hu).
  { intros l Hl%elem_of_UnsortedList. apply (Hknown l), (fl_known _ _ _ Hf), Hl. }
  rewrite (uf_again _ _ _ _ _ _ _ Hup); [eexists; reflexivity|].
  intros n. rewrite Hu. setoid_rewrite elem_of_UnsortedList.
  assert (forall l, l ∈ desired_leaders s o (follower_of key) ->
    leader_placements s2 l = leader_placements (observed s key o) l) as Hlp; [|by split; intros (l & Hl & Hn);
    exists l; [rewrite <- Hlp|rewrite Hlp]].
  intros l Hl. apply (leader_placements_other _ _ (key_name key)); [by rewrite <- Hftc|by apply Hself|].
  intros n' Hn'. unfold s2. cbn [fs_store with_store observed with_followers]. rewrite lookup_insert_ne by done.
  rewrite (uf_state _ _ _ _ _ _ _ Hup). cbn [fs_store with_store]. by rewrite lookup_insert_ne.
Qed.

(** ** Reconciliation of leaders *)

(** The followers that a leader has by its object. *)
Definition inferred s l : gset FollowerReference :=
  match leaderPodSpecPaths !! LeaderReference_GroupKind l, leader_object s l with
  | Some _, Some o => match inferFollowers (LeaderReference_GroupKind l) o with inl followers => followers | inr _ => ∅ end
  | _, _ => ∅
  end.

Definition leader_key s l : objectGroupKindKey := {|
  ok_sourceGK := LeaderReference_GroupKind l; ok_namespace := lr_Namespace l; ok_sourceName := lr_Name l;
  ok_fedName := match leader_name s l with Some n => qn_Name n | None => "" end |}.

Record leading s l : Prop := {
  le_known : known_leader s l;
  le_inferred : forall o, leader_object s l = Some o ->
    exists followers, inferFollowers (LeaderReference_GroupKind l) o = inl followers
}.

Lemma reconcile_leader s l : leading s l -> exists enqueued,
  reconcile e s (leader_key s l) =
    (with_leaders s (update (cacheObservedFromLeaders s) l (inferred s l)),
     {| fo_result := StatusAllOK; fo_sent := None; fo_enqueued := enqueued |}).
Proof using Hlister.
  intros [[[path Hp] [ftc Hf]] Hinf]. unfold reconcile. cbn [ok_sourceGK leader_key].
  rewrite bool_decide_eq_true_2 by (by eexists). unfold reconcileLeader, inferred, leader_object in *. rewrite Hp.
  assert (leader_name s l = Some (key_name (leader_key s l))) as Hname by (unfold leader_key, leader_name; by rewrite Hf).
  rewrite read_store, Hname in *. cbn [mbind option_bind] in Hinf. cbv zeta.
  assert ({| lr_Group := (ok_sourceGK (leader_key s l)).1; lr_Kind := (ok_sourceGK (leader_key s l)).2;
             lr_Namespace := ok_namespace (leader_key s l); lr_Name := ok_sourceName (leader_key s l) |} = l) as ->
    by (by destruct l).
  cbn [mbind option_bind]. destruct (fs_store s !! key_name (leader_key s l)) as [o|]; [|by eexists].
  cbn [ok_sourceGK leader_key]. destruct (Hinf o eq_refl) as [followers ->]. by eexists.
Qed.

(** All leaders of a queue. *)
Definition reconcileLeaders s (leaders : list LeaderReference) : FollowerState :=
  foldl (fun s l => (reconcile e s (leader_key s l)).1) s leaders.

Lemma reconcileLeaders_spec leaders s : (forall l, l ∈ leaders -> leading s l) -> inverse (cacheObservedFromLeaders s) ->
  exists c, reconcileLeaders s leaders = with_leaders s c /\ inverse c /\
    forall l, lookup c l = if decide (l ∈ leaders) then inferred s l else lookup (cacheObservedFromLeaders s) l.
Proof using Hlister.
  revert s. induction leaders as [|l leaders IH]; intros s Hlead Hinv.
  - exists (cacheObservedFromLeaders s). split_and!; [by destruct s|done|]. intros l.
    destruct (decide (l ∈ [])) as [Hl|]; [by apply elem_of_nil in Hl|done].
  - unfold reconcileLeaders. cbn [foldl]. destruct (reconcile_leader s l) as [enqueued ->]; [apply Hlead; left|]. cbn [fst].
    set (s1 := with_leaders s _). destruct (IH s1) as (c & Hc & Hci & Hlook).
    + intros l' Hl'. destruct (Hlead l' (list_elem_of_further _ _ _ Hl')) as [Hk Hi]. by split.
    + by apply update_inverse.
    + exists c. split_and!; [exact Hc|done|]. intros l'. rewrite Hlook. change (inferred s1 l') with (inferred s l').
      cbn [s1 with_leaders cacheObservedFromLeaders]. rewrite lookup_update.
      destruct (decide (l' ∈ leaders)) as [Hin|Hnot]; [by rewrite decide_True by (by right)|].
      destruct (decide (l' = l)) as [->|Hne]; [by rewrite decide_True by left|].
      rewrite decide_False; [done|]. rewrite elem_of_cons. by intros [?|?].
Qed.

(** ** Every state that the controller reaches *)

Inductive reachable : FollowerState -> Prop :=
  | reachable_start store : reachable {| gkToFTCName := ∅; cacheObservedFromLeaders := newBidirectionalCache;
      cacheObservedFromFollowers := newBidirectionalCache; fs_store := store |}
  | reachable_reconcile s key : reachable s -> reachable (reconcile e s key).1
  | reachable_ftc s latest : reachable s -> reachable (onFTCUpdate s latest)
  | reachable_watch s store : reachable s -> reachable (with_store s store).

Lemma updateFollower_caches s name o changed leaders : let s' := (updateFollower e s name o changed leaders).1.1 in
  cacheObservedFromLeaders s' = cacheObservedFromLeaders s /\ cacheObservedFromFollowers s' = cacheObservedFromFollowers s.
Proof using Type.
  cbv zeta. unfold updateFollower. cbv zeta. destruct (leaderPlacementUnion _ _ _); [|done].
  destruct (SetControllerPlacement _ _ _). destruct (_ || _); [|done]. by destruct (fe_Update _ _).
Qed.

Lemma reachable_inverse s : reachable s ->
  inverse (cacheObservedFromLeaders s) /\ inverse (cacheObservedFromFollowers s).
Proof using Type.
  induction 1 as [store|s key _ [IH1 IH2]|s [ftc|] _ IH|s store _ IH]; try done.
  unfold reconcile. case_bool_decide.
  - unfold reconcileLeader. destruct (fol_GetFromLister _ _ _) as [o|err]; [destruct (inferFollowers _ _)|destruct (negb _)];
      simpl; split; try done; by apply update_inverse.
  - destruct (isHPAType _ _ _); [|done]. destruct (_ || _); [|done]. unfold reconcileFollower.
    destruct (fol_GetFromLister _ _ _) as [o|err].
    + cbv zeta. match goal with |- context [updateFollower ?e ?s ?n ?o ?b ?l] =>
        pose proof (updateFollower_caches s n o b l) as Hc; destruct (updateFollower e s n o b l) as [[s' sent] res] end.
      simpl in Hc |- *. destruct Hc as [-> ->]. split; [done|]. by apply update_inverse.
    + destruct (negb _); simpl; split; try done. by apply update_inverse.
Qed.

(** A kind that the controller reconciles as a follower. *)
Definition follower_kind s (gk : GroupKind) : Prop :=
  leaderPodSpecPaths !! gk = None /\
  exists isHPA, isHPAType e s gk = inl isHPA /\ (gk ∈ supportedFollowerTypes \/ isHPA = true).

Lemma reconcile_follower s key : follower_kind s (ok_sourceGK key) -> reconcile e s key = reconcileFollower e s key.
Proof using Type.
  intros (Hno & isHPA & Hhpa & Hkind). unfold reconcile. rewrite Hno, bool_decide_eq_false_2 by by intros [].
  rewrite Hhpa. destruct isHPA; [by rewrite orb_true_r|]. destruct Hkind as [Hkind|]; [|done].
  by rewrite bool_decide_eq_true_2.
Qed.

(** C25. Once every leader that names a follower, by its object or by what the
    cache holds, has been reconciled, the reconciliation of the follower makes it
    follow exactly the leaders whose objects name it, and places it exactly where
    they are placed by any controller, or nowhere when following is disabled; the
    placements of other controllers are kept. *)
Theorem follower_follows s leaders key o : reachable s ->
  (forall l, l ∈ leaders -> leading s l) ->
  (forall l, follower_of key ∈ lookup (cacheObservedFromLeaders s) l \/ follower_of key ∈ inferred s l -> l ∈ leaders) ->
  follower_kind s (ok_sourceGK key) ->
  fs_store s !! key_name key = Some o -> NoDup (pwc_Controller <$> Placements (fo_Spec o)) ->
  let follows l := following_disabled o = false /\ follower_of key ∈ inferred s l in
  exists s' out o', reconcile e (reconcileLeaders s leaders) key = (s', out) /\
    fs_store s' !! key_name key = Some o' /\
    (forall l, l ∈ Follows (fo_Spec o') <-> follows l) /\
    (forall n, n ∈ cref_Cluster <$> GetControllerPlacement (fo_Spec o') fol_me <->
       exists l leader, follows l /\ leader_object s l = Some leader /\ n ∈ GetPlacementUnion (fo_Spec leader)) /\
    (forall c, c <> fol_me -> GetControllerPlacement (fo_Spec o') c = GetControllerPlacement (fo_Spec o) c) /\
    match fo_sent out with Some sent => sent = o' /\ o' <> o | None => o' = o end.
Proof using Hlister.
  intros [Hinv _]%reachable_inverse Hlead Hall Hkind Hst Hnd. cbv zeta.
  destruct (reconcileLeaders_spec leaders s Hlead Hinv) as (c & -> & Hci & Hlook).
  rewrite reconcile_follower by exact Hkind.
  assert (forall l, l ∈ desired_leaders (with_leaders s c) o (follower_of key) <->
    following_disabled o = false /\ follower_of key ∈ inferred s l) as Hdes.
  { intros l. unfold desired_leaders. cbn [cacheObservedFromLeaders with_leaders].
    destruct (following_disabled o); [set_solver|]. rewrite (Hci l (follower_of key)), Hlook.
    destruct (decide (l ∈ leaders)) as [|Hn]; [tauto|]. split; intros H; [destruct Hn; apply Hall; tauto|].
    destruct H as [_ H]. destruct Hn. apply Hall. tauto. }
  assert (followable (with_leaders s c) key o) as Hfol.
  { split; [done..|]. intros l Hl%Hdes. destruct (Hlead l) as [Hk _]; [apply Hall; tauto|exact Hk]. }
  destruct (reconcileFollower_spec _ key o Hfol) as (s' & sent & o' & Hup & ->).
  destruct (updated_lookup _ _ _ _ _ _ _ Hup) as (Hst' & _). destruct Hup as [_ Hf Hp _ Ho _ Hsent].
  do 3 eexists. split; [done|]. split; [exact Hst'|]. split_and!; try done.
  - intros l. rewrite <- Hdes, <- Hf. by rewrite elem_of_list_to_set.
  - intros n. rewrite Hp. setoid_rewrite Hdes. unfold leader_placements.
    change (leader_object (observed (with_leaders s c) key o)) with (leader_object s).
    split.
    + intros (l & Hl & Hn). destruct (leader_object s l) as [lo|] eqn:E; [|set_solver]. by exists l, lo.
    + intros (l & lo & Hl & E & Hn). exists l. split; [done|]. by rewrite E.
Qed.

(** The outcome of a failed update is lost: the follower is changed in the
    store of the informer before it is sent, so whatever the API server answers,
    and also when the reconciliation reports the failure to be tried again, the
    next reconciliation finds nothing to do and reports success. *)
Theorem failed_update_lost s key o s1 o' result enqueued : follower_kind s (ok_sourceGK key) -> followable s key o ->
  (forall l, l ∈ desired_leaders s o (follower_of key) -> leader_name s l <> Some (key_name key)) ->
  reconcile e s key = (s1, {| fo_result := result; fo_sent := Some o'; fo_enqueued := enqueued |}) ->
  result = match fe_Update e o' with
           | Some err => if IsConflict err then StatusConflict else StatusError
           | None => StatusAllOK
           end /\
  exists s2, reconcile e s1 key = (s2, finished StatusAllOK).
Proof using Hlister.
  intros Hkind Hf Hself. rewrite reconcile_follower by done. intros Hrun.
  destruct (reconcileFollower_again s key o s1 _ Hf Hself Hrun) as (s2 & Hagain).
  destruct (reconcileFollower_spec s key o Hf) as (s' & sent & o1 & Hup & E). rewrite Hrun in E. injection E as -> -> <- ->.
  split; [done|]. exists s2. rewrite reconcile_follower; [done|].
  destruct (updated_lookup _ _ _ _ _ _ _ Hup) as (_ & _ & Hftc & _).
  unfold follower_kind, isHPAType. rewrite Hftc. exact Hkind.
Qed.
End Leaders.

(** ** Concrete inputs *)

Section Witnesses.
#[local] Existing Instance small_kubernetes.
#[local] Existing Instance small_runtime.

Definition web_template : Unstructured := {| uns_Object := list_to_map [
  ("apiVersion", VString "apps/v1"); ("kind", VString "Deployment");
  ("metadata", VMap (list_to_map [("name", VString "web"); ("namespace", VString "default")]));
  ("spec", VMap {[ "template"%string := VMap {[ "spec"%string := VMap ∅ ]} ]})]%string |}.

#[local] Instance fol_codecs : Codecs := table_codecs [web_template].
#[local] Instance elements_sets : SetsRuntime := {|
  UnsortedList := fun A _ _ x => elements x; UnsortedList_perm := fun A _ _ x => reflexivity (elements x) |}.
(** A list of one config map, written as its name. *)
#[local] Instance one_configmap : FollowerCodecs := {|
  Unmarshal_followers := fun s => inl [ {| fae_Group := ""; fae_Kind := ConfigMapKind; fae_Name := s |} ] |}.

(** A visitor that stops at the first secret, of a container, is called again
    for the secret of a volume. *)
Definition two_secrets : PodSpec := {|
  ps_Containers := [ {| con_Name := "c"; con_Image := "i"; con_Command := None; con_Args := None; con_Env := None;
    con_EnvFrom := [ {| SecretRef := Some "a"%string; ConfigMapRef := None |} ]; Requests := ∅; Limits := ∅ |} ];
  ps_InitContainers := []; ps_EphemeralContainers := []; ps_ImagePullSecrets := []; ps_ServiceAccountName := "";
  ps_Volumes := [ {| AzureFile := None; CephFS := None; Cinder := None; FlexVolume := None; Projected := None;
    RBD := None; vs_Secret := Some "b"%string; ScaleIO := None; ISCSI := None; StorageOS := None; CSI := None;
    vs_ConfigMap := None; PersistentVolumeClaim := None |} ];
  ps_Overhead := None |}.

Lemma stop_in_container_ignored :
  VisitPodSecretNames two_secrets (fun name seen => (seen ++ [name], false)) [] = (["a"; "b"]%string, false).
Proof. reflexivity. Qed.

Definition fed_object (name : string) (annotations : gmap string string) (template : string) (clusters : list string)
    : FederatedObject := {|
  fo_Namespace := "default"; fo_Name := name; fo_Labels := ∅; fo_Annotations := annotations;
  fo_OwnerReferences := []; fo_Generation := 1; fo_DeletionTimestamp := None; fo_Finalizers := [];
  fo_Spec := {| Template := template; Overrides := []; Follows := [];
    Placements := [ {| pwc_Controller := "scheduler"; Placement := (fun n => {| cref_Cluster := n |}) <$> clusters |} ] |};
  fo_Status := empty_status |}.

Definition web_leader : FederatedObject := fed_object "web-deployments.apps"
  (list_to_map [(EnableFollowerSchedulingAnnotation, "true"%string); (FollowersAnnotation, "cfg"%string)])
  (decimal 0) ["a"; "b"]%string.
Definition cfg_follower : FederatedObject := fed_object "cfg-configmaps" ∅ "" [].

Definition fol_store : gmap QualifiedName FederatedObject := list_to_map
  [({| qn_Namespace := "default"; qn_Name := "web-deployments.apps" |}, web_leader);
   ({| qn_Namespace := "default"; qn_Name := "cfg-configmaps" |}, cfg_follower)].

Definition fol_ftc (name group kind : string) : FederatedTypeConfig := {|
  ftc_Name := name; ReplicasSpec := ""; ReplicasStatus := ""; ReadyReplicasStatus := ""; AutoMigrationEnabled := false; ftc_Annotations := ∅; StatusAggregationEnabled := false; StatusCollection := None;
  Controllers := []; SourceType := {| ar_Group := group; ar_Version := "v1"; ar_Kind := kind; ar_PluralName := name;
                                     ar_Scope := "Namespaced" |} |}.

(** The API server accepts no update. *)
Definition fol_environment : FollowerEnvironment := {|
  fe_ListerError := fun _ => None; fe_FTC := fun _ => inl ∅; fe_Update := fun _ => Some ErrServerTimeout |}.

Definition fol_start : FollowerState :=
  onFTCUpdate (onFTCUpdate {| gkToFTCName := ∅; cacheObservedFromLeaders := newBidirectionalCache;
      cacheObservedFromFollowers := newBidirectionalCache; fs_store := fol_store |}
    (Some (fol_ftc "deployments.apps" "apps" "Deployment"))) (Some (fol_ftc "configmaps" "" ConfigMapKind)).

Definition leader_web : LeaderReference :=
  {| lr_Group := "apps"; lr_Kind := "Deployment"; lr_Namespace := "default"; lr_Name := "web" |}.
Definition cfg_key : objectGroupKindKey := {|
  ok_namespace := "default"; ok_fedName := "cfg-configmaps"; ok_sourceName := "cfg"; ok_sourceGK := (""%string, ConfigMapKind) |}.

Lemma fol_reachable : reachable fol_environment fol_start.
Proof. apply reachable_ftc, reachable_ftc, reachable_start. Qed.

Definition web_followers : gset FollowerReference :=
  match inferFollowers ("apps", "Deployment")%string web_leader with inl followers => followers | inr _ => ∅ end.

Lemma web_infers : inferFollowers ("apps", "Deployment")%string web_leader = inl web_followers.
Proof.
  assert (match inferFollowers ("apps", "Deployment")%string web_leader with inl _ => true | inr _ => false end = true) as H
    by (vm_compute; reflexivity).
  unfold web_followers. by destruct (inferFollowers _ _).
Qed.

Lemma web_object : leader_object fol_start leader_web = Some web_leader.
Proof. vm_compute. reflexivity. Qed.

Lemma web_known : known_leader fol_start leader_web.
Proof.
  split; [exists "spec.template.spec"%string|exists "deployments.apps"%string]; vm_compute; reflexivity.
Qed.

Lemma web_leading : leading fol_start leader_web.
Proof.
  split; [apply web_known|]. intros o Ho. rewrite web_object in Ho. injection Ho as <-.
  exists web_followers. apply web_infers.
Qed.

Lemma fol_types gk ftc : gkToFTCName fol_start !! gk = Some ftc ->
  gk = (""%string, ConfigMapKind) \/ gk = ("apps", "Deployment")%string /\ ftc = "deployments.apps"%string.
Proof.
  unfold fol_start, onFTCUpdate. cbn [gkToFTCName]. rewrite !lookup_insert_Some, lookup_empty. simpl.
  intros H. naive_solver.
Qed.

Lemma fol_objects n o : fol_store !! n = Some o ->
  n = {| qn_Namespace := "default"; qn_Name := "web-deployments.apps" |} \/ o = cfg_follower.
Proof.
  unfold fol_store. simpl. rewrite !lookup_insert_Some, lookup_empty. intros [[<- _]|[_ [[_ <-]|[_ ?]]]]; [by left|by right|done].
Qed.

Lemma cfg_leads_none gk : inferFollowers gk cfg_follower = inl ∅.
Proof. unfold inferFollowers. by replace (leadsFollowers cfg_follower) with false by (vm_compute; reflexivity). Qed.

Lemma only_web l : follower_of cfg_key ∈ inferred fol_start l -> l = leader_web.
Proof.
  unfold inferred. destruct (leaderPodSpecPaths !! LeaderReference_GroupKind l) eqn:Ep; [|by intros ?%elem_of_empty].
  unfold leader_object, leader_name.
  destruct (gkToFTCName fol_start !! LeaderReference_GroupKind l) as [ftc|] eqn:Ef; [|by intros ?%elem_of_empty].
  change (fs_store fol_start) with fol_store. cbn [fmap option_fmap option_map mbind option_bind].
  destruct (fol_store !! _) as [o|] eqn:Eo; [|by intros ?%elem_of_empty].
  apply fol_types in Ef as [Ef|[Ef ->]].
  - rewrite Ef in Ep. vm_compute in Ep. discriminate Ep.
  - apply fol_objects in Eo as [Eo| ->]; [|rewrite cfg_leads_none; by intros ?%elem_of_empty]. intros _.
    injection Eo as Ens En. apply (GenerateFederatedObjectName_unique _ "web") in En; [|done|reflexivity].
    destruct l as [g k ns n]. simpl in *. unfold LeaderReference_GroupKind in Ef. simpl in Ef.
    injection Ef as -> ->. by subst.
Qed.

Lemma follower_follows_witness : exists s' out o',
  reconcile fol_environment (reconcileLeaders fol_environment fol_start [leader_web]) cfg_key = (s', out) /\
  fs_store s' !! key_name cfg_key = Some o' /\
  leader_web ∈ Follows (fo_Spec o') /\
  "b"%string ∈ cref_Cluster <$> GetControllerPlacement (fo_Spec o') follower_controller.
Proof.
  destruct (follower_follows fol_environment (fun _ => eq_refl) fol_start [leader_web] cfg_key cfg_follower)
    as (s' & out & o' & Hrun & Hst & Hfollows & Hplaced & _).
  - apply fol_reachable.
  - intros l [->|Hl]%elem_of_cons; [apply web_leading|by apply elem_of_nil in Hl].
  - intros l [Hl|Hl]; [|apply only_web in Hl as ->; left]. exfalso. revert Hl. unfold lookup.
    replace (bc_cache (cacheObservedFromLeaders fol_start) !! l) with (@None (gset FollowerReference))
      by (symmetry; apply lookup_empty). by intros ?%elem_of_empty.
  - split; [vm_compute; reflexivity|]. exists false. split; [vm_compute; reflexivity|]. left.
    apply (bool_decide_eq_true_1 _). vm_compute. reflexivity.
  - vm_compute. reflexivity.
  - apply NoDup_singleton.
  - assert (following_disabled cfg_follower = false /\ follower_of cfg_key ∈ inferred fol_start leader_web) as Hf.
    { split; [vm_compute; reflexivity|]. apply (bool_decide_eq_true_1 _). vm_compute. reflexivity. }
    exists s', out, o'. split; [exact Hrun|]. split; [exact Hst|]. split; [apply (Hfollows leader_web), Hf|].
    apply Hplaced. exists leader_web, web_leader. split; [exact Hf|]. split; [apply web_object|].
    apply (bool_decide_eq_true_1 _). vm_compute. reflexivity.
Defined.

(** The state in which the leader was reconciled. *)
Definition led : FollowerState := reconcileLeaders fol_environment fol_start [leader_web].
Definition led_run : FollowerState * FollowerOutcome := reconcile fol_environment led cfg_key.
Definition led_sent : FederatedObject := default cfg_follower (fo_sent led_run.2).

Lemma led_run_eq : reconcile fol_environment led cfg_key =
  (led_run.1, {| fo_result := StatusError; fo_sent := Some led_sent; fo_enqueued := [] |}).
Proof.
  assert (fo_result led_run.2 = StatusError) as Hr by (vm_compute; reflexivity).
  assert (fo_enqueued led_run.2 = []) as He by (vm_compute; reflexivity).
  assert (bool_decide (is_Some (fo_sent led_run.2)) = true) as Hs by (vm_compute; reflexivity).
  assert (led_run.2 = {| fo_result := StatusError; fo_sent := Some led_sent; fo_enqueued := [] |}) as <-;
    [|apply surjective_pairing].
  apply bool_decide_eq_true_1 in Hs as [sent Hs]. unfold led_sent. rewrite Hs.
  destruct led_run.2; simpl in *; subst; reflexivity.
Qed.

Lemma led_desired : desired_leaders led cfg_follower (follower_of cfg_key) = {[leader_web]}.
Proof. apply (bool_decide_eq_true_1 _). vm_compute. reflexivity. Qed.

Lemma failed_update_lost_witness :
  reconcile fol_environment led cfg_key =
    (led_run.1, {| fo_result := StatusError; fo_sent := Some led_sent; fo_enqueued := [] |}) /\
  exists s2, reconcile fol_environment led_run.1 cfg_key = (s2, finished StatusAllOK).
Proof.
  split; [apply led_run_eq|].
  apply (failed_update_lost fol_environment (fun _ => eq_refl) led cfg_key cfg_follower led_run.1 led_sent StatusError []).
  - split; [vm_compute; reflexivity|]. exists false. split; [vm_compute; reflexivity|]. left.
    apply (bool_decide_eq_true_1 _). vm_compute. reflexivity.
  - split; [vm_compute; reflexivity|apply NoDup_singleton|].
    intros l Hl. rewrite led_desired in Hl. apply elem_of_singleton in Hl as ->. split; eexists; vm_compute; reflexivity.
  - intros l Hl. rewrite led_desired in Hl. apply elem_of_singleton in Hl as ->. vm_compute. discriminate.
  - apply led_run_eq.
Defined.
End Witnesses.
