(* ===== verification/FederatedHPA.v ===== *)
(** * The federated HPA controller ([pkg/controllers/federatedhpa])

    A horizontal pod autoscaler works in one of two modes: centralized, in the
    host cluster, while its federated object is held back by a pending
    controller; or distributed, in the member clusters, where it follows its
    workload.  The controller holds an object back or lets it go, and records on
    the autoscaler why it does not work.  It keeps the workload that each
    autoscaler scales and the policy that each workload is bound to, to know
    what to reconcile when one of these changes.  As in the follower controller,
    the federated object is the one of the informer store, changed in place. *)

From Stdlib Require Import ZArith Lia String Ascii.
From S2P Require Import Prelude GoStrings Collections K8s Types ApiTypes Unstructured Codecs FedObject SchedulingUnit.
From S2P Require Import Retain PodUtil Webhook Naming Sync OverridePolicy Federate Follower.

#[export] Instance GroupVersionKind_countable : Countable GroupVersionKind.
Proof.
  apply (inj_countable' (fun g => (gvk_Group g, gvk_Version g, gvk_Kind g))
    (fun x => {| gvk_Group := x.1.1; gvk_Version := x.1.2; gvk_Kind := x.2 |})).
  by intros [].
Defined.

(** ** Data and helpers ([util.go]) *)

Definition PropagationPolicyKind : string := "PropagationPolicy".
Definition ClusterPropagationPolicyKind : string := "ClusterPropagationPolicy".
Definition FedHPANotWorkReason : string := (DefaultPrefix ++ "fed-hpa-not-work-reason")%string.
Definition PrefixedFederatedHPAControllerName : string := (DefaultPrefix ++ "federatedhpa-controller")%string.
Definition FederatedHPAMode : string := (DefaultPrefix ++ "hpa-mode")%string.
Definition FederatedHPAModeCentralized : string := "centralized".
Definition FederatedHPAModeDistributed : string := "distributed".
Definition FederatedHPAModeDefault : string := "".

Record Resource := { res_gvk : GroupVersionKind; res_namespace : string; res_name : string }.
#[export] Instance Resource_eq_dec : EqDecision Resource.
Proof. solve_decision. Defined.
#[export] Instance Resource_countable : Countable Resource.
Proof.
  apply (inj_countable' (fun r => (res_gvk r, res_namespace r, res_name r))
    (fun x => {| res_gvk := x.1.1; res_namespace := x.1.2; res_name := x.2 |})).
  by intros [].
Defined.

Definition Resource_QualifiedName (r : Resource) : QualifiedName :=
  {| qn_Namespace := res_namespace r; qn_Name := res_name r |}.

(** [autoscalingv2.CrossVersionObjectReference]. *)
Record CrossVersionObjectReference := { cv_Kind : string; cv_Name : string; cv_APIVersion : string }.

(** Conversions of the API machinery. *)
Class HPACodecs := {
  FromUnstructured_reference : Object -> CrossVersionObjectReference + string;
  ParseGroupVersion : string -> GroupVersion + string
}.

(** A policy of one of the two kinds. *)
Inductive GenericPropagationPolicy :=
  | NamespacedPolicy (pp : PropagationPolicy)
  | ClusterPolicy (cpp : PropagationPolicy).
Definition GetSpec (p : GenericPropagationPolicy) : PropagationPolicySpec :=
  match p with NamespacedPolicy pp | ClusterPolicy pp => pol_Spec pp end.

Definition policyObjectToResource (object : GenericPropagationPolicy) : Resource :=
  match object with
  | NamespacedPolicy pp => {| res_name := pol_Name pp; res_namespace := pol_Namespace pp;
                              res_gvk := WithKind CoreSchemeGroupVersion PropagationPolicyKind |}
  | ClusterPolicy cpp => {| res_name := pol_Name cpp; res_namespace := pol_Namespace cpp;
                            res_gvk := WithKind CoreSchemeGroupVersion ClusterPropagationPolicyKind |}
  end.

Definition isHPAFTCAnnoChanged (lastObserved latest : FederatedTypeConfig) : bool :=
  negb (String.eqb (default ""%string (ftc_Annotations lastObserved !! HPAScaleTargetRefPath))
                   (default ""%string (ftc_Annotations latest !! HPAScaleTargetRefPath))).

Definition isPropagationPolicyExist (pp : option GenericPropagationPolicy) : bool := bool_decide (is_Some pp).
Definition isPropagationPolicyDividedMode (pp : GenericPropagationPolicy) : bool :=
  String.eqb (pps_SchedulingMode (GetSpec pp)) SchedulingModeDivide.
Definition isPropagationPolicyDuplicateMode (pp : GenericPropagationPolicy) : bool :=
  String.eqb (pps_SchedulingMode (GetSpec pp)) SchedulingModeDuplicate.
Definition isPropagationPolicyFollowerEnabled (pp : GenericPropagationPolicy) : bool :=
  negb (DisableFollowerScheduling (GetSpec pp)).

Definition isWorkloadRetainReplicas (fedObj : FederatedObject) : bool :=
  String.eqb (default ""%string (fo_Annotations fedObj !! RetainReplicasAnnotation)) AnnotationValueTrue.

(** [fmt.Sprintf] of a list of strings with the verb v. *)
Definition print_reasons (reasons : list string) : string := ("[" ++ String.concat " " reasons ++ "]")%string.

Definition boundToWorkload (newPPResource : Resource) (what : string) : string :=
  ("The " ++ gvk_Kind (res_gvk newPPResource) ++ " " ++ res_name newPPResource ++ " bound to the workload " ++ what)%string.

Definition generateCentralizedHPANotWorkReason (newPPResource : option Resource) (pp : option GenericPropagationPolicy)
    : string :=
  print_reasons
    match newPPResource with
    | None => ["The workload is not bound to any propagationPolicy."%string]
    | Some newPPResource =>
        match pp with
        | None => [boundToWorkload newPPResource "does not exist."]
        | Some pp => if negb (isPropagationPolicyDividedMode pp)
                     then [boundToWorkload newPPResource "is not Divided mode."] else []
        end
    end.

Section Objects.
Context `{K : Kubernetes} `{C : !Codecs} `{F : FollowerCodecs} `{H : HPACodecs}.

Definition fedObjectToSourceObjectResource (fedObj : FederatedObject) : Resource + string :=
  match GetTemplateMetadata (fo_Spec fedObj) with
  | inr err => inr err
  | inl metadata => inl {| res_name := tm_Name metadata; res_namespace := tm_Namespace metadata; res_gvk := tm_GVK metadata |}
  end.

Definition isHPAFollowTheWorkload (hpaUns : Unstructured) (fedWorkload : FederatedObject) : bool :=
  if String.eqb (default ""%string (uns_GetAnnotations hpaUns !! DisableFollowingAnnotation)) AnnotationValueTrue then false
  else
    match GetFollowersFromAnnotation fedWorkload with
    | inr _ => false
    | inl followersFromAnnotation =>
        let gvk := uns_GroupVersionKind hpaUns in
        bool_decide ({| fr_Name := uns_GetName hpaUns; fr_Namespace := uns_GetNamespace hpaUns;
                        fr_GroupKind := (gvk_Group gvk, gvk_Kind gvk) |} ∈ followersFromAnnotation)
    end.

Definition generateDistributedHPANotWorkReason (newPPResource : option Resource) (pp : option GenericPropagationPolicy)
    (fedWorkload : FederatedObject) (hpaObject : Unstructured) : string :=
  let reasons := if negb (isWorkloadRetainReplicas fedWorkload)
                 then ["The workload is not enabled for retain replicas."%string] else [] in
  let reasons := if negb (isHPAFollowTheWorkload hpaObject fedWorkload)
                 then reasons ++ ["The hpa is not follow the workload."%string] else reasons in
  print_reasons
    match newPPResource with
    | None => reasons ++ ["The workload is not bound to any propagationPolicy."%string]
    | Some newPPResource =>
        match pp with
        | None => reasons ++ [boundToWorkload newPPResource "does not exist."]
        | Some pp =>
            let reasons := if negb (isPropagationPolicyDuplicateMode pp)
                           then reasons ++ [boundToWorkload newPPResource "is not Duplicate mode."] else reasons in
            if negb (isPropagationPolicyFollowerEnabled pp)
            then reasons ++ [boundToWorkload newPPResource "is not enabled for follower scheduling."] else reasons
        end
    end.

Definition getPropagationPolicyResourceFromFedWorkload (workload : option FederatedObject) : option Resource :=
  match workload with
  | None => None
  | Some workload =>
      match fo_Labels workload !! PropagationPolicyNameLabel with
      | Some policyName => Some {| res_gvk := WithKind CoreSchemeGroupVersion PropagationPolicyKind;
                                   res_name := policyName; res_namespace := fo_Namespace workload |}
      | None =>
          match fo_Labels workload !! ClusterPropagationPolicyNameLabel with
          | Some policyName => Some {| res_gvk := WithKind CoreSchemeGroupVersion ClusterPropagationPolicyKind;
                                       res_name := policyName; res_namespace := "" |}
          | None => None
          end
      end
  end.

(** *** Changes to the autoscaler and its federated object *)

Definition addFedHPAEnableLabel (uns : Unstructured) : Unstructured * bool :=
  let labels := uns_GetLabels uns in
  if bool_decide (labels !! CentralizedHPAEnableKey = Some AnnotationValueTrue) then (uns, false)
  else (uns_SetLabels (<[CentralizedHPAEnableKey := AnnotationValueTrue]> labels) uns, true).

Definition removeFedHPAEnableLabel (uns : Unstructured) : Unstructured * bool :=
  let labels := uns_GetLabels uns in
  match labels !! CentralizedHPAEnableKey with
  | None => (uns, false)
  | Some _ => (uns_SetLabels (delete CentralizedHPAEnableKey labels) uns, true)
  end.

Definition addFedHPANotWorkReasonAnno (uns : Unstructured) (value : string) : Unstructured * bool :=
  let annotations := uns_GetAnnotations uns in
  if bool_decide (annotations !! FedHPANotWorkReason = Some value) then (uns, false)
  else (uns_SetAnnotations (<[FedHPANotWorkReason := value]> annotations) uns, true).

Definition removeFedHPANotWorkReasonAnno (uns : Unstructured) : Unstructured * bool :=
  let annotations := uns_GetAnnotations uns in
  match annotations !! FedHPANotWorkReason with
  | None => (uns, false)
  | Some _ => (uns_SetAnnotations (delete FedHPANotWorkReason annotations) uns, true)
  end.

Definition addFedHPAPendingController (fedObject : FederatedObject) (ftc : FederatedTypeConfig)
    : (FederatedObject * bool) + string :=
  match GetPendingControllers fedObject with
  | inr err => inr err
  | inl pendControllers =>
      if existsb (existsb (fun controller => String.eqb controller PrefixedFederatedHPAControllerName)) pendControllers
      then inl (fedObject, false)
      else
        match SetPendingControllers fedObject (GetControllers ftc) with
        | inr err => inr err
        | inl (fedObject, _) => inl (fedObject, true)
        end
  end.

Definition removePendingController (ftc : FederatedTypeConfig) (fedObject : FederatedObject)
    : (FederatedObject * bool) + string :=
  UpdatePendingControllers fedObject PrefixedFederatedHPAControllerName false (GetControllers ftc).
End Objects.

(** ** The controller ([controller.go]) *)

(** What the controller reads, but for the store of federated objects, and the
    answers of the API server. *)
Record HPAEnvironment `{Kubernetes} := {
  he_ResourceFTC : GroupVersionKind -> option FederatedTypeConfig;
  he_ResourceLister : GroupVersionKind -> option ResourceLister;
  (** [cacheSyncRateLimiter.When]. *)
  he_When : Resource -> Z;
  (** A read of the store that fails. *)
  he_ListerError : QualifiedName -> option ApiError;
  he_List : Selector -> list FederatedObject + ApiError;
  he_PropagationPolicy : string -> string -> PropagationPolicy + ApiError;
  he_ClusterPropagationPolicy : string -> PropagationPolicy + ApiError;
  he_UpdateHPA : GroupVersionResource -> string -> Unstructured -> option ApiError;
  he_UpdateFedObject : FederatedObject -> option ApiError
}.

Record HPAState := {
  gvkToScaleTargetRef : gmap GroupVersionKind string;
  workloadHPAMapping : MultiMap Resource Resource;
  ppWorkloadMapping : MultiMap Resource Resource;
  (** The informer store of federated objects. *)
  hs_store : gmap QualifiedName FederatedObject
}.

Definition with_targets (s : HPAState) m : HPAState := {|
  gvkToScaleTargetRef := m; workloadHPAMapping := workloadHPAMapping s; ppWorkloadMapping := ppWorkloadMapping s;
  hs_store := hs_store s |}.
Definition with_hpas (s : HPAState) m : HPAState := {|
  gvkToScaleTargetRef := gvkToScaleTargetRef s; workloadHPAMapping := m; ppWorkloadMapping := ppWorkloadMapping s;
  hs_store := hs_store s |}.
Definition with_policies (s : HPAState) m : HPAState := {|
  gvkToScaleTargetRef := gvkToScaleTargetRef s; workloadHPAMapping := workloadHPAMapping s; ppWorkloadMapping := m;
  hs_store := hs_store s |}.
Definition with_objects (s : HPAState) m : HPAState := {|
  gvkToScaleTargetRef := gvkToScaleTargetRef s; workloadHPAMapping := workloadHPAMapping s;
  ppWorkloadMapping := ppWorkloadMapping s; hs_store := m |}.

(** The warnings that are recorded, with what their messages are made of. *)
Inductive HPAEvent :=
  | CentralizedHPANotWork (reason : string)
  | DistributedHPANotWork (reason : string)
  | UpdateHPASourceObject (key : Resource) (err : ApiError)
  | UpdateHPAFedObject (fedHPAObject : FederatedObject) (err : ApiError).

Record handleCacheResp := {
  hr_hpaFTC : FederatedTypeConfig;
  hr_hpaGVR : GroupVersionResource;
  hr_hpaObject : Unstructured;
  hr_fedHPAObject : FederatedObject;
  hr_fedWorkloadObject : option FederatedObject;
  hr_ppObject : option GenericPropagationPolicy;
  hr_newPPResource : option Resource
}.

(** The effects of a reconciliation beside those on the state. *)
Record HPAOutcome := {
  ho_result : WorkerResult;
  ho_hpaSent : option Unstructured;
  ho_fedSent : option FederatedObject;
  ho_events : list HPAEvent
}.

(** What the mode of an autoscaler asks for. *)
Record ModeOutcome := {
  mo_hpaObject : Unstructured;
  mo_isHPAObjectUpdated : bool;
  mo_fedHPAObject : FederatedObject;
  mo_isFedHPAObjectUpdated : bool;
  mo_events : list HPAEvent;
  mo_failed : bool
}.

Section Controller.
Context `{K : Kubernetes} `{C : !Codecs} `{T : SetsRuntime} `{F : FollowerCodecs} `{H : HPACodecs}.
Variable e : HPAEnvironment.

Definition getGVKToScaleTargetRef (s : HPAState) (gvk : GroupVersionKind) : option string := gvkToScaleTargetRef s !! gvk.
Definition setGVKToScaleTargetRef (s : HPAState) (gvk : GroupVersionKind) (val : string) : HPAState :=
  with_targets s (<[gvk := val]> (gvkToScaleTargetRef s)).
Definition deleteGVKToScaleTargetRef (s : HPAState) (gvk : GroupVersionKind) : HPAState :=
  with_targets s (delete gvk (gvkToScaleTargetRef s)).

(** *** Events *)

Definition isHPAType (s : HPAState) (resourceGVK : GroupVersionKind) : HPAState * bool :=
  match he_ResourceFTC e resourceGVK with
  | None => (s, false)
  | Some ftc =>
      match getGVKToScaleTargetRef s resourceGVK with
      | Some _ => (s, true)
      | None =>
          match ftc_Annotations ftc !! HPAScaleTargetRefPath with
          | Some path => (setGVKToScaleTargetRef s resourceGVK path, true)
          | None => (deleteGVKToScaleTargetRef s resourceGVK, false)
          end
      end
  end.

Definition hpasOf (s : HPAState) (workload : Resource) : list Resource :=
  match MultiMap_LookupByT1 (workloadHPAMapping s) workload with Some hpas => UnsortedList hpas | None => [] end.

Definition enqueueFedHPAObjectsForFederatedObjects (s : HPAState) (fedObject : FederatedObject)
    : HPAState * list Resource :=
  match fedObjectToSourceObjectResource fedObject with
  | inr _ => (s, [])
  | inl key =>
      let '(s, isHPA) := isHPAType s (res_gvk key) in
      (s, if (isHPA : bool) then [key] else hpasOf s key)
  end.

Definition enqueueFedHPAObjectsForPropagationPolicy (s : HPAState) (policy : GenericPropagationPolicy) : list Resource :=
  match MultiMap_LookupByT1 (ppWorkloadMapping s) (policyObjectToResource policy) with
  | Some workloads => UnsortedList workloads ≫= hpasOf s
  | None => []
  end.

(** Which updates of a policy are events. *)
Definition policyChanged (oldPP newPP : GenericPropagationPolicy) : bool :=
  negb (String.eqb (pps_SchedulingMode (GetSpec oldPP)) (pps_SchedulingMode (GetSpec newPP))) ||
  negb (Bool.eqb (DisableFollowerScheduling (GetSpec oldPP)) (DisableFollowerScheduling (GetSpec newPP))).

(** The informer of cluster-scoped objects is nil. *)
Definition ListAllFedObjsForFTC (ftc : FederatedTypeConfig) : may_panic (list FederatedObject + ApiError) :=
  let gvk := GetSourceTypeGVK ftc in
  let labelsSet : gmap string string :=
    {[ GroupVersion_String {| gv_Group := gvk_Group gvk; gv_Version := gvk_Version gvk |} := gvk_Kind gvk ]} in
  if GetNamespaced ftc then mret (he_List e (SelectorFromSet labelsSet)) else Panics.

Definition enqueueFedHPAObjectsForFTC (s : HPAState) (ftc : FederatedTypeConfig) : may_panic (HPAState * list Resource) :=
  match ftc_Annotations ftc !! HPAScaleTargetRefPath with
  | None => mret (deleteGVKToScaleTargetRef s (GetSourceTypeGVK ftc), [])
  | Some scaleTargetRefPath =>
      let s := setGVKToScaleTargetRef s (GetSourceTypeGVK ftc) scaleTargetRefPath in
      listed ← ListAllFedObjsForFTC ftc;
      mret (s, match listed with
               | inr _ => []
               | inl allObjects =>
                   omap (fun obj => match fedObjectToSourceObjectResource obj with inl r => Some r | inr _ => None end) allObjects
               end)
  end.

(** The handler of updates of type configs. *)
Definition onFTCUpdate (s : HPAState) (lastObserved latest : option FederatedTypeConfig) : may_panic (HPAState * list Resource) :=
  match latest with
  | None => mret (s, [])
  | Some latest =>
      if match lastObserved with None => true | Some lastObserved => isHPAFTCAnnoChanged lastObserved latest end
      then enqueueFedHPAObjectsForFTC s latest else mret (s, [])
  end.

(** *** What a reconciliation reads *)

(** The lister of cluster-scoped objects is nil. *)
Definition hpa_GetFromLister (s : HPAState) (namespace name : string) : may_panic (FederatedObject + ApiError) :=
  if String.eqb namespace "" then Panics
  else
    let key := {| qn_Namespace := namespace; qn_Name := name |} in
    mret match he_ListerError e key with
         | Some err => inr err
         | None => match hs_store s !! key with Some o => inl o | None => inr NotFound end
         end.

(** A reference that is not a map panics. *)
Definition scaleTargetRefToResource (s : HPAState) (gvk : GroupVersionKind) (uns : Unstructured)
    : may_panic (Resource + string) :=
  match getGVKToScaleTargetRef s gvk with
  | None => mret (inr "Failed to get gvk to ScaleTargetRef"%string)
  | Some scaleTargetRef =>
      match NestedFieldNoCopy (uns_Object uns) (split_on "." scaleTargetRef) with
      | inr err => mret (inr (scaleTargetRef ++ ": " ++ err)%string)
      | inl None => mret (inr (scaleTargetRef ++ ": not found")%string)
      | inl (Some (VMap fieldValMap)) =>
          mret (bind_error (FromUnstructured_reference fieldValMap) (fun targetResource =>
                bind_error (ParseGroupVersion (cv_APIVersion targetResource)) (fun gv =>
                inl {| res_name := cv_Name targetResource; res_gvk := WithKind gv (cv_Kind targetResource);
                       res_namespace := uns_GetNamespace uns |})))
      | inl (Some _) => Panics
      end
  end.

Definition getFedWorkLoadFromResource (s : HPAState) (workload : Resource) : may_panic (FederatedObject + (string + ApiError)) :=
  match he_ResourceFTC e (res_gvk workload) with
  | None => mret (inr (inl "failed to get workload ftc"%string))
  | Some workloadFTC =>
      found ← hpa_GetFromLister s (res_namespace workload) (GenerateFederatedObjectName (res_name workload) (ftc_Name workloadFTC));
      mret match found with inl o => inl o | inr err => inr (inr err) end
  end.

Definition getPropagationPolicyFromResource (resource : Resource) : GenericPropagationPolicy + ApiError :=
  if String.eqb (gvk_Kind (res_gvk resource)) PropagationPolicyKind then
    match he_PropagationPolicy e (res_namespace resource) (res_name resource) with
    | inr err => inr err
    | inl pp => inl (NamespacedPolicy pp)
    end
  else
    match he_ClusterPropagationPolicy e (res_name resource) with
    | inr err => inr err
    | inl cpp => inl (ClusterPolicy cpp)
    end.

(** The workload of the autoscaler is recorded; the policy of a workload that it
    scaled before is forgotten. *)
Definition recordWorkload (s : HPAState) (newWorkloadResource key : Resource) : HPAState + HPAState :=
  let s := match MultiMap_LookupByT2 (workloadHPAMapping s) key with
           | Some oldWorkloadResource =>
               let s := with_hpas s (MultiMap_DeleteT2 (workloadHPAMapping s) key).1 in
               with_policies s (MultiMap_DeleteT2 (ppWorkloadMapping s) oldWorkloadResource).1
           | None => s
           end in
  match MultiMap_Add (workloadHPAMapping s) newWorkloadResource key with
  | inr _ => inr s
  | inl m => inl (with_hpas s m)
  end.

Definition recordPolicy (s : HPAState) (newPPResource newWorkloadResource : Resource) : HPAState + HPAState :=
  let s := match MultiMap_LookupByT2 (ppWorkloadMapping s) newWorkloadResource with
           | Some _ => with_policies s (MultiMap_DeleteT2 (ppWorkloadMapping s) newWorkloadResource).1
           | None => s
           end in
  match MultiMap_Add (ppWorkloadMapping s) newPPResource newWorkloadResource with
  | inr _ => inr s
  | inl m => inl (with_policies s m)
  end.

(** The objects of the autoscaler, up to those of its workload. *)
Definition readHPA (s : HPAState) (key : Resource)
    : may_panic ((FederatedTypeConfig * Unstructured * FederatedObject * Resource) + WorkerResult) :=
  match he_ResourceFTC e (res_gvk key) with
  | None => mret (inr StatusAllOK)
  | Some hpaFTC =>
  match he_ResourceLister e (res_gvk key) with
  | None => mret (inr StatusAllOK)
  | Some lister =>
      if negb (rl_HasSynced lister)
      then mret (inr {| wr_Success := true; RequeueAfter := Some (he_When e key); Backoff := false |})
      else
        match rl_Get lister (QualifiedName_String (Resource_QualifiedName key)) with
        | inr _ => mret (inr StatusAllOK)
        | inl hpaObject =>
            fedHPAObject ← hpa_GetFromLister s (uns_GetNamespace hpaObject)
                             (GenerateFederatedObjectName (uns_GetName hpaObject) (ftc_Name hpaFTC));
            match fedHPAObject with
            | inr _ => mret (inr StatusError)
            | inl fedHPAObject =>
                match ControllerDependenciesFulfilled fedHPAObject PrefixedFederatedHPAControllerName with
                | inr _ => mret (inr StatusError)
                | inl false => mret (inr StatusAllOK)
                | inl true =>
                    newWorkloadResource ← scaleTargetRefToResource s (res_gvk key) hpaObject;
                    mret match newWorkloadResource with
                         | inr _ => inr StatusError
                         | inl newWorkloadResource => inl (hpaFTC, hpaObject, fedHPAObject, newWorkloadResource)
                         end
                end
            end
        end
  end
  end.

(** The policy of the workload, after it is recorded. *)
Definition readPolicy (s : HPAState) (fedWorkloadObject : option FederatedObject) (newWorkloadResource : Resource)
    : HPAState * (option Resource * option GenericPropagationPolicy + WorkerResult) :=
  match getPropagationPolicyResourceFromFedWorkload fedWorkloadObject with
  | None => (s, inl (None, None))
  | Some newPPResource =>
      match recordPolicy s newPPResource newWorkloadResource with
      | inr s => (s, inr StatusError)
      | inl s =>
          (s, match getPropagationPolicyFromResource newPPResource with
              | inl pp => inl (Some newPPResource, Some pp)
              | inr err => if IsNotFound err then inl (Some newPPResource, None) else inr StatusError
              end)
      end
  end.

Definition handleCache (s : HPAState) (key : Resource) : may_panic (HPAState * (handleCacheResp + WorkerResult)) :=
  read ← readHPA s key;
  match read with
  | inr res => mret (s, inr res)
  | inl (hpaFTC, hpaObject, fedHPAObject, newWorkloadResource) =>
      match recordWorkload s newWorkloadResource key with
      | inr s => mret (s, inr StatusError)
      | inl s =>
          fedWorkloadObject ← getFedWorkLoadFromResource s newWorkloadResource;
          match match fedWorkloadObject with
                | inl o => Some (Some o)
                | inr (inr err) => if IsNotFound err then Some None else None
                | inr (inl _) => None
                end with
          | None => mret (s, inr StatusError)
          | Some fedWorkloadObject =>
              let '(s, policy) := readPolicy s fedWorkloadObject newWorkloadResource in
              mret (s, match policy with
                       | inr res => inr res
                       | inl (newPPResource, ppObject) => inl {|
                           hr_hpaFTC := hpaFTC; hr_hpaGVR := GetSourceTypeGVR hpaFTC; hr_hpaObject := hpaObject;
                           hr_fedHPAObject := fedHPAObject; hr_fedWorkloadObject := fedWorkloadObject;
                           hr_ppObject := ppObject; hr_newPPResource := newPPResource |}
                       end)
          end
      end
  end.

(** *** The reconciliation *)

(** A predicate of a policy that exists. *)
Definition policyIs (f : GenericPropagationPolicy -> bool) (pp : option GenericPropagationPolicy) : bool :=
  isPropagationPolicyExist pp && match pp with Some pp => f pp | None => false end.

(** The result of changing the pending controllers. *)
Definition withPending (r : handleCacheResp) (hpaObject : Unstructured) (updated : bool) (events : list HPAEvent)
    (pending : (FederatedObject * bool) + string) : ModeOutcome :=
  match pending with
  | inr _ => {| mo_hpaObject := hpaObject; mo_isHPAObjectUpdated := updated; mo_fedHPAObject := hr_fedHPAObject r;
                mo_isFedHPAObjectUpdated := false; mo_events := events; mo_failed := true |}
  | inl (fedHPAObject, fedUpdated) =>
      {| mo_hpaObject := hpaObject; mo_isHPAObjectUpdated := updated; mo_fedHPAObject := fedHPAObject;
         mo_isFedHPAObjectUpdated := fedUpdated; mo_events := events; mo_failed := false |}
  end.

Definition applyCentralized (r : handleCacheResp) : ModeOutcome :=
  let hpaObject := hr_hpaObject r in
  match addFedHPAPendingController (hr_fedHPAObject r) (hr_hpaFTC r) with
  | inr err => withPending r hpaObject false [] (inr err)
  | inl pending =>
      if bool_decide (hr_fedWorkloadObject r = None) || policyIs isPropagationPolicyDividedMode (hr_ppObject r) then
        let '(hpaObject, updated) := removeFedHPANotWorkReasonAnno hpaObject in
        let '(hpaObject, labelled) := addFedHPAEnableLabel hpaObject in
        withPending r hpaObject (labelled || updated) [] (inl pending)
      else
        let hpaNotWorkReason := generateCentralizedHPANotWorkReason (hr_newPPResource r) (hr_ppObject r) in
        let '(hpaObject, updated) := addFedHPANotWorkReasonAnno hpaObject hpaNotWorkReason in
        let '(hpaObject, unlabelled) := removeFedHPAEnableLabel hpaObject in
        withPending r hpaObject (unlabelled || updated) [CentralizedHPANotWork hpaNotWorkReason] (inl pending)
  end.

(** The conditions for an autoscaler to work in the clusters of its workload. *)
Definition followable (r : handleCacheResp) (hpaObject : Unstructured) (fedWorkloadObject : FederatedObject) : bool :=
  policyIs (fun pp => isPropagationPolicyDuplicateMode pp && isPropagationPolicyFollowerEnabled pp) (hr_ppObject r) &&
  isWorkloadRetainReplicas fedWorkloadObject && isHPAFollowTheWorkload hpaObject fedWorkloadObject.

Definition applyDistributed (r : handleCacheResp) : ModeOutcome :=
  let '(hpaObject, unlabelled) := removeFedHPAEnableLabel (hr_hpaObject r) in
  let works hpaObject :=
    let '(hpaObject, updated) := removeFedHPANotWorkReasonAnno hpaObject in
    withPending r hpaObject (updated || unlabelled) [] (removePendingController (hr_hpaFTC r) (hr_fedHPAObject r)) in
  match hr_fedWorkloadObject r with
  | None => works hpaObject
  | Some fedWorkloadObject =>
      if followable r hpaObject fedWorkloadObject then works hpaObject
      else
        let hpaNotWorkReason :=
          generateDistributedHPANotWorkReason (hr_newPPResource r) (hr_ppObject r) fedWorkloadObject hpaObject in
        let '(hpaObject, updated) := addFedHPANotWorkReasonAnno hpaObject hpaNotWorkReason in
        withPending r hpaObject (updated || unlabelled) [DistributedHPANotWork hpaNotWorkReason]
          (addFedHPAPendingController (hr_fedHPAObject r) (hr_hpaFTC r))
  end.

(** A mode that is not known asks for nothing. *)
Definition applyMode (r : handleCacheResp) : ModeOutcome :=
  let mode := default ""%string (uns_GetLabels (hr_hpaObject r) !! FederatedHPAMode) in
  if String.eqb mode FederatedHPAModeCentralized then applyCentralized r
  else if String.eqb mode FederatedHPAModeDistributed || String.eqb mode FederatedHPAModeDefault then applyDistributed r
  else withPending r (hr_hpaObject r) false [] (inl (hr_fedHPAObject r, false)).

Definition updateError (err : ApiError) : WorkerResult := if IsConflict err then StatusConflict else StatusError.

(** The updates that are due; the first one that fails ends the reconciliation. *)
Definition sendUpdates (key : Resource) (r : handleCacheResp) (m : ModeOutcome) : HPAOutcome :=
  let hpaObject := mo_hpaObject m in
  let hpaSent := if mo_isHPAObjectUpdated m then Some hpaObject else None in
  match hpaSent ≫= he_UpdateHPA e (hr_hpaGVR r) (uns_GetNamespace hpaObject) with
  | Some err => {| ho_result := updateError err; ho_hpaSent := hpaSent; ho_fedSent := None;
                   ho_events := mo_events m ++ [UpdateHPASourceObject key err] |}
  | None =>
      let fedSent := if mo_isFedHPAObjectUpdated m then Some (mo_fedHPAObject m) else None in
      match fedSent ≫= he_UpdateFedObject e with
      | Some err => {| ho_result := updateError err; ho_hpaSent := hpaSent; ho_fedSent := fedSent;
                       ho_events := mo_events m ++ [UpdateHPAFedObject (mo_fedHPAObject m) err] |}
      | None => {| ho_result := StatusAllOK; ho_hpaSent := hpaSent; ho_fedSent := fedSent; ho_events := mo_events m |}
      end
  end.

Definition fedHPAName (r : handleCacheResp) : QualifiedName := {|
  qn_Namespace := uns_GetNamespace (hr_hpaObject r);
  qn_Name := GenerateFederatedObjectName (uns_GetName (hr_hpaObject r)) (ftc_Name (hr_hpaFTC r)) |}.

(** The federated object is changed in the store. *)
Definition reconcile (s : HPAState) (key : Resource) : may_panic (HPAState * HPAOutcome) :=
  '(s, handled) ← handleCache s key;
  match handled with
  | inr res => mret (s, {| ho_result := res; ho_hpaSent := None; ho_fedSent := None; ho_events := [] |})
  | inl r =>
      let m := applyMode r in
      let s := with_objects s (<[fedHPAName r := mo_fedHPAObject m]> (hs_store s)) in
      mret (s, if mo_failed m
               then {| ho_result := StatusError; ho_hpaSent := None; ho_fedSent := None; ho_events := mo_events m |}
               else sendUpdates key r m)
  end.
End Controller.
