(* ===== verification/FederatedHPATheorems.v ===== *)
(** * The federated HPA controller: properties *)

From Stdlib Require Import ZArith Lia String Ascii.
From S2P Require Import Prelude GoStrings Collections K8s Types ApiTypes Unstructured Codecs FedObject FedObjectTheorems.
From S2P Require Import SchedulingUnit Retain PodUtil Webhook SchedulerTheorems Naming Sync OverridePolicy Federate.
From S2P Require Import FederateLibrary Follower FollowerTheorems FederatedHPA.

Section Tracking.
Context `{K : Kubernetes} `{C : !Codecs} `{T : SetsRuntime} `{F : FollowerCodecs} `{H : HPACodecs}.
Implicit Types (e : HPAEnvironment) (s : HPAState) (key w p : Resource).

(** ** What the controller tracks *)

Record hpa_wf s : Prop := {
  wf_hpas : coherent (workloadHPAMapping s);
  wf_policies : coherent (ppWorkloadMapping s)
}.

(** The autoscaler [key] is known to scale [w]. *)
Definition scales s key w : Prop := MultiMap_LookupByT2 (workloadHPAMapping s) key = Some w.
(** The workload [w] is known to be bound to [p]. *)
Definition bound s w p : Prop := MultiMap_LookupByT2 (ppWorkloadMapping s) w = Some p.

Lemma scales_enqueued s key w : hpa_wf s -> scales s key w -> key ∈ hpasOf s w.
Proof using Type.
  intros [Hc _] Hs. destruct (elem_of_LookupByT1 _ _ _ Hc Hs) as (set & Hl & Hin). unfold hpasOf. rewrite Hl.
  by apply elem_of_UnsortedList.
Qed.

Lemma bound_enqueued s key w policy : hpa_wf s -> scales s key w -> bound s w (policyObjectToResource policy) ->
  key ∈ enqueueFedHPAObjectsForPropagationPolicy s policy.
Proof using Type.
  intros Hwf Hs Hb. destruct (elem_of_LookupByT1 _ _ _ (wf_policies _ Hwf) Hb) as (set & Hl & Hin).
  unfold enqueueFedHPAObjectsForPropagationPolicy. rewrite Hl. apply list_elem_of_bind. exists w.
  split; [by apply scales_enqueued|by apply elem_of_UnsortedList].
Qed.

(** Recording never fails: what the key was mapped to is deleted first. *)
Lemma recordWorkload_spec s w key : hpa_wf s -> exists s', recordWorkload s w key = inl s' /\ hpa_wf s' /\
  gvkToScaleTargetRef s' = gvkToScaleTargetRef s /\ hs_store s' = hs_store s /\
  mm_t2ToT1Map (workloadHPAMapping s') = <[key := w]> (mm_t2ToT1Map (workloadHPAMapping s)) /\
  mm_t2ToT1Map (ppWorkloadMapping s') =
    match mm_t2ToT1Map (workloadHPAMapping s) !! key with
    | Some old => delete old (mm_t2ToT1Map (ppWorkloadMapping s))
    | None => mm_t2ToT1Map (ppWorkloadMapping s)
    end.
Proof using T.
  intros [Hh Hp]. unfold recordWorkload, MultiMap_LookupByT2.
  destruct (mm_t2ToT1Map (workloadHPAMapping s) !! key) as [old|] eqn:El.
  - destruct (DeleteT2_coherent _ key Hh) as [Hh' Eh]. destruct (DeleteT2_coherent _ old Hp) as [Hp' Ep].
    cbn [with_policies with_hpas workloadHPAMapping ppWorkloadMapping].
    destruct (Add_coherent _ w key Hh') as (m & Em & Hm & Emm); [by rewrite Eh, lookup_delete_eq|].
    rewrite Em. eexists. split; [done|]. split; [by split|]. split_and!; [done|done| |done].
    cbn [with_hpas workloadHPAMapping]. by rewrite Emm, Eh, insert_delete_eq.
  - destruct (Add_coherent _ w key Hh El) as (m & Em & Hm & Emm). rewrite Em. eexists. split; [done|].
    split; [by split|]. by split_and!.
Qed.

Lemma recordPolicy_spec s p w : hpa_wf s -> exists s', recordPolicy s p w = inl s' /\ hpa_wf s' /\
  gvkToScaleTargetRef s' = gvkToScaleTargetRef s /\ hs_store s' = hs_store s /\
  workloadHPAMapping s' = workloadHPAMapping s /\
  mm_t2ToT1Map (ppWorkloadMapping s') = <[w := p]> (mm_t2ToT1Map (ppWorkloadMapping s)).
Proof using T.
  intros [Hh Hp]. unfold recordPolicy, MultiMap_LookupByT2.
  destruct (mm_t2ToT1Map (ppWorkloadMapping s) !! w) as [old|] eqn:El.
  - destruct (DeleteT2_coherent _ w Hp) as [Hp' Ep]. cbn [with_policies ppWorkloadMapping].
    destruct (Add_coherent _ p w Hp') as (m & Em & Hm & Emm); [by rewrite Ep, lookup_delete_eq|].
    rewrite Em. eexists. split; [done|]. split; [by split|]. split_and!; [done..|].
    cbn [with_policies ppWorkloadMapping]. by rewrite Emm, Ep, insert_delete_eq.
  - destruct (Add_coherent _ p w Hp El) as (m & Em & Hm & Emm). rewrite Em. eexists. split; [done|].
    split; [by split|]. by split_and!.
Qed.

Lemma with_targets_wf s m : hpa_wf s -> hpa_wf (with_targets s m).
Proof using Type. by intros []. Qed.
Lemma with_objects_wf s m : hpa_wf s -> hpa_wf (with_objects s m).
Proof using Type. by intros []. Qed.

Lemma readPolicy_wf e s o w : hpa_wf s -> hpa_wf (readPolicy e s o w).1.
Proof using T.
  intros Hwf. unfold readPolicy. destruct (getPropagationPolicyResourceFromFedWorkload o) as [p|]; [|done].
  destruct (recordPolicy_spec s p w Hwf) as (s' & -> & Hwf' & _). done.
Qed.

(** A reconciliation that reads all the objects recorded the workload, and its
    policy if it has one. *)
Lemma handleCache_spec e s key s' handled : hpa_wf s -> handleCache e s key = Returns (s', handled) ->
  hpa_wf s' /\ gvkToScaleTargetRef s' = gvkToScaleTargetRef s /\ hs_store s' = hs_store s /\
  match handled with
  | inr _ => True
  | inl r => exists w, readHPA e s key = Returns (inl (hr_hpaFTC r, hr_hpaObject r, hr_fedHPAObject r, w)) /\
      hr_hpaGVR r = GetSourceTypeGVR (hr_hpaFTC r) /\
      (getFedWorkLoadFromResource e s w = Returns (match hr_fedWorkloadObject r with
                                                   | Some o => inl o | None => inr (inr NotFound) end)) /\
      hr_newPPResource r = getPropagationPolicyResourceFromFedWorkload (hr_fedWorkloadObject r) /\
      hr_ppObject r = (hr_newPPResource r ≫= fun p =>
        match getPropagationPolicyFromResource e p with inl pp => Some pp | inr _ => None end) /\
      (forall p err, hr_newPPResource r = Some p -> getPropagationPolicyFromResource e p = inr err -> IsNotFound err = true) /\
      scales s' key w /\ (forall p, hr_newPPResource r = Some p -> bound s' w p)
  end.
Proof using T.
  intros Hwf. unfold handleCache. intros Hh. apply may_panic_bind_Returns in Hh as ([[[[ftc hpa] fed] w]|res] & Hread & Hh);
    [|injection Hh as <- <-; by split_and!].
  destruct (recordWorkload_spec s w key Hwf) as (s1 & E1 & Hwf1 & Eg1 & Es1 & Eh1 & _). rewrite E1 in Hh.
  apply may_panic_bind_Returns in Hh as (found & Hfound & Hh).
  assert (getFedWorkLoadFromResource e s w = Returns found) as Hfound'.
  { revert Hfound. unfold getFedWorkLoadFromResource, hpa_GetFromLister. by rewrite Es1. }
  assert (scales s1 key w) as Hsc1 by (unfold scales, MultiMap_LookupByT2; by rewrite Eh1, lookup_insert_eq).
  destruct (match found with inl o => Some (Some o) | inr (inr err) => _ | inr (inl _) => _ end) as [o|] eqn:Eo;
    [|injection Hh as <- <-; by split_and!].
  assert (found = match o with Some o => inl o | None => inr (inr NotFound) end) as Ef.
  { destruct found as [x|[|[]]]; by simplify_eq/=. }
  rewrite Ef in Hfound'. clear Eo Ef Hfound.
  unfold readPolicy in Hh. destruct (getPropagationPolicyResourceFromFedWorkload o) as [p|] eqn:Ep.
  - destruct (recordPolicy_spec s1 p w Hwf1) as (s2 & E2 & Hwf2 & Eg2 & Es2 & Eh2 & Ep2). rewrite E2 in Hh.
    injection Hh as <- <-. split_and!; [done|congruence|congruence|].
    assert (scales s2 key w) as Hsc2 by (unfold scales; by rewrite Eh2).
    assert (forall q, Some p = Some q -> bound s2 w q) as Hb2
      by (intros q [= <-]; unfold bound, MultiMap_LookupByT2; by rewrite Ep2, lookup_insert_eq).
    destruct (getPropagationPolicyFromResource e p) as [pp|err] eqn:Epp; [|destruct (IsNotFound err) eqn:En; [|done]];
      exists w; cbn; rewrite Epp, Ep; split_and!; try done; intros; simplify_eq; congruence.
  - injection Hh as <- <-. split_and!; [done|congruence|congruence|]. exists w. by split_and!.
Qed.

Lemma reconcile_cases e s key s' out : reconcile e s key = Returns (s', out) ->
  exists s1 handled, handleCache e s key = Returns (s1, handled) /\
  match handled with
  | inr res => s' = s1 /\ out = {| ho_result := res; ho_hpaSent := None; ho_fedSent := None; ho_events := [] |}
  | inl r =>
      s' = with_objects s1 (<[fedHPAName r := mo_fedHPAObject (applyMode r)]> (hs_store s1)) /\
      out = if mo_failed (applyMode r)
            then {| ho_result := StatusError; ho_hpaSent := None; ho_fedSent := None; ho_events := mo_events (applyMode r) |}
            else sendUpdates e key r (applyMode r)
  end.
Proof using Type.
  unfold reconcile. intros Hr. apply may_panic_bind_Returns in Hr as ([s1 handled] & Hh & Hr).
  exists s1, handled. split; [done|]. destruct handled; by injection Hr as <- <-.
Qed.

(** The states of the controller: what it reads may change between two steps, and
    the informer may change its store. *)
Inductive hpa_reachable : HPAState -> Prop :=
  | reachable_start store : hpa_reachable {|
      gvkToScaleTargetRef := ∅; workloadHPAMapping := NewMultiMap; ppWorkloadMapping := NewMultiMap; hs_store := store |}
  | reachable_store s store : hpa_reachable s -> hpa_reachable (with_objects s store)
  | reachable_object e s fedObject : hpa_reachable s ->
      hpa_reachable (enqueueFedHPAObjectsForFederatedObjects e s fedObject).1
  | reachable_ftc e s old new s' enqueued : hpa_reachable s -> onFTCUpdate e s old new = Returns (s', enqueued) ->
      hpa_reachable s'
  | reachable_reconcile e s key s' out : hpa_reachable s -> reconcile e s key = Returns (s', out) -> hpa_reachable s'.

Lemma isHPAType_wf e s gvk : hpa_wf s -> hpa_wf (isHPAType e s gvk).1.
Proof using Type. intros []. unfold isHPAType. by repeat case_match. Qed.

Lemma isHPAType_hpas e s gvk w : hpasOf (isHPAType e s gvk).1 w = hpasOf s w.
Proof using Type. unfold isHPAType. by repeat case_match. Qed.

Lemma hpa_reachable_wf s : hpa_reachable s -> hpa_wf s.
Proof using T.
  induction 1 as [store|s store|e s fedObject _ IH|e s old new s' q _ IH Hf|e s key s' out _ IH Hr].
  - split; apply new_represents.
  - by apply with_objects_wf.
  - unfold enqueueFedHPAObjectsForFederatedObjects. destruct (fedObjectToSourceObjectResource fedObject) as [key|]; [|done].
    pose proof (isHPAType_wf e s (res_gvk key) IH). by destruct (isHPAType e s (res_gvk key)).
  - unfold onFTCUpdate, enqueueFedHPAObjectsForFTC in Hf. destruct new as [new|]; [|by injection Hf as <- <-].
    destruct (match old with None => true | Some _ => _ end); [|by injection Hf as <- <-].
    destruct (ftc_Annotations new !! HPAScaleTargetRefPath); [|injection Hf as <- <-; by apply with_targets_wf].
    apply may_panic_bind_Returns in Hf as (listed & _ & Hf). injection Hf as <- <-. by apply with_targets_wf.
  - apply reconcile_cases in Hr as (s1 & handled & Hh & Hr).
    destruct (handleCache_spec _ _ _ _ _ IH Hh) as [Hwf _]. destruct handled; [|by destruct Hr as [-> _]].
    destruct Hr as [-> _]. by apply with_objects_wf.
Qed.

(** C27. After a reconciliation that read the objects of an autoscaler, every
    event of the federated object of its workload, and every event of the policy
    that the workload is bound to, enqueues the autoscaler. *)
Theorem hpa_events_reach e s key s1 r s' out : hpa_reachable s ->
  handleCache e s key = Returns (s1, inl r) -> reconcile e s key = Returns (s', out) ->
  exists w, readHPA e s key = Returns (inl (hr_hpaFTC r, hr_hpaObject r, hr_fedHPAObject r, w)) /\
  (forall e' fedObject, fedObjectToSourceObjectResource fedObject = inl w -> (isHPAType e' s' (res_gvk w)).2 = false ->
     key ∈ (enqueueFedHPAObjectsForFederatedObjects e' s' fedObject).2) /\
  (forall policy, hr_newPPResource r = Some (policyObjectToResource policy) ->
     key ∈ enqueueFedHPAObjectsForPropagationPolicy s' policy).
Proof using T.
  intros Hs Hh Hr. pose proof (hpa_reachable_wf _ (reachable_reconcile _ _ _ _ _ Hs Hr)) as Hwf'.
  apply hpa_reachable_wf in Hs. destruct (handleCache_spec _ _ _ _ _ Hs Hh) as (_ & _ & _ & w & Hread & _ & _ & _ & _ & _ & Hsc & Hb).
  apply reconcile_cases in Hr as (s2 & handled & Hh2 & Hr). rewrite Hh in Hh2. injection Hh2 as <- <-.
  destruct Hr as [-> _]. exists w. split; [done|]. split.
  - intros e' o Ho Ht. unfold enqueueFedHPAObjectsForFederatedObjects. rewrite Ho.
    pose proof (isHPAType_hpas e' (with_objects s1 (<[fedHPAName r := mo_fedHPAObject (applyMode r)]> (hs_store s1))) (res_gvk w) w) as Ehpas.
    destruct (isHPAType e' _ (res_gvk w)) as [s2 b]. cbn [fst snd] in *. subst b. rewrite Ehpas. by apply scales_enqueued.
  - intros policy Hp. eapply bound_enqueued; [done|exact Hsc|by apply Hb].
Qed.
End Tracking.

(** ** What a reconciliation writes *)

Section Modes.
Context `{K : Kubernetes} `{C : !Codecs} `{T : SetsRuntime} `{F : FollowerCodecs} `{H : HPACodecs}.
Implicit Types (e : HPAEnvironment) (s : HPAState) (key p : Resource) (w : FederatedObject) (r : handleCacheResp) (u : Unstructured).

(** [u'] is [u] with these labels and annotations. *)
Record hpa_edit u u' (labels annotations : gmap string string) : Prop := {
  he_ok : metadata_ok u' = true;
  he_other : forall k, k <> "metadata"%string -> uns_Object u' !! k = uns_Object u !! k;
  he_name : uns_GetName u' = uns_GetName u;
  he_namespace : uns_GetNamespace u' = uns_GetNamespace u;
  he_labels : uns_GetLabels u' = labels;
  he_annotations : uns_GetAnnotations u' = annotations
}.

Lemma edit_refl u : metadata_ok u = true -> hpa_edit u u (uns_GetLabels u) (uns_GetAnnotations u).
Proof using Type. by split. Qed.

Lemma edit_trans u u' u'' l a l' a' : hpa_edit u u' l a -> hpa_edit u' u'' l' a' -> hpa_edit u u'' l' a'.
Proof using Type.
  intros [] []. split; [done| |congruence..]. intros k Hk. rewrite <- he_other0 by done. auto.
Qed.

Lemma edit_kind u u' l a : hpa_edit u u' l a -> uns_GroupVersionKind u' = uns_GroupVersionKind u.
Proof using Type. intros Hu. apply GroupVersionKind_frame, (he_other _ _ _ _ Hu). Qed.

Lemma SetLabels_edit l u : metadata_ok u = true -> hpa_edit u (uns_SetLabels l u) l (uns_GetAnnotations u).
Proof using Type.
  intros Hu. destruct (Meta_SetLabels l) as [Hm Hok Ho]. split; [auto|auto|..];
    unfold uns_GetName, uns_GetNamespace, uns_GetLabels, uns_GetAnnotations; by rewrite (Hm _ Hu).
Qed.

Lemma SetAnnotations_edit a u : metadata_ok u = true -> hpa_edit u (uns_SetAnnotations a u) (uns_GetLabels u) a.
Proof using Type.
  intros Hu. destruct (Meta_SetAnnotations a) as [Hm Hok Ho]. split; [auto|auto|..];
    unfold uns_GetName, uns_GetNamespace, uns_GetLabels, uns_GetAnnotations; by rewrite (Hm _ Hu).
Qed.

Lemma addFedHPAEnableLabel_edit u u' b : metadata_ok u = true -> addFedHPAEnableLabel u = (u', b) ->
  hpa_edit u u' (<[CentralizedHPAEnableKey := AnnotationValueTrue]> (uns_GetLabels u)) (uns_GetAnnotations u) /\
  (b = false -> u' = u) /\
  (<[CentralizedHPAEnableKey := AnnotationValueTrue]> (uns_GetLabels u) = uns_GetLabels u -> b = false).
Proof using Type.
  intros Hu. unfold addFedHPAEnableLabel. case_bool_decide as Hl; intros [= <- <-].
  - rewrite insert_id by done. split_and!; [by apply edit_refl|done..].
  - split_and!; [by apply SetLabels_edit|done|]. intros E. destruct Hl. by rewrite <- E, lookup_insert_eq.
Qed.

Lemma removeFedHPAEnableLabel_edit u u' b : metadata_ok u = true -> removeFedHPAEnableLabel u = (u', b) ->
  hpa_edit u u' (delete CentralizedHPAEnableKey (uns_GetLabels u)) (uns_GetAnnotations u) /\ (b = false -> u' = u) /\
  (delete CentralizedHPAEnableKey (uns_GetLabels u) = uns_GetLabels u -> b = false).
Proof using Type.
  intros Hu. unfold removeFedHPAEnableLabel. destruct (uns_GetLabels u !! CentralizedHPAEnableKey) eqn:Hl; intros [= <- <-].
  - split_and!; [by apply SetLabels_edit|done|]. intros E. by rewrite <- E, lookup_delete_eq in Hl.
  - rewrite delete_id by done. split_and!; [by apply edit_refl|done..].
Qed.

Lemma addFedHPANotWorkReasonAnno_edit u reason u' b : metadata_ok u = true -> addFedHPANotWorkReasonAnno u reason = (u', b) ->
  hpa_edit u u' (uns_GetLabels u) (<[FedHPANotWorkReason := reason]> (uns_GetAnnotations u)) /\ (b = false -> u' = u) /\
  (<[FedHPANotWorkReason := reason]> (uns_GetAnnotations u) = uns_GetAnnotations u -> b = false).
Proof using Type.
  intros Hu. unfold addFedHPANotWorkReasonAnno. case_bool_decide as Hl; intros [= <- <-].
  - rewrite insert_id by done. split_and!; [by apply edit_refl|done..].
  - split_and!; [by apply SetAnnotations_edit|done|]. intros E. destruct Hl. by rewrite <- E, lookup_insert_eq.
Qed.

Lemma removeFedHPANotWorkReasonAnno_edit u u' b : metadata_ok u = true -> removeFedHPANotWorkReasonAnno u = (u', b) ->
  hpa_edit u u' (uns_GetLabels u) (delete FedHPANotWorkReason (uns_GetAnnotations u)) /\ (b = false -> u' = u) /\
  (delete FedHPANotWorkReason (uns_GetAnnotations u) = uns_GetAnnotations u -> b = false).
Proof using Type.
  intros Hu. unfold removeFedHPANotWorkReasonAnno. destruct (uns_GetAnnotations u !! FedHPANotWorkReason) eqn:Hl; intros [= <- <-].
  - split_and!; [by apply SetAnnotations_edit|done|]. intros E. by rewrite <- E, lookup_delete_eq in Hl.
  - rewrite delete_id by done. split_and!; [by apply edit_refl|done..].
Qed.

(** *** The two modes *)

Definition modeOf r : string := default ""%string (uns_GetLabels (hr_hpaObject r) !! FederatedHPAMode).
Definition centralized r : bool := String.eqb (modeOf r) FederatedHPAModeCentralized.
Definition known_mode r : Prop :=
  modeOf r ∈ [FederatedHPAModeCentralized; FederatedHPAModeDistributed; FederatedHPAModeDefault].

(** Whether the autoscaler works in its mode, and why not. *)
Definition works r : bool :=
  match hr_fedWorkloadObject r with
  | None => true
  | Some w => if centralized r then policyIs isPropagationPolicyDividedMode (hr_ppObject r)
              else followable r (hr_hpaObject r) w
  end.
Definition reason r : string :=
  if centralized r then generateCentralizedHPANotWorkReason (hr_newPPResource r) (hr_ppObject r)
  else match hr_fedWorkloadObject r with
       | Some w => generateDistributedHPANotWorkReason (hr_newPPResource r) (hr_ppObject r) w (hr_hpaObject r)
       | None => ""%string
       end.

(** The conditions of the modes: a centralized autoscaler needs a policy that
    divides replicas; a distributed one a policy that duplicates them and
    schedules followers, and a workload that it follows and that retains replicas. *)
Definition works_when r : Prop :=
  forall w, hr_fedWorkloadObject r = Some w ->
  exists pp, hr_ppObject r = Some pp /\
  if centralized r then pps_SchedulingMode (GetSpec pp) = SchedulingModeDivide
  else pps_SchedulingMode (GetSpec pp) = SchedulingModeDuplicate /\ DisableFollowerScheduling (GetSpec pp) = false /\
    fo_Annotations w !! RetainReplicasAnnotation = Some AnnotationValueTrue /\
    uns_GetAnnotations (hr_hpaObject r) !! DisableFollowingAnnotation <> Some AnnotationValueTrue /\
    exists followers, GetFollowersFromAnnotation w = inl followers /\
      {| fr_Name := uns_GetName (hr_hpaObject r); fr_Namespace := uns_GetNamespace (hr_hpaObject r);
         fr_GroupKind := (gvk_Group (uns_GroupVersionKind (hr_hpaObject r)), gvk_Kind (uns_GroupVersionKind (hr_hpaObject r))) |}
      ∈ followers.

Lemma annotation_true (a : gmap string string) k :
  String.eqb (default ""%string (a !! k)) AnnotationValueTrue = true <-> a !! k = Some AnnotationValueTrue.
Proof using Type. unfold AnnotationValueTrue. rewrite String.eqb_eq. destruct (a !! k); simpl; split; congruence. Qed.

Lemma follow_spec u w : isHPAFollowTheWorkload u w = true <->
  uns_GetAnnotations u !! DisableFollowingAnnotation <> Some AnnotationValueTrue /\
  exists followers, GetFollowersFromAnnotation w = inl followers /\
    {| fr_Name := uns_GetName u; fr_Namespace := uns_GetNamespace u;
       fr_GroupKind := (gvk_Group (uns_GroupVersionKind u), gvk_Kind (uns_GroupVersionKind u)) |} ∈ followers.
Proof using Type.
  unfold isHPAFollowTheWorkload. pose proof (annotation_true (uns_GetAnnotations u) DisableFollowingAnnotation) as Ha.
  destruct (String.eqb _ AnnotationValueTrue); [naive_solver|].
  destruct (GetFollowersFromAnnotation w) as [followers|]; [|naive_solver]. rewrite bool_decide_eq_true. naive_solver.
Qed.

Lemma works_spec r : works r = true <-> works_when r.
Proof using Type.
  unfold works, works_when. destruct (hr_fedWorkloadObject r) as [w|]; [|naive_solver].
  unfold followable, policyIs, isPropagationPolicyExist. destruct (hr_ppObject r) as [pp|]; simpl; [|destruct (centralized r); naive_solver].
  destruct (centralized r).
  - unfold isPropagationPolicyDividedMode. rewrite String.eqb_eq. naive_solver.
  - rewrite !andb_true_iff, follow_spec. unfold isWorkloadRetainReplicas, isPropagationPolicyDuplicateMode, isPropagationPolicyFollowerEnabled.
    rewrite annotation_true, String.eqb_eq, negb_true_iff. naive_solver.
Qed.

(** An autoscaler stays in the host cluster unless it works in the clusters. *)
Definition held r : bool := centralized r || negb (works r).

Definition labels_due r (labels : gmap string string) : gmap string string :=
  if centralized r && works r then <[CentralizedHPAEnableKey := AnnotationValueTrue]> labels
  else delete CentralizedHPAEnableKey labels.
Definition annotations_due r (annotations : gmap string string) : gmap string string :=
  if works r then delete FedHPANotWorkReason annotations else <[FedHPANotWorkReason := reason r]> annotations.
Definition events_due r : list HPAEvent :=
  if works r then []
  else [if centralized r then CentralizedHPANotWork (reason r) else DistributedHPANotWork (reason r)].
Definition pending_due r : (FederatedObject * bool) + string :=
  if held r then addFedHPAPendingController (hr_fedHPAObject r) (hr_hpaFTC r)
  else removePendingController (hr_hpaFTC r) (hr_fedHPAObject r).

Lemma follow_edit u u' l a w : hpa_edit u u' l a ->
  a !! DisableFollowingAnnotation = uns_GetAnnotations u !! DisableFollowingAnnotation ->
  isHPAFollowTheWorkload u' w = isHPAFollowTheWorkload u w.
Proof using Type.
  intros Hu Ha. unfold isHPAFollowTheWorkload. rewrite (edit_kind _ _ _ _ Hu). destruct Hu as [_ _ -> -> _ ->]. by rewrite Ha.
Qed.

Lemma applyMode_spec r : metadata_ok (hr_hpaObject r) = true -> known_mode r ->
  let m := applyMode r in
  (mo_failed m = true /\ exists err, pending_due r = inr err) \/
  (mo_failed m = false /\
   hpa_edit (hr_hpaObject r) (mo_hpaObject m) (labels_due r (uns_GetLabels (hr_hpaObject r)))
     (annotations_due r (uns_GetAnnotations (hr_hpaObject r))) /\
   (mo_isHPAObjectUpdated m = false -> mo_hpaObject m = hr_hpaObject r) /\
   (labels_due r (uns_GetLabels (hr_hpaObject r)) = uns_GetLabels (hr_hpaObject r) ->
    annotations_due r (uns_GetAnnotations (hr_hpaObject r)) = uns_GetAnnotations (hr_hpaObject r) ->
    mo_isHPAObjectUpdated m = false) /\
   pending_due r = inl (mo_fedHPAObject m, mo_isFedHPAObjectUpdated m) /\
   mo_events m = events_due r).
Proof using Type.
  intros Hu Hmode. cbv zeta. unfold applyMode. fold (modeOf r). fold (centralized r).
  destruct (centralized r) eqn:Ec.
  - unfold applyCentralized, pending_due, held, labels_due, annotations_due, events_due, works, reason. rewrite Ec. cbn [orb].
    destruct (addFedHPAPendingController _ _) as [[fed b]|err] eqn:Ep; [|left; by eauto]. right.
    replace (bool_decide (hr_fedWorkloadObject r = None) || _)
      with (match hr_fedWorkloadObject r with None => true | Some _ => policyIs isPropagationPolicyDividedMode (hr_ppObject r) end)
      by (by destruct (hr_fedWorkloadObject r)).
    destruct (match hr_fedWorkloadObject r with None => true | Some _ => _ end); cbn [andb].
    + destruct (removeFedHPANotWorkReasonAnno (hr_hpaObject r)) as [u1 b1] eqn:E1.
      destruct (removeFedHPANotWorkReasonAnno_edit _ _ _ Hu E1) as (He1 & Hb1 & Hq1).
      destruct (addFedHPAEnableLabel u1) as [u2 b2] eqn:E2.
      destruct (addFedHPAEnableLabel_edit _ _ _ (he_ok _ _ _ _ He1) E2) as (He2 & Hb2 & Hq2). cbn. destruct He1 as [? ? ? ? El Ea] eqn:E.
      rewrite El, Ea in *. split_and!; [done|by eapply edit_trans|..|done|done].
      * intros [-> ->]%orb_false_iff. rewrite Hb2, Hb1; done.
      * intros Hl Ha. by rewrite Hq1, Hq2.
    + destruct (addFedHPANotWorkReasonAnno (hr_hpaObject r) _) as [u1 b1] eqn:E1.
      destruct (addFedHPANotWorkReasonAnno_edit _ _ _ _ Hu E1) as (He1 & Hb1 & Hq1).
      destruct (removeFedHPAEnableLabel u1) as [u2 b2] eqn:E2.
      destruct (removeFedHPAEnableLabel_edit _ _ _ (he_ok _ _ _ _ He1) E2) as (He2 & Hb2 & Hq2). cbn. destruct He1 as [? ? ? ? El Ea] eqn:E.
      rewrite El, Ea in *. split_and!; [done|by eapply edit_trans|..|done|done].
      * intros [-> ->]%orb_false_iff. rewrite Hb2, Hb1; done.
      * intros Hl Ha. by rewrite Hq1, Hq2.
  - assert (String.eqb (modeOf r) FederatedHPAModeDistributed || String.eqb (modeOf r) FederatedHPAModeDefault = true) as ->.
    { unfold centralized in Ec. apply orb_true_iff. rewrite !String.eqb_eq. apply String.eqb_neq in Ec.
      unfold known_mode in Hmode. rewrite !elem_of_cons, elem_of_nil in Hmode. naive_solver. }
    unfold applyDistributed, pending_due, held, labels_due, annotations_due, events_due, works, reason. rewrite Ec. cbn [orb andb].
    destruct (removeFedHPAEnableLabel (hr_hpaObject r)) as [u1 b1] eqn:E1.
    destruct (removeFedHPAEnableLabel_edit _ _ _ Hu E1) as (He1 & Hb1 & Hq1).
    assert (forall u2 b2 a events pending, hpa_edit u1 u2 (uns_GetLabels u1) a -> (b2 = false -> u2 = u1) ->
      (a = uns_GetAnnotations u1 -> b2 = false) -> let m := withPending r u2 (b2 || b1) events pending in
      (mo_failed m = true /\ exists err, pending = inr err) \/
      (mo_failed m = false /\ hpa_edit (hr_hpaObject r) (mo_hpaObject m) (delete CentralizedHPAEnableKey (uns_GetLabels (hr_hpaObject r))) a /\
       (mo_isHPAObjectUpdated m = false -> mo_hpaObject m = hr_hpaObject r) /\
       (delete CentralizedHPAEnableKey (uns_GetLabels (hr_hpaObject r)) = uns_GetLabels (hr_hpaObject r) ->
        a = uns_GetAnnotations (hr_hpaObject r) -> mo_isHPAObjectUpdated m = false) /\
       pending = inl (mo_fedHPAObject m, mo_isFedHPAObjectUpdated m) /\ mo_events m = events)) as Hlast.
    { intros u2 b2 a events pending He2 Hb2 Hq2. destruct pending as [[fed b]|err]; [right|left; by eauto]. cbn. split_and!; [done| |..|done|done].
      - rewrite (he_labels _ _ _ _ He1) in He2. by eapply edit_trans.
      - intros [-> ->]%orb_false_iff. rewrite Hb2, Hb1; done.
      - intros Hl Ha. rewrite (he_annotations _ _ _ _ He1) in Hq2. by rewrite Hq1, Hq2. }
    assert (forall w, followable r u1 w = followable r (hr_hpaObject r) w) as Ef.
    { intros w. unfold followable. by rewrite (follow_edit _ _ _ _ w He1). }
    assert (forall w, generateDistributedHPANotWorkReason (hr_newPPResource r) (hr_ppObject r) w u1 =
      generateDistributedHPANotWorkReason (hr_newPPResource r) (hr_ppObject r) w (hr_hpaObject r)) as Er.
    { intros w. unfold generateDistributedHPANotWorkReason. by rewrite (follow_edit _ _ _ _ w He1). }
    assert (uns_GetAnnotations u1 = uns_GetAnnotations (hr_hpaObject r)) as Ea1 by apply He1.
    destruct (hr_fedWorkloadObject r) as [w|]; [rewrite Ef, Er; destruct (followable r (hr_hpaObject r) w)|]; cbn [negb].
    2: { destruct (addFedHPANotWorkReasonAnno u1 _) as [u2 b2] eqn:E2.
         destruct (addFedHPANotWorkReasonAnno_edit _ _ _ _ (he_ok _ _ _ _ He1) E2) as (He2 & Hb2 & Hq2). rewrite Ea1 in He2, Hq2; apply Hlast; by rewrite ?Ea1. }
    all: destruct (removeFedHPANotWorkReasonAnno u1) as [u2 b2] eqn:E2;
      destruct (removeFedHPANotWorkReasonAnno_edit _ _ _ (he_ok _ _ _ _ He1) E2) as (He2 & Hb2 & Hq2); rewrite Ea1 in He2, Hq2; apply Hlast; by rewrite ?Ea1.
Qed.

(** *** Pending controllers *)

(** The controller is in a group. *)
Definition listed (cs : PendingControllers) : bool :=
  existsb (existsb (fun controller => String.eqb controller PrefixedFederatedHPAControllerName)) cs.

Lemma listed_normal cs : listed (NormalizeControllers cs) = listed cs.
Proof using Type.
  rewrite NormalizeControllers_filter. induction cs as [|g cs IH]; [done|]. rewrite filter_cons.
  case_decide as Hg; unfold listed in *; simpl; rewrite IH; [done|].
  by rewrite Hg.
Qed.

Lemma SetPendingControllers_false o cs o' : SetPendingControllers o cs = inl (o', false) -> o' = o.
Proof using Type.
  unfold SetPendingControllers, AddAnnotation. destruct (Marshal_PendingControllers _); [|done].
  destruct (String.eqb _ ""); [done|]. destruct (HasAnnotationKeyValue _ _ _); congruence.
Qed.

Lemma addPending_spec o ftc o' b : listed (GetControllers ftc) = true -> addFedHPAPendingController o ftc = inl (o', b) ->
  (exists cs, GetPendingControllers o' = inl cs /\ listed cs = true) /\
  (exists a, o' = SetAnnotations o (<[PendingControllersAnnotation := a]> (fo_Annotations o)) \/ o' = o) /\
  (b = false -> o' = o) /\ addFedHPAPendingController o' ftc = inl (o', false).
Proof using Type.
  intros Hftc. unfold addFedHPAPendingController. destruct (GetPendingControllers o) as [cs|] eqn:Eg; [|done].
  fold (listed cs). destruct (listed cs) eqn:El.
  - intros [= <- <-]. rewrite Eg. fold (listed cs). rewrite El. split_and!; [by exists cs| |done|done]. exists ""%string. by right.
  - destruct (SetPendingControllers o _) as [[o1 ch]|] eqn:Es; [|done]. intros [= <- <-].
    apply SetPendingControllers_spec in Es as (Eg1 & [a Ea] & _). rewrite Eg1. fold (listed (NormalizeControllers (GetControllers ftc))).
    rewrite listed_normal, Hftc. split_and!; [|exists a; by left|done|done].
    eexists. split; [done|]. by rewrite listed_normal.
Qed.

Lemma removePending_spec o ftc o' b cs : GetPendingControllers o = inl cs ->
  runs_once PrefixedFederatedHPAControllerName cs -> removePendingController ftc o = inl (o', b) ->
  (exists cs', GetPendingControllers o' = inl cs' /\ listed cs' = false) /\
  (exists a, o' = SetAnnotations o (<[PendingControllersAnnotation := a]> (fo_Annotations o))) /\
  (b = false -> o' = o) /\ removePendingController ftc o' = inl (o', false).
Proof using Type.
  intros Hg [Hnd Hrest] Hr. unfold removePendingController in *.
  destruct (UpdatePendingControllers_spec _ _ false _ cs _ _ Hg Hnd Hrest Hr) as (Hg' & Hagain & Ha). split_and!.
  - eexists. split; [done|]. rewrite listed_normal. unfold remaining, listed. cbn [existsb]. apply orb_false_iff. split.
    + apply not_true_iff_false. rewrite existsb_exists. intros (x & Hx & ->%String.eqb_eq).
      apply (removeFirst_NoDup PrefixedFederatedHPAControllerName) in Hnd. by apply Hnd, list_elem_of_In.
    + apply not_true_iff_false. rewrite existsb_exists. intros (g & Hin & Hx). apply existsb_exists in Hx as (x & Hx & ->%String.eqb_eq).
      apply list_elem_of_In in Hin, Hx. by eapply Hrest.
  - done.
  - intros ->. unfold UpdatePendingControllers in Hr. rewrite Hg in Hr. destruct cs; by apply SetPendingControllers_false in Hr.
  - done.
Qed.

(** The federated object of an autoscaler may be let go at most once, and its
    type lists the controller. *)
Record hpa_config r : Prop := {
  hc_ftc : listed (GetControllers (hr_hpaFTC r)) = true;
  hc_once : forall cs, GetPendingControllers (hr_fedHPAObject r) = inl cs -> runs_once PrefixedFederatedHPAControllerName cs;
  hc_metadata : metadata_ok (hr_hpaObject r) = true;
  hc_mode : known_mode r
}.

Lemma pending_spec r o b : hpa_config r -> pending_due r = inl (o, b) ->
  (exists cs, GetPendingControllers o = inl cs /\ listed cs = held r) /\
  (exists a, o = SetAnnotations (hr_fedHPAObject r) (<[PendingControllersAnnotation := a]> (fo_Annotations (hr_fedHPAObject r))) \/
             o = hr_fedHPAObject r) /\
  (b = false -> o = hr_fedHPAObject r) /\
  (if held r then addFedHPAPendingController o (hr_hpaFTC r) else removePendingController (hr_hpaFTC r) o) = inl (o, false).
Proof using Type.
  intros Hc. unfold pending_due. destruct (held r).
  - intros Hp. by apply addPending_spec in Hp; [|apply Hc].
  - intros Hp. destruct (GetPendingControllers (hr_fedHPAObject r)) as [cs|] eqn:Eg.
    + destruct (removePending_spec _ _ _ _ _ Eg (hc_once _ Hc _ Eg) Hp) as (H1 & [a H2] & H3 & H4).
      split_and!; [done| |done|done]. exists a. by left.
    + unfold removePendingController, UpdatePendingControllers in Hp. by rewrite Eg in Hp.
Qed.

Lemma sendUpdates_ok e key r m : ho_result (sendUpdates e key r m) = StatusAllOK ->
  sendUpdates e key r m = {| ho_result := StatusAllOK;
    ho_hpaSent := if mo_isHPAObjectUpdated m then Some (mo_hpaObject m) else None;
    ho_fedSent := if mo_isFedHPAObjectUpdated m then Some (mo_fedHPAObject m) else None; ho_events := mo_events m |}.
Proof using Type.
  unfold sendUpdates, updateError.
  destruct (_ ≫= he_UpdateHPA e (hr_hpaGVR r) _) as [err|]; [by destruct (IsConflict err)|].
  destruct (_ ≫= he_UpdateFedObject e) as [err|]; [by destruct (IsConflict err)|done].
Qed.

(** C26. A reconciliation that succeeds leaves a centralized autoscaler in the
    host cluster, marked as enabled exactly if the policy of its workload divides
    replicas, and lets a distributed one go to the member clusters exactly if its
    policy duplicates replicas and schedules followers, the workload retains
    replicas and the autoscaler follows it.  An autoscaler that does not work has
    the reason written on it and recorded as an event; nothing else is changed. *)
Theorem hpa_gate e s key s1 r s' out : hpa_wf s -> handleCache e s key = Returns (s1, inl r) -> hpa_config r ->
  reconcile e s key = Returns (s', out) -> ho_result out = StatusAllOK ->
  let hpa := default (hr_hpaObject r) (ho_hpaSent out) in
  let fed := default (hr_fedHPAObject r) (ho_fedSent out) in
  (works r = true <-> works_when r) /\
  hpa_edit (hr_hpaObject r) hpa
    (if centralized r && works r then <[CentralizedHPAEnableKey := AnnotationValueTrue]> (uns_GetLabels (hr_hpaObject r))
     else delete CentralizedHPAEnableKey (uns_GetLabels (hr_hpaObject r)))
    (if works r then delete FedHPANotWorkReason (uns_GetAnnotations (hr_hpaObject r))
     else <[FedHPANotWorkReason := reason r]> (uns_GetAnnotations (hr_hpaObject r))) /\
  (exists cs, GetPendingControllers fed = inl cs /\ listed cs = centralized r || negb (works r)) /\
  (exists a, fed = SetAnnotations (hr_fedHPAObject r) (<[PendingControllersAnnotation := a]> (fo_Annotations (hr_fedHPAObject r))) \/
             fed = hr_fedHPAObject r) /\
  length (ho_events out) = (if works r then 0 else 1)%nat /\
  hs_store s' !! fedHPAName r = Some fed.
Proof using Type.
  intros Hwf Hh Hc Hr Hok. apply reconcile_cases in Hr as (s2 & handled & Hh2 & Hr). rewrite Hh in Hh2. injection Hh2 as <- <-.
  destruct Hr as [-> ->].
  destruct (applyMode_spec r (hc_metadata _ Hc) (hc_mode _ Hc)) as [[Hf _]|(Hf & Hedit & Hnothing & _ & Hp & Hev)];
    rewrite Hf in *; [done|]. apply sendUpdates_ok in Hok. rewrite Hok. cbn [ho_hpaSent ho_fedSent ho_events hs_store with_objects].
  destruct (pending_spec _ _ _ Hc Hp) as (Hl & Ha & Hsame & _).
  assert (default (hr_hpaObject r) (if mo_isHPAObjectUpdated (applyMode r) then Some (mo_hpaObject (applyMode r)) else None) =
    mo_hpaObject (applyMode r)) as ->.
  { destruct (mo_isHPAObjectUpdated _) eqn:E; [done|]. symmetry. by apply Hnothing. }
  assert (default (hr_fedHPAObject r) (if mo_isFedHPAObjectUpdated (applyMode r) then Some (mo_fedHPAObject (applyMode r)) else None) =
    mo_fedHPAObject (applyMode r)) as ->.
  { destruct (mo_isFedHPAObjectUpdated _); [done|]. symmetry. by apply Hsame. }
  split_and!; [apply works_spec|done|done|done| |apply lookup_insert_eq].
  rewrite Hev. unfold events_due. by destruct (works r).
Qed.

(** *** Running again *)

Lemma readHPA_inv e s key ftc hpa fed (w : Resource) : readHPA e s key = Returns (inl (ftc, hpa, fed, w)) ->
  he_ResourceFTC e (res_gvk key) = Some ftc /\
  hpa_GetFromLister e s (uns_GetNamespace hpa) (GenerateFederatedObjectName (uns_GetName hpa) (ftc_Name ftc)) = Returns (inl fed) /\
  ControllerDependenciesFulfilled fed PrefixedFederatedHPAControllerName = inl true /\
  scaleTargetRefToResource s (res_gvk key) hpa = Returns (inl w).
Proof using Type.
  unfold readHPA. destruct (he_ResourceFTC e (res_gvk key)) as [ftc'|]; [|done].
  destruct (he_ResourceLister e (res_gvk key)) as [l|]; [|done]. destruct (negb (rl_HasSynced l)); [done|].
  destruct (rl_Get l _) as [hpa'|]; [|done]. intros Hr. apply may_panic_bind_Returns in Hr as ([fed'|] & Hfed & Hr); [|done].
  destruct (ControllerDependenciesFulfilled fed' _) as [[]|] eqn:Ef; [|done..].
  apply may_panic_bind_Returns in Hr as ([w'|] & Hw & Hr); [|done]. by injection Hr as -> -> -> ->.
Qed.

(** [e'] answers as [e] does, and shows the autoscaler as [hpa']; the API server
    may answer in any way. *)
Record reads_again e e' key (hpa' : Unstructured) : Prop := {
  ra_ftc : forall gvk, he_ResourceFTC e' gvk = he_ResourceFTC e gvk;
  ra_lister : exists l, he_ResourceLister e' (res_gvk key) = Some l /\ rl_HasSynced l = true /\
    rl_Get l (QualifiedName_String (Resource_QualifiedName key)) = inl hpa';
  ra_store : forall name, he_ListerError e' name = he_ListerError e name;
  ra_policy : forall p, getPropagationPolicyFromResource e' p = getPropagationPolicyFromResource e p
}.

(** The reference is not part of the metadata. *)
Definition reference_outside s key : Prop :=
  exists path k fields, gvkToScaleTargetRef s !! res_gvk key = Some path /\ split_on "." path = k :: fields /\
  k <> "metadata"%string.

(** The workload is not the autoscaler itself. *)
Definition other_object e s key r : Prop := forall (w : Resource) ftc,
  scaleTargetRefToResource s (res_gvk key) (hr_hpaObject r) = Returns (inl w) ->
  he_ResourceFTC e (res_gvk w) = Some ftc ->
  {| qn_Namespace := res_namespace w; qn_Name := GenerateFederatedObjectName (res_name w) (ftc_Name ftc) |} <> fedHPAName r.

Definition reread r hpa' fed' : handleCacheResp := {|
  hr_hpaFTC := hr_hpaFTC r; hr_hpaGVR := hr_hpaGVR r; hr_hpaObject := hpa'; hr_fedHPAObject := fed';
  hr_fedWorkloadObject := hr_fedWorkloadObject r; hr_ppObject := hr_ppObject r; hr_newPPResource := hr_newPPResource r |}.

Lemma GetFromLister_stored e e' s s' ns name fed fed' : (forall n, he_ListerError e' n = he_ListerError e n) ->
  hpa_GetFromLister e s ns name = Returns (inl fed) -> hs_store s' !! {| qn_Namespace := ns; qn_Name := name |} = Some fed' ->
  hpa_GetFromLister e' s' ns name = Returns (inl fed').
Proof using Type.
  intros He. unfold hpa_GetFromLister. rewrite He. destruct (String.eqb ns ""); [done|].
  destruct (he_ListerError e _); [done|]. by intros _ ->.
Qed.

Lemma GetFromLister_other e e' s s' ns name : (forall n, he_ListerError e' n = he_ListerError e n) ->
  hs_store s' !! {| qn_Namespace := ns; qn_Name := name |} = hs_store s !! {| qn_Namespace := ns; qn_Name := name |} ->
  hpa_GetFromLister e' s' ns name = hpa_GetFromLister e s ns name.
Proof using Type. intros He Hs. unfold hpa_GetFromLister. by rewrite He, Hs. Qed.

Lemma scaleTargetRef_again s s' key hpa hpa' l a : hpa_edit hpa hpa' l a -> reference_outside s key ->
  gvkToScaleTargetRef s' = gvkToScaleTargetRef s ->
  scaleTargetRefToResource s' (res_gvk key) hpa' = scaleTargetRefToResource s (res_gvk key) hpa.
Proof using Type.
  intros Hu (path & k & fields & Hp & Hsplit & Hk) Hs. unfold scaleTargetRefToResource, getGVKToScaleTargetRef.
  rewrite Hs, Hp, Hsplit, (he_namespace _ _ _ _ Hu).
  by rewrite (NestedField_frame (uns_Object hpa') (uns_Object hpa) k fields) by by apply (he_other _ _ _ _ Hu).
Qed.

(** The objects are read again as they were, but for those that are written; or
    the reconciliation is not the controller's turn any more. *)
Lemma handleCache_again e e' s s' key s1 r hpa' fed' l a :
  hpa_wf s -> handleCache e s key = Returns (s1, inl r) -> hpa_edit (hr_hpaObject r) hpa' l a ->
  reads_again e e' key hpa' -> reference_outside s key -> other_object e s key r ->
  s' = with_objects s1 (<[fedHPAName r := fed']> (hs_store s1)) ->
  exists s'' handled, handleCache e' s' key = Returns (s'', handled) /\
    (handled = inl (reread r hpa' fed') \/ exists res, handled = inr res).
Proof using T.
  intros Hwf Hh Hu [Hftc (lis & Hlis & Hsync & Hget) Herr Hpol] Href Hother Es'.
  destruct (handleCache_spec _ _ _ _ _ Hwf Hh) as (Hwf1 & Eg1 & Es1 & w & Hread & Egvr & Hfw & Enp & Epp & Hnf & _).
  apply readHPA_inv in Hread as (Eftc & Hfed & _ & Hw).
  assert (hpa_wf s') as Hwf' by (rewrite Es'; by apply with_objects_wf).
  assert (gvkToScaleTargetRef s' = gvkToScaleTargetRef s) as Eg' by by rewrite Es'.
  destruct (recordWorkload_spec s' w key Hwf') as (s2 & Erec & Hwf2 & _ & Es2 & _).
  assert (readHPA e' s' key = Returns (inl (hr_hpaFTC r, hpa', fed', w)) \/ exists res, readHPA e' s' key = Returns (inr res)) as Hread'.
  { unfold readHPA. rewrite Hftc, Eftc, Hlis, Hsync. cbn [negb]. rewrite Hget, (he_name _ _ _ _ Hu), (he_namespace _ _ _ _ Hu).
    rewrite (GetFromLister_stored e e' s s' _ _ _ fed' Herr Hfed) by (rewrite Es'; apply lookup_insert_eq). cbn [mbind may_panic_bind].
    destruct (ControllerDependenciesFulfilled fed' _) as [[]|]; [|right; by eexists..].
    rewrite (scaleTargetRef_again s s' key _ hpa' l a Hu Href Eg'), Hw. by left. }
  assert (getFedWorkLoadFromResource e' s2 w = getFedWorkLoadFromResource e s w) as Efw.
  { unfold getFedWorkLoadFromResource. rewrite Hftc. destruct (he_ResourceFTC e (res_gvk w)) as [ftc|] eqn:Ef; [|done].
    rewrite (GetFromLister_other e e' s s2); [done|done|]. rewrite Es2, Es'. cbn [with_objects hs_store].
    rewrite lookup_insert_ne, Es1; [done|]. intros E. by eapply Hother. }
  unfold handleCache. destruct Hread' as [->|[res ->]]; cbn [mbind may_panic_bind]; [|do 2 eexists; split; [done|right; by eexists]].
  rewrite Erec, Efw, Hfw. cbn [mbind may_panic_bind].
  assert (exists s3 policy, readPolicy e' s2 (hr_fedWorkloadObject r) w = (s3, policy) /\ policy = inl (hr_newPPResource r, hr_ppObject r))
    as (s3 & policy & Erp & ->).
  { unfold readPolicy. rewrite <- Enp, Epp. destruct (hr_newPPResource r) as [p|]; [|do 2 eexists; by split].
    destruct (recordPolicy_spec s2 p w Hwf2) as (s3 & -> & _). do 2 eexists. split; [done|]. rewrite Hpol. cbn [mbind option_bind].
    destruct (getPropagationPolicyFromResource e p) as [pp|err] eqn:Ep; [done|]. by rewrite (Hnf p err eq_refl Ep). }
  exists s3. destruct (hr_fedWorkloadObject r) as [o|] eqn:Eo; cbn [IsNotFound]; rewrite Erp; eexists; (split; [done|left]);
    unfold reread; by rewrite Egvr, Eo.
Qed.

Lemma labels_due_mode r l : labels_due r l !! FederatedHPAMode = l !! FederatedHPAMode.
Proof using Type. unfold labels_due. case_match; [by rewrite lookup_insert_ne|by rewrite lookup_delete_ne]. Qed.
Lemma labels_due_idemp r l : labels_due r (labels_due r l) = labels_due r l.
Proof using Type. unfold labels_due. case_match; [by rewrite insert_insert_eq|by rewrite delete_delete_eq]. Qed.
Lemma annotations_due_follow r a : annotations_due r a !! DisableFollowingAnnotation = a !! DisableFollowingAnnotation.
Proof using Type. unfold annotations_due. case_match; [by rewrite lookup_delete_ne|by rewrite lookup_insert_ne]. Qed.
Lemma annotations_due_idemp r a : annotations_due r (annotations_due r a) = annotations_due r a.
Proof using Type. unfold annotations_due. case_match; [by rewrite delete_delete_eq|by rewrite insert_insert_eq]. Qed.

(** What is due does not depend on what is written. *)
Lemma reread_due r hpa' fed' l a : hpa_edit (hr_hpaObject r) hpa' l a ->
  l !! FederatedHPAMode = uns_GetLabels (hr_hpaObject r) !! FederatedHPAMode ->
  a !! DisableFollowingAnnotation = uns_GetAnnotations (hr_hpaObject r) !! DisableFollowingAnnotation ->
  let r' := reread r hpa' fed' in
  modeOf r' = modeOf r /\ works r' = works r /\ reason r' = reason r.
Proof using Type.
  intros Hu Hl Ha. cbv zeta.
  assert (modeOf (reread r hpa' fed') = modeOf r) as Em by (unfold modeOf; cbn; by rewrite (he_labels _ _ _ _ Hu), Hl).
  assert (centralized (reread r hpa' fed') = centralized r) as Ec by (unfold centralized; by rewrite Em).
  split_and!; [done|unfold works|unfold reason]; rewrite Ec; cbn; destruct (hr_fedWorkloadObject r) as [w|]; try done;
    destruct (centralized r); try done; unfold followable, generateDistributedHPANotWorkReason; cbn;
    by rewrite (follow_edit _ _ _ _ w Hu Ha).
Qed.

Lemma applyMode_again r hpa' l a : hpa_config r -> mo_failed (applyMode r) = false -> hpa_edit (hr_hpaObject r) hpa' l a ->
  l !! FederatedHPAMode = uns_GetLabels (hr_hpaObject r) !! FederatedHPAMode ->
  a !! DisableFollowingAnnotation = uns_GetAnnotations (hr_hpaObject r) !! DisableFollowingAnnotation ->
  let m' := applyMode (reread r hpa' (mo_fedHPAObject (applyMode r))) in
  mo_isFedHPAObjectUpdated m' = false /\
  (l = labels_due r l -> a = annotations_due r a -> mo_isHPAObjectUpdated m' = false).
Proof using Type.
  intros Hc Hok Hu Hl Ha. cbv zeta. set (r' := reread r hpa' (mo_fedHPAObject (applyMode r))).
  destruct (reread_due r hpa' (mo_fedHPAObject (applyMode r)) l a Hu Hl Ha) as (Em & Ew & Er). fold r' in Em, Ew, Er.
  assert (centralized r' = centralized r) as Ec by (unfold centralized; by rewrite Em).
  assert (held r' = held r) as Eh by (unfold held; by rewrite Ec, Ew).
  assert (known_mode r') as Hmode by (unfold known_mode; rewrite Em; apply Hc).
  assert (uns_GetLabels (hr_hpaObject r') = l /\ uns_GetAnnotations (hr_hpaObject r') = a) as [El Ea] by (split; apply Hu).
  assert (pending_due r' = inl (mo_fedHPAObject (applyMode r), false)) as Hdue.
  { destruct (applyMode_spec r (hc_metadata _ Hc) (hc_mode _ Hc)) as [[Hf _]|(_ & _ & _ & _ & Hp & _)]; [congruence|].
    destruct (pending_spec _ _ _ Hc Hp) as (_ & _ & _ & Hagain). unfold pending_due. by rewrite Eh. }
  destruct (applyMode_spec r' (he_ok _ _ _ _ Hu) Hmode) as [[_ [err He]]|(_ & _ & _ & Hq & Hp & _)].
  - by rewrite Hdue in He.
  - rewrite Hdue in Hp. injection Hp as _ Hp. split; [done|]. intros E1 E2. apply Hq; rewrite ?El, ?Ea.
    + unfold labels_due. rewrite Ec, Ew. by symmetry.
    + unfold annotations_due. rewrite Ew, Er. by symmetry.
Qed.

(** A second reconciliation, after one that did not fail to set the pending
    controllers, sends no federated object; and no autoscaler if it sees what
    the first one sent. *)
Lemma reconcile_again e e' s key s1 r s' out hpa' l a : hpa_wf s -> handleCache e s key = Returns (s1, inl r) ->
  hpa_config r -> reference_outside s key -> other_object e s key r -> reconcile e s key = Returns (s', out) ->
  mo_failed (applyMode r) = false -> reads_again e e' key hpa' -> hpa_edit (hr_hpaObject r) hpa' l a ->
  l !! FederatedHPAMode = uns_GetLabels (hr_hpaObject r) !! FederatedHPAMode ->
  a !! DisableFollowingAnnotation = uns_GetAnnotations (hr_hpaObject r) !! DisableFollowingAnnotation ->
  exists s'' out', reconcile e' s' key = Returns (s'', out') /\ ho_fedSent out' = None /\
    (l = labels_due r l -> a = annotations_due r a -> ho_hpaSent out' = None).
Proof using T.
  intros Hwf Hh Hc Href Hother Hr Hok He' Hu Hl Ha.
  apply reconcile_cases in Hr as (s2 & handled & Hh2 & Hr). rewrite Hh in Hh2. injection Hh2 as <- <-. destruct Hr as [Es' _].
  destruct (handleCache_again e e' s s' key s1 r hpa' _ l a Hwf Hh Hu He' Href Hother Es') as (s'' & handled & Hh' & Hcases).
  unfold reconcile. rewrite Hh'. cbn [mbind may_panic_bind]. destruct Hcases as [->|[res ->]]; [|by do 2 eexists; split_and!].
  destruct (applyMode_again r hpa' l a Hc Hok Hu Hl Ha) as [Hfed Hhpa]. do 2 eexists. split; [done|].
  destruct (mo_failed (applyMode (reread r hpa' _))); [done|]. unfold sendUpdates. rewrite Hfed. cbn [mbind option_bind]. split.
  - by destruct (_ ≫= _).
  - intros El Ea. by rewrite (Hhpa El Ea).
Qed.

(** C28. A controller that succeeded has nothing left to do: a reconciliation
    that sees the autoscaler it wrote, whatever the API server would answer, sends
    neither an autoscaler nor a federated object. *)
Theorem hpa_settles e e' s key s1 r s' out : hpa_wf s -> handleCache e s key = Returns (s1, inl r) ->
  hpa_config r -> reference_outside s key -> other_object e s key r -> reconcile e s key = Returns (s', out) ->
  ho_result out = StatusAllOK -> reads_again e e' key (default (hr_hpaObject r) (ho_hpaSent out)) ->
  exists s'' out', reconcile e' s' key = Returns (s'', out') /\ ho_hpaSent out' = None /\ ho_fedSent out' = None.
Proof using T.
  intros Hwf Hh Hc Href Hother Hr Hok He'. pose proof Hr as Hr'.
  apply reconcile_cases in Hr' as (s2 & handled & Hh2 & Hr'). rewrite Hh in Hh2. injection Hh2 as <- <-. destruct Hr' as [_ Eout].
  destruct (applyMode_spec r (hc_metadata _ Hc) (hc_mode _ Hc)) as [[Hf _]|(Hf & Hedit & Hnothing & _)];
    rewrite Hf in Eout; subst out; [done|].
  assert (default (hr_hpaObject r) (ho_hpaSent (sendUpdates e key r (applyMode r))) = mo_hpaObject (applyMode r)) as Eh.
  { rewrite (sendUpdates_ok _ _ _ _ Hok). cbn. destruct (mo_isHPAObjectUpdated _) eqn:E; [done|]. symmetry. by apply Hnothing. }
  rewrite Eh in He'.
  destruct (reconcile_again e e' s key s1 r s' _ _ _ _ Hwf Hh Hc Href Hother Hr Hf He' Hedit
    (labels_due_mode _ _) (annotations_due_follow _ _)) as (s'' & out' & Hrun & Hfed & Hhpa).
  exists s'', out'. split_and!; [done| |done]. apply Hhpa; by rewrite ?labels_due_idemp, ?annotations_due_idemp.
Qed.

(** C29. When the pending controllers of a federated object change and one of the
    two updates fails, the change is lost: the retry sees it in the informer
    store and sends no federated object, although the API server has the old one. *)
Theorem hpa_failed_update_lost e e' s key s1 r s' out fed : hpa_wf s -> handleCache e s key = Returns (s1, inl r) ->
  hpa_config r -> reference_outside s key -> other_object e s key r -> reconcile e s key = Returns (s', out) ->
  (if centralized r || negb (works r) then addFedHPAPendingController (hr_fedHPAObject r) (hr_hpaFTC r)
   else removePendingController (hr_hpaFTC r) (hr_fedHPAObject r)) = inl (fed, true) ->
  ho_result out <> StatusAllOK -> reads_again e e' key (hr_hpaObject r) ->
  hs_store s' !! fedHPAName r = Some fed /\
  exists s'' out', reconcile e' s' key = Returns (s'', out') /\ ho_fedSent out' = None.
Proof using T.
  intros Hwf Hh Hc Href Hother Hr Hdue Hfail He'. change (pending_due r = inl (fed, true)) in Hdue.
  destruct (applyMode_spec r (hc_metadata _ Hc) (hc_mode _ Hc)) as [[_ [err He]]|(Hf & _ & _ & _ & Hp & _)]; [congruence|].
  rewrite Hdue in Hp. injection Hp as Efed Eup.
  destruct (reconcile_again e e' s key s1 r s' out _ _ _ Hwf Hh Hc Href Hother Hr Hf He' (edit_refl _ (hc_metadata _ Hc)) eq_refl eq_refl)
    as (s'' & out' & Hrun & Hsent & _).
  apply reconcile_cases in Hr as (s2 & handled & Hh2 & Hr). rewrite Hh in Hh2. injection Hh2 as <- <-. destruct Hr as [-> _].
  split; [by cbn; rewrite lookup_insert_eq, Efed|by exists s'', out'].
Qed.
End Modes.

(** ** Panics *)

Section Panics.
Context `{K : Kubernetes} `{C : !Codecs} `{T : SetsRuntime} `{F : FollowerCodecs} `{H : HPACodecs}.
Implicit Types (e : HPAEnvironment) (s : HPAState) (key : Resource).

Lemma GetFromLister_cases e s ns name :
  (exists found, hpa_GetFromLister e s ns name = Returns found) \/ (ns = ""%string /\ hpa_GetFromLister e s ns name = Panics).
Proof using Type. unfold hpa_GetFromLister. destruct (String.eqb_spec ns ""); [by right|left; by eexists]. Qed.

Lemma scaleTargetRef_namespace s gvk uns w : scaleTargetRefToResource s gvk uns = Returns (inl w) ->
  res_namespace w = uns_GetNamespace uns.
Proof using Type.
  unfold scaleTargetRefToResource. intros Hr. split_match_in Hr. injection Hr as Hr.
  apply bind_error_inl in Hr as (t & _ & Hr). apply bind_error_inl in Hr as (gv & _ & Hr). by injection Hr as <-.
Qed.

Lemma scaleTargetRef_cases s gvk uns :
  (exists found, scaleTargetRefToResource s gvk uns = Returns found) \/
  (scaleTargetRefToResource s gvk uns = Panics /\ exists path v, gvkToScaleTargetRef s !! gvk = Some path /\
     NestedFieldNoCopy (uns_Object uns) (split_on "." path) = inl (Some v) /\ forall m, v <> VMap m).
Proof using Type.
  unfold scaleTargetRefToResource, getGVKToScaleTargetRef. destruct (gvkToScaleTargetRef s !! gvk) as [path|]; [|left; by eexists].
  destruct (NestedFieldNoCopy _ _) as [[v|]|] eqn:Ev; [|left; by eexists..].
  destruct v; first [by left; eexists | right; split; [done|]; by eexists _, _].
Qed.

(** A reconciliation panics only on an autoscaler of its lister, and only
    when that has no namespace or its reference to the workload is not a map;
    in every other case it returns. *)
Theorem hpa_panics e s key : (exists s' out, reconcile e s key = Returns (s', out)) \/
  (reconcile e s key = Panics /\ exists lister hpa, he_ResourceLister e (res_gvk key) = Some lister /\
     rl_Get lister (QualifiedName_String (Resource_QualifiedName key)) = inl hpa /\
     (uns_GetNamespace hpa = ""%string \/
      exists path v, gvkToScaleTargetRef s !! res_gvk key = Some path /\
        NestedFieldNoCopy (uns_Object hpa) (split_on "." path) = inl (Some v) /\ forall m, v <> VMap m)).
Proof using Type.
  enough ((exists s' handled, handleCache e s key = Returns (s', handled)) \/
    (handleCache e s key = Panics /\ exists lister hpa, he_ResourceLister e (res_gvk key) = Some lister /\
     rl_Get lister (QualifiedName_String (Resource_QualifiedName key)) = inl hpa /\
     (uns_GetNamespace hpa = ""%string \/
      exists path v, gvkToScaleTargetRef s !! res_gvk key = Some path /\
        NestedFieldNoCopy (uns_Object hpa) (split_on "." path) = inl (Some v) /\ forall m, v <> VMap m))) as Hh.
  { unfold reconcile. destruct Hh as [(s' & [r|res] & ->)|[-> Hp]]; [left; do 2 eexists; reflexivity..|by right]. }
  unfold handleCache, readHPA. destruct (he_ResourceFTC e (res_gvk key)) as [ftc|]; [|left; do 2 eexists; reflexivity].
  destruct (he_ResourceLister e (res_gvk key)) as [l|]; [|left; do 2 eexists; reflexivity].
  destruct (negb (rl_HasSynced l)); [left; do 2 eexists; reflexivity|].
  destruct (rl_Get l _) as [hpa|] eqn:Eg; [|left; do 2 eexists; reflexivity].
  destruct (GetFromLister_cases e s (uns_GetNamespace hpa) (GenerateFederatedObjectName (uns_GetName hpa) (ftc_Name ftc)))
    as [[found Ef]|[Hns Ef]]; rewrite Ef; cbn [mbind may_panic_bind].
  2: { right. split; [done|]. exists l, hpa. split_and!; [done..|by left]. }
  destruct found as [fed|]; [|left; do 2 eexists; reflexivity].
  destruct (ControllerDependenciesFulfilled fed _) as [[]|]; [|left; do 2 eexists; reflexivity..].
  destruct (scaleTargetRef_cases s (res_gvk key) hpa) as [[target Et]|[Et Hv]]; rewrite Et; cbn [mbind may_panic_bind].
  2: { right. split; [done|]. exists l, hpa. split_and!; [done..|by right]. }
  destruct target as [w|]; cbv beta iota delta [mbind may_panic_bind mret may_panic_ret]; [|left; do 2 eexists; reflexivity].
  pose proof (scaleTargetRef_namespace _ _ _ _ Et) as Hw.
  destruct (recordWorkload s w key) as [s1|s1]; [|left; do 2 eexists; reflexivity]. unfold getFedWorkLoadFromResource.
  destruct (he_ResourceFTC e (res_gvk w)) as [wftc|]; [|left; do 2 eexists; reflexivity].
  destruct (GetFromLister_cases e s1 (res_namespace w) (GenerateFederatedObjectName (res_name w) (ftc_Name wftc)))
    as [[found' Ef']|[Hns Ef']]; rewrite Ef'; cbv beta iota delta [mbind may_panic_bind mret may_panic_ret].
  2: { exfalso. rewrite Hw in Hns. unfold hpa_GetFromLister in Ef. by rewrite Hns in Ef. }
  left. destruct found' as [o|err]; [|destruct (IsNotFound err); [|do 2 eexists; reflexivity]];
    destruct (readPolicy e s1 _ w) as [s2 p]; do 2 eexists; reflexivity.
Qed.
End Panics.

(** ** Concrete inputs *)

(** Close an equation by evaluating its left side. *)
Ltac by_run := match goal with |- _ = ?x => vm_cast_no_check (eq_refl x) end.

Section Witnesses.
#[local] Existing Instance small_kubernetes.
#[local] Existing Instance small_runtime.
#[local] Existing Instance small_codecs.
#[local] Instance sorted_sets : SetsRuntime := {|
  UnsortedList := fun A _ _ x => elements x; UnsortedList_perm := fun A _ _ x => reflexivity (elements x) |}.
#[local] Instance no_followers : FollowerCodecs := {| Unmarshal_followers := fun _ => inr "unsupported"%string |}.
#[local] Instance hpa_codecs : HPACodecs := {|
  FromUnstructured_reference := fun o => inl {| cv_Kind := field_string o "kind"; cv_Name := field_string o "name";
                                               cv_APIVersion := field_string o "apiVersion" |};
  ParseGroupVersion := fun s => match split_on "/" s with
    | [v] => inl {| gv_Group := ""; gv_Version := v |}
    | [g; v] => inl {| gv_Group := g; gv_Version := v |}
    | _ => inr "unexpected GroupVersion string"%string end |}.

Definition hpa_gvk : GroupVersionKind := {| gvk_Group := "autoscaling"; gvk_Version := "v2"; gvk_Kind := "HorizontalPodAutoscaler" |}.
Definition hpa_key (name : string) : Resource := {| res_gvk := hpa_gvk; res_namespace := "default"; res_name := name |}.
Definition hpa_me : string := PrefixedFederatedHPAControllerName.

Definition hpa_ftc : FederatedTypeConfig := {|
  ftc_Name := "hpas"; ReplicasSpec := ""; ReplicasStatus := ""; ReadyReplicasStatus := ""; AutoMigrationEnabled := false;
  ftc_Annotations := {[ HPAScaleTargetRefPath := "spec.scaleTargetRef"%string ]}; StatusAggregationEnabled := false;
  StatusCollection := None; Controllers := [[hpa_me]; ["scheduler"%string]];
  SourceType := {| ar_Group := "autoscaling"; ar_Version := "v2"; ar_Kind := "HorizontalPodAutoscaler";
                   ar_PluralName := "horizontalpodautoscalers"; ar_Scope := "Namespaced" |} |}.
Definition web_ftc : FederatedTypeConfig := {|
  ftc_Name := "deployments.apps"; ReplicasSpec := ""; ReplicasStatus := ""; ReadyReplicasStatus := ""; AutoMigrationEnabled := false;
  ftc_Annotations := ∅; StatusAggregationEnabled := false; StatusCollection := None; Controllers := [];
  SourceType := {| ar_Group := "apps"; ar_Version := "v1"; ar_Kind := "Deployment"; ar_PluralName := "deployments";
                   ar_Scope := "Namespaced" |} |}.

(** An autoscaler of a mode for a deployment. *)
Definition hpa_object (name mode target : string) : Unstructured := {| uns_Object := list_to_map [
  ("metadata", VMap (list_to_map [("name", VString name); ("namespace", VString "default");
                                  ("labels", VMap {[ FederatedHPAMode := VString mode ]})]));
  ("spec", VMap {[ "scaleTargetRef"%string := VMap (list_to_map
     [("kind", VString "Deployment"); ("name", VString target); ("apiVersion", VString "apps/v1")]) ]})]%string |}.

Definition hpa_policy (mode : string) : PropagationPolicy := {|
  pol_Namespace := "default"; pol_Name := "p"; pol_Spec := {|
    pps_SchedulingProfile := ""; pps_SchedulingMode := mode; pps_ReplicasStrategy := None; pps_ClusterSelector := ∅;
    pps_ClusterAffinity := []; pps_Tolerations := []; pps_MaxClusters := None; pps_Placements := [];
    DisableFollowerScheduling := false; pps_AutoMigration := None; pps_ReschedulePolicy := None |} |}.

Definition hpa_fed (name : string) (labels : gmap string string) : FederatedObject := {|
  fo_Namespace := "default"; fo_Name := name; fo_Labels := labels;
  fo_Annotations := {[ PendingControllersAnnotation := decimal (Z.pos (encode [[hpa_me]; ["scheduler"%string]])) ]};
  fo_OwnerReferences := []; fo_Generation := 1; fo_DeletionTimestamp := None; fo_Finalizers := [];
  fo_Spec := {| Template := decimal 0; Overrides := []; Placements := []; Follows := [] |}; fo_Status := empty_status |}.

Definition hpa_store : gmap QualifiedName FederatedObject := list_to_map
  ((fun o => ({| qn_Namespace := fo_Namespace o; qn_Name := fo_Name o |}, o)) <$>
   [hpa_fed "h1-hpas" ∅; hpa_fed "h2-hpas" ∅;
    hpa_fed "web-deployments.apps" {[ PropagationPolicyNameLabel := "p"%string ]}]).

(** The autoscalers of a table, and an API server that gives one answer. *)
Definition hpa_environment (table : list (string * Unstructured)) (mode : string) (answer : option ApiError) : HPAEnvironment := {|
  he_ResourceFTC := fun gvk => if decide (gvk = hpa_gvk) then Some hpa_ftc
                               else if String.eqb (gvk_Kind gvk) "Deployment" then Some web_ftc else None;
  he_ResourceLister := fun _ => Some {| rl_HasSynced := true;
    rl_Get := fun name => match (list_to_map table : gmap string Unstructured) !! name with Some o => inl o | None => inr NotFound end;
    rl_List := inl (snd <$> table) |};
  he_When := fun _ => 0; he_ListerError := fun _ => None; he_List := fun _ => inl [];
  he_PropagationPolicy := fun ns name => if String.eqb name "p" then inl (hpa_policy mode) else inr NotFound;
  he_ClusterPropagationPolicy := fun _ => inr NotFound;
  he_UpdateHPA := fun _ _ _ => answer; he_UpdateFedObject := fun _ => answer |}.

Definition hpa_table (mode target : string) : list (string * Unstructured) :=
  [("default/h1", hpa_object "h1" mode target); ("default/h2", hpa_object "h2" mode "web")]%string.

Definition hpa_new : HPAState := {|
  gvkToScaleTargetRef := ∅; workloadHPAMapping := NewMultiMap; ppWorkloadMapping := NewMultiMap; hs_store := hpa_store |}.
(** The type config of autoscalers is known. *)
Definition hpa_start : HPAState :=
  match onFTCUpdate (hpa_environment [] "" None) hpa_new None (Some hpa_ftc) with Returns (s, _) => s | _ => hpa_new end.

Lemma hpa_start_reachable : hpa_reachable hpa_start.
Proof. eapply (reachable_ftc (hpa_environment [] "" None) _ None (Some hpa_ftc)); [apply reachable_start|vm_compute; reflexivity]. Qed.

Definition hpa_run (e : HPAEnvironment) (s : HPAState) (key : Resource) : HPAState :=
  match reconcile e s key with Returns (s', _) => s' | _ => s end.

(** Two autoscalers scale one workload, which is bound to the policy p.  When
    one of them turns to another workload, events of p no longer reach the other
    one, which still scales the workload. *)
Definition both_known : HPAState :=
  let e := hpa_environment (hpa_table FederatedHPAModeCentralized "web") SchedulingModeDivide None in
  hpa_run e (hpa_run e hpa_start (hpa_key "h1")) (hpa_key "h2").
Definition one_moved : HPAState :=
  hpa_run (hpa_environment (hpa_table FederatedHPAModeCentralized "db") SchedulingModeDivide None) both_known (hpa_key "h1").

Definition web_workload : Resource :=
  {| res_gvk := GetSourceTypeGVK web_ftc; res_namespace := "default"; res_name := "web" |}.

Theorem shared_policy_event_lost : let policy := NamespacedPolicy (hpa_policy SchedulingModeDivide) in
  enqueueFedHPAObjectsForPropagationPolicy both_known policy ≡ₚ [hpa_key "h1"; hpa_key "h2"] /\
  hpasOf one_moved web_workload = [hpa_key "h2"] /\
  enqueueFedHPAObjectsForPropagationPolicy one_moved policy = [].
Proof. split_and!; by apply (bool_decide_eq_true_1 _); vm_compute. Qed.

(** An autoscaler of a mode for a target, its answer from the API server, and
    what is read for it. *)
Definition h1_env (mode target : string) (answer : option ApiError) : HPAEnvironment :=
  hpa_environment (hpa_table mode target) SchedulingModeDivide answer.
Definition h1_cached (e : HPAEnvironment) : HPAState :=
  match handleCache e hpa_start (hpa_key "h1") with Returns (s, _) => s | _ => hpa_start end.
Definition h1_resp (mode target : string) : handleCacheResp :=
  let web := String.eqb target "web" in {|
  hr_hpaFTC := hpa_ftc; hr_hpaGVR := GetSourceTypeGVR hpa_ftc; hr_hpaObject := hpa_object "h1" mode target;
  hr_fedHPAObject := hpa_fed "h1-hpas" ∅;
  hr_fedWorkloadObject :=
    if web then Some (hpa_fed "web-deployments.apps" {[ PropagationPolicyNameLabel := "p"%string ]}) else None;
  hr_ppObject := if web then Some (NamespacedPolicy (hpa_policy SchedulingModeDivide)) else None;
  hr_newPPResource := if web then Some (policyObjectToResource (NamespacedPolicy (hpa_policy SchedulingModeDivide))) else None |}.
Definition h1_out (e : HPAEnvironment) : HPAOutcome :=
  match reconcile e hpa_start (hpa_key "h1") with Returns (_, out) => out
  | _ => {| ho_result := StatusError; ho_hpaSent := None; ho_fedSent := None; ho_events := [] |} end.

Lemma h1_config mode target : mode ∈ [FederatedHPAModeCentralized; FederatedHPAModeDistributed] ->
  hpa_config (h1_resp mode target).
Proof.
  intros Hm. split.
  - by_run.
  - intros cs. assert (GetPendingControllers (hpa_fed "h1-hpas" ∅) = inl [[hpa_me]; ["scheduler"%string]]) as E by (vm_compute; reflexivity).
    cbn [hr_fedHPAObject h1_resp]. rewrite E. intros [= <-]. split; [apply NoDup_singleton|].
    intros g ->%list_elem_of_singleton. by apply (bool_decide_eq_true_1 _); vm_compute.
  - reflexivity.
  - unfold known_mode. assert (modeOf (h1_resp mode target) = mode) as -> by reflexivity. set_solver.
Qed.

Lemma h1_reference : reference_outside hpa_start (hpa_key "h1").
Proof. exists "spec.scaleTargetRef"%string, "spec"%string, ["scaleTargetRef"%string]. split_and!; [vm_compute; reflexivity..|done]. Qed.

Lemma h1_other mode answer target : target ∈ ["web"; "db"]%string ->
  other_object (h1_env mode target answer) hpa_start (hpa_key "h1") (h1_resp mode target).
Proof.
  intros Ht w ftc Hw. rewrite elem_of_cons, list_elem_of_singleton in Ht. destruct Ht as [-> | ->].
  - assert (scaleTargetRefToResource hpa_start (res_gvk (hpa_key "h1")) (hr_hpaObject (h1_resp mode "web")) =
      Returns (inl {| res_gvk := GetSourceTypeGVK web_ftc; res_namespace := "default"; res_name := "web" |})) as E
      by (vm_compute; reflexivity).
    rewrite E in Hw. injection Hw as <-. intros [= <-]. by apply (bool_decide_eq_true_1 _); vm_compute.
  - assert (scaleTargetRefToResource hpa_start (res_gvk (hpa_key "h1")) (hr_hpaObject (h1_resp mode "db")) =
      Returns (inl {| res_gvk := GetSourceTypeGVK web_ftc; res_namespace := "default"; res_name := "db" |})) as E
      by (vm_compute; reflexivity).
    rewrite E in Hw. injection Hw as <-. intros [= <-]. by apply (bool_decide_eq_true_1 _); vm_compute.
Qed.

(** The centralized autoscaler of the workload web, which is divided. *)
Definition h1_central : HPAEnvironment := h1_env FederatedHPAModeCentralized "web" None.
Definition h1_enabled : HPAState := hpa_run h1_central hpa_start (hpa_key "h1").

Lemma h1_central_cached : handleCache h1_central hpa_start (hpa_key "h1") =
  Returns (h1_cached h1_central, inl (h1_resp FederatedHPAModeCentralized "web")).
Proof. by_run. Qed.
Lemma h1_central_run : reconcile h1_central hpa_start (hpa_key "h1") = Returns (h1_enabled, h1_out h1_central).
Proof. by_run. Qed.

Lemma hpa_events_reach_witness :
  hpa_key "h1" ∈ enqueueFedHPAObjectsForPropagationPolicy h1_enabled (NamespacedPolicy (hpa_policy SchedulingModeDivide)).
Proof.
  destruct (hpa_events_reach _ _ _ _ _ _ _ hpa_start_reachable h1_central_cached h1_central_run) as (w & _ & _ & Hp).
  by apply Hp.
Defined.

Lemma hpa_gate_witness :
  uns_GetLabels (default (hr_hpaObject (h1_resp FederatedHPAModeCentralized "web")) (ho_hpaSent (h1_out h1_central))) !!
    CentralizedHPAEnableKey = Some AnnotationValueTrue.
Proof.
  pose proof (hpa_gate _ _ _ _ _ _ _ (hpa_reachable_wf _ hpa_start_reachable) h1_central_cached
    (h1_config FederatedHPAModeCentralized "web" ltac:(set_solver)) h1_central_run ltac:(by_run)) as (_ & Hedit & _).
  rewrite (he_labels _ _ _ _ Hedit). by_run.
Defined.

(** The API server refuses the next update; there is none. *)
Definition h1_seen : HPAEnvironment := hpa_environment
  [("default/h1"%string, default (hpa_object "h1" FederatedHPAModeCentralized "web") (ho_hpaSent (h1_out h1_central)))]
  SchedulingModeDivide (Some Conflict).

Lemma hpa_settles_witness : exists s'' out', reconcile h1_seen h1_enabled (hpa_key "h1") = Returns (s'', out') /\
  ho_hpaSent out' = None /\ ho_fedSent out' = None.
Proof.
  apply (hpa_settles h1_central h1_seen hpa_start (hpa_key "h1") _ _ _ _ (hpa_reachable_wf _ hpa_start_reachable)
    h1_central_cached (h1_config FederatedHPAModeCentralized "web" ltac:(set_solver)) h1_reference (h1_other FederatedHPAModeCentralized None "web" ltac:(set_solver)) h1_central_run).
  - by_run.
  - split; [reflexivity| |reflexivity..]. eexists. split; [reflexivity|split; [reflexivity|by_run]].
Defined.

(** A distributed autoscaler of a workload that does not exist may go to the
    member clusters; the update is refused. *)
Definition h1_refused : HPAEnvironment := h1_env FederatedHPAModeDistributed "db" (Some Conflict).
Definition h1_released : FederatedObject :=
  match removePendingController hpa_ftc (hpa_fed "h1-hpas" ∅) with inl (o, _) => o | inr _ => hpa_fed "h1-hpas" ∅ end.

Lemma hpa_failed_update_lost_witness :
  hs_store (hpa_run h1_refused hpa_start (hpa_key "h1")) !! {| qn_Namespace := "default"; qn_Name := "h1-hpas" |} = Some h1_released /\
  ho_fedSent (h1_out h1_refused) = Some h1_released /\
  exists s'' out', reconcile (h1_env FederatedHPAModeDistributed "db" None) (hpa_run h1_refused hpa_start (hpa_key "h1")) (hpa_key "h1") =
    Returns (s'', out') /\ ho_fedSent out' = None.
Proof.
  destruct (hpa_failed_update_lost h1_refused (h1_env FederatedHPAModeDistributed "db" None) hpa_start (hpa_key "h1")
    (h1_cached h1_refused) (h1_resp FederatedHPAModeDistributed "db") (hpa_run h1_refused hpa_start (hpa_key "h1"))
    (h1_out h1_refused) h1_released) as [Hst Hrun].
  - apply hpa_reachable_wf, hpa_start_reachable.
  - by_run.
  - apply h1_config; set_solver.
  - apply h1_reference.
  - apply h1_other. set_solver.
  - by_run.
  - by_run.
  - vm_compute. discriminate.
  - split; [reflexivity| |reflexivity..]. eexists. split; [reflexivity|split; [reflexivity|by_run]].
  - split_and!; [exact Hst|by_run|exact Hrun].
Defined.
End Witnesses.
