(* ===== verification/InformerManager.v ===== *)
(** * Informers of the types of objects ([pkg/util/informermanager])

    [informerManager] keeps an informer for the source type of every type config,
    and the event handlers that the controllers want on it.  Informers, contexts
    and clients belong to client libraries: an informer is known by a number, and
    what is asked of them is recorded in the order of the calls.  Of the manager
    for the member clusters only [GetClusterObject] is modelled, in [Sync]. *)

From Stdlib Require Import ZArith Lia String Ascii.
From S2P Require Import Prelude GoStrings Collections K8s Types ApiTypes Sync FederatedHPA.

(** Event handlers and their registrations with an informer. *)
Class InformerTypes := { Handler : Type; Registration : Type }.

Section InformerManager.
Context `{I : InformerTypes}.

(** A pointer to a generator is known by a number. *)
Record EventHandlerGenerator := {
  eg_pointer : nat;
  Predicate : option FederatedTypeConfig -> FederatedTypeConfig -> bool;
  Generator : FederatedTypeConfig -> option Handler
}.

Definition RegisterOncePredicate (old : option FederatedTypeConfig) (_ : FederatedTypeConfig) : bool :=
  match old with None => true | Some _ => false end.

(** What was asked of informers, and the calls of [FTCUpdateHandler]s. *)
Inductive InformerCall :=
  | RunInformer (informer : nat) (gvr : GroupVersionResource)
  | CancelInformer (informer : nat)
  | AddEventHandler (informer generator : nat) (handler : Handler) (registration : Registration)
  | RemoveEventHandler (informer : nat) (registration : Registration)
  | CallFTCUpdateHandler (handler : nat) (lastObserved latest : option FederatedTypeConfig).

Record informerManager := {
  im_started : bool;
  im_shutdown : bool;
  eventHandlerGenerators : list EventHandlerGenerator;
  ftcUpdateHandlers : list nat;
  gvkMapping : Bijection string GroupVersionKind;
  lastObservedFTCs : gmap string FederatedTypeConfig;
  informers : gmap string nat;
  (** The informer whose context is cancelled. *)
  informerCancelFuncs : gmap string nat;
  eventHandlerRegistrations : gmap string (gmap nat Registration);
  lastAppliedFTCsCache : gmap string (gmap nat FederatedTypeConfig);
  initialFTCs : gset string;
  (** The number of the next informer, and the calls so far. *)
  im_next : nat;
  im_calls : list InformerCall
}.

(** What the manager reads, and the answers of its informers. *)
Record InformerEnvironment := {
  ie_GetFTC : string -> FederatedTypeConfig + ApiError;
  ie_FTCs : list FederatedTypeConfig;
  ie_FTCInformerSynced : bool;
  ie_HasSynced : nat -> bool;
  ie_AddEventHandler : nat -> Handler -> Registration + string;
  ie_RemoveEventHandler : nat -> Registration -> option string
}.

Inductive ProcessError :=
  | SourceTypeReferenced (err : AddError string GroupVersionKind)
  | UnregisterFailed (err : string)
  | RegisterFailed (err : string).

(** What the worker does with a key that it is done with. *)
Inductive QueueOperation := AddRateLimited | Forget.

Definition NewInformerManager : informerManager := {|
  im_started := false; im_shutdown := false; eventHandlerGenerators := []; ftcUpdateHandlers := [];
  gvkMapping := NewBijection; lastObservedFTCs := ∅; informers := ∅; informerCancelFuncs := ∅;
  eventHandlerRegistrations := ∅; lastAppliedFTCsCache := ∅; initialFTCs := ∅; im_next := 0; im_calls := [] |}.

Definition im_log (m : informerManager) (calls : list InformerCall) : informerManager := {|
  im_started := im_started m; im_shutdown := im_shutdown m; eventHandlerGenerators := eventHandlerGenerators m;
  ftcUpdateHandlers := ftcUpdateHandlers m; gvkMapping := gvkMapping m; lastObservedFTCs := lastObservedFTCs m;
  informers := informers m; informerCancelFuncs := informerCancelFuncs m;
  eventHandlerRegistrations := eventHandlerRegistrations m; lastAppliedFTCsCache := lastAppliedFTCsCache m;
  initialFTCs := initialFTCs m; im_next := im_next m; im_calls := im_calls m ++ calls |}.

(** A new informer for a type config, with empty maps for its handlers. *)
Definition startInformer (m : informerManager) (mapping : Bijection string GroupVersionKind) (ftcName : string)
    (gvr : GroupVersionResource) : informerManager := {|
  im_started := im_started m; im_shutdown := im_shutdown m; eventHandlerGenerators := eventHandlerGenerators m;
  ftcUpdateHandlers := ftcUpdateHandlers m; gvkMapping := mapping; lastObservedFTCs := lastObservedFTCs m;
  informers := <[ftcName := im_next m]> (informers m);
  informerCancelFuncs := <[ftcName := im_next m]> (informerCancelFuncs m);
  eventHandlerRegistrations := <[ftcName := ∅]> (eventHandlerRegistrations m);
  lastAppliedFTCsCache := <[ftcName := ∅]> (lastAppliedFTCsCache m);
  initialFTCs := initialFTCs m; im_next := S (im_next m); im_calls := im_calls m ++ [RunInformer (im_next m) gvr] |}.

Definition observeFTC (m : informerManager) (ftcName : string) (ftc : FederatedTypeConfig) : informerManager := {|
  im_started := im_started m; im_shutdown := im_shutdown m; eventHandlerGenerators := eventHandlerGenerators m;
  ftcUpdateHandlers := ftcUpdateHandlers m; gvkMapping := gvkMapping m;
  lastObservedFTCs := <[ftcName := ftc]> (lastObservedFTCs m);
  informers := informers m; informerCancelFuncs := informerCancelFuncs m;
  eventHandlerRegistrations := eventHandlerRegistrations m; lastAppliedFTCsCache := lastAppliedFTCsCache m;
  initialFTCs := initialFTCs m ∖ {[ftcName]}; im_next := im_next m;
  im_calls := im_calls m ++
    ((fun h => CallFTCUpdateHandler h (lastObservedFTCs m !! ftcName) (Some ftc)) <$> ftcUpdateHandlers m) |}.

(** The maps of a type config, which are changed in place. *)
Definition storeHandlers (m : informerManager) (ftcName : string) (registrations : option (gmap nat Registration))
    (lastApplied : option (gmap nat FederatedTypeConfig)) (calls : list InformerCall) : informerManager := {|
  im_started := im_started m; im_shutdown := im_shutdown m; eventHandlerGenerators := eventHandlerGenerators m;
  ftcUpdateHandlers := ftcUpdateHandlers m; gvkMapping := gvkMapping m; lastObservedFTCs := lastObservedFTCs m;
  informers := informers m; informerCancelFuncs := informerCancelFuncs m;
  eventHandlerRegistrations := partial_alter (fun _ => registrations) ftcName (eventHandlerRegistrations m);
  lastAppliedFTCsCache := partial_alter (fun _ => lastApplied) ftcName (lastAppliedFTCsCache m);
  initialFTCs := initialFTCs m; im_next := im_next m; im_calls := calls |}.

Definition im_IsShutdown (m : informerManager) : bool := im_shutdown m.

(** After the context of the manager is done. *)
Definition im_stop (m : informerManager) : informerManager := {|
  im_started := im_started m; im_shutdown := true; eventHandlerGenerators := eventHandlerGenerators m;
  ftcUpdateHandlers := ftcUpdateHandlers m; gvkMapping := gvkMapping m; lastObservedFTCs := lastObservedFTCs m;
  informers := informers m; informerCancelFuncs := informerCancelFuncs m;
  eventHandlerRegistrations := eventHandlerRegistrations m; lastAppliedFTCsCache := lastAppliedFTCsCache m;
  initialFTCs := initialFTCs m; im_next := im_next m; im_calls := im_calls m |}.

Variable e : InformerEnvironment.

(** Writing to a map that is nil panics. *)
Definition write_map {V} (m : option (gmap nat V)) (k : nat) (v : V) : may_panic (option (gmap nat V)) :=
  match m with None => Panics | Some m => mret (Some (<[k := v]> m)) end.

(** The handlers of the generators; the state is left as it is at the first
    error. *)
Fixpoint registerHandlers (informer : nat) (ftc : FederatedTypeConfig) (generators : list EventHandlerGenerator)
    (registrations : option (gmap nat Registration)) (lastApplied : option (gmap nat FederatedTypeConfig))
    (calls : list InformerCall)
    : may_panic (option (gmap nat Registration) * option (gmap nat FederatedTypeConfig) * list InformerCall *
                 option ProcessError) :=
  match generators with
  | [] => mret (registrations, lastApplied, calls, None)
  | generator :: generators =>
      let g := eg_pointer generator in
      if negb (Predicate generator (lastApplied ≫= (.!! g)) ftc) then
        lastApplied ← write_map lastApplied g ftc;
        registerHandlers informer ftc generators registrations lastApplied calls
      else
        let unregistered :=
          match registrations ≫= (.!! g) with
          | Some oldRegistration =>
              match ie_RemoveEventHandler e informer oldRegistration with
              | Some err => inr err
              | None => inl (delete g <$> registrations, calls ++ [RemoveEventHandler informer oldRegistration])
              end
          | None => inl (registrations, calls)
          end in
        match unregistered with
        | inr err => mret (registrations, lastApplied, calls, Some (UnregisterFailed err))
        | inl (registrations, calls) =>
            let lastApplied := delete g <$> lastApplied in
            match Generator generator ftc with
            | None =>
                lastApplied ← write_map lastApplied g ftc;
                registerHandlers informer ftc generators registrations lastApplied calls
            | Some handler =>
                match ie_AddEventHandler e informer handler with
                | inr err => mret (registrations, lastApplied, calls, Some (RegisterFailed err))
                | inl newRegistration =>
                    registrations ← write_map registrations g newRegistration;
                    lastApplied ← write_map lastApplied g ftc;
                    registerHandlers informer ftc generators registrations lastApplied
                      (calls ++ [AddEventHandler informer g handler newRegistration])
                end
            end
        end
  end.

(** [lastAppliedFTCsCache] is kept. *)
Definition processFTCDeletion (m : informerManager) (ftcName : string) : informerManager :=
  let m := match informerCancelFuncs m !! ftcName with
           | Some informer => im_log m [CancelInformer informer]
           | None => m
           end in
  let m := match lastObservedFTCs m !! ftcName with
           | Some lastObservedFTC =>
               im_log m ((fun h => CallFTCUpdateHandler h (Some lastObservedFTC) None) <$> ftcUpdateHandlers m)
           | None => m
           end in
  {| im_started := im_started m; im_shutdown := im_shutdown m; eventHandlerGenerators := eventHandlerGenerators m;
     ftcUpdateHandlers := ftcUpdateHandlers m; gvkMapping := (Bijection_DeleteT1 (gvkMapping m) ftcName).1;
     lastObservedFTCs := delete ftcName (lastObservedFTCs m); informers := delete ftcName (informers m);
     informerCancelFuncs := delete ftcName (informerCancelFuncs m);
     eventHandlerRegistrations := delete ftcName (eventHandlerRegistrations m);
     lastAppliedFTCsCache := lastAppliedFTCsCache m; initialFTCs := initialFTCs m ∖ {[ftcName]};
     im_next := im_next m; im_calls := im_calls m |}.

(** The part of [processFTC] after the informer is found or started; an
    informer that is nil panics. *)
Definition processHandlers (m : informerManager) (ftc : FederatedTypeConfig)
    : may_panic (informerManager * (bool * option ProcessError)) :=
  let ftcName := ftc_Name ftc in
  let found := informers m !! ftcName in
  let m := observeFTC m ftcName ftc in
  match found with
  | None => Panics
  | Some informer =>
      if negb (ie_HasSynced e informer) then mret (m, (true, None))
      else
        '(registrations, lastApplied, calls, err) ←
          registerHandlers informer ftc (eventHandlerGenerators m) (eventHandlerRegistrations m !! ftcName)
            (lastAppliedFTCsCache m !! ftcName) (im_calls m);
        mret (storeHandlers m ftcName registrations lastApplied calls,
              (match err with Some _ => true | None => false end, err))
  end.

(** Whether the type config is to be processed again, and the error. *)
Definition processFTC (m : informerManager) (ftc : FederatedTypeConfig)
    : may_panic (informerManager * (bool * option ProcessError)) :=
  let ftcName := ftc_Name ftc in
  let gvk := GetSourceTypeGVK ftc in
  match Bijection_LookupByT1 (gvkMapping m) ftcName with
  | Some oldGVK =>
      if negb (bool_decide (oldGVK = gvk)) then mret (processFTCDeletion m ftcName, (true, None))
      else processHandlers m ftc
  | None =>
      match Bijection_Add (gvkMapping m) ftcName gvk with
      | inr err => mret (m, (false, Some (SourceTypeReferenced err)))
      | inl mapping => processHandlers (startInformer m mapping ftcName (GetSourceTypeGVR ftc)) ftc
      end
  end.

(** One item of the queue. *)
Definition im_worker (m : informerManager) (name : string) : may_panic (informerManager * QueueOperation) :=
  match ie_GetFTC e name with
  | inr err => mret (if IsNotFound err then (processFTCDeletion m name, Forget) else (m, AddRateLimited))
  | inl ftc =>
      '(m, (needReenqueue, _)) ← processFTC m ftc;
      mret (m, if (needReenqueue : bool) then AddRateLimited else Forget)
  end.

Definition AddEventHandlerGenerator (m : informerManager) (generator : EventHandlerGenerator) : informerManager + string :=
  if im_started m then inr "failed to add EventHandlerGenerator: InformerManager is already started"%string
  else inl {|
    im_started := im_started m; im_shutdown := im_shutdown m;
    eventHandlerGenerators := eventHandlerGenerators m ++ [generator];
    ftcUpdateHandlers := ftcUpdateHandlers m; gvkMapping := gvkMapping m; lastObservedFTCs := lastObservedFTCs m;
    informers := informers m; informerCancelFuncs := informerCancelFuncs m;
    eventHandlerRegistrations := eventHandlerRegistrations m; lastAppliedFTCsCache := lastAppliedFTCsCache m;
    initialFTCs := initialFTCs m; im_next := im_next m; im_calls := im_calls m |}.

Definition AddFTCUpdateHandler (m : informerManager) (handler : nat) : informerManager + string :=
  if im_started m then inr "failed to add FTCUpdateHandler: InformerManager is already started"%string
  else inl {|
    im_started := im_started m; im_shutdown := im_shutdown m; eventHandlerGenerators := eventHandlerGenerators m;
    ftcUpdateHandlers := ftcUpdateHandlers m ++ [handler];
    gvkMapping := gvkMapping m; lastObservedFTCs := lastObservedFTCs m;
    informers := informers m; informerCancelFuncs := informerCancelFuncs m;
    eventHandlerRegistrations := eventHandlerRegistrations m; lastAppliedFTCsCache := lastAppliedFTCsCache m;
    initialFTCs := initialFTCs m; im_next := im_next m; im_calls := im_calls m |}.

Definition im_GetResourceLister (m : informerManager) (gvk : GroupVersionKind) : option nat :=
  Bijection_LookupByT2 (gvkMapping m) gvk ≫= fun ftc => informers m !! ftc.

Definition im_GetResourceFTC (m : informerManager) (gvk : GroupVersionKind) : option FederatedTypeConfig :=
  Bijection_LookupByT2 (gvkMapping m) gvk ≫= fun ftcName => lastObservedFTCs m !! ftcName.

Definition im_HasSynced (m : informerManager) : bool :=
  ie_FTCInformerSynced e && (Z.of_nat (size (initialFTCs m)) =? 0).

(** The manager, and whether its worker runs. *)
Definition im_Start (m : informerManager) : informerManager * bool :=
  if im_started m then (m, false)
  else
    let started initial := {|
      im_started := true; im_shutdown := im_shutdown m; eventHandlerGenerators := eventHandlerGenerators m;
      ftcUpdateHandlers := ftcUpdateHandlers m; gvkMapping := gvkMapping m; lastObservedFTCs := lastObservedFTCs m;
      informers := informers m; informerCancelFuncs := informerCancelFuncs m;
      eventHandlerRegistrations := eventHandlerRegistrations m; lastAppliedFTCsCache := lastAppliedFTCsCache m;
      initialFTCs := initial; im_next := im_next m; im_calls := im_calls m |} in
    if negb (ie_FTCInformerSynced e) then (started (initialFTCs m), false)
    else (started (foldl (fun s ftc => s ∪ {[ftc_Name ftc]}) (initialFTCs m) (ie_FTCs e)), true).
End InformerManager.
