(* ===== verification/InformerManagerTheorems.v ===== *)
(** * Informers of the types of objects: properties *)

From Stdlib Require Import ZArith Lia String Ascii.
From S2P Require Import Prelude GoStrings Collections K8s Types ApiTypes Sync FederatedHPA InformerManager.

(** Without one occurrence of [x]. *)
Fixpoint remove_one {A} `{EqDecision A} (x : A) (l : list A) : list A :=
  match l with [] => [] | y :: l => if decide (y = x) then l else y :: remove_one x l end.

Lemma remove_one_perm {A} `{EqDecision A} (x : A) l l' : l ≡ₚ x :: l' -> remove_one x l ≡ₚ l'.
Proof.
  intros Hp. assert (x ∈ l) as Hin by (rewrite Hp; left).
  assert (x :: remove_one x l ≡ₚ l) as Hr.
  { clear Hp l'. induction l as [|y l IH]; [by apply elem_of_nil in Hin|]. simpl. case_decide as Hy; [by subst|].
    apply elem_of_cons in Hin as [->|Hin]; [done|]. rewrite <- (IH Hin) at 2. apply Permutation_swap. }
  apply (Permutation_cons_inv (a := x)). by rewrite Hr.
Qed.

Section Informers.
Context `{I : InformerTypes} `{EqDecision Registration}.
Implicit Types (m : informerManager) (e : InformerEnvironment) (ftc : FederatedTypeConfig) (c : InformerCall) (i : nat).

(** ** What the calls amount to *)

(** The informers that run: they were started and are not cancelled. *)
Definition run_call (s : gset nat) c : gset nat :=
  match c with RunInformer i _ => s ∪ {[i]} | CancelInformer i => s ∖ {[i]} | _ => s end.
Definition running (calls : list InformerCall) : gset nat := foldl run_call ∅ calls.

(** The registrations of an informer that were added and not removed. *)
Definition handle_call i (l : list Registration) c : list Registration :=
  match c with
  | AddEventHandler j _ _ r => if decide (j = i) then r :: l else l
  | RemoveEventHandler j r => if decide (j = i) then remove_one r l else l
  | _ => l
  end.
Definition handlers_of i (calls : list InformerCall) : list Registration := foldl (handle_call i) [] calls.

#[local] Arguments running : simpl never.
#[local] Arguments handlers_of : simpl never.

(** A call about the handlers of [i], or none about an informer at all. *)
Definition about_handlers i c : Prop :=
  match c with
  | AddEventHandler j _ _ _ | RemoveEventHandler j _ => j = i
  | CallFTCUpdateHandler _ _ _ => True
  | _ => False
  end.
Definition below i c : Prop :=
  match c with
  | RunInformer j _ | CancelInformer j | AddEventHandler j _ _ _ | RemoveEventHandler j _ => (j < i)%nat
  | CallFTCUpdateHandler _ _ _ => True
  end.

Lemma running_app l l' : running (l ++ l') = foldl run_call (running l) l'.
Proof using Type. apply foldl_app. Qed.
Lemma handlers_app i l l' : handlers_of i (l ++ l') = foldl (handle_call i) (handlers_of i l) l'.
Proof using Type. apply foldl_app. Qed.

Lemma about_running i l s : Forall (about_handlers i) l -> foldl run_call s l = s.
Proof using Type. intros Hl. induction Hl as [|c l Hc _ IH]; [done|]. by destruct c. Qed.

Lemma about_others i j l rs : i <> j -> Forall (about_handlers i) l -> foldl (handle_call j) rs l = rs.
Proof using Type.
  intros Hij Hl. induction Hl as [|c l Hc _ IH]; [done|]. destruct c; simpl in *; try done; subst; by rewrite decide_False.
Qed.

Lemma updates_about i j hs old new : Forall (about_handlers i) ((fun h => CallFTCUpdateHandler h old new) <$> hs) /\
  forall rs, foldl (handle_call j) rs ((fun h => CallFTCUpdateHandler h old new) <$> hs) = rs.
Proof using Type. split; [by induction hs; constructor|]. intros rs. induction hs as [|h hs IH]; done. Qed.

Lemma handlers_below i l rs : Forall (below i) l -> foldl (handle_call i) rs l = rs.
Proof using Type.
  intros Hl. induction Hl as [|c l Hc _ IH]; [done|].
  destruct c; simpl in *; try done; rewrite decide_False; [done|lia|done|lia].
Qed.

Lemma about_below i j l : (i < j)%nat -> Forall (about_handlers i) l -> Forall (below j) l.
Proof using Type. intros Hij Hl. eapply Forall_impl; [exact Hl|]. intros []; simpl; try done; by intros ->. Qed.

Lemma below_S i l : Forall (below i) l -> Forall (below (S i)) l.
Proof using Type. intros Hl. eapply Forall_impl; [exact Hl|]. intros []; simpl; lia || done. Qed.

(** ** The invariant *)

Definition mapped m (name : string) (gvk : GroupVersionKind) : Prop := bij_t1ToT2Map (gvkMapping m) !! name = Some gvk.

(** The registrations kept for a type config. *)
Definition kept m (name : string) : list Registration :=
  (map_to_list (default ∅ (eventHandlerRegistrations m !! name))).*2.

Record im_wf m : Prop := {
  wf_mapping : mutual (gvkMapping m);
  wf_informers : forall name, is_Some (informers m !! name) <-> is_Some (bij_t1ToT2Map (gvkMapping m) !! name);
  wf_observed : forall name, is_Some (lastObservedFTCs m !! name) <-> is_Some (informers m !! name);
  wf_type : forall name ftc, lastObservedFTCs m !! name = Some ftc -> ftc_Name ftc = name /\ mapped m name (GetSourceTypeGVK ftc);
  wf_cancel : informerCancelFuncs m = informers m;
  wf_registrations : forall name, is_Some (eventHandlerRegistrations m !! name) <-> is_Some (informers m !! name);
  wf_applied : forall name, is_Some (informers m !! name) -> is_Some (lastAppliedFTCsCache m !! name);
  wf_inj : forall n n' i, informers m !! n = Some i -> informers m !! n' = Some i -> n = n';
  wf_next : forall name i, informers m !! name = Some i -> (i < im_next m)%nat;
  wf_below : Forall (below (im_next m)) (im_calls m);
  wf_running : forall i, i ∈ running (im_calls m) <-> exists name, informers m !! name = Some i;
  wf_handlers : forall name i, informers m !! name = Some i -> handlers_of i (im_calls m) ≡ₚ kept m name
}.

Lemma new_wf : im_wf NewInformerManager.
Proof using Type.
  split; try apply new_mutual; try done; cbn; try (intros ?; rewrite !lookup_empty; by split).
  - intros name. rewrite lookup_empty. by intros [? ?].
  - intros i. split; [set_solver|]. intros [name Hi]. by rewrite lookup_empty in Hi.
Qed.

(** *** Deletion *)

Lemma deletion_fields m name : let m' := processFTCDeletion m name in
  gvkMapping m' = (Bijection_DeleteT1 (gvkMapping m) name).1 /\
  lastObservedFTCs m' = delete name (lastObservedFTCs m) /\ informers m' = delete name (informers m) /\
  informerCancelFuncs m' = delete name (informerCancelFuncs m) /\
  eventHandlerRegistrations m' = delete name (eventHandlerRegistrations m) /\
  lastAppliedFTCsCache m' = lastAppliedFTCsCache m /\ im_next m' = im_next m /\
  initialFTCs m' = initialFTCs m ∖ {[name]} /\ im_started m' = im_started m /\
  eventHandlerGenerators m' = eventHandlerGenerators m /\
  im_calls m' = im_calls m ++ (match informerCancelFuncs m !! name with Some i => [CancelInformer i] | None => [] end) ++
    (match lastObservedFTCs m !! name with
     | Some ftc => (fun h => CallFTCUpdateHandler h (Some ftc) None) <$> ftcUpdateHandlers m | None => [] end).
Proof using Type.
  unfold processFTCDeletion. destruct (informerCancelFuncs m !! name); cbn [im_log lastObservedFTCs];
    destruct (lastObservedFTCs m !! name); cbn; split_and!; rewrite ?app_nil_r, <- ?app_assoc; done.
Qed.

Lemma DeleteT1_lookup (b : Bijection string GroupVersionKind) name n :
  bij_t1ToT2Map (Bijection_DeleteT1 b name).1 !! n = if decide (n = name) then None else bij_t1ToT2Map b !! n.
Proof using Type.
  unfold Bijection_DeleteT1. destruct (bij_t1ToT2Map b !! name) eqn:E; cbn; case_decide; subst;
    rewrite ?lookup_delete_eq, ?lookup_delete_ne; done.
Qed.

Lemma delete_is_Some {V} (x : gmap string V) name n : is_Some (delete name x !! n) <-> n <> name /\ is_Some (x !! n).
Proof using Type. rewrite lookup_delete_is_Some. naive_solver. Qed.

(** The calls of a deletion. *)
Lemma deletion_calls m name : im_wf m ->
  let calls := match informerCancelFuncs m !! name with Some i => [CancelInformer i] | None => [] end ++
    match lastObservedFTCs m !! name with
    | Some ftc => (fun h => CallFTCUpdateHandler h (Some ftc) None) <$> ftcUpdateHandlers m | None => [] end in
  (forall s, foldl run_call s calls = match informers m !! name with Some j => s ∖ {[j]} | None => s end) /\
  (forall j rs, foldl (handle_call j) rs calls = rs) /\ Forall (below (im_next m)) calls.
Proof using Type.
  intros Hwf. cbv zeta. rewrite (wf_cancel _ Hwf). split_and!.
  - intros s. rewrite foldl_app. destruct (informers m !! name); cbn [foldl run_call];
      destruct (lastObservedFTCs m !! name) as [ftc|]; try done; apply (about_running 0), (updates_about 0 0).
  - intros j rs. rewrite foldl_app. destruct (informers m !! name); cbn [foldl handle_call];
      destruct (lastObservedFTCs m !! name) as [ftc|]; try done; apply (updates_about 0 j).
  - apply Forall_app. split.
    + destruct (informers m !! name) eqn:E; [|done]. repeat constructor. by eapply wf_next.
    + destruct (lastObservedFTCs m !! name) as [ftc|]; [|done]. by apply Forall_fmap, Forall_true.
Qed.

Lemma deletion_wf m name : im_wf m -> im_wf (processFTCDeletion m name).
Proof using Type.
  intros Hwf. destruct (deletion_fields m name) as (Eg & Eo & Ei & Ec & Er & Ea & En & _ & _ & _ & El).
  set (tail := match informerCancelFuncs m !! name with Some i => [CancelInformer i] | None => [] end ++ _) in El.
  destruct (deletion_calls m name Hwf) as (Hrun & Hhand & Hbelow). fold tail in Hrun, Hhand, Hbelow.
  split.
  - rewrite Eg. apply DeleteT1_mutual, Hwf.
  - intros n. rewrite Ei, Eg, DeleteT1_lookup, delete_is_Some, (wf_informers _ Hwf). case_decide; subst; [|naive_solver].
    split; [naive_solver|by intros [? ?]].
  - intros n. by rewrite Eo, Ei, !delete_is_Some, (wf_observed _ Hwf).
  - intros n ftc. rewrite Eo. intros [Hn Hl]%lookup_delete_Some. destruct (wf_type _ Hwf _ _ Hl) as [-> Hm].
    split; [done|]. unfold mapped. rewrite Eg, DeleteT1_lookup, decide_False; done.
  - by rewrite Ec, Ei, (wf_cancel _ Hwf).
  - intros n. by rewrite Er, Ei, !delete_is_Some, (wf_registrations _ Hwf).
  - intros n. rewrite Ei, Ea, delete_is_Some. intros [_ Hs]. by apply (wf_applied _ Hwf).
  - intros n n' i. rewrite Ei. intros [_ H1]%lookup_delete_Some [_ H2]%lookup_delete_Some. by eapply wf_inj.
  - intros n i. rewrite Ei, En. intros [_ H1]%lookup_delete_Some. by eapply wf_next.
  - rewrite El, En. apply Forall_app. split; [apply Hwf|done].
  - intros i. rewrite El, running_app, Hrun, Ei. pose proof (wf_running _ Hwf i) as Hr.
    destruct (informers m !! name) as [j|] eqn:Ej; [rewrite elem_of_difference, elem_of_singleton|]; rewrite Hr.
    + split.
      * intros [[n Hn] Hij]. exists n. rewrite lookup_delete_ne; [done|]. intros <-. congruence.
      * intros [n [Hne Hn]%lookup_delete_Some]. split; [by exists n|]. intros ->. apply Hne. by eapply wf_inj.
    + split; intros [n Hn]; exists n.
      * rewrite lookup_delete_ne; [done|]. intros <-. congruence.
      * by apply lookup_delete_Some in Hn as [_ Hn].
  - intros n i. rewrite Ei, El, handlers_app, Hhand. intros [Hne Hl]%lookup_delete_Some.
    rewrite (wf_handlers _ Hwf _ _ Hl). unfold kept. rewrite Er, lookup_delete_ne; done.
Qed.

(** *** Handlers *)

Lemma registerHandlers_calls e i ftc gens r l calls : exists r' l' new err,
  registerHandlers e i ftc gens (Some r) (Some l) calls = Returns (Some r', Some l', calls ++ new, err) /\
  Forall (about_handlers i) new /\
  forall rs, rs ≡ₚ (map_to_list r).*2 -> foldl (handle_call i) rs new ≡ₚ (map_to_list r').*2.
Proof using Type.
  revert r l calls. induction gens as [|g gens IH]; intros r l calls; cbn [registerHandlers].
  { exists r, l, [], None. rewrite app_nil_r. by split_and!. }
  destruct (negb (Predicate g (Some l ≫= (.!! eg_pointer g)) ftc)); [apply IH|]. cbn [mbind option_bind].
  assert (exists r1 calls1, calls1 = calls1 /\
    (match r !! eg_pointer g with
     | Some old => match ie_RemoveEventHandler e i old with
                   | Some err => inr err | None => inl (delete (eg_pointer g) <$> Some r, calls ++ [RemoveEventHandler i old]) end
     | None => inl (Some r, calls) end = inl (Some r1, calls ++ calls1) \/
     exists err, match r !! eg_pointer g with
     | Some old => match ie_RemoveEventHandler e i old with
                   | Some err => inr err | None => inl (delete (eg_pointer g) <$> Some r, calls ++ [RemoveEventHandler i old]) end
     | None => inl (Some r, calls) end = inr err) /\
    r1 !! eg_pointer g = None /\ Forall (about_handlers i) calls1 /\
    forall rs, rs ≡ₚ (map_to_list r).*2 -> foldl (handle_call i) rs calls1 ≡ₚ (map_to_list r1).*2) as
    (r1 & calls1 & _ & Hun & Hnone & Hab & Hrs).
  { destruct (r !! eg_pointer g) as [old|] eqn:Eo.
    - exists (delete (eg_pointer g) r), [RemoveEventHandler i old]. split_and!; [done| |apply lookup_delete_eq|by repeat constructor|].
      + destruct (ie_RemoveEventHandler e i old); [right; by eexists|by left].
      + intros rs Hp. cbn [foldl handle_call]. rewrite decide_True by done. apply remove_one_perm. rewrite Hp.
        by rewrite <- (map_to_list_delete r (eg_pointer g) old Eo).
    - exists r, []. split_and!; [done|left; by rewrite app_nil_r|done|constructor|done]. }
  destruct Hun as [-> | [err ->]].
  2: { exists r, l, [], (Some (UnregisterFailed err)). rewrite app_nil_r. by split_and!. }
  cbn [fmap option_fmap option_map]. destruct (Generator g ftc) as [h|].
  - destruct (ie_AddEventHandler e i h) as [reg|err].
    + cbn [write_map mbind may_panic_bind mret may_panic_ret].
      destruct (IH (<[eg_pointer g := reg]> r1) (<[eg_pointer g := ftc]> (delete (eg_pointer g) l))
        ((calls ++ calls1) ++ [AddEventHandler i (eg_pointer g) h reg])) as (r' & l' & new & err & -> & Hnew & Hperm).
      exists r', l', (calls1 ++ AddEventHandler i (eg_pointer g) h reg :: new), err. rewrite <- !app_assoc. split_and!; [done| |].
      * apply Forall_app. split; [done|]. by constructor.
      * intros rs Hp. rewrite foldl_app. cbn [foldl handle_call]. rewrite decide_True by done. apply Hperm.
        rewrite map_to_list_insert by done. cbn. by rewrite (Hrs _ Hp).
    + eexists r1, _, calls1, _. by split_and!.
  - cbn [write_map mbind may_panic_bind mret may_panic_ret].
    destruct (IH r1 (<[eg_pointer g := ftc]> (delete (eg_pointer g) l)) (calls ++ calls1)) as (r' & l' & new & err & -> & Hnew & Hperm).
    exists r', l', (calls1 ++ new), err. rewrite <- !app_assoc. split_and!; [done|by apply Forall_app|].
    intros rs Hp. rewrite foldl_app. apply Hperm. by apply Hrs.
Qed.

Lemma observe_wf m name ftc : im_wf m -> ftc_Name ftc = name -> mapped m name (GetSourceTypeGVK ftc) ->
  im_wf (observeFTC m name ftc).
Proof using Type.
  intros Hwf Hn Hm. destruct (updates_about 0 0 (ftcUpdateHandlers m) (lastObservedFTCs m !! name) (Some ftc)) as [Hab _].
  assert (forall j rs, foldl (handle_call j) rs ((fun h => CallFTCUpdateHandler h (lastObservedFTCs m !! name) (Some ftc)) <$>
    ftcUpdateHandlers m) = rs) as Hh by (intros j; apply (updates_about 0 j)).
  destruct Hwf. split; cbn; try done.
  - intros n. destruct (decide (n = name)) as [->|Hne].
    + rewrite lookup_insert_eq. split; [|by eexists]. intros _. apply wf_informers0. by eexists.
    + by rewrite lookup_insert_ne.
  - intros n f [[<- <-]|[Hne Hl]]%lookup_insert_Some; [by split|by apply wf_type0].
  - apply Forall_app. split; [done|]. by apply Forall_fmap, Forall_true.
  - intros i. rewrite running_app, (about_running 0) by done. apply wf_running0.
  - intros n i Hi. rewrite handlers_app, Hh. by apply wf_handlers0.
Qed.

Lemma kept_empty m name : eventHandlerRegistrations m !! name = Some ∅ -> kept m name = [].
Proof using Type. intros E. unfold kept. rewrite E. cbn. by rewrite map_to_list_empty. Qed.

(** A new informer, and the type config that it is for. *)
Lemma start_wf m mapping name gvr ftc : im_wf m -> ftc_Name ftc = name ->
  Bijection_Add (gvkMapping m) name (GetSourceTypeGVK ftc) = inl mapping ->
  im_wf (observeFTC (startInformer m mapping name gvr) name ftc).
Proof using Type.
  intros Hwf Hn Hadd. pose proof (Add_mutual _ _ _ _ (wf_mapping _ Hwf) Hadd) as Hmut.
  unfold Bijection_Add in Hadd. destruct (bij_t1ToT2Map (gvkMapping m) !! name) eqn:E1; [done|].
  destruct (bij_t2ToT1Map (gvkMapping m) !! GetSourceTypeGVK ftc) eqn:E2; [done|]. injection Hadd as <-.
  assert (informers m !! name = None) as Hnone.
  { apply eq_None_not_Some. intros Hs. apply (wf_informers _ Hwf) in Hs as [? Hs]. congruence. }
  set (m1 := startInformer m _ name gvr).
  destruct (updates_about 0 0 (ftcUpdateHandlers m1) (lastObservedFTCs m1 !! name) (Some ftc)) as [Hab _].
  assert (forall j rs, foldl (handle_call j) rs ((fun h => CallFTCUpdateHandler h (lastObservedFTCs m1 !! name) (Some ftc)) <$>
    ftcUpdateHandlers m1) = rs) as Hh by (intros j; apply (updates_about 0 j)).
  assert (forall n i, informers m !! n = Some i -> (i < im_next m)%nat) as Hnext by apply Hwf.
  split.
  - done.
  - intros n. cbn. rewrite !lookup_insert_is_Some. destruct (decide (name = n)) as [->|Hne]; [naive_solver|].
    rewrite (wf_informers _ Hwf). naive_solver.
  - intros n. cbn. rewrite !lookup_insert_is_Some. rewrite (wf_observed _ Hwf). naive_solver.
  - intros n f. cbn. intros [[<- <-]|[Hne Hl]]%lookup_insert_Some.
    + split; [done|]. unfold mapped. cbn. by rewrite lookup_insert_eq.
    + destruct (wf_type _ Hwf _ _ Hl) as [-> Hm]. split; [done|]. unfold mapped. cbn. by rewrite lookup_insert_ne.
  - cbn. by rewrite (wf_cancel _ Hwf).
  - intros n. cbn. rewrite !lookup_insert_is_Some. rewrite (wf_registrations _ Hwf). naive_solver.
  - intros n. cbn. rewrite !lookup_insert_is_Some. intros [->|[Hne Hs]]; [by left|right]. split; [done|]. by apply (wf_applied _ Hwf).
  - intros n n' i. cbn. intros [[<- <-]|[Hne Hl]]%lookup_insert_Some [[<- E]|[Hne' Hl']]%lookup_insert_Some; try done.
    + apply Hnext in Hl'. lia.
    + apply Hnext in Hl. lia.
    + by eapply wf_inj.
  - intros n i. cbn. intros [[<- <-]|[Hne Hl]]%lookup_insert_Some; [lia|]. apply Hnext in Hl. lia.
  - cbn. rewrite <- app_assoc. apply Forall_app. split; [apply below_S, Hwf|]. constructor; [cbn; lia|]. by apply Forall_fmap, Forall_true.
  - intros i. cbn. rewrite !running_app, (about_running 0) by done. cbn. rewrite elem_of_union, elem_of_singleton, (wf_running _ Hwf). split.
    + intros [[n Hn']| ->]; [|exists name; by rewrite lookup_insert_eq]. exists n. rewrite lookup_insert_ne; [done|]. intros <-. congruence.
    + intros [n [[<- <-]|[Hne Hl]]%lookup_insert_Some]; [by right|left; by exists n].
  - intros n i. cbn. intros Hi. rewrite !handlers_app, Hh. cbn. apply lookup_insert_Some in Hi as [[<- <-]|[Hne Hl]].
    + rewrite kept_empty by (cbn; by rewrite lookup_insert_eq). unfold handlers_of. by rewrite handlers_below by apply Hwf.
    + rewrite (wf_handlers _ Hwf _ _ Hl). unfold kept. cbn. by rewrite lookup_insert_ne.
Qed.

Lemma store_wf m name i r' l' new : im_wf m -> informers m !! name = Some i -> Forall (about_handlers i) new ->
  (forall rs, rs ≡ₚ kept m name -> foldl (handle_call i) rs new ≡ₚ (map_to_list r').*2) ->
  im_wf (storeHandlers m name (Some r') (Some l') (im_calls m ++ new)).
Proof using Type.
  intros Hwf Hi Hab Hrs. assert ((i < im_next m)%nat) as Hlt by by eapply wf_next.
  assert (forall {V} (x : gmap string V) v n, partial_alter (fun _ => Some v) name x !! n = if decide (n = name) then Some v else x !! n) as Hpa.
  { intros V x v n. case_decide; subst; [by rewrite lookup_partial_alter_eq|by rewrite lookup_partial_alter_ne]. }
  split; try apply Hwf; cbn.
  - intros n. rewrite Hpa. case_decide; subst; [|apply Hwf]. split; [by eexists|by eexists].
  - intros n. rewrite Hpa. case_decide; subst; [by eexists|apply Hwf].
  - apply Forall_app. split; [apply Hwf|]. by eapply about_below.
  - intros j. rewrite running_app, (about_running i) by done. apply Hwf.
  - intros n j Hj. rewrite handlers_app. unfold kept. cbn. rewrite Hpa. case_decide as Hn.
    + subst n. assert (j = i) as -> by congruence. apply Hrs. by apply Hwf.
    + rewrite about_others with (i := i); [by apply Hwf| |done]. intros ->. apply Hn. by eapply wf_inj.
Qed.

Lemma processHandlers_wf e m ftc : im_wf (observeFTC m (ftc_Name ftc) ftc) ->
  exists m' res, processHandlers e m ftc = Returns (m', res) /\ im_wf m'.
Proof using Type.
  intros Hwf. unfold processHandlers. set (m1 := observeFTC m (ftc_Name ftc) ftc) in *.
  destruct (informers m !! ftc_Name ftc) as [i|] eqn:Ei.
  2: { exfalso. assert (is_Some (informers m1 !! ftc_Name ftc)) as [i Hi]; [|discriminate (eq_trans (eq_sym Hi) Ei)].
       apply (wf_observed _ Hwf). cbn. rewrite lookup_insert_eq. by eexists. }
  assert (informers m1 !! ftc_Name ftc = Some i) as Ei1 by done.
  destruct (negb (ie_HasSynced e i)); [by eexists _, _|].
  assert (is_Some (eventHandlerRegistrations m1 !! ftc_Name ftc)) as [r Er] by (apply (wf_registrations _ Hwf); by eexists).
  assert (is_Some (lastAppliedFTCsCache m1 !! ftc_Name ftc)) as [l El] by (apply (wf_applied _ Hwf); by eexists).
  rewrite Er, El.
  destruct (registerHandlers_calls e i ftc (eventHandlerGenerators m1) r l (im_calls m1)) as (r' & l' & new & err & -> & Hab & Hrs).
  cbn [mbind may_panic_bind]. do 2 eexists. split; [done|]. eapply store_wf; [done|done|done|].
  intros rs Hp. apply Hrs. rewrite Hp. unfold kept. by rewrite Er.
Qed.

(** Processing a type config never panics, and keeps the invariant. *)
Lemma processFTC_wf e m ftc : im_wf m -> exists m' res, processFTC e m ftc = Returns (m', res) /\ im_wf m'.
Proof using Type.
  intros Hwf. unfold processFTC. destruct (Bijection_LookupByT1 (gvkMapping m) (ftc_Name ftc)) as [old|] eqn:El.
  - case_bool_decide as Heq; cbn [negb].
    + apply processHandlers_wf, observe_wf; [done|done|]. unfold mapped. by rewrite <- Heq.
    + do 2 eexists. split; [done|]. by apply deletion_wf.
  - destruct (Bijection_Add _ _ _) as [mapping|err] eqn:Ea; [|by do 2 eexists]. by apply processHandlers_wf, start_wf.
Qed.

(** ** Reachable states

    What the manager reads may change between two steps; the worker runs once it
    is started. *)
Inductive im_reachable : informerManager -> Prop :=
  | im_reach_new : im_reachable NewInformerManager
  | im_reach_generator m g m' : im_reachable m -> AddEventHandlerGenerator m g = inl m' -> im_reachable m'
  | im_reach_handler m h m' : im_reachable m -> AddFTCUpdateHandler m h = inl m' -> im_reachable m'
  | im_reach_start e m : im_reachable m -> im_reachable (im_Start e m).1
  | im_reach_worker e m name m' op : im_reachable m -> im_worker e m name = Returns (m', op) -> im_reachable m'
  | im_reach_stop m : im_reachable m -> im_reachable (im_stop m).

Lemma worker_wf e m name : im_wf m -> exists m' op, im_worker e m name = Returns (m', op) /\ im_wf m'.
Proof using Type.
  intros Hwf. unfold im_worker. destruct (ie_GetFTC e name) as [ftc|err].
  - destruct (processFTC_wf e m ftc Hwf) as (m' & [b err] & -> & Hwf'). cbn [mbind may_panic_bind]. by do 2 eexists.
  - destruct (IsNotFound err); do 2 eexists; (split; [done|]); [by apply deletion_wf|done].
Qed.

Lemma same_wf m m' : gvkMapping m' = gvkMapping m -> lastObservedFTCs m' = lastObservedFTCs m -> informers m' = informers m ->
  informerCancelFuncs m' = informerCancelFuncs m -> eventHandlerRegistrations m' = eventHandlerRegistrations m ->
  lastAppliedFTCsCache m' = lastAppliedFTCsCache m -> im_next m' = im_next m -> im_calls m' = im_calls m -> im_wf m -> im_wf m'.
Proof using Type.
  destruct m, m'. simpl. intros -> -> -> -> -> -> -> -> []. by split.
Qed.

Lemma im_reachable_wf m : im_reachable m -> im_wf m.
Proof using Type.
  induction 1 as [|m g m' _ IH Ha|m h m' _ IH Ha|e m _ IH|e m name m' op _ IH Hw|m _ IH].
  - apply new_wf.
  - unfold AddEventHandlerGenerator in Ha. destruct (im_started m); [done|]. injection Ha as <-. by apply (same_wf m).
  - unfold AddFTCUpdateHandler in Ha. destruct (im_started m); [done|]. injection Ha as <-. by apply (same_wf m).
  - unfold im_Start. destruct (im_started m); [done|]. destruct (negb (ie_FTCInformerSynced e)); by apply (same_wf m).
  - destruct (worker_wf e m name IH) as (m1 & op1 & E & Hwf). rewrite E in Hw. by injection Hw as <- <-.
  - by apply (same_wf m).
Qed.

(** The number of handlers that were added to an informer for a generator. *)
Definition adds i (ptr : nat) (calls : list InformerCall) : nat :=
  foldr (fun c n => match c with AddEventHandler j g _ _ => if decide (j = i /\ g = ptr) then S n else n | _ => n end) 0%nat calls.

Lemma adds_app i ptr l l' : adds i ptr (l ++ l') = (adds i ptr l + adds i ptr l')%nat.
Proof using Type.
  unfold adds. induction l as [|c l IH]; [done|]. cbn. rewrite IH. destruct c; try done. by case_decide.
Qed.

Lemma adds_below i ptr l : Forall (below i) l -> adds i ptr l = 0%nat.
Proof using Type.
  intros Hl. induction Hl as [|c l Hc _ IH]; [done|]. unfold adds in *. cbn. destruct c; try done. rewrite decide_False; [done|].
  intros [-> _]. cbn in Hc. lia.
Qed.

Lemma adds_other i j ptr l : i <> j -> Forall (about_handlers i) l -> adds j ptr l = 0%nat.
Proof using Type.
  intros Hij Hl. induction Hl as [|c l Hc _ IH]; [done|]. unfold adds in *. cbn. destruct c; try done. rewrite decide_False; [done|].
  cbn in Hc. naive_solver.
Qed.

Lemma adds_updates i ptr hs old new : adds i ptr ((fun h => CallFTCUpdateHandler h old new) <$> hs) = 0%nat.
Proof using Type. by induction hs. Qed.

(** The generators of a pointer register once. *)
Definition once (gens : list EventHandlerGenerator) (ptr : nat) : Prop :=
  forall g, g ∈ gens -> eg_pointer g = ptr -> Predicate g = RegisterOncePredicate.

Lemma registerHandlers_once e i ftc ptr gens r l calls r' l' calls' err : once gens ptr ->
  (l !! ptr = None -> adds i ptr calls = 0%nat) -> (adds i ptr calls <= 1)%nat ->
  registerHandlers e i ftc gens (Some r) (Some l) calls = Returns (Some r', Some l', calls', err) ->
  (l' !! ptr = None -> adds i ptr calls' = 0%nat) /\ (adds i ptr calls' <= 1)%nat.
Proof using Type.
  revert r l calls. induction gens as [|g gens IH]; intros r l calls Honce H0 H1; cbn [registerHandlers].
  { by intros [= <- <- <- <-]. }
  assert (once gens ptr) as Hgens by (intros g' Hg'; apply Honce; by right).
  assert (eg_pointer g = ptr -> Predicate g = RegisterOncePredicate) as Hg by (apply Honce; left).
  destruct (negb (Predicate g (Some l ≫= (.!! eg_pointer g)) ftc)) eqn:Hp; cbn [write_map mbind may_panic_bind mret may_panic_ret].
  { apply IH; [done| |done]. destruct (decide (eg_pointer g = ptr)) as [->|Hne]; [by rewrite lookup_insert_eq|by rewrite lookup_insert_ne]. }
  apply negb_false_iff in Hp.
  assert (eg_pointer g = ptr -> adds i ptr calls = 0%nat) as Hfirst.
  { intros E. rewrite (Hg E) in Hp. cbn in Hp. rewrite E in Hp. destruct (l !! ptr); [done|]. by apply H0. }
  assert (forall calls1, adds i ptr calls1 = 0%nat -> adds i ptr (calls ++ calls1) = adds i ptr calls) as Hsame.
  { intros calls1 E. rewrite adds_app, E. lia. }
  change (option_bind _ _ (lookup (eg_pointer g)) (Some r)) with (r !! eg_pointer g).
  destruct (match r !! eg_pointer g with
    | Some old => match ie_RemoveEventHandler e i old with
                  | Some err => inr err | None => inl (delete (eg_pointer g) <$> Some r, calls ++ [RemoveEventHandler i old]) end
    | None => inl (Some r, calls) end) as [[r1 calls1]|err1] eqn:Eu.
  2: { intros Heq. cbv [mret may_panic_ret] in Heq. by simplify_eq. }
  assert (adds i ptr calls1 = adds i ptr calls /\ exists r1', r1 = Some r1') as [Ec [r1' ->]].
  { destruct (r !! eg_pointer g); [|injection Eu as <- <-; by eauto].
    destruct (ie_RemoveEventHandler e i _); [done|]. injection Eu as <- <-. split; [by apply Hsame|by eexists]. }
  cbn [fmap option_fmap option_map]. set (l1 := delete (eg_pointer g) l).
  assert (l1 !! ptr = None -> adds i ptr calls = 0%nat) as H0'.
  { unfold l1. destruct (decide (eg_pointer g = ptr)) as [E|Hne]; [by intros _; apply Hfirst|by rewrite lookup_delete_ne]. }
  assert (forall (x : gmap nat FederatedTypeConfig), (<[eg_pointer g := ftc]> l1) !! ptr = None -> adds i ptr calls = 0%nat /\ eg_pointer g <> ptr) as Hins.
  { intros _. rewrite lookup_insert_None. intros [Hl Hne]. split; [by apply H0'|done]. }
  destruct (Generator g ftc) as [h|].
  - destruct (ie_AddEventHandler e i h) as [reg|err1].
    + cbn [write_map mbind may_panic_bind mret may_panic_ret]. apply IH; [done|..].
      * intros Hl. destruct (Hins ∅ Hl) as [Hz Hne]. rewrite adds_app, Ec, Hz. unfold adds. cbn. rewrite decide_False; [done|naive_solver].
      * rewrite adds_app, Ec. unfold adds at 2. cbn. case_decide as Hd; [|lia]. destruct Hd as [_ Hd]. rewrite (Hfirst Hd). lia.
    + intros Heq. cbv [mret may_panic_ret] in Heq. simplify_eq. by rewrite Ec.
  - cbn [write_map mbind may_panic_bind mret may_panic_ret]. apply IH; [done|..]; rewrite Ec; [|done]. intros Hl. by apply (Hins ∅).
Qed.

#[local] Arguments adds : simpl never.
Lemma adds_nil i ptr : adds i ptr [] = 0%nat.
Proof using Type. done. Qed.
Lemma adds_cancel i ptr j : adds i ptr [CancelInformer j] = 0%nat.
Proof using Type. done. Qed.
Lemma adds_run i ptr j gvr : adds i ptr [RunInformer j gvr] = 0%nat.
Proof using Type. done. Qed.

Lemma deletion_adds m name i ptr : adds i ptr (im_calls (processFTCDeletion m name)) = adds i ptr (im_calls m).
Proof using Type.
  destruct (deletion_fields m name) as (_ & _ & _ & _ & _ & _ & _ & _ & _ & _ & ->). rewrite !adds_app.
  destruct (informerCancelFuncs m !! name), (lastObservedFTCs m !! name); rewrite ?adds_updates, ?adds_cancel, ?adds_nil; lia.
Qed.

Lemma observe_adds m name ftc i ptr : adds i ptr (im_calls (observeFTC m name ftc)) = adds i ptr (im_calls m).
Proof using Type. cbn. rewrite adds_app, adds_updates. lia. Qed.

(** A handler is added at most once, and the generator is then marked. *)
Record once_inv (ptr : nat) m : Prop := {
  oi_adds : forall i, (adds i ptr (im_calls m) <= 1)%nat;
  oi_mark : forall name i l, informers m !! name = Some i -> lastAppliedFTCsCache m !! name = Some l -> l !! ptr = None ->
    adds i ptr (im_calls m) = 0%nat
}.

Lemma processHandlers_once e m ftc ptr m' res : once (eventHandlerGenerators m) ptr ->
  im_wf (observeFTC m (ftc_Name ftc) ftc) -> once_inv ptr (observeFTC m (ftc_Name ftc) ftc) ->
  processHandlers e m ftc = Returns (m', res) -> once_inv ptr m'.
Proof using Type.
  intros Honce Hwf [Ha Hm]. unfold processHandlers. set (m1 := observeFTC m (ftc_Name ftc) ftc) in *.
  change (informers m) with (informers m1). destruct (informers m1 !! ftc_Name ftc) as [i|] eqn:Ei; [|done].
  destruct (negb (ie_HasSynced e i)); [by intros [= <- _]|].
  assert (is_Some (eventHandlerRegistrations m1 !! ftc_Name ftc)) as [r Er] by (apply (wf_registrations _ Hwf); by eexists).
  assert (is_Some (lastAppliedFTCsCache m1 !! ftc_Name ftc)) as [l El] by (apply (wf_applied _ Hwf); by eexists).
  rewrite Er, El. destruct (registerHandlers_calls e i ftc (eventHandlerGenerators m1) r l (im_calls m1)) as (r' & l' & new & err & E & Hab & _).
  destruct (registerHandlers_once e i ftc ptr _ r l _ _ _ _ _ Honce (Hm _ _ _ Ei El) (Ha i) E) as [H0 H1].
  rewrite E. cbn [mbind may_panic_bind]. intros [= <- _].
  assert (forall j, j <> i -> adds j ptr (im_calls m1 ++ new) = adds j ptr (im_calls m1)) as Hother.
  { intros j Hj. rewrite adds_app, (adds_other i j ptr new (not_eq_sym Hj) Hab). lia. }
  split; cbn [storeHandlers im_calls informers lastAppliedFTCsCache].
  - intros j. change (adds j ptr (im_calls m1 ++ new) <= 1)%nat. destruct (decide (j = i)) as [->|Hj]; [done|].
    rewrite (Hother j Hj). apply Ha.
  - intros name j l0 Hj. destruct (decide (name = ftc_Name ftc)) as [->|Hn].
    + rewrite lookup_partial_alter_eq. assert (j = i) as -> by congruence. by intros [= <-].
    + rewrite lookup_partial_alter_ne by done. intros Hl Hnone. change (adds j ptr (im_calls m1 ++ new) = 0%nat).
      rewrite Hother; [by eapply Hm|]. intros ->. apply Hn. by eapply wf_inj.
Qed.

Lemma deletion_once ptr m name : once_inv ptr m -> once_inv ptr (processFTCDeletion m name).
Proof using Type.
  intros [Ha Hm]. destruct (deletion_fields m name) as (_ & _ & Ei & _ & _ & El & _).
  split; [intros i; rewrite deletion_adds; apply Ha|]. intros n i l. rewrite Ei, El, deletion_adds.
  intros [_ Hi]%lookup_delete_Some. by apply Hm.
Qed.

Lemma processFTC_once e m ftc ptr m' res : once (eventHandlerGenerators m) ptr -> im_wf m -> once_inv ptr m ->
  processFTC e m ftc = Returns (m', res) -> once_inv ptr m'.
Proof using Type.
  intros Honce Hwf Hinv. unfold processFTC. destruct (Bijection_LookupByT1 (gvkMapping m) (ftc_Name ftc)) as [old|] eqn:El.
  - case_bool_decide as Heq; cbn [negb].
    + apply processHandlers_once; [done| |].
      * apply observe_wf; [done|done|]. unfold mapped. by rewrite <- Heq.
      * destruct Hinv as [Ha Hm]. split; [intros i; rewrite observe_adds; apply Ha|].
        intros name i l Hi Hl Hn. rewrite observe_adds. by eapply Hm.
    + intros [= <- _]. by apply deletion_once.
  - destruct (Bijection_Add _ _ _) as [mapping|err] eqn:Eadd; [|by intros [= <- _]].
    apply processHandlers_once; [done|by apply start_wf|]. destruct Hinv as [Ha Hm].
    assert (forall i, adds i ptr (im_calls (observeFTC (startInformer m mapping (ftc_Name ftc) (GetSourceTypeGVR ftc)) (ftc_Name ftc) ftc)) =
      adds i ptr (im_calls m)) as Eadds.
    { intros i. rewrite observe_adds. cbn. rewrite adds_app, adds_run. lia. }
    split; [intros i; rewrite Eadds; apply Ha|]. intros name i l. rewrite Eadds. cbn.
    intros [[<- <-]|[Hne Hi]]%lookup_insert_Some.
    + intros _ _. apply adds_below, Hwf.
    + rewrite lookup_insert_ne by done. by apply Hm.
Qed.

Lemma processHandlers_generators e m ftc m' res : processHandlers e m ftc = Returns (m', res) ->
  eventHandlerGenerators m' = eventHandlerGenerators m.
Proof using Type.
  unfold processHandlers. destruct (informers m !! ftc_Name ftc) as [i|]; [|done].
  destruct (negb (ie_HasSynced e i)); [by intros [= <- _]|].
  intros Hr. apply may_panic_bind_Returns in Hr as ([[[r l] c] err] & _ & Hr). by injection Hr as <- _.
Qed.

Lemma worker_generators e m name m' op : im_worker e m name = Returns (m', op) ->
  eventHandlerGenerators m' = eventHandlerGenerators m.
Proof using Type.
  assert (forall n, eventHandlerGenerators (processFTCDeletion m n) = eventHandlerGenerators m) as Hd
    by (intros n; apply (deletion_fields m n)).
  unfold im_worker. destruct (ie_GetFTC e name) as [ftc|err]; [|destruct (IsNotFound err); intros [= <- _]; auto].
  intros Hr. apply may_panic_bind_Returns in Hr as ([m1 [b err]] & Hr & Heq). injection Heq as <- _.
  unfold processFTC in Hr. destruct (Bijection_LookupByT1 _ _).
  - destruct (negb _); [injection Hr as <- _; auto|]. by apply processHandlers_generators in Hr.
  - destruct (Bijection_Add _ _ _); [|by injection Hr as <- _]. by apply processHandlers_generators in Hr.
Qed.

Lemma once_inv_same ptr m m' : im_calls m' = im_calls m -> informers m' = informers m ->
  lastAppliedFTCsCache m' = lastAppliedFTCsCache m -> once_inv ptr m -> once_inv ptr m'.
Proof using Type. destruct m, m'. simpl. intros -> -> -> []. by split. Qed.

Lemma reachable_once ptr m : im_reachable m -> once (eventHandlerGenerators m) ptr -> once_inv ptr m.
Proof using EqDecision0.
  intros Hm. pose proof Hm as Hm'. revert Hm'. induction Hm as [|m g m' Hr IH Ha|m h m' Hr IH Ha|e m Hr IH|e m name m' op Hr IH Hw|m Hr IH]; intros _ Honce.
  - split; cbn; [intros i; rewrite adds_nil; lia|done].
  - unfold AddEventHandlerGenerator in Ha. destruct (im_started m); [done|]. injection Ha as <-. apply (once_inv_same _ m); try done.
    apply IH; [done|]. intros g' Hg'. apply Honce. cbn. rewrite elem_of_app. by left.
  - unfold AddFTCUpdateHandler in Ha. destruct (im_started m); [done|]. injection Ha as <-. apply (once_inv_same _ m); auto.
  - unfold im_Start in *. destruct (im_started m); [by apply IH|].
    destruct (negb (ie_FTCInformerSynced e)); apply (once_inv_same _ m); auto.
  - rewrite (worker_generators _ _ _ _ _ Hw) in Honce. specialize (IH Hr Honce). pose proof (im_reachable_wf _ Hr) as Hwf.
    unfold im_worker in Hw. destruct (ie_GetFTC e name) as [ftc|err].
    + apply may_panic_bind_Returns in Hw as ([m1 [b err]] & Hp & Heq). injection Heq as <- _. by eapply processFTC_once.
    + destruct (IsNotFound err); injection Hw as <- _; [by apply deletion_once|done].
  - apply (once_inv_same _ m); auto.
Qed.

(** In every state the type config and the informer of a kind exist together,
    the type config is of that kind, and the informers that run are exactly those
    of the known kinds, one for each; the handlers that an informer has are exactly
    the registrations that the manager keeps for it. *)
Theorem informers_exact m : im_reachable m ->
  (forall gvk, is_Some (im_GetResourceFTC m gvk) <-> is_Some (im_GetResourceLister m gvk)) /\
  (forall gvk ftc, im_GetResourceFTC m gvk = Some ftc -> GetSourceTypeGVK ftc = gvk) /\
  (forall i, i ∈ running (im_calls m) <-> exists gvk, im_GetResourceLister m gvk = Some i) /\
  (forall gvk gvk' i, im_GetResourceLister m gvk = Some i -> im_GetResourceLister m gvk' = Some i -> gvk = gvk') /\
  (forall gvk ftc i, im_GetResourceFTC m gvk = Some ftc -> im_GetResourceLister m gvk = Some i ->
     exists registrations, eventHandlerRegistrations m !! ftc_Name ftc = Some registrations /\
       handlers_of i (im_calls m) ≡ₚ (map_to_list registrations).*2).
Proof using EqDecision0.
  intros Hm. apply im_reachable_wf in Hm as Hwf. clear Hm.
  assert (forall gvk name, bij_t2ToT1Map (gvkMapping m) !! gvk = Some name <-> mapped m name gvk) as Hmap
    by (intros gvk name; symmetry; apply Hwf).
  assert (forall gvk i, im_GetResourceLister m gvk = Some i <-> exists name, mapped m name gvk /\ informers m !! name = Some i) as Hlis.
  { intros gvk i. unfold im_GetResourceLister, Bijection_LookupByT2. rewrite bind_Some. setoid_rewrite Hmap. done. }
  assert (forall gvk ftc, im_GetResourceFTC m gvk = Some ftc <-> exists name, mapped m name gvk /\ lastObservedFTCs m !! name = Some ftc) as Hftc.
  { intros gvk ftc. unfold im_GetResourceFTC, Bijection_LookupByT2. rewrite bind_Some. setoid_rewrite Hmap. done. }
  split_and!.
  - intros gvk. split; intros [x Hx].
    + apply Hftc in Hx as (name & Hn & Hx). assert (is_Some (informers m !! name)) as [i Hi] by (apply (wf_observed _ Hwf); by eexists).
      exists i. apply Hlis. by exists name.
    + apply Hlis in Hx as (name & Hn & Hx). assert (is_Some (lastObservedFTCs m !! name)) as [f Hf] by (apply (wf_observed _ Hwf); by eexists).
      exists f. apply Hftc. by exists name.
  - intros gvk ftc (name & Hn & Hf)%Hftc. apply (wf_type _ Hwf) in Hf as [_ Hf]. unfold mapped in *. congruence.
  - intros i. rewrite (wf_running _ Hwf). setoid_rewrite Hlis. split.
    + intros [name Hi]. assert (is_Some (bij_t1ToT2Map (gvkMapping m) !! name)) as [gvk Hg] by (apply (wf_informers _ Hwf); by eexists).
      by exists gvk, name.
    + intros (gvk & name & _ & Hi). by exists name.
  - intros gvk gvk' i (n & Hn & Hi)%Hlis (n' & Hn' & Hi')%Hlis. assert (n = n') as <- by (by eapply wf_inj).
    unfold mapped in *. congruence.
  - intros gvk ftc i (n & Hn & Hf)%Hftc (n' & Hn' & Hi)%Hlis. apply Hmap in Hn, Hn'. assert (n' = n) as -> by congruence.
    destruct (wf_type _ Hwf _ _ Hf) as [-> _].
    assert (is_Some (eventHandlerRegistrations m !! n)) as [r Er] by (apply (wf_registrations _ Hwf); by eexists).
    exists r. split; [done|]. rewrite (wf_handlers _ Hwf _ _ Hi). unfold kept. by rewrite Er.
Qed.

(** A generator whose predicate is [RegisterOncePredicate] has at most one
    handler added to each informer, however often the type config is processed
    and whatever fails. *)
Theorem register_once m ptr : im_reachable m ->
  (forall g, g ∈ eventHandlerGenerators m -> eg_pointer g = ptr -> Predicate g = RegisterOncePredicate) ->
  forall i, (adds i ptr (im_calls m) <= 1)%nat.
Proof using EqDecision0. intros Hm Honce. by apply reachable_once. Qed.
End Informers.

(** ** Examples *)

Section Witnesses.
#[local] Instance numbered : InformerTypes := {| Handler := nat; Registration := nat |}.

Definition typed (name : string) : FederatedTypeConfig := {|
  ftc_Name := name; ReplicasSpec := ""; ReplicasStatus := ""; ReadyReplicasStatus := "";
  AutoMigrationEnabled := false; ftc_Annotations := ∅; StatusAggregationEnabled := false; StatusCollection := None;
  Controllers := [];
  SourceType := {| ar_Group := ""; ar_Version := "v1"; ar_Kind := "ConfigMap"; ar_PluralName := "configmaps";
                   ar_Scope := "Namespaced" |} |}.

(** Two type configs of the same source type. *)
Definition two_types (synced : bool) : InformerEnvironment := {|
  ie_GetFTC := fun name => inl (typed name);
  ie_FTCs := [typed "configmaps"; typed "copies"];
  ie_FTCInformerSynced := true;
  ie_HasSynced := fun _ => synced;
  ie_AddEventHandler := fun _ handler => inl handler;
  ie_RemoveEventHandler := fun _ _ => None
|}.

Definition watcher : EventHandlerGenerator :=
  {| eg_pointer := 7; Predicate := RegisterOncePredicate; Generator := fun _ => Some 3%nat |}.

(** The manager with the generator, started, after it worked on the keys. *)
Definition worked (keys : list (bool * string)) : may_panic informerManager :=
  match AddEventHandlerGenerator NewInformerManager watcher with
  | inr _ => Panics
  | inl m => foldl (fun m '(synced, name) => m ← m; '(m, _) ← im_worker (two_types synced) m name; mret m)
               (mret (im_Start (two_types true) m).1) keys
  end.

(** The handler is added when the informer has synced, and once. *)
Example handler_added_once :
  match worked [(false, "configmaps"); (true, "configmaps"); (true, "configmaps")]%string with
  | Returns m => im_calls m = [RunInformer 0 (GetSourceTypeGVR (typed "")); AddEventHandler 0 7 (3%nat : Handler) (3%nat : Registration)]
  | _ => False
  end.
Proof. vm_compute. reflexivity. Qed.

(** A type config whose source type is taken is given up and stays among those
    that the manager waits for. *)
Example never_synced :
  match worked [(true, "configmaps"); (true, "copies")]%string with
  | Returns m => im_HasSynced (two_types true) m = false /\ elements (initialFTCs m) = ["copies"%string] /\
                 im_worker (two_types true) m "copies" = Returns (m, Forget)
  | _ => False
  end.
Proof. vm_compute. done. Qed.
End Witnesses.
