(* ===== verification/NsAutoProp.v ===== *)
(** * Namespace auto propagation ([pkg/controllers/nsautoprop])

    Places namespaces in all clusters, adopts those that exist there already,
    and keeps adopted ones when the federated namespace is deleted.  The result
    of a reconciliation is the worker result and the object sent to the API
    server, if any; the metric of failed propagations has no effect on it. *)

From Stdlib Require Import ZArith Lia String Ascii.
From S2P Require Import Prelude GoStrings K8s Types ApiTypes Unstructured Codecs FedObject MemberObjects Naming Sync Federate.

Definition NamespaceAutoPropagationControllerName : string := "nsautoprop-controller".
Definition PrefixedNamespaceAutoPropagationControllerName : string :=
  (DefaultPrefix ++ NamespaceAutoPropagationControllerName)%string.
Definition NamespaceKind : string := "Namespace".
Definition namespaceGVK : GroupVersionKind := {| gvk_Group := ""; gvk_Version := "v1"; gvk_Kind := NamespaceKind |}.

Definition quoted (s : string) : string := (String (ascii_of_nat 34) (s ++ String (ascii_of_nat 34) EmptyString))%string.
(** [{"regexp":".*"}] *)
Definition AllClustersToAdoptRegexp : string := ("{" ++ quoted "regexp" ++ ":" ++ quoted ".*" ++ "}")%string.

Section Controller.
Context `{K : Kubernetes}.

Record NsAutoPropController := {
  ns_ClusterFederatedObject : string -> FederatedObject + ApiError;
  ns_ResourceFTC : GroupVersionKind -> option FederatedTypeConfig;
  ns_FederatedClusters : list FederatedCluster + string;
  ns_Namespaces : list string + string;
  ns_excludeRegexp : option (string -> bool);
  ns_fedSystemNamespace : string;
  ns_Update : FederatedObject -> option ApiError
}.

Context `{R : GoRuntime} `{C : !Codecs} `{L : !FederateLibraries}.
Variable c : NsAutoPropController.

Definition shouldBeAutoPropagated (fedNamespace : Unstructured) : bool :=
  let name := uns_GetName fedNamespace in
  if HasPrefix name "kube-" then false
  else if String.eqb name (ns_fedSystemNamespace c) then false
  else if match ns_excludeRegexp c with Some MatchString => MatchString name | None => false end then false
  else if String.eqb (default ""%string (uns_GetAnnotations fedNamespace !! NoAutoPropagationAnnotation))
            AnnotationValueTrue then false
  else true.

Definition ensureAnnotation (fedNamespace : FederatedObject) (key value : string) : (FederatedObject * bool) + string :=
  match AddAnnotation fedNamespace key value with
  | inr err => inr ("failed to add " ++ key ++ " annotation to " ++ fo_Name fedNamespace ++ ", err: " ++ err)%string
  | inl res => inl res
  end.

Definition updateNamespace (fedNamespace : FederatedObject) : WorkerResult * option FederatedObject :=
  match ns_Update c fedNamespace with
  | Some err => (if IsConflict err then StatusConflict else StatusError, Some fedNamespace)
  | None => (StatusAllOK, Some fedNamespace)
  end.

(** A namespace that is not for this controller is only handed on. *)
Definition skipNamespace (typeConfig : FederatedTypeConfig) (fedNamespace : FederatedObject)
    : WorkerResult * option FederatedObject :=
  match UpdatePendingControllers fedNamespace PrefixedNamespaceAutoPropagationControllerName false
          (GetControllers typeConfig) with
  | inr _ => (StatusError, None)
  | inl (fedNamespace, updated) => if (updated : bool) then updateNamespace fedNamespace else (StatusAllOK, None)
  end.

(** The changes to a namespace, with whether there is any. *)
Definition propagated (typeConfig : FederatedTypeConfig) (clusterNames : list string) (fedNamespace : FederatedObject)
    : (FederatedObject * bool) + string :=
  let '(spec, needsUpdate) :=
    SetControllerPlacement (fo_Spec fedNamespace) PrefixedNamespaceAutoPropagationControllerName clusterNames in
  let fedNamespace := setSpec fedNamespace spec in
  bind_error (ensureAnnotation fedNamespace ConflictResolutionInternalAnnotation ConflictResolutionAdopt)
    (fun '(fedNamespace, isDirty) =>
  let needsUpdate := needsUpdate || isDirty in
  bind_error (ensureAnnotation fedNamespace ClustersToAdoptInternalAnnotation AllClustersToAdoptRegexp)
    (fun '(fedNamespace, isDirty) =>
  let needsUpdate := needsUpdate || isDirty in
  bind_error (ensureAnnotation fedNamespace OrphanManagedResourcesInternalAnnotation OrphanManagedResourcesAdopted)
    (fun '(fedNamespace, isDirty) =>
  let needsUpdate := needsUpdate || isDirty in
  bind_error (UpdatePendingControllers fedNamespace PrefixedNamespaceAutoPropagationControllerName needsUpdate
                (GetControllers typeConfig))
    (fun '(fedNamespace, isDirty) => inl (fedNamespace, needsUpdate || isDirty))))).

Definition propagateNamespace (typeConfig : FederatedTypeConfig) (fedNamespace : FederatedObject)
    : WorkerResult * option FederatedObject :=
  match ns_FederatedClusters c with
  | inr _ => (StatusError, None)
  | inl clusters =>
      match propagated typeConfig (c_Name <$> clusters) fedNamespace with
      | inr _ => (StatusError, None)
      | inl (fedNamespace, needsUpdate) => if (needsUpdate : bool) then updateNamespace fedNamespace else (StatusAllOK, None)
      end
  end.

Definition reconcile (qualifiedName : QualifiedName) : WorkerResult * option FederatedObject :=
  match ns_ClusterFederatedObject c (qn_Name qualifiedName) with
  | inr err => (if IsNotFound err then StatusAllOK else StatusError, None)
  | inl fedNamespace =>
      if bool_decide (is_Some (fo_DeletionTimestamp fedNamespace)) then (StatusAllOK, None)
      else
        match ControllerDependenciesFulfilled fedNamespace PrefixedNamespaceAutoPropagationControllerName with
        | inr _ => (StatusError, None)
        | inl false => (StatusAllOK, None)
        | inl true =>
            match ns_ResourceFTC c namespaceGVK with
            | None => (StatusError, None)
            | Some typeConfig =>
                match GetTemplateAsUnstructured (fo_Spec fedNamespace) with
                | inr _ => (StatusError, None)
                | inl srcMeta =>
                    if negb (shouldBeAutoPropagated srcMeta) then skipNamespace typeConfig fedNamespace
                    else propagateNamespace typeConfig fedNamespace
                end
            end
        end
  end.

(** ** Events *)

Definition onClusterFederatedObject (obj : FederatedObject) : option QualifiedName :=
  match GetTemplateAsUnstructured (fo_Spec obj) with
  | inr _ => None
  | inl srcMeta =>
      if negb (String.eqb (uns_GetKind srcMeta) NamespaceKind) || negb (shouldBeAutoPropagated srcMeta) then None
      else Some {| qn_Namespace := ""; qn_Name := fo_Name obj |}
  end.

(** A cluster was added or removed. *)
Definition reconcileAll : list QualifiedName :=
  match ns_ResourceFTC c namespaceGVK with
  | None => []
  | Some typeConfig =>
      match ns_Namespaces c with
      | inr _ => []
      | inl allNamespaces =>
          (fun ns => {| qn_Namespace := ""; qn_Name := GenerateFederatedObjectName ns (ftc_Name typeConfig) |}) <$> allNamespaces
      end
  end.
End Controller.
