(* ===== verification/NsAutoPropTheorems.v ===== *)
(** * Namespace auto propagation: properties *)

From Stdlib Require Import ZArith Lia String Ascii.
From S2P Require Import Prelude GoStrings K8s Types ApiTypes Unstructured Codecs FedObject FedObjectTheorems MemberObjects.
From S2P Require Import Naming Sync SyncTheorems SchedulerTheorems Federate FederateLibrary FederateTheorems NsAutoProp.

Notation ns_me := PrefixedNamespaceAutoPropagationControllerName.

(** ** What a placement and three annotations mean *)

Lemma elem_of_GetPlacementUnion spec n :
  n ∈ GetPlacementUnion spec <-> exists p, p ∈ Placements spec /\ n ∈ cref_Cluster <$> Placement p.
Proof.
  unfold GetPlacementUnion.
  assert (forall l (s : gset string), n ∈ foldl (fun set cluster => {[cref_Cluster cluster]} ∪ set) s l <->
    n ∈ s \/ n ∈ cref_Cluster <$> l) as Hinner.
  { induction l as [|x l IH]; intros s; simpl; [rewrite elem_of_nil; tauto|]. rewrite IH, elem_of_cons. set_solver. }
  assert (forall ps (s : gset string), n ∈ foldl (fun set placement =>
    foldl (fun set cluster => {[cref_Cluster cluster]} ∪ set) set (Placement placement)) s ps <->
    n ∈ s \/ exists p, p ∈ ps /\ n ∈ cref_Cluster <$> Placement p) as Houter.
  { induction ps as [|p ps IH]; intros s; simpl.
    - split; [auto|]. intros [H|(p & Hp & _)]; [done|]. by apply elem_of_nil in Hp.
    - rewrite IH, Hinner. setoid_rewrite elem_of_cons. naive_solver. }
  rewrite Houter, elem_of_empty. naive_solver.
Qed.

(** The placement of one controller is part of the union. *)
Lemma GetControllerPlacement_union spec controller n :
  n ∈ cref_Cluster <$> GetControllerPlacement spec controller -> n ∈ GetPlacementUnion spec.
Proof.
  rewrite elem_of_GetPlacementUnion. unfold GetControllerPlacement.
  destruct (getEntry pwc_Controller controller (Placements spec)) as [p|] eqn:E; [|by intros ?%elem_of_nil].
  intros Hn. exists p. split; [|done]. unfold getEntry in E.
  destruct (indexOf _ _ _) as [i|]; [|done]. by eapply list_elem_of_lookup_2.
Qed.

(** The annotations by which member namespaces are adopted and, if adopted,
    survive the federated namespace. *)
Record adopting (o : FederatedObject) : Prop := {
  ad_resolution : fo_Annotations o !! ConflictResolutionInternalAnnotation = Some ConflictResolutionAdopt;
  ad_clusters : fo_Annotations o !! ClustersToAdoptInternalAnnotation = Some AllClustersToAdoptRegexp;
  ad_orphan : fo_Annotations o !! OrphanManagedResourcesInternalAnnotation = Some OrphanManagedResourcesAdopted
}.

Lemma adopting_adopts o : adopting o -> ShouldAdoptPreexistingResources o = true.
Proof. intros [H _ _]. unfold ShouldAdoptPreexistingResources. by rewrite H. Qed.

Lemma adopting_orphans `{UnstructuredHelpers} o clusterObj : adopting o ->
  ShouldBeOrphaned o clusterObj = HasAdoptedAnnotation clusterObj.
Proof. intros [_ _ Ho]. unfold ShouldBeOrphaned, GetOrphaningBehavior. by rewrite Ho. Qed.

(** JSON and regular expressions, at the one annotation that is written. *)
Definition reads_all_clusters `{AdoptionCodecs} : Prop :=
  Unmarshal_clustersToAdopt AllClustersToAdoptRegexp = inl {| cta_Clusters := []; cta_Regexp := ".*" |} /\
  exists matches, Regexp_Compile ".*" = inl matches /\ forall name, matches name = true.

Lemma adopting_everywhere `{AdoptionCodecs} o clusterName : reads_all_clusters -> adopting o ->
  FilterToAdoptCluster o clusterName = inl true.
Proof.
  intros (Hu & m & Hm & Hall) [_ Hc _]. unfold FilterToAdoptCluster. rewrite Hc.
  replace (String.eqb AllClustersToAdoptRegexp "") with false by (vm_compute; reflexivity).
  rewrite Hu. simpl. by rewrite Hm, Hall.
Qed.

(** ** The changes to a namespace *)

Section Propagated.
Context `{K : Kubernetes} `{R : GoRuntime} `{C : !Codecs} `{L : !FederateLibraries}.
Implicit Types (o : FederatedObject) (typeConfig : FederatedTypeConfig).

(** The annotations of the controller, without the pending controllers. *)
Definition adopting_annotations (m : gmap string string) : gmap string string :=
  <[OrphanManagedResourcesInternalAnnotation := OrphanManagedResourcesAdopted]>
  (<[ClustersToAdoptInternalAnnotation := AllClustersToAdoptRegexp]>
  (<[ConflictResolutionInternalAnnotation := ConflictResolutionAdopt]> m)).

Definition adopting_keys : gset string :=
  {[ConflictResolutionInternalAnnotation; ClustersToAdoptInternalAnnotation; OrphanManagedResourcesInternalAnnotation]}.

Lemma adopting_annotations_other m k : k ∉ adopting_keys -> adopting_annotations m !! k = m !! k.
Proof. intros Hk. unfold adopting_annotations. rewrite !lookup_insert_ne; [done|..]; intros <-; apply Hk; set_solver. Qed.

Lemma adopting_annotations_adopting o m a :
  adopting (SetAnnotations o (<[PendingControllersAnnotation := a]> (adopting_annotations m))).
Proof.
  unfold adopting_annotations. split; cbn [fo_Annotations SetAnnotations];
    repeat first [rewrite lookup_insert_eq; reflexivity | rewrite lookup_insert_ne by (vm_compute; discriminate)].
Qed.

Lemma ensureAnnotation_eq o key value : key <> ""%string -> ensureAnnotation o key value =
  inl (SetAnnotations o (<[key := value]> (fo_Annotations o)), negb (bool_decide (fo_Annotations o !! key = Some value))).
Proof. intros Hk. unfold ensureAnnotation. by rewrite AddAnnotation_eq. Qed.

(** The three annotations in one step. *)
Lemma propagated_eq typeConfig clusterNames o : exists dirty : bool,
  (adopting o -> dirty = false) /\
  propagated typeConfig clusterNames o =
    let '(spec, changed) := SetControllerPlacement (fo_Spec o) ns_me clusterNames in
    let o1 := SetAnnotations (setSpec o spec) (adopting_annotations (fo_Annotations o)) in
    bind_error (UpdatePendingControllers o1 ns_me (changed || dirty) (GetControllers typeConfig))
      (fun '(o2, isDirty) => inl (o2, changed || dirty || isDirty)).
Proof using Type.
  unfold propagated. destruct (SetControllerPlacement _ _ _) as [spec changed].
  set (b1 := negb (bool_decide (fo_Annotations o !! ConflictResolutionInternalAnnotation = Some ConflictResolutionAdopt))).
  set (b2 := negb (bool_decide (fo_Annotations o !! ClustersToAdoptInternalAnnotation = Some AllClustersToAdoptRegexp))).
  set (b3 := negb (bool_decide (fo_Annotations o !! OrphanManagedResourcesInternalAnnotation =
    Some OrphanManagedResourcesAdopted))).
  exists (b1 || b2 || b3). split.
  - intros [H1 H2 H3]. unfold b1, b2, b3. by rewrite !bool_decide_eq_true_2.
  - rewrite ensureAnnotation_eq by (vm_compute; discriminate). cbn [bind_error fo_Annotations SetAnnotations setSpec].
    rewrite ensureAnnotation_eq by (vm_compute; discriminate). cbn [bind_error fo_Annotations SetAnnotations setSpec].
    rewrite ensureAnnotation_eq by (vm_compute; discriminate). cbn [bind_error fo_Annotations SetAnnotations setSpec].
    rewrite !lookup_insert_ne by (vm_compute; discriminate). fold b1 b2 b3. by rewrite !orb_assoc.
Qed.

Lemma pending_adopting o spec :
  GetPendingControllers (SetAnnotations (setSpec o spec) (adopting_annotations (fo_Annotations o))) =
  GetPendingControllers o.
Proof using Type.
  unfold GetPendingControllers. cbn [fo_Annotations SetAnnotations].
  rewrite adopting_annotations_other; [done|]. apply (bool_decide_eq_true_1 _). vm_compute. reflexivity.
Qed.

Lemma propagated_pending typeConfig names o res : propagated typeConfig names o = inl res ->
  exists cs, GetPendingControllers o = inl cs.
Proof using Type.
  destruct (propagated_eq typeConfig names o) as (d & _ & ->). destruct (SetControllerPlacement _ _ _) as [spec b].
  cbv zeta. rewrite bind_error_inl. intros ([o2 b2] & Hup & _). unfold UpdatePendingControllers in Hup.
  rewrite pending_adopting in Hup. destruct (GetPendingControllers o) as [cs|]; [by exists cs|done].
Qed.

(** The controller runs once, by the type config and what is pending. *)
Definition propagated_once typeConfig o : Prop :=
  (forall cs, GetPendingControllers o = inl cs -> runs_once ns_me cs) /\
  forall g, g ∈ GetDownstreamControllers (GetControllers typeConfig) ns_me -> ns_me ∉ g.

Record propagated_to (names : list string) (o o' : FederatedObject) : Prop := {
  pt_placed : cref_Cluster <$> GetControllerPlacement (fo_Spec o') ns_me ≡ₚ names;
  pt_others : forall c, c <> ns_me -> GetControllerPlacement (fo_Spec o') c = GetControllerPlacement (fo_Spec o) c;
  pt_frame : setPlacements (fo_Spec o') (Placements (fo_Spec o)) = fo_Spec o;
  pt_adopting : adopting o';
  pt_annotations : forall k, k ∉ adopting_keys -> k <> PendingControllersAnnotation ->
    fo_Annotations o' !! k = fo_Annotations o !! k;
  pt_object : o' = SetAnnotations (setSpec o (fo_Spec o')) (fo_Annotations o')
}.

Lemma propagated_spec typeConfig names o o' needsUpdate :
  NoDup (pwc_Controller <$> Placements (fo_Spec o)) -> propagated_once typeConfig o ->
  propagated typeConfig names o = inl (o', needsUpdate) ->
  propagated_to names o o' /\ propagated typeConfig names o' = inl (o', false).
Proof using Type.
  intros Hnd [Honce Hdown]. destruct (propagated_eq typeConfig names o) as (dirty & _ & ->).
  pose proof (SetControllerPlacement_placed ns_me names (fo_Spec o) Hnd) as Hpl.
  destruct (SetControllerPlacement _ _ _) as [spec changed]. cbv zeta.
  set (o1 := SetAnnotations _ _). rewrite bind_error_inl. intros ([o2 b] & Hup & [= -> _]).
  pose proof (pending_adopting o spec : GetPendingControllers o1 = _) as Hg.
  destruct (GetPendingControllers o1) as [cs|] eqn:Ecs; [|by unfold UpdatePendingControllers in Hup; rewrite Ecs in Hup].
  destruct (Honce cs (eq_sym Hg)) as [Hnd' Htail].
  destruct (UpdatePendingControllers_spec o1 ns_me (changed || dirty) (GetControllers typeConfig) cs o' b Ecs Hnd')
    as (_ & Hagain & a & Ha); [by destruct (changed || dirty)|done|].
  assert (adopting o') as Had.
  { rewrite Ha. apply adopting_annotations_adopting. }
  split.
  - rewrite Ha in *. split; try done.
    + cbn [fo_Spec SetAnnotations setSpec o1]. rewrite (pl_get _ _ _ _ _ Hpl). apply sortedRefs_names.
    + intros c Hc. by apply (pl_others _ _ _ _ _ Hpl).
    + by apply (pl_frame _ _ _ _ _ Hpl).
    + intros k Hk Hp. cbn [fo_Annotations SetAnnotations o1]. rewrite lookup_insert_ne by done.
      by apply adopting_annotations_other.
  - destruct (propagated_eq typeConfig names o') as (dirty' & Hdirty & ->). rewrite (Hdirty Had).
    assert (fo_Spec o' = spec) as -> by (by rewrite Ha).
    rewrite (pl_again _ _ _ _ _ Hpl names) by done. cbv zeta. simpl.
    assert (SetAnnotations (setSpec o' spec) (adopting_annotations (fo_Annotations o')) = o') as ->; [|by rewrite Hagain].
    assert (adopting_annotations (fo_Annotations o') = fo_Annotations o') as ->.
    { destruct Had as [H1 H2 H3]. unfold adopting_annotations. rewrite (insert_id (fo_Annotations o')) by done.
      rewrite (insert_id (fo_Annotations o')) by done. by rewrite insert_id. }
    rewrite Ha. reflexivity.
Qed.
End Propagated.

(** ** What the federate controller leaves alone *)

Section Federated.
Context `{K : Kubernetes} `{R : GoRuntime} `{C : !Codecs} `{L : !FederateLibraries}.

Lemma updateTemplate_frame o target o' b : updateTemplate o target = inl (o', b) ->
  fo_Annotations o' = fo_Annotations o /\ Placements (fo_Spec o') = Placements (fo_Spec o).
Proof using Type.
  unfold updateTemplate. destruct (Unstructured_UnmarshalJSON _) as [found|]; [|done].
  case_bool_decide; [by intros [= <- <-]|]. destruct (Unstructured_MarshalJSON _); [|done]. by intros [= <- <-].
Qed.

(** An update keeps the placements and the annotations that are not its own. *)
Lemma update_keeps ftc src o o' b : updateFederatedObjectForSourceObject ftc src o = Returns (inl (o', b)) ->
  Placements (fo_Spec o') = Placements (fo_Spec o) /\
  forall k, k ∈ adopting_keys -> fo_Annotations o' !! k = fo_Annotations o !! k.
Proof using Type.
  intros Hup. rewrite update_eq in Hup. cbv zeta in Hup.
  destruct (updateTemplate _ _) as [[o2 tb]|] eqn:Et; [|done].
  apply updateTemplate_frame in Et as [Ha2 Hp2].
  cbn [fo_Annotations fo_Spec set_labels set_owner fo_SetLabels fo_SetOwnerReferences] in Ha2, Hp2.
  destruct (CreateMergePatch src (template_of src)) as [patch|]; [|done].
  apply may_panic_bind_Returns in Hup as ([o3 ab] & Ha & Hup).
  destruct (updateAnnotations_spec _ _ (observed_nonempty src patch) _ _ _ Ha) as (as3 & Ho3 & Hm & _).
  assert (forall k, k ∈ adopting_keys -> federatedKey k = false /\ observed_of src patch !! k = None /\
    k <> PendingControllersAnnotation) as Hkeys.
  { intros k Hk. unfold adopting_keys in Hk. rewrite !elem_of_union, !elem_of_singleton in Hk. split_and!.
    - by destruct_or? Hk; subst k; vm_compute.
    - destruct (observed_of src patch !! k) as [v|] eqn:E; [|done]. exfalso.
      apply observed_lookup in E. destruct_or? Hk; subst k; destruct_or? E; destruct E as [E _]; vm_compute in E; discriminate E.
    - destruct_or? Hk; subst k; vm_compute; discriminate. }
  assert (Placements (fo_Spec o3) = Placements (fo_Spec o) /\
    forall k, k ∈ adopting_keys -> fo_Annotations o3 !! k = fo_Annotations o !! k) as [Hp3 Ha3].
  { subst o3. split; [done|]. intros k Hk. destruct (Hkeys k Hk) as (Hf & Ho & _). cbn [fo_Annotations SetAnnotations].
    by rewrite Hm, Ho, Hf, Ha2. }
  destruct (negb _ || negb _ || tb || ab); [|by injection Hup as <- <-].
  destruct (SetPendingControllers o3 _) as [[o4 pb]|] eqn:Epc; [|done]. injection Hup as <- <-.
  apply SetPendingControllers_spec in Epc as (_ & [a ->] & _). split; [done|].
  intros k Hk. cbn [fo_Annotations SetAnnotations]. rewrite lookup_insert_ne; [auto|]. intros <-. by apply (Hkeys _ Hk).
Qed.

(** The annotation that opts out of propagation is never in a template: the
    federate controller puts it on the federated object.  So the controller
    decides by the name of the namespace alone. *)
Lemma opt_out_ignored c src o srcMeta : metadata_ok src = true -> in_sync src o ->
  GetTemplateAsUnstructured (fo_Spec o) = inl srcMeta ->
  shouldBeAutoPropagated c srcMeta =
    negb (HasPrefix (uns_GetName src) "kube-") && negb (String.eqb (uns_GetName src) (ns_fedSystemNamespace c)) &&
    negb (match ns_excludeRegexp c with Some MatchString => MatchString (uns_GetName src) | None => false end).
Proof using Type.
  intros Hu [_ _ _ Ht _] Hmeta. unfold GetTemplateAsUnstructured in Hmeta. rewrite Ht in Hmeta. injection Hmeta as <-.
  unfold shouldBeAutoPropagated, uns_GetName, uns_GetAnnotations, template_of.
  rewrite TemplateForSourceObject_Meta by done. cbn [om_Name om_Annotations].
  assert (forall m : gmap string string, (classifyAnnotations m).2 !! NoAutoPropagationAnnotation = None) as ->.
  { intros m. unfold classifyAnnotations.
    destruct (classifyStringMap_spec m classifyAnnotation NoAutoPropagationAnnotation) as [_ ->].
    by replace (classifyAnnotation NoAutoPropagationAnnotation).2 with false by (vm_compute; reflexivity). }
  unfold uns_GetName. destruct (HasPrefix _ _); [done|]. destruct (String.eqb _ _); [done|]. simpl.
  by destruct (match ns_excludeRegexp c with Some _ => _ | None => _ end).
Qed.
End Federated.

(** ** A reconciliation *)

Section Reconcile.
Context `{K : Kubernetes} `{R : GoRuntime} `{C : !Codecs} `{L : !FederateLibraries}.
Implicit Types (c : NsAutoPropController).

(** What the API server keeps of federated namespaces: an entry for each
    controller, and this controller pending once. *)
Definition manageable c (o : FederatedObject) : Prop :=
  NoDup (pwc_Controller <$> Placements (fo_Spec o)) /\
  forall typeConfig, ns_ResourceFTC c namespaceGVK = Some typeConfig -> propagated_once typeConfig o.

(** What is sent, for a namespace to propagate and for one to hand on. *)
Definition sent c (srcMeta : Unstructured) (typeConfig : FederatedTypeConfig) (o o' : FederatedObject) : Prop :=
  if shouldBeAutoPropagated c srcMeta then
    exists clusters, ns_FederatedClusters c = inl clusters /\
      propagated typeConfig (c_Name <$> clusters) o = inl (o', true)
  else UpdatePendingControllers o ns_me false (GetControllers typeConfig) = inl (o', true).

Lemma reconcile_sent c name res o' : reconcile c name = (res, Some o') ->
  exists o typeConfig srcMeta, ns_ClusterFederatedObject c (qn_Name name) = inl o /\ fo_DeletionTimestamp o = None /\
    ns_ResourceFTC c namespaceGVK = Some typeConfig /\ GetTemplateAsUnstructured (fo_Spec o) = inl srcMeta /\
    sent c srcMeta typeConfig o o'.
Proof using Type.
  unfold reconcile. destruct (ns_ClusterFederatedObject c _) as [o|]; [|done].
  case_bool_decide as Hdel; [done|]. destruct (ControllerDependenciesFulfilled o ns_me) as [[|]|]; [|done..].
  destruct (ns_ResourceFTC c namespaceGVK) as [ftc|]; [|done].
  destruct (GetTemplateAsUnstructured (fo_Spec o)) as [srcMeta|] eqn:Et; [|done].
  intros H. exists o, ftc, srcMeta. split_and!; try done; [by apply eq_None_not_Some|].
  unfold sent. destruct (shouldBeAutoPropagated c srcMeta) eqn:Es; simpl in H.
  - unfold propagateNamespace in H. destruct (ns_FederatedClusters c) as [clusters|]; [|done].
    exists clusters. split; [done|]. destruct (propagated _ _ _) as [[o1 [|]]|]; [|done..].
    unfold updateNamespace in H. by destruct (ns_Update c o1); injection H as _ <-.
  - unfold skipNamespace in H. destruct (UpdatePendingControllers o _ _ _) as [[o1 [|]]|]; [|done..].
    unfold updateNamespace in H. by destruct (ns_Update c o1); injection H as _ <-.
Qed.

(** C31. A namespace that the controller sends to the API server is placed in
    every cluster, and there adopted if it exists already and kept after the
    federated namespace if it was adopted; other controllers' placements and
    other annotations are as they were; and all this survives any later update
    of the federated object by the federate controller. *)
Theorem nsautoprop_everywhere `{!AdoptionCodecs} c name res o o' srcMeta clusters : reads_all_clusters ->
  ns_ClusterFederatedObject c (qn_Name name) = inl o -> manageable c o ->
  GetTemplateAsUnstructured (fo_Spec o) = inl srcMeta -> shouldBeAutoPropagated c srcMeta = true ->
  ns_FederatedClusters c = inl clusters ->
  reconcile c name = (res, Some o') ->
  propagated_to (c_Name <$> clusters) o o' /\
  forall ftc src o'' changed,
    o'' = o' \/ updateFederatedObjectForSourceObject ftc src o' = Returns (inl (o'', changed)) ->
    (forall cluster, cluster ∈ clusters -> c_Name cluster ∈ GetPlacementUnion (fo_Spec o'')) /\
    ShouldAdoptPreexistingResources o'' = true /\
    (forall clusterName, FilterToAdoptCluster o'' clusterName = inl true) /\
    forall clusterObj, ShouldBeOrphaned o'' clusterObj = HasAdoptedAnnotation clusterObj.
Proof using Type.
  intros Hreads Hget [Hnd Honce] Ht Hs Hcl (o1 & ftc & m & Hget' & _ & Hftc & Ht' & Hsent)%reconcile_sent.
  rewrite Hget in Hget'. injection Hget' as <-. rewrite Ht in Ht'. injection Ht' as <-.
  unfold sent in Hsent. rewrite Hs in Hsent. destruct Hsent as (cs & Hcs & Hp).
  rewrite Hcl in Hcs. injection Hcs as <-.
  destruct (propagated_spec ftc _ o o' true Hnd (Honce ftc Hftc) Hp) as [Hto _]. split; [done|].
  intros ftc' src o'' changed Hup.
  assert (Placements (fo_Spec o'') = Placements (fo_Spec o') /\ adopting o'') as [Hpl Had].
  { destruct Hup as [->|Hup]; [split; [done|apply Hto]|]. apply update_keeps in Hup as [Hpl Hann]. split; [done|].
    destruct (pt_adopting _ _ _ Hto). split; rewrite Hann; try done; unfold adopting_keys; set_solver. }
  split_and!.
  - intros cluster Hin. unfold GetPlacementUnion. rewrite Hpl. apply (GetControllerPlacement_union _ ns_me).
    rewrite (pt_placed _ _ _ Hto). by apply list_elem_of_fmap_2.
  - by apply adopting_adopts.
  - intros n. by apply adopting_everywhere.
  - intros u. by apply adopting_orphans.
Qed.

(** The controller after the API server stored the object. *)
Definition storing c (o : FederatedObject) : NsAutoPropController := {|
  ns_ClusterFederatedObject := fun _ => inl o; ns_ResourceFTC := ns_ResourceFTC c;
  ns_FederatedClusters := ns_FederatedClusters c; ns_Namespaces := ns_Namespaces c;
  ns_excludeRegexp := ns_excludeRegexp c; ns_fedSystemNamespace := ns_fedSystemNamespace c;
  ns_Update := ns_Update c
|}.

(** Once the API server stored what a reconciliation sent, the next one, with
    the same clusters and type configs, succeeds and sends nothing; whether the
    namespace was propagated or only handed on. *)
Theorem nsautoprop_settles c name res o o' :
  ns_ClusterFederatedObject c (qn_Name name) = inl o -> manageable c o ->
  reconcile c name = (res, Some o') ->
  reconcile (storing c o') name = (StatusAllOK, None).
Proof using Type.
  intros Hget [Hnd Honce] (o1 & ftc & m & Hget' & Hdel & Hftc & Ht & Hsent)%reconcile_sent.
  rewrite Hget in Hget'. injection Hget' as <-. specialize (Honce ftc Hftc).
  assert (fo_DeletionTimestamp o' = None /\ GetTemplateAsUnstructured (fo_Spec o') = inl m /\
    if shouldBeAutoPropagated c m then exists clusters, ns_FederatedClusters c = inl clusters /\
      propagated ftc (c_Name <$> clusters) o' = inl (o', false)
    else UpdatePendingControllers o' ns_me false (GetControllers ftc) = inl (o', false)) as (Hdel' & Ht' & Hagain).
  { unfold sent in Hsent. destruct (shouldBeAutoPropagated c m).
    - destruct Hsent as (clusters & Hcl & Hp). destruct (propagated_spec ftc _ o o' true Hnd Honce Hp) as [Hto Hagain].
      destruct Hto as [_ _ Hframe _ _ Hobj]. split_and!; [by rewrite Hobj| |by exists clusters].
      unfold GetTemplateAsUnstructured in *. apply (f_equal Template) in Hframe. simpl in Hframe. by rewrite Hframe.
    - destruct (GetPendingControllers o) as [cs|] eqn:Ecs;
        [|by unfold UpdatePendingControllers in Hsent; rewrite Ecs in Hsent].
      destruct (proj1 Honce cs Ecs) as [Hnd' Htail].
      destruct (UpdatePendingControllers_spec o ns_me false (GetControllers ftc) cs o' true Ecs Hnd' Htail Hsent)
        as (_ & Hagain & a & ->). done. }
  unfold reconcile, storing. cbn [ns_ClusterFederatedObject ns_ResourceFTC].
  rewrite Hdel', bool_decide_eq_false_2 by by intros []. rewrite Hftc, Ht'.
  destruct (GetPendingControllers o') as [cs|] eqn:Ecs.
  2: { destruct (shouldBeAutoPropagated c m); [|by unfold UpdatePendingControllers in Hagain; rewrite Ecs in Hagain].
       destruct Hagain as (clusters & _ & Hp). apply propagated_pending in Hp as (cs & ?). congruence. }
  destruct (fulfilled_spec o' ns_me cs Ecs) as ([|] & -> & _); [|done].
  change (shouldBeAutoPropagated _ m) with (shouldBeAutoPropagated c m). destruct (shouldBeAutoPropagated c m); simpl.
  - destruct Hagain as (clusters & Hcl & Hp). unfold propagateNamespace. simpl. by rewrite Hcl, Hp.
  - unfold skipNamespace. by rewrite Hagain.
Qed.
End Reconcile.

(** ** Concrete inputs *)

Section Witnesses.
#[local] Existing Instance small_kubernetes.
#[local] Existing Instance small_runtime.

Definition ns_team : Unstructured := {| uns_Object := list_to_map [
  ("apiVersion", VString "v1"); ("kind", VString NamespaceKind);
  ("metadata", VMap (list_to_map [("name", VString "team")]))]%string |}.

#[local] Instance ns_codecs : Codecs := table_codecs [ns_team].
#[local] Instance ns_libraries : FederateLibraries := table_libraries [ns_team].
#[local] Instance ns_adoption : AdoptionCodecs := {|
  Unmarshal_clustersToAdopt := fun s =>
    if String.eqb s AllClustersToAdoptRegexp then inl {| cta_Clusters := []; cta_Regexp := ".*" |} else inr "syntax"%string;
  Regexp_Compile := fun s => if String.eqb s ".*" then inl (fun _ => true) else inr "unsupported"%string
|}.

Definition ns_ftc : FederatedTypeConfig := {|
  ftc_Name := "namespaces"; ReplicasSpec := ""; ReplicasStatus := ""; ReadyReplicasStatus := "";
  AutoMigrationEnabled := false; ftc_Annotations := ∅; StatusAggregationEnabled := false; StatusCollection := None; Controllers := [[ns_me]];
  SourceType := {| ar_Group := ""; ar_Version := "v1"; ar_Kind := NamespaceKind; ar_PluralName := "namespaces";
                   ar_Scope := "Cluster" |} |}.

Definition fed_team : FederatedObject := {|
  fo_Namespace := ""; fo_Name := "team"; fo_Labels := ∅;
  fo_Annotations := {[ PendingControllersAnnotation := decimal (Z.pos (encode [[ns_me]])) ]};
  fo_OwnerReferences := []; fo_Generation := 1; fo_DeletionTimestamp := None; fo_Finalizers := [];
  fo_Spec := {| Template := decimal 0; Overrides := []; Placements := []; Follows := [] |};
  fo_Status := empty_status |}.

Definition team_clusters : list FederatedCluster := [sync_cluster "a" None; sync_cluster "b" None].

Definition team_controller : NsAutoPropController := {|
  ns_ClusterFederatedObject := fun _ => inl fed_team;
  ns_ResourceFTC := fun _ => Some ns_ftc;
  ns_FederatedClusters := inl team_clusters;
  ns_Namespaces := inl ["team"%string];
  ns_excludeRegexp := None;
  ns_fedSystemNamespace := "kube-admiral-system";
  ns_Update := fun _ => None
|}.

Definition team : QualifiedName := {| qn_Namespace := ""; qn_Name := "team" |}.
Definition sent_team : FederatedObject :=
  match reconcile team_controller team with (_, Some o) => o | _ => fed_team end.

Lemma reconcile_team : reconcile team_controller team = (StatusAllOK, Some sent_team).
Proof. vm_compute. reflexivity. Qed.

Lemma team_manageable : manageable team_controller fed_team.
Proof.
  split; [constructor|]. intros ftc [= <-]. split.
  - intros cs Hcs. assert (GetPendingControllers fed_team = inl [[ns_me]]) as Hp by (vm_compute; reflexivity).
    rewrite Hp in Hcs. injection Hcs as <-. clear Hp.
    split; [apply NoDup_singleton|by intros g ?%elem_of_nil].
  - assert (GetDownstreamControllers (GetControllers ns_ftc) ns_me = []) as -> by (vm_compute; reflexivity).
    by intros g ?%elem_of_nil.
Qed.

Lemma nsautoprop_everywhere_witness :
  "b"%string ∈ GetPlacementUnion (fo_Spec sent_team) /\ FilterToAdoptCluster sent_team "b" = inl true.
Proof.
  destruct (nsautoprop_everywhere team_controller team StatusAllOK fed_team sent_team ns_team team_clusters)
    as (_ & H);
    [split; [reflexivity|eexists; split; reflexivity]|reflexivity|apply team_manageable|vm_compute; reflexivity
    |vm_compute; reflexivity|reflexivity|apply reconcile_team|].
  destruct (H ns_ftc ns_team sent_team false (or_introl eq_refl)) as (Hpl & _ & Hf & _).
  split; [|apply Hf]. apply (Hpl (sync_cluster "b" None)). right. left.
Defined.

Lemma nsautoprop_settles_witness : reconcile (storing team_controller sent_team) team = (StatusAllOK, None).
Proof.
  apply (nsautoprop_settles team_controller team StatusAllOK fed_team sent_team);
    [reflexivity|apply team_manageable|apply reconcile_team].
Defined.
End Witnesses.
