(* ===== verification/Digests.v ===== *)
(** * Digests of replica sets ([pkg/controllers/util/federatedstatus.go])

    What the member clusters report of the latest replica set of a deployment,
    as annotations on the deployment. *)

From Stdlib Require Import ZArith Lia String Ascii.
From S2P Require Import Prelude GoStrings K8s Types ApiTypes Unstructured Codecs Retain.

Definition LatestReplicasetNameAnnotation : string := "latestreplicaset.kubeadmiral.io/name".
Definition LatestReplicasetReplicasAnnotation : string := "latestreplicaset.kubeadmiral.io/replicas".
Definition LatestReplicasetAvailableReplicasAnnotation : string := "latestreplicaset.kubeadmiral.io/available-replicas".
Definition LatestReplicasetReadyReplicasAnnotation : string := "latestreplicaset.kubeadmiral.io/ready-replicas".
Definition LatestReplicasetObservedGenerationAnnotation : string := "latestreplicaset.kubeadmiral.io/observed-generation".

Record LatestReplicasetDigest := {
  ClusterName : string;
  ReplicasetName : string;
  rd_Replicas : Z;
  rd_AvailableReplicas : Z;
  rd_ReadyReplicas : Z;
  rd_ObservedGeneration : Z;
  rd_SourceGeneration : Z
}.

Definition digestLess (x y : LatestReplicasetDigest) : bool := String.ltb (ClusterName x) (ClusterName y).

(** [json.Marshal] of the digests. *)
Class DigestCodecs := { Marshal_digests : list LatestReplicasetDigest -> string + string }.

Section Digests.
Context `{K : Kubernetes} `{C : !Codecs}.

(** The entry, whether there is one, and the errors so far. *)
Definition stringEntry (m : gmap string string) (key : string) (errs : list string) : string * bool * list string :=
  match m !! key with
  | Some str => (str, true, errs)
  | None => (""%string, false, errs ++ [("annotation " ++ key ++ " does not exist")%string])
  end.

Definition intEntry (m : gmap string string) (key : string) (errs : list string) : Z * list string :=
  let '(str, exists_, errs) := stringEntry m key errs in
  if (exists_ : bool) then
    match Atoi str with
    | inr err => (0, errs ++ [("annotation " ++ key ++ " is invalid: " ++ err)%string])
    | inl i => (i, errs)
    end
  else (0, errs).

Definition LatestReplicasetDigestFromObject (clusterName : string) (object : Unstructured)
    : LatestReplicasetDigest * list string :=
  let annotations := uns_GetAnnotations object in
  let '(replicasetName, _, errs) := stringEntry annotations LatestReplicasetNameAnnotation [] in
  let '(replicas, errs) := intEntry annotations LatestReplicasetReplicasAnnotation errs in
  let '(availableReplicas, errs) := intEntry annotations LatestReplicasetAvailableReplicasAnnotation errs in
  let '(readyReplicas, errs) := intEntry annotations LatestReplicasetReadyReplicasAnnotation errs in
  let '(sourceGeneration, errs) := intEntry annotations SourceGenerationAnnotation errs in
  let '(observedGeneration, errs) :=
    match NestedInt64 (uns_Object object) ["status"; "observedGeneration"]%string with
    | inl (Some observedGeneration) => (observedGeneration, errs)
    | _ => (0, errs ++ ["failed to get observedGeneration of cluster resource object"%string])
    end in
  ({| ClusterName := clusterName; ReplicasetName := replicasetName; rd_Replicas := replicas;
      rd_AvailableReplicas := availableReplicas; rd_ReadyReplicas := readyReplicas;
      rd_ObservedGeneration := observedGeneration; rd_SourceGeneration := sourceGeneration |}, errs).
End Digests.
