(* ===== verification/StatusPlugins.v ===== *)
(** * Aggregation of statuses ([pkg/controllers/statusaggregator/plugins])

    The plugins that make the status of a source object out of those of its
    objects in member clusters.  The typed structures of client libraries, and
    the conversions from and to them, are the class [StatusLibraries]; a record
    has the fields that the plugins read and write. *)

From Stdlib Require Import ZArith Lia String Ascii.
From S2P Require Import Prelude GoStrings K8s Types ApiTypes Unstructured Codecs FedObject PodUtil Retain Federate.
From S2P Require Import Digests.

(** ** Typed statuses *)

Record DeploymentStatus := {
  ds_ObservedGeneration : Z;
  ds_Replicas : Z;
  ds_UpdatedReplicas : Z;
  ds_ReadyReplicas : Z;
  ds_AvailableReplicas : Z;
  ds_UnavailableReplicas : Z
}.

Record JobCondition := {
  jc_Type : string;
  jc_Status : string;
  jc_LastProbeTime : Time;
  jc_LastTransitionTime : Time;
  jc_Reason : string;
  jc_Message : string
}.
Record JobStatus := {
  js_Conditions : list JobCondition;
  js_StartTime : option Time;
  js_CompletionTime : option Time;
  js_Active : Z;
  js_Succeeded : Z;
  js_Failed : Z
}.

(** A container status; what is not its name is kept as it is. *)
Record ContainerStatus := { cst_Name : string; cst_rest : Object }.
Record PodStatus := {
  pst_Phase : string;
  pst_Message : string;
  pst_StartTime : option Time;
  pst_InitContainerStatuses : list ContainerStatus;
  pst_ContainerStatuses : list ContainerStatus
}.

Definition second : Z := 1000000000.

Class StatusLibraries := {
  (** The generation of a deployment and the observed one. *)
  FromUnstructured_Deployment : Object -> (Z * Z) + string;
  FromUnstructured_DeploymentStatus : Object -> DeploymentStatus + string;
  ToUnstructured_DeploymentStatus : DeploymentStatus -> Object + string;
  FromUnstructured_JobStatus : Object -> JobStatus + string;
  ToUnstructured_JobStatus : JobStatus -> Object + string;
  FromUnstructured_PodStatus : Object -> PodStatus + string;
  ToUnstructured_PodStatus : PodStatus -> Object + string;

  (** A time is written to the second. *)
  ToUnstructured_JobStatus_probe : forall js js' m,
    ToUnstructured_JobStatus js = inl m -> ToUnstructured_JobStatus js' = inl m ->
    (fun c => jc_LastProbeTime c / second) <$> js_Conditions js = (fun c => jc_LastProbeTime c / second) <$> js_Conditions js'
}.

(** Go's [int32]. *)
Definition wrap32 (x : Z) : Z := (x + 2 ^ 31) mod 2 ^ 32 - 2 ^ 31.
Definition add32 (x y : Z) : Z := wrap32 (x + y).

(** [metav1.Time.Before]: false when one is nil. *)
Definition Time_Before (t u : option Time) : bool :=
  match t, u with Some t, Some u => (t : Z) <? u | _, _ => false end.
(** The earlier of two start times. *)
Definition earliest (aggregated t : option Time) : option Time :=
  if Time_IsZero aggregated || Time_Before t aggregated then t else aggregated.
Definition latest (completion t : option Time) : option Time :=
  if Time_IsZero completion || Time_Before completion t then t else completion.

(** What a plugin returns: the source object, with whether its status is to be
    updated, or no object, which goes with false; or an error. *)
Abbreviation Aggregated := (option (Unstructured * bool) + string)%type.

Section Plugins.
Context `{K : Kubernetes} `{R : GoRuntime} `{C : !Codecs} `{D : !DigestCodecs} `{S : !StatusLibraries}.

(** The status of a cluster object; [inr None] ends the plugin without a result.
    A status that is not a map, null included, is an error, and so the statuses
    of the plugins are never nil. *)
Definition clusterStatus (clusterObj : Unstructured) : Object + option string :=
  match NestedMap (uns_Object clusterObj) [StatusField] with
  | inr err => inr (Some err)
  | inl None => inr None
  | inl (Some status) => inl status
  end.

Definition converted {A} (x : A + string) : A + option string :=
  match x with inl a => inl a | inr err => inr (Some err) end.

Definition returned {A} (x : A + option string) (f : A -> Aggregated) : Aggregated :=
  match x with inl a => f a | inr None => inl None | inr (Some err) => inr err end.

(** The source object with the new status, and whether it is different. *)
Definition updateStatus (sourceObject : Unstructured) (newStatus : Object) : Unstructured * bool + string :=
  match NestedMap (uns_Object sourceObject) [StatusField] with
  | inr err => inr err
  | inl oldStatus =>
      if bool_decide (oldStatus = Some newStatus) then inl (sourceObject, false)
      else
        match SetNestedField (uns_Object sourceObject) (VMap newStatus) [StatusField] with
        | inr err => inr err
        | inl object => inl ({| uns_Object := object |}, true)
        end
  end.

Definition updated (x : Unstructured * bool + string) : Aggregated :=
  match x with inl (sourceObject, needUpdate) => inl (Some (sourceObject, needUpdate)) | inr err => inr err end.

(** ** Deployments *)

Record DeploymentSum := {
  sum_status : DeploymentStatus;
  sum_observed : bool;
  sum_digests : list LatestReplicasetDigest
}.

Definition addDeploymentStatus (x y : DeploymentStatus) : DeploymentStatus := {|
  ds_ObservedGeneration := ds_ObservedGeneration x;
  ds_Replicas := add32 (ds_Replicas x) (ds_Replicas y);
  ds_UpdatedReplicas := add32 (ds_UpdatedReplicas x) (ds_UpdatedReplicas y);
  ds_ReadyReplicas := add32 (ds_ReadyReplicas x) (ds_ReadyReplicas y);
  ds_AvailableReplicas := add32 (ds_AvailableReplicas x) (ds_AvailableReplicas y);
  ds_UnavailableReplicas := add32 (ds_UnavailableReplicas x) (ds_UnavailableReplicas y) |}.

Definition no_DeploymentStatus : DeploymentStatus := {|
  ds_ObservedGeneration := 0; ds_Replicas := 0; ds_UpdatedReplicas := 0; ds_ReadyReplicas := 0;
  ds_AvailableReplicas := 0; ds_UnavailableReplicas := 0 |}.

Definition clusterSyncedGenerations (fedObject : FederatedObject) : gmap string Z :=
  foldl (fun m cluster => <[prs_Cluster cluster := LastObservedGeneration cluster]> m) ∅ (gs_Clusters (fo_Status fedObject)).

(** The digest, if it describes the current spec. *)
Definition clusterDigest (clusterName : string) (utd : Unstructured) : option LatestReplicasetDigest :=
  if String.eqb (decimal (uns_GetGeneration utd))
       (default ""%string (uns_GetAnnotations utd !! LatestReplicasetObservedGenerationAnnotation)) then
    match LatestReplicasetDigestFromObject clusterName utd with (digest, []) => Some digest | _ => None end
  else None.

Definition sumDeployment (generations : gmap string Z) (s : DeploymentSum) (entry : string * Unstructured)
    : DeploymentSum + option string :=
  let '(clusterName, utd) := entry in
  bind_error (clusterStatus utd) (fun status =>
  bind_error (converted (FromUnstructured_DeploymentStatus status)) (fun deployStatus =>
  inl {| sum_status := addDeploymentStatus (sum_status s) deployStatus;
         sum_observed := sum_observed s && bool_decide (generations !! clusterName = Some (ds_ObservedGeneration deployStatus));
         sum_digests := sum_digests s ++ option_list (clusterDigest clusterName utd) |})).

(** [AddAnnotation] to the source object: with whether it was there. *)
Definition hasAnnotation (obj : Unstructured) (key value : string) : bool :=
  bool_decide (uns_GetAnnotations obj !! key = Some value).

Definition Deployment_AggregateStatuses (sourceObject : Unstructured) (fedObject : FederatedObject)
    (clusterObjs : gmap string Unstructured) (clusterObjsUpToDate : bool) : Aggregated :=
  match FromUnstructured_Deployment (uns_Object sourceObject) with
  | inr err => inr err
  | inl (generation, observedGeneration) =>
      returned (foldl_error (sumDeployment (clusterSyncedGenerations fedObject))
        {| sum_status := no_DeploymentStatus; sum_observed := clusterObjsUpToDate; sum_digests := [] |}
        (range_map clusterObjs)) (fun s =>
      let aggregatedStatus := sum_status s in
      let aggregatedStatus := {|
        ds_ObservedGeneration := if sum_observed s then generation else observedGeneration;
        ds_Replicas := ds_Replicas aggregatedStatus; ds_UpdatedReplicas := ds_UpdatedReplicas aggregatedStatus;
        ds_ReadyReplicas := ds_ReadyReplicas aggregatedStatus; ds_AvailableReplicas := ds_AvailableReplicas aggregatedStatus;
        ds_UnavailableReplicas := ds_UnavailableReplicas aggregatedStatus |} in
      match ToUnstructured_DeploymentStatus aggregatedStatus with
      | inr err => inr err
      | inl newStatus =>
          match updateStatus sourceObject newStatus with
          | inr err => inr err
          | inl (sourceObject, needUpdate) =>
              match Marshal_digests (sort_slice digestLess (sum_digests s)) with
              | inr err => inr err
              | inl rsDigestsAnnotation =>
                  if hasAnnotation sourceObject LatestReplicasetDigestsAnnotation rsDigestsAnnotation
                  then inl (Some (sourceObject, needUpdate))
                  else inl (Some (uns_SetAnnotations
                    (<[LatestReplicasetDigestsAnnotation := rsDigestsAnnotation]> (uns_GetAnnotations sourceObject)) sourceObject,
                    true))
              end
          end
      end)
  end.

(** ** Jobs *)

Definition JobComplete : string := "Complete".
Definition JobFailed : string := "Failed".
Definition ConditionTrue : string := "True".

Definition IsJobFinishedWithFailed (jobStatus : JobStatus) : bool :=
  existsb (fun c => String.eqb (jc_Type c) JobFailed && String.eqb (jc_Status c) ConditionTrue) (js_Conditions jobStatus).

Record JobSum := {
  jsum_StartTime : option Time;
  jsum_Active : Z;
  jsum_Succeeded : Z;
  jsum_Failed : Z;
  completionTime : option Time;
  finishedCount : Z;
  completedJobs : list string;
  failedJobs : list string
}.

Definition no_jobs : JobSum := {|
  jsum_StartTime := None; jsum_Active := 0; jsum_Succeeded := 0; jsum_Failed := 0; completionTime := None;
  finishedCount := 0; completedJobs := []; failedJobs := [] |}.

Definition addJob (s : JobSum) (clusterName : string) (jobStatus : JobStatus) : JobSum :=
  let completed := negb (Time_IsZero (js_CompletionTime jobStatus)) in
  let failed := negb completed && IsJobFinishedWithFailed jobStatus in {|
    jsum_StartTime := earliest (jsum_StartTime s) (js_StartTime jobStatus);
    jsum_Active := add32 (jsum_Active s) (js_Active jobStatus);
    jsum_Succeeded := add32 (jsum_Succeeded s) (js_Succeeded jobStatus);
    jsum_Failed := add32 (jsum_Failed s) (js_Failed jobStatus);
    completionTime := if completed then latest (completionTime s) (js_CompletionTime jobStatus) else completionTime s;
    finishedCount := if completed || failed then finishedCount s + 1 else finishedCount s;
    completedJobs := if completed then completedJobs s ++ [clusterName] else completedJobs s;
    failedJobs := if failed then failedJobs s ++ [clusterName] else failedJobs s |}.

Definition sumJob (s : JobSum) (entry : string * Unstructured) : JobSum + option string :=
  let '(clusterName, utd) := entry in
  bind_error (clusterStatus utd) (fun status =>
  bind_error (converted (FromUnstructured_JobStatus status)) (fun jobStatus => inl (addJob s clusterName jobStatus))).

(** The type, the reason and the message of the condition of a job that is
    finished everywhere, and its completion time. *)
Definition jobConclusion (s : JobSum) : string * string * string * option Time :=
  let completed := sort_slice String.ltb (completedJobs s) in
  let failed := sort_slice String.ltb (failedJobs s) in
  match completed, failed with
  | _ :: _, _ :: _ => (JobFailed, "Mixed"%string,
      ("Job completed in clusters [" ++ String.concat "," completed ++ "] and failed in member clusters [" ++
        String.concat "," failed ++ "]")%string, None)
  | _ :: _, [] => (JobComplete, "Completed"%string,
      ("Job completed in clusters [" ++ String.concat "," completed ++ "]")%string, completionTime s)
  | [], _ => (JobFailed, "Failed"%string, ("Job failed in clusters [" ++ String.concat "," failed ++ "]")%string, None)
  end.

Definition jobStatusOf (now : Time) (clusters : Z) (s : JobSum) : JobStatus :=
  let status conditions completion := {|
    js_Conditions := conditions; js_StartTime := jsum_StartTime s; js_CompletionTime := completion;
    js_Active := jsum_Active s; js_Succeeded := jsum_Succeeded s; js_Failed := jsum_Failed s |} in
  if (0 <? finishedCount s) && (finishedCount s =? clusters) then
    let '(conditionType, reason, message, completion) := jobConclusion s in
    status [{| jc_Type := conditionType; jc_Status := ConditionTrue; jc_LastProbeTime := now;
               jc_LastTransitionTime := now; jc_Reason := reason; jc_Message := message |}] completion
  else status [] None.

Definition Job_AggregateStatuses (now : Time) (sourceObject : Unstructured) (fedObject : FederatedObject)
    (clusterObjs : gmap string Unstructured) (clusterObjsUpToDate : bool) : Aggregated :=
  returned (foldl_error sumJob no_jobs (range_map clusterObjs)) (fun s =>
  match ToUnstructured_JobStatus (jobStatusOf now (Z.of_nat (size clusterObjs)) s) with
  | inr err => inr err
  | inl newStatus => updated (updateStatus sourceObject newStatus)
  end).

(** ** Pods *)

Definition PodPending : string := "Pending".
Definition PodRunning : string := "Running".
Definition PodSucceeded : string := "Succeeded".
Definition PodFailed : string := "Failed".

(** The clusters of each phase. *)
Abbreviation Phases := (gmap string (list string)).
Definition phase_clusters (phases : Phases) (phase : string) : list string := default [] (phases !! phase).
Definition addPhase (phases : Phases) (phase clusterName : string) : Phases :=
  <[phase := phase_clusters phases phase ++ [clusterName]]> phases.

Record PodSum := {
  psum_StartTime : option Time;
  psum_InitContainers : list ContainerStatus;
  psum_Containers : list ContainerStatus;
  phases : Phases
}.

Definition no_pods : PodSum := {|
  psum_StartTime := None; psum_InitContainers := []; psum_Containers := [];
  phases := list_to_map [(PodPending, []); (PodRunning, []); (PodSucceeded, []); (PodFailed, [])] |}.

Definition rename_container (clusterName : string) (c : ContainerStatus) : ContainerStatus :=
  {| cst_Name := (cst_Name c ++ " (" ++ clusterName ++ ")")%string; cst_rest := cst_rest c |}.

Definition addPod (s : PodSum) (clusterName : string) (podStatus : PodStatus) : PodSum :=
  if String.eqb (pst_Phase podStatus) "" then {|
    psum_StartTime := psum_StartTime s; psum_InitContainers := psum_InitContainers s;
    psum_Containers := psum_Containers s; phases := addPhase (phases s) PodPending clusterName |}
  else {|
    psum_StartTime := earliest (psum_StartTime s) (pst_StartTime podStatus);
    psum_InitContainers := psum_InitContainers s ++ (rename_container clusterName <$> pst_InitContainerStatuses podStatus);
    psum_Containers := psum_Containers s ++ (rename_container clusterName <$> pst_ContainerStatuses podStatus);
    phases := addPhase (phases s) (pst_Phase podStatus) clusterName |}.

Definition sumPod (s : PodSum) (entry : string * Unstructured) : PodSum + option string :=
  let '(clusterName, utd) := entry in
  bind_error (clusterStatus utd) (fun status =>
  bind_error (converted (FromUnstructured_PodStatus status)) (fun podStatus => inl (addPod s clusterName podStatus))).

(** [strings.ToLower], of ASCII. *)
Fixpoint ToLower (s : string) : string :=
  match s with
  | EmptyString => EmptyString
  | String c s =>
      let n := nat_of_ascii c in
      String (if ((65 <=? n) && (n <=? 90))%nat then ascii_of_nat (n + 32) else c) (ToLower s)
  end.

(** The phase and the message so far. *)
Definition mentionPhase (phases : Phases) (s : string * string) (phase : string) : string * string :=
  let '(aggregated, message) := s in
  match phase_clusters phases phase with
  | [] => s
  | clusters =>
      let names := String.concat "," (sort_slice String.ltb clusters) in
      (if String.eqb aggregated "" then phase else aggregated,
       if String.eqb message "" then ("Pod " ++ ToLower phase ++ " in clusters [" ++ names ++ "]")%string
       else (message ++ ", and " ++ ToLower phase ++ " in clusters [" ++ names ++ "]")%string)
  end.

Definition aggregatePhases (phases : Phases) : string * string :=
  foldl (mentionPhase phases) (""%string, ""%string) [PodFailed; PodPending; PodRunning; PodSucceeded].

Definition containerLess (x y : ContainerStatus) : bool := String.ltb (cst_Name x) (cst_Name y).

Definition podStatusOf (s : PodSum) : PodStatus :=
  let '(phase, message) := aggregatePhases (phases s) in {|
    pst_Phase := phase; pst_Message := message; pst_StartTime := psum_StartTime s;
    pst_InitContainerStatuses := sort_slice containerLess (psum_InitContainers s);
    pst_ContainerStatuses := sort_slice containerLess (psum_Containers s) |}.

Definition Pod_AggregateStatuses (sourceObject : Unstructured) (fedObject : FederatedObject)
    (clusterObjs : gmap string Unstructured) (clusterObjsUpToDate : bool) : Aggregated :=
  returned (foldl_error sumPod no_pods (range_map clusterObjs)) (fun s =>
  match ToUnstructured_PodStatus (podStatusOf s) with
  | inr err => inr err
  | inl newStatus => updated (updateStatus sourceObject newStatus)
  end).

(** ** Objects of one cluster *)

Definition SingleCluster_AggregateStatuses (sourceObject : Unstructured) (fedObject : FederatedObject)
    (clusterObjs : gmap string Unstructured) (clusterObjsUpToDate : bool) : Aggregated :=
  match range_map clusterObjs with
  | [(clusterName, clusterObj)] =>
      match NestedMap (uns_Object clusterObj) [StatusField] with
      | inr err => inr ("failed to get status from cluster object of cluster " ++ clusterName ++ ": " ++ err)%string
      | inl None => inl (Some (sourceObject, false))
      | inl (Some newStatus) => updated (updateStatus sourceObject newStatus)
      end
  | _ => inl (Some (sourceObject, false))
  end.

(** ** The plugin of a kind *)

Abbreviation StatusPlugin := (Unstructured -> FederatedObject -> gmap string Unstructured -> bool -> Aggregated).

Definition pluginsMap (now : Time) : list (GroupVersionKind * StatusPlugin) :=
  [({| gvk_Group := "apps"; gvk_Version := "v1"; gvk_Kind := DeploymentKind |}, Deployment_AggregateStatuses);
   ({| gvk_Group := "apps"; gvk_Version := "v1"; gvk_Kind := StatefulSetKind |}, SingleCluster_AggregateStatuses);
   ({| gvk_Group := "batch"; gvk_Version := "v1"; gvk_Kind := JobKind |}, Job_AggregateStatuses now);
   ({| gvk_Group := ""; gvk_Version := "v1"; gvk_Kind := PodKind |}, Pod_AggregateStatuses)].

Definition GetPlugin (now : Time) (gvk : GroupVersionKind) : option StatusPlugin :=
  snd <$> List.find (fun entry => bool_decide (entry.1 = gvk)) (pluginsMap now).
End Plugins.

(** * A concrete instance of [StatusLibraries]

    Statuses are maps with the field names of the API; numbers that are zero and
    lists that are empty are left out.  For evaluation. *)

Definition int_field (o : Object) (k : string) : Z := default 0 (o !! k ≫= as_int).
Definition object_of (fields : list (string * option Value)) : Object :=
  list_to_map (omap (fun f => pair f.1 <$> f.2) fields).
Definition int_value (n : Z) : option Value := if n =? 0 then None else Some (VInt n).
Definition list_value (l : list Value) : option Value := match l with [] => None | _ => Some (VList l) end.

(** Times in seconds. *)
Definition time_value (t : Time) : Value := VInt (t / second).
Definition time_field (o : Object) (k : string) : option Time := (fun s => s * second) <$> (o !! k ≫= as_int).

Definition small_FromDeployment (o : Object) : (Z * Z) + string :=
  inl (int_field (metadata_map {| uns_Object := o |}) "generation",
       int_field (default ∅ (o !! "status"%string ≫= as_map)) "observedGeneration").

Definition small_FromDeploymentStatus (o : Object) : DeploymentStatus + string := inl {|
  ds_ObservedGeneration := int_field o "observedGeneration"; ds_Replicas := int_field o "replicas";
  ds_UpdatedReplicas := int_field o "updatedReplicas"; ds_ReadyReplicas := int_field o "readyReplicas";
  ds_AvailableReplicas := int_field o "availableReplicas"; ds_UnavailableReplicas := int_field o "unavailableReplicas" |}.

Definition small_ToDeploymentStatus (s : DeploymentStatus) : Object + string := inl (object_of
  [("observedGeneration", int_value (ds_ObservedGeneration s)); ("replicas", int_value (ds_Replicas s));
   ("updatedReplicas", int_value (ds_UpdatedReplicas s)); ("readyReplicas", int_value (ds_ReadyReplicas s));
   ("availableReplicas", int_value (ds_AvailableReplicas s)); ("unavailableReplicas", int_value (ds_UnavailableReplicas s))]%string).

Definition small_FromJobCondition (v : Value) : JobCondition :=
  let o := default ∅ (as_map v) in {|
    jc_Type := field_string o "type"; jc_Status := field_string o "status";
    jc_LastProbeTime := default 0 (time_field o "lastProbeTime");
    jc_LastTransitionTime := default 0 (time_field o "lastTransitionTime");
    jc_Reason := field_string o "reason"; jc_Message := field_string o "message" |}.

Definition small_ToJobCondition (c : JobCondition) : Value := VMap (object_of
  [("type", Some (VString (jc_Type c))); ("status", Some (VString (jc_Status c)));
   ("lastProbeTime", Some (time_value (jc_LastProbeTime c)));
   ("lastTransitionTime", Some (time_value (jc_LastTransitionTime c)));
   ("reason", Some (VString (jc_Reason c))); ("message", Some (VString (jc_Message c)))]%string).

Definition small_FromJobStatus (o : Object) : JobStatus + string := inl {|
  js_Conditions := small_FromJobCondition <$> default [] (o !! "conditions"%string ≫= as_list);
  js_StartTime := time_field o "startTime"; js_CompletionTime := time_field o "completionTime";
  js_Active := int_field o "active"; js_Succeeded := int_field o "succeeded"; js_Failed := int_field o "failed" |}.

Definition small_ToJobStatus (s : JobStatus) : Object + string := inl (object_of
  [("conditions", list_value (small_ToJobCondition <$> js_Conditions s));
   ("startTime", time_value <$> js_StartTime s); ("completionTime", time_value <$> js_CompletionTime s);
   ("active", int_value (js_Active s)); ("succeeded", int_value (js_Succeeded s));
   ("failed", int_value (js_Failed s))]%string).

Definition small_FromContainers (o : Object) (k : string) : list ContainerStatus :=
  (fun v => let c := default ∅ (as_map v) in {| cst_Name := field_string c "name"; cst_rest := delete "name"%string c |}) <$>
  default [] (o !! k ≫= as_list).
Definition small_ToContainers (l : list ContainerStatus) : option Value :=
  list_value ((fun c => VMap (<["name"%string := VString (cst_Name c)]> (cst_rest c))) <$> l).

Definition small_FromPodStatus (o : Object) : PodStatus + string := inl {|
  pst_Phase := field_string o "phase"; pst_Message := field_string o "message"; pst_StartTime := time_field o "startTime";
  pst_InitContainerStatuses := small_FromContainers o "initContainerStatuses";
  pst_ContainerStatuses := small_FromContainers o "containerStatuses" |}.

Definition small_ToPodStatus (s : PodStatus) : Object + string := inl (object_of
  [("phase", Some (VString (pst_Phase s))); ("message", Some (VString (pst_Message s)));
   ("startTime", time_value <$> pst_StartTime s);
   ("initContainerStatuses", small_ToContainers (pst_InitContainerStatuses s));
   ("containerStatuses", small_ToContainers (pst_ContainerStatuses s))]%string).

Definition small_Marshal_digests (l : list LatestReplicasetDigest) : string + string :=
  inl (String.concat ";" ((fun d => ClusterName d ++ ":" ++ ReplicasetName d)%string <$> l)).

Lemma small_probe js js' m : small_ToJobStatus js = inl m -> small_ToJobStatus js' = inl m ->
  (fun c => jc_LastProbeTime c / second) <$> js_Conditions js = (fun c => jc_LastProbeTime c / second) <$> js_Conditions js'.
Proof.
  assert (Hget : forall js m, small_ToJobStatus js = inl m ->
    m !! "conditions"%string = list_value (small_ToJobCondition <$> js_Conditions js)).
  { intros s o [= <-]. unfold object_of. cbn [omap list_omap fst snd].
    destruct (list_value _) as [v|]; simpl; [by rewrite lookup_insert_eq|].
    destruct (js_StartTime s), (js_CompletionTime s), (int_value (js_Active s)), (int_value (js_Succeeded s)),
      (int_value (js_Failed s)); simpl; rewrite ?lookup_insert_ne by done; by rewrite lookup_empty. }
  intros H H'. apply Hget in H, H'. rewrite H in H'. clear Hget H m. revert H'.
  assert (Hv : forall l l' : list Value, list_value l = list_value l' -> l = l')
    by (intros [|v l] [|v' l']; simpl; congruence).
  intros H%Hv. clear Hv. generalize dependent (js_Conditions js'). clear js'.
  induction (js_Conditions js) as [|c l IH]; intros [|c' l'] H; try done. rewrite !fmap_cons in *.
  pose proof (f_equal head H) as Hc. pose proof (f_equal tail H) as Hl. cbn [head tail] in Hc, Hl.
  apply (inj Some), (f_equal as_map), (inj Some) in Hc. f_equal; [|by apply IH]. clear IH Hl H.
  assert (Hp : forall c, object_of
    [("type", Some (VString (jc_Type c))); ("status", Some (VString (jc_Status c)));
     ("lastProbeTime", Some (time_value (jc_LastProbeTime c)));
     ("lastTransitionTime", Some (time_value (jc_LastTransitionTime c)));
     ("reason", Some (VString (jc_Reason c))); ("message", Some (VString (jc_Message c)))]%string !! "lastProbeTime"%string =
    Some (VInt (jc_LastProbeTime c / second))).
  { intros c0. unfold object_of. simpl.
    by rewrite !lookup_insert_ne, lookup_insert_eq by done. }
  pose proof (Hp c) as H1. rewrite Hc, Hp in H1. congruence.
Qed.

Definition small_digests : DigestCodecs := {| Marshal_digests := small_Marshal_digests |}.

Definition small_statuses : StatusLibraries := {|
  FromUnstructured_Deployment := small_FromDeployment;
  FromUnstructured_DeploymentStatus := small_FromDeploymentStatus;
  ToUnstructured_DeploymentStatus := small_ToDeploymentStatus;
  FromUnstructured_JobStatus := small_FromJobStatus;
  ToUnstructured_JobStatus := small_ToJobStatus;
  FromUnstructured_PodStatus := small_FromPodStatus;
  ToUnstructured_PodStatus := small_ToPodStatus;
  ToUnstructured_JobStatus_probe := small_probe
|}.
