(* ===== verification/StatusAggregator.v ===== *)
(** * The status aggregator ([pkg/controllers/statusaggregator])

    It makes the status of a source object out of the statuses of its objects in
    the member clusters, with the plugin of its kind ([StatusPlugins]), and copies
    feedback from the federated object into annotations of the source object.  The
    caches are the fields of [StatusAggregator], the client of the host is the
    interface [AggregationServer] on a state [W].  Events, metrics and logs are
    left out. *)

From Stdlib Require Import ZArith Lia String Ascii.
From S2P Require Import Prelude GoStrings K8s Types ApiTypes Unstructured Codecs FedObject Retain Naming Sync Federate.
From S2P Require Import Digests StatusPlugins.

(** ** Feedback for the source object ([plugins/sourcefeedback/annotations.go]) *)

Definition knownAnnotations : list string := [AppliedMigrationConfigurationAnnotation; SchedulingAnnotation].

(** A map that is nil is [None]. *)
Definition populateAnnotation (sourceAnnotations : option (gmap string string)) (fedAnnotations : gmap string string)
    (key : string) : option (gmap string string) * bool :=
  let fedValue := fedAnnotations !! key in
  match sourceAnnotations with
  | None => match fedValue with Some value => (Some {[key := value]}, true) | None => (None, false) end
  | Some annotations =>
      let '(annotations, deleted) :=
        if bool_decide (fedValue = None) && bool_decide (is_Some (annotations !! key))
        then (delete key annotations, true) else (annotations, false) in
      match fedValue with
      | Some value =>
          if negb (String.eqb (default ""%string (annotations !! key)) value) then (Some (<[key := value]> annotations), true)
          else (Some annotations, deleted)
      | None => (Some annotations, deleted)
      end
  end.

Section Aggregator.
Context `{K : Kubernetes} `{R : GoRuntime} `{C : !Codecs} `{L : !FederateLibraries} `{D : !DigestCodecs} `{SL : !StatusLibraries}.

(** [GetAnnotations] is nil when there is no field. *)
Definition annotationsOf (u : Unstructured) : option (gmap string string) :=
  match NestedFieldNoCopy (uns_Object u) ["metadata"; "annotations"]%string with
  | inl (Some (VMap _)) => Some (uns_GetAnnotations u)
  | _ => None
  end.

Definition PopulateAnnotations (sourceObject : Unstructured) (fedObject : FederatedObject) : Unstructured * bool :=
  let '(annotations, needUpdate) := foldl (fun '(annotations, needUpdate) key =>
      let '(annotations, newNeedUpdate) := populateAnnotation annotations (fo_Annotations fedObject) key in
      (annotations, needUpdate || newNeedUpdate)) (annotationsOf sourceObject, false) knownAnnotations in
  (uns_SetAnnotations (default ∅ annotations) sourceObject, needUpdate).

(** ** The controller ([controller.go]) *)

Record reconcileKey := { rk_gvk : GroupVersionKind; rk_namespace : string; rk_name : string }.

Definition rk_QualifiedName (key : reconcileKey) : QualifiedName :=
  {| qn_Namespace := rk_namespace key; qn_Name := rk_name key |}.

(** The client of the host for source objects. *)
Class AggregationServer (W : Type) := {
  sao_Update : W -> GroupVersionResource -> string -> Unstructured -> W * option ApiError;
  sao_Get : W -> GroupVersionResource -> string -> string -> Unstructured + ApiError;
  sao_UpdateStatus : W -> GroupVersionResource -> string -> Unstructured -> W * option ApiError
}.

(** [sa_ResourceLister] is the cache of the host, [sa_ClusterResourceLister] that
    of a member cluster. *)
Record StatusAggregator := {
  sa_ResourceFTC : GroupVersionKind -> option FederatedTypeConfig;
  sa_ListFTCs : list FederatedTypeConfig + string;
  sa_ResourceLister : GroupVersionKind -> option ResourceLister;
  sa_ClusterResourceLister : GroupVersionKind -> string -> option ResourceLister;
  sa_FederatedObject : string -> string -> FederatedObject + ApiError;
  sa_ClusterFederatedObject : string -> FederatedObject + ApiError;
  sa_ReadyClusters : list FederatedCluster + string;
  sa_clusterAvailableDelay : Z;
  sa_clusterUnavailableDelay : Z
}.

Definition objectEnqueueDelay : Z := 3000000000.

Variable a : StatusAggregator.

Definition getFTCIfStatusAggregationIsEnabled (gvk : GroupVersionKind) : option FederatedTypeConfig :=
  match sa_ResourceFTC a gvk with
  | Some typeConfig => if StatusAggregationEnabled typeConfig then Some typeConfig else None
  | None => None
  end.

Definition listFTCWithStatusAggregationEnabled : list FederatedTypeConfig :=
  match sa_ListFTCs a with
  | inl ftcs => List.filter StatusAggregationEnabled ftcs
  | inr _ => []
  end.

(** The host for the empty cluster name. *)
Definition getObjectFromStore (key : reconcileKey) (cluster : string) : Unstructured + ApiError :=
  match (if String.eqb cluster "" then sa_ResourceLister a (rk_gvk key)
         else sa_ClusterResourceLister a (rk_gvk key) cluster) with
  | None => inr (OtherError "lister does not exist")
  | Some lister =>
      if negb (rl_HasSynced lister) then inr (OtherError "lister not synced")
      else rl_Get lister (QualifiedName_String (rk_QualifiedName key))
  end.

Definition addClusterObj (key : reconcileKey) (objs : gmap string Unstructured) (cluster : FederatedCluster)
    : gmap string Unstructured + ApiError :=
  match getObjectFromStore key (c_Name cluster) with
  | inl clusterObj => inl (<[c_Name cluster := clusterObj]> objs)
  | inr err => if IsNotFound err then inl objs else inr err
  end.

Definition clusterObjs (key : reconcileKey) : gmap string Unstructured + ApiError :=
  match sa_ReadyClusters a with
  | inr err => inr (OtherError err)
  | inl clusters => foldl_error (addClusterObj key) ∅ clusters
  end.

(** [fedobjectadapters.GetFromLister]. *)
Definition sa_GetFromLister (namespace name : string) : FederatedObject + ApiError :=
  if String.eqb namespace "" then sa_ClusterFederatedObject a name else sa_FederatedObject a namespace name.

Context {W : Type} `{S : !AggregationServer W}.

(** The status of [sourceObject] is copied to the latest version of the object. *)
Definition writeStatus (w : W) (ftc : FederatedTypeConfig) (key : reconcileKey) (sourceObject : Unstructured)
    : W * WorkerResult :=
  match sao_Get w (GetSourceTypeGVR ftc) (rk_namespace key) (rk_name key) with
  | inr _ => (w, StatusError)
  | inl latestSourceObj =>
      match NestedMap (uns_Object sourceObject) ["status"%string] with
      | inl (Some statusMap) =>
          match SetNestedField (uns_Object latestSourceObj) (VMap statusMap) ["status"%string] with
          | inr _ => (w, StatusError)
          | inl object =>
              let '(w, err) := sao_UpdateStatus w (GetSourceTypeGVR ftc) (rk_namespace key) {| uns_Object := object |} in
              match err with
              | Some err => (w, if IsConflict err then StatusConflict else StatusError)
              | None => (w, StatusAllOK)
              end
          end
      | _ => (w, StatusError)
      end
  end.

Definition aggregate (now : Time) (w : W) (ftc : FederatedTypeConfig) (key : reconcileKey) (sourceObject : Unstructured)
    (fedObject : FederatedObject) (objs : gmap string Unstructured) (clusterObjsUpToDate : bool) : W * WorkerResult :=
  match GetPlugin now (rk_gvk key) with
  | None => (w, StatusAllOK)
  | Some plugin =>
      match plugin sourceObject fedObject objs clusterObjsUpToDate with
      | inr _ => (w, StatusError)
      | inl (Some (sourceObject, true)) => writeStatus w ftc key sourceObject
      | inl _ => (w, StatusAllOK)
      end
  end.

Definition feedback (now : Time) (w : W) (ftc : FederatedTypeConfig) (key : reconcileKey) (sourceObject : Unstructured)
    (fedObject : FederatedObject) (objs : gmap string Unstructured) (clusterObjsUpToDate : bool) : W * WorkerResult :=
  let '(sourceObject, needUpdate) := PopulateAnnotations sourceObject fedObject in
  if needUpdate then
    let '(w, err) := sao_Update w (GetSourceTypeGVR ftc) (rk_namespace key) sourceObject in
    match err with
    | Some err => (w, if IsConflict err then StatusConflict else StatusError)
    | None => aggregate now w ftc key sourceObject fedObject objs clusterObjsUpToDate
    end
  else aggregate now w ftc key sourceObject fedObject objs clusterObjsUpToDate.

Definition reconcile (now : Time) (w : W) (key : reconcileKey) : W * WorkerResult :=
  match getFTCIfStatusAggregationIsEnabled (rk_gvk key) with
  | None => (w, StatusAllOK)
  | Some ftc =>
      match getObjectFromStore key "" with
      | inr err => (w, if IsNotFound err then StatusAllOK else StatusError)
      | inl sourceObject =>
          if bool_decide (is_Some (uns_GetDeletionTimestamp sourceObject)) then (w, StatusAllOK)
          else
            match sa_GetFromLister (rk_namespace key) (GenerateFederatedObjectName (rk_name key) (ftc_Name ftc)) with
            | inr err => (w, if IsNotFound err then StatusAllOK else StatusError)
            | inl fedObject =>
                if bool_decide (is_Some (fo_DeletionTimestamp fedObject)) then (w, StatusAllOK)
                else
                  match clusterObjs key with
                  | inr _ => (w, StatusError)
                  | inl objs =>
                      match IsResourcePropagated (Some sourceObject) (Some fedObject) with
                      | inr _ => (w, StatusError)
                      | inl clusterObjsUpToDate => feedback now w ftc key sourceObject fedObject objs clusterObjsUpToDate
                      end
                  end
            end
      end
  end.

(** ** Events: what is enqueued, with the delay *)

Definition key_of (gvk : GroupVersionKind) (obj : Unstructured) : reconcileKey :=
  {| rk_gvk := gvk; rk_namespace := uns_GetNamespace obj; rk_name := uns_GetName obj |}.

Definition onFederatedObject (fedObj : FederatedObject) : option (reconcileKey * Z) :=
  if negb (Time_IsZero (fo_DeletionTimestamp fedObj)) then None
  else
    match GetTemplateAsUnstructured (fo_Spec fedObj) with
    | inr _ => None
    | inl unsObj =>
        let gvk := uns_GroupVersionKind unsObj in
        if bool_decide (getFTCIfStatusAggregationIsEnabled gvk = None) then None
        else Some (key_of gvk unsObj, objectEnqueueDelay)
    end.

Definition onMemberObject (obj : Unstructured) : option (reconcileKey * Z) :=
  if negb (Time_IsZero (uns_GetDeletionTimestamp obj)) then None
  else
    let gvk := uns_GroupVersionKind obj in
    if bool_decide (getFTCIfStatusAggregationIsEnabled gvk = None) then None
    else Some (key_of gvk obj, objectEnqueueDelay).

(** [ftc] is the one that the handler was made for. *)
Definition onSourceObject (ftc : FederatedTypeConfig) (obj : Unstructured) : option (reconcileKey * Z) :=
  if negb (Time_IsZero (uns_GetDeletionTimestamp obj)) || negb (StatusAggregationEnabled ftc) then None
  else if negb (String.eqb (default ""%string (uns_GetAnnotations obj !! NoFederatedResource)) "") then None
  else Some (key_of (GetSourceTypeGVK ftc) obj, 0).

(** The delays after which the clusters are gone through. *)
Definition onCluster (oldCluster newCluster : option FederatedCluster) : list Z :=
  let ready cluster := match cluster with Some c => IsClusterReady (Status c) | None => false end in
  (if ready newCluster && negb (ready oldCluster) then [sa_clusterAvailableDelay a] else []) ++
  (match oldCluster with
   | Some c => if negb (Time_IsZero (c_DeletionTimestamp c)) then [sa_clusterUnavailableDelay a] else []
   | None => []
   end).

(** The keys that are enqueued, and whether the clusters are to be gone through
    again later. *)
Fixpoint reconcileTypes (ftcs : list FederatedTypeConfig) : list (reconcileKey * Z) * bool :=
  match ftcs with
  | [] => ([], false)
  | ftc :: ftcs =>
      let gvk := GetSourceTypeGVK ftc in
      match sa_ResourceLister a gvk with
      | None => ([], false)
      | Some lister =>
          if negb (rl_HasSynced lister) then ([], true)
          else
            match rl_List lister with
            | inr _ => ([], true)
            | inl sources =>
                let '(keys, retry) := reconcileTypes ftcs in
                (((fun obj => (key_of gvk obj, objectEnqueueDelay)) <$> sources) ++ keys, retry)
            end
      end
  end.

Definition reconcileOnClusterChange : list (reconcileKey * Z) * bool :=
  reconcileTypes listFTCWithStatusAggregationEnabled.
End Aggregator.
