(* ===== verification/StatusPluginsTheorems.v ===== *)
(** * What the plugins compute

    The totals of deployments, the conclusion of jobs and the phase of pods do
    not depend on the order in which the clusters are visited. *)

From Stdlib Require Import ZArith Lia String Ascii.
From S2P Require Import Prelude GoStrings K8s Types ApiTypes Unstructured Codecs FedObject PodUtil Retain Federate.
From S2P Require Import Digests StatusPlugins.

(** ** int32 *)

Lemma wrap32_congr x y : x mod 2 ^ 32 = y mod 2 ^ 32 -> wrap32 x = wrap32 y.
Proof. intros H. unfold wrap32. f_equal. rewrite <- (Zplus_mod_idemp_l x), H, Zplus_mod_idemp_l. done. Qed.

Lemma wrap32_mod x : wrap32 x mod 2 ^ 32 = x mod 2 ^ 32.
Proof. unfold wrap32. rewrite Zminus_mod_idemp_l. f_equal. lia. Qed.

Lemma wrap32_small x : - 2 ^ 31 <= x < 2 ^ 31 -> wrap32 x = x.
Proof. unfold wrap32. intros H. rewrite Z.mod_small; lia. Qed.

Lemma foldl_add32 {A} (f : A -> Z) b l : foldl (fun a x => add32 a (f x)) (wrap32 b) l = wrap32 (b + sumZ f l).
Proof.
  revert b. induction l as [|x l IH]; intros b; simpl; [f_equal; lia|].
  replace (add32 (wrap32 b) (f x)) with (wrap32 (b + f x)); [rewrite IH; f_equal; lia|].
  unfold add32. apply wrap32_congr. by rewrite <- (Zplus_mod_idemp_l (wrap32 b)), wrap32_mod, Zplus_mod_idemp_l.
Qed.

(** ** Loops over the clusters *)

(** A field of the state of a loop that depends on that field only. *)
Lemma foldl_field {S A B} (pi : S -> B) (step : S -> A -> S) (g : B -> A -> B) s l :
  (forall s x, pi (step s x) = g (pi s) x) -> pi (foldl step s l) = foldl g (pi s) l.
Proof. intros H. revert s. induction l as [|x l IH]; intros s; [done|]. simpl. by rewrite IH, H. Qed.

Lemma foldl_andb {A} (f : A -> bool) b l : foldl (fun a x => a && f x) b l = b && forallb f l.
Proof. revert b. induction l as [|x l IH]; intros b; simpl; [by rewrite andb_true_r|]. by rewrite IH, andb_assoc. Qed.

Lemma foldl_app_list {A B} (f : A -> list B) b l : foldl (fun a x => a ++ f x) b l = b ++ concat (f <$> l).
Proof. revert b. induction l as [|x l IH]; intros b; simpl; [by rewrite app_nil_r|]. by rewrite IH, app_assoc. Qed.

Lemma foldl_count {A} (f : A -> bool) b l :
  foldl (fun a x => if f x then a + 1 else a) b l = b + Z.of_nat (List.length (List.filter f l)).
Proof.
  revert b. induction l as [|x l IH]; intros b; simpl; [lia|]. rewrite IH. destruct (f x); simpl; lia.
Qed.

Lemma msum_list (m : gmap string Z) : msum m = sumZ snd (map_to_list m).
Proof.
  unfold msum. rewrite map_fold_foldr. induction (map_to_list m) as [|[k v] l IH]; [done|]. simpl in *. lia.
Qed.

Section Members.
Context `{K : Kubernetes} `{R : GoRuntime} `{C : !Codecs} `{S : !StatusLibraries}.

(** The status that a plugin reads of a cluster object. *)
Definition member_status {A} (conv : Object -> A + string) (o : Unstructured) : option A :=
  match NestedMap (uns_Object o) [StatusField] with
  | inl (Some status) => match conv status with inl x => Some x | inr _ => None end
  | _ => None
  end.

Definition statuses {A} (conv : Object -> A + string) (clusterObjs : gmap string Unstructured) : gmap string A :=
  omap (member_status conv) clusterObjs.

(** All the statuses can be read. *)
Definition readable {A} (conv : Object -> A + string) (clusterObjs : gmap string Unstructured) : Prop :=
  forall c o, clusterObjs !! c = Some o -> is_Some (member_status conv o).

(** A loop over the cluster objects is one over their statuses, in some order. *)
Lemma sum_statuses {A B} (conv : Object -> A + string) (clusterObjs : gmap string Unstructured)
    (step : B -> string * Unstructured -> B + option string) (add : B -> string * (A * Unstructured) -> B) b :
  readable conv clusterObjs ->
  (forall b c o, step b (c, o) = bind_error (clusterStatus o) (fun status =>
     bind_error (converted (conv status)) (fun x => inl (add b (c, (x, o)))))) ->
  exists l, foldl_error step b (range_map clusterObjs) = inl (foldl add b l) /\
    prod_map id snd <$> l = range_map clusterObjs /\ Forall (fun e => member_status conv e.2.2 = Some e.2.1) l.
Proof.
  intros Hread Hstep. assert (Hl : forall c o, (c, o) ∈ range_map clusterObjs -> is_Some (member_status conv o))
    by (intros c o Hin; apply elem_of_range_map in Hin; eauto). clear Hread.
  revert b. induction (range_map clusterObjs) as [|[c o] l IH]; intros b; [by exists []|].
  destruct (Hl c o) as [x Hx]; [by left|].
  assert (Hs : step b (c, o) = inl (add b (c, (x, o)))).
  { rewrite Hstep. unfold member_status, clusterStatus in *.
    destruct (NestedMap _ _) as [[status|]|]; [|done..]. simpl. destruct (conv status); by simplify_eq/=. }
  destruct (IH ltac:(intros; apply (Hl c0); by right) (add b (c, (x, o)))) as (l' & Hf & Hm & Hall).
  exists ((c, (x, o)) :: l'). rewrite fmap_cons, Hm. split_and!; [|done|by constructor].
  simpl. rewrite Hs. exact Hf.
Qed.

Lemma statuses_list {A} (conv : Object -> A + string) clusterObjs (l : list (string * (A * Unstructured))) :
  prod_map id snd <$> l = range_map clusterObjs -> Forall (fun e => member_status conv e.2.2 = Some e.2.1) l ->
  prod_map id fst <$> l ≡ₚ map_to_list (statuses conv clusterObjs).
Proof.
  intros Hm Hall. assert (Hfst : (prod_map id fst <$> l : list (string * A)).*1 = (range_map clusterObjs).*1).
  { rewrite <- Hm, <- !list_fmap_compose. by apply list_fmap_ext. }
  rewrite Forall_forall in Hall. apply NoDup_Permutation.
  - apply (NoDup_fmap_1 fst). rewrite Hfst. apply NoDup_range_map_fst.
  - apply NoDup_map_to_list.
  - intros [c x]. rewrite elem_of_map_to_list, list_elem_of_fmap. unfold statuses. rewrite lookup_omap, bind_Some. split.
    + intros ([c' [x' o]] & [= -> ->] & Hin). exists o. split; [|by apply (Hall _ Hin)].
      rewrite <- elem_of_range_map, <- Hm. apply list_elem_of_fmap. by exists (c', (x', o)).
    + intros (o & Ho & Hx). rewrite <- elem_of_range_map, <- Hm, list_elem_of_fmap in Ho.
      destruct Ho as ([c' [x' o']] & [= -> ->] & Hin). exists (c', (x', o')). split; [|done].
      specialize (Hall _ Hin). simpl in *. congruence.
Qed.

(** A total of the statuses. *)
Lemma sum_list {A} (conv : Object -> A + string) clusterObjs (l : list (string * (A * Unstructured))) (f : A -> Z) :
  prod_map id fst <$> l ≡ₚ map_to_list (statuses conv clusterObjs) ->
  sumZ (fun e => f e.2.1) l = msum (f <$> statuses conv clusterObjs).
Proof.
  intros Hp. rewrite msum_list, map_to_list_fmap, <- (sumZ_perm _ _ _ (fmap_Permutation (prod_map id f) _ _ Hp)). clear Hp.
  induction l as [|e l IH]; simpl; [done|]. rewrite IH. done.
Qed.
End Members.

(** ** Setting the status *)

Section Update.
Context `{K : Kubernetes} `{R : GoRuntime} `{C : !Codecs}.

Lemma updateStatus_spec sourceObject newStatus old :
  NestedMap (uns_Object sourceObject) [StatusField] = inl old ->
  updateStatus sourceObject newStatus =
    inl ({| uns_Object := <[StatusField := VMap newStatus]> (uns_Object sourceObject) |},
      negb (bool_decide (old = Some newStatus))).
Proof.
  intros Hold. unfold updateStatus. rewrite Hold. case_bool_decide as E; simpl.
  - subst old. apply NestedMap_Some in Hold. rewrite NestedField_top in Hold. injection Hold as Hold.
    rewrite insert_id by done. by destruct sourceObject.
  - by rewrite SetNestedField_top.
Qed.

Lemma NestedMap_set_status (o : Object) newStatus :
  NestedMap (<[StatusField := VMap newStatus]> o) [StatusField] = inl (Some newStatus).
Proof. apply NestedMap_Some. by rewrite NestedField_top, lookup_insert_eq. Qed.

(** The status is not part of the metadata. *)
Lemma set_status_Meta sourceObject v :
  uns_Meta {| uns_Object := <[StatusField := v]> (uns_Object sourceObject) |} = uns_Meta sourceObject.
Proof. apply Meta_frame. simpl. by rewrite lookup_insert_ne. Qed.

Lemma set_status_ok sourceObject v :
  metadata_ok {| uns_Object := <[StatusField := v]> (uns_Object sourceObject) |} = metadata_ok sourceObject.
Proof. unfold metadata_ok. simpl. by rewrite lookup_insert_ne. Qed.
End Update.

(** ** Deployments *)

Section Deployment.
Context `{K : Kubernetes} `{R : GoRuntime} `{C : !Codecs} `{D : !DigestCodecs} `{S : !StatusLibraries}.

Abbreviation deployments := (statuses FromUnstructured_DeploymentStatus).

(** The specification: 32-bit totals, ... *)
Definition total (f : DeploymentStatus -> Z) (clusterObjs : gmap string Unstructured) : Z :=
  wrap32 (msum (f <$> deployments clusterObjs)).

(** ... whether each cluster has observed what was last synced to it, ... *)
Definition all_observed (fedObject : FederatedObject) (clusterObjs : gmap string Unstructured) : Prop :=
  forall c x, deployments clusterObjs !! c = Some x ->
    clusterSyncedGenerations fedObject !! c = Some (ds_ObservedGeneration x).

(** ... and the digests of the clusters, by cluster. *)
Definition current_digests (clusterObjs : gmap string Unstructured) : list LatestReplicasetDigest :=
  sort_slice digestLess (omap (fun e => clusterDigest e.1 e.2) (map_to_list clusterObjs)).

Definition deployment_status (observed : Z) (clusterObjs : gmap string Unstructured) : DeploymentStatus := {|
  ds_ObservedGeneration := observed;
  ds_Replicas := total ds_Replicas clusterObjs;
  ds_UpdatedReplicas := total ds_UpdatedReplicas clusterObjs;
  ds_ReadyReplicas := total ds_ReadyReplicas clusterObjs;
  ds_AvailableReplicas := total ds_AvailableReplicas clusterObjs;
  ds_UnavailableReplicas := total ds_UnavailableReplicas clusterObjs |}.

#[local] Instance digestLess_order : StrictWeakOrder digestLess.
Proof. unfold digestLess. apply swo_on, swo_string. Qed.

Lemma clusterDigest_name c o d : clusterDigest c o = Some d -> ClusterName d = c.
Proof.
  unfold clusterDigest. destruct (String.eqb _ _); [|done]. unfold LatestReplicasetDigestFromObject.
  repeat (destruct (stringEntry _ _ _) as [[? ?] ?] || destruct (intEntry _ _ _) as [? ?]).
  destruct (NestedInt64 _ _) as [[?|]|]; destruct l3; simpl; by intros [= <-].
Qed.

(** The digests of a traversal, sorted. *)
Lemma sorted_digests clusterObjs (l : list (string * Unstructured)) : l ≡ₚ map_to_list clusterObjs ->
  sort_slice digestLess (omap (fun e => clusterDigest e.1 e.2) l) = current_digests clusterObjs.
Proof.
  intros Hl. unfold current_digests.
  assert (Hp : omap (fun e => clusterDigest e.1 e.2) l ≡ₚ omap (fun e => clusterDigest e.1 e.2) (map_to_list clusterObjs))
    by by rewrite Hl.
  apply (sorted_perm_unique digestLess); [by rewrite !sort_slice_perm| |by apply sort_slice_sorted, _..].
  intros x y Hx Hy Hxy Hyx. rewrite elem_of_sort_slice, Hp in Hx, Hy.
  apply list_elem_of_omap in Hx as ([c o] & Hin & Hx), Hy as ([c' o'] & Hin' & Hy). simpl in *.
  pose proof (string_ltb_total _ _ Hxy Hyx) as E.
  rewrite (clusterDigest_name _ _ _ Hx), (clusterDigest_name _ _ _ Hy) in E. subst c'.
  apply elem_of_map_to_list in Hin, Hin'. congruence.
Qed.

Definition addDeployment (generations : gmap string Z) (s : DeploymentSum) (e : string * (DeploymentStatus * Unstructured))
    : DeploymentSum :=
  {| sum_status := addDeploymentStatus (sum_status s) e.2.1;
     sum_observed := sum_observed s && bool_decide (generations !! e.1 = Some (ds_ObservedGeneration e.2.1));
     sum_digests := sum_digests s ++ option_list (clusterDigest e.1 e.2.2) |}.

Lemma sum_total (pi : DeploymentStatus -> Z) generations (l : list (string * (DeploymentStatus * Unstructured))) s :
  pi (sum_status s) = 0 -> (forall x y, pi (addDeploymentStatus x y) = add32 (pi x) (pi y)) ->
  pi (sum_status (foldl (addDeployment generations) s l)) = wrap32 (sumZ (fun e => pi e.2.1) l).
Proof.
  intros H0 Hadd. rewrite (foldl_field (fun s => pi (sum_status s)) _ (fun a e => add32 a (pi e.2.1))).
  - rewrite H0. exact (foldl_add32 (fun e : string * (DeploymentStatus * Unstructured) => pi e.2.1) 0 l).
  - intros s' e. apply Hadd.
Qed.

Lemma sum_observed_spec generations (l : list (string * (DeploymentStatus * Unstructured))) s :
  sum_observed (foldl (addDeployment generations) s l) =
  sum_observed s && forallb (fun e => bool_decide (generations !! e.1 = Some (ds_ObservedGeneration e.2.1))) l.
Proof.
  rewrite (foldl_field sum_observed _
    (fun a e => a && bool_decide (generations !! e.1 = Some (ds_ObservedGeneration e.2.1)))) by done.
  apply foldl_andb.
Qed.

Lemma sum_digests_spec generations (l : list (string * (DeploymentStatus * Unstructured))) s :
  sum_digests (foldl (addDeployment generations) s l) =
  sum_digests s ++ omap (fun e => clusterDigest e.1 e.2) (prod_map id snd <$> l).
Proof.
  rewrite (foldl_field sum_digests _ (fun a e => a ++ option_list (clusterDigest e.1 e.2.2))) by done.
  rewrite foldl_app_list. f_equal. induction l as [|e l IH]; [done|]. rewrite !fmap_cons. simpl. rewrite IH.
  by destruct (clusterDigest _ _).
Qed.

Lemma sumDeployment_statuses generations observed clusterObjs :
  readable FromUnstructured_DeploymentStatus clusterObjs ->
  exists s, foldl_error (sumDeployment generations)
      {| sum_status := no_DeploymentStatus; sum_observed := observed; sum_digests := [] |} (range_map clusterObjs) = inl s /\
    (forall pi, pi no_DeploymentStatus = 0 -> (forall x y, pi (addDeploymentStatus x y) = add32 (pi x) (pi y)) ->
      pi (sum_status s) = total pi clusterObjs) /\
    (sum_observed s = true <-> observed = true /\ forall c x, deployments clusterObjs !! c = Some x ->
      generations !! c = Some (ds_ObservedGeneration x)) /\
    sort_slice digestLess (sum_digests s) = current_digests clusterObjs.
Proof.
  intros Hread.
  destruct (sum_statuses FromUnstructured_DeploymentStatus clusterObjs (sumDeployment generations) (addDeployment generations)
    {| sum_status := no_DeploymentStatus; sum_observed := observed; sum_digests := [] |} Hread)
    as (l & Hf & Hm & Hall); [done|].
  pose proof (statuses_list _ _ _ Hm Hall) as Hp. eexists. split; [exact Hf|]. split_and!.
  - intros pi H0 Hadd. rewrite sum_total by done. unfold total. f_equal. by apply sum_list.
  - rewrite sum_observed_spec, andb_true_iff, forallb_forall. simpl. split; intros [Ho H]; (split; [done|]).
    + intros c x Hx. apply elem_of_map_to_list in Hx. rewrite <- Hp, list_elem_of_fmap in Hx.
      destruct Hx as ([c' [x' o]] & [= -> ->] & Hin). apply list_elem_of_In, H in Hin. by apply bool_decide_eq_true in Hin.
    + intros [c [x o]] Hin. apply bool_decide_eq_true, H. apply elem_of_map_to_list. rewrite <- Hp, list_elem_of_fmap.
      exists (c, (x, o)). split; [done|]. by apply list_elem_of_In.
  - rewrite sum_digests_spec, Hm. apply sorted_digests, range_map_perm.
Qed.

(** C23. When the statuses of all clusters can be read, the deployment plugin
    writes the 32-bit sums of the replica counts, whatever the order of the
    clusters; the generation becomes the observed one exactly if the clusters
    were up to date and each has observed what was last synced to it; the digests
    of the latest replica sets are written as an annotation; and it asks for an
    update exactly if the status or the annotation changes. *)
Theorem Deployment_AggregateStatuses_spec sourceObject fedObject clusterObjs (upToDate : bool) generation observedGeneration
    old (observed : bool) newStatus digests :
  FromUnstructured_Deployment (uns_Object sourceObject) = inl (generation, observedGeneration) ->
  NestedMap (uns_Object sourceObject) [StatusField] = inl old ->
  readable FromUnstructured_DeploymentStatus clusterObjs ->
  (observed = true <-> upToDate = true /\ all_observed fedObject clusterObjs) ->
  ToUnstructured_DeploymentStatus
    (deployment_status (if observed then generation else observedGeneration) clusterObjs) = inl newStatus ->
  Marshal_digests (current_digests clusterObjs) = inl digests ->
  exists sourceObject',
    Deployment_AggregateStatuses sourceObject fedObject clusterObjs upToDate =
      inl (Some (sourceObject', negb (bool_decide (old = Some newStatus) &&
        hasAnnotation sourceObject LatestReplicasetDigestsAnnotation digests))) /\
    NestedMap (uns_Object sourceObject') [StatusField] = inl (Some newStatus) /\
    (metadata_ok sourceObject = true ->
      uns_GetAnnotations sourceObject' = <[LatestReplicasetDigestsAnnotation := digests]> (uns_GetAnnotations sourceObject)).
Proof.
  intros Hdep Hold Hread Hobs Hto Hmar.
  destruct (sumDeployment_statuses (clusterSyncedGenerations fedObject) upToDate clusterObjs Hread)
    as (s & Hs & Htot & Hgen & Hdig).
  assert (sum_observed s = observed) as Eobs.
  { apply eq_iff_eq_true. rewrite Hgen. symmetry. exact Hobs. }
  unfold Deployment_AggregateStatuses. rewrite Hdep, Hs. simpl. rewrite Eobs, !Htot by done.
  fold (deployment_status (if observed then generation else observedGeneration) clusterObjs).
  rewrite Hto, (updateStatus_spec _ _ _ Hold), Hdig, Hmar.
  unfold hasAnnotation, uns_GetAnnotations. rewrite set_status_Meta.
  case_bool_decide as Ha.
  - eexists. rewrite andb_true_r. split_and!; [done|apply NestedMap_set_status|]. intros _. rewrite set_status_Meta.
    by rewrite insert_id.
  - eexists. rewrite andb_false_r. split_and!; [done| |].
    + apply NestedMap_Some. rewrite NestedField_top. destruct (Meta_SetAnnotations
        (<[LatestReplicasetDigestsAnnotation := digests]> (om_Annotations (uns_Meta sourceObject)))) as [_ _ Hother].
      rewrite Hother by done. simpl. by rewrite lookup_insert_eq.
    + intros Hok. destruct (Meta_SetAnnotations
        (<[LatestReplicasetDigestsAnnotation := digests]> (om_Annotations (uns_Meta sourceObject)))) as [Hmeta _ _].
      rewrite Hmeta by by rewrite set_status_ok. done.
Qed.
End Deployment.

(** ** Jobs *)

Lemma filter_length_all {A} (f : A -> bool) l : List.length (List.filter f l) = List.length l <-> forallb f l = true.
Proof.
  induction l as [|x l IH]; simpl; [done|]. pose proof (List.filter_length_le f l).
  destruct (f x); simpl; [rewrite <- IH; lia|split; [lia|done]].
Qed.

Lemma filter_nil_iff {A} (f : A -> bool) l : List.filter f l = [] <-> forallb (fun x => negb (f x)) l = true.
Proof. induction l as [|x l IH]; simpl; [done|]. by destruct (f x). Qed.

Lemma fmap_filter_nil {A B} (g : A -> B) (f : A -> bool) l : g <$> List.filter f l = [] <-> List.filter f l = [].
Proof. by destruct (List.filter f l). Qed.

Lemma foldl_filter {A B} (f : A -> bool) (g : A -> B) b l :
  foldl (fun a x => if f x then a ++ [g x] else a) b l = b ++ (g <$> List.filter f l).
Proof.
  revert b. induction l as [|x l IH]; intros b; simpl; [by rewrite app_nil_r|]. rewrite IH.
  destruct (f x); [|done]. by rewrite fmap_cons, <- app_assoc.
Qed.

Lemma Time_Before_irrefl t : Time_Before t t = false.
Proof. destruct t as [t|]; [|done]. simpl. unfold Time in *. lia. Qed.

Section Job.
Context `{K : Kubernetes} `{R : GoRuntime} `{C : !Codecs} `{S : !StatusLibraries}.

Abbreviation jobs := (statuses FromUnstructured_JobStatus).

Definition completed (x : JobStatus) : bool := negb (Time_IsZero (js_CompletionTime x)).
Definition failed (x : JobStatus) : bool := negb (completed x) && IsJobFinishedWithFailed x.
Definition finished (x : JobStatus) : bool := completed x || failed x.

Definition every (P : JobStatus -> bool) (clusterObjs : gmap string Unstructured) : Prop :=
  forall c x, jobs clusterObjs !! c = Some x -> P x = true.

Definition is_latest (t : option Time) (clusterObjs : gmap string Unstructured) : Prop :=
  (exists c x, jobs clusterObjs !! c = Some x /\ js_CompletionTime x = t) /\
  forall c x, jobs clusterObjs !! c = Some x -> Time_Before t (js_CompletionTime x) = false.

Definition step (s : JobSum) (e : string * (JobStatus * Unstructured)) : JobSum := addJob s e.1 e.2.1.

Lemma job_names (l : list (string * (JobStatus * Unstructured))) :
  let s := foldl step no_jobs l in
  completedJobs s = fst <$> List.filter (fun e => completed e.2.1) l /\
  failedJobs s = fst <$> List.filter (fun e => failed e.2.1) l /\
  finishedCount s = Z.of_nat (List.length (List.filter (fun e => finished e.2.1) l)).
Proof.
  intros s. subst s. split_and!.
  - rewrite (foldl_field completedJobs _ (fun a e => if completed e.2.1 then a ++ [e.1] else a)) by done.
    exact (foldl_filter (fun e : string * (JobStatus * Unstructured) => completed e.2.1) fst [] l).
  - rewrite (foldl_field failedJobs _ (fun a e => if failed e.2.1 then a ++ [e.1] else a)) by done.
    exact (foldl_filter (fun e : string * (JobStatus * Unstructured) => failed e.2.1) fst [] l).
  - rewrite (foldl_field finishedCount _ (fun a e => if finished e.2.1 then a + 1 else a)) by done.
    apply (foldl_count (fun e : string * (JobStatus * Unstructured) => finished e.2.1)).
Qed.

Lemma job_total (pi : JobSum -> Z) (f : JobStatus -> Z) (l : list (string * (JobStatus * Unstructured))) :
  pi no_jobs = 0 -> (forall s c x, pi (addJob s c x) = add32 (pi s) (f x)) ->
  pi (foldl step no_jobs l) = wrap32 (sumZ (fun e => f e.2.1) l).
Proof.
  intros H0 Hadd. rewrite (foldl_field pi _ (fun a e => add32 a (f e.2.1))) by (intros; apply Hadd).
  rewrite H0. exact (foldl_add32 (fun e : string * (JobStatus * Unstructured) => f e.2.1) 0 l).
Qed.

(** The completion time that is kept is the latest so far. *)
Lemma job_latest (l : list (string * (JobStatus * Unstructured))) :
  (exists e, e ∈ l /\ completed e.2.1 = true) ->
  (exists e, e ∈ l /\ js_CompletionTime e.2.1 = completionTime (foldl step no_jobs l)) /\
  forall e, e ∈ l -> Time_Before (completionTime (foldl step no_jobs l)) (js_CompletionTime e.2.1) = false \/
    completed e.2.1 = false.
Proof.
  set (Inv := fun (s : JobSum) (l : list (string * (JobStatus * Unstructured))) =>
    ((forall e, e ∈ l -> completed e.2.1 = false) /\ completionTime s = None) \/
    (Time_IsZero (completionTime s) = false /\
     (exists e, e ∈ l /\ js_CompletionTime e.2.1 = completionTime s) /\
     forall e, e ∈ l -> Time_Before (completionTime s) (js_CompletionTime e.2.1) = false \/ completed e.2.1 = false)).
  assert (Hinv : Inv (foldl step no_jobs l) l).
  { induction l as [|e l IH] using rev_ind; [left; split; [intros ? H; by apply elem_of_nil in H|done]|].
    rewrite foldl_app. simpl. set (s := foldl step no_jobs l) in *. unfold step, addJob. simpl.
    fold (completed e.2.1). destruct (completed e.2.1) eqn:Ec.
    - right. unfold completed in Ec. apply negb_true_iff in Ec. simpl. unfold latest.
      destruct IH as [(Hn & Ht)|(Hz & (e' & He' & Ht) & Hl)].
      + rewrite Ht. simpl. split_and!; [done|exists e; split; [set_solver|done]|].
        intros e0 [He0|He0%list_elem_of_singleton]%elem_of_app; [right; by apply Hn|subst e0; left].
        apply Time_Before_irrefl.
      + rewrite Hz. simpl. destruct (Time_Before (completionTime s) (js_CompletionTime e.2.1)) eqn:Eb.
        * split_and!; [done|exists e; split; [set_solver|done]|].
          intros e0 [He0|He0%list_elem_of_singleton]%elem_of_app; [|subst e0; left].
          -- destruct (Hl e0 He0) as [H|H]; [left|by right].
             destruct (completionTime s) as [t|], (js_CompletionTime e.2.1) as [t1|], (js_CompletionTime e0.2.1) as [t0|];
               simpl in *; try done. unfold Time in *. lia.
          -- apply Time_Before_irrefl.
        * split_and!; [done|exists e'; split; [set_solver|done]|].
          intros e0 [He0|He0%list_elem_of_singleton]%elem_of_app; [by apply Hl|subst e0; by left].
    - destruct IH as [(Hn & Ht)|(Hz & (e' & He' & Ht) & Hl)]; [left|right]; simpl.
      + split; [|done]. intros e0 [He0|He0%list_elem_of_singleton]%elem_of_app; [by apply Hn|by subst e0].
      + split_and!; [done|exists e'; split; [set_solver|done]|].
        intros e0 [He0|He0%list_elem_of_singleton]%elem_of_app; [by apply Hl|subst e0; by right]. }
  intros (e & He & Hc). destruct Hinv as [[Hn _]|(_ & H1 & H2)]; [|done]. by rewrite Hn in Hc.
Qed.

Definition job_condition (now : Time) (conditionType reason message : string) : JobCondition := {|
  jc_Type := conditionType; jc_Status := ConditionTrue; jc_LastProbeTime := now; jc_LastTransitionTime := now;
  jc_Reason := reason; jc_Message := message |}.

(** What is concluded from the jobs of the clusters. *)
Record job_outcome (now : Time) (clusterObjs : gmap string Unstructured) (js : JobStatus) : Prop := {
  jo_Active : js_Active js = wrap32 (msum (js_Active <$> jobs clusterObjs));
  jo_Succeeded : js_Succeeded js = wrap32 (msum (js_Succeeded <$> jobs clusterObjs));
  jo_Failed : js_Failed js = wrap32 (msum (js_Failed <$> jobs clusterObjs));
  jo_running : clusterObjs = ∅ \/ ~ every finished clusterObjs -> js_Conditions js = [] /\ js_CompletionTime js = None;
  jo_completed : clusterObjs <> ∅ -> every completed clusterObjs ->
    (exists message, js_Conditions js = [job_condition now JobComplete "Completed" message]) /\
    is_latest (js_CompletionTime js) clusterObjs;
  jo_mixed : every finished clusterObjs -> ~ every completed clusterObjs -> ~ every failed clusterObjs ->
    (exists message, js_Conditions js = [job_condition now JobFailed "Mixed" message]) /\ js_CompletionTime js = None;
  jo_failed : clusterObjs <> ∅ -> every failed clusterObjs ->
    (exists message, js_Conditions js = [job_condition now JobFailed "Failed" message]) /\ js_CompletionTime js = None
}.

Lemma every_list (P : JobStatus -> bool) clusterObjs (l : list (string * (JobStatus * Unstructured))) :
  prod_map id fst <$> l ≡ₚ map_to_list (jobs clusterObjs) ->
  every P clusterObjs <-> forallb (fun e => P e.2.1) l = true.
Proof.
  intros Hp. rewrite forallb_forall. unfold every. split.
  - intros H [c [x o]] Hin. apply (H c). apply elem_of_map_to_list. rewrite <- Hp, list_elem_of_fmap.
    exists (c, (x, o)). split; [done|]. by apply list_elem_of_In.
  - intros H c x Hx. apply elem_of_map_to_list in Hx. rewrite <- Hp, list_elem_of_fmap in Hx.
    destruct Hx as ([c' [x' o]] & [= -> ->] & Hin). by apply list_elem_of_In, H in Hin.
Qed.

Lemma sort_slice_nil {A} (less : A -> A -> bool) l : sort_slice less l = [] <-> l = [].
Proof.
  pose proof (sort_slice_perm A less l) as Hp. split; intros H; rewrite H in Hp;
    [by apply Permutation_nil|subst l; by apply Permutation_nil].
Qed.

Lemma jobConclusion_spec s :
  (completedJobs s <> [] -> failedJobs s = [] ->
    exists message, jobConclusion s = (JobComplete, "Completed"%string, message, completionTime s)) /\
  (completedJobs s <> [] -> failedJobs s <> [] ->
    exists message, jobConclusion s = (JobFailed, "Mixed"%string, message, None)) /\
  (completedJobs s = [] -> exists message, jobConclusion s = (JobFailed, "Failed"%string, message, None)).
Proof.
  pose proof (sort_slice_nil String.ltb (completedJobs s)) as Hc.
  pose proof (sort_slice_nil String.ltb (failedJobs s)) as Hf. unfold jobConclusion.
  destruct (sort_slice String.ltb (completedJobs s)), (sort_slice String.ltb (failedJobs s)); split_and!; intros;
    try (eexists; reflexivity); exfalso; (discriminate || intuition congruence).
Qed.

(** Of finished jobs those that did not complete failed. *)
Lemma finished_filter (l : list (string * (JobStatus * Unstructured))) : forallb (fun e => finished e.2.1) l = true ->
  (List.filter (fun e => failed e.2.1) l = [] <-> forallb (fun e => completed e.2.1) l = true) /\
  (List.filter (fun e => completed e.2.1) l = [] <-> forallb (fun e => failed e.2.1) l = true).
Proof.
  rewrite !filter_nil_iff, !forallb_forall. unfold finished, failed. intros H.
  split; split; intros Hl e He; specialize (H e He); specialize (Hl e He); simpl in *;
    destruct (completed e.2.1), (IsJobFinishedWithFailed e.2.1); done.
Qed.

Lemma jobStatusOf_running now n s : ~ (0 < finishedCount s /\ finishedCount s = n) ->
  js_Conditions (jobStatusOf now n s) = [] /\ js_CompletionTime (jobStatusOf now n s) = None.
Proof.
  intros H. unfold jobStatusOf. destruct (_ && _) eqn:E; [|done]. z_bools. by destruct H.
Qed.

Lemma jobStatusOf_finished now n s conditionType reason message completion :
  0 < finishedCount s -> finishedCount s = n -> jobConclusion s = (conditionType, reason, message, completion) ->
  js_Conditions (jobStatusOf now n s) = [job_condition now conditionType reason message] /\
  js_CompletionTime (jobStatusOf now n s) = completion.
Proof.
  intros H1 H2 Hc. unfold jobStatusOf. rewrite (proj2 (Z.ltb_lt _ _) H1), (proj2 (Z.eqb_eq _ _) H2), Hc. done.
Qed.

Lemma jobStatusOf_totals now n s :
  js_Active (jobStatusOf now n s) = jsum_Active s /\ js_Succeeded (jobStatusOf now n s) = jsum_Succeeded s /\
  js_Failed (jobStatusOf now n s) = jsum_Failed s /\ js_StartTime (jobStatusOf now n s) = jsum_StartTime s.
Proof.
  unfold jobStatusOf. destruct (_ && _); [|done]. by destruct (jobConclusion s) as [[[? ?] ?] ?].
Qed.

Lemma completed_not_failed clusterObjs (l : list (string * (JobStatus * Unstructured))) :
  prod_map id fst <$> l ≡ₚ map_to_list (jobs clusterObjs) -> (exists e, e ∈ l /\ completed e.2.1 = true) ->
  ~ every failed clusterObjs.
Proof.
  intros Hp (e & He & Hc). rewrite (every_list _ _ l Hp), forallb_forall. intros H. apply list_elem_of_In, H in He.
  unfold failed in He. by rewrite Hc in He.
Qed.

Lemma job_is_latest clusterObjs (l : list (string * (JobStatus * Unstructured))) :
  prod_map id fst <$> l ≡ₚ map_to_list (jobs clusterObjs) -> (exists e, e ∈ l /\ completed e.2.1 = true) ->
  every completed clusterObjs -> is_latest (completionTime (foldl step no_jobs l)) clusterObjs.
Proof.
  intros Hp Hex Hall. destruct (job_latest l Hex) as [([c [x o]] & He & Ht) Hl].
  assert (Hin : forall c x, jobs clusterObjs !! c = Some x <-> exists o, (c, (x, o)) ∈ l).
  { intros c0 x0. rewrite <- elem_of_map_to_list, <- Hp, list_elem_of_fmap. split.
    - intros ([c' [x' o']] & [= -> ->] & H). by exists o'.
    - intros [o' H]. by exists (c0, (x0, o')). }
  split; [exists c, x; split; [apply Hin; by exists o|done]|].
  intros c' x' Hx. pose proof (Hall c' x' Hx) as Hc. apply Hin in Hx as [o' Ho]. destruct (Hl _ Ho) as [H|H]; [done|].
  simpl in H. congruence.
Qed.

Lemma finishedCount_spec clusterObjs (l : list (string * (JobStatus * Unstructured))) :
  prod_map id snd <$> l = range_map clusterObjs -> prod_map id fst <$> l ≡ₚ map_to_list (jobs clusterObjs) ->
  let s := foldl step no_jobs l in
  (finishedCount s = Z.of_nat (size clusterObjs) <-> every finished clusterObjs) /\
  (every finished clusterObjs -> clusterObjs <> ∅ -> 0 < finishedCount s).
Proof.
  intros Hm Hp s. destruct (job_names l) as (_ & _ & Hn). fold s in Hn.
  assert (Hlen : Z.of_nat (size clusterObjs) = Z.of_nat (List.length l)).
  { rewrite <- length_map_to_list, <- range_map_perm, <- Hm, length_fmap. done. }
  assert (Hall : finishedCount s = Z.of_nat (size clusterObjs) <-> every finished clusterObjs).
  { rewrite (every_list _ _ l Hp), <- (filter_length_all (fun e => finished e.2.1)), Hn, Hlen. lia. }
  split; [done|]. intros H Hne. rewrite (proj2 Hall H). apply map_size_non_empty_iff in Hne. lia.
Qed.

Lemma job_outcome_sum now clusterObjs (l : list (string * (JobStatus * Unstructured))) :
  prod_map id snd <$> l = range_map clusterObjs -> prod_map id fst <$> l ≡ₚ map_to_list (jobs clusterObjs) ->
  job_outcome now clusterObjs (jobStatusOf now (Z.of_nat (size clusterObjs)) (foldl step no_jobs l)).
Proof.
  intros Hm Hp. set (s := foldl step no_jobs l). set (n := Z.of_nat (size clusterObjs)).
  destruct (job_names l) as (Hc & Hf & Hn). fold s in Hc, Hf, Hn.
  destruct (finishedCount_spec clusterObjs l Hm Hp) as [Hall Hpos]. fold s n in Hall, Hpos.
  pose proof (jobConclusion_spec s) as (Hcc & Hcm & Hcf).
  pose proof (jobStatusOf_totals now n s) as (Ha & Hs & Hfl & _).
  assert (Hfin : every finished clusterObjs -> (failedJobs s = [] <-> every completed clusterObjs) /\
    (completedJobs s = [] <-> every failed clusterObjs)).
  { rewrite (every_list finished _ l Hp), (every_list completed _ l Hp), (every_list failed _ l Hp), Hf, Hc,
      !fmap_filter_nil. apply finished_filter. }
  split.
  - rewrite Ha. unfold s. rewrite (job_total jsum_Active js_Active l) by done. f_equal. by apply sum_list.
  - rewrite Hs. unfold s. rewrite (job_total jsum_Succeeded js_Succeeded l) by done. f_equal. by apply sum_list.
  - rewrite Hfl. unfold s. rewrite (job_total jsum_Failed js_Failed l) by done. f_equal. by apply sum_list.
  - intros H. apply jobStatusOf_running. intros [H0 Hn']. destruct H as [->|H]; [|by apply H, Hall].
    rewrite Hn' in H0. unfold n in H0. rewrite map_size_empty in H0. lia.
  - intros Hne H. assert (every finished clusterObjs) as Hd by (intros c x Hx; unfold finished; by rewrite (H c x Hx)).
    destruct (Hfin Hd) as [Hfn Hcn]. 
    assert (Hex : exists e, e ∈ l /\ completed e.2.1 = true).
    { pose proof (Hpos Hd Hne) as Hp0. rewrite Hn in Hp0. destruct l as [|e l']; [simpl in Hp0; lia|].
      exists e. split; [by left|]. rewrite (every_list completed _ _ Hp) in H. simpl in H. by apply andb_true_iff in H as [? _]. }
    destruct (Hcc ltac:(rewrite Hcn; intros Hfa; by apply (completed_not_failed _ _ Hp Hex)) (proj2 Hfn H)) as [message Hcon].
    destruct (jobStatusOf_finished now n s _ _ _ _ (Hpos Hd Hne) (proj2 Hall Hd) Hcon) as [Hco Hct].
    split; [by exists message|]. rewrite Hct. by apply (job_is_latest _ _ Hp).
  - intros Hd Hnc Hnf. destruct (Hfin Hd) as [Hfn Hcn].
    assert (clusterObjs <> ∅) as Hne by (intros ->; apply Hnc; intros c x; unfold statuses; by rewrite omap_empty, lookup_empty).
    destruct (Hcm ltac:(by rewrite Hcn) ltac:(by rewrite Hfn)) as [message Hcon].
    destruct (jobStatusOf_finished now n s _ _ _ _ (Hpos Hd Hne) (proj2 Hall Hd) Hcon) as [Hco Hct]. eauto.
  - intros Hne H. assert (every finished clusterObjs) as Hd
      by (intros c x Hx; unfold finished; rewrite (H c x Hx); apply orb_true_r).
    destruct (Hfin Hd) as [_ Hcn]. destruct (Hcf (proj2 Hcn H)) as [message Hcon].
    destruct (jobStatusOf_finished now n s _ _ _ _ (Hpos Hd Hne) (proj2 Hall Hd) Hcon) as [Hco Hct]. eauto.
Qed.

(** When the statuses of all clusters can be read, the job plugin writes the
    32-bit sums of the pod counts, and concludes, whatever the order of the
    clusters: nothing while a job is unfinished; completion, at the latest
    completion time, when all jobs completed; otherwise failure, without a
    completion time, the reason telling apart whether some or none completed. *)
Theorem Job_AggregateStatuses_spec now sourceObject fedObject clusterObjs (upToDate : bool) old :
  NestedMap (uns_Object sourceObject) [StatusField] = inl old ->
  readable FromUnstructured_JobStatus clusterObjs ->
  exists js, job_outcome now clusterObjs js /\
    forall newStatus, ToUnstructured_JobStatus js = inl newStatus ->
      Job_AggregateStatuses now sourceObject fedObject clusterObjs upToDate =
      inl (Some ({| uns_Object := <[StatusField := VMap newStatus]> (uns_Object sourceObject) |},
        negb (bool_decide (old = Some newStatus)))).
Proof.
  intros Hold Hread.
  destruct (sum_statuses FromUnstructured_JobStatus clusterObjs sumJob step no_jobs Hread) as (l & Hf & Hm & Hall); [done|].
  eexists. split; [apply (job_outcome_sum now clusterObjs l Hm), (statuses_list _ _ _ Hm Hall)|].
  intros newStatus Hto. unfold Job_AggregateStatuses. rewrite Hf. simpl. rewrite Hto. simpl.
  by rewrite (updateStatus_spec _ _ _ Hold).
Qed.

(** The probe time of the condition is the time of the reconciliation: of a job
    that is finished everywhere every later reconciliation, in another second,
    asks for an update again. *)
Theorem finished_job_updates_again now now' sourceObject fedObject clusterObjs (upToDate : bool) sourceObject' (needUpdate : bool) :
  (forall js, exists m, ToUnstructured_JobStatus js = inl m) ->
  (exists old, NestedMap (uns_Object sourceObject) [StatusField] = inl old) ->
  readable FromUnstructured_JobStatus clusterObjs -> clusterObjs <> ∅ -> every finished clusterObjs ->
  now / second <> now' / second ->
  Job_AggregateStatuses now sourceObject fedObject clusterObjs upToDate = inl (Some (sourceObject', needUpdate)) ->
  exists sourceObject'', Job_AggregateStatuses now' sourceObject' fedObject clusterObjs upToDate = inl (Some (sourceObject'', true)).
Proof.
  intros Hto [old Hold] Hread Hne Hd Hnow.
  destruct (sum_statuses FromUnstructured_JobStatus clusterObjs sumJob step no_jobs Hread) as (l & Hf & Hm & Hall); [done|].
  pose proof (statuses_list _ _ _ Hm Hall) as Hp. destruct (finishedCount_spec clusterObjs l Hm Hp) as [Hcount Hpos].
  unfold Job_AggregateStatuses. rewrite !Hf. simpl. set (s := foldl step no_jobs l) in *.
  destruct (Hto (jobStatusOf now (Z.of_nat (size clusterObjs)) s)) as [m Em].
  destruct (Hto (jobStatusOf now' (Z.of_nat (size clusterObjs)) s)) as [m' Em'].
  rewrite Em, Em'. simpl. rewrite (updateStatus_spec _ _ _ Hold). intros [= <- <-].
  rewrite (updateStatus_spec _ m' (Some m)) by (simpl; apply NestedMap_set_status).
  assert (m <> m') as Hmm.
  { intros <-. pose proof (ToUnstructured_JobStatus_probe _ _ _ Em Em') as Ht.
    destruct (jobConclusion s) as [[[ty reason] message] completion] eqn:Ec.
    destruct (jobStatusOf_finished now _ s _ _ _ _ (Hpos Hd Hne) (proj2 Hcount Hd) Ec) as [E1 _].
    destruct (jobStatusOf_finished now' _ s _ _ _ _ (Hpos Hd Hne) (proj2 Hcount Hd) Ec) as [E2 _].
    rewrite E1, E2 in Ht. simpl in Ht. congruence. }
  simpl. rewrite bool_decide_false by congruence. by eexists.
Qed.
End Job.

(** ** Pods *)

Section Pod.
Context `{K : Kubernetes} `{R : GoRuntime} `{C : !Codecs} `{S : !StatusLibraries}.

Abbreviation pods := (statuses FromUnstructured_PodStatus).

(** A pod without a phase is pending. *)
Definition phase_of (x : PodStatus) : string := if String.eqb (pst_Phase x) "" then PodPending else pst_Phase x.

Definition some_phase (phase : string) (clusterObjs : gmap string Unstructured) : Prop :=
  exists c x, pods clusterObjs !! c = Some x /\ phase_of x = phase.

(** The containers of a pod, with the name of the cluster. *)
Definition named_containers (containers : PodStatus -> list ContainerStatus) (e : string * PodStatus) : list ContainerStatus :=
  if String.eqb (pst_Phase e.2) "" then [] else rename_container e.1 <$> containers e.2.

Record pod_outcome (clusterObjs : gmap string Unstructured) (ps : PodStatus) : Prop := {
  po_failed : some_phase PodFailed clusterObjs -> pst_Phase ps = PodFailed;
  po_pending : ~ some_phase PodFailed clusterObjs -> some_phase PodPending clusterObjs -> pst_Phase ps = PodPending;
  po_running : ~ some_phase PodFailed clusterObjs -> ~ some_phase PodPending clusterObjs ->
    some_phase PodRunning clusterObjs -> pst_Phase ps = PodRunning;
  po_succeeded : ~ some_phase PodFailed clusterObjs -> ~ some_phase PodPending clusterObjs ->
    ~ some_phase PodRunning clusterObjs -> some_phase PodSucceeded clusterObjs -> pst_Phase ps = PodSucceeded;
  po_init : pst_InitContainerStatuses ps ≡ₚ
    concat (named_containers pst_InitContainerStatuses <$> map_to_list (pods clusterObjs));
  po_containers : pst_ContainerStatuses ps ≡ₚ
    concat (named_containers pst_ContainerStatuses <$> map_to_list (pods clusterObjs));
  po_sorted : StronglySorted (sorted_rel containerLess) (pst_ContainerStatuses ps)
}.

Definition pod_step (s : PodSum) (e : string * (PodStatus * Unstructured)) : PodSum := addPod s e.1 e.2.1.

Lemma phase_clusters_add phases phase c p :
  phase_clusters (addPhase phases phase c) p =
    if String.eqb phase p then phase_clusters phases p ++ [c] else phase_clusters phases p.
Proof.
  unfold phase_clusters, addPhase. destruct (String.eqb_spec phase p) as [->|Hne].
  - by rewrite lookup_insert_eq.
  - by rewrite lookup_insert_ne.
Qed.

Lemma no_pods_clusters p : phase_clusters (phases no_pods) p = [].
Proof.
  unfold phase_clusters, no_pods. cbn -[insert lookup].
  by repeat (rewrite lookup_insert; case_decide; [done|]).
Qed.

Lemma pod_phases (l : list (string * (PodStatus * Unstructured))) p :
  phase_clusters (phases (foldl pod_step no_pods l)) p =
  fst <$> List.filter (fun e => String.eqb (phase_of e.2.1) p) l.
Proof.
  rewrite (foldl_field (fun s => phase_clusters (phases s) p) _
    (fun a e => if String.eqb (phase_of e.2.1) p then a ++ [e.1] else a)).
  - rewrite no_pods_clusters.
    exact (foldl_filter (fun e : string * (PodStatus * Unstructured) => String.eqb (phase_of e.2.1) p) fst [] l).
  - intros s e. unfold pod_step, addPod, phase_of.
    destruct (String.eqb (pst_Phase e.2.1) ""); apply phase_clusters_add.
Qed.

Lemma some_phase_list p clusterObjs (l : list (string * (PodStatus * Unstructured))) :
  prod_map id fst <$> l ≡ₚ map_to_list (pods clusterObjs) ->
  some_phase p clusterObjs <-> phase_clusters (phases (foldl pod_step no_pods l)) p <> [].
Proof.
  intros Hp. rewrite pod_phases, fmap_filter_nil, filter_nil_iff. split.
  - intros (c & x & Hx & Hph). apply elem_of_map_to_list in Hx. rewrite <- Hp, list_elem_of_fmap in Hx.
    destruct Hx as ([c' [x' o]] & [= -> ->] & Hin). rewrite forallb_forall. intros H. apply list_elem_of_In, H in Hin.
    simpl in Hin. by rewrite Hph, String.eqb_refl in Hin.
  - intros H. apply not_true_iff_false in H. destruct (existsb (fun e => String.eqb (phase_of e.2.1) p) l) eqn:E.
    + apply existsb_exists in E as ([c [x o]] & Hin & Hph). simpl in Hph. exists c, x. split; [|by apply String.eqb_eq].
      apply elem_of_map_to_list. rewrite <- Hp, list_elem_of_fmap. exists (c, (x, o)). split; [done|]. by apply list_elem_of_In.
    + exfalso. revert H. apply eq_true_false_abs. apply forallb_forall. intros e He. apply negb_true_iff.
      destruct (String.eqb _ _) eqn:Ee; [|done]. rewrite <- E. symmetry. apply existsb_exists. by exists e.
Qed.

(** The first of the four phases that some cluster has. *)
Lemma aggregatePhases_first ph : (aggregatePhases ph).1 =
  match List.find (fun p => match phase_clusters ph p with [] => false | _ => true end)
    [PodFailed; PodPending; PodRunning; PodSucceeded] with
  | Some p => p
  | None => ""%string
  end.
Proof.
  assert (Hkeep : forall l s, s.1 <> ""%string -> (foldl (mentionPhase ph) s l).1 = s.1).
  { induction l as [|p l IH]; intros [a m] Ha; [done|]. simpl. rewrite IH; simpl in *;
      destruct (phase_clusters ph p); try done; apply String.eqb_neq in Ha; rewrite Ha; [done|by apply String.eqb_neq]. }
  unfold aggregatePhases.
  assert (Hfirst : forall l m, Forall (fun p => p <> ""%string) l -> (foldl (mentionPhase ph) (""%string, m) l).1 =
    match List.find (fun p => match phase_clusters ph p with [] => false | _ => true end) l with Some p => p | None => ""%string end).
  { induction l as [|p l IH]; intros m Hl; [done|]. inversion_clear Hl as [|? ? Hp Hl'].
    cbn [List.find foldl]. unfold mentionPhase at 2. destruct (phase_clusters ph p); [by apply IH|].
    by rewrite Hkeep. }
  apply Hfirst. by repeat constructor.
Qed.

Lemma pod_containers (field : PodSum -> list ContainerStatus) containers clusterObjs
    (l : list (string * (PodStatus * Unstructured))) :
  prod_map id fst <$> l ≡ₚ map_to_list (pods clusterObjs) -> field no_pods = [] ->
  (forall s c x, field (addPod s c x) = field s ++ named_containers containers (c, x)) ->
  field (foldl pod_step no_pods l) ≡ₚ concat (named_containers containers <$> map_to_list (pods clusterObjs)).
Proof.
  intros Hp H0 Hadd.
  rewrite (foldl_field field _ (fun a e => a ++ named_containers containers (prod_map id fst e))) by (intros; apply Hadd).
  rewrite foldl_app_list, H0, <- Hp, <- list_fmap_compose. done.
Qed.

Lemma pod_outcome_sum clusterObjs (l : list (string * (PodStatus * Unstructured))) :
  prod_map id fst <$> l ≡ₚ map_to_list (pods clusterObjs) ->
  pod_outcome clusterObjs (podStatusOf (foldl pod_step no_pods l)).
Proof.
  intros Hp. set (s := foldl pod_step no_pods l).
  assert (Hphase : forall p, some_phase p clusterObjs <->
    match phase_clusters (phases s) p with [] => false | _ => true end = true).
  { intros p. rewrite (some_phase_list p _ l Hp). fold s. by destruct (phase_clusters (phases s) p). }
  pose proof (aggregatePhases_first (phases s)) as Hfirst. simpl in Hfirst.
  unfold podStatusOf. destruct (aggregatePhases (phases s)) as [phase message]. simpl in Hfirst. subst phase.
  split; rewrite ?Hphase; simpl; intros;
    repeat match goal with H : ?b = true |- _ => rewrite H; clear H | H : ~ ?b = true |- _ =>
      apply not_true_is_false in H; rewrite H; clear H end; try done.
  - rewrite sort_slice_perm. apply (pod_containers psum_InitContainers _ clusterObjs l Hp); [done|].
    intros s' c x. unfold addPod, named_containers. simpl. destruct (String.eqb _ _); simpl; by rewrite ?app_nil_r.
  - rewrite sort_slice_perm. apply (pod_containers psum_Containers _ clusterObjs l Hp); [done|].
    intros s' c x. unfold addPod, named_containers. simpl. destruct (String.eqb _ _); simpl; by rewrite ?app_nil_r.
  - apply sort_slice_sorted. unfold containerLess. apply swo_on, swo_string.
Qed.

(** When the statuses of all clusters can be read, the pod plugin writes the
    first of the phases failed, pending, running and succeeded that a cluster has,
    a pod without a phase counting as pending, and the statuses of all containers,
    named after their clusters and sorted. *)
Theorem Pod_AggregateStatuses_spec sourceObject fedObject clusterObjs (upToDate : bool) old :
  NestedMap (uns_Object sourceObject) [StatusField] = inl old ->
  readable FromUnstructured_PodStatus clusterObjs ->
  exists ps, pod_outcome clusterObjs ps /\
    forall newStatus, ToUnstructured_PodStatus ps = inl newStatus ->
      Pod_AggregateStatuses sourceObject fedObject clusterObjs upToDate =
      inl (Some ({| uns_Object := <[StatusField := VMap newStatus]> (uns_Object sourceObject) |},
        negb (bool_decide (old = Some newStatus)))).
Proof.
  intros Hold Hread.
  destruct (sum_statuses FromUnstructured_PodStatus clusterObjs sumPod pod_step no_pods Hread) as (l & Hf & Hm & Hall); [done|].
  eexists. split; [apply (pod_outcome_sum clusterObjs l), (statuses_list _ _ _ Hm Hall)|].
  intros newStatus Hto. unfold Pod_AggregateStatuses. rewrite Hf. simpl. rewrite Hto. simpl.
  by rewrite (updateStatus_spec _ _ _ Hold).
Qed.
End Pod.

(** ** Clusters without a status *)

Section Statusless.
Context `{K : Kubernetes} `{R : GoRuntime} `{C : !Codecs} `{D : !DigestCodecs} `{S : !StatusLibraries}.

Lemma foldl_error_stops {A B} (step : A -> B -> A + option string) a l :
  (forall a b, b ∈ l -> (exists a', step a b = inl a') \/ step a b = inr None) ->
  (exists b, b ∈ l /\ forall a, step a b = inr None) -> foldl_error step a l = inr None.
Proof.
  revert a. induction l as [|b l IH]; intros a Hl (b' & Hb' & Hs); [by apply elem_of_nil in Hb'|]. simpl.
  apply elem_of_cons in Hb' as [->|Hb']; [by rewrite Hs|].
  destruct (Hl a b) as [[a' ->]| ->]; [by left| |done]. simpl. apply IH; [|by exists b'].
  intros a0 b0 Hb0. apply Hl. by right.
Qed.

Lemma statusless_stops {A B} (conv : Object -> A + string) (clusterObjs : gmap string Unstructured)
    (step : B -> string * Unstructured -> B + option string) (add : B -> string -> Unstructured -> A -> B) b :
  (forall b c o, step b (c, o) = bind_error (clusterStatus o) (fun status =>
     bind_error (converted (conv status)) (fun x => inl (add b c o x)))) ->
  (forall c o, clusterObjs !! c = Some o ->
     NestedMap (uns_Object o) [StatusField] = inl None \/ is_Some (member_status conv o)) ->
  (exists c o, clusterObjs !! c = Some o /\ NestedMap (uns_Object o) [StatusField] = inl None) ->
  foldl_error step b (range_map clusterObjs) = inr None.
Proof.
  intros Hstep Hall (c & o & Ho & Hn). apply foldl_error_stops.
  - intros b' [c' o'] Hin. apply elem_of_range_map, Hall in Hin. rewrite Hstep. unfold clusterStatus, member_status in *.
    destruct Hin as [-> |[x Hx]]; [by right|left]. destruct (NestedMap (uns_Object o') _) as [[status|]|];
      [|done..]. simpl. destruct (conv status); [by eexists|done].
  - exists (c, o). split; [by apply elem_of_range_map|]. intros b'. rewrite Hstep. unfold clusterStatus. by rewrite Hn.
Qed.

(** One cluster object without a status, and the plugin returns nothing, without
    an error: no cluster's status is aggregated. *)
Theorem statusless_cluster_blocks now sourceObject fedObject clusterObjs (upToDate : bool) :
  (exists c o, clusterObjs !! c = Some o /\ NestedMap (uns_Object o) [StatusField] = inl None) ->
  ((exists g, FromUnstructured_Deployment (uns_Object sourceObject) = inl g) ->
    (forall c o, clusterObjs !! c = Some o -> NestedMap (uns_Object o) [StatusField] = inl None \/
      is_Some (member_status FromUnstructured_DeploymentStatus o)) ->
    Deployment_AggregateStatuses sourceObject fedObject clusterObjs upToDate = inl None) /\
  ((forall c o, clusterObjs !! c = Some o -> NestedMap (uns_Object o) [StatusField] = inl None \/
      is_Some (member_status FromUnstructured_JobStatus o)) ->
    Job_AggregateStatuses now sourceObject fedObject clusterObjs upToDate = inl None) /\
  ((forall c o, clusterObjs !! c = Some o -> NestedMap (uns_Object o) [StatusField] = inl None \/
      is_Some (member_status FromUnstructured_PodStatus o)) ->
    Pod_AggregateStatuses sourceObject fedObject clusterObjs upToDate = inl None).
Proof.
  intros Hex. split_and!; [intros [[g g'] Hg]|..]; intros Hall.
  - unfold Deployment_AggregateStatuses. rewrite Hg.
    by rewrite (statusless_stops FromUnstructured_DeploymentStatus _ _ (fun s c o x =>
      addDeployment (clusterSyncedGenerations fedObject) s (c, (x, o)))).
  - unfold Job_AggregateStatuses. by rewrite (statusless_stops FromUnstructured_JobStatus _ _ (fun s c o x => addJob s c x)).
  - unfold Pod_AggregateStatuses. by rewrite (statusless_stops FromUnstructured_PodStatus _ _ (fun s c o x => addPod s c x)).
Qed.
End Statusless.

(** ** Examples *)

Section Witnesses.
#[local] Existing Instance small_kubernetes.
#[local] Existing Instance small_runtime.
#[local] Existing Instance small_codecs.
#[local] Existing Instance small_statuses.
#[local] Existing Instance small_digests.

Lemma map_eval {A} (P : string -> A -> bool) (m : gmap string A) :
  forallb (fun e => P e.1 e.2) (map_to_list m) = true -> forall c x, m !! c = Some x -> P c x = true.
Proof.
  rewrite forallb_forall. intros H c x Hx. apply (H (c, x)). apply list_elem_of_In. by apply elem_of_map_to_list.
Qed.

Lemma readable_eval {A} (conv : Object -> A + string) clusterObjs :
  forallb (fun e => bool_decide (is_Some (member_status conv e.2))) (map_to_list clusterObjs) = true ->
  readable conv clusterObjs.
Proof. intros H c o Ho. apply (map_eval (fun _ o => bool_decide (is_Some (member_status conv o))) _ H) in Ho. by z_bools. Qed.

Definition member (generation : Z) (annotations : gmap string string) (status : Object) : Unstructured := {|
  uns_Object := list_to_map [
    ("metadata", VMap (list_to_map [("name", VString "web"); ("generation", VInt generation);
                                    ("annotations", strings_value annotations)]));
    ("status", VMap status)]%string |}.

Definition web_status (generation replicas : Z) : Object :=
  list_to_map [("observedGeneration", VInt generation); ("replicas", VInt replicas)]%string.

Definition web_digest (generation : Z) : gmap string string := list_to_map [
  (LatestReplicasetNameAnnotation, "web-1"%string); (LatestReplicasetReplicasAnnotation, "3"%string);
  (LatestReplicasetAvailableReplicasAnnotation, "3"%string); (LatestReplicasetReadyReplicasAnnotation, "3"%string);
  (LatestReplicasetObservedGenerationAnnotation, decimal generation); (SourceGenerationAnnotation, "7"%string)].

Definition web_members : gmap string Unstructured :=
  list_to_map [("b"%string, member 5 ∅ (web_status 5 4)); ("a"%string, member 2 (web_digest 2) (web_status 2 3))].

Definition fed_web : FederatedObject := {|
  fo_Namespace := "default"; fo_Name := "web"; fo_Labels := ∅; fo_Annotations := ∅; fo_OwnerReferences := [];
  fo_Generation := 1; fo_DeletionTimestamp := None; fo_Finalizers := [];
  fo_Spec := {| Template := "0"; Overrides := []; Placements := []; Follows := [] |};
  fo_Status := {| SyncedGeneration := 1; gs_Conditions := [];
    gs_Clusters := [{| prs_Cluster := "a"; prs_Status := ClusterPropagationOK; LastObservedGeneration := 2 |};
                    {| prs_Cluster := "b"; prs_Status := ClusterPropagationOK; LastObservedGeneration := 5 |}] |} |}.

(** A source object whose status is not up to date. *)
Definition web_source : Unstructured := member 7 ∅ (web_status 6 3).

Lemma Deployment_AggregateStatuses_spec_witness : exists sourceObject',
  Deployment_AggregateStatuses web_source fed_web web_members true = inl (Some (sourceObject', true)) /\
  NestedMap (uns_Object sourceObject') [StatusField] = inl (Some (web_status 7 7)) /\
  uns_GetAnnotations sourceObject' = {[ LatestReplicasetDigestsAnnotation := "a:web-1"%string ]}.
Proof.
  destruct (Deployment_AggregateStatuses_spec web_source fed_web web_members true 7 6 (Some (web_status 6 3)) true
    (web_status 7 7) "a:web-1") as (s & H1 & H2 & H3).
  - vm_compute; reflexivity.
  - apply (bool_decide_eq_true_1 _). vm_compute; reflexivity.
  - apply readable_eval. vm_compute; reflexivity.
  - split; [|done]. intros _. split; [done|]. intros c x Hx.
    apply (map_eval (fun c x => bool_decide (clusterSyncedGenerations fed_web !! c = Some (ds_ObservedGeneration x)))) in Hx;
      [by z_bools|vm_compute; reflexivity].
  - apply (bool_decide_eq_true_1 _). vm_compute; reflexivity.
  - vm_compute; reflexivity.
  - exists s. split_and!.
    + rewrite H1. do 3 f_equal; vm_compute; reflexivity.
    + exact H2.
    + rewrite H3 by (vm_compute; reflexivity). apply (bool_decide_eq_true_1 _). vm_compute; reflexivity.
Defined.

(** A job that completed in one cluster and failed in the other. *)
Definition job_members : gmap string Unstructured := list_to_map [
  ("a"%string, member 1 ∅ (list_to_map [("succeeded", VInt 2); ("completionTime", VInt 50)]%string));
  ("b"%string, member 1 ∅ (list_to_map [("failed", VInt 1);
     ("conditions", VList [small_ToJobCondition (job_condition 0 JobFailed "" "")])]%string))].

Lemma Job_AggregateStatuses_spec_witness :
  exists js, job_outcome 100 job_members js /\ forall newStatus, ToUnstructured_JobStatus js = inl newStatus ->
    Job_AggregateStatuses 100 web_source fed_web job_members true =
    inl (Some ({| uns_Object := <[StatusField := VMap newStatus]> (uns_Object web_source) |},
      negb (bool_decide (Some (web_status 6 3) = Some newStatus)))).
Proof.
  apply (Job_AggregateStatuses_spec 100 web_source fed_web job_members true (Some (web_status 6 3))).
  - apply (bool_decide_eq_true_1 _). vm_compute; reflexivity.
  - apply readable_eval. vm_compute; reflexivity.
Defined.

Definition pod_members : gmap string Unstructured := list_to_map [
  ("a"%string, member 1 ∅ (list_to_map [("phase", VString PodRunning);
     ("containerStatuses", VList [VMap (list_to_map [("name", VString "main")])])]%string));
  ("b"%string, member 1 ∅ ∅)].

Lemma Pod_AggregateStatuses_spec_witness :
  exists ps, pod_outcome pod_members ps /\ forall newStatus, ToUnstructured_PodStatus ps = inl newStatus ->
    Pod_AggregateStatuses web_source fed_web pod_members true =
    inl (Some ({| uns_Object := <[StatusField := VMap newStatus]> (uns_Object web_source) |},
      negb (bool_decide (Some (web_status 6 3) = Some newStatus)))).
Proof.
  apply (Pod_AggregateStatuses_spec web_source fed_web pod_members true (Some (web_status 6 3))).
  - apply (bool_decide_eq_true_1 _). vm_compute; reflexivity.
  - apply readable_eval. vm_compute; reflexivity.
Defined.

(** What the plugins make of them. *)
Example job_example : match Job_AggregateStatuses 100 web_source fed_web job_members true with
  | inl (Some (o, true)) => NestedMap (uns_Object o) [StatusField] = inl (Some (list_to_map [
      ("conditions", VList [small_ToJobCondition (job_condition 0 JobFailed "Mixed"
         "Job completed in clusters [a] and failed in member clusters [b]")]);
      ("succeeded", VInt 2); ("failed", VInt 1)]%string))
  | _ => False
  end.
Proof. vm_compute. reflexivity. Qed.

Example pod_example : match Pod_AggregateStatuses web_source fed_web pod_members true with
  | inl (Some (o, true)) => NestedMap (uns_Object o) [StatusField] = inl (Some (list_to_map [
      ("phase", VString PodPending); ("message", VString "Pod pending in clusters [b], and running in clusters [a]");
      ("containerStatuses", VList [VMap (list_to_map [("name", VString "main (a)")])])]%string))
  | _ => False
  end.
Proof. vm_compute. reflexivity. Qed.
End Witnesses.
