(* ===== verification/StatusAggregatorTheorems.v ===== *)
(** * What the status aggregator sends

    Its requests change the annotations that report back and the status of the
    source object, and nothing else; the annotation with the digests of replica
    sets never reaches the API server. *)

From Stdlib Require Import ZArith Lia String Ascii.
From S2P Require Import Prelude GoStrings K8s Types ApiTypes Unstructured Codecs FedObject PodUtil Retain Naming Sync.
From S2P Require Import SyncTheorems Federate FederateLibrary Digests StatusPlugins StatusAggregator.
From S2P Require Import StatusPluginsTheorems.

(** ** Feedback annotations *)

Lemma populateAnnotation_spec annotations fedAnnotations key annotations' (b : bool) :
  populateAnnotation annotations fedAnnotations key = (annotations', b) ->
  (forall k, k <> key -> default ∅ annotations' !! k = default ∅ annotations !! k) /\
  (fedAnnotations !! key <> Some ""%string -> default ∅ annotations' !! key = fedAnnotations !! key) /\
  (b = false -> default ∅ annotations' = default ∅ annotations) /\
  (default ∅ annotations' !! key = default ∅ annotations !! key -> b = false).
Proof.
  unfold populateAnnotation. destruct annotations as [m|]; simpl.
  - destruct (fedAnnotations !! key) as [v|] eqn:Ef; simpl.
    + destruct (String.eqb_spec (default ""%string (m !! key)) v) as [E|E]; simpl; intros [= <- <-]; simpl; split_and!; try done.
      * intros Hv. destruct (m !! key) as [v'|]; simpl in E; congruence.
      * intros k Hk. by rewrite lookup_insert_ne.
      * intros _. apply lookup_insert_eq.
      * intros Em. rewrite lookup_insert_eq in Em. by rewrite <- Em in E.
    + case_bool_decide as Em; intros [= <- <-]; simpl; split_and!; try done.
      * intros k Hk. by rewrite lookup_delete_ne.
      * intros _. apply lookup_delete_eq.
      * intros E. rewrite lookup_delete_eq in E. rewrite <- E in Em. by destruct Em.
      * intros _. by apply eq_None_not_Some.
  - destruct (fedAnnotations !! key) as [v|] eqn:Ef; intros [= <- <-]; simpl; split_and!; try done.
    + intros k Hk. by rewrite lookup_singleton_ne, lookup_empty.
    + intros _. apply lookup_singleton_eq.
    + by rewrite lookup_singleton_eq, lookup_empty.
Qed.

Section Feedback.
Context `{K : Kubernetes} `{R : GoRuntime} `{C : !Codecs} `{L : !FederateLibraries}.

Lemma annotationsOf_default u : default ∅ (annotationsOf u) = uns_GetAnnotations u.
Proof.
  unfold annotationsOf, uns_GetAnnotations.
  destruct (NestedFieldNoCopy (uns_Object u) ["metadata"%string; "annotations"%string]) as [[[]|]|] eqn:E; simpl;
    try done; symmetry; apply GetAnnotations_absent; congruence.
Qed.

(** [src'] is [src] with the feedback annotations of the federated object: they
    have its values, are gone where it has none (an empty value may be left out),
    and nothing else of the object differs; an update is needed exactly if an
    annotation differs. *)
Record fed_back (fed : FederatedObject) (src src' : Unstructured) (needUpdate : bool) : Prop := {
  fb_known : forall k, k ∈ knownAnnotations -> fo_Annotations fed !! k <> Some ""%string ->
    uns_GetAnnotations src' !! k = fo_Annotations fed !! k;
  fb_other : forall k, k ∉ knownAnnotations -> uns_GetAnnotations src' !! k = uns_GetAnnotations src !! k;
  fb_meta : uns_Meta src' = with_annotations (uns_GetAnnotations src') (uns_Meta src);
  fb_object : forall k, k <> "metadata"%string -> uns_Object src' !! k = uns_Object src !! k;
  fb_needed : needUpdate = true <-> uns_GetAnnotations src' <> uns_GetAnnotations src
}.

Lemma PopulateAnnotations_spec sourceObject fedObject sourceObject' (needUpdate : bool) :
  PopulateAnnotations sourceObject fedObject = (sourceObject', needUpdate) -> metadata_ok sourceObject = true ->
  fed_back fedObject sourceObject sourceObject' needUpdate.
Proof.
  intros H Hok. unfold PopulateAnnotations in H. cbn [foldl knownAnnotations] in H.
  destruct (populateAnnotation (annotationsOf sourceObject) _ _) as [m1 b1] eqn:E1.
  destruct (populateAnnotation m1 _ _) as [m2 b2] eqn:E2. injection H as <- <-.
  apply populateAnnotation_spec in E1 as (O1 & K1 & F1 & N1), E2 as (O2 & K2 & F2 & N2).
  rewrite annotationsOf_default in O1, F1, N1.
  destruct (Meta_SetAnnotations (default ∅ m2)) as [Hmeta _ Hother].
  assert (Hann : uns_GetAnnotations (uns_SetAnnotations (default ∅ m2) sourceObject) = default ∅ m2)
    by (unfold uns_GetAnnotations; by rewrite Hmeta).
  split; rewrite ?Hann.
  - intros k [->| ->%list_elem_of_singleton]%elem_of_cons Hv; [|by apply K2]. rewrite O2 by done. by apply K1.
  - intros k Hk. unfold knownAnnotations in Hk. rewrite O2, O1 by set_solver. done.
  - by rewrite Hmeta.
  - intros k Hk. by apply Hother.
  - rewrite <- not_false_iff_true. simpl. apply not_iff_compat. split.
    + intros [-> ->]%orb_false_iff. by rewrite F2, F1.
    + intros Heq. apply orb_false_iff. split.
      * apply N1. rewrite <- O2 by done. by rewrite Heq.
      * apply N2. by rewrite Heq, O1 by done.
Qed.
End Feedback.

(** ** Requests *)

Inductive AggregatorRequest :=
  | UpdateSource (gvr : GroupVersionResource) (namespace : string) (u : Unstructured)
  | UpdateSourceStatus (gvr : GroupVersionResource) (namespace : string) (u : Unstructured).

(** A server that records the requests that change objects. *)
Definition logged {W} (S : AggregationServer W) : AggregationServer (W * list AggregatorRequest) := {|
  sao_Update := fun '(w, log) gvr namespace u =>
    let '(w, err) := sao_Update w gvr namespace u in ((w, log ++ [UpdateSource gvr namespace u]), err);
  sao_Get := fun '(w, _) gvr namespace name => sao_Get w gvr namespace name;
  sao_UpdateStatus := fun '(w, log) gvr namespace u =>
    let '(w, err) := sao_UpdateStatus w gvr namespace u in ((w, log ++ [UpdateSourceStatus gvr namespace u]), err)
|}.

Section Requests.
Context `{K : Kubernetes} `{R : GoRuntime} `{C : !Codecs} `{L : !FederateLibraries} `{D : !DigestCodecs} `{SL : !StatusLibraries}.
Context {W : Type} (S : AggregationServer W) (a : StatusAggregator) (now : Time).

(** What a reconciliation needs to go on to the aggregation. *)
Record aggregation_input (key : reconcileKey) (ftc : FederatedTypeConfig) (src : Unstructured) (fed : FederatedObject)
    (objs : gmap string Unstructured) (upToDate : bool) : Prop := {
  ai_ftc : sa_ResourceFTC a (rk_gvk key) = Some ftc;
  ai_enabled : StatusAggregationEnabled ftc = true;
  ai_src : getObjectFromStore a key "" = inl src;
  ai_src_alive : uns_GetDeletionTimestamp src = None;
  ai_fed : sa_GetFromLister a (rk_namespace key) (GenerateFederatedObjectName (rk_name key) (ftc_Name ftc)) = inl fed;
  ai_fed_alive : fo_DeletionTimestamp fed = None;
  ai_objs : clusterObjs a key = inl objs;
  ai_propagated : IsResourcePropagated (Some src) (Some fed) = inl upToDate
}.

(** The plugin asks for an update to the status of [obj]. *)
Definition asks (key : reconcileKey) (src : Unstructured) (fed : FederatedObject) (objs : gmap string Unstructured)
    (upToDate : bool) (obj : Unstructured) : Prop :=
  exists plugin, GetPlugin now (rk_gvk key) = Some plugin /\ plugin src fed objs upToDate = inl (Some (obj, true)).

(** The latest version of the source object, with the status of [obj]. *)
Definition status_request (key : reconcileKey) (ftc : FederatedTypeConfig) (obj : Unstructured) (req : AggregatorRequest)
    : Prop :=
  exists w latest o, req = UpdateSourceStatus (GetSourceTypeGVR ftc) (rk_namespace key) o /\
    sao_Get w (GetSourceTypeGVR ftc) (rk_namespace key) (rk_name key) = inl latest /\
    uns_Object o !! "status"%string = uns_Object obj !! "status"%string /\
    forall k, k <> "status"%string -> uns_Object o !! k = uns_Object latest !! k.

Definition status_part (key : reconcileKey) (ftc : FederatedTypeConfig) (src : Unstructured) (fed : FederatedObject)
    (objs : gmap string Unstructured) (upToDate : bool) (r : WorkerResult) (log : list AggregatorRequest) : Prop :=
  (log = [] /\ (r = StatusAllOK -> forall obj, ~ asks key src fed objs upToDate obj)) \/
  (exists obj req, log = [req] /\ asks key src fed objs upToDate obj /\ status_request key ftc obj req).

Lemma aggregate_requests key ftc src fed objs upToDate w log w' log' r :
  aggregate (S := logged S) now (w, log) ftc key src fed objs upToDate = ((w', log'), r) ->
  exists log1, log' = log ++ log1 /\ status_part key ftc src fed objs upToDate r log1.
Proof.
  unfold aggregate, status_part, asks. destruct (GetPlugin now (rk_gvk key)) as [plugin|] eqn:Ep.
  2: { intros [= <- <- <-]. exists []. rewrite app_nil_r. split; [done|left]. split; [done|].
       by intros _ obj (plugin & [= ] & _). }
  destruct (plugin src fed objs upToDate) as [[[obj [|]]|]|err] eqn:Eq; try (intros [= <- <- <-]; exists []; rewrite app_nil_r;
    split; [done|left]; split; [done|]; intros ? obj' (plugin' & [= <-] & H); congruence).
  unfold writeStatus. simpl. destruct (sao_Get w _ _ _) as [latest|] eqn:Eg.
  2: { intros [= <- <- <-]. exists []. by rewrite app_nil_r; split; [done|left]. }
  destruct (NestedMap (uns_Object obj) _) as [[status|]|] eqn:En;
    try (intros [= <- <- <-]; exists []; by rewrite app_nil_r; split; [done|left]).
  rewrite SetNestedField_top. destruct (sao_UpdateStatus w _ _ _) as [w1 err] eqn:Eu.
  intros H. exists [UpdateSourceStatus (GetSourceTypeGVR ftc) (rk_namespace key)
    {| uns_Object := <["status"%string := VMap status]> (uns_Object latest) |}].
  split; [destruct err; by injection H as <- <- <-|right].
  eexists obj, _. split; [done|]. split; [by exists plugin|]. eexists w, latest, _. split_and!; [done..| |].
  - simpl. rewrite lookup_insert_eq. apply NestedMap_Some in En. rewrite NestedField_top in En. by injection En as ->.
  - intros k Hk. simpl. by rewrite lookup_insert_ne.
Qed.

Ltac nothing_sent :=
  intros [= <- <- <-]; left; split; [done|]; intros ? ? ? ? ? [A1 A2 A3 A4 A5 A6 A7 A8]; simplify_eq;
  try match goal with H : is_Some _ |- _ => destruct H end; congruence.

(** C22. A reconciliation sends nothing when the kind is not aggregated, the source
    or the federated object is missing or being deleted, or a cache fails.
    Otherwise it first updates the source object, exactly if a feedback
    annotation differs, to one that differs in the feedback annotations only;
    and unless that fails it then sends the latest version of the source object
    in which the status, and nothing else, is replaced by the one that the
    plugin computed; when it succeeds it has sent a status exactly if the plugin
    asked for it.  The metadata of the source object are well-formed. *)
Theorem aggregator_requests key w w' log r :
  (forall src, getObjectFromStore a key "" = inl src -> metadata_ok src = true) ->
  reconcile (S := logged S) a now (w, []) key = ((w', log), r) ->
  (log = [] /\ forall ftc src fed objs upToDate, ~ aggregation_input key ftc src fed objs upToDate) \/
  exists ftc src fed objs upToDate src' (needUpdate : bool) log1,
    aggregation_input key ftc src fed objs upToDate /\ fed_back fed src src' needUpdate /\
    log = (if needUpdate then [UpdateSource (GetSourceTypeGVR ftc) (rk_namespace key) src'] else []) ++ log1 /\
    (needUpdate = true /\ log1 = [] /\ r <> StatusAllOK \/ status_part key ftc src' fed objs upToDate r log1).
Proof.
  intros Hok. unfold reconcile, getFTCIfStatusAggregationIsEnabled.
  destruct (sa_ResourceFTC a (rk_gvk key)) as [ftc|] eqn:E1; [|nothing_sent].
  destruct (StatusAggregationEnabled ftc) eqn:E2; [|nothing_sent].
  destruct (getObjectFromStore a key "") as [src|] eqn:E3; [|nothing_sent]. specialize (Hok src eq_refl).
  case_bool_decide as E4; [nothing_sent|]. destruct (sa_GetFromLister a _ _) as [fed|] eqn:E5; [|nothing_sent].
  case_bool_decide as E6; [nothing_sent|]. destruct (clusterObjs a key) as [objs|] eqn:E7; [|nothing_sent].
  destruct (IsResourcePropagated _ _) as [upToDate|] eqn:E8; [|nothing_sent].
  intros H. right. unfold feedback in H. destruct (PopulateAnnotations src fed) as [src' needUpdate] eqn:E9.
  apply PopulateAnnotations_spec in E9; [|done].
  assert (exists log1, log = (if needUpdate then [UpdateSource (GetSourceTypeGVR ftc) (rk_namespace key) src'] else []) ++ log1 /\
    (needUpdate = true /\ log1 = [] /\ r <> StatusAllOK \/ status_part key ftc src' fed objs upToDate r log1))
    as (log1 & Hlog & Hpart).
  - destruct needUpdate.
    + simpl in H. destruct (sao_Update w _ _ _) as [w1 [err|]].
      * injection H as <- <- <-. exists []. split; [done|left]. split_and!; [done..|]. by destruct (IsConflict err).
      * apply aggregate_requests in H as (log1 & -> & H). exists log1. split; [done|by right].
    + apply aggregate_requests in H as (log1 & -> & H). exists log1. split; [done|by right].
  - exists ftc, src, fed, objs, upToDate, src', needUpdate, log1. split_and!; [|done..].
    split; try done; by apply eq_None_not_Some.
Qed.
End Requests.

(** ** Digests of replica sets *)

Section Digests.
Context `{K : Kubernetes} `{R : GoRuntime} `{C : !Codecs} `{L : !FederateLibraries} `{D : !DigestCodecs} `{SL : !StatusLibraries}.
Context {W : Type} (S : AggregationServer W) (a : StatusAggregator) (now : Time).

(** A deployment that needs no update is returned as it is. *)
Lemma Deployment_unchanged src fed objs upToDate obj :
  Deployment_AggregateStatuses src fed objs upToDate = inl (Some (obj, false)) -> obj = src.
Proof.
  unfold Deployment_AggregateStatuses. destruct (FromUnstructured_Deployment _) as [[g og]|]; [|done].
  destruct (foldl_error _ _ _) as [s|[err|]]; simpl; [|done..].
  destruct (ToUnstructured_DeploymentStatus _) as [newStatus|]; [|done].
  destruct (updateStatus src newStatus) as [[src' need]|] eqn:E; [|done]. destruct (Marshal_digests _); [|done].
  destruct (hasAnnotation _ _ _); [|done]. intros [= -> ->]. unfold updateStatus in E.
  destruct (NestedMap _ _); [|done]. case_bool_decide; [by injection E as <-|]. by destruct (SetNestedField _ _ _).
Qed.

(** C35. The annotation with the digests is computed but never sent: as long as the
    source object lacks it, every reconciliation of a deployment whose status is
    already the aggregated one sends the source object back unchanged, and so
    the next reconciliation does the same. *)
Theorem digests_never_sent key ftc src fed objs upToDate src' obj (need : bool) status w :
  aggregation_input a key ftc src fed objs upToDate ->
  rk_gvk key = {| gvk_Group := "apps"; gvk_Version := "v1"; gvk_Kind := DeploymentKind |} ->
  PopulateAnnotations src fed = (src', false) ->
  Deployment_AggregateStatuses src' fed objs upToDate = inl (Some (obj, need)) ->
  uns_GetAnnotations obj <> uns_GetAnnotations src' ->
  uns_Object src !! "status"%string = Some (VMap status) -> uns_Object obj !! "status"%string = Some (VMap status) ->
  sao_Get w (GetSourceTypeGVR ftc) (rk_namespace key) (rk_name key) = inl src ->
  (reconcile (S := logged S) a now (w, []) key).1.2 = [UpdateSourceStatus (GetSourceTypeGVR ftc) (rk_namespace key) src].
Proof.
  intros [H1 H2 H3 H4 H5 H6 H7 H8] Hgvk Hpop Hagg Hann Hsrc Hobj Hget.
  assert (need = true) as -> by (destruct need; [done|]; apply Deployment_unchanged in Hagg; congruence).
  unfold reconcile, getFTCIfStatusAggregationIsEnabled. rewrite H1, H2, H3.
  rewrite bool_decide_false, H5, bool_decide_false, H7, H8 by (rewrite ?H4, ?H6; by intros [? ?]).
  unfold feedback. rewrite Hpop. unfold aggregate, GetPlugin. rewrite Hgvk. simpl. rewrite Hagg.
  unfold writeStatus. simpl. rewrite Hget.
  rewrite (proj2 (NestedMap_Some (uns_Object obj) ["status"%string] status)) by by rewrite NestedField_top, Hobj.
  rewrite SetNestedField_top, (insert_id (uns_Object src)) by done. destruct src as [o].
  by destruct (sao_UpdateStatus _ _ _ _) as [w1 [err|]].
Qed.
End Digests.

(** ** Examples *)

Section Witnesses.
#[local] Existing Instance small_kubernetes.
#[local] Existing Instance small_runtime.
#[local] Existing Instance small_statuses.
#[local] Existing Instance small_digests.
#[local] Instance web_codecs : Codecs := table_codecs [web_source].
#[local] Instance web_libraries : FederateLibraries := table_libraries [web_source].

Definition web_key : reconcileKey := {|
  rk_gvk := {| gvk_Group := "apps"; gvk_Version := "v1"; gvk_Kind := DeploymentKind |};
  rk_namespace := "default"; rk_name := "web" |}.

Definition web_ftc : FederatedTypeConfig := {|
  ftc_Name := "deployments.apps"; ReplicasSpec := "spec.replicas"; ReplicasStatus := ""; ReadyReplicasStatus := "";
  AutoMigrationEnabled := false; ftc_Annotations := ∅; StatusAggregationEnabled := true; StatusCollection := None; Controllers := [];
  SourceType := {| ar_Group := "apps"; ar_Version := "v1"; ar_Kind := DeploymentKind; ar_PluralName := "deployments";
                   ar_Scope := "Namespaced" |} |}.

(** Its status is the sum of those of the clusters. *)
Definition settled_source : Unstructured := member 7 ∅ (web_status 7 7).

Definition web_lister (u : Unstructured + ApiError) : ResourceLister :=
  {| rl_HasSynced := true; rl_Get := fun _ => u; rl_List := inl [] |}.

Definition web_aggregator (src : Unstructured) : StatusAggregator := {|
  sa_ResourceFTC := fun _ => Some web_ftc;
  sa_ListFTCs := inl [web_ftc];
  sa_ResourceLister := fun _ => Some (web_lister (inl src));
  sa_ClusterResourceLister := fun _ c =>
    Some (web_lister (match web_members !! c with Some u => inl u | None => inr NotFound end));
  sa_FederatedObject := fun _ _ => inl fed_web;
  sa_ClusterFederatedObject := fun _ => inr NotFound;
  sa_ReadyClusters := inl ((fun n => sync_cluster n None) <$> ["a"; "b"; "c"]%string);
  sa_clusterAvailableDelay := 20000000000;
  sa_clusterUnavailableDelay := 60000000000
|}.

Definition web_server (src : Unstructured) : AggregationServer unit := {|
  sao_Update := fun w _ _ _ => (w, None);
  sao_Get := fun _ _ _ _ => inl src;
  sao_UpdateStatus := fun w _ _ _ => (w, None)
|}.

(** A federated object that reports back; its template is not up to date. *)
Definition fed_reporting : FederatedObject := SetAnnotations fed_web
  {[ SchedulingAnnotation := "{}"%string; ObservedAnnotationKeysAnnotation := "note|"%string ]}.

(** The aggregator when the federated object reports back. *)
Definition reporting_aggregator : StatusAggregator := {|
  sa_ResourceFTC := sa_ResourceFTC (web_aggregator web_source);
  sa_ListFTCs := sa_ListFTCs (web_aggregator web_source);
  sa_ResourceLister := sa_ResourceLister (web_aggregator web_source);
  sa_ClusterResourceLister := sa_ClusterResourceLister (web_aggregator web_source);
  sa_FederatedObject := fun _ _ => inl fed_reporting;
  sa_ClusterFederatedObject := sa_ClusterFederatedObject (web_aggregator web_source);
  sa_ReadyClusters := sa_ReadyClusters (web_aggregator web_source);
  sa_clusterAvailableDelay := 20000000000;
  sa_clusterUnavailableDelay := 60000000000
|}.

Definition reporting_run := reconcile (S := logged (web_server web_source)) reporting_aggregator 100 (tt, []) web_key.

(** The annotation first, then the status. *)
Example reporting_requests : (fun req => match req with UpdateSource _ _ _ => "metadata" | UpdateSourceStatus _ _ _ => "status" end) <$>
  reporting_run.1.2 = ["metadata"; "status"]%string.
Proof. vm_compute. reflexivity. Qed.

Lemma aggregator_requests_witness :
  exists ftc src fed objs upToDate src' (needUpdate : bool) log1,
    aggregation_input reporting_aggregator web_key ftc src fed objs upToDate /\ fed_back fed src src' needUpdate /\
    reporting_run.1.2 = (if needUpdate then [UpdateSource (GetSourceTypeGVR ftc) "default" src'] else []) ++ log1 /\
    (needUpdate = true /\ log1 = [] /\ StatusAllOK <> StatusAllOK \/
     status_part (web_server web_source) 100 web_key ftc src' fed objs upToDate StatusAllOK log1).
Proof.
  destruct (aggregator_requests (web_server web_source) reporting_aggregator 100 web_key tt tt reporting_run.1.2 StatusAllOK)
    as [[H _]|H].
  - intros src [= <-]. vm_compute. reflexivity.
  - vm_compute. reflexivity.
  - exfalso. vm_compute in H. discriminate H.
  - exact H.
Defined.

Definition settled_result : Unstructured * bool :=
  match Deployment_AggregateStatuses (PopulateAnnotations settled_source fed_web).1 fed_web web_members false with
  | inl (Some r) => r
  | _ => (settled_source, false)
  end.

Lemma digests_never_sent_witness :
  (reconcile (S := logged (web_server settled_source)) (web_aggregator settled_source) 100 (tt, []) web_key).1.2 =
  [UpdateSourceStatus (GetSourceTypeGVR web_ftc) "default" settled_source].
Proof.
  apply (digests_never_sent (web_server settled_source) (web_aggregator settled_source) 100 web_key web_ftc settled_source
    fed_web web_members false (PopulateAnnotations settled_source fed_web).1 settled_result.1 settled_result.2
    (web_status 7 7) tt).
  - split; try done; vm_compute; reflexivity.
  - done.
  - vm_compute; reflexivity.
  - vm_compute; reflexivity.
  - apply (bool_decide_eq_false_1 _). vm_compute; reflexivity.
  - vm_compute; reflexivity.
  - vm_compute; reflexivity.
  - done.
Defined.
End Witnesses.
