(* ===== verification/StatusController.v ===== *)
(** * The status controller ([pkg/controllers/status])

    For each federated object it collects the fields that the type config names
    from the objects in the ready clusters, and keeps them in a collected status
    object.  The caches and clients are the fields of [StatusController]; the
    informers for clusters, types and federated objects are those of the sync
    controller's record.  The result of a reconciliation is the worker result and
    the request that is sent, if any.  Events, metrics and logs are left out. *)

From Stdlib Require Import ZArith Lia String Ascii.
From S2P Require Import Prelude GoStrings K8s Types ApiTypes Unstructured Codecs FedObject Retain PodUtil MemberObjects.
From S2P Require Import Naming Sync Federate Digests.

(** ** Collected status objects *)

(** [CollectedFields] is the raw JSON. *)
Record CollectedFieldsWithCluster := { cfc_Cluster : string; CollectedFields : string; cfc_Error : string }.
#[export] Instance CollectedFieldsWithCluster_eq_dec : EqDecision CollectedFieldsWithCluster.
Proof. solve_decision. Defined.

(** [CollectedStatus] and [ClusterCollectedStatus], which has no namespace. *)
Record CollectedStatus := {
  cs_Namespace : string;
  cs_Name : string;
  cs_Labels : gmap string string;
  cs_Annotations : gmap string string;
  cs_OwnerReferences : list MetaOwnerReference;
  cs_Clusters : list CollectedFieldsWithCluster;
  cs_LastUpdateTime : Time
}.

(** JSON of the collected fields, and [metav1.NewControllerRef]. *)
Class StatusCodecs := {
  Marshal_fields : Object -> string + string;
  NewControllerRef_fed : FederatedObject -> GroupVersionKind -> MetaOwnerReference
}.

Section Status.
Context `{K : Kubernetes} `{R : GoRuntime} `{C : !Codecs}.
Context `{D : !DigestCodecs} `{SC : !StatusCodecs}.

Record StatusController := {
  stc_Informers : SyncController;
  stc_ReadyClusters : list FederatedCluster + string;
  stc_CollectedStatus : string -> string -> CollectedStatus + ApiError;
  stc_ClusterCollectedStatus : string -> CollectedStatus + ApiError;
  stc_Create : CollectedStatus -> option ApiError;
  stc_Update : CollectedStatus -> option ApiError;
  stc_Delete : string -> string -> option ApiError;
  stc_clusterAvailableDelay : Z;
  stc_clusterUnavailableDelay : Z;
  stc_memberObjectEnqueueDelay : Z
}.

Inductive StatusRequest :=
  | CreateStatus (obj : CollectedStatus)
  | UpdateCollectedStatus (obj : CollectedStatus)
  | DeleteStatus (namespace name : string).

(** ** Collecting fields *)

(** The fields so far and those that failed.  A field that cannot be set is
    logged only. *)
Definition collectField (clusterObj : Unstructured) (s : Object * list string) (field : string) : Object * list string :=
  let '(collectedFields, failedFields) := s in
  match NestedFieldNoCopy (uns_Object clusterObj) (split_on "." field) with
  | inr err => (collectedFields, failedFields ++ [(field ++ ": " ++ err)%string])
  | inl None => (collectedFields, failedFields ++ [(field ++ ": not found")%string])
  | inl (Some fieldVal) =>
      match SetNestedField collectedFields fieldVal (split_on "." field) with
      | inl collectedFields => (collectedFields, failedFields)
      | inr _ => s
      end
  end.

Definition collectFields (fields : list string) (clusterObj : Unstructured) : Object * list string :=
  foldl (collectField clusterObj) (∅, []) fields.

Definition statusFields (typeConfig : FederatedTypeConfig) : list string :=
  match StatusCollection typeConfig with Some c => scc_Fields c | None => [] end.

Definition failedMessage (failedFields : list string) : string :=
  match failedFields with
  | [] => ""
  | _ => "Failed to get those fields: " ++ String.concat ", " (sort_slice String.ltb failedFields)
  end.

Variable s : StatusController.

(** What is collected from one cluster. *)
Definition clusterFields (fedObject : FederatedObject) (targetQualifiedName : QualifiedName) (targetGVK : GroupVersionKind)
    (typeConfig : FederatedTypeConfig) (clusterName : string) : option CollectedFieldsWithCluster :=
  match GetClusterObject (stc_Informers s) clusterName targetQualifiedName targetGVK with
  | inr err => Some {| cfc_Cluster := clusterName; CollectedFields := "";
      cfc_Error := "Failed to get object from cluster, error info: " ++ err |}
  | inl None => None
  | inl (Some clusterObj) =>
      if negb (eqb (IsDerivedService (fo_Annotations fedObject)) (IsDerivedService (uns_GetAnnotations clusterObj))) then None
      else
        let '(collectedFields, failedFields) := collectFields (statusFields typeConfig) clusterObj in
        match Marshal_fields collectedFields with
        | inr _ => None
        | inl collectedFieldsBytes => Some {| cfc_Cluster := clusterName; CollectedFields := collectedFieldsBytes;
            cfc_Error := failedMessage failedFields |}
        end
  end.

Definition clusterLess (x y : CollectedFieldsWithCluster) : bool := String.ltb (cfc_Cluster x) (cfc_Cluster y).

Definition clusterStatuses (fedObject : FederatedObject) (targetQualifiedName : QualifiedName) (targetGVK : GroupVersionKind)
    (typeConfig : FederatedTypeConfig) (clusterNames : list string) : list CollectedFieldsWithCluster :=
  sort_slice clusterLess (omap (clusterFields fedObject targetQualifiedName targetGVK typeConfig) clusterNames).

Definition latestReplicasetDigests (clusterNames : list string) (targetQualifiedName : QualifiedName)
    (targetGVK : GroupVersionKind) : list LatestReplicasetDigest + string :=
  bind_error (foldl_error (fun digests clusterName =>
    match GetClusterObject (stc_Informers s) clusterName targetQualifiedName targetGVK with
    | inr err => inr err
    | inl None => inl digests
    | inl (Some clusterObj) =>
        match LatestReplicasetDigestFromObject clusterName clusterObj with
        | (digest, []) => inl (digests ++ [digest])
        | _ => inl digests
        end
    end) [] clusterNames) (fun digests => inl (sort_slice digestLess digests)).

Definition clusterNames : list string + string :=
  match stc_ReadyClusters s with inl clusters => inl (c_Name <$> clusters) | inr err => inr err end.

Definition newCollectedStatusObject (fedObj : FederatedObject) (clusterStatus : list CollectedFieldsWithCluster)
    : CollectedStatus :=
  let kind := if String.eqb (fo_Namespace fedObj) "" then "ClusterFederatedObject"%string else "FederatedObject"%string in {|
    cs_Namespace := fo_Namespace fedObj; cs_Name := fo_Name fedObj; cs_Labels := fo_Labels fedObj; cs_Annotations := ∅;
    cs_OwnerReferences := [NewControllerRef_fed fedObj (WithKind CoreSchemeGroupVersion kind)];
    cs_Clusters := clusterStatus; cs_LastUpdateTime := zero_time |}.

(** ** Reconciliation *)

Definition getCollectedStatus (qualifiedName : QualifiedName) : CollectedStatus + ApiError :=
  if String.eqb (qn_Namespace qualifiedName) "" then stc_ClusterCollectedStatus s (qn_Name qualifiedName)
  else stc_CollectedStatus s (qn_Namespace qualifiedName) (qn_Name qualifiedName).

Definition cs_HasAnnotationKeyValue (o : CollectedStatus) (key value : string) : bool :=
  bool_decide (cs_Annotations o !! key = Some value).

(** The digests annotation of a deployment, or the empty string; nothing when
    the digests cannot be encoded. *)
Definition digestsAnnotation (templateGVK : GroupVersionKind) (clusterNames : list string) (targetQualifiedName : QualifiedName)
    : option string :=
  if bool_decide (templateGVK = {| gvk_Group := "apps"; gvk_Version := "v1"; gvk_Kind := DeploymentKind |}) then
    match latestReplicasetDigests clusterNames targetQualifiedName templateGVK with
    | inr _ => Some ""%string
    | inl digests => match Marshal_digests digests with inl bytes => Some bytes | inr _ => None end
    end
  else Some ""%string.

(** The object to be created: [collectedStatus] with the annotation. *)
Definition withDigests (rsDigestsAnnotation : string) (o : CollectedStatus) : CollectedStatus :=
  if String.eqb rsDigestsAnnotation "" then o
  else {| cs_Namespace := cs_Namespace o; cs_Name := cs_Name o; cs_Labels := cs_Labels o;
          cs_Annotations := {[LatestReplicasetDigestsAnnotation := rsDigestsAnnotation]};
          cs_OwnerReferences := cs_OwnerReferences o; cs_Clusters := cs_Clusters o;
          cs_LastUpdateTime := cs_LastUpdateTime o |}.

Definition setLastUpdateTime (now : Time) (o : CollectedStatus) : CollectedStatus := {|
  cs_Namespace := cs_Namespace o; cs_Name := cs_Name o; cs_Labels := cs_Labels o; cs_Annotations := cs_Annotations o;
  cs_OwnerReferences := cs_OwnerReferences o; cs_Clusters := cs_Clusters o; cs_LastUpdateTime := now |}.

(** The existing object with the clusters, labels and annotations of
    [collectedStatus]; the time of the update goes to [collectedStatus]. *)
Definition updatedStatus (existingStatus collectedStatus : CollectedStatus) : CollectedStatus := {|
  cs_Namespace := cs_Namespace existingStatus; cs_Name := cs_Name existingStatus;
  cs_Labels := cs_Labels collectedStatus;
  cs_Annotations := cs_Annotations collectedStatus ∪ cs_Annotations existingStatus;
  cs_OwnerReferences := cs_OwnerReferences existingStatus;
  cs_Clusters := cs_Clusters collectedStatus; cs_LastUpdateTime := cs_LastUpdateTime existingStatus |}.

Definition writeCollectedStatus (now : Time) (existingStatus : option CollectedStatus) (collectedStatus : CollectedStatus)
    (rsDigestsAnnotation : string) : WorkerResult * option StatusRequest :=
  match existingStatus with
  | None =>
      let collectedStatus := setLastUpdateTime now collectedStatus in
      (match stc_Create s collectedStatus with
       | Some err => if IsAlreadyExists err then StatusConflict else StatusError
       | None => StatusAllOK
       end, Some (CreateStatus collectedStatus))
  | Some existingStatus =>
      if bool_decide (cs_Clusters existingStatus = cs_Clusters collectedStatus) &&
         bool_decide (cs_Labels collectedStatus = cs_Labels existingStatus) &&
         (String.eqb rsDigestsAnnotation "" ||
          cs_HasAnnotationKeyValue existingStatus LatestReplicasetDigestsAnnotation rsDigestsAnnotation)
      then (StatusAllOK, None)
      else
        let updated := updatedStatus existingStatus collectedStatus in
        (match stc_Update s updated with
         | Some err => if IsConflict err then StatusConflict else StatusError
         | None => StatusAllOK
         end, Some (UpdateCollectedStatus updated))
  end.

Definition targetName_of (template : Unstructured) : QualifiedName :=
  {| qn_Namespace := uns_GetNamespace template; qn_Name := uns_GetName template |}.

Definition collect (now : Time) (qualifiedName : QualifiedName) (fedObject : FederatedObject) (template : Unstructured)
    (typeConfig : FederatedTypeConfig) : WorkerResult * option StatusRequest :=
  let templateGVK := uns_GroupVersionKind template in
  let templateQualifiedName := targetName_of template in
  match clusterNames with
  | inr _ => (requeueAfter (stc_clusterAvailableDelay s), None)
  | inl clusterNames =>
      let clusterStatuses := clusterStatuses fedObject templateQualifiedName templateGVK typeConfig clusterNames in
      match (match getCollectedStatus qualifiedName with
             | inl existingStatus => inl (Some existingStatus)
             | inr err => if IsNotFound err then inl None else inr err
             end) with
      | inr _ => (StatusError, None)
      | inl existingStatus =>
          match digestsAnnotation templateGVK clusterNames templateQualifiedName with
          | None => (StatusError, None)
          | Some rsDigestsAnnotation =>
              writeCollectedStatus now existingStatus
                (withDigests rsDigestsAnnotation (newCollectedStatusObject fedObject clusterStatuses)) rsDigestsAnnotation
          end
      end
  end.

Definition reconcile (now : Time) (qualifiedName : QualifiedName) : WorkerResult * option StatusRequest :=
  match getFromLister (stc_Informers s) qualifiedName with
  | inr err => (if IsNotFound err then StatusAllOK else StatusError, None)
  | inl fedObject =>
      if bool_decide (is_Some (fo_DeletionTimestamp fedObject)) then
        (match stc_Delete s (qn_Namespace qualifiedName) (qn_Name qualifiedName) with
         | Some err => if IsNotFound err then StatusAllOK else StatusError
         | None => StatusAllOK
         end, Some (DeleteStatus (qn_Namespace qualifiedName) (qn_Name qualifiedName)))
      else
        match GetTemplateAsUnstructured (fo_Spec fedObject) with
        | inr _ => (StatusError, None)
        | inl template =>
            match sc_ResourceFTC (stc_Informers s) (uns_GroupVersionKind template) with
            | None => (StatusAllOK, None)
            | Some typeConfig =>
                match StatusCollection typeConfig with
                | Some config =>
                    if scc_Enabled config then collect now qualifiedName fedObject template typeConfig
                    else (StatusAllOK, None)
                | None => (StatusAllOK, None)
                end
            end
        end
  end.

(** ** Events: what is enqueued, with the delay *)

Definition IsStatusCollectionEnabled (f : FederatedTypeConfig) : bool :=
  match StatusCollection f with Some c => scc_Enabled c | None => false end.

Definition enqueueEnableCollectedStatusObject (qualifiedName : QualifiedName) (delay : Z) : option (QualifiedName * Z) :=
  match getFromLister (stc_Informers s) qualifiedName with
  | inr _ => None
  | inl fedObject =>
      if bool_decide (is_Some (fo_DeletionTimestamp fedObject)) then Some (qualifiedName, 0)
      else
        match GetTemplateMetadata (fo_Spec fedObject) with
        | inr _ => None
        | inl templateMetadata =>
            match sc_ResourceFTC (stc_Informers s) (tm_GVK templateMetadata) with
            | None => None
            | Some typeConfig => if IsStatusCollectionEnabled typeConfig then Some (qualifiedName, delay) else None
            end
        end
  end.

Definition onFederatedObject (fedObject : FederatedObject) : option (QualifiedName * Z) :=
  enqueueEnableCollectedStatusObject {| qn_Namespace := fo_Namespace fedObject; qn_Name := fo_Name fedObject |} 0.

Definition onCollectedStatus (o : CollectedStatus) : QualifiedName * Z :=
  ({| qn_Namespace := cs_Namespace o; qn_Name := cs_Name o |}, 0).

Definition onMemberObject (uns : Unstructured) : option (QualifiedName * Z) :=
  match sc_ResourceFTC (stc_Informers s) (uns_GroupVersionKind uns) with
  | None => None
  | Some ftc => Some ({| qn_Namespace := uns_GetNamespace uns;
                         qn_Name := GenerateFederatedObjectName (uns_GetName uns) (ftc_Name ftc) |},
                      stc_memberObjectEnqueueDelay s)
  end.

(** Whether the handlers of a type are made anew. *)
Definition ftcChanged (lastApplied latest : option FederatedTypeConfig) : bool :=
  match lastApplied, latest with
  | Some lastApplied, Some latest =>
      negb (eqb (IsStatusCollectionEnabled lastApplied) (IsStatusCollectionEnabled latest)) ||
      match StatusCollection lastApplied, StatusCollection latest with
      | Some c, Some c' => negb (bool_decide (scc_Fields c = scc_Fields c'))
      | _, _ => false
      end
  | _, _ => true
  end.

(** The delays after which the federated objects are gone through. *)
Definition onClusterChange (oldCluster newCluster : FederatedCluster) : list Z :=
  let wasReady := IsClusterReady (Status oldCluster) in
  let isReady := IsClusterReady (Status newCluster) in
  (if negb wasReady && isReady then [stc_clusterAvailableDelay s] else []) ++
  (if wasReady && negb isReady then [stc_clusterUnavailableDelay s] else []).

Definition listed {B E} (objects : list B + E) : list B := match objects with inl objects => objects | inr _ => [] end.

Definition reconcileOnClusterChange : list (QualifiedName * Z) :=
  omap (fun obj => enqueueEnableCollectedStatusObject {| qn_Namespace := fo_Namespace obj; qn_Name := fo_Name obj |}
      reconcileOnClusterChangeDelay)
    (listed (sc_ListFederatedObjects (stc_Informers s)) ++ listed (sc_ListClusterFederatedObjects (stc_Informers s))).
End Status.
