(* ===== verification/StatusControllerTheorems.v ===== *)
(** * What the status controller collects

    Every field that a cluster has is collected with its value and every other is
    reported; the stored object shows the ready clusters, and reconciliations
    settle. *)

From Stdlib Require Import ZArith Lia String Ascii.
From S2P Require Import Prelude GoStrings K8s Types ApiTypes Unstructured Codecs FedObject PodUtil Retain.
From S2P Require Import MemberObjects Naming Sync SyncTheorems Federate FederateLibrary Digests StatusPlugins.
From S2P Require Import StatusController.

(** ** Fields *)

Abbreviation field_path := (split_on ".").

Section Fields.
Context `{K : Kubernetes} `{R : GoRuntime} `{C : !Codecs}.

(** What is reported of a field that is not collected. *)
Definition failure (clusterObj : Unstructured) (field : string) : option string :=
  match NestedFieldNoCopy (uns_Object clusterObj) (field_path field) with
  | inr err => Some (field ++ ": " ++ err)%string
  | inl None => Some (field ++ ": not found")%string
  | inl (Some _) => None
  end.

(** No field is listed twice or is part of another. *)
Definition apart_fields (fields : list string) : Prop :=
  NoDup fields /\ forall f g, f ∈ fields -> g ∈ fields -> f <> g -> apart (field_path f) (field_path g).

Lemma map_path_empty p : map_path (NestedFieldNoCopy ∅) p.
Proof. intros [|k q] _ _ H; [done|]. left. by apply NestedField_absent. Qed.

Lemma map_path_apart (get get' : list string -> option Value + string) p g :
  apart g p -> map_path get' g -> (forall q, apart g q -> get' q = get q) -> map_path get p -> map_path get' p.
Proof.
  intros [Hgp Hpg] Hg Hsame Hp q Hq Hne Hnil.
  destruct (decide (q `prefix_of` g)) as [Hqg|Hqg].
  - apply Hg; [done| |done]. intros ->. by apply Hgp.
  - rewrite Hsame; [by apply Hp|]. split; [|done]. intros H. apply Hgp. by etrans.
Qed.

Lemma collect_loop clusterObj (done todo : list string) collected failed :
  apart_fields (done ++ todo) ->
  (forall f, f ∈ todo -> map_path (NestedFieldNoCopy collected) (field_path f)) ->
  (forall f v, f ∈ done -> NestedFieldNoCopy (uns_Object clusterObj) (field_path f) = inl (Some v) ->
    NestedFieldNoCopy collected (field_path f) = inl (Some v)) ->
  let '(collected', failed') := foldl (collectField clusterObj) (collected, failed) todo in
  failed' = failed ++ omap (failure clusterObj) todo /\
  forall f v, f ∈ done ++ todo -> NestedFieldNoCopy (uns_Object clusterObj) (field_path f) = inl (Some v) ->
    NestedFieldNoCopy collected' (field_path f) = inl (Some v).
Proof.
  revert done collected failed. induction todo as [|g todo IH]; intros done collected failed Hap Hpath Hdone.
  { simpl. rewrite !app_nil_r. by split. }
  cbn [foldl]. unfold collectField at 2. unfold failure at 1. cbn [omap list_omap].
  assert (Hap' : apart_fields ((done ++ [g]) ++ todo)) by by rewrite <- app_assoc.
  destruct (NestedFieldNoCopy (uns_Object clusterObj) (field_path g)) as [[v|]|err] eqn:Eg.
  - destruct (SetNestedField_ok collected v (field_path g)) as [o' Ho]; [apply split_on_nonempty|by apply Hpath; left|].
    rewrite Ho. assert (Happ : forall f, f ∈ done ++ todo -> apart (field_path g) (field_path f)).
    { intros f Hf. apply Hap; [set_solver..|]. intros <-. destruct Hap as [Hnd _].
      apply NoDup_app in Hnd as (_ & Hn & Hnd). apply NoDup_cons in Hnd as [Hnd _].
      apply elem_of_app in Hf as [Hf|Hf]; [by apply (Hn _ Hf); left|done]. }
    specialize (IH (done ++ [g]) o' failed Hap'). rewrite <- app_assoc in IH. apply IH.
    + intros f Hf. eapply (map_path_apart (NestedFieldNoCopy collected)).
      * apply Happ. set_solver.
      * by eapply SetNestedField_path.
      * intros q Hq. by eapply SetNestedField_apart.
      * apply Hpath. by right.
    + intros f v' [Hf| ->%list_elem_of_singleton]%elem_of_app Hv'.
      * erewrite SetNestedField_apart; [by apply Hdone|done|]. apply Happ. set_solver.
      * rewrite Eg in Hv'. injection Hv' as <-. by eapply SetNestedField_get.
  - specialize (IH (done ++ [g]) collected (failed ++ [(g ++ ": not found")%string]) Hap').
    rewrite <- !app_assoc in IH. apply IH.
    + intros f Hf. apply Hpath. by right.
    + intros f v' [Hf| ->%list_elem_of_singleton]%elem_of_app Hv'; [by apply Hdone|congruence].
  - specialize (IH (done ++ [g]) collected (failed ++ [(g ++ ": " ++ err)%string]) Hap').
    rewrite <- !app_assoc in IH. apply IH.
    + intros f Hf. apply Hpath. by right.
    + intros f v' [Hf| ->%list_elem_of_singleton]%elem_of_app Hv'; [by apply Hdone|congruence].
Qed.

(** Nothing is found apart from the fields that are collected. *)
Lemma collect_nothing_else clusterObj todo collected failed q :
  (forall f v, f ∈ todo -> NestedFieldNoCopy (uns_Object clusterObj) (field_path f) = inl (Some v) ->
    apart (field_path f) q) ->
  NestedFieldNoCopy (foldl (collectField clusterObj) (collected, failed) todo).1 q = NestedFieldNoCopy collected q.
Proof.
  revert collected failed. induction todo as [|g todo IH]; intros collected failed Hap; [done|].
  cbn [foldl]. unfold collectField at 2.
  assert (Hap' : forall f v, f ∈ todo -> NestedFieldNoCopy (uns_Object clusterObj) (field_path f) = inl (Some v) ->
    apart (field_path f) q) by (intros f v Hf; apply Hap; by right).
  destruct (NestedFieldNoCopy (uns_Object clusterObj) (field_path g)) as [[v|]|err] eqn:Eg; [|by rewrite IH..].
  destruct (SetNestedField collected v (field_path g)) as [o'|] eqn:Es; [|by rewrite IH].
  rewrite IH by done. eapply SetNestedField_apart; [exact Es|]. eapply Hap; [by left|exact Eg].
Qed.

(** [collected] are the listed fields that the object has, with their values,
    and nothing else. *)
Record fields_of (clusterObj : Unstructured) (listed : list string) (collected : Object) : Prop := {
  fo_found : forall f v, f ∈ listed -> NestedFieldNoCopy (uns_Object clusterObj) (field_path f) = inl (Some v) ->
    NestedFieldNoCopy collected (field_path f) = inl (Some v);
  fo_nothing_else : forall q, q <> [] ->
    (forall f v, f ∈ listed -> NestedFieldNoCopy (uns_Object clusterObj) (field_path f) = inl (Some v) ->
      apart (field_path f) q) ->
    NestedFieldNoCopy collected q = inl None
}.

(** When no listed field is part of another, the fields that the object has
    are collected with their values, and exactly the others are reported. *)
Theorem collectFields_spec fields clusterObj : apart_fields fields ->
  let '(collectedFields, failedFields) := collectFields fields clusterObj in
  failedFields = omap (failure clusterObj) fields /\ fields_of clusterObj fields collectedFields.
Proof.
  intros Hap. pose proof (collect_loop clusterObj [] fields ∅ [] Hap) as Hloop.
  pose proof (collect_nothing_else clusterObj fields ∅ []) as Hnone. unfold collectFields.
  destruct (foldl _ _ _) as [collected failed]. destruct Hloop as [Hfailed Hfound].
  - intros f _. apply map_path_empty.
  - intros f v Hf. by apply elem_of_nil in Hf.
  - split; [done|split; [done|]]. intros [|k q] Hq Hother; [done|]. rewrite Hnone by done. by apply NestedField_absent.
Qed.
End Fields.

(** ** Clusters *)

Section Controller.
Context `{K : Kubernetes} `{R : GoRuntime} `{C : !Codecs} `{D : !DigestCodecs} `{SC : !StatusCodecs}.

#[local] Instance clusterLess_order : StrictWeakOrder clusterLess.
Proof. unfold clusterLess. apply swo_on, swo_string. Qed.

(** What the cache of a ready cluster has for the object. *)
Definition object_in (s : StatusController) (template : Unstructured) (c : string) : option Unstructured + string :=
  GetClusterObject (stc_Informers s) c (targetName_of template) (uns_GroupVersionKind template).

Definition same_service (fed : FederatedObject) (obj : Unstructured) : Prop :=
  IsDerivedService (fo_Annotations fed) = IsDerivedService (uns_GetAnnotations obj).

(** The cluster has the object, or its cache fails.  Of a derived service and
    another the one is not the object of the other. *)
Definition reports (s : StatusController) (fed : FederatedObject) (template : Unstructured) (c : string) : Prop :=
  (exists err, object_in s template c = inr err) \/
  (exists obj, object_in s template c = inl (Some obj) /\ same_service fed obj).

(** The entry of a cluster: an error, or the fields that its object has and the
    names of the others. *)
Inductive entry_of (s : StatusController) (fed : FederatedObject) (template : Unstructured) (listed : list string)
    (x : CollectedFieldsWithCluster) : Prop :=
  | entry_failed err : object_in s template (cfc_Cluster x) = inr err -> CollectedFields x = ""%string ->
      cfc_Error x = ("Failed to get object from cluster, error info: " ++ err)%string -> entry_of s fed template listed x
  | entry_collected obj collected failed :
      object_in s template (cfc_Cluster x) = inl (Some obj) -> same_service fed obj ->
      fields_of obj listed collected -> Marshal_fields collected = inl (CollectedFields x) ->
      failed ≡ₚ omap (failure obj) listed -> StronglySorted (sorted_rel String.ltb) failed ->
      cfc_Error x = (if bool_decide (failed = []) then ""
                     else "Failed to get those fields: " ++ String.concat ", " failed)%string ->
      entry_of s fed template listed x.

(** One entry for each cluster that reports, in the order of their names. *)
Record shows (s : StatusController) (fed : FederatedObject) (template : Unstructured) (listed clusters : list string)
    (entries : list CollectedFieldsWithCluster) : Prop := {
  sh_ordered : StronglySorted (fun x y => String.ltb (cfc_Cluster x) (cfc_Cluster y) = true) entries;
  sh_clusters : forall c, c ∈ cfc_Cluster <$> entries <-> c ∈ clusters /\ reports s fed template c;
  sh_entries : Forall (entry_of s fed template listed) entries
}.

Lemma clusterFields_cluster s fed name gvk ftc c x : clusterFields s fed name gvk ftc c = Some x -> cfc_Cluster x = c.
Proof.
  unfold clusterFields. destruct (GetClusterObject _ _ _ _) as [[obj|]|err]; [|done|by intros [= <-]].
  destruct (negb _); [done|]. destruct (collectFields _ _) as [o failed]. destruct (Marshal_fields o); [|done].
  by intros [= <-].
Qed.

Lemma failedMessage_sorted failed : exists failed', failed' ≡ₚ failed /\ StronglySorted (sorted_rel String.ltb) failed' /\
  failedMessage failed = (if bool_decide (failed' = []) then ""
    else "Failed to get those fields: " ++ String.concat ", " failed')%string.
Proof.
  exists (sort_slice String.ltb failed). split_and!; [apply sort_slice_perm|apply sort_slice_sorted, _|].
  unfold failedMessage. destruct failed as [|f failed].
  - rewrite bool_decide_true; [done|]. by apply Permutation_nil_r, sort_slice_perm.
  - rewrite bool_decide_false; [done|]. intros H. pose proof (sort_slice_perm _ String.ltb (f :: failed)) as Hp.
    rewrite H in Hp. by apply Permutation_nil_cons in Hp.
Qed.

Lemma clusterFields_entry s fed template ftc c x : apart_fields (statusFields ftc) ->
  clusterFields s fed (targetName_of template) (uns_GroupVersionKind template) ftc c = Some x ->
  entry_of s fed template (statusFields ftc) x /\ reports s fed template c.
Proof.
  intros Hap Hx. pose proof (clusterFields_cluster _ _ _ _ _ _ _ Hx) as <-. revert Hx.
  unfold clusterFields, reports. fold (object_in s template (cfc_Cluster x)).
  destruct (object_in s template (cfc_Cluster x)) as [[obj|]|err] eqn:Eo; [|done|].
  2: { intros Hx. split; [|left; by exists err]. eapply entry_failed; [exact Eo|by injection Hx as <-..]. }
  destruct (eqb _ _) eqn:Ed; [|done]. apply eqb_prop in Ed. simpl.
  pose proof (collectFields_spec _ obj Hap) as Hc. destruct (collectFields _ obj) as [collected failed].
  destruct Hc as [-> Hfields]. destruct (Marshal_fields collected) as [bytes|] eqn:Em; [|done]. intros Hx.
  destruct (failedMessage_sorted (omap (failure obj) (statusFields ftc))) as (failed & Hp & Hs & Hmsg).
  split; [|right; by exists obj]. eapply (entry_collected _ _ _ _ _ obj collected failed); try done; by injection Hx as <-.
Qed.

Lemma reports_entry s fed template ftc c : (forall o, exists bytes, Marshal_fields o = inl bytes) ->
  reports s fed template c ->
  is_Some (clusterFields s fed (targetName_of template) (uns_GroupVersionKind template) ftc c).
Proof.
  intros Hm Hr. unfold clusterFields. fold (object_in s template c).
  destruct Hr as [[err ->]|(obj & -> & Hd)]; [done|]. rewrite Hd, eqb_reflx. simpl.
  destruct (collectFields _ obj) as [collected failed]. destruct (Hm collected) as [bytes ->]. done.
Qed.

(** Sorted by a key that occurs once, the keys increase. *)
Lemma sorted_once l : NoDup (cfc_Cluster <$> l) -> StronglySorted (sorted_rel clusterLess) l ->
  StronglySorted (fun x y => String.ltb (cfc_Cluster x) (cfc_Cluster y) = true) l.
Proof.
  intros Hnd Hs. induction Hs as [|x l Hs IH Hx]; constructor; rewrite fmap_cons in Hnd;
    apply NoDup_cons in Hnd as [Hn Hnd]; [by apply IH|].
  apply Forall_forall. intros y Hy. rewrite Forall_forall in Hx. specialize (Hx y Hy). unfold sorted_rel, clusterLess in Hx.
  destruct (String.ltb (cfc_Cluster x) (cfc_Cluster y)) eqn:E; [done|]. exfalso. apply Hn.
  rewrite (string_ltb_total _ _ E Hx). by apply list_elem_of_fmap_2.
Qed.

Lemma omap_names s fed name gvk ftc names :
  cfc_Cluster <$> omap (clusterFields s fed name gvk ftc) names `sublist_of` names.
Proof.
  induction names as [|c names IH]; [done|]. cbn [omap list_omap].
  destruct (clusterFields _ _ _ _ _ c) as [x|] eqn:E; [|by apply sublist_cons].
  rewrite fmap_cons, (clusterFields_cluster _ _ _ _ _ _ _ E). by apply sublist_skip.
Qed.

Lemma clusterStatuses_shows s fed template ftc names :
  NoDup names -> apart_fields (statusFields ftc) -> (forall o, exists bytes, Marshal_fields o = inl bytes) ->
  shows s fed template (statusFields ftc) names
    (clusterStatuses s fed (targetName_of template) (uns_GroupVersionKind template) ftc names).
Proof.
  intros Hnd Hap Hm. unfold clusterStatuses. set (xs := omap _ names).
  assert (Hxs : forall x, x ∈ sort_slice clusterLess xs <-> exists c, c ∈ names /\
    clusterFields s fed (targetName_of template) (uns_GroupVersionKind template) ftc c = Some x)
    by (intros x; rewrite elem_of_sort_slice; apply list_elem_of_omap).
  split.
  - apply sorted_once; [|apply sort_slice_sorted, _]. rewrite sort_slice_perm.
    eapply sublist_NoDup; [exact Hnd|apply omap_names].
  - intros c. rewrite list_elem_of_fmap. split.
    + intros (x & -> & (c' & Hc & Hx)%Hxs). rewrite (clusterFields_cluster _ _ _ _ _ _ _ Hx).
      split; [done|]. by eapply clusterFields_entry.
    + intros [Hc Hr]. destruct (reports_entry s fed template ftc c Hm Hr) as [x Hx]. exists x.
      split; [symmetry; by eapply clusterFields_cluster|]. apply Hxs. by exists c.
  - apply Forall_forall. intros x (c & _ & Hx)%Hxs. by eapply clusterFields_entry.
Qed.

(** ** Reconciliation *)

(** The collected status object after a request. *)
Definition stored (existing : CollectedStatus + ApiError) (req : option StatusRequest) : CollectedStatus + ApiError :=
  match req with
  | None => existing
  | Some (CreateStatus o) | Some (UpdateCollectedStatus o) => inl o
  | Some (DeleteStatus _ _) => inr NotFound
  end.

(** The controller when its cache has the object. *)
Definition seeing (o : CollectedStatus) (s : StatusController) : StatusController := {|
  stc_Informers := stc_Informers s; stc_ReadyClusters := stc_ReadyClusters s;
  stc_CollectedStatus := fun _ _ => inl o; stc_ClusterCollectedStatus := fun _ => inl o;
  stc_Create := stc_Create s; stc_Update := stc_Update s; stc_Delete := stc_Delete s;
  stc_clusterAvailableDelay := stc_clusterAvailableDelay s; stc_clusterUnavailableDelay := stc_clusterUnavailableDelay s;
  stc_memberObjectEnqueueDelay := stc_memberObjectEnqueueDelay s |}.

Record collection_input (s : StatusController) (key : QualifiedName) (fed : FederatedObject) (template : Unstructured)
    (ftc : FederatedTypeConfig) (clusters : list FederatedCluster) : Prop := {
  ci_fed : getFromLister (stc_Informers s) key = inl fed;
  ci_alive : fo_DeletionTimestamp fed = None;
  ci_template : GetTemplateAsUnstructured (fo_Spec fed) = inl template;
  ci_ftc : sc_ResourceFTC (stc_Informers s) (uns_GroupVersionKind template) = Some ftc;
  ci_enabled : IsStatusCollectionEnabled ftc = true;
  ci_clusters : stc_ReadyClusters s = inl clusters
}.

Lemma reconcile_collects s key fed template ftc clusters now : collection_input s key fed template ftc clusters ->
  reconcile s now key = collect s now key fed template ftc.
Proof.
  intros [H1 H2 H3 H4 H5 _]. unfold reconcile. rewrite H1, bool_decide_false, H3, H4 by (rewrite H2; by intros [? ?]).
  unfold IsStatusCollectionEnabled in H5. destruct (StatusCollection ftc) as [c|]; [|done]. by rewrite H5.
Qed.

Lemma withDigests_frame digests o : cs_Clusters (withDigests digests o) = cs_Clusters o /\
  cs_Labels (withDigests digests o) = cs_Labels o /\
  (digests <> ""%string -> cs_Annotations (withDigests digests o) !! LatestReplicasetDigestsAnnotation = Some digests).
Proof.
  unfold withDigests. destruct (String.eqb_spec digests ""); [done|]. simpl. split_and!; [done..|]. intros _.
  apply lookup_singleton_eq.
Qed.

Lemma writeCollectedStatus_stored s now existing o digests :
  (digests <> ""%string -> cs_Annotations o !! LatestReplicasetDigestsAnnotation = Some digests) ->
  exists o', stored (from_option inl (inr NotFound) existing) (writeCollectedStatus s now existing o digests).2 = inl o' /\
    cs_Clusters o' = cs_Clusters o /\ cs_Labels o' = cs_Labels o /\
    (digests <> ""%string -> cs_Annotations o' !! LatestReplicasetDigestsAnnotation = Some digests).
Proof.
  intros Hd. unfold writeCollectedStatus. destruct existing as [e|]; [|by eexists]. destruct (_ && _) eqn:E.
  - rewrite !andb_true_iff, !bool_decide_eq_true in E. destruct E as [[E1 E2] E3]. exists e. split_and!; [done..|].
    intros Hne. apply String.eqb_neq in Hne. rewrite Hne in E3. by apply bool_decide_eq_true in E3.
  - eexists. split_and!; [done..|]. intros Hne. simpl. by apply lookup_union_Some_l, Hd.
Qed.

Lemma writeCollectedStatus_settled s now e o digests :
  cs_Clusters e = cs_Clusters o -> cs_Labels e = cs_Labels o ->
  (digests <> ""%string -> cs_Annotations e !! LatestReplicasetDigestsAnnotation = Some digests) ->
  writeCollectedStatus s now (Some e) o digests = (StatusAllOK, None).
Proof.
  intros H1 H2 H3. unfold writeCollectedStatus, cs_HasAnnotationKeyValue.
  rewrite !bool_decide_true by done. simpl. destruct (String.eqb_spec digests "") as [|Hne]; [done|].
  by rewrite bool_decide_true by by apply H3.
Qed.

(** C24. A reconciliation of an object whose status is collected, with the ready
    clusters read from the cache, that succeeds (in particular its API request)
    leaves a collected status object with the labels of the federated object and
    exactly one entry for each ready cluster that has the object or whose cache
    fails, ordered by the names of the clusters; an entry has the listed fields
    that the object in the cluster has, with their values, and nothing else, and
    reports the fields that are missing, or the failure.  The next
    reconciliation, of the same caches but for the stored object, sends nothing.
    No listed field is part of another, and JSON of the fields does not fail. *)
Theorem status_collected s key fed template ftc clusters now now' :
  collection_input s key fed template ftc clusters ->
  NoDup (c_Name <$> clusters) -> apart_fields (statusFields ftc) -> (forall o, exists bytes, Marshal_fields o = inl bytes) ->
  (reconcile s now key).1 = StatusAllOK ->
  exists o, stored (getCollectedStatus s key) (reconcile s now key).2 = inl o /\
    shows s fed template (statusFields ftc) (c_Name <$> clusters) (cs_Clusters o) /\
    cs_Labels o = fo_Labels fed /\
    reconcile (seeing o s) now' key = (StatusAllOK, None).
Proof.
  intros Hin Hnd Hap Hm. rewrite (reconcile_collects _ _ _ _ _ _ _ Hin).
  assert (Hin' : forall o, collection_input (seeing o s) key fed template ftc clusters) by (intros o; by destruct Hin).
  destruct Hin as [_ _ _ _ _ Hc]. unfold collect, clusterNames. rewrite Hc.
  pose proof (clusterStatuses_shows s fed template ftc (c_Name <$> clusters) Hnd Hap Hm) as Hshows.
  set (found := match getCollectedStatus s key with inl _ => _ | inr _ => _ end).
  destruct found as [existing|err] eqn:Ef; [|done].
  assert (Hex : getCollectedStatus s key = from_option inl (inr NotFound) existing).
  { subst found. destruct (getCollectedStatus s key) as [e|[]]; simplify_eq/=; done. }
  destruct (digestsAnnotation s _ _ _) as [digests|] eqn:Ed; [|done]. intros _.
  destruct (withDigests_frame digests (newCollectedStatusObject fed (clusterStatuses s fed (targetName_of template)
    (uns_GroupVersionKind template) ftc (c_Name <$> clusters)))) as (Hcl & Hl & Ha).
  rewrite Hex. destruct (writeCollectedStatus_stored s now existing _ digests Ha) as (o' & Hs & Hc' & Hl' & Ha').
  exists o'. split; [exact Hs|]. rewrite Hc', Hl', Hcl, Hl. split_and!; [exact Hshows|done|].
  rewrite (reconcile_collects _ _ _ _ _ _ _ (Hin' o')). unfold collect, clusterNames.
  change (stc_ReadyClusters (seeing o' s)) with (stc_ReadyClusters s). rewrite Hc.
  change (digestsAnnotation (seeing o' s)) with (digestsAnnotation s). rewrite Ed.
  assert (getCollectedStatus (seeing o' s) key = inl o') as -> by (unfold getCollectedStatus; by destruct (String.eqb _ _)).
  apply writeCollectedStatus_settled; [by rewrite Hc'|by rewrite Hl'|done].
Qed.

(** An update keeps the time at which the object was updated last: it is the
    time of its creation forever. *)
Theorem last_update_time_kept s now key r o :
  reconcile s now key = (r, Some (UpdateCollectedStatus o)) ->
  exists existing, getCollectedStatus s key = inl existing /\ cs_LastUpdateTime o = cs_LastUpdateTime existing /\
    cs_OwnerReferences o = cs_OwnerReferences existing.
Proof.
  assert (Hw : forall e c d, writeCollectedStatus s now e c d = (r, Some (UpdateCollectedStatus o)) ->
    exists existing, e = Some existing /\ o = updatedStatus existing c).
  { intros [e|] c d; unfold writeCollectedStatus; [|done]. destruct (_ && _); [done|]. intros [= _ <-]. by exists e. }
  unfold reconcile. destruct (getFromLister _ _) as [fed|]; [|done]. case_bool_decide as Hd; [done|].
  destruct (GetTemplateAsUnstructured _) as [template|]; [|done]. destruct (sc_ResourceFTC _ _) as [ftc|]; [|done].
  destruct (StatusCollection ftc) as [c|]; [|done]. destruct (scc_Enabled c); [|done].
  unfold collect. destruct (clusterNames s) as [names|]; [|done].
  destruct (getCollectedStatus s key) as [e|err]; [|destruct (IsNotFound err); [|done]];
    (destruct (digestsAnnotation _ _ _ _) as [d|]; [|done]); intros H; apply Hw in H as (existing & E & ->); [|done].
  injection E as <-. by exists e.
Qed.
End Controller.

(** ** Examples *)

Section Witnesses.
#[local] Existing Instance small_kubernetes.
#[local] Existing Instance small_runtime.
#[local] Existing Instance small_digests.

Definition api_template : Unstructured := {| uns_Object := list_to_map [
  ("apiVersion", VString "v1"); ("group", VString "apps"); ("kind", VString DeploymentKind);
  ("metadata", VMap (list_to_map [("name", VString "api"); ("namespace", VString "default")]))]%string |}.

#[local] Instance api_codecs : Codecs := table_codecs [api_template].

(** The fields are not printed. *)
#[local] Instance api_status_codecs : StatusCodecs := {|
  Marshal_fields := fun o => inl (decimal (Z.of_nat (size o)));
  NewControllerRef_fed := fun o gvk => {| mor_APIVersion := GroupVersion_String {| gv_Group := gvk_Group gvk; gv_Version := gvk_Version gvk |};
    mor_Kind := gvk_Kind gvk; mor_Name := fo_Name o; mor_UID := "1"; mor_Controller := Some true;
    mor_BlockOwnerDeletion := Some true |}
|}.

Definition api_fields : list string := ["spec.replicas"; "status.readyReplicas"]%string.

Definition api_ftc : FederatedTypeConfig := {|
  ftc_Name := "deployments.apps"; ReplicasSpec := "spec.replicas"; ReplicasStatus := ""; ReadyReplicasStatus := "";
  AutoMigrationEnabled := false; ftc_Annotations := ∅; StatusAggregationEnabled := true;
  StatusCollection := Some {| scc_Enabled := true; scc_Fields := api_fields |}; Controllers := [];
  SourceType := {| ar_Group := "apps"; ar_Version := "v1"; ar_Kind := DeploymentKind; ar_PluralName := "deployments";
                   ar_Scope := "Namespaced" |} |}.

Definition fed_api : FederatedObject := {|
  fo_Namespace := "default"; fo_Name := "api-deployments.apps"; fo_Labels := {[ "team"%string := "x"%string ]};
  fo_Annotations := ∅; fo_OwnerReferences := []; fo_Generation := 1; fo_DeletionTimestamp := None; fo_Finalizers := [];
  fo_Spec := {| Template := "0"; Overrides := []; Placements := []; Follows := [] |}; fo_Status := empty_status |}.

(** The object in cluster [a] has no status, [b] has no object, and the cache of
    [c] fails. *)
Definition api_member : Unstructured := {| uns_Object := list_to_map [
  ("metadata", VMap (list_to_map [("name", VString "api")]));
  ("spec", VMap (list_to_map [("replicas", VInt 2)]))]%string |}.

Definition api_informers : SyncController := {|
  sc_FederatedObject := fun _ _ => inl fed_api;
  sc_ClusterFederatedObject := fun _ => inr NotFound;
  sc_ListFederatedObjects := inl [fed_api];
  sc_ListClusterFederatedObjects := inl [];
  sc_JoinedClusters := inl [];
  sc_ClusterLister := fun n => inl (sync_cluster n None);
  sc_ResourceFTC := fun _ => Some api_ftc;
  sc_ListFTCs := inl [api_ftc];
  sc_ResourceLister := fun _ c => Some {|
    rl_HasSynced := true;
    rl_Get := fun _ => if String.eqb c "a" then inl api_member
                       else if String.eqb c "b" then inr NotFound else inr (OtherError "broken");
    rl_List := inl [] |};
  sc_DynamicClient := fun _ => None;
  sc_fedNamespace := "kube-admiral-system"
|}.

Definition api_clusters : list FederatedCluster := (fun n => sync_cluster n None) <$> ["c"; "b"; "a"]%string.

Definition api_controller (existing : CollectedStatus + ApiError) : StatusController := {|
  stc_Informers := api_informers;
  stc_ReadyClusters := inl api_clusters;
  stc_CollectedStatus := fun _ _ => existing;
  stc_ClusterCollectedStatus := fun _ => inr NotFound;
  stc_Create := fun _ => None;
  stc_Update := fun _ => None;
  stc_Delete := fun _ _ => None;
  stc_clusterAvailableDelay := 20000000000;
  stc_clusterUnavailableDelay := 60000000000;
  stc_memberObjectEnqueueDelay := 10000000000
|}.

Definition api_key : QualifiedName := {| qn_Namespace := "default"; qn_Name := "api-deployments.apps" |}.

Lemma api_fields_apart : apart_fields api_fields.
Proof.
  split; [apply (bool_decide_eq_true_1 _); vm_compute; reflexivity|].
  assert (forall p q, bool_decide (p `prefix_of` q) = false -> ~ (p `prefix_of` (q : list string))) as Hd
    by (intros p q H; by apply bool_decide_eq_false in H).
  intros f g Hf Hg Hne. unfold api_fields in Hf, Hg. rewrite !elem_of_cons, elem_of_nil in Hf, Hg.
  destruct_or? Hf; destruct_or? Hg; subst; try done; split; apply Hd; vm_compute; reflexivity.
Qed.

Lemma collectFields_spec_witness :
  (collectFields api_fields api_member).2 = ["status.readyReplicas: not found"%string] /\
  NestedFieldNoCopy (collectFields api_fields api_member).1 ["spec"; "replicas"]%string = inl (Some (VInt 2)).
Proof.
  pose proof (collectFields_spec api_fields api_member api_fields_apart) as H.
  destruct (collectFields api_fields api_member) as [o failed]. destruct H as [-> H]. split.
  - vm_compute; reflexivity.
  - apply (fo_found _ _ _ H "spec.replicas"%string); [by left|vm_compute; reflexivity].
Defined.

Lemma status_collected_witness : exists o,
  stored (inr NotFound) (reconcile (api_controller (inr NotFound)) 9 api_key).2 = inl o /\
  (forall c, c ∈ cfc_Cluster <$> cs_Clusters o <->
    c ∈ ["c"; "b"; "a"]%string /\ reports (api_controller (inr NotFound)) fed_api api_template c) /\
  cs_Labels o = {[ "team"%string := "x"%string ]} /\
  reconcile (seeing o (api_controller (inr NotFound))) 99 api_key = (StatusAllOK, None).
Proof.
  destruct (status_collected (api_controller (inr NotFound)) api_key fed_api api_template api_ftc api_clusters 9 99)
    as (o & H1 & H2 & H3 & H4).
  - split; done || vm_compute; reflexivity.
  - apply (bool_decide_eq_true _). vm_compute. reflexivity.
  - exact api_fields_apart.
  - intros fields. by eexists.
  - vm_compute. reflexivity.
  - exists o. split_and!; [exact H1|exact (sh_clusters _ _ _ _ _ _ H2)|exact H3|exact H4].
Defined.

(** The entries: cluster [a] has one of two fields, [b] has no object and the
    cache of [c] fails. *)
Example api_entries :
  match (reconcile (api_controller (inr NotFound)) 9 api_key).2 with
  | Some (CreateStatus o) => (fun x => (cfc_Cluster x, cfc_Error x)) <$> cs_Clusters o
  | _ => []
  end = [("a", "Failed to get those fields: status.readyReplicas: not found");
         ("c", "Failed to get object from cluster, error info: failed to get object from cache")]%string.
Proof. vm_compute. reflexivity. Qed.

(** An object that lists nothing, created at time 5. *)
Definition stale_status : CollectedStatus := {|
  cs_Namespace := "default"; cs_Name := "api-deployments.apps"; cs_Labels := ∅; cs_Annotations := ∅;
  cs_OwnerReferences := []; cs_Clusters := []; cs_LastUpdateTime := 5 |}.

Definition stale_update : CollectedStatus :=
  match reconcile (api_controller (inl stale_status)) 9 api_key with
  | (_, Some (UpdateCollectedStatus o)) => o
  | _ => stale_status
  end.

Lemma last_update_time_kept_witness : length (cs_Clusters stale_update) = 2%nat /\ cs_LastUpdateTime stale_update = 5.
Proof.
  split; [vm_compute; reflexivity|].
  destruct (last_update_time_kept (api_controller (inl stale_status)) 9 api_key StatusAllOK stale_update) as (e & He & -> & _).
  - vm_compute. reflexivity.
  - injection He as <-. reflexivity.
Defined.
End Witnesses.
